(* ===== verification/_CoqProject ===== *)
-Q . S2P
Prelude.v
GoLib.v
Regex.v
EventTypes.v
Version.v
CloudEvents.v
Libraries.v
SpecTransport.v
Transport.v
Metadata.v
Conflation.v
ConflationFacts.v
ConflationSystem.v
ConflationSafety.v
ConflationProgress.v
ConflationProps.v
Committer.v
Handlers.v
KubeObjects.v
TimeFilter.v
Emitter.v
GenericHandler.v
PolicyHandlers.v
EventHandlers.v
StatusSyncer.v
PolicySyncer.v
ComplianceDB.v
ComplianceFacts.v
ComplianceFlow.v
ObjectDB.v
ObjectFacts.v
HubManagement.v
Base64.v
SpecAgent.v
SpecAgentFacts.v
HubFlow.v
EventTables.v
InfoHandlers.v
LabelTable.v
LabelFlow.v
KubeClient.v
StackRox.v
StackRoxFacts.v
KafkaAccess.v
KafkaAccessFacts.v
AgentAddon.v
Migration.v
MigrationFacts.v
MigrationFlow.v
Retention.v
RetentionFacts.v
HistoryJob.v
SyncInterval.v
SpecDB.v
SpecFlow.v
Operand.v
MetaController.v
Backup.v
BackupFacts.v
DatabaseLock.v
RestUtil.v
RestLists.v
RestFacts.v
Credentials.v
Certificates.v
CertificatesFacts.v
TransportClients.v
TransportFacts.v
TransportController.v
Receivers.v
TransportSample.v
Deployer.v
StrimziInstall.v
StrimziFacts.v
