(* ===== verification/Prelude.v ===== *)
(** * Verification library for the multicluster global hub

    The program has three parts. The _agents_ run on the managed hubs
    ([agent/]): they watch Kubernetes objects, build bundles and send them as
    CloudEvents over Kafka ([pkg/transport]). The _manager_ runs on the global hub
    ([manager/]): it conflates the bundles of each hub, writes them to PostgreSQL,
    follows the life of the hubs, serves requests, and sends specifications back
    to the agents. The _operator_ ([operator/]) installs both. The library models
    the first two and what the operator decides for them, each definition
    translated from the Go code it names in its file (paths below are relative to
    the repository).

    ** Conventions

    - Go functions that can panic, block or run for ever return an [outcome];
      errors are values ([result], or [option goerror] with a new state).
    - State is passed explicitly; objects that the code shares through pointers
      live in a store ([Metadata], [KubeObjects]) and are named by addresses.
    - 64-bit integers are [Z] with [wrap64] and [swrap64]; times and durations
      are nanoseconds; Go maps are [gmap], sets [gset]; the order in which a map
      is ranged over is left open where the result depends on it.
    - Code outside the repository (CloudEvents SDK, Kafka, GORM and PostgreSQL,
      the Kubernetes client, polls and retries, JSON) is a class of operations;
      its documented behaviour is a class of laws, each with an instance on
      finite maps or lists on which the properties are instantiated.

    ** Files

    Shared: [Prelude], [GoLib] (strconv, strings), [Regex], [Base64],
    [CloudEvents], [Libraries] (producer, polls, retries), [EventTypes]
    ([pkg/enum]), [Version] ([pkg/bundle/version]), [SpecTransport] (events from
    the manager to the agents).

    Transport: [Transport] ([pkg/transport/producer], [pkg/transport/consumer]):
    chunks and their assembly.

    Status, from the agents to the manager:
    - [KubeObjects], [TimeFilter], [Emitter], [GenericHandler],
      [PolicyHandlers], [EventHandlers], [StatusSyncer],
      [PolicySyncer]: the syncers of the agent ([agent/pkg/status],
      [pkg/bundle/grc], [pkg/bundle/event]).
    - [Metadata], [Conflation] ([manager/pkg/status/conflator]), its facts
      ([ConflationFacts], [ConflationProgress]) and the
      running pipeline as a step relation ([ConflationSystem],
      [ConflationSafety], [ConflationProps]: dispatchers
      and workers of [manager/pkg/status]); [Committer] (offsets).
    - [Handlers] (registrations), [ComplianceDB], [ComplianceFacts],
      [ComplianceFlow] (compliance tables), [ObjectDB],
      [ObjectFacts] (tables of objects), [EventTables] (tables of
      events), [InfoHandlers] (hub information, security, minimal compliance):
      [manager/pkg/status/handlers].

    Hubs: [HubManagement] ([manager/pkg/processes/hubmanagement] and the heartbeat
    handler), [HubFlow] (a probe followed by the resync of an agent).

    Specifications, from the manager to the agents:
    - [SpecDB]: the global objects
      ([manager/pkg/spec/controllers], [specdb/gorm], [syncers]);
      [SyncInterval]: how often a table is sent ([syncers/interval]).
    - [LabelTable]: the labels of managed clusters
      ([restapis/managedclusters/patch.go], the label syncer and watcher).
    - [SpecAgent], [SpecAgentFacts]: dispatcher, workers and syncers of the agent
      ([agent/pkg/spec]).
    - [SpecFlow], [LabelFlow]: both ends together.
    - [Migration], [MigrationFacts], [MigrationFlow]: clusters
      that leave a hub for another ([manager/pkg/controllers/migration_controller.go],
      [agent/pkg/spec/syncers/migration_from_syncer.go] and [migration_to_syncer.go],
      [klusterlet_addon_config_handler.go]); the API servers are a client of nine
      kinds of objects, with a store of maps as its instance.

    Jobs: [Retention] ([ParseRetentionMonth], its use by the operator, the job of the manager),
    [RetentionFacts], [HistoryJob]
    ([manager/pkg/processes/cronjob]).

    Security: [StackRox], [StackRoxFacts] ([agent/pkg/status/syncers/security]):
    the alert counts of the centrals of a hub, up to the manager.

    Operator, over a client of kinds of objects ([KubeClient], with a server of
    maps):
    - [KafkaAccess], [KafkaAccessFacts]: the configuration of the transport, and
      the topics and users of the hubs ([operator/pkg/config/transport_config.go],
      [operator/pkg/controllers/transporter/protocol]).
    - [AgentAddon]: which cluster gets an agent
      ([operator/pkg/controllers/agent]), proved against the interface of a
      transporter, which both transporters implement.
    - [Operand]: the conditions, components and phase of the
      operand ([operator/pkg/config/status.go]), and the kinds of objects that the
      operator and the backup share, with a server that has a status subresource.
    - [MetaController]: the reconciliation of the operand and its
      deletion ([operator/pkg/controllers/meta.go], [pkg/jobs/prune_finalizer.go]).

    - [Deployer]: rendered objects and how they are applied
      ([operator/pkg/deployer], [ManipulateGlobalHubObjects] and other helpers of
      [operator/pkg/utils/utils.go]); objects are metadata and JSON.
    - [StrimziInstall], [StrimziFacts]: the Kafka cluster that the operator
      installs, its removal, and the controllers of the transport
      ([transporter/protocol/strimzi_transporter.go],
      [strimzi_kafka_controller.go], [transport_reconciler.go]).
    - [Certificates], [CertificatesFacts]: the authorities and certificates of the
      inventory, their renewal, and the requests of the agents that are approved and
      signed ([operator/pkg/certificates],
      [operator/pkg/controllers/agent/certificates]); X.509, PEM and cfssl are a
      class with laws.

    Credentials and clients of the transport: [Credentials]
    (what the operator writes and the clients read: [pkg/transport/config], the
    credentials of both transporters, the manifests of an agent, the restart of
    the manager), [TransportClients], [TransportController]
    ([pkg/transport/consumer], [producer], [requester] and [controller]),
    [TransportFacts], [Receivers] (the goroutines of a
    consumer, as a step relation) and [TransportSample].

    REST API of the manager ([manager/pkg/restapis]): [RestUtil]
    (selectors and tokens), [RestLists] (lists,
    watches, the status of a policy, the report of a subscription), [RestFacts]. The answers of the database are rows in its order, and an
    inserted value has no quote.

    Backup: [Backup], [BackupFacts] ([operator/pkg/controllers/backup], and
    [manager/pkg/controllers/backup_controller.go], which copies what the operator
    has labelled), and [DatabaseLock]: the lock between the
    copy and the writers of the manager ([pkg/database/gorm_conn.go]), as a step
    relation over the goroutines.

    ** What the theorems show

    - Conflation: at most one job of each hub and complete type in flight, the
      choice of the next job, the refinement of an element to the newest version
      offered, versions that never go back, and the runs in which an element or a
      unit is lost ([one_job_per_complete_element], [GetNext_first_ready],
      [insert_refines_offer], [last_processed_version_monotone],
      [lock_failure_orphans_element] and the others of [ConflationProps]).
    - Transport and offsets: the chunks of an event with an ID reassemble in any
      order and those of one without are lost; the committed position is the lowest
      pending one of those that the elements keep, which may be past a delta event
      in flight ([chunked_event_reassembled], [metadataToCommit_spec],
      [delta_in_flight_offset_is_skipped]).
    - Agent: versions delivered increase and are accepted by the manager, each
      change is sent once, refused events stay due, bundles stay well formed
      ([emitter_delivers_increasing_versions], [new_emitter_events_are_accepted],
      [sync_sends_each_change_once], [complete_bundle_well_formed]).
    - Tables: a handled bundle makes the rows of its hub its content and leaves
      those of the others, where it does; redelivery is harmless
      ([compliance_bundle_is_the_hub_state], [reported_state_reaches_the_table],
      [minimal_bundle_is_the_hub_state], [hub_info_is_the_live_row],
      [redelivered_events_change_nothing]).
    - Hubs: the probe follows the heartbeats, and a hub that comes back sends its
      state again ([probe_follows_heartbeats],
      [reactivated_hub_resends_its_state]).
    - Specifications: a table keeps one row for each name, what is reconciled is
      stored, and what is stored reaches every hub ([names_stay_unique],
      [reconciled_object_is_stored], [global_objects_reach_every_hub]); a patch
      of labels is the sequence of its JSON patches and reaches the cluster
      ([patch_applies_in_sequence], [patch_reaches_the_cluster]); the agent
      processes any bundle to its end, unless an identity cannot be decoded
      ([generic_bundle_is_applied], [undecodable_identity_stops_the_agent]).
    - Jobs and bounds: the interval of a syncer stays within its bounds, a
      retention survives printing and parsing but wraps when it is too long, the
      partitions form a window, the paged snapshot is one insertion
      ([interval_doubles_up_to_a_minute], [retention_is_bounded_and_wraps],
      [retention_keeps_a_window], [snapshot_is_one_insertion]).
    - Migration: the clusters of an event leave their hub and no other does, the
      add-on configuration reaches the target hub, the service account follows the
      migration, and one unknown cluster stops all
      ([migration_detaches_the_clusters], [addon_config_reaches_the_target],
      [service_account_follows_the_migration],
      [unknown_cluster_stops_the_migration], [target_hub_is_prepared]).
    - Security: an answered central sends its counts, and no event of them is ever
      accepted by the manager ([answered_counts_are_sent],
      [security_alerts_never_reach_the_table] and the others of
      [StackRoxFacts]).
    - Operator: a hub writes its own topic only and keeps rights that it was
      given otherwise, an accepted configuration is well formed, each cluster has
      what the decision for it asks for, agents are gone before it is said once a live operand
      was seen, and the hosted configuration grows ([hub_writes_its_own_topic_only],
      [accepted_config_is_well_formed],
      [reconciled_cluster_has_what_belongs_there],
      [agents_are_removed_before_it_is_said], [hosted_config_grows_for_ever]).
    - Operand: when it runs, what its deletion waits for and leaves, and what is
      lost ([phase_counts_components], [operand_goes_when_the_controllers_agree],
      [pruned_objects_lose_the_finalizer], [conditions_stay_one_of_each_type],
      [conditions_set_meanwhile_are_lost], [restarted_operator_waits_for_nobody],
      [failed_controllers_are_not_retried]).
    - Installation: applied objects are there and left alone, what is no longer
      rendered stays; the Kafka cluster follows the operand and settles, what the
      operand no longer asks for stays, and it is removed after the agents once its
      controller has seen a live operand, unless a version is missing ([applied_objects_are_left_alone],
      [dropped_entries_stay], [pruned_metrics_are_gone],
      [installed_cluster_converges], [removed_placement_stays],
      [kafka_goes_after_the_agents], [missing_version_blocks_the_removal]).
    - Certificates: a first run makes two chains and a second nothing, expired
      authorities stay until they expire and deleted ones are restored, the renewal
      of the server certificate is a panic, and a longer name of a hub is approved
      ([fresh_certificates_chain], [old_authorities_stay_until_they_expire],
      [deleted_authority_is_restored], [server_certificate_renewal_panics],
      [agents_are_signed_by_the_inventory_authority], [longer_name_is_approved]).
    - Transport clients: what the operator writes is what the manager and the
      agents read, the clients follow the stored credential while the
      reconciliations succeed, there is one receiver when goroutines start in
      order; failures of the clients, of the callback and of the restart are
      forgotten, a receiver can be lost, and errors count for longer than they say
      ([agent_reads_what_the_operator_wrote],
      [manager_reads_what_the_operator_wrote], [given_cluster_is_read_by_all],
      [settings_follow_the_credential], [clients_follow_the_credential],
      [update_reaches_the_callback], [orderly_consumer_has_one_receiver],
      [manager_restarts_when_a_connection_changes],
      [failed_update_is_forgotten], [failed_restart_is_forgotten],
      [lost_receiver_is_never_stopped], [watch_list_grows_for_ever],
      [errors_stop_the_process]).
    - REST API: selectors are read as they are written, pages hold every policy
      and every subscription but not every cluster, statuses and reports follow
      their rows, and watches tell nothing or too much
      ([selectors_are_read_as_written], [double_equals_is_refused],
      [pages_list_every_policy], [pages_list_every_subscription],
      [cluster_pages_repeat], [last_name_hides_clusters],
      [policy_status_follows_the_rows], [report_sums_the_hubs],
      [watch_sends_no_object], [policy_watch_tells_what_is_gone],
      [changed_policy_is_sent_at_every_tick]).
    - Backup: what is labelled and copied, and what the labels leave behind
      ([backup_labels_every_resource], [deleted_labels_leave_the_annotation],
      [labels_that_failed_count_as_added], [triggered_copy_is_complete]); the lock
      keeps the copy and the writers apart while the backup stays enabled, and
      does not when the flag changes ([copies_exclude_writers],
      [waiting_copy_can_start], [disabled_backup_leaks_the_lock],
      [enabled_backup_breaks_the_writers], [failed_lock_gives_back_anothers]).

    Theorems whose name says what goes wrong are proved of the code as it is; the
    same runs are the witnesses that their hypotheses can hold.

    ** Fuel

    [split_loop] has more fuel than the payload has bytes, and every iteration
    takes at least one ([split_loop_spec]); [isCurrentOrAnyDependencyInProcess]
    has one more than the number of elements, enough since dependencies have lower
    priorities ([chain_fuel_enough]); [snapshot_loop] has one more than the number
    of pages ([snapshot_done]); [batches] has the length of its list
    ([batches_concat]). Polls and retries are relations that any number of calls
    satisfies; the instances allow a few calls.

    ** Not modelled

    Start-up and wiring of processes, tickers (a run is a list of rounds), logs,
    metrics other than the gauges of the jobs, statistics; the SDK and the
    Kafka library, and settings read from files; the HTTP server and the conversion to tables;
    the other reconcilers of the operator, which render manifests; the calls of
    the agent to the inventory; [ParseDuration], which only its tests call; the
    driver in [specdb/postgresql], which nothing constructs. *)

From stdpp Require Import prelude gmap strings list fin_maps.
From Stdlib Require Import ZArith Lia.

(** ** Outcomes of Go code

    A call of a Go function either returns, panics (nil dereference, index out
    of range, write to a nil map), blocks (a send on a full channel) or
    diverges (unbounded recursion). Error values are ordinary results. *)
Inductive outcome (A : Type) : Type :=
| Ret (a : A)
| Panic
| Block
| Diverge.
Arguments Ret {A} a.
Arguments Panic {A}.
Arguments Block {A}.
Arguments Diverge {A}.

Definition obind {A B} (m : outcome A) (k : A -> outcome B) : outcome B :=
  match m with
  | Ret a => k a
  | Panic => Panic
  | Block => Block
  | Diverge => Diverge
  end.

Declare Scope go_scope.
Delimit Scope go_scope with go.
Notation "'let!' x := m 'in' k" := (obind m (fun x => k))
  (at level 200, x pattern, m at level 100, k at level 200, right associativity) : go_scope.
Open Scope go_scope.

Definition is_ret {A} (m : outcome A) : bool :=
  match m with Ret _ => true | _ => false end.

(** Go functions returning [(T, error)]: error values are carried as messages. *)
Definition goerror := string.
Inductive result (A : Type) : Type :=
| Ok (a : A)
| Err (e : goerror).
Arguments Ok {A} a.
Arguments Err {A} e.

Definition rbind {A B} (m : result A) (k : A -> result B) : result B :=
  match m with
  | Ok a => k a
  | Err e => Err e
  end.
Notation "'let?' x := m 'in' k" := (rbind m (fun x => k))
  (at level 200, x pattern, m at level 100, k at level 200, right associativity) : go_scope.

(** ** Machine integers *)
Definition two64 : Z := 2 ^ 64.
Definition two63 : Z := 2 ^ 63.
Definition wrap64 (z : Z) : Z := z mod two64.
(** Two's complement reading of the low 64 bits. *)
Definition swrap64 (z : Z) : Z := (z + two63) mod two64 - two63.
Definition u64_ok (z : Z) : Prop := (0 <= z < two64)%Z.
Definition i64_ok (z : Z) : Prop := (- two63 <= z < two63)%Z.

#[global] Arguments wrap64 : simpl never.
#[global] Arguments swrap64 : simpl never.

Lemma wrap64_ok z : u64_ok (wrap64 z).
Proof. unfold u64_ok, wrap64, two64. apply Z.mod_pos_bound. lia. Qed.

Lemma wrap64_small z : u64_ok z -> wrap64 z = z.
Proof. unfold u64_ok, wrap64. intros. apply Z.mod_small. lia. Qed.

Lemma swrap64_small z : i64_ok z -> swrap64 z = z.
Proof.
  unfold i64_ok, swrap64, two63, two64. intros H.
  rewrite Z.mod_small; lia.
Qed.

(** ** Go slices *)
Section Slices.
Context {A : Type}.
Implicit Types l : list A.

(** [s[i]]: a run-time panic outside the bounds. *)
Definition slice_get (l : list A) (i : nat) : outcome A :=
  match l !! i with
  | Some a => Ret a
  | None => Panic
  end.

(** [s[i] = a] *)
Definition slice_set (l : list A) (i : nat) (a : A) : outcome (list A) :=
  if decide (i < length l) then Ret (<[i := a]> l) else Panic.

(** [append(s[:i], s[i+1:]...)] *)
Definition slice_remove (l : list A) (i : nat) : list A := take i l ++ drop (S i) l.

(** The first index satisfying [p]; [None] is the code's [-1]. *)
Fixpoint find_index (p : A -> bool) (l : list A) : option nat :=
  match l with
  | [] => None
  | x :: l' => if p x then Some 0 else option_map S (find_index p l')
  end.

Lemma slice_get_Ret l i a : slice_get l i = Ret a <-> l !! i = Some a.
Proof. unfold slice_get. destruct (l !! i); split; congruence. Qed.

Lemma slice_set_lt l i a : i < length l -> slice_set l i a = Ret (<[i := a]> l).
Proof. intros. unfold slice_set. by rewrite decide_True. Qed.

Lemma find_index_Some p l i :
  find_index p l = Some i ->
  exists x, l !! i = Some x /\ p x = true /\ forall j y, j < i -> l !! j = Some y -> p y = false.
Proof.
  revert i; induction l as [|x l IH]; intros i H; simpl in H; [done|].
  destruct (p x) eqn:Ep.
  - injection H as <-. exists x. repeat split; [done..|]. intros; lia.
  - destruct (find_index p l) as [k|] eqn:E; [|done]. injection H as <-.
    destruct (IH k eq_refl) as (z & Hz & Pz & Hlt).
    exists z. repeat split; [done..|].
    intros [|j] y Hj Hy; simpl in Hy; [congruence|]. apply (Hlt j); [lia|done].
Qed.

Lemma find_index_None p l : find_index p l = None <-> Forall (fun x => p x = false) l.
Proof.
  induction l as [|x l IH]; simpl.
  - split; auto.
  - rewrite Forall_cons. destruct (p x).
    + split; [done|intros [? _]; done].
    + destruct (find_index p l); simpl; split; try done.
      * intros [_ H]. apply IH in H. done.
      * intros _. split; [done|]. by apply IH.
Qed.

Lemma slice_remove_length l i x : l !! i = Some x -> S (length (slice_remove l i)) = length l.
Proof.
  intros H. apply lookup_lt_Some in H. unfold slice_remove.
  rewrite length_app, length_take, length_drop. lia.
Qed.

Lemma slice_remove_elem l i y : y ∈ slice_remove l i -> y ∈ l.
Proof.
  unfold slice_remove. rewrite elem_of_app. intros [H|H].
  - by eapply subseteq_take.
  - by eapply subseteq_drop.
Qed.

Lemma slice_remove_perm l i x : l !! i = Some x -> l ≡ₚ x :: slice_remove l i.
Proof.
  intros H. unfold slice_remove.
  rewrite <- (take_drop_middle l i x H) at 1.
  by rewrite Permutation_middle.
Qed.
End Slices.

(** ** Generic lemmas on lists and finite maps *)
Lemma NoDup_fmap_remove {A B} (f : A -> B) (l : list A) i x :
  l !! i = Some x -> NoDup (f <$> l) -> NoDup (f <$> slice_remove l i) /\ f x ∉ f <$> slice_remove l i.
Proof.
  intros H Hnd. rewrite (slice_remove_perm l i x H), fmap_cons, NoDup_cons in Hnd.
  by destruct Hnd.
Qed.

Lemma NoDup_fmap_eq {A B} (f : A -> B) (l : list A) x y :
  NoDup (f <$> l) -> x ∈ l -> y ∈ l -> f x = f y -> x = y.
Proof.
  induction l as [|a l IH]; simpl; intros Hn Hx Hy E; [by apply not_elem_of_nil in Hx|].
  apply NoDup_cons in Hn as [Ha Hn].
  apply elem_of_cons in Hx as [->|Hx]; apply elem_of_cons in Hy as [->|Hy]; auto.
  - destruct Ha. rewrite E. apply list_elem_of_fmap. eauto.
  - destruct Ha. rewrite <- E. apply list_elem_of_fmap. eauto.
Qed.

(** Two lists related element by element by a partial function, the second
    without repetition: the function is a bijection between them. *)
Lemma Forall2_partial_bijection {A B} (f : A -> option B) (es : list A) (cs : list B) :
  Forall2 (fun e c => f e = Some c) es cs -> NoDup cs ->
  (forall e, e ∈ es -> exists c, f e = Some c /\ c ∈ cs) /\
  (forall c, c ∈ cs -> exists e, e ∈ es /\ f e = Some c) /\
  (forall e e' c, e ∈ es -> e' ∈ es -> f e = Some c -> f e' = Some c -> e = e').
Proof.
  intros HF Hn. split; [|split].
  - intros e (i & Hi)%list_elem_of_lookup.
    destruct (Forall2_lookup_l _ _ _ _ _ HF Hi) as (c & Hc & Ec). eauto using list_elem_of_lookup_2.
  - intros c (i & Hi)%list_elem_of_lookup.
    destruct (Forall2_lookup_r _ _ _ _ _ HF Hi) as (e & He & Ec). eauto using list_elem_of_lookup_2.
  - intros e e' c (i & Hi)%list_elem_of_lookup (j & Hj)%list_elem_of_lookup He He'.
    destruct (Forall2_lookup_l _ _ _ _ _ HF Hi) as (ci & Hci & Ei).
    destruct (Forall2_lookup_l _ _ _ _ _ HF Hj) as (cj & Hcj & Ej).
    assert (i = j) as ->; [|congruence].
    eapply NoDup_lookup; [exact Hn|exact Hci|]. rewrite Hcj. congruence.
Qed.

Lemma omap_Forall2 {A B} (f : A -> option B) (l : list A) :
  (forall e, e ∈ l -> is_Some (f e)) -> Forall2 (fun e c => f e = Some c) l (omap f l).
Proof.
  induction l as [|e l IH]; intros Hs; simpl; [constructor|].
  destruct (Hs e) as [c Ec]; [apply list_elem_of_here|]. rewrite Ec.
  constructor; [done|]. apply IH. intros; apply Hs. by apply list_elem_of_further.
Qed.

Lemma fold_left_invariant {A B} (P : B -> Prop) (f : B -> A -> B) (l : list A) (b : B) :
  (forall b a, a ∈ l -> P b -> P (f b a)) -> P b -> P (fold_left f l b).
Proof.
  revert b. induction l as [|a l IH]; intros b Hf Hb; simpl; [done|].
  apply IH.
  - intros b' a' Ha'. apply Hf. by apply list_elem_of_further.
  - apply Hf; [by apply list_elem_of_here|done].
Qed.

Lemma forallb_elem_of {A} (p : A -> bool) (l : list A) :
  forallb p l = true <-> forall x, x ∈ l -> p x = true.
Proof.
  rewrite forallb_forall. setoid_rewrite <- list_elem_of_In. done.
Qed.

Lemma filter_fmap_list {A B} (f : A -> B) (P : B -> Prop) `{!forall b, Decision (P b)} (l : list A) :
  filter P (f <$> l) = f <$> filter (fun a => P (f a)) l.
Proof.
  induction l as [|a l IH]; [done|]. rewrite fmap_cons, !filter_cons. case_decide; [by rewrite fmap_cons, IH|done].
Qed.

(** ** Automation of the development *)
Create HintDb hub.
#[export] Hint Resolve wrap64_ok : hub.
#[export] Hint Rewrite @slice_get_Ret : hub.

(** Splits the conjunctions and existentials of the context. *)
Ltac split_hyps :=
  repeat match goal with
  | H : _ /\ _ |- _ => destruct H
  | H : exists _, _ |- _ => destruct H
  end.

(** Inverts a chain of [let!]s that returned: each intermediate call returned. *)
Ltac inv_ret :=
  repeat match goal with
  | H : Ret _ = Ret _ |- _ => injection H; clear H; intros; subst
  | H : Panic = Ret _ |- _ => discriminate H
  | H : Block = Ret _ |- _ => discriminate H
  | H : Diverge = Ret _ |- _ => discriminate H
  | H : (let (_, _) := ?p in _) = Ret _ |- _ => is_var p; destruct p; simpl in H
  | H : obind ?m _ = Ret _ |- _ =>
      let E := fresh "E" in destruct m eqn:E; simpl in H; try discriminate H
  end.

(** Case analysis on the innermost [match] or [if] of a hypothesis or the goal. *)
Ltac case_in H :=
  match type of H with
  | context [match ?x with _ => _ end] =>
      lazymatch x with context [match _ with _ => _ end] => fail | _ => destruct x eqn:? end
  end.
Ltac case_goal :=
  match goal with
  | |- context [match ?x with _ => _ end] =>
      lazymatch x with context [match _ with _ => _ end] => fail | _ => destruct x eqn:? end
  end.

(** ** Strings *)
Lemma string_app_assoc (a b c : string) : (a +:+ b) +:+ c = a +:+ (b +:+ c).
Proof. induction a as [|x a IH]; [done|]. change (String x ((a +:+ b) +:+ c) = String x (a +:+ (b +:+ c))). by rewrite IH. Qed.
