(* ===== verification/GoLib.v ===== *)
(** * The parts of Go's standard library the modelled code uses

    [strings.Split] on a one-byte separator, [strings.TrimSpace], [strconv.ParseUint],
    [strconv.ParseInt] (base 10, 64 bit) and the [%d] verb of [fmt.Sprintf]. *)

From stdpp Require Import prelude strings list.
From Stdlib Require Import DecimalString DecimalN ZArith Ascii.
From S2P Require Import Prelude.
Local Open Scope string_scope.
Local Open Scope list_scope.

(** ** [strings.Split(s, sep)] for a one-character separator *)
Fixpoint split_char (sep : ascii) (s : string) : list string :=
  match s with
  | EmptyString => [""]
  | String c s' =>
      if Ascii.eqb c sep then "" :: split_char sep s'
      else match split_char sep s' with
           | [] => [String c ""]
           | w :: ws => String c w :: ws
           end
  end.

(** A string that does not hold the character. *)
Fixpoint no_char (c : ascii) (s : string) : bool :=
  match s with
  | EmptyString => true
  | String d s' => negb (Ascii.eqb d c) && no_char c s'
  end.

Lemma no_char_app c a b : no_char c (a +:+ b) = no_char c a && no_char c b.
Proof.
  induction a as [|d a IH]; [done|]. change (String d a +:+ b) with (String d (a +:+ b)).
  cbn [no_char]. by rewrite IH, andb_assoc.
Qed.

Lemma split_char_none sep s : no_char sep s = true -> split_char sep s = [s].
Proof.
  induction s as [|c s IH]; simpl; [done|].
  destruct (Ascii.eqb c sep); simpl; [done|]. intros H. by rewrite IH.
Qed.

Lemma split_char_app sep a b :
  no_char sep a = true -> split_char sep (a +:+ String sep b) = a :: split_char sep b.
Proof.
  induction a as [|c a IH]; simpl.
  - intros _. by rewrite Ascii.eqb_refl.
  - destruct (Ascii.eqb c sep); simpl; [done|]. intros H. by rewrite IH.
Qed.

(** [strings.Replace(s, old, new, -1)] of a non-empty [old] by the empty string:
    [skip] characters are inside an occurrence. *)
Fixpoint remove_all (old : string) (skip : nat) (s : string) : string :=
  match s with
  | EmptyString => ""
  | String c s' =>
      match skip with
      | S k => remove_all old k s'
      | 0 => if String.prefix old s then remove_all old (String.length old - 1) s'
             else String c (remove_all old 0 s')
      end
  end.

(** ** Decimal numbers *)

(** [fmt.Sprintf] with verb [%d] of an unsigned integer. *)
Definition FormatUint (z : Z) : string := NilZero.string_of_uint (N.to_uint (Z.to_N z)).

(** [fmt.Sprintf] with verb [%d] of a signed integer. *)
Definition FormatInt (z : Z) : string :=
  if (z <? 0)%Z then "-" +:+ FormatUint (- z) else FormatUint z.

(** [strconv.ParseUint(s, 10, 64)]: digits only, at most [2^64 - 1]. *)
Definition ParseUint (s : string) : result Z :=
  match NilZero.uint_of_string s with
  | None => Err "invalid syntax"
  | Some d =>
      let z := Z.of_N (N.of_uint d) in
      if (z <? two64)%Z then Ok z else Err "value out of range"
  end.

(** [strconv.ParseInt(s, 10, 64)]: an optional sign and digits. The value is
    returned together with the error: 0 for bad syntax, the nearest bound for a
    value out of range. *)
Definition ParseInt (s : string) : Z * option goerror :=
  let '(neg, body) :=
    match s with
    | String "-" s' => (true, s')
    | String "+" s' => (false, s')
    | _ => (false, s)
    end in
  match NilZero.uint_of_string body with
  | None => (0%Z, Some "invalid syntax")
  | Some d =>
      let z := Z.of_N (N.of_uint d) in
      if neg then
        if (z <=? two63)%Z then ((- z)%Z, None) else ((- two63)%Z, Some "value out of range")
      else
        if (z <? two63)%Z then (z, None) else ((two63 - 1)%Z, Some "value out of range")
  end.

Lemma N_to_uint_nonnil n : N.to_uint n <> Decimal.Nil.
Proof. destruct n; simpl; [done|]. apply DecimalPos.Unsigned.to_uint_nonnil. Qed.

Lemma NilEmpty_no_dot d : no_char "." (NilEmpty.string_of_uint d) = true.
Proof. by induction d. Qed.

Lemma FormatUint_no_dot z : no_char "." (FormatUint z) = true.
Proof.
  unfold FormatUint, NilZero.string_of_uint.
  destruct (N.to_uint (Z.to_N z)) eqn:E; rewrite <- ?E; try apply NilEmpty_no_dot; done.
Qed.

(** Printing then parsing an unsigned 64-bit integer gives it back. *)
Lemma ParseUint_FormatUint z : u64_ok z -> ParseUint (FormatUint z) = Ok z.
Proof.
  intros [H0 H1]. unfold ParseUint, FormatUint.
  rewrite NilZero.usu by apply N_to_uint_nonnil.
  rewrite DecimalN.Unsigned.of_to, Z2N.id by done.
  by rewrite (proj2 (Z.ltb_lt _ _) H1).
Qed.

Lemma ParseUint_ok s z : ParseUint s = Ok z -> u64_ok z.
Proof.
  unfold ParseUint. destruct (NilZero.uint_of_string s); [|done].
  destruct (_ <? _)%Z eqn:E; [|done]. intros [= <-]. apply Z.ltb_lt in E.
  unfold u64_ok. lia.
Qed.
#[export] Hint Resolve ParseUint_ok : hub.

(** ** [strings.TrimSpace]

    The white space of Unicode, as the bytes of its UTF-8 encoding. *)
Definition of_codes (l : list nat) : list ascii := ascii_of_nat <$> l.
Definition space_codes : list (list ascii) := of_codes <$>
  [[9]; [10]; [11]; [12]; [13]; [32]; [194; 133]; [194; 160]; [225; 154; 128];
   [226; 128; 128]; [226; 128; 129]; [226; 128; 130]; [226; 128; 131]; [226; 128; 132]; [226; 128; 133];
   [226; 128; 134]; [226; 128; 135]; [226; 128; 136]; [226; 128; 137]; [226; 128; 138];
   [226; 128; 168]; [226; 128; 169]; [226; 128; 175]; [226; 129; 159]; [227; 128; 128]].

(** The rest of a text after a first character among [codes]. *)
Fixpoint strip_one (codes : list (list ascii)) (l : list ascii) : option (list ascii) :=
  match codes with
  | [] => None
  | c :: rest => if bool_decide (take (length c) l = c) then Some (drop (length c) l) else strip_one rest l
  end.
Fixpoint strip (fuel : nat) (codes : list (list ascii)) (l : list ascii) : list ascii :=
  match fuel with
  | O => l
  | S n => match strip_one codes l with Some l' => strip n codes l' | None => l end
  end.
Definition TrimSpace (s : string) : string :=
  let l := String.list_ascii_of_string s in
  let left := strip (length l) space_codes l in
  let right := strip (length left) (reverse <$> space_codes) (reverse left) in
  String.string_of_list_ascii (reverse right).

Example TrimSpace_both : TrimSpace (String "010" " token " +:+ String "013" (String "010" "")) = "token".
Proof. reflexivity. Qed.
