(* ===== verification/Regex.v ===== *)
(** * The regular expressions of the agent's event handlers

    The subset of Go's [regexp] they need: a sequence of literals and of
    captured non-empty runs of a class of characters, searched with the
    package's leftmost-first semantics, the runs greedy. *)

From stdpp Require Import prelude strings list.
From Stdlib Require Import ZArith Ascii.
From S2P Require Import Prelude.
Local Open Scope string_scope.
Local Open Scope list_scope.

Inductive piece :=
| Lit (l : string)
| Plus (cls : ascii -> bool).   (** [(C+)], captured *)

(** What is left of [s] after the prefix [l]. *)
Fixpoint strip_prefix (l s : string) : option string :=
  match l, s with
  | EmptyString, _ => Some s
  | String a l', String b s' => if Ascii.eqb a b then strip_prefix l' s' else None
  | String _ _, EmptyString => None
  end.

(** A captured run: the longest one after which [k] matches; [acc] is what is
    already captured. *)
Fixpoint greedy (cls : ascii -> bool) (k : string -> option (list string)) (acc s : string)
    : option (list string) :=
  let stop := if String.eqb acc "" then None else cons acc <$> k s in
  match s with
  | EmptyString => stop
  | String c s' =>
      if cls c then
        match greedy cls k (acc +:+ String c "") s' with
        | Some r => Some r
        | None => stop
        end
      else stop
  end.

Fixpoint match_here (re : list piece) (s : string) : option (list string) :=
  match re with
  | [] => Some []
  | Lit l :: re' => match strip_prefix l s with Some s' => match_here re' s' | None => None end
  | Plus cls :: re' => greedy cls (match_here re') "" s
  end.

(** The groups of [FindStringSubmatch], without the whole match. *)
Fixpoint find_submatch (re : list piece) (s : string) : option (list string) :=
  match match_here re s with
  | Some gs => Some gs
  | None => match s with EmptyString => None | String _ s' => find_submatch re s' end
  end.

(** [\w] and [.]. *)
Definition word_class (c : ascii) : bool :=
  let n := nat_of_ascii c in
  (((48 <=? n) && (n <=? 57)) || ((65 <=? n) && (n <=? 90)) || ((97 <=? n) && (n <=? 122)) || (n =? 95))%nat.
Definition dot_class (c : ascii) : bool := negb (nat_of_ascii c =? 10)%nat.

Lemma append_cons c a b : String c a +:+ b = String c (a +:+ b).
Proof. reflexivity. Qed.
Lemma append_nil a : "" +:+ a = a.
Proof. reflexivity. Qed.
Ltac app_simpl := simpl; rewrite ?append_cons, ?append_nil; simpl.

(** ** The meaning of a match *)
Inductive matches : list piece -> string -> list string -> Prop :=
| matches_nil : matches [] "" []
| matches_lit l re s gs : matches re s gs -> matches (Lit l :: re) (l +:+ s) gs
| matches_plus cls re w s gs :
    w <> "" -> forallb cls (String.list_ascii_of_string w) = true -> matches re s gs ->
    matches (Plus cls :: re) (w +:+ s) (w :: gs).

Lemma strip_prefix_Some l : forall s s', strip_prefix l s = Some s' <-> s = l +:+ s'.
Proof.
  induction l as [|a l IH]; intros [|b s] s'; simpl.
  - split; [by intros [= E]|intros E; exact (f_equal Some E)].
  - split; [by intros [= E]|intros E; exact (f_equal Some E)].
  - done.
  - destruct (Ascii.eqb_spec a b) as [->|Hne].
    + rewrite IH. split; [by intros ->|by intros [= ->]].
    + split; [done|]. intros [= Hb _]. by destruct Hne.
Qed.

Lemma string_app_nil (a : string) : a +:+ "" = a.
Proof. induction a as [|x a IH]; app_simpl; [done|by rewrite IH]. Qed.

Lemma list_ascii_app a b :
  String.list_ascii_of_string (a +:+ b) = String.list_ascii_of_string a ++ String.list_ascii_of_string b.
Proof. induction a as [|x a IH]; app_simpl; [done|by rewrite IH]. Qed.

Lemma greedy_sound cls k s : forall acc gs,
  forallb cls (String.list_ascii_of_string acc) = true -> greedy cls k acc s = Some gs ->
  exists w s' gs', acc +:+ s = w +:+ s' /\ w <> "" /\
    forallb cls (String.list_ascii_of_string w) = true /\ k s' = Some gs' /\ gs = w :: gs'.
Proof.
  assert (Hstop : forall acc s gs, forallb cls (String.list_ascii_of_string acc) = true ->
    (if String.eqb acc "" then None else cons acc <$> k s) = Some gs ->
    exists w s' gs', acc +:+ s = w +:+ s' /\ w <> "" /\
      forallb cls (String.list_ascii_of_string w) = true /\ k s' = Some gs' /\ gs = w :: gs').
  { intros acc s0 gs Ha. destruct (String.eqb_spec acc ""); [done|].
    destruct (k s0) as [gs'|] eqn:Ek; [|done]. simpl. intros [= <-]. by exists acc, s0, gs'. }
  induction s as [|c s IH]; intros acc gs Ha; simpl; [by apply Hstop|].
  destruct (cls c) eqn:Ec; [|by apply Hstop].
  destruct (greedy cls k (acc +:+ String c "") s) as [r|] eqn:Eg; [|by apply Hstop].
  intros [= <-]. apply IH in Eg as (w & s' & gs' & Hs & Hrest).
  - exists w, s', gs'. split; [|done]. rewrite <- Hs, string_app_assoc. done.
  - rewrite list_ascii_app, forallb_app, Ha. simpl. by rewrite Ec.
Qed.

Lemma greedy_complete cls k w : forall acc s gs,
  acc +:+ w <> "" -> forallb cls (String.list_ascii_of_string w) = true -> k s = Some gs ->
  is_Some (greedy cls k acc (w +:+ s)).
Proof.
  induction w as [|c w IH]; intros acc s gs Hne Hw Hk; simpl in Hw; app_simpl.
  - rewrite string_app_nil in Hne. assert (Hs : is_Some (if String.eqb acc "" then None else cons acc <$> k s)).
    { destruct (String.eqb_spec acc ""); [done|]. rewrite Hk. simpl. eauto. }
    destruct s as [|c s]; simpl; [done|]. destruct (cls c); [|done]. by destruct (greedy _ _ _ _).
  - apply andb_true_iff in Hw as [Hc Hw]. rewrite Hc.
    destruct (IH (acc +:+ String c "") s gs) as [r ->]; [|done..|eauto].
    rewrite string_app_assoc. by destruct acc.
Qed.

Lemma match_here_sound re : forall s gs, match_here re s = Some gs -> exists s', matches re s' gs /\ exists t, s = s' +:+ t.
Proof.
  induction re as [|[l|cls] re IH]; intros s gs; simpl.
  - intros [= <-]. exists "". split; [constructor|by exists s].
  - destruct (strip_prefix l s) as [s'|] eqn:E; [|done]. apply strip_prefix_Some in E as ->.
    intros (s1 & Hm & t & ->)%IH. exists (l +:+ s1). split; [by constructor|].
    exists t. by rewrite string_app_assoc.
  - intros (w & s' & gs' & Hs & Hw & Hc & Hk & ->)%greedy_sound; [|done]. rewrite append_nil in Hs. subst s.
    apply IH in Hk as (s1 & Hm & t & ->). exists (w +:+ s1). split; [by constructor|].
    exists t. by rewrite string_app_assoc.
Qed.

Lemma match_here_complete re s gs : matches re s gs -> forall t, is_Some (match_here re (s +:+ t)).
Proof.
  induction 1 as [|l re s gs Hm IH|cls re w s gs Hw Hc Hm IH]; intros t; simpl; [eauto| |];
    rewrite string_app_assoc.
  - by rewrite (proj2 (strip_prefix_Some l _ _) eq_refl).
  - destruct (IH t) as [gs' Hk]. by eapply greedy_complete.
Qed.

(** A search succeeds exactly when the string holds a match. *)
Lemma find_submatch_complete re s pre m t gs :
  s = pre +:+ (m +:+ t) -> matches re m gs -> is_Some (find_submatch re s).
Proof.
  revert s. induction pre as [|c pre IH]; intros s -> Hm; app_simpl.
  - destruct (match_here_complete _ _ _ Hm t) as [r Er]. destruct (m +:+ t); simpl; by rewrite Er.
  - destruct (match_here re _); [eauto|]. by apply IH.
Qed.

Lemma find_submatch_sound re s gs :
  find_submatch re s = Some gs -> exists pre m t, s = pre +:+ (m +:+ t) /\ matches re m gs.
Proof.
  induction s as [|c s IH]; simpl.
  - destruct (match_here re "") eqn:E; [|done]. intros [= <-].
    apply match_here_sound in E as (m & Hm & t & Ht). by exists "", m, t.
  - destruct (match_here re (String c s)) as [r|] eqn:E.
    + intros [= <-]. apply match_here_sound in E as (m & Hm & t & Ht). by exists "", m, t.
    + intros (pre & m & t & Hs & Hm)%IH. exists (String c pre), m, t. by rewrite Hs.
Qed.
