(* ===== verification/EventTypes.v ===== *)
(** * Event types

    [pkg/enum/event_type.go], and the short name of a type. *)

From stdpp Require Import prelude strings list.
From S2P Require Import Prelude.
From S2P Require Import GoLib.
Local Open Scope string_scope.

Definition EventTypePrefix : string := "io.open-cluster-management.operator.multiclusterglobalhubs.".

(** [strings.Replace] of the prefix by the empty string. *)
Definition short_name (eventType : string) : string := remove_all EventTypePrefix 0 eventType.

Definition HubClusterInfoType : string := "io.open-cluster-management.operator.multiclusterglobalhubs.managedhub.info".
Definition HubClusterHeartbeatType : string := "io.open-cluster-management.operator.multiclusterglobalhubs.managedhub.heartbeat".
Definition KlusterletAddonConfigType : string := "io.open-cluster-management.operator.multiclusterglobalhubs.managedcluster.klusterletaddonconfig".
Definition ManagedClusterType : string := "io.open-cluster-management.operator.multiclusterglobalhubs.managedcluster".
Definition ManagedClusterInfoType : string := "io.open-cluster-management.operator.multiclusterglobalhubs.managedclusterinfo".
Definition SubscriptionReportType : string := "io.open-cluster-management.operator.multiclusterglobalhubs.subscription.report".
Definition SubscriptionStatusType : string := "io.open-cluster-management.operator.multiclusterglobalhubs.subscription.status".
Definition LocalComplianceType : string := "io.open-cluster-management.operator.multiclusterglobalhubs.policy.localcompliance".
Definition LocalCompleteComplianceType : string := "io.open-cluster-management.operator.multiclusterglobalhubs.policy.localcompletecompliance".
Definition LocalPolicySpecType : string := "io.open-cluster-management.operator.multiclusterglobalhubs.policy.localspec".
Definition ComplianceType : string := "io.open-cluster-management.operator.multiclusterglobalhubs.policy.compliance".
Definition CompleteComplianceType : string := "io.open-cluster-management.operator.multiclusterglobalhubs.policy.completecompliance".
Definition DeltaComplianceType : string := "io.open-cluster-management.operator.multiclusterglobalhubs.policy.deltacompliance".
Definition MiniComplianceType : string := "io.open-cluster-management.operator.multiclusterglobalhubs.policy.minicompliance".
Definition LocalReplicatedPolicyEventType : string := "io.open-cluster-management.operator.multiclusterglobalhubs.event.localreplicatedpolicy".
Definition LocalRootPolicyEventType : string := "io.open-cluster-management.operator.multiclusterglobalhubs.event.localrootpolicy".
Definition ManagedClusterEventType : string := "io.open-cluster-management.operator.multiclusterglobalhubs.event.managedcluster".
Definition PlacementDecisionType : string := "io.open-cluster-management.operator.multiclusterglobalhubs.placementdecision".
Definition LocalPlacementRuleSpecType : string := "io.open-cluster-management.operator.multiclusterglobalhubs.placementrule.localspec".
Definition PlacementRuleSpecType : string := "io.open-cluster-management.operator.multiclusterglobalhubs.placementrule.spec".
Definition PlacementSpecType : string := "io.open-cluster-management.operator.multiclusterglobalhubs.placement.spec".
Definition SecurityAlertCountsType : string := "io.open-cluster-management.operator.multiclusterglobalhubs.security.alertcounts".

Example short_name_of_root_policy : short_name LocalRootPolicyEventType = "event.localrootpolicy".
Proof. reflexivity. Qed.
