(* ===== verification/Version.v ===== *)
(** * Bundle versions

    [pkg/bundle/version/version.go]: the pair of 64-bit counters attached to
    every status bundle, its comparisons, its counters and its textual form. *)

From stdpp Require Import prelude strings list.
From Stdlib Require Import ZArith Lia Ascii.
From S2P Require Import Prelude.
From S2P Require Import GoLib.
Local Open Scope string_scope.
Local Open Scope list_scope.
Local Open Scope Z_scope.

Definition ExtVersion : string := "extversion".
Definition ExtDependencyVersion : string := "extdependencyversion".

Record Version := MkVersion { Generation : Z; Value : Z }.

#[export] Instance Version_eq_dec : EqDecision Version.
Proof. solve_decision. Defined.

(** Both counters are Go [uint64]s. *)
Definition version_ok (v : Version) : Prop := u64_ok (Generation v) /\ u64_ok (Value v).

Definition NewVersion : Version := MkVersion 0 0.

Definition VersionFrom (strVersion : string) : result Version :=
  let vals := split_char "."%char strVersion in
  match vals with
  | [g; w] =>
      let? generation := ParseUint g in
      let? val := ParseUint w in
      Ok (MkVersion generation val)
  | _ => Err ("malformed version string: " +:+ strVersion)
  end.

Definition Equals (this other : Version) : bool :=
  (Generation this =? Generation other) && (Value this =? Value other).

(** The methods that accept a nil argument take an option. *)
Definition NewerThan (this : Version) (other : option Version) : bool :=
  match other with
  | None => true
  | Some o =>
      if Equals this o then false
      else if Generation o <? Generation this then true
      else if Generation this <? Generation o then false
      else Value o <? Value this
  end.

Definition EqualValue (this : Version) (other : option Version) : bool :=
  match other with
  | None => false
  | Some o => Value this =? Value o
  end.

Definition NewerValueThan (this : Version) (other : option Version) : bool :=
  match other with
  | None => true
  | Some o => Value o <? Value this
  end.

Definition Version_String (this : Version) : string :=
  FormatUint (Generation this) +:+ String "."%char (FormatUint (Value this)).

Definition Incr (this : Version) : Version := MkVersion (Generation this) (wrap64 (Value this + 1)).

Definition Next (this : Version) : Version := MkVersion (wrap64 (Generation this + 1)) (Value this).

Definition Reset (this : Version) : Version := MkVersion 0 0.

Definition InitGen (this : Version) : bool := Generation this =? 0.

(** ** The order of versions *)

(** Lexicographic order: the meaning of [NewerThan]. *)
Definition version_lt (a b : Version) : Prop :=
  Generation a < Generation b \/ (Generation a = Generation b /\ Value a < Value b).

Lemma Equals_spec a b : Equals a b = true <-> a = b.
Proof.
  unfold Equals. rewrite andb_true_iff, !Z.eqb_eq. destruct a, b; simpl.
  split; [intros [-> ->]; done|by intros [= -> ->]].
Qed.

Lemma Equals_refl a : Equals a a = true.
Proof. by apply Equals_spec. Qed.

Lemma NewerThan_spec a b : NewerThan a (Some b) = true <-> version_lt b a.
Proof.
  unfold NewerThan, version_lt. destruct (Equals a b) eqn:E.
  - apply Equals_spec in E as ->. split; [done|lia].
  - destruct (Z.ltb_spec (Generation b) (Generation a)); [split; auto|].
    destruct (Z.ltb_spec (Generation a) (Generation b)); [split; [done|lia]|].
    rewrite Z.ltb_lt. split; intros; [right; lia|lia].
Qed.

Lemma NewerThan_false a b : NewerThan a (Some b) = false <-> ~ version_lt b a.
Proof. rewrite <- NewerThan_spec. destruct (NewerThan a (Some b)); split; congruence. Qed.

#[export] Instance version_lt_strict : StrictOrder version_lt.
Proof. split; [intros x H|intros x y z]; unfold version_lt in *; lia. Qed.

Lemma version_lt_total a b : version_lt a b \/ a = b \/ version_lt b a.
Proof.
  unfold version_lt. destruct a as [g v], b as [g' v']; simpl.
  destruct (Z.lt_trichotomy g g') as [|[->|]]; [auto| |auto].
  destruct (Z.lt_trichotomy v v') as [|[->|]]; auto.
Qed.

#[export] Instance version_lt_dec a b : Decision (version_lt a b).
Proof. unfold version_lt. apply _. Defined.

#[export] Hint Rewrite Equals_spec NewerThan_spec NewerThan_false : hub.

Lemma NewVersion_ok : version_ok NewVersion.
Proof. split; done. Qed.

Lemma Incr_ok v : version_ok v -> version_ok (Incr v).
Proof. intros [H1 H2]. split; simpl; auto with hub. Qed.

Lemma Next_ok v : version_ok v -> version_ok (Next v).
Proof. intros [H1 H2]. split; simpl; auto with hub. Qed.
#[export] Hint Resolve NewVersion_ok Incr_ok Next_ok : hub.

Lemma Incr_newer v : version_ok v -> Value v < two64 - 1 -> version_lt v (Incr v).
Proof.
  intros [_ [Hv _]] Hb. right; simpl. split; [done|].
  rewrite wrap64_small; unfold u64_ok; lia.
Qed.

Lemma Next_newer v : version_ok v -> Generation v < two64 - 1 -> version_lt v (Next v).
Proof.
  intros [[Hg _] _] Hb. left; simpl.
  rewrite wrap64_small; unfold u64_ok; lia.
Qed.

(** A version printed by [String] and parsed back by [VersionFrom] is
    itself, for every value of the two 64-bit counters. *)
Theorem VersionFrom_String (v : Version) :
  version_ok v -> VersionFrom (Version_String v) = Ok v.
Proof.
  intros [Hg Hv]. unfold VersionFrom, Version_String.
  rewrite split_char_app by apply FormatUint_no_dot.
  rewrite split_char_none by apply FormatUint_no_dot.
  rewrite (ParseUint_FormatUint _ Hg); simpl.
  rewrite (ParseUint_FormatUint _ Hv); simpl. by destruct v.
Qed.

Lemma VersionFrom_String_witness :
  version_ok (MkVersion 7 18446744073709551615) /\
  VersionFrom (Version_String (MkVersion 7 18446744073709551615)) =
  Ok (MkVersion 7 18446744073709551615).
Proof.
  assert (H : version_ok (MkVersion 7 18446744073709551615)) by (split; split; done).
  split; [exact H|]. apply (VersionFrom_String _ H).
Defined.

#[global] Arguments NewerThan : simpl never.
#[global] Arguments Equals : simpl never.
