(* ===== verification/CloudEvents.v ===== *)
(** * CloudEvents: the interface of the SDK the program relies on

    The CloudEvents SDK and the Kafka client are not part of the repository.
    What the program uses of them is stated here as type classes: the accessors
    and setters of an event, the conversions of extension values, and the
    client that delivers an event to the topic. The laws are the documented
    behaviour of those libraries. A plain record implements the classes, so the
    theorems proved against the interface can be evaluated. *)

From stdpp Require Import prelude gmap strings list.
From Stdlib Require Import ZArith Lia Strings.Byte.
From S2P Require Import Prelude.
From S2P Require Import GoLib.
Local Open Scope string_scope.
Local Open Scope list_scope.

Notation bytes := (list Byte.byte).
#[export] Instance byte_eq_decision : EqDecision Byte.byte := Byte.byte_eq_dec.

(** The dynamic values of the [map[string]interface{}] of extensions that the
    code tells apart: a string, an integer, anything else. *)
Inductive ext :=
| ExtString (s : string)
| ExtInt (z : Z)
| ExtOther.

Definition int32_ok (z : Z) : Prop := (- 2 ^ 31 <= z < 2 ^ 31)%Z.

Class EventSDK (Event : Type) := {
  NewEvent : Event;
  ID : Event -> string;
  Type_ : Event -> string;
  Source : Event -> string;
  Data : Event -> bytes;
  Extensions : Event -> gmap string ext;
  SetSource : string -> Event -> Event;
  SetType : string -> Event -> Event;
  SetExtension : string -> ext -> Event -> Event;
  (** [SetData(ApplicationJSON, b)] for a byte slice [b]. *)
  SetData : bytes -> Event -> result Event;
  (** [types.ToInteger] and [types.ToString]; [None] is a missing key. *)
  ToInteger : option ext -> result Z;
  ToString : option ext -> result string;
  (** The names under which the Kafka receiver stores the position. *)
  KafkaTopicKey : string;
  KafkaPartitionKey : string;
  KafkaOffsetKey : string;
}.

Class EventLaws (Event : Type) `{EventSDK Event} : Prop := {
  Extensions_SetExtension_eq k v e :
    Extensions (SetExtension k (ExtString v) e) !! k = Some (ExtString v);
  ToInteger_SetExtension k z e :
    int32_ok z -> ToInteger (Extensions (SetExtension k (ExtInt z) e) !! k) = Ok z;
  Extensions_SetExtension_ne k k' v e :
    k <> k' -> Extensions (SetExtension k v e) !! k' = Extensions e !! k';
  ID_SetExtension k v e : ID (SetExtension k v e) = ID e;
  Type_SetExtension k v e : Type_ (SetExtension k v e) = Type_ e;
  Source_SetExtension k v e : Source (SetExtension k v e) = Source e;
  Data_SetExtension k v e : Data (SetExtension k v e) = Data e;
  SetData_Ok b e e' : SetData b e = Ok e' ->
    Data e' = b /\ ID e' = ID e /\ Type_ e' = Type_ e /\ Source e' = Source e /\
    Extensions e' = Extensions e;
  SetData_total b e : exists e', SetData b e = Ok e';
  Type_SetType t e : Type_ (SetType t e) = t;
  Source_SetType t e : Source (SetType t e) = Source e;
  Extensions_SetType t e : Extensions (SetType t e) = Extensions e;
  Source_SetSource s e : Source (SetSource s e) = s;
  Type_SetSource s e : Type_ (SetSource s e) = Type_ e;
  Extensions_SetSource s e : Extensions (SetSource s e) = Extensions e;
}.

(** A delivered event carries what was sent; an event sent without an ID gets
    one from the client. *)
Definition delivered_as {Event} `{EventSDK Event} (sent got : Event) : Prop :=
  Data got = Data sent /\ Type_ got = Type_ sent /\ Source got = Source sent /\
  (forall k, ToInteger (Extensions got !! k) = ToInteger (Extensions sent !! k)) /\
  (forall k s, Extensions sent !! k = Some (ExtString s) -> Extensions got !! k = Some (ExtString s)) /\
  (ID sent <> "" -> ID got = ID sent).

(** The client of the SDK over a transport world [W]: [Send] tells whether the
    event is undelivered, [topic] is what the receiver will get, in order. *)
Class EventClient (Event W : Type) `{EventSDK Event} := {
  Send : Event -> W -> bool * W;
  topic : W -> list Event;
}.

Class EventClientLaws (Event W : Type) `{EventClient Event W} : Prop := {
  Send_delivered e w w' : Send e w = (false, w') ->
    exists got, topic w' = topic w ++ [got] /\ delivered_as e got;
  Send_undelivered e w w' : Send e w = (true, w') -> topic w' = topic w;
}.

(** ** A concrete implementation *)
Record PlainEvent := MkPlainEvent {
  pe_id : string;
  pe_type : string;
  pe_source : string;
  pe_data : bytes;
  pe_ext : gmap string ext;
}.

#[export] Instance PlainSDK : EventSDK PlainEvent := {|
  NewEvent := MkPlainEvent "" "" "" [] ∅;
  ID := pe_id;
  Type_ := pe_type;
  Source := pe_source;
  Data := pe_data;
  Extensions := pe_ext;
  SetSource s e := MkPlainEvent (pe_id e) (pe_type e) s (pe_data e) (pe_ext e);
  SetType t e := MkPlainEvent (pe_id e) t (pe_source e) (pe_data e) (pe_ext e);
  SetExtension k v e :=
    MkPlainEvent (pe_id e) (pe_type e) (pe_source e) (pe_data e) (<[k := v]> (pe_ext e));
  SetData b e := Ok (MkPlainEvent (pe_id e) (pe_type e) (pe_source e) b (pe_ext e));
  ToInteger v :=
    match v with
    | Some (ExtInt z) => Ok z
    | Some (ExtString s) => match ParseInt s with (z, None) => Ok z | (_, Some e) => Err e end
    | _ => Err "invalid CloudEvents value"
    end;
  ToString v :=
    match v with
    | Some (ExtString s) => Ok s
    | _ => Err "invalid CloudEvents value"
    end;
  KafkaTopicKey := "kafkatopic";
  KafkaPartitionKey := "kafkapartition";
  KafkaOffsetKey := "kafkaoffset";
|}.

#[export] Instance PlainLaws : EventLaws PlainEvent.
Proof.
  split; try done; simpl; intros.
  - by rewrite lookup_insert_eq.
  - by rewrite lookup_insert_eq.
  - by rewrite lookup_insert_ne.
  - match goal with E : Ok _ = Ok _ |- _ => injection E as <- end. done.
  - eauto.
Qed.

(** A lossless client; an event sent without an ID gets one the topic does not
    hold yet. *)
Definition plain_deliver (w : list PlainEvent) (e : PlainEvent) : PlainEvent :=
  if decide (pe_id e = "")
  then MkPlainEvent (fresh (pe_id <$> w)) (pe_type e) (pe_source e) (pe_data e) (pe_ext e)
  else e.

#[export] Instance PlainClient : EventClient PlainEvent (list PlainEvent) := {|
  Send e w := (false, w ++ [plain_deliver w e]);
  topic w := w;
|}.

#[export] Instance PlainClientLaws : EventClientLaws PlainEvent (list PlainEvent).
Proof.
  split; simpl; [|done]. intros e w w' [= <-].
  eexists; split; [done|]. unfold delivered_as, plain_deliver.
  case_decide; simpl; repeat split; by auto.
Qed.

Lemma plain_client_fresh (e : PlainEvent) (w w' : list PlainEvent) :
  Send e w = (false, w') -> ID e = "" ->
  forall got, topic w' = topic w ++ [got] -> ID got ∉ ID <$> topic w.
Proof.
  simpl. intros [= <-] He got E. apply app_inj_tail in E as [_ <-].
  unfold plain_deliver. rewrite decide_True by done. simpl.
  apply infinite_is_fresh.
Qed.
