(* ===== verification/Libraries.v ===== *)
(** * Libraries the components share

    Interfaces of code outside the repository that several components use: the
    producer of events, [wait.PollUntilContextTimeout] and
    [retry.RetryOnConflict] of the Kubernetes libraries. Each is a class with
    its documented behaviour as laws, and a concrete instance. *)

From stdpp Require Import prelude gmap strings list.
From Stdlib Require Import ZArith Lia Strings.Byte.
From S2P Require Import Prelude.
From S2P Require Import GoLib.
From S2P Require Import CloudEvents.
Local Open Scope string_scope.
Local Open Scope list_scope.

(** ** Rows of a result

    [Row().Scan]: a value, no row, or an error (a NULL scanned into a time is
    one). *)
Inductive scanned (A : Type) := Scanned (a : A) | NoRows | ScanError (e : goerror).
Arguments Scanned {A}. Arguments NoRows {A}. Arguments ScanError {A}.

(** ** Producers *)

(** [transport.Producer]: the topic of the context is empty when it is not set. *)
Class Producer (P Event : Type) := { SendEvent : P -> string -> Event -> option goerror * P }.

(** The events a producer has sent; an event that is refused is not sent. *)
Class ProducerLog (P Event : Type) `{Producer P Event} := {
  sent_events : P -> list Event;
  send_accepted p t e p' : SendEvent p t e = (None, p') -> sent_events p' = sent_events p ++ [e];
  send_refused p t e err p' : SendEvent p t e = (Some err, p') -> sent_events p' = sent_events p;
}.

(** A producer that accepts every event, and one that refuses those to the
    given destinations. *)
#[export] Instance list_producer {Event} : Producer (list Event) Event := {|
  SendEvent p _ e := (None, p ++ [e]);
|}.
#[export] Program Instance list_producer_log {Event} : ProducerLog (list Event) Event := {| sent_events p := p |}.
Next Obligation. by intros Event p t e p' [= <-]. Qed.
Next Obligation. by intros. Qed.

(** ** Polling

    [PollUntilContextTimeout] with [immediate]: the condition is called at once
    and then after each interval, until it is done, it fails, or the time is
    out. *)
Section Polled.
Context {S : Type}.

(** Done, error, and the state after the call. *)
Notation condition := (S -> bool * option goerror * S).

Inductive polled (cond : condition) : S -> option goerror -> S -> Prop :=
| polled_done s s' : cond s = (true, None, s') -> polled cond s None s'
| polled_error s b e s' : cond s = (b, Some e, s') -> polled cond s (Some e) s'
| polled_retry s s1 r s2 : cond s = (false, None, s1) -> polled cond s1 r s2 -> polled cond s r s2
| polled_timeout s s1 e : cond s = (false, None, s1) -> polled cond s (Some e) s1.

(** A poll keeps what every call of the condition keeps, and when it returns no
    error its last call was done. *)
Lemma polled_invariant (cond : condition) (I : S -> Prop) s r s' :
  (forall s b e s', I s -> cond s = (b, e, s') -> I s') -> polled cond s r s' -> I s -> I s'.
Proof. intros HI. induction 1; eauto. Qed.

Lemma polled_None (cond : condition) (I : S -> Prop) s s' :
  (forall s b e s', I s -> cond s = (b, e, s') -> b = false -> I s') ->
  polled cond s None s' -> I s -> exists s0, I s0 /\ cond s0 = (true, None, s').
Proof.
  intros HI Hp. remember None as r eqn:Er. induction Hp; try done; intros Hs.
  - eauto.
  - apply IHHp; eauto.
Qed.
End Polled.

Class Poller := {
  poll : forall {S : Type}, (S -> bool * option goerror * S) -> S -> option goerror * S;
}.
Class PollerLaws `{Poller} : Prop := {
  poll_spec {S : Type} (cond : S -> bool * option goerror * S) s : polled cond s (poll cond s).1 (poll cond s).2;
}.

(** A poll with time for [S n] calls. *)
Fixpoint poll_times (n : nat) {S : Type} (cond : S -> bool * option goerror * S) (s : S) : option goerror * S :=
  let '(done_, err, s') := cond s in
  match err with
  | Some e => (Some e, s')
  | None =>
      if done_ then (None, s')
      else match n with
           | O => (Some "context deadline exceeded", s')
           | Datatypes.S n' => poll_times n' cond s'
           end
  end.
Definition poller_of (n : nat) : Poller := {| poll S := @poll_times n S |}.

Lemma poll_times_spec n {S : Type} (cond : S -> bool * option goerror * S) s :
  polled cond s (poll_times n cond s).1 (poll_times n cond s).2.
Proof.
  revert s. induction n as [|n IH]; intros s; simpl;
    (destruct (cond s) as [[b [e|]] s'] eqn:E; [by eapply polled_error|destruct b; [by apply polled_done|]]).
  - by eapply polled_timeout.
  - eapply polled_retry; [done|apply IH].
Qed.

Lemma poller_of_laws n : @PollerLaws (poller_of n).
Proof. split. intros. apply poll_times_spec. Qed.

(** ** [retry.RetryOnConflict]

    The function is called until it returns no conflict, a bounded number of
    times; the last error is returned. *)
Section Retried.
Context {S : Type} (is_conflict : goerror -> bool).

Inductive retried (f : S -> option goerror * S) : S -> option goerror -> S -> Prop :=
| retried_last s r s' : f s = (r, s') -> retried f s r s'
| retried_again s e s1 r s2 :
    f s = (Some e, s1) -> is_conflict e = true -> retried f s1 r s2 -> retried f s r s2.
End Retried.

Class Retrier := {
  retry_on_conflict : forall {S : Type}, (S -> option goerror * S) -> S -> option goerror * S;
  is_conflict : goerror -> bool;
}.
Class RetrierLaws `{Retrier} : Prop := {
  retry_spec {S : Type} (f : S -> option goerror * S) s :
    retried is_conflict f s (retry_on_conflict f s).1 (retry_on_conflict f s).2;
}.

Fixpoint retry_times (n : nat) (conflict : goerror -> bool) {S : Type} (f : S -> option goerror * S) (s : S)
    : option goerror * S :=
  match f s with
  | (None, s') => (None, s')
  | (Some e, s') =>
      match n with
      | O => (Some e, s')
      | Datatypes.S n' => if conflict e then retry_times n' conflict f s' else (Some e, s')
      end
  end.
Definition retrier_of (n : nat) (conflict : goerror -> bool) : Retrier :=
  {| retry_on_conflict S := @retry_times n conflict S; is_conflict := conflict |}.

Lemma retrier_of_laws n conflict : @RetrierLaws (retrier_of n conflict).
Proof.
  split. simpl. induction n as [|n IH]; intros S f s; simpl.
  - destruct (f s) as [[e|] s'] eqn:E; by apply retried_last.
  - destruct (f s) as [[e|] s'] eqn:E; [|by apply retried_last].
    destruct (conflict e) eqn:Ec; [|by apply retried_last].
    eapply retried_again; [done|done|apply IH].
Qed.

(** ** A concrete codec

    The values of a table, encoded by their position. *)
Section Codec.
Context {A : Type} `{EqDecision A} (tbl : list A).

Definition index_encode (x : A) : result bytes :=
  match list_find (fun y => y = x) tbl with Some (i, _) => Ok (replicate (S i) Byte.x00) | None => Err "unknown" end.
Definition index_decode (b : bytes) : result A :=
  match length b with
  | O => Err "unexpected end of JSON input"
  | S i => match tbl !! i with Some x => Ok x | None => Err "unknown" end
  end.

Lemma index_roundtrip x b : index_encode x = Ok b -> index_decode b = Ok x.
Proof.
  unfold index_encode, index_decode. destruct (list_find _ tbl) as [[i y]|] eqn:E; [|done]. intros [= <-].
  apply list_find_Some in E as (Hi & -> & _). simpl. by rewrite length_replicate, Hi.
Qed.
End Codec.
