(* ===== verification/SpecTransport.v ===== *)
(** * Events from the manager to the agents

    [utils.ToCloudEvent] and the constants of the messages that go from the
    global hub to the agents: the name of the destination travels in an
    extension of the event. *)

From stdpp Require Import prelude gmap strings list.
From Stdlib Require Import ZArith Lia.
From S2P Require Import Prelude.
From S2P Require Import GoLib.
From S2P Require Import CloudEvents.
From S2P Require Import Libraries.
Local Open Scope string_scope.
Local Open Scope list_scope.

Definition Broadcast : string := "broadcast".
Definition CloudEventSourceGlobalHub : string := "global-hub".
Definition CloudEventExtensionKeyClusterName : string := "clustername".
Definition ResyncMsgKey : string := "Resync".
Definition GenericSpecMsgKey : string := "Generic".
Definition ManagedClustersLabelsMsgKey : string := "ManagedClustersLabels".
Definition CloudEventTypeMigrationFrom : string :=
  "io.open-cluster-management.operator.multiclusterglobalhubs.spec.migration.from".
Definition CloudEventTypeMigrationTo : string :=
  "io.open-cluster-management.operator.multiclusterglobalhubs.spec.migration.to".

Section Events.
Context {Event : Type} `{EventSDK Event}.

(** [utils.ToCloudEvent] for a byte slice; the error of [SetData] is ignored,
    with the event as it was. *)
Definition utils_ToCloudEvent (evtType source clusterName : string) (data : bytes) : Event :=
  let e := SetExtension CloudEventExtensionKeyClusterName (ExtString clusterName)
             (SetSource source (SetType evtType NewEvent)) in
  match SetData data e with Ok e' => e' | Err _ => e end.

Lemma utils_ToCloudEvent_spec `{!EventLaws Event} t s c data :
  Type_ (utils_ToCloudEvent t s c data) = t /\ Source (utils_ToCloudEvent t s c data) = s /\
  Data (utils_ToCloudEvent t s c data) = data /\
  Extensions (utils_ToCloudEvent t s c data) !! CloudEventExtensionKeyClusterName = Some (ExtString c).
Proof.
  unfold utils_ToCloudEvent.
  destruct (SetData_total data (SetExtension CloudEventExtensionKeyClusterName (ExtString c)
    (SetSource s (SetType t NewEvent)))) as [e' E]. rewrite E.
  apply SetData_Ok in E as (Hd & _ & Ht & Hs & Hx). rewrite Ht, Hs, Hx, Hd.
  rewrite Type_SetExtension, Type_SetSource, Type_SetType, Source_SetExtension, Source_SetSource.
  by rewrite Extensions_SetExtension_eq.
Qed.
End Events.

(** ** The bundle of the labels of managed clusters ([pkg/bundle/spec]) *)
Record ManagedClusterLabelsSpec := MkLabelsSpec {
  mls_ClusterName : string;
  mls_Labels : gmap string string;
  mls_DeletedLabelKeys : list string;
  mls_UpdateTimestamp : Z;
  mls_Version : Z;
}.
Record ManagedClusterLabelsSpecBundle := MkLabelsBundle {
  mlb_Objects : list ManagedClusterLabelsSpec;
  mlb_LeafHubName : string;
}.
