(* ===== verification/Transport.v ===== *)
(** * Transport: producer, chunk assembler and consumer

    [pkg/transport/producer/generic_producer.go] splits a payload that reaches
    the size limit into chunks, sent as events with their total size and end
    offset; [pkg/transport/consumer/message_assembler.go] puts them together
    again, and [generic_consumer.go] forwards whole events. *)

From stdpp Require Import prelude gmap strings list sorting.
From Stdlib Require Import ZArith Lia Strings.Byte.
From S2P Require Import Prelude.
From S2P Require Import CloudEvents.
Local Open Scope string_scope.
Local Open Scope list_scope.

(** ** Data *)
Definition ChunkSizeKey : string := "extsize".
Definition ChunkOffsetKey : string := "extoffset".
Definition DefaultMessageKBSize : Z := 960.

Record GenericProducer := MkProducer { messageSizeLimit : Z }.

Definition NewProducerLimit : GenericProducer := MkProducer (DefaultMessageKBSize * 1000).
Definition SetDataLimit (p : GenericProducer) (size : Z) : GenericProducer := MkProducer size.

Record messageChunk := MkChunk {
  chunk_id : string;
  chunk_offset : Z;
  chunk_size : Z;
  chunk_bytes : bytes;
}.

#[export] Instance messageChunk_eq_dec : EqDecision messageChunk.
Proof. solve_decision. Defined.

Record messageChunksCollection := MkCollection {
  coll_id : string;
  totalSize : Z;
  accumulatedSize : Z;
  chunks : gmap Z messageChunk;
  orderedOffsets : list Z;
}.

Record messageAssembler := MkAssembler {
  chunkCollectionMap : gmap string messageChunksCollection;
}.

Definition zlen {A} (l : list A) : Z := Z.of_nat (length l).

(** ** Producer *)

(** The loop of [splitPayloadIntoChunks]; [fuel] bounds its iterations. *)
Fixpoint split_loop (fuel : nat) (limit : Z) (payload : bytes) (acc : list bytes) : outcome (list bytes) :=
  match fuel with
  | O => Diverge
  | S fuel' =>
      if (limit <=? zlen payload)%Z then
        let n := Z.to_nat limit in
        split_loop fuel' limit (drop n payload) (acc ++ [take n payload])
      else
        Ret (if (0 <? zlen payload)%Z then acc ++ [payload] else acc)
  end.

(** A zero limit panics in the division of the capacity, a negative one in the
    slice expression. *)
Definition splitPayloadIntoChunks (p : GenericProducer) (payload : bytes) : outcome (list bytes) :=
  if (messageSizeLimit p <=? 0)%Z then Panic
  else split_loop (S (length payload)) (messageSizeLimit p) payload [].

Section Client.
Context {Event W : Type} `{EventClient Event W}.

Fixpoint send_chunks (total chunkOffset : Z) (cs : list bytes) (evt : Event) (w : W)
    : option goerror * W :=
  match cs with
  | [] => (None, w)
  | chunk :: rest =>
      let evt1 := SetExtension ChunkSizeKey (ExtInt total) evt in
      let chunkOffset' := (chunkOffset + zlen chunk)%Z in
      let evt2 := SetExtension ChunkOffsetKey (ExtInt chunkOffset') evt1 in
      match SetData chunk evt2 with
      | Err _ => (Some "failed to set cloudevents data", w)
      | Ok evt3 =>
          match Send evt3 w with
          | (true, w') => (Some "failed to send events to transport", w')
          | (false, w') => send_chunks total chunkOffset' rest evt3 w'
          end
      end
  end.

Definition SendEvent (p : GenericProducer) (evt : Event) (w : W) : outcome (option goerror * W) :=
  let payloadBytes := Data evt in
  let! cs := splitPayloadIntoChunks p payloadBytes in
  if (length cs <=? 1)%nat then
    match Send evt w with
    | (true, w') => Ret (Some "failed to send event to transport", w')
    | (false, w') => Ret (None, w')
    end
  else Ret (send_chunks (zlen payloadBytes) 0 cs evt w).
End Client.

(** ** Assembler *)
Definition newMessageChunksCollection (id : string) (size : Z) : messageChunksCollection :=
  MkCollection id size 0 ∅ [].

Definition collection_add (c : messageChunksCollection) (chunk : messageChunk) : messageChunksCollection :=
  match chunks c !! chunk_offset chunk with
  | Some _ => c
  | None =>
      MkCollection (coll_id c) (totalSize c)
        (swrap64 (accumulatedSize c + zlen (chunk_bytes chunk)))
        (<[chunk_offset chunk := chunk]> (chunks c))
        (orderedOffsets c ++ [chunk_offset chunk])
  end.

(** The bytes of the chunks at the given offsets, in that order. A missing
    offset is a nil dereference. *)
Fixpoint write_chunks (m : gmap Z messageChunk) (offsets : list Z) : outcome bytes :=
  match offsets with
  | [] => Ret []
  | o :: os =>
      match m !! o with
      | None => Panic
      | Some c => let! rest := write_chunks m os in Ret (chunk_bytes c ++ rest)
      end
  end.

Definition collect (c : messageChunksCollection) : outcome bytes :=
  write_chunks (chunks c) (merge_sort Z.le (orderedOffsets c)).

(** The assembled payload, empty for Go's [nil]. *)
Definition assemble (a : messageAssembler) (chunk : messageChunk) : outcome (bytes * messageAssembler) :=
  let coll0 :=
    match chunkCollectionMap a !! chunk_id chunk with
    | Some c => c
    | None => newMessageChunksCollection (chunk_id chunk) (chunk_size chunk)
    end in
  let coll := collection_add coll0 chunk in
  let m := <[chunk_id chunk := coll]> (chunkCollectionMap a) in
  if (totalSize coll <=? accumulatedSize coll)%Z then
    let! payload := collect coll in
    Ret (payload, MkAssembler (delete (coll_id coll) m))
  else Ret ([], MkAssembler m).

(** ** Consumer *)
Section Consumer.
Context {Event : Type} `{EventSDK Event}.

Definition messageChunk_of (e : Event) : option messageChunk :=
  match ToInteger (Extensions e !! ChunkOffsetKey) with
  | Err _ => None
  | Ok offset =>
      match ToInteger (Extensions e !! ChunkSizeKey) with
      | Err _ => None
      | Ok size => Some (MkChunk (ID e) offset size (Data e))
      end
  end.

(** The receiver callback of [GenericConsumer.Start]: the new assembler and the
    events put on the channel. *)
Definition receive (a : messageAssembler) (event : Event) : outcome (messageAssembler * list Event) :=
  match messageChunk_of event with
  | None => Ret (a, [event])
  | Some chunk =>
      let! (payload, a') := assemble a chunk in
      match payload with
      | [] => Ret (a', [])
      | _ => match SetData payload event with
             | Err _ => Ret (a', [])
             | Ok event' => Ret (a', [event'])
             end
      end
  end.

Fixpoint receive_all (a : messageAssembler) (evs : list Event) : outcome (messageAssembler * list Event) :=
  match evs with
  | [] => Ret (a, [])
  | e :: es =>
      let! (a1, out1) := receive a e in
      let! (a2, out2) := receive_all a1 es in
      Ret (a2, out1 ++ out2)
  end.
End Consumer.

(** ** Splitting *)
Lemma split_loop_spec (limit : Z) (fuel : nat) (payload : bytes) (acc : list bytes) :
  (0 < limit)%Z -> length payload < fuel ->
  exists cs, split_loop fuel limit payload acc = Ret (acc ++ cs) /\ mjoin cs = payload /\
    Forall (fun c => (0 < zlen c <= limit)%Z) cs.
Proof.
  intros Hl. revert payload acc. induction fuel as [|fuel IH]; intros payload acc Hf; [lia|].
  simpl. destruct (Z.leb_spec limit (zlen payload)) as [Hle|Hgt].
  - destruct (IH (drop (Z.to_nat limit) payload) (acc ++ [take (Z.to_nat limit) payload]))
      as (cs & E & Hj & Hall); [rewrite length_drop; unfold zlen in *; lia|].
    exists (take (Z.to_nat limit) payload :: cs). rewrite E, <- app_assoc. simpl.
    repeat split; [by rewrite Hj, take_drop|].
    constructor; [|done]. unfold zlen in *. rewrite length_take. lia.
  - destruct (Z.ltb_spec 0 (zlen payload)).
    + exists [payload]. simpl. rewrite app_nil_r. repeat split. constructor; [lia|constructor].
    + exists []. rewrite app_nil_r. repeat split; [|constructor].
      destruct payload; [done|]. unfold zlen in *; simpl in *; lia.
Qed.

Lemma splitPayloadIntoChunks_spec (p : GenericProducer) (payload : bytes) :
  (0 < messageSizeLimit p)%Z ->
  exists cs, splitPayloadIntoChunks p payload = Ret cs /\ mjoin cs = payload /\
    Forall (fun c => (0 < zlen c <= messageSizeLimit p)%Z) cs.
Proof.
  intros Hl. unfold splitPayloadIntoChunks.
  rewrite (proj2 (Z.leb_gt _ _)) by lia.
  apply (split_loop_spec _ _ payload []); lia.
Qed.

(** ** The chunks of one payload *)
Fixpoint mk_chunks (id : string) (total pos : Z) (parts : list bytes) : list messageChunk :=
  match parts with
  | [] => []
  | c :: rest => MkChunk id (pos + zlen c) total c :: mk_chunks id total (pos + zlen c) rest
  end.

Definition sum_bytes (cs : list messageChunk) : Z :=
  foldr (fun c n => (zlen (chunk_bytes c) + n)%Z) 0%Z cs.

#[export] Instance sum_bytes_proper : Proper ((≡ₚ) ==> (=)) sum_bytes.
Proof. induction 1; simpl; lia. Qed.

Lemma sum_bytes_app cs ds : sum_bytes (cs ++ ds) = (sum_bytes cs + sum_bytes ds)%Z.
Proof. induction cs; simpl; lia. Qed.

Lemma sum_bytes_nonneg cs : (0 <= sum_bytes cs)%Z.
Proof. induction cs; simpl; unfold zlen; lia. Qed.

Lemma zlen_app {A} (l k : list A) : zlen (l ++ k) = (zlen l + zlen k)%Z.
Proof. unfold zlen. rewrite length_app. lia. Qed.

Lemma zlen_nonneg {A} (l : list A) : (0 <= zlen l)%Z.
Proof. unfold zlen. lia. Qed.

Section OnePayload.
Context (id : string) (total : Z).

Lemma mk_chunks_props pos parts c :
  Forall (fun b => (0 < zlen b)%Z) parts -> c ∈ mk_chunks id total pos parts ->
  chunk_id c = id /\ chunk_size c = total /\ (pos < chunk_offset c)%Z /\ (0 < zlen (chunk_bytes c))%Z.
Proof.
  revert pos. induction parts as [|b parts IH]; intros pos Hall Hc; simpl in Hc.
  - by apply not_elem_of_nil in Hc.
  - apply Forall_cons in Hall as [Hb Hall]. apply elem_of_cons in Hc as [->|Hc]; simpl.
    + repeat split; lia.
    + destruct (IH _ Hall Hc) as (?&?&?&?). repeat split; try done. lia.
Qed.

Lemma mk_chunks_sum pos parts : sum_bytes (mk_chunks id total pos parts) = zlen (mjoin parts).
Proof. revert pos. induction parts; intros; simpl; [done|]. rewrite zlen_app, IHparts. done. Qed.

Lemma mk_chunks_bytes pos parts : chunk_bytes <$> mk_chunks id total pos parts = parts.
Proof. revert pos. induction parts; intros; simpl; f_equal; auto. Qed.

Lemma mk_chunks_sorted pos parts :
  Forall (fun b => (0 < zlen b)%Z) parts ->
  Sorted Z.le (chunk_offset <$> mk_chunks id total pos parts) /\
  NoDup (chunk_offset <$> mk_chunks id total pos parts).
Proof.
  revert pos. induction parts as [|b parts IH]; intros pos Hall; simpl.
  - split; constructor.
  - apply Forall_cons in Hall as [Hb Hall]. destruct (IH (pos + zlen b)%Z Hall) as [Hs Hn].
    assert (Hlt : forall o, o ∈ chunk_offset <$> mk_chunks id total (pos + zlen b)%Z parts ->
                   (pos + zlen b < o)%Z).
    { intros o (c & -> & Hc)%list_elem_of_fmap. by eapply mk_chunks_props. }
    split; constructor; try done.
    + destruct (mk_chunks _ _ _ parts) eqn:E; constructor. simpl in *.
      apply Z.lt_le_incl, Hlt. apply list_elem_of_here.
    + intros Hin. specialize (Hlt _ Hin). lia.
Qed.

(** The collection that holds exactly the chunks [ds], in order of arrival. *)
Definition coll_of (ds : list messageChunk) : messageChunksCollection :=
  MkCollection id total (sum_bytes ds)
    (list_to_map ((fun c => (chunk_offset c, c)) <$> ds)) (chunk_offset <$> ds).

Lemma coll_of_keys ds :
  ((fun c => (chunk_offset c, c)) <$> ds).*1 = chunk_offset <$> ds.
Proof. by rewrite <- list_fmap_compose. Qed.

Lemma coll_of_lookup ds c :
  NoDup (chunk_offset <$> ds) -> c ∈ ds -> chunks (coll_of ds) !! chunk_offset c = Some c.
Proof.
  intros Hn Hc. simpl. apply elem_of_list_to_map_1; [by rewrite coll_of_keys|].
  apply list_elem_of_fmap. by exists c.
Qed.

Lemma coll_of_lookup_None ds o : o ∉ chunk_offset <$> ds -> chunks (coll_of ds) !! o = None.
Proof. intros H. simpl. apply not_elem_of_list_to_map_1. by rewrite coll_of_keys. Qed.

Lemma collection_add_new ds c :
  chunk_offset c ∉ chunk_offset <$> ds ->
  i64_ok (sum_bytes ds + zlen (chunk_bytes c)) ->
  collection_add (coll_of ds) c = coll_of (ds ++ [c]).
Proof.
  intros Hn Hb. unfold collection_add. rewrite (coll_of_lookup_None _ _ Hn).
  unfold coll_of; simpl. rewrite swrap64_small by done.
  rewrite !fmap_app; simpl. rewrite list_to_map_snoc by by rewrite coll_of_keys.
  rewrite sum_bytes_app. simpl. f_equal. lia.
Qed.

Lemma collection_add_old ds c :
  NoDup (chunk_offset <$> ds) -> c ∈ ds -> collection_add (coll_of ds) c = coll_of ds.
Proof. intros Hn Hc. unfold collection_add. by rewrite coll_of_lookup. Qed.

Lemma write_chunks_coll ds cs :
  NoDup (chunk_offset <$> ds) -> cs ⊆ ds ->
  write_chunks (chunks (coll_of ds)) (chunk_offset <$> cs) = Ret (mjoin (chunk_bytes <$> cs)).
Proof.
  intros Hn. induction cs as [|c cs IH]; intros Hs; [done|].
  cbn [fmap list_fmap write_chunks]. rewrite (coll_of_lookup _ _ Hn) by set_solver.
  rewrite IH by set_solver. done.
Qed.

(** All the chunks are there, in any order of arrival: [collect] gives the payload. *)
Lemma collect_complete pos parts ds :
  Forall (fun b => (0 < zlen b)%Z) parts -> ds ≡ₚ mk_chunks id total pos parts ->
  collect (coll_of ds) = Ret (mjoin parts).
Proof.
  intros Hall Hp. destruct (mk_chunks_sorted pos parts Hall) as [Hs Hn]. unfold collect.
  replace (merge_sort Z.le (orderedOffsets (coll_of ds)))
    with (chunk_offset <$> mk_chunks id total pos parts).
  - rewrite write_chunks_coll.
    + by rewrite mk_chunks_bytes.
    + by rewrite Hp.
    + intros x. by rewrite Hp.
  - apply (Sorted_unique Z.le); [done|apply Sorted_merge_sort; apply _|].
    rewrite merge_sort_Permutation. simpl. by rewrite Hp.
Qed.
End OnePayload.

(** ** Assembling *)

(** The assembler fed with a sequence of chunks: the payload returned by each call. *)
Fixpoint assemble_all (a : messageAssembler) (l : list messageChunk)
    : outcome (list bytes * messageAssembler) :=
  match l with
  | [] => Ret ([], a)
  | c :: l' =>
      let! (p, a1) := assemble a c in
      let! (ps, a2) := assemble_all a1 l' in
      Ret (p :: ps, a2)
  end.

Section Assembling.
Context (id : string) (parts : list bytes) (base : gmap string messageChunksCollection).
Context (Hparts : Forall (fun b => (0 < zlen b)%Z) parts).
Context (Hbound : (zlen (mjoin parts) < two63)%Z).
Context (Hbase : base !! id = None).

Local Notation total := (zlen (mjoin parts)).
Local Notation cs := (mk_chunks id total 0 parts).
Local Notation coll := (coll_of id total).

Definition holding (ds : list messageChunk) : messageAssembler :=
  MkAssembler (match ds with [] => base | _ => <[id := coll ds]> base end).

Definition partial_ (ds : list messageChunk) : Prop :=
  NoDup (chunk_offset <$> ds) /\ forall c, c ∈ ds -> c ∈ cs.

Lemma partial_sum ds : partial_ ds -> (sum_bytes ds <= total)%Z.
Proof.
  intros [Hn Hs]. rewrite <- (mk_chunks_sum id total 0 parts).
  destruct (submseteq_Permutation ds cs) as [k ->].
  - apply NoDup_submseteq; [by eapply NoDup_fmap_1|done].
  - rewrite sum_bytes_app. pose proof (sum_bytes_nonneg k). lia.
Qed.

Lemma partial_fresh ds c : partial_ ds -> c ∈ cs -> c ∉ ds -> chunk_offset c ∉ chunk_offset <$> ds.
Proof.
  intros [_ Hs] Hc Hn (d & E & Hd)%list_elem_of_fmap. apply Hn.
  destruct (mk_chunks_sorted id total 0 parts Hparts) as [_ Hnd].
  replace c with d; [done|]. by eapply NoDup_fmap_eq; eauto.
Qed.

Lemma partial_snoc ds c : partial_ ds -> c ∈ cs -> c ∉ ds -> partial_ (ds ++ [c]).
Proof.
  intros Hp Hc Hn. split.
  - rewrite fmap_app, Permutation_app_comm. simpl. constructor; [by apply partial_fresh|apply Hp].
  - intros d [Hd | ->%list_elem_of_singleton]%elem_of_app; [by apply Hp|done].
Qed.

Lemma partial_missing ds c : partial_ ds -> c ∈ cs -> c ∉ ds -> (sum_bytes ds < total)%Z.
Proof.
  intros Hp Hc Hn. pose proof (partial_sum _ (partial_snoc _ _ Hp Hc Hn)) as H.
  rewrite sum_bytes_app in H. simpl in H.
  destruct (mk_chunks_props id total 0 parts c Hparts Hc) as (_&_&_&Hpos). lia.
Qed.

Lemma partial_complete ds : partial_ ds -> (forall c, c ∈ cs -> c ∈ ds) -> ds ≡ₚ cs.
Proof.
  intros [Hn Hs] Hall. apply NoDup_Permutation.
  - by eapply NoDup_fmap_1.
  - eapply NoDup_fmap_1, mk_chunks_sorted; done.
  - naive_solver.
Qed.

Lemma holding_lookup ds c :
  c ∈ cs -> default (newMessageChunksCollection (chunk_id c) (chunk_size c))
              (chunkCollectionMap (holding ds) !! chunk_id c) = coll ds.
Proof.
  intros Hc. destruct (mk_chunks_props id total 0 parts c Hparts Hc) as (-> & -> & _).
  destruct ds; simpl; [by rewrite Hbase|by rewrite lookup_insert_eq].
Qed.

Lemma holding_insert ds k : k <> [] -> <[id := coll k]> (chunkCollectionMap (holding ds)) =
  chunkCollectionMap (holding k).
Proof. destruct ds, k; simpl; try done; by rewrite ?insert_insert_eq. Qed.

Lemma assemble_unfold ds c :
  c ∈ cs ->
  assemble (holding ds) c =
    (let k := collection_add (coll ds) c in
     let m := <[id := k]> (chunkCollectionMap (holding ds)) in
     if (totalSize k <=? accumulatedSize k)%Z
     then let! payload := collect k in Ret (payload, MkAssembler (delete (coll_id k) m))
     else Ret ([], MkAssembler m)).
Proof.
  intros Hc. unfold assemble. rewrite <- (holding_lookup ds c Hc).
  destruct (mk_chunks_props id total 0 parts c Hparts Hc) as (-> & _). done.
Qed.

Local Ltac coll_fields k :=
  cbv zeta; change (totalSize (coll k)) with total;
  change (accumulatedSize (coll k)) with (sum_bytes k); change (coll_id (coll k)) with id.

(** One call of [assemble] while some chunk [z] is still missing afterwards. *)
Lemma assemble_partial ds c z :
  partial_ ds -> c ∈ cs -> z ∈ cs -> z ∉ ds -> c <> z ->
  exists ds', partial_ ds' /\ (forall x, x ∈ ds' <-> x ∈ ds \/ x = c) /\
    assemble (holding ds) c = Ret ([], holding ds').
Proof.
  intros Hp Hc Hz Hnz Hne. rewrite (assemble_unfold _ _ Hc).
  destruct (decide (c ∈ ds)) as [Hin|Hout].
  - exists ds. split; [done|]. split; [naive_solver|].
    rewrite collection_add_old by (apply Hp || done). coll_fields ds.
    rewrite (proj2 (Z.leb_gt _ _)) by by eapply partial_missing.
    rewrite holding_insert by by (intros ->; apply not_elem_of_nil in Hin). by destruct ds.
  - assert (Hp' := partial_snoc _ _ Hp Hc Hout).
    assert (Hz' : z ∉ ds ++ [c]) by (rewrite elem_of_app, list_elem_of_singleton; naive_solver).
    exists (ds ++ [c]). split; [done|]. split; [set_solver|].
    pose proof (partial_sum _ Hp') as Hle. pose proof (sum_bytes_nonneg (ds ++ [c])) as H0.
    rewrite collection_add_new.
    + coll_fields (ds ++ [c]). rewrite (proj2 (Z.leb_gt _ _)) by by eapply partial_missing.
      rewrite holding_insert by by destruct ds. by destruct ds.
    + by apply partial_fresh.
    + rewrite sum_bytes_app in *. simpl in *. unfold i64_ok, two63 in *. lia.
Qed.

(** The call that brings the last missing chunk returns the payload and forgets
    the collection. *)
Lemma assemble_last ds z :
  partial_ ds -> z ∈ cs -> z ∉ ds -> (forall x, x ∈ cs -> x = z \/ x ∈ ds) ->
  assemble (holding ds) z = Ret (mjoin parts, holding []).
Proof.
  intros Hp Hz Hnz Hall. rewrite (assemble_unfold _ _ Hz).
  assert (Hp' := partial_snoc _ _ Hp Hz Hnz).
  assert (Hperm : ds ++ [z] ≡ₚ cs).
  { apply partial_complete; [done|]. intros x Hx. rewrite elem_of_app, list_elem_of_singleton.
    destruct (Hall _ Hx); auto. }
  assert (Hsum : sum_bytes (ds ++ [z]) = total) by (rewrite Hperm; apply mk_chunks_sum).
  rewrite collection_add_new.
  - coll_fields (ds ++ [z]). rewrite Hsum, Z.leb_refl.
    rewrite (collect_complete _ _ _ _ _ Hparts Hperm). cbn [obind].
    rewrite holding_insert by by destruct ds. unfold holding.
    destruct (ds ++ [z]) eqn:E; [by destruct ds|]. cbn [chunkCollectionMap].
    by rewrite delete_insert_id.
  - by apply partial_fresh.
  - rewrite sum_bytes_app in Hsum. simpl in Hsum. rewrite Z.add_0_r in Hsum. rewrite Hsum.
    unfold i64_ok, two63 in *. unfold zlen in *. lia.
Qed.

Lemma assemble_all_ok l : forall ds z,
  partial_ ds -> z ∈ cs -> z ∉ ds -> z ∉ l -> (forall x, x ∈ l -> x ∈ cs) ->
  (forall x, x ∈ cs -> x = z \/ x ∈ ds \/ x ∈ l) ->
  assemble_all (holding ds) (l ++ [z]) =
    Ret (replicate (length l) [] ++ [mjoin parts], holding []).
Proof.
  induction l as [|c l IH]; intros ds z Hp Hz Hds Hl Hin Hall; simpl.
  - rewrite assemble_last; [done..|]. intros x Hx. destruct (Hall x Hx) as [|[|H]]; auto.
    by apply not_elem_of_nil in H.
  - apply not_elem_of_cons in Hl as [Hne Hl].
    destruct (assemble_partial ds c z) as (ds' & Hp' & Hd' & ->);
      [done|apply Hin, list_elem_of_here|done|done|done|].
    simpl. rewrite (IH ds' z); [done|done|done| |done| |].
    + rewrite Hd'. naive_solver.
    + intros x Hx. apply Hin. by apply list_elem_of_further.
    + intros x Hx. rewrite Hd'. destruct (Hall x Hx) as [|[|H]]; auto.
      apply elem_of_cons in H as [->|]; auto.
Qed.
End Assembling.

(** ** From the producer's events to the consumer's *)
Section EndToEnd.
Context {Event W : Type} `{EventClientLaws Event W} `{!EventLaws Event}.

Lemma send_chunks_topic total cs : forall pos evt (w w' : W),
  (0 <= pos)%Z -> (pos + zlen (mjoin cs) <= total)%Z -> (total < 2 ^ 31)%Z ->
  send_chunks total pos cs evt w = (None, w') ->
  exists evs, topic w' = topic w ++ evs /\
    Forall2 (fun got c => exists sent, delivered_as sent got /\ ID sent = ID evt /\
        Type_ sent = Type_ evt /\ Source sent = Source evt /\
        messageChunk_of got = Some (MkChunk (ID got) (chunk_offset c) (chunk_size c) (chunk_bytes c)))
      evs (mk_chunks "" total pos cs).
Proof.
  induction cs as [|b cs IH]; intros pos evt w w' Hp Hb Ht; simpl.
  - intros [= <-]. exists []. by rewrite app_nil_r.
  - simpl in Hb. rewrite zlen_app in Hb.
    pose proof (zlen_nonneg (mjoin cs)). pose proof (zlen_nonneg b).
    set (evt2 := SetExtension ChunkOffsetKey _ _).
    destruct (SetData b evt2) as [evt3|] eqn:Ed; [|done].
    destruct (Send evt3 w) as [[] w1] eqn:Es; [done|]. intros E.
    destruct (SetData_Ok _ _ _ Ed) as (Hd & Hid & Hty & Hso & Hx).
    destruct (Send_delivered _ _ _ Es) as (got & Htop & Hdel).
    apply IH in E as (evs & Etop & Hall); [|lia..].
    exists (got :: evs). split; [by rewrite Etop, Htop, <- app_assoc|].
    subst evt2. rewrite ID_SetExtension, ID_SetExtension in Hid.
    rewrite Type_SetExtension, Type_SetExtension in Hty.
    rewrite Source_SetExtension, Source_SetExtension in Hso.
    constructor.
    + exists evt3. repeat split; try done; try apply Hdel.
      unfold messageChunk_of. destruct Hdel as (Dd & _ & _ & Dx & _).
      rewrite !Dx, Hx, ToInteger_SetExtension by (unfold int32_ok; lia).
      rewrite Extensions_SetExtension_ne by done.
      rewrite ToInteger_SetExtension by (unfold int32_ok; lia). by rewrite Dd, Hd.
    + eapply Forall2_impl; [exact Hall|]. intros e c (s & ? & ? & ? & ? & ?).
      exists s. do 4 (split; [done || congruence|]). done.
Qed.

Lemma send_chunks_extends total cs : forall pos (evt : Event) (w w' : W),
  send_chunks total pos cs evt w = (None, w') -> exists evs, topic w' = topic w ++ evs.
Proof.
  induction cs as [|b cs IH]; intros pos evt w w'; simpl.
  - intros [= <-]. exists []. by rewrite app_nil_r.
  - destruct (SetData b _) as [evt3|]; [|done].
    destruct (Send evt3 w) as [[] w1] eqn:Es; [done|]. intros E.
    destruct (Send_delivered _ _ _ Es) as (got & Htop & _).
    destruct (IH _ _ _ _ E) as [evs Ht]. exists (got :: evs).
    by rewrite Ht, Htop, <- app_assoc.
Qed.

Lemma messageChunk_of_id (e : Event) c : messageChunk_of e = Some c -> chunk_id c = ID e.
Proof. unfold messageChunk_of. do 2 (case_match; [|done]). by intros [= <-]. Qed.

(** The consumer outputs exactly what the assembler returns. *)
Lemma receive_all_assemble n : forall a a' (es : list Event) cs z payload,
  Forall2 (fun e c => messageChunk_of e = Some c) (es ++ [z]) cs -> length es = n ->
  payload <> [] -> assemble_all a cs = Ret (replicate n [] ++ [payload], a') ->
  exists z', receive_all a (es ++ [z]) = Ret (a', [z']) /\ SetData payload z = Ok z'.
Proof.
  induction n as [|n IH]; intros a a' es cs z payload Hc Hn Hp E.
  - apply nil_length_inv in Hn as ->. simpl in *.
    inversion Hc as [|? c ? ? Hz Hc']; subst. inversion Hc'; subst. simpl in E.
    destruct (assemble a c) as [[p a1]| | |] eqn:Ea; try done. simpl in E.
    injection E as -> ->. destruct (SetData_total payload z) as [z' Hz'].
    exists z'. split; [|done]. unfold receive. rewrite Hz, Ea; simpl.
    destruct payload; [done|]. by rewrite Hz'.
  - destruct es as [|e es]; [done|]. injection Hn as Hn. simpl in Hc.
    inversion Hc as [|? c ? cs' He Hc']; subst. simpl in E.
    destruct (assemble a c) as [[p a1]| | |] eqn:Ea; try done. simpl in E.
    destruct (assemble_all a1 cs') as [[ps a2]| | |] eqn:Er; try done. simpl in E.
    injection E as -> Eps ->.
    destruct (IH a1 a' es cs' z payload Hc' eq_refl Hp) as (z' & Hr & Hz'); [by rewrite Er, Eps|].
    exists z'. split; [|done]. simpl. unfold receive at 1. rewrite He, Ea; simpl.
    by rewrite Hr.
Qed.

Lemma chunks_at_least_two (p : GenericProducer) b cs :
  splitPayloadIntoChunks p b = Ret cs -> (0 < messageSizeLimit p < zlen b)%Z ->
  (length cs <=? 1)%nat = false /\ mjoin cs = b /\ Forall (fun c => (0 < zlen c < zlen b)%Z) cs.
Proof.
  intros E Hl. destruct (splitPayloadIntoChunks_spec p b) as (cs' & E' & Hj & Hall); [lia|].
  rewrite E in E'. injection E' as <-. subst b.
  split; [|split; [done|]].
  - apply Nat.leb_gt. destruct cs as [|c [|d cs]]; simpl in *; [unfold zlen in *; simpl in *; lia| |lia].
    apply Forall_cons in Hall as [? _]. rewrite app_nil_r in Hl. lia.
  - eapply Forall_impl; [exact Hall|]. simpl. lia.
Qed.

Lemma mk_chunks_reid id total pos parts :
  mk_chunks id total pos parts =
  (fun c => MkChunk id (chunk_offset c) (chunk_size c) (chunk_bytes c)) <$> mk_chunks "" total pos parts.
Proof. revert pos. induction parts; intros; simpl; f_equal; auto. Qed.

(** What [SendEvent] puts on the topic for a payload above the limit: events
    that the consumer reads as the chunks of the payload. *)
Lemma SendEvent_chunks p (evt : Event) (w w' : W) :
  (0 < messageSizeLimit p < zlen (Data evt))%Z -> (zlen (Data evt) < 2 ^ 31)%Z ->
  SendEvent p evt w = Ret (None, w') ->
  exists evs parts, topic w' = topic w ++ evs /\ mjoin parts = Data evt /\
    Forall (fun b => (0 < zlen b < zlen (Data evt))%Z) parts /\
    Forall2 (fun got c => exists sent, delivered_as sent got /\ ID sent = ID evt /\
        Type_ sent = Type_ evt /\ Source sent = Source evt /\
        messageChunk_of got = Some (MkChunk (ID got) (chunk_offset c) (chunk_size c) (chunk_bytes c)))
      evs (mk_chunks "" (zlen (Data evt)) 0 parts).
Proof.
  intros Hl Hb E. unfold SendEvent in E.
  destruct (splitPayloadIntoChunks p (Data evt)) as [parts| | |] eqn:Es; try done. simpl in E.
  destruct (chunks_at_least_two p _ _ Es Hl) as (Hlen & Hj & Hall). rewrite Hlen in E.
  injection E as E. apply send_chunks_topic in E as (evs & Ht & HF); [|rewrite ?Hj; lia..].
  exists evs, parts. done.
Qed.

Lemma SendEvent_chunk_events p (evt : Event) (w w' : W) :
  (0 < messageSizeLimit p < zlen (Data evt))%Z -> (zlen (Data evt) < 2 ^ 31)%Z -> ID evt <> "" ->
  SendEvent p evt w = Ret (None, w') ->
  exists evs parts, topic w' = topic w ++ evs /\ mjoin parts = Data evt /\
    Forall (fun b => (0 < zlen b)%Z) parts /\
    Forall2 (fun got c => messageChunk_of got = Some c) evs
      (mk_chunks (ID evt) (zlen (Data evt)) 0 parts) /\
    Forall (fun got => Type_ got = Type_ evt /\ Source got = Source evt) evs.
Proof.
  intros Hl Hb Hid E. destruct (SendEvent_chunks p evt w w' Hl Hb E) as (evs & parts & Ht & Hj & Hall & HF).
  exists evs, parts. split; [done|]. split; [done|]. split; [|split].
  - eapply Forall_impl; [exact Hall|]. simpl. lia.
  - rewrite mk_chunks_reid. apply Forall2_fmap_r. eapply Forall2_impl; [exact HF|].
    intros got c (sent & (_ & _ & _ & _ & _ & Di) & Hi & _ & _ & ->). simpl.
    rewrite Di by congruence. by rewrite Hi.
  - apply Forall_forall. intros got (i & Hi)%list_elem_of_lookup.
    destruct (Forall2_lookup_l _ _ _ _ _ HF Hi) as (c & _ & sent & (_ & Dt & Ds & _) & _ & Ht' & Hs' & _).
    split; congruence.
Qed.

(** The chunks of an event with an ID make one event with the whole payload, the
    same type and the same source, whatever the order in which they arrive and
    however often they are repeated before the last missing one. *)
Lemma chunks_of_an_identified_event (p : GenericProducer) (evt : Event) (w w' : W) (a : messageAssembler) :
  (0 < messageSizeLimit p < zlen (Data evt))%Z -> (zlen (Data evt) < 2 ^ 31)%Z ->
  ID evt <> "" -> chunkCollectionMap a !! ID evt = None ->
  SendEvent p evt w = Ret (None, w') ->
  exists evs, topic w' = topic w ++ evs /\
    forall l z, z ∈ evs -> z ∉ l -> (forall e, e ∈ l -> e ∈ evs) ->
      (forall e, e ∈ evs -> e = z \/ e ∈ l) ->
      exists e', receive_all a (l ++ [z]) = Ret (a, [e']) /\
        Data e' = Data evt /\ Type_ e' = Type_ evt /\ Source e' = Source evt.
Proof.
  intros Hl Hb Hid Ha E.
  destruct (SendEvent_chunk_events p evt w w' Hl Hb Hid E) as (evs & parts & Ht & Hj & Hall & HF & Hts).
  exists evs. split; [done|]. intros l z Hz Hzl Hin Hcov.
  set (cs := mk_chunks (ID evt) (zlen (Data evt)) 0 parts) in *.
  destruct (Forall2_partial_bijection _ _ _ HF) as (Hsome & Hsurj & Hinj).
  { eapply NoDup_fmap_1, mk_chunks_sorted, Hall. }
  destruct (Hsome z Hz) as (cz & Ez & Hcz).
  set (lc := omap messageChunk_of l).
  assert (Hlc : Forall2 (fun e c => messageChunk_of e = Some c) l lc).
  { apply omap_Forall2. intros e He. destruct (Hsome e) as (c & -> & _); eauto. }
  assert (Hasm : assemble_all a (lc ++ [cz]) = Ret (replicate (length lc) [] ++ [Data evt], a)).
  { pose proof (assemble_all_ok (ID evt) parts (chunkCollectionMap a) Hall) as HA.
    rewrite Hj in HA. specialize (HA ltac:(unfold two63; lia) Ha lc [] cz).
    destruct a as [m]. apply HA; clear HA.
    - split; [constructor|]. intros ? []%not_elem_of_nil.
    - done.
    - apply not_elem_of_nil.
    - intros (e & He & Ee)%list_elem_of_omap. apply Hzl.
      by rewrite (Hinj z e cz) by auto.
    - intros c (e & He & Ee)%list_elem_of_omap. destruct (Hsome e) as (c' & Ec' & ?); [auto|].
      by replace c with c' by congruence.
    - intros c Hc. destruct (Hsurj c Hc) as (e & He & Ee).
      destruct (Hcov e He) as [->|Hel]; [left; congruence|right; right].
      apply list_elem_of_omap. eauto. }
  rewrite <- (Forall2_length _ _ _ Hlc) in Hasm.
  destruct (receive_all_assemble (length l) a a l (lc ++ [cz]) z (Data evt)) as (e' & Hr & Hs).
  - apply Forall2_app; [done|]. by constructor.
  - done.
  - intros E0. rewrite E0 in Hl. unfold zlen in Hl; simpl in Hl. lia.
  - done.
  - exists e'. split; [done|]. destruct (SetData_Ok _ _ _ Hs) as (? & _ & -> & -> & _).
    split; [done|]. rewrite Forall_forall in Hts. by apply Hts.
Qed.

(** Events whose IDs all differ never complete a collection. *)
Lemma distinct_ids_lost (evs : list Event) : forall (a : messageAssembler),
  NoDup (ID <$> evs) -> (forall e, e ∈ evs -> chunkCollectionMap a !! ID e = None) ->
  Forall (fun e => exists c, messageChunk_of e = Some c /\
            (zlen (chunk_bytes c) < chunk_size c < two63)%Z) evs ->
  exists a', receive_all a evs = Ret (a', []).
Proof.
  induction evs as [|e evs IH]; intros a Hn Ha Hall; simpl; [eauto|].
  apply NoDup_cons in Hn as [Hne Hn]. apply Forall_cons in Hall as [(c & Ec & Hc) Hall].
  pose proof (messageChunk_of_id _ _ Ec) as Hid. pose proof (zlen_nonneg (chunk_bytes c)).
  unfold receive, assemble. rewrite Ec, Hid, (Ha e) by apply list_elem_of_here.
  unfold collection_add, newMessageChunksCollection. cbn [chunks].
  rewrite lookup_empty. cbn [totalSize accumulatedSize coll_id orderedOffsets].
  rewrite swrap64_small by (unfold i64_ok, two63 in *; lia).
  rewrite (proj2 (Z.leb_gt _ _)) by lia. simpl.
  match goal with |- context [receive_all ?m evs] => destruct (IH m Hn) as [a' ->] end; [|done|eauto].
  intros e' He'. simpl. rewrite lookup_insert_ne; [apply Ha; by apply list_elem_of_further|].
  intros E. apply Hne, list_elem_of_fmap. eauto.
Qed.

Lemma send_chunks_fresh (Hfresh : forall e w w', Send e w = (false, w') -> ID e = "" ->
    forall got, topic w' = topic w ++ [got] -> ID got ∉ ID <$> topic w) total cs :
  forall pos (evt : Event) (w w' : W) evs, ID evt = "" ->
    send_chunks total pos cs evt w = (None, w') -> topic w' = topic w ++ evs ->
    NoDup (ID <$> topic w) -> NoDup (ID <$> (topic w ++ evs)).
Proof.
  induction cs as [|b cs IH]; intros pos evt w w' evs Hid; simpl.
  - intros [= <-] Ht. by rewrite <- Ht.
  - set (evt2 := SetExtension ChunkOffsetKey _ _).
    destruct (SetData b evt2) as [evt3|] eqn:Ed; [|done].
    destruct (Send evt3 w) as [[] w1] eqn:Es; [done|]. intros E Ht Hn.
    destruct (SetData_Ok _ _ _ Ed) as (_ & Hid3 & _). subst evt2. rewrite !ID_SetExtension in Hid3.
    destruct (Send_delivered _ _ _ Es) as (got & Htop & _).
    assert (Hg : ID got ∉ ID <$> topic w) by (eapply Hfresh; [exact Es|congruence|exact Htop]).
    rewrite <- Ht. destruct (send_chunks_extends _ _ _ _ _ _ E) as [evs' Ht'].
    rewrite Ht'. apply (IH _ _ _ _ _ ltac:(rewrite Hid3; exact Hid) E Ht').
    rewrite Htop, fmap_app. apply NoDup_app. split; [done|]. split; [|apply NoDup_singleton].
    intros x Hx ->%list_elem_of_singleton. done.
Qed.

(** An event without an ID is not reassembled. When the client gives every
    event sent without an ID a new one (as the [WithUUIDs] option of the
    producer does), the chunks of a payload above the limit all carry different
    IDs, and the consumer forwards nothing for them. *)
Theorem chunked_event_without_id_lost (p : GenericProducer) (evt : Event) (w w' : W) (a : messageAssembler)
    (Hfresh : forall e w w', Send e w = (false, w') -> ID e = "" ->
      forall got, topic w' = topic w ++ [got] -> ID got ∉ ID <$> topic w) :
  (0 < messageSizeLimit p < zlen (Data evt))%Z -> (zlen (Data evt) < 2 ^ 31)%Z ->
  ID evt = "" -> NoDup (ID <$> topic w) ->
  SendEvent p evt w = Ret (None, w') ->
  exists evs, topic w' = topic w ++ evs /\
    ((forall e, e ∈ evs -> chunkCollectionMap a !! ID e = None) -> forall l, l ≡ₚ evs ->
     exists a', receive_all a l = Ret (a', [])).
Proof.
  intros Hl Hb Hid Hn E.
  destruct (SendEvent_chunks p evt w w' Hl Hb E) as (evs & parts & Ht & Hj & Hall & HF).
  exists evs. split; [done|]. intros Ha l Hperm. apply distinct_ids_lost;
    [rewrite Hperm|by intros e; rewrite Hperm; apply Ha|rewrite Hperm].
  - unfold SendEvent in E.
    destruct (splitPayloadIntoChunks p (Data evt)) as [parts'| | |] eqn:Es; try done. simpl in E.
    destruct (chunks_at_least_two p _ _ Es Hl) as (Hlen & _). rewrite Hlen in E. injection E as E.
    eapply (send_chunks_fresh Hfresh) in E; [|done|done|done].
    rewrite fmap_app in E. by apply NoDup_app in E as (_ & _ & ?).
  - apply Forall_forall. intros got (i & Hi)%list_elem_of_lookup.
    destruct (Forall2_lookup_l _ _ _ _ _ HF Hi) as (c & Hc & sent & _ & _ & _ & _ & Ec).
    eexists; split; [exact Ec|]. simpl. apply list_elem_of_lookup_2 in Hc.
    destruct (mk_chunks_props "" (zlen (Data evt)) 0 parts c) as (_ & -> & _); [|done|].
    + eapply Forall_impl; [exact Hall|]. simpl; lia.
    + split; [|unfold two63; lia].
      apply (list_elem_of_fmap_2 chunk_bytes) in Hc. rewrite mk_chunks_bytes in Hc.
      rewrite Forall_forall in Hall. by apply Hall.
Qed.

(** C4: a payload larger than the limit is split by [SendEvent]. When the event has an ID, its chunks reach the consumer as one event with the whole payload, the same type and the same source, whatever the order in which they arrive and however often they are repeated before the last missing one; when it has none, and the client gives every event that is sent a new one, the consumer forwards nothing, in whatever order the chunks arrive. *)
Theorem chunked_event_reassembled (p : GenericProducer) (evt : Event) (w w' : W) (a : messageAssembler)
    (Hfresh : forall e w w', Send e w = (false, w') -> ID e = "" ->
      forall got, topic w' = topic w ++ [got] -> ID got ∉ ID <$> topic w) :
  (0 < messageSizeLimit p < zlen (Data evt))%Z -> (zlen (Data evt) < 2 ^ 31)%Z ->
  NoDup (ID <$> topic w) -> SendEvent p evt w = Ret (None, w') ->
  exists evs, topic w' = topic w ++ evs /\
    (ID evt <> "" -> chunkCollectionMap a !! ID evt = None ->
     forall l z, z ∈ evs -> z ∉ l -> (forall e, e ∈ l -> e ∈ evs) -> (forall e, e ∈ evs -> e = z \/ e ∈ l) ->
     exists e', receive_all a (l ++ [z]) = Ret (a, [e']) /\
       Data e' = Data evt /\ Type_ e' = Type_ evt /\ Source e' = Source evt) /\
    (ID evt = "" -> (forall e, e ∈ evs -> chunkCollectionMap a !! ID e = None) ->
     forall l, l ≡ₚ evs -> exists a', receive_all a l = Ret (a', [])).
Proof.
  intros Hl Hb Hn E. destruct (String.eqb_spec (ID evt) "") as [Hid|Hid].
  - destruct (chunked_event_without_id_lost p evt w w' a Hfresh Hl Hb Hid Hn E) as (evs & Ht & Hlost).
    exists evs. split; [done|]. split; [done|]. intros _. exact Hlost.
  - assert (exists evs, topic w' = topic w ++ evs) as [evs Ht].
    { destruct (SendEvent_chunks p evt w w' Hl Hb E) as (evs & _ & Ht & _). eauto. }
    exists evs. split; [done|]. split; [|done]. intros _ Ha.
    destruct (chunks_of_an_identified_event p evt w w' a Hl Hb Hid Ha E) as (evs' & Ht' & Hall).
    rewrite Ht in Ht'. apply app_inv_head in Ht' as ->. exact Hall.
Qed.
End EndToEnd.

(** ** Witnesses: a five-byte payload and a limit of two bytes *)
Definition sample_payload : bytes :=
  [Byte.x61; Byte.x62; Byte.x63; Byte.x64; Byte.x65].
Definition sample_event (id : string) : PlainEvent := MkPlainEvent id "t" "hub1" sample_payload ∅.
Definition sample_sent (id : string) : list PlainEvent :=
  match SendEvent (MkProducer 2) (sample_event id) ([] : list PlainEvent) with
  | Ret (_, w) => w
  | _ => []
  end.

Lemma chunked_event_reassembled_witness :
  (SendEvent (MkProducer 2) (sample_event "e1") ([] : list PlainEvent) = Ret (None, sample_sent "e1") /\
   exists evs, topic (sample_sent "e1") = topic ([] : list PlainEvent) ++ evs /\
    forall l z, z ∈ evs -> z ∉ l -> (forall e, e ∈ l -> e ∈ evs) -> (forall e, e ∈ evs -> e = z \/ e ∈ l) ->
      exists e', receive_all (MkAssembler ∅) (l ++ [z]) = Ret (MkAssembler ∅, [e']) /\
        Data e' = Data (sample_event "e1") /\ Type_ e' = Type_ (sample_event "e1") /\ Source e' = Source (sample_event "e1")) /\
  (SendEvent (MkProducer 2) (sample_event "") ([] : list PlainEvent) = Ret (None, sample_sent "") /\
   exists evs, topic (sample_sent "") = topic ([] : list PlainEvent) ++ evs /\
     exists a', receive_all (MkAssembler ∅) evs = Ret (a', [])).
Proof.
  assert (HS : SendEvent (MkProducer 2) (sample_event "e1") ([] : list PlainEvent) =
               Ret (None, sample_sent "e1")) by (vm_compute; reflexivity).
  assert (HE : SendEvent (MkProducer 2) (sample_event "") ([] : list PlainEvent) =
               Ret (None, sample_sent "")) by (vm_compute; reflexivity).
  split; (split; [assumption|]).
  - destruct (chunked_event_reassembled (MkProducer 2) (sample_event "e1") [] (sample_sent "e1")
           (MkAssembler ∅) plain_client_fresh) as (evs & Ht & Hall & _); [done|done|constructor|exact HS|].
    exists evs. split; [exact Ht|]. by apply Hall.
  - destruct (chunked_event_reassembled (MkProducer 2) (sample_event "") [] (sample_sent "")
           (MkAssembler ∅) plain_client_fresh) as (evs & Ht & _ & Hlost); [done|done|constructor|exact HE|].
    exists evs. split; [exact Ht|]. by apply Hlost.
Defined.

Lemma chunked_event_without_id_lost_witness :
  SendEvent (MkProducer 2) (sample_event "") ([] : list PlainEvent) = Ret (None, sample_sent "") /\
  exists evs, topic (sample_sent "") = topic ([] : list PlainEvent) ++ evs /\
    ((forall e, e ∈ evs -> chunkCollectionMap (MkAssembler ∅) !! ID e = None) -> forall l, l ≡ₚ evs ->
     exists a', receive_all (MkAssembler ∅) l = Ret (a', [])).
Proof.
  assert (HS : SendEvent (MkProducer 2) (sample_event "") ([] : list PlainEvent) =
               Ret (None, sample_sent "")) by (vm_compute; reflexivity).
  split; [exact HS|].
  apply (chunked_event_without_id_lost (MkProducer 2) (sample_event "") [] (sample_sent "")
           (MkAssembler ∅) plain_client_fresh); [done|done|done|constructor|exact HS].
Defined.
