(* ===== verification/Metadata.v ===== *)
(** * Event metadata and the shared store

    [manager/pkg/status/conflator/metadata/threshold_metadata.go], with the
    store of the objects that the elements of a conflation unit, the jobs of
    the workers and the committer share through pointers: a version object can
    be at the same time the version of a pending event, of a job in progress
    and the last processed version of an element. *)

From stdpp Require Import prelude gmap strings list.
From Stdlib Require Import ZArith Lia.
From S2P Require Import Prelude.
From S2P Require Import GoLib.
From S2P Require Import Version.
From S2P Require Import CloudEvents.
Local Open Scope string_scope.
Local Open Scope list_scope.

(** [pkg/transport/type.go] *)
Record EventPosition := MkPosition {
  OwnerIdentity : string;
  Topic : string;
  Partition : Z;
  Offset : Z;
}.

Record ThresholdMetadata := MkMetadata {
  maxRetry : Z;
  count : Z;
  kafkaPosition : EventPosition;
  md_eventType : string;
  eventVersion : option nat;            (** pointer to a version *)
  eventDependencyVersion : option nat;  (** pointer to a version *)
}.

(** ** The store *)
Record Heap := MkHeap {
  next : nat;
  versions : gmap nat Version;
  metas : gmap nat ThresholdMetadata;
}.

Definition empty_heap : Heap := MkHeap 0 ∅ ∅.

Definition alloc_version (v : Version) (h : Heap) : nat * Heap :=
  (next h, MkHeap (S (next h)) (<[next h := v]> (versions h)) (metas h)).

Definition alloc_meta (m : ThresholdMetadata) (h : Heap) : nat * Heap :=
  (next h, MkHeap (S (next h)) (versions h) (<[next h := m]> (metas h))).

(** Reading through a pointer; nil and dangling pointers panic. *)
Definition get_version (h : Heap) (l : nat) : outcome Version :=
  match versions h !! l with Some v => Ret v | None => Panic end.

Definition get_version_ptr (h : Heap) (l : option nat) : outcome Version :=
  match l with Some l => get_version h l | None => Panic end.

Definition get_meta (h : Heap) (l : nat) : outcome ThresholdMetadata :=
  match metas h !! l with Some m => Ret m | None => Panic end.

Definition set_version (h : Heap) (l : nat) (v : Version) : Heap :=
  MkHeap (next h) (<[l := v]> (versions h)) (metas h).

Definition set_meta (h : Heap) (l : nat) (m : ThresholdMetadata) : Heap :=
  MkHeap (next h) (versions h) (<[l := m]> (metas h)).

Definition with_count (m : ThresholdMetadata) (c : Z) : ThresholdMetadata :=
  MkMetadata (maxRetry m) c (kafkaPosition m) (md_eventType m) (eventVersion m) (eventDependencyVersion m).

(** ** Methods of the metadata *)
Definition MarkAsProcessed (m : ThresholdMetadata) : ThresholdMetadata := with_count m (-1).

Definition MarkAsUnprocessed (m : ThresholdMetadata) : ThresholdMetadata :=
  with_count m (swrap64 (count m + 1)).

Definition Processed (m : ThresholdMetadata) : bool :=
  (count m =? -1)%Z || (maxRetry m <=? count m)%Z.

(** ** Construction from an event *)
Section FromEvent.
Context {Event : Type} `{EventSDK Event}.

(** [None] is the nil version of an event without the extension. *)
Definition getVersionFromEvent (evt : Event) (key : string) : result (option Version) :=
  match Extensions evt !! key with
  | None => Ok None
  | Some (ExtString version) => let? v := VersionFrom version in Ok (Some v)
  | Some _ => Err "the val can't be convert to of string"
  end.

Definition position_of_event (clusterIdentity : string) (evt : Event) : EventPosition :=
  let topic := match ToString (Extensions evt !! KafkaTopicKey) with Ok s => s | Err _ => "" end in
  let partition :=
    match ToInteger (Extensions evt !! KafkaPartitionKey) with Ok z => z | Err _ => 0%Z end in
  let offsetStr := match Extensions evt !! KafkaOffsetKey with Some (ExtString s) => s | _ => "" end in
  let '(offset, _) := ParseInt offsetStr in
  MkPosition clusterIdentity topic partition offset.

(** [None] for the nil metadata of an event whose version cannot be read. *)
Definition NewThresholdMetadata (clusterIdentity : string) (max : Z) (evt : Event) (h : Heap)
    : option nat * Heap :=
  match getVersionFromEvent evt ExtVersion with
  | Err _ | Ok None => (None, h)
  | Ok (Some ev) =>
      match getVersionFromEvent evt ExtDependencyVersion with
      | Err _ => (None, h)
      | Ok dv =>
          let '(lv, h1) := alloc_version ev h in
          let '(ld, h2) :=
            match dv with
            | None => (None, h1)
            | Some d => let '(l, h') := alloc_version d h1 in (Some l, h')
            end in
          let '(lm, h3) :=
            alloc_meta (MkMetadata max 0 (position_of_event clusterIdentity evt) (Type_ evt)
                          (Some lv) ld) h2 in
          (Some lm, h3)
      end
  end.
End FromEvent.

Definition NewThresholdMetadataFromPosition (max : Z) (pos : EventPosition) (h : Heap) : nat * Heap :=
  alloc_meta (MkMetadata max 0 pos "" None None) h.

(** ** Facts *)
Lemma Processed_MarkAsProcessed m : Processed (MarkAsProcessed m) = true.
Proof. done. Qed.

(** The number of failures after which the metadata counts as processed. *)
Lemma Processed_after_failures m n :
  count m = 0%Z -> (0 < maxRetry m < two63)%Z -> (Z.of_nat n < two63)%Z ->
  Processed (Nat.iter n MarkAsUnprocessed m) = (maxRetry m <=? Z.of_nat n)%Z.
Proof.
  intros Hc Hm Hn.
  assert (E : count (Nat.iter n MarkAsUnprocessed m) = Z.of_nat n /\
              maxRetry (Nat.iter n MarkAsUnprocessed m) = maxRetry m).
  { induction n as [|n IH]; [done|]. destruct IH as [E1 E2]; [lia|].
    rewrite Nat.iter_succ. unfold MarkAsUnprocessed at 1 3, with_count; simpl.
    rewrite E1, E2. split; [|done].
    rewrite swrap64_small by (unfold i64_ok, two63 in *; lia). lia. }
  destruct E as [E1 E2]. unfold Processed. rewrite E1, E2.
  rewrite (proj2 (Z.eqb_neq _ _)) by lia. done.
Qed.

Lemma get_version_set_eq h l v : get_version (set_version h l v) l = Ret v.
Proof. unfold get_version; simpl. by rewrite lookup_insert_eq. Qed.

Lemma get_version_set_ne h l l' v :
  l <> l' -> get_version (set_version h l v) l' = get_version h l'.
Proof. intros. unfold get_version; simpl. by rewrite lookup_insert_ne. Qed.

Lemma get_version_set_meta h l m l' : get_version (set_meta h l m) l' = get_version h l'.
Proof. done. Qed.

Lemma get_meta_set_eq h l m : get_meta (set_meta h l m) l = Ret m.
Proof. unfold get_meta; simpl. by rewrite lookup_insert_eq. Qed.

Lemma get_meta_set_ne h l l' m : l <> l' -> get_meta (set_meta h l m) l' = get_meta h l'.
Proof. intros. unfold get_meta; simpl. by rewrite lookup_insert_ne. Qed.

Lemma get_version_Ret h l v : get_version h l = Ret v <-> versions h !! l = Some v.
Proof. unfold get_version. destruct (versions h !! l); split; congruence. Qed.

Lemma get_meta_Ret h l m : get_meta h l = Ret m <-> metas h !! l = Some m.
Proof. unfold get_meta. destruct (metas h !! l); split; congruence. Qed.
#[export] Hint Rewrite get_version_set_eq get_version_set_meta get_meta_set_eq
  get_version_Ret get_meta_Ret : hub.
