(* ===== verification/Conflation.v ===== *)
(** * Conflation of the status bundles of one hub

    [manager/pkg/status/conflator]: registrations, the complete and delta
    elements, the conflation unit of a leaf hub with its priority queue and
    ready flag, the ready queue shared with the dispatcher and the manager that
    finds or creates the unit of an event. *)

From stdpp Require Import prelude gmap strings list.
From Stdlib Require Import ZArith Lia.
From S2P Require Import Prelude.
From S2P Require Import GoLib.
From S2P Require Import Version.
From S2P Require Import CloudEvents.
From S2P Require Import Metadata.
Local Open Scope string_scope.
Local Open Scope list_scope.

(** ** Registrations *)

(** [pkg/enum/sync_mode.go] *)
Inductive EventSyncMode := CompleteStateMode | DeltaStateMode.
#[export] Instance EventSyncMode_eq_dec : EqDecision EventSyncMode.
Proof. solve_decision. Defined.

(** [dependency/type.go]: a string type with two constants. *)
Definition DependencyType := string.
Definition ExactMatch : DependencyType := "ExactMatch".
Definition AtLeast : DependencyType := "AtLeast".

Record Dependency := NewDependency {
  dep_EventType : string;
  dep_Type : DependencyType;
}.

Section Conflator.
Context {Event Handler : Type} `{EventSDK Event}.

Record ConflationRegistration := MkRegistration {
  reg_priority : nat;
  reg_syncMode : EventSyncMode;
  reg_eventType : string;
  reg_handleFunc : Handler;
  reg_dependency : option Dependency;
}.

Definition NewConflationRegistration (priority : nat) (syncMode : EventSyncMode)
    (eventType : string) (handlerFunction : Handler) : ConflationRegistration :=
  MkRegistration priority syncMode eventType handlerFunction None.

Definition WithDependency (r : ConflationRegistration) (val : option Dependency) : ConflationRegistration :=
  MkRegistration (reg_priority r) (reg_syncMode r) (reg_eventType r) (reg_handleFunc r) val.

(** ** Elements *)
Record completeElement := MkComplete {
  ce_eventType : string;
  ce_syncMode : EventSyncMode;
  ce_handlerFunction : Handler;
  ce_dependency : option Dependency;
  ce_isInProcess : bool;
  ce_lastProcessedVersion : nat;  (** pointer to a version *)
  ce_event : option Event;
  ce_metadata : option nat;       (** pointer to a metadata *)
}.

Record deltaElement := MkDelta {
  de_eventType : string;
  de_syncMode : EventSyncMode;
  de_handlerFunction : Handler;
  de_dependency : option Dependency;
  de_isInProcess : bool;
  de_lastProcessedVersion : nat;
  de_metadata : option nat;
}.

(** The interface [ConflationElement] and the two types that implement it. *)
Inductive ConflationElement :=
| Complete (e : completeElement)
| Delta (e : deltaElement).

(** A job for a worker; the reporter is the unit of the named leaf hub. *)
Record ConflationJob := NewConflationJob {
  job_Event : Event;
  job_Metadata : nat;
  job_Handle : Handler;
  job_Reporter : string;
}.

(** ** The ready queue: two buffered channels *)
Record ConflationReadyQueue := MkReadyQueue {
  DeltaEventJobChan : list ConflationJob;
  ConflationUnitChan : list string;
}.
Definition NewConflationReadyQueue : ConflationReadyQueue := MkReadyQueue [] [].
Definition delta_chan_size : nat := 1000.
Definition unit_chan_size : nat := 100.

(** A send on a full channel blocks. *)
Definition chan_send {A} (cap : nat) (q : list A) (x : A) : outcome (list A) :=
  if (length q <? cap)%nat then Ret (q ++ [x]) else Block.

Definition send_delta (rq : ConflationReadyQueue) (j : ConflationJob) : outcome ConflationReadyQueue :=
  let! q := chan_send delta_chan_size (DeltaEventJobChan rq) j in
  Ret (MkReadyQueue q (ConflationUnitChan rq)).

Definition send_unit (rq : ConflationReadyQueue) (cu : string) : outcome ConflationReadyQueue :=
  let! q := chan_send unit_chan_size (ConflationUnitChan rq) cu in
  Ret (MkReadyQueue (DeltaEventJobChan rq) q).

(** ** The conflation unit *)
Record ConflationUnit := MkUnit {
  cu_name : string;
  ElementPriorityQueue : list (option ConflationElement);  (** [None] is a nil element *)
  eventTypeToPriority : gmap string nat;
  isInReadyQueue : bool;
}.

Definition set_queue (cu : ConflationUnit) (q : list (option ConflationElement)) : ConflationUnit :=
  MkUnit (cu_name cu) q (eventTypeToPriority cu) (isInReadyQueue cu).
Definition set_ready (cu : ConflationUnit) (b : bool) : ConflationUnit :=
  MkUnit (cu_name cu) (ElementPriorityQueue cu) (eventTypeToPriority cu) b.

(** Reading a missing key of the priority map gives priority 0. *)
Definition priority_of (cu : ConflationUnit) (eventType : string) : nat :=
  default 0%nat (eventTypeToPriority cu !! eventType).

Definition SyncMode (e : ConflationElement) : EventSyncMode :=
  match e with Complete c => ce_syncMode c | Delta d => de_syncMode d end.

Definition element_Metadata (e : ConflationElement) : option nat :=
  match e with Complete c => ce_metadata c | Delta d => de_metadata d end.

Definition NewCompleteElement (r : ConflationRegistration) (h : Heap) : completeElement * Heap :=
  let '(l, h') := alloc_version NewVersion h in
  (MkComplete (reg_eventType r) (reg_syncMode r) (reg_handleFunc r) (reg_dependency r) false l None None, h').

Definition NewDeltaElement (r : ConflationRegistration) (h : Heap) : deltaElement * Heap :=
  let '(l, h') := alloc_version NewVersion h in
  (MkDelta (reg_eventType r) (reg_syncMode r) (reg_handleFunc r) (reg_dependency r) false l None, h').

Definition complete_set_last (e : completeElement) (l : nat) : completeElement :=
  MkComplete (ce_eventType e) (ce_syncMode e) (ce_handlerFunction e) (ce_dependency e)
    (ce_isInProcess e) l (ce_event e) (ce_metadata e).
Definition complete_set_process (e : completeElement) (b : bool) : completeElement :=
  MkComplete (ce_eventType e) (ce_syncMode e) (ce_handlerFunction e) (ce_dependency e)
    b (ce_lastProcessedVersion e) (ce_event e) (ce_metadata e).
Definition complete_set_payload (e : completeElement) (ev : option Event) (m : option nat) : completeElement :=
  MkComplete (ce_eventType e) (ce_syncMode e) (ce_handlerFunction e) (ce_dependency e)
    (ce_isInProcess e) (ce_lastProcessedVersion e) ev m.
Definition delta_set_last (e : deltaElement) (l : nat) : deltaElement :=
  MkDelta (de_eventType e) (de_syncMode e) (de_handlerFunction e) (de_dependency e)
    (de_isInProcess e) l (de_metadata e).
Definition delta_set_metadata (e : deltaElement) (m : option nat) : deltaElement :=
  MkDelta (de_eventType e) (de_syncMode e) (de_handlerFunction e) (de_dependency e)
    (de_isInProcess e) (de_lastProcessedVersion e) m.

(** ** Complete element *)

(** The reset done when a version of the first generation arrives: a new last
    processed version, and the version object of the held metadata zeroed in
    place. *)
Definition complete_reset (e : completeElement) (h : Heap) : outcome (completeElement * Heap) :=
  let '(l, h1) := alloc_version NewVersion h in
  let e1 := complete_set_last e l in
  match ce_metadata e1 with
  | None => Ret (e1, h1)
  | Some m =>
      let! md := get_meta h1 m in
      match eventVersion md with
      | None => Panic
      | Some vl => let! v := get_version h1 vl in Ret (e1, set_version h1 vl (Reset v))
      end
  end.

Definition complete_Predicate (e : completeElement) (ev : option nat) (h : Heap)
    : outcome (bool * completeElement * Heap) :=
  let! v0 := get_version_ptr h ev in
  let! (e1, h1) := (if InitGen v0 then complete_reset e h else Ret (e, h)) in
  let! v := get_version_ptr h1 ev in
  let! last := get_version h1 (ce_lastProcessedVersion e1) in
  if negb (NewerThan v (Some last)) then Ret (false, e1, h1)
  else
    match ce_metadata e1 with
    | None => Ret (true, e1, h1)
    | Some m =>
        let! md := get_meta h1 m in
        let! held := (match eventVersion md with
                      | None => Ret None
                      | Some vl => let! x := get_version h1 vl in Ret (Some x)
                      end) in
        Ret (NewerThan v held, e1, h1)
    end.

(** The element at a priority as a complete element, [None] when the type
    assertion fails. *)
Definition complete_at (cu : ConflationUnit) (i : nat) : outcome (option completeElement) :=
  let! slot := slice_get (ElementPriorityQueue cu) i in
  match slot with
  | Some (Complete c) => Ret (Some c)
  | _ => Ret None
  end.

(** The recursion follows the chain of dependencies; [fuel] bounds its depth. *)
Fixpoint isCurrentOrAnyDependencyInProcess (fuel : nat) (cu : ConflationUnit) (e : completeElement)
    : outcome bool :=
  match fuel with
  | O => Diverge
  | S fuel' =>
      if ce_isInProcess e then Ret true
      else match ce_dependency e with
           | None => Ret false
           | Some d =>
               let! dep := complete_at cu (priority_of cu (dep_EventType d)) in
               match dep with
               | None => Ret false
               | Some c => isCurrentOrAnyDependencyInProcess fuel' cu c
               end
           end
  end.

(** One more than the number of elements, the longest chain without a cycle. *)
Definition chain_fuel (cu : ConflationUnit) : nat := S (length (ElementPriorityQueue cu)).

Definition matchDependency (cu : ConflationUnit) (e : completeElement) (h : Heap) : outcome bool :=
  match ce_dependency e with
  | None => Ret true
  | Some d =>
      let! dep := complete_at cu (priority_of cu (dep_EventType d)) in
      match dep with
      | None => Ret false
      | Some c =>
          match ce_metadata e with
          | None => Panic
          | Some m =>
              let! md := get_meta h m in
              let! last := get_version h (ce_lastProcessedVersion c) in
              let! dv := get_version_ptr h (eventDependencyVersion md) in
              if decide (dep_Type d = ExactMatch) then Ret (EqualValue dv (Some last))
              else Ret (negb (NewerValueThan dv (Some last)))
          end
      end
  end.

Definition IsReadyToProcess (cu : ConflationUnit) (e : completeElement) (h : Heap) : outcome bool :=
  match ce_event e, ce_metadata e with
  | Some _, Some m =>
      if ce_isInProcess e then Ret false
      else
        let! md := get_meta h m in
        if Processed md then Ret false
        else
          let! busy := isCurrentOrAnyDependencyInProcess (chain_fuel cu) cu e in
          if busy then Ret false else matchDependency cu e h
  | _, _ => Ret false
  end.

Definition complete_ProcessJob (cu : ConflationUnit) (e : completeElement)
    : option ConflationJob * completeElement :=
  match ce_event e, ce_metadata e with
  | Some ev, Some m =>
      (Some (NewConflationJob ev m (ce_handlerFunction e) (cu_name cu)), complete_set_process e true)
  | _, _ => (None, e)
  end.

(** [err] tells whether the reported error is not nil. *)
Definition complete_PostProcess (e : completeElement) (m : nat) (err : bool) (h : Heap)
    : outcome completeElement :=
  let e1 := complete_set_process e false in
  if err then Ret e1
  else
    let! md := get_meta h m in
    let! e2 :=
      (if Processed md then
         let! v := get_version_ptr h (eventVersion md) in
         let! last := get_version h (ce_lastProcessedVersion e1) in
         if NewerThan v (Some last)
         then Ret (complete_set_last e1 (default 0%nat (eventVersion md)))
         else Ret e1
       else Ret e1) in
    let! v := get_version_ptr h (eventVersion md) in
    match ce_metadata e2 with
    | None => Panic
    | Some held =>
        let! hmd := get_meta h held in
        let! hv := get_version_ptr h (eventVersion hmd) in
        Ret (if Equals v hv then complete_set_payload e2 None (ce_metadata e2) else e2)
    end.

(** ** The unit *)

(** The index of the first element, in priority order, that is ready. *)
Fixpoint next_ready (cu : ConflationUnit) (h : Heap) (i : nat) (q : list (option ConflationElement))
    : outcome (option nat) :=
  match q with
  | [] => Ret None
  | None :: _ => Panic
  | Some el :: q' =>
      if decide (SyncMode el = DeltaStateMode) then next_ready cu h (S i) q'
      else
        match el with
        | Delta _ => next_ready cu h (S i) q'
        | Complete c =>
            let! ready := IsReadyToProcess cu c h in
            if ready then Ret (Some i) else next_ready cu h (S i) q'
        end
  end.

Definition getNextReadyCompleteElement (cu : ConflationUnit) (h : Heap) : outcome (option nat) :=
  next_ready cu h 0 (ElementPriorityQueue cu).

Definition addCUToReadyQueueIfNeeded (cu : ConflationUnit) (rq : ConflationReadyQueue) (h : Heap)
    : outcome (ConflationUnit * ConflationReadyQueue) :=
  if isInReadyQueue cu then Ret (cu, rq)
  else
    let! element := getNextReadyCompleteElement cu h in
    match element with
    | None => Ret (cu, rq)
    | Some _ =>
        let! rq' := send_unit rq (cu_name cu) in
        Ret (set_ready cu true, rq')
    end.

Definition update_slot (cu : ConflationUnit) (i : nat) (el : ConflationElement) : outcome ConflationUnit :=
  let! q := slice_set (ElementPriorityQueue cu) i (Some el) in
  Ret (set_queue cu q).

Definition complete_AddToReadyQueue (cu : ConflationUnit) (i : nat) (e : completeElement)
    (event : Event) (m : nat) (rq : ConflationReadyQueue) (h : Heap)
    : outcome (ConflationUnit * ConflationReadyQueue) :=
  let! cu1 := update_slot cu i (Complete (complete_set_payload e (Some event) (Some m))) in
  addCUToReadyQueueIfNeeded cu1 rq h.

(** ** Delta element *)
Definition delta_Predicate (e : deltaElement) (ev : option nat) (h : Heap)
    : outcome (bool * deltaElement * Heap) :=
  let! v := get_version_ptr h ev in
  let '(e1, h1) :=
    (if InitGen v then let '(l, h') := alloc_version NewVersion h in (delta_set_last e l, h') else (e, h)) in
  let! last := get_version h1 (de_lastProcessedVersion e1) in
  Ret (NewerThan v (Some last), e1, h1).

Definition delta_AddToReadyQueue (cu : ConflationUnit) (i : nat) (e : deltaElement)
    (event : Event) (m : nat) (rq : ConflationReadyQueue)
    : outcome (ConflationUnit * ConflationReadyQueue) :=
  let! rq' := send_delta rq (NewConflationJob event m (de_handlerFunction e) (cu_name cu)) in
  let! cu1 := update_slot cu i (Delta (delta_set_metadata e (Some m))) in
  Ret (cu1, rq').

Definition delta_PostProcess (e : deltaElement) (m : nat) (err : bool) (h : Heap) : outcome deltaElement :=
  if err then Ret e
  else
    let! md := get_meta h m in
    if Processed md then
      let! v := get_version_ptr h (eventVersion md) in
      let! last := get_version h (de_lastProcessedVersion e) in
      if NewerThan v (Some last)
      then Ret (delta_set_last e (default 0%nat (eventVersion md)))
      else Ret e
    else Ret e.

(** ** Operations of the unit *)
Definition insert (cu : ConflationUnit) (event : Event) (m : nat) (rq : ConflationReadyQueue) (h : Heap)
    : outcome (ConflationUnit * ConflationReadyQueue * Heap) :=
  let priority := priority_of cu (Type_ event) in
  let! slot := slice_get (ElementPriorityQueue cu) priority in
  match slot with
  | None => Ret (cu, rq, h)
  | Some (Complete e) =>
      let! md := get_meta h m in
      let! (ok, e1, h1) := complete_Predicate e (eventVersion md) h in
      if ok then
        let! (cu1, rq1) := complete_AddToReadyQueue cu priority e1 event m rq h1 in
        Ret (cu1, rq1, h1)
      else
        let! cu1 := update_slot cu priority (Complete e1) in
        Ret (cu1, rq, h1)
  | Some (Delta e) =>
      let! md := get_meta h m in
      let! (ok, e1, h1) := delta_Predicate e (eventVersion md) h in
      if ok then
        let! (cu1, rq1) := delta_AddToReadyQueue cu priority e1 event m rq in
        Ret (cu1, rq1, h1)
      else
        let! cu1 := update_slot cu priority (Delta e1) in
        Ret (cu1, rq, h1)
  end.

Definition GetNext (cu : ConflationUnit) (h : Heap) : outcome (result ConflationJob * ConflationUnit) :=
  let! element := getNextReadyCompleteElement cu h in
  match element with
  | None => Ret (Err "no event(element) is ready to be processed", cu)
  | Some i =>
      let cu1 := set_ready cu false in
      let! c := complete_at cu1 i in
      match c with
      | None => Panic
      | Some e =>
          let '(job, e') := complete_ProcessJob cu1 e in
          let! cu2 := update_slot cu1 i (Complete e') in
          match job with
          | None => Ret (Err "no job is ready to be processed", cu2)
          | Some j => Ret (Ok j, cu2)
          end
      end
  end.

Definition ReportResult (cu : ConflationUnit) (m : nat) (err : bool) (rq : ConflationReadyQueue) (h : Heap)
    : outcome (ConflationUnit * ConflationReadyQueue) :=
  let! md := get_meta h m in
  let priority := priority_of cu (md_eventType md) in
  let! slot := slice_get (ElementPriorityQueue cu) priority in
  match slot with
  | None => Panic
  | Some (Complete e) =>
      let! e' := complete_PostProcess e m err h in
      let! cu1 := update_slot cu priority (Complete e') in
      if decide (ce_syncMode e' = CompleteStateMode)
      then addCUToReadyQueueIfNeeded cu1 rq h else Ret (cu1, rq)
  | Some (Delta e) =>
      let! e' := delta_PostProcess e m err h in
      let! cu1 := update_slot cu priority (Delta e') in
      if decide (de_syncMode e' = CompleteStateMode)
      then addCUToReadyQueueIfNeeded cu1 rq h else Ret (cu1, rq)
  end.

Fixpoint slots_metadatas (q : list (option ConflationElement)) : outcome (list nat) :=
  match q with
  | [] => Ret []
  | None :: _ => Panic
  | Some el :: q' =>
      let! rest := slots_metadatas q' in
      Ret (match element_Metadata el with None => rest | Some m => m :: rest end)
  end.

Definition getMetadatas (cu : ConflationUnit) : outcome (list nat) :=
  slots_metadatas (ElementPriorityQueue cu).

(** ** Creation of a unit *)
Definition add_registration (r : ConflationRegistration) (cu : ConflationUnit) (h : Heap)
    : outcome (ConflationUnit * Heap) :=
  let '(el, h1) :=
    match reg_syncMode r with
    | CompleteStateMode => let '(e, h') := NewCompleteElement r h in (Complete e, h')
    | DeltaStateMode => let '(e, h') := NewDeltaElement r h in (Delta e, h')
    end in
  let! cu1 := update_slot cu (reg_priority r) el in
  Ret (MkUnit (cu_name cu1) (ElementPriorityQueue cu1)
         (<[reg_eventType r := reg_priority r]> (eventTypeToPriority cu1)) (isInReadyQueue cu1), h1).

Fixpoint add_registrations (rs : list ConflationRegistration) (cu : ConflationUnit) (h : Heap)
    : outcome (ConflationUnit * Heap) :=
  match rs with
  | [] => Ret (cu, h)
  | r :: rs' =>
      let! (cu1, h1) := add_registration r cu h in
      add_registrations rs' cu1 h1
  end.

(** The loop ranges over a map: [rs] is its values in some order. *)
Definition newConflationUnit (name : string) (rs : list ConflationRegistration) (h : Heap)
    : outcome (ConflationUnit * Heap) :=
  add_registrations rs (MkUnit name (replicate (length rs) None) ∅ false) h.

(** ** The manager *)
Record ConflationManager := MkManager {
  conflationUnits : gmap string ConflationUnit;
  registrations : gmap string ConflationRegistration;
}.
Definition NewConflationManager : ConflationManager := MkManager ∅ ∅.

Definition Register (cm : ConflationManager) (r : ConflationRegistration) : ConflationManager :=
  MkManager (conflationUnits cm) (<[reg_eventType r := r]> (registrations cm)).

Definition set_unit (cm : ConflationManager) (name : string) (cu : ConflationUnit) : ConflationManager :=
  MkManager (<[name := cu]> (conflationUnits cm)) (registrations cm).

Definition getConflationUnit (cm : ConflationManager) (leafHubName : string) (h : Heap)
    : outcome (ConflationUnit * ConflationManager * Heap) :=
  match conflationUnits cm !! leafHubName with
  | Some cu => Ret (cu, cm, h)
  | None =>
      let! (cu, h1) := newConflationUnit leafHubName (map_to_list (registrations cm)).*2 h in
      Ret (cu, set_unit cm leafHubName cu, h1)
  end.

(** The variable [transportID] of the consumer package is never assigned. *)
Definition TransportID : string := "".

Definition Insert (cm : ConflationManager) (evt : Event) (rq : ConflationReadyQueue) (h : Heap)
    : outcome (ConflationManager * ConflationReadyQueue * Heap) :=
  match registrations cm !! Type_ evt with
  | None => Ret (cm, rq, h)
  | Some _ =>
      match NewThresholdMetadata TransportID 3 evt h with
      | (None, h1) => Ret (cm, rq, h1)
      | (Some m, h1) =>
          let! (cu, cm1, h2) := getConflationUnit cm (Source evt) h1 in
          let! (cu', rq', h3) := insert cu evt m rq h2 in
          Ret (set_unit cm1 (Source evt) cu', rq', h3)
      end
  end.

(** The loop ranges over the map of units, in some order. *)
Fixpoint units_metadatas (us : list ConflationUnit) : outcome (list nat) :=
  match us with
  | [] => Ret []
  | cu :: us' =>
      let! ms := getMetadatas cu in
      let! rest := units_metadatas us' in
      Ret (ms ++ rest)
  end.

Definition GetMetadatas (cm : ConflationManager) : outcome (list nat) :=
  units_metadatas (map_to_list (conflationUnits cm)).*2.
End Conflator.

Arguments ConflationRegistration : clear implicits.
Arguments ConflationElement : clear implicits.
Arguments completeElement : clear implicits.
Arguments deltaElement : clear implicits.
Arguments ConflationJob : clear implicits.
Arguments ConflationReadyQueue : clear implicits.
Arguments ConflationUnit : clear implicits.
Arguments ConflationManager : clear implicits.
