(* ===== verification/ConflationFacts.v ===== *)
(** * Facts on the operations of a conflation unit

    What [insert], [GetNext] and [ReportResult] keep and what they change: the
    static part of the elements, the marks of the elements in process, the
    ready flag and the ready queue, and the choice of the next element. *)

From stdpp Require Import prelude gmap strings list.
From Stdlib Require Import ZArith Lia.
From S2P Require Import Prelude.
From S2P Require Import GoLib.
From S2P Require Import Version.
From S2P Require Import CloudEvents.
From S2P Require Import Metadata.
From S2P Require Import Conflation.
Local Open Scope string_scope.
Local Open Scope list_scope.

Section Facts.
Context {Event Handler : Type} `{EventSDK Event}.
Local Notation Unit := (ConflationUnit Event Handler).
Local Notation Element := (ConflationElement Event Handler).
Local Notation RQ := (ConflationReadyQueue Event Handler).
Local Notation Job := (ConflationJob Event Handler).
Implicit Types (cu : Unit) (rq : RQ) (h : Heap).

(** ** The static part of an element *)
Definition same_element (a b : Element) : Prop :=
  match a, b with
  | Complete x, Complete y =>
      ce_eventType x = ce_eventType y /\ ce_syncMode x = ce_syncMode y /\
      ce_handlerFunction x = ce_handlerFunction y /\ ce_dependency x = ce_dependency y
  | Delta x, Delta y =>
      de_eventType x = de_eventType y /\ de_syncMode x = de_syncMode y /\
      de_handlerFunction x = de_handlerFunction y /\ de_dependency x = de_dependency y
  | _, _ => False
  end.

#[export] Instance same_element_equiv : Equivalence same_element.
Proof.
  split.
  - intros []; simpl; auto.
  - intros [] []; simpl; intuition.
  - intros [] [] []; simpl; intuition congruence.
Qed.

#[export] Instance same_slot_refl : Reflexive (option_Forall2 same_element).
Proof. intros []; by constructor. Qed.

Lemma same_slots_refl (q : list (option Element)) : Forall2 (option_Forall2 same_element) q q.
Proof. induction q; by constructor. Qed.

Lemma same_slots_update (q : list (option Element)) i el el' :
  q !! i = Some (Some el) -> same_element el el' ->
  Forall2 (option_Forall2 same_element) q (<[i := Some el']> q).
Proof.
  intros Hi Hs. revert i Hi. induction q as [|x q IH]; intros [|i] Hi; simpl in *; [done..| |].
  - injection Hi as ->. constructor; [by constructor|apply same_slots_refl].
  - constructor; [done|by apply IH].
Qed.

(** The units before and after an operation: same name, same priorities, same
    elements up to their state. *)
Record same_unit cu cu' : Prop := {
  same_name : cu_name cu' = cu_name cu;
  same_priorities : eventTypeToPriority cu' = eventTypeToPriority cu;
  same_slots :
    Forall2 (option_Forall2 same_element) (ElementPriorityQueue cu) (ElementPriorityQueue cu');
}.

#[export] Instance same_unit_preorder : PreOrder same_unit.
Proof.
  split.
  - intros cu. split; [done..|]. apply same_slots_refl.
  - intros a b c [? ? Hab] [? ? Hbc]. split; [congruence..|].
    by etrans.
Qed.

Lemma same_unit_update cu i el el' cu' :
  ElementPriorityQueue cu !! i = Some (Some el) -> same_element el el' ->
  update_slot cu i el' = Ret cu' ->
  same_unit cu cu' /\ isInReadyQueue cu' = isInReadyQueue cu /\
  ElementPriorityQueue cu' = <[i := Some el']> (ElementPriorityQueue cu).
Proof.
  intros Hi Hs E. unfold update_slot, slice_set in E.
  case_decide; [|done]. simpl in E. injection E as <-.
  split; [|done]. split; [done..|]. simpl. by eapply same_slots_update.
Qed.

(** ** The marks of the elements in process *)
Definition in_process cu (i : nat) : bool :=
  match ElementPriorityQueue cu !! i with
  | Some (Some (Complete c)) => ce_isInProcess c
  | _ => false
  end.

Definition marks (q : list (option Element)) : list bool :=
  (fun s => match s with Some (Complete c) => ce_isInProcess c | _ => false end) <$> q.

Lemma in_process_marks cu i : in_process cu i = default false (marks (ElementPriorityQueue cu) !! i).
Proof.
  unfold in_process, marks. rewrite list_lookup_fmap.
  destruct (ElementPriorityQueue cu !! i) as [[[]|]|]; done.
Qed.

Lemma marks_update (q : list (option Element)) i s :
  marks (<[i := s]> q) =
  <[i := match s with Some (Complete c) => ce_isInProcess c | _ => false end]> (marks q).
Proof. unfold marks. apply list_fmap_insert. Qed.

Lemma marks_same (q : list (option Element)) i el el' :
  q !! i = Some (Some el) ->
  (match el with Complete c => ce_isInProcess c | _ => false end) =
  (match el' with Complete c => ce_isInProcess c | _ => false end) ->
  marks (<[i := Some el']> q) = marks q.
Proof.
  intros Hi E. rewrite marks_update. apply list_insert_id.
  unfold marks. rewrite list_lookup_fmap, Hi. simpl. by rewrite E.
Qed.

(** ** The ready flag and the ready queue *)
Inductive ready_step cu cu' rq rq' : Prop :=
| ready_same : isInReadyQueue cu' = isInReadyQueue cu ->
    ConflationUnitChan rq' = ConflationUnitChan rq -> ready_step cu cu' rq rq'
| ready_enqueued : isInReadyQueue cu = false -> isInReadyQueue cu' = true ->
    ConflationUnitChan rq' = ConflationUnitChan rq ++ [cu_name cu] -> ready_step cu cu' rq rq'.

Lemma ready_step_refl cu rq : ready_step cu cu rq rq.
Proof. by constructor. Qed.

Lemma addCU_spec cu rq h cu' rq' :
  addCUToReadyQueueIfNeeded cu rq h = Ret (cu', rq') ->
  ElementPriorityQueue cu' = ElementPriorityQueue cu /\ cu_name cu' = cu_name cu /\
  eventTypeToPriority cu' = eventTypeToPriority cu /\
  DeltaEventJobChan rq' = DeltaEventJobChan rq /\ ready_step cu cu' rq rq'.
Proof.
  unfold addCUToReadyQueueIfNeeded. destruct (isInReadyQueue cu) eqn:Ef.
  { intros [= <- <-]. split_and!; try done. by constructor. }
  intros E. inv_ret. destruct a as [i|]; inv_ret.
  - unfold send_unit, chan_send in E1. destruct (_ <? _)%nat; [|done]. simpl in E1. inv_ret.
    split_and!; try done. by apply ready_enqueued.
  - split_and!; try done. by constructor.
Qed.

(** ** [complete_Predicate] and [delta_Predicate] only move the last version *)
Lemma complete_Predicate_static e ev h ok e' h' :
  complete_Predicate e ev h = Ret (ok, e', h') ->
  exists l, e' = complete_set_last (e : completeElement Event Handler) l.
Proof.
  assert (Hsame : e = complete_set_last e (ce_lastProcessedVersion e)) by by destruct e.
  unfold complete_Predicate, complete_reset. intros E. inv_ret.
  match goal with
  | E0 : (if InitGen _ then _ else _) = Ret (?e1, _), E1 : context [negb _] |- _ =>
      assert (Hl : exists l, e1 = complete_set_last e l);
      [ destruct (InitGen _); inv_ret; [|eauto]; simpl in *;
        destruct (ce_metadata e); inv_ret; [|eauto];
        destruct (eventVersion _); inv_ret; eauto
      | destruct (negb _); inv_ret; [done|];
        destruct (ce_metadata e1); inv_ret; done ]
  end.
Qed.

Lemma delta_Predicate_static e ev h ok e' h' :
  delta_Predicate e ev h = Ret (ok, e', h') ->
  exists l, e' = delta_set_last (e : deltaElement Handler) l.
Proof.
  assert (Hsame : e = delta_set_last e (de_lastProcessedVersion e)) by by destruct e.
  unfold delta_Predicate. intros E. inv_ret.
  destruct (InitGen a); simpl in *; inv_ret; eauto.
Qed.

(** ** [insert] *)

(** The metadata held by the complete elements: unchanged, or [m] at slot [p]. *)
Definition held_step cu cu' (p : nat) (m : option nat) : Prop :=
  forall i c', ElementPriorityQueue cu' !! i = Some (Some (Complete c')) ->
    exists c, ElementPriorityQueue cu !! i = Some (Some (Complete c)) /\
      (ce_metadata c' = ce_metadata c \/ (i = p /\ ce_metadata c' = m)).

Lemma held_update cu cu' p el m :
  ElementPriorityQueue cu' = <[p := Some el]> (ElementPriorityQueue cu) ->
  (forall c', el = Complete c' -> exists c, ElementPriorityQueue cu !! p = Some (Some (Complete c)) /\
     (ce_metadata c' = ce_metadata c \/ ce_metadata c' = m)) ->
  held_step cu cu' p m.
Proof.
  intros Eq Hel i c' Hi. rewrite Eq, list_lookup_insert_Some in Hi.
  destruct Hi as [(-> & [= ->] & _)|[_ Hi]]; [|eauto].
  destruct (Hel c' eq_refl) as (c & Hc & [?|?]); eauto 6.
Qed.

Lemma same_unit_ready cu cu' : ElementPriorityQueue cu' = ElementPriorityQueue cu ->
  cu_name cu' = cu_name cu -> eventTypeToPriority cu' = eventTypeToPriority cu -> same_unit cu cu'.
Proof. intros Eq ? ?. split; [done..|]. rewrite Eq. reflexivity. Qed.

Lemma ready_step_update cu cu1 cu' rq rq' :
  isInReadyQueue cu1 = isInReadyQueue cu -> cu_name cu1 = cu_name cu ->
  ready_step cu1 cu' rq rq' -> ready_step cu cu' rq rq'.
Proof.
  intros Ef En []; [apply ready_same|apply ready_enqueued]; congruence.
Qed.

(** The slot updated to an element that differs only in its state, then the unit
    enqueued when needed. *)
Lemma update_then_add cu p el el' cu1 rq h cu' rq' m :
  ElementPriorityQueue cu !! p = Some (Some el) -> same_element el el' ->
  update_slot cu p el' = Ret cu1 ->
  addCUToReadyQueueIfNeeded cu1 rq h = Ret (cu', rq') ->
  (forall c', el' = Complete c' -> exists c, el = Complete c /\
     (ce_metadata c' = ce_metadata c \/ ce_metadata c' = m)) ->
  same_unit cu cu' /\ ready_step cu cu' rq rq' /\ held_step cu cu' p m /\
  DeltaEventJobChan rq' = DeltaEventJobChan rq /\
  ElementPriorityQueue cu' = <[p := Some el']> (ElementPriorityQueue cu).
Proof.
  intros Hp Hs Hu Ha Hm.
  destruct (same_unit_update _ _ _ _ _ Hp Hs Hu) as ([Hn Ht HF] & Hf & Hq).
  destruct (addCU_spec _ _ _ _ _ Ha) as (Hq' & Hn' & Ht' & Hd & Hr).
  rewrite Hq in Hq'. split_and!; try done; try congruence.
  - split; [congruence..|]. by rewrite Hq', <- Hq.
  - by eapply ready_step_update.
  - eapply held_update; [exact Hq'|]. intros c' ->.
    destruct (Hm c' eq_refl) as (c & -> & Hc). eauto.
Qed.

Lemma insert_spec cu ev m rq h cu' rq' h' :
  insert cu ev m rq h = Ret (cu', rq', h') ->
  let p := priority_of cu (Type_ ev) in
  same_unit cu cu' /\ marks (ElementPriorityQueue cu') = marks (ElementPriorityQueue cu) /\
  ready_step cu cu' rq rq' /\ held_step cu cu' p (Some m) /\
  (DeltaEventJobChan rq' = DeltaEventJobChan rq \/
   exists d, ElementPriorityQueue cu !! p = Some (Some (Delta d)) /\
     DeltaEventJobChan rq' =
       DeltaEventJobChan rq ++ [NewConflationJob ev m (de_handlerFunction d) (cu_name cu)]).
Proof.
  intros E p. unfold insert in E. cbv zeta in E. fold p in E. inv_ret.
  match goal with E : slice_get _ _ = Ret _ |- _ => apply slice_get_Ret in E; rename E into Hp end.
  destruct a as [[e|e]|]; inv_ret.
  - match goal with E : complete_Predicate _ _ _ = Ret _ |- _ =>
      apply complete_Predicate_static in E as [l ->] end.
    destruct b; inv_ret.
    + match goal with E : complete_AddToReadyQueue _ _ _ _ _ _ _ = Ret _ |- _ =>
        unfold complete_AddToReadyQueue in E end. inv_ret.
      match goal with Eu : update_slot _ _ _ = Ret _, Ea : addCUToReadyQueueIfNeeded _ _ _ = Ret _ |- _ =>
        edestruct (fun Hs => update_then_add _ _ _ _ _ _ _ _ _ (Some m) Hp Hs Eu Ea)
          as (? & ? & ? & ? & Hq) end.
      { by simpl. }
      { intros c' [= <-]. eauto. }
      split_and!; auto. rewrite Hq. by apply (marks_same _ _ _ _ Hp).
    + match goal with Eu : update_slot _ _ _ = Ret _ |- _ =>
        edestruct (fun Hs => same_unit_update _ _ _ _ _ Hp Hs Eu) as (? & ? & Hq); [by simpl|] end.
      split_and!; auto.
      * rewrite Hq. by apply (marks_same _ _ _ _ Hp).
      * by apply ready_same.
      * eapply held_update; [exact Hq|]. intros c' [= <-]. eauto.
  - match goal with E : delta_Predicate _ _ _ = Ret _ |- _ =>
      apply delta_Predicate_static in E as [l ->] end.
    destruct b; inv_ret.
    + match goal with E : delta_AddToReadyQueue _ _ _ _ _ _ = Ret _ |- _ =>
        unfold delta_AddToReadyQueue, send_delta, chan_send in E end.
      destruct (_ <? _)%nat; [|done]. inv_ret.
      match goal with Eu : update_slot _ _ _ = Ret _ |- _ =>
        edestruct (fun Hs => same_unit_update _ _ _ _ _ Hp Hs Eu) as (? & ? & Hq); [by simpl|] end.
      split_and!; auto.
      * rewrite Hq. by apply (marks_same _ _ _ _ Hp).
      * by apply ready_same.
      * eapply held_update; [exact Hq|]. done.
      * right. exists e. done.
    + match goal with Eu : update_slot _ _ _ = Ret _ |- _ =>
        edestruct (fun Hs => same_unit_update _ _ _ _ _ Hp Hs Eu) as (? & ? & Hq); [by simpl|] end.
      split_and!; auto.
      * rewrite Hq. by apply (marks_same _ _ _ _ Hp).
      * by apply ready_same.
      * eapply held_update; [exact Hq|]. done.
  - split_and!; auto.
    + reflexivity.
    + apply ready_step_refl.
    + intros i c' Hi. eauto.
Qed.

(** ** Choosing the next element *)

(** The slot holds a complete element that is ready. *)
Definition slot_ready cu h (s : option Element) : outcome bool :=
  match s with
  | None => Panic
  | Some (Delta _) => Ret false
  | Some (Complete c) =>
      if decide (ce_syncMode c = DeltaStateMode) then Ret false else IsReadyToProcess cu c h
  end.

Lemma next_ready_cons cu h i s q :
  next_ready cu h i (s :: q) =
  (let! b := slot_ready cu h s in if b then Ret (Some i) else next_ready cu h (S i) q).
Proof.
  destruct s as [[c|d]|]; simpl; [| |done].
  - case_decide; [done|]. by destruct (IsReadyToProcess cu c h).
  - by case_decide.
Qed.

Lemma next_ready_Some cu h q : forall i k,
  next_ready cu h i q = Ret (Some k) ->
  exists j c, k = i + j /\ q !! j = Some (Some (Complete c)) /\
    IsReadyToProcess cu c h = Ret true /\
    forall j' s, j' < j -> q !! j' = Some s -> slot_ready cu h s = Ret false.
Proof.
  induction q as [|s q IH]; intros i k; [done|].
  rewrite next_ready_cons. destruct (slot_ready cu h s) as [[]| | |] eqn:Es; try done; simpl.
  - intros [= <-]. exists 0. unfold slot_ready in Es. destruct s as [[c|]|]; try done.
    case_decide; [done|]. exists c. split_and!; try done; try lia.
  - intros (j & c & -> & Hj & Hr & Hlt)%IH. exists (S j), c. split_and!; try done; try lia.
    intros [|j'] s' Hj' Hs'; simpl in Hs'; [congruence|]. eapply Hlt; [|done]. lia.
Qed.

Lemma next_ready_None cu h q : forall i,
  next_ready cu h i q = Ret None -> Forall (fun s => slot_ready cu h s = Ret false) q.
Proof.
  induction q as [|s q IH]; intros i; [constructor|].
  rewrite next_ready_cons. destruct (slot_ready cu h s) as [[]| | |] eqn:Es; try done; simpl.
  intros Hn%IH. by constructor.
Qed.

Lemma IsReady_inv cu c h :
  IsReadyToProcess cu c h = Ret true ->
  exists ev m md, ce_event c = Some ev /\ ce_metadata c = Some m /\ ce_isInProcess c = false /\
    metas h !! m = Some md /\ Processed md = false /\
    isCurrentOrAnyDependencyInProcess (chain_fuel cu) cu c = Ret false /\
    matchDependency cu c h = Ret true.
Proof.
  unfold IsReadyToProcess. intros E. destruct (ce_event c) as [ev|]; [|done].
  destruct (ce_metadata c) as [m|]; [|done]. destruct (ce_isInProcess c); [done|]. inv_ret.
  match goal with E : get_meta _ _ = Ret _ |- _ => apply get_meta_Ret in E end.
  destruct (Processed _) eqn:Ep; [done|]. inv_ret.
  match goal with E : (if ?b then _ else _) = Ret true |- _ => destruct b; [done|] end.
  exists ev, m, a. split_and!; done.
Qed.

(** ** [GetNext] *)
Lemma GetNext_Ok cu h j cu' :
  GetNext cu h = Ret (Ok j, cu') ->
  exists i c m, getNextReadyCompleteElement cu h = Ret (Some i) /\
    ElementPriorityQueue cu !! i = Some (Some (Complete c)) /\
    IsReadyToProcess cu c h = Ret true /\ ce_metadata c = Some m /\
    job_Metadata j = m /\ job_Reporter j = cu_name cu /\ ce_event c = Some (job_Event j) /\
    job_Handle j = ce_handlerFunction c /\
    isInReadyQueue cu' = false /\ same_unit cu cu' /\ held_step cu cu' i (Some m) /\
    ElementPriorityQueue cu' =
      <[i := Some (Complete (complete_set_process c true))]> (ElementPriorityQueue cu).
Proof.
  unfold GetNext. intros E. inv_ret. destruct a as [i|]; inv_ret; [|done].
  match goal with E : getNextReadyCompleteElement _ _ = _ |- _ => pose proof E as En end.
  apply next_ready_Some in En as (j0 & c & Ei & Hc & Hr & _). simpl in Ei. subst i.
  match goal with E : complete_at _ _ = _ |- _ => unfold complete_at, slice_get in E; simpl in E; rewrite Hc in E end.
  inv_ret. destruct (IsReady_inv _ _ _ Hr) as (ev & m & md & He & Hm & _).
  unfold complete_ProcessJob in *. rewrite He, Hm in *. inv_ret.
  match goal with Eu : update_slot _ _ _ = Ret _ |- _ =>
    edestruct (fun Hs => same_unit_update (set_ready cu false) _ _ _ _ Hc Hs Eu) as ([] & Hf & Hq); [by simpl|] end.
  exists j0, c, m. split_and!; try done.
  eapply held_update; [exact Hq|]. intros c' [= <-]. eauto.
Qed.

Lemma GetNext_Err cu h e cu' :
  GetNext cu h = Ret (Err e, cu') -> cu' = cu /\ getNextReadyCompleteElement cu h = Ret None.
Proof.
  unfold GetNext. intros E. inv_ret. destruct a as [i|]; inv_ret; [|done].
  match goal with E : getNextReadyCompleteElement _ _ = _ |- _ => pose proof E as En end.
  apply next_ready_Some in En as (j0 & c & Ei & Hc & Hr & _). simpl in Ei. subst i.
  match goal with E : complete_at _ _ = _ |- _ => unfold complete_at, slice_get in E; simpl in E; rewrite Hc in E end.
  inv_ret. destruct (IsReady_inv _ _ _ Hr) as (ev & m & md & He & Hm & _).
  unfold complete_ProcessJob in *. rewrite He, Hm in *. inv_ret.
Qed.

(** ** [ReportResult] *)
Lemma complete_PostProcess_static (e : completeElement Event Handler) m err h e' :
  complete_PostProcess e m err h = Ret e' ->
  same_element (Complete e) (Complete e') /\ ce_isInProcess e' = false /\
  ce_metadata e' = ce_metadata e.
Proof.
  unfold complete_PostProcess. destruct err; intros E; inv_ret; [done|].
  assert (Ha : same_element (Complete e) (Complete a0) /\ ce_isInProcess a0 = false /\
               ce_metadata a0 = ce_metadata e).
  { destruct (Processed _); inv_ret; [|done]. destruct (NewerThan _ _); inv_ret; done. }
  destruct Ha as (Hs & Hp & Hm). destruct (ce_metadata a0) eqn:Em; inv_ret.
  destruct (Equals _ _); split_and!; try done; simpl; congruence.
Qed.

Lemma delta_PostProcess_static (e : deltaElement Handler) m err h e' :
  delta_PostProcess e m err h = Ret e' -> same_element (Delta e : Element) (Delta e').
Proof.
  unfold delta_PostProcess. destruct err; intros E; inv_ret; [done|].
  destruct (Processed _); inv_ret; [|done]. destruct (NewerThan _ _); inv_ret; done.
Qed.

Lemma ReportResult_spec cu m err rq h cu' rq' :
  ReportResult cu m err rq h = Ret (cu', rq') ->
  exists md, metas h !! m = Some md /\
    let p := priority_of cu (md_eventType md) in
    same_unit cu cu' /\ marks (ElementPriorityQueue cu') = <[p := false]> (marks (ElementPriorityQueue cu)) /\
    ready_step cu cu' rq rq' /\ held_step cu cu' p None /\
    DeltaEventJobChan rq' = DeltaEventJobChan rq.
Proof.
  unfold ReportResult. intros E. inv_ret.
  match goal with E : get_meta _ _ = Ret _ |- _ => apply get_meta_Ret in E; exists a; split; [exact E|] end.
  set (p := priority_of cu (md_eventType a)) in *.
  match goal with E : slice_get _ _ = Ret _ |- _ => apply slice_get_Ret in E; rename E into Hp end.
  destruct a0 as [[e|e]|]; inv_ret.
  - match goal with E : complete_PostProcess _ _ _ _ = Ret _ |- _ =>
      apply complete_PostProcess_static in E as (Hs & Hf & Hm) end.
    match goal with Eu : update_slot _ _ _ = Ret _ |- _ => rename Eu into Hu end.
    destruct (same_unit_update _ _ _ _ _ Hp Hs Hu) as (Hsu & Hfl & Hq).
    case_decide; inv_ret.
    + edestruct (update_then_add _ _ _ _ _ _ _ _ _ None Hp Hs Hu E) as (? & ? & ? & ? & Hq').
      { intros c' [= <-]. rewrite Hm. eauto. }
      split_and!; try done. by rewrite Hq', marks_update, Hf.
    + split_and!; try done.
      * by rewrite Hq, marks_update, Hf.
      * by apply ready_same.
      * eapply held_update; [exact Hq|]. intros c' [= <-]. rewrite Hm. eauto.
  - match goal with E : delta_PostProcess _ _ _ _ = Ret _ |- _ =>
      apply delta_PostProcess_static in E as Hs end.
    match goal with Eu : update_slot _ _ _ = Ret _ |- _ => rename Eu into Hu end.
    destruct (same_unit_update _ _ _ _ _ Hp Hs Hu) as (Hsu & Hfl & Hq).
    case_decide; inv_ret.
    + edestruct (update_then_add _ _ _ _ _ _ _ _ _ None Hp Hs Hu E) as (? & ? & ? & ? & Hq'); [done|].
      split_and!; try done. by rewrite Hq', marks_update.
    + split_and!; try done.
      * by rewrite Hq, marks_update.
      * by apply ready_same.
      * by eapply held_update.
Qed.
End Facts.
