(* ===== verification/ConflationSystem.v ===== *)
(** * The running status pipeline of the manager

    The goroutines that share the conflation manager: the transport dispatcher
    ([transport_dispatcher.go]), the conflation dispatcher
    ([conflation_dispatcher.go]) and the database workers ([worker.go]), as a
    transition system over the store, the conflation manager, the ready queue,
    the state of the dispatcher goroutine and the jobs held by the workers.
    Each action is the code between two points where the goroutines can
    interleave (a channel operation, a lock of a unit, a call of the handler). *)

From stdpp Require Import prelude gmap strings list.
From Stdlib Require Import ZArith Lia.
From S2P Require Import Prelude.
From S2P Require Import GoLib.
From S2P Require Import Version.
From S2P Require Import CloudEvents.
From S2P Require Import Metadata.
From S2P Require Import Conflation.
From S2P Require Import ConflationFacts.
Local Open Scope string_scope.
Local Open Scope list_scope.

Section System.
Context {Event Handler : Type} `{EventSDK Event}.
Local Notation Unit := (ConflationUnit Event Handler).
Local Notation Element := (ConflationElement Event Handler).
Local Notation RQ := (ConflationReadyQueue Event Handler).
Local Notation Job := (ConflationJob Event Handler).
Local Notation Manager := (ConflationManager Event Handler).

(** ** States and actions *)

(** Where a worker is in [handleJob]: before the database lock, in the poll
    loop, after it. *)
Inductive phase := Queued | Polling | Finished (err : bool).

(** Where the goroutine of the conflation dispatcher is: in its [select], before
    [GetNext] on the received unit, waiting for a free worker. *)
Inductive dispatcher := DIdle | DUnit (name : string) | DJob (job : Job).

Record System := MkSystem {
  sys_heap : Heap;
  sys_cm : Manager;
  sys_rq : RQ;
  sys_disp : dispatcher;
  sys_jobs : list (Job * phase);
}.

Inductive action :=
| ARecv (evt : Event)         (** the transport dispatcher inserts an event *)
| ATakeDelta                  (** the dispatcher receives a delta job *)
| ATakeUnit                   (** the dispatcher receives a unit *)
| AGetNext                    (** the dispatcher asks the unit for a job *)
| ARun                        (** a free worker takes the job *)
| ALock (i : nat) (ok : bool) (** worker [i]: the database lock *)
| AAttempt (i : nat) (err : bool) (** worker [i]: one call of the handler *)
| ATimeout (i : nat)          (** worker [i]: the poll times out *)
| AReport (i : nat).          (** worker [i]: report to the unit *)

Definition units (s : System) : gmap string Unit := conflationUnits (sys_cm s).

(** One attempt inside the poll: the new metadata and whether the poll is done. *)
Definition attempt (md : ThresholdMetadata) (err : bool) : ThresholdMetadata * bool :=
  let md' := if err then MarkAsUnprocessed md else MarkAsProcessed md in
  (md', if negb (Processed md') || err then false else Processed md').

(** [pool] is the number of workers. *)
Definition exec (pool : nat) (a : action) (s : System) : outcome System :=
  let '(MkSystem h cm rq d jobs) := s in
  match a with
  | ARecv evt =>
      let! (cm', rq', h') := Insert cm evt rq h in
      Ret (MkSystem h' cm' rq' d jobs)
  | ATakeDelta =>
      match d, DeltaEventJobChan rq with
      | DIdle, j :: q => Ret (MkSystem h cm (MkReadyQueue q (ConflationUnitChan rq)) (DJob j) jobs)
      | _, _ => Block
      end
  | ATakeUnit =>
      match d, ConflationUnitChan rq with
      | DIdle, n :: q => Ret (MkSystem h cm (MkReadyQueue (DeltaEventJobChan rq) q) (DUnit n) jobs)
      | _, _ => Block
      end
  | AGetNext =>
      match d with
      | DUnit n =>
          match conflationUnits cm !! n with
          | None => Panic
          | Some cu =>
              let! (r, cu') := GetNext cu h in
              Ret (MkSystem h (set_unit cm n cu') rq
                     (match r with Ok j => DJob j | Err _ => DIdle end) jobs)
          end
      | _ => Block
      end
  | ARun =>
      match d with
      | DJob j =>
          if (length jobs <? pool)%nat then Ret (MkSystem h cm rq DIdle (jobs ++ [(j, Queued)])) else Block
      | _ => Block
      end
  | ALock i ok =>
      match jobs !! i with
      | Some (j, Queued) =>
          Ret (MkSystem h cm rq d (if ok : bool then <[i := (j, Polling)]> jobs else slice_remove jobs i))
      | _ => Block
      end
  | AAttempt i err =>
      match jobs !! i with
      | Some (j, Polling) =>
          let! md := get_meta h (job_Metadata j) in
          Ret (MkSystem (set_meta h (job_Metadata j) (attempt md err).1) cm rq d
                 (if (attempt md err).2 then <[i := (j, Finished false)]> jobs else jobs))
      | _ => Block
      end
  | ATimeout i =>
      match jobs !! i with
      | Some (j, Polling) => Ret (MkSystem h cm rq d (<[i := (j, Finished true)]> jobs))
      | _ => Block
      end
  | AReport i =>
      match jobs !! i with
      | Some (j, Finished err) =>
          match conflationUnits cm !! job_Reporter j with
          | None => Panic
          | Some cu =>
              let! (cu', rq') := ReportResult cu (job_Metadata j) err rq h in
              Ret (MkSystem h (set_unit cm (job_Reporter j) cu') rq' d (slice_remove jobs i))
          end
      | _ => Block
      end
  end.

Fixpoint run (pool : nat) (acts : list action) (s : System) : outcome System :=
  match acts with
  | [] => Ret s
  | a :: acts' => let! s' := exec pool a s in run pool acts' s'
  end.

Definition init (rs : list (ConflationRegistration Handler)) : System :=
  MkSystem empty_heap (fold_left Register rs NewConflationManager) NewConflationReadyQueue DIdle [].

(** Reachability: some action that returns. *)
Inductive steps (pool : nat) : System -> System -> Prop :=
| steps_refl s : steps pool s s
| steps_step s a s1 s2 : exec pool a s = Ret s1 -> steps pool s1 s2 -> steps pool s s2.

Definition reachable (pool : nat) (rs : list (ConflationRegistration Handler)) (s : System) : Prop :=
  steps pool (init rs) s.

(** ** Observations *)

(** The jobs that were dispatched and not reported yet. *)
Definition in_flight (s : System) : list Job :=
  match sys_disp s with DJob j => [j] | _ => [] end ++ (sys_jobs s).*1.

(** The units waiting for the dispatcher, the one it just received first. *)
Definition ready_names (s : System) : list string :=
  match sys_disp s with DUnit n => [n] | _ => [] end ++ ConflationUnitChan (sys_rq s).

(** The hub and the priority of the complete element a job belongs to. *)
Definition job_slot (s : System) (j : Job) : option (string * nat) :=
  match units s !! job_Reporter j, metas (sys_heap s) !! job_Metadata j with
  | Some cu, Some md =>
      match ElementPriorityQueue cu !! priority_of cu (md_eventType md) with
      | Some (Some (Complete _)) => Some (job_Reporter j, priority_of cu (md_eventType md))
      | _ => None
      end
  | _, _ => None
  end.

Definition busy (s : System) (k : string * nat) : bool :=
  match units s !! k.1 with Some cu => in_process cu k.2 | None => false end.

(** The job's unit and metadata exist. *)
Definition known (s : System) (j : Job) : Prop :=
  is_Some (units s !! job_Reporter j) /\ is_Some (metas (sys_heap s) !! job_Metadata j).
End System.

Arguments System : clear implicits.
Arguments action : clear implicits.
Arguments dispatcher : clear implicits.
#[global] Arguments attempt : simpl never.
