(* ===== verification/ConflationSafety.v ===== *)
(** * Safety of the status pipeline

    Invariants of the transition system of [ConflationSystem], by induction on
    its steps: the ready queue and the ready flags agree, at most one job per
    hub and complete event type is in flight and its element is marked. *)

From stdpp Require Import prelude gmap strings list.
From Stdlib Require Import ZArith Lia.
From S2P Require Import Prelude.
From S2P Require Import GoLib.
From S2P Require Import Version.
From S2P Require Import CloudEvents.
From S2P Require Import Metadata.
From S2P Require Import Conflation.
From S2P Require Import ConflationFacts.
From S2P Require Import ConflationSystem.

Local Open Scope string_scope.
Local Open Scope list_scope.

(** ** The store only grows *)

(** No object beyond the allocation counter. *)
Definition heap_ok (h : Heap) : Prop :=
  forall l, next h <= l -> versions h !! l = None /\ metas h !! l = None.

Record heap_grows (h h' : Heap) : Prop := {
  grows_next : next h <= next h';
  grows_ok : heap_ok h';
  grows_metas : forall l md, metas h !! l = Some md -> metas h' !! l = Some md;
  grows_versions : forall l, is_Some (versions h !! l) -> is_Some (versions h' !! l);
}.

Lemma heap_grows_refl h : heap_ok h -> heap_grows h h.
Proof. by split. Qed.

Lemma heap_grows_trans h1 h2 h3 : heap_grows h1 h2 -> heap_grows h2 h3 -> heap_grows h1 h3.
Proof. intros [] []. split; auto. lia. Qed.

Lemma heap_ok_empty : heap_ok empty_heap.
Proof. intros l _. split; apply lookup_empty. Qed.

Lemma alloc_version_grows v h l h' :
  heap_ok h -> alloc_version v h = (l, h') ->
  heap_grows h h' /\ versions h !! l = None /\ versions h' = <[l := v]> (versions h) /\ metas h' = metas h.
Proof.
  intros Hok [= <- <-]. destruct (Hok (next h)) as [Hv Hm]; [lia|].
  split_and!; try done. split; simpl; [lia| |done|].
  - intros l Hl. simpl in *. rewrite lookup_insert_ne by lia. apply Hok. lia.
  - intros l [v' Hl]. rewrite lookup_insert_ne by congruence. eauto.
Qed.

Lemma alloc_meta_grows m h l h' :
  heap_ok h -> alloc_meta m h = (l, h') ->
  heap_grows h h' /\ metas h' = <[l := m]> (metas h) /\ versions h' = versions h.
Proof.
  intros Hok [= <- <-]. destruct (Hok (next h)) as [Hv Hm]; [lia|].
  split_and!; try done. split; simpl; [lia| | |done].
  - intros l Hl. simpl in *. rewrite lookup_insert_ne by lia. apply Hok. lia.
  - intros l md Hl. rewrite lookup_insert_ne by congruence. done.
Qed.

Lemma set_version_grows h l v v' :
  heap_ok h -> versions h !! l = Some v -> heap_grows h (set_version h l v').
Proof.
  intros Hok Hl. split; simpl; [lia| |done|].
  - intros k Hk. simpl in *. destruct (Hok k Hk) as [Hv ?]. split; [|done].
    rewrite lookup_insert_ne by congruence. done.
  - intros k [w Hk]. destruct (decide (l = k)) as [->|].
    + rewrite lookup_insert_eq. eauto.
    + rewrite lookup_insert_ne by done. eauto.
Qed.

Section Safety.
Context {Event Handler : Type} `{EventSDK Event}.
Local Notation Unit := (ConflationUnit Event Handler).
Local Notation Element := (ConflationElement Event Handler).
Local Notation Job := (ConflationJob Event Handler).
Local Notation Sys := (System Event Handler).
Implicit Types (cu : Unit) (h : Heap) (s : Sys) (j : Job).

Lemma complete_Predicate_grows (e : completeElement Event Handler) ev h ok e' h' :
  heap_ok h -> complete_Predicate e ev h = Ret (ok, e', h') -> heap_grows h h'.
Proof.
  intros Hok E. unfold complete_Predicate in E. inv_ret.
  assert (Hg : heap_grows h h0).
  { destruct (InitGen _); inv_ret; [|by apply heap_grows_refl].
    unfold complete_reset in *. destruct (alloc_version NewVersion h) as [l h1] eqn:Ea.
    destruct (alloc_version_grows _ _ _ _ Hok Ea) as (Hg & _).
    destruct (ce_metadata _); inv_ret; [|done].
    destruct (eventVersion _); inv_ret.
    match goal with E : get_version h1 _ = Ret _ |- _ => apply get_version_Ret in E end.
    eapply heap_grows_trans; [done|]. eapply set_version_grows; [by apply Hg|done]. }
  destruct (negb _); inv_ret; [done|]. destruct (ce_metadata _); inv_ret; done.
Qed.

Lemma delta_Predicate_grows (e : deltaElement Handler) ev h ok e' h' :
  heap_ok h -> delta_Predicate e ev h = Ret (ok, e', h') -> heap_grows h h'.
Proof.
  intros Hok E. unfold delta_Predicate in E. inv_ret.
  destruct (InitGen a).
  - inv_ret. apply (alloc_version_grows NewVersion h _ _ Hok eq_refl).
  - inv_ret. by apply heap_grows_refl.
Qed.

Lemma insert_grows cu ev m rq h cu' rq' h' :
  heap_ok h -> insert cu ev m rq h = Ret (cu', rq', h') -> heap_grows h h'.
Proof.
  intros Hok E. unfold insert in E. inv_ret. destruct a as [[e|e]|]; inv_ret.
  - match goal with E : complete_Predicate _ _ _ = _ |- _ =>
      apply complete_Predicate_grows in E; [|done] end.
    destruct b; inv_ret; done.
  - match goal with E : delta_Predicate _ _ _ = _ |- _ =>
      apply delta_Predicate_grows in E; [|done] end.
    destruct b; inv_ret; done.
  - by apply heap_grows_refl.
Qed.

(** ** New units *)

(** An element that holds nothing. *)
Definition idle_slot (s : option Element) : Prop :=
  match s with
  | Some (Complete c) => ce_isInProcess c = false /\ ce_metadata c = None /\ ce_event c = None
  | _ => True
  end.

Record fresh_unit (name : string) (cu : Unit) : Prop := {
  fresh_name : cu_name cu = name;
  fresh_ready : isInReadyQueue cu = false;
  fresh_slots : Forall idle_slot (ElementPriorityQueue cu);
}.

Lemma add_registration_fresh r name cu h cu' h' :
  heap_ok h -> fresh_unit name cu -> add_registration r cu h = Ret (cu', h') ->
  heap_grows h h' /\ fresh_unit name cu'.
Proof.
  intros Hok [Hn Hr Hs] E. unfold add_registration, NewCompleteElement, NewDeltaElement in E.
  destruct (alloc_version NewVersion h) as [l h1] eqn:Ea.
  destruct (alloc_version_grows _ _ _ _ Hok Ea) as (Hg & _).
  assert (Hup : forall el cu1, idle_slot (Some el) -> update_slot cu (reg_priority r) el = Ret cu1 ->
            fresh_unit name cu1).
  { intros el cu1 Hel Eu. unfold update_slot, slice_set in Eu. case_decide; inv_ret.
    split; try done. simpl. by apply Forall_insert. }
  destruct (reg_syncMode r); inv_ret; (split; [done|]);
    match goal with E : update_slot _ _ _ = Ret _ |- _ => apply Hup in E as []; [by split|done] end.
Qed.

Lemma newConflationUnit_fresh name rs h cu h' :
  heap_ok h -> newConflationUnit name rs h = Ret (cu, h') -> heap_grows h h' /\ fresh_unit name cu.
Proof.
  unfold newConflationUnit. intros Hok.
  assert (Hf : fresh_unit name (MkUnit name (replicate (length rs) (@None Element)) ∅ false)).
  { split; [done..|]. by apply Forall_replicate. }
  revert Hf. generalize (MkUnit name (replicate (length rs) (@None Element)) ∅ false).
  revert h Hok. induction rs as [|r rs IH]; intros h Hok cu0 Hf E; simpl in E; inv_ret.
  - split; [by apply heap_grows_refl|done].
  - match goal with E : add_registration _ _ _ = Ret _ |- _ =>
      destruct (add_registration_fresh _ _ _ _ _ _ Hok Hf E) as [Hg Hf'] end.
    destruct (IH _ (grows_ok _ _ Hg) _ Hf' E) as [Hg' ?].
    split; [by eapply heap_grows_trans|done].
Qed.

(** ** [Insert] *)
Lemma NewThresholdMetadata_grows id max (evt : Event) h :
  heap_ok h ->
  match NewThresholdMetadata id max evt h with
  | (None, h') => h' = h
  | (Some m, h') => heap_grows h h' /\
      exists md v, metas h' !! m = Some md /\ md_eventType md = Type_ evt /\
        eventVersion md = Some v /\ versions h !! v = None /\ count md = 0%Z /\ maxRetry md = max
  end.
Proof.
  intros Hok. unfold NewThresholdMetadata.
  destruct (getVersionFromEvent evt ExtVersion) as [[ev|]|]; try done.
  destruct (getVersionFromEvent evt ExtDependencyVersion) as [dv|]; [|done].
  destruct (alloc_version ev h) as [lv h1] eqn:E1.
  destruct (alloc_version_grows _ _ _ _ Hok E1) as (Hg1 & Hv1 & _).
  destruct dv as [d|].
  - destruct (alloc_version d h1) as [ld h2] eqn:E2.
    destruct (alloc_version_grows _ _ _ _ (grows_ok _ _ Hg1) E2) as (Hg2 & _).
    match goal with |- context [alloc_meta ?m h2] => destruct (alloc_meta m h2) as [lm h3] eqn:E3 end.
    destruct (alloc_meta_grows _ _ _ _ (grows_ok _ _ Hg2) E3) as (Hg3 & Hm & _).
    split; [eauto using heap_grows_trans|]. rewrite Hm. setoid_rewrite lookup_insert_eq.
    eexists _, lv. split_and!; done.
  - match goal with |- context [alloc_meta ?m h1] => destruct (alloc_meta m h1) as [lm h3] eqn:E3 end.
    destruct (alloc_meta_grows _ _ _ _ (grows_ok _ _ Hg1) E3) as (Hg3 & Hm & _).
    split; [eauto using heap_grows_trans|]. rewrite Hm. setoid_rewrite lookup_insert_eq.
    eexists _, lv. split_and!; done.
Qed.

Lemma Insert_spec (cm : ConflationManager Event Handler) evt rq h cm' rq' h' :
  heap_ok h -> Insert cm evt rq h = Ret (cm', rq', h') ->
  heap_grows h h' /\ registrations cm' = registrations cm /\
  ((conflationUnits cm' = conflationUnits cm /\ rq' = rq) \/
   exists cu cu' m md,
     (conflationUnits cm !! Source evt = Some cu \/
      conflationUnits cm !! Source evt = None /\ fresh_unit (Source evt) cu) /\
     conflationUnits cm' = <[Source evt := cu']> (conflationUnits cm) /\
     metas h' !! m = Some md /\ md_eventType md = Type_ evt /\
     same_unit cu cu' /\ marks (ElementPriorityQueue cu') = marks (ElementPriorityQueue cu) /\
     ready_step cu cu' rq rq' /\ held_step cu cu' (priority_of cu (Type_ evt)) (Some m) /\
     (DeltaEventJobChan rq' = DeltaEventJobChan rq \/
      exists d, ElementPriorityQueue cu !! priority_of cu (Type_ evt) = Some (Some (Delta d)) /\
        DeltaEventJobChan rq' =
          DeltaEventJobChan rq ++ [NewConflationJob evt m (de_handlerFunction d) (cu_name cu)])).
Proof.
  intros Hok E. unfold Insert in E.
  destruct (registrations cm !! Type_ evt); [|inv_ret; split; [by apply heap_grows_refl|]; auto].
  pose proof (NewThresholdMetadata_grows TransportID 3 evt h Hok) as HN.
  destruct (NewThresholdMetadata _ _ _ _) as [[m|] h1].
  2: { inv_ret. split; [by apply heap_grows_refl|]; auto. }
  destruct HN as (Hg1 & md & v & Hmd & Ht & _). inv_ret.
  assert (Hcu : (conflationUnits cm !! Source evt = Some c0 \/
      conflationUnits cm !! Source evt = None /\ fresh_unit (Source evt) c0) /\ heap_grows h1 h0 /\
      registrations c1 = registrations cm /\
      forall cu', <[Source evt := cu']> (conflationUnits c1) = <[Source evt := cu']> (conflationUnits cm)).
  { unfold getConflationUnit in *. destruct (conflationUnits cm !! Source evt) eqn:El; inv_ret.
    - split_and!; eauto. apply heap_grows_refl, Hg1.
    - match goal with E : newConflationUnit _ _ _ = Ret _ |- _ =>
        apply newConflationUnit_fresh in E as [? ?]; [|apply Hg1] end.
      split_and!; auto. intros. simpl. by rewrite insert_insert_eq. }
  destruct Hcu as (Hcu & Hg2 & Hregs & Hins).
  match goal with E : insert _ _ _ _ _ = Ret _ |- _ => rename E into Ei end.
  pose proof (insert_grows _ _ _ _ _ _ _ _ (grows_ok _ _ Hg2) Ei) as Hg3.
  pose proof (insert_spec _ _ _ _ _ _ _ _ Ei) as (? & ? & ? & ? & ?).
  split; [eauto using heap_grows_trans|]. split; [done|]. right.
  eexists _, _, m, md. split_and!; eauto.
  - apply Hins.
  - by apply Hg3, Hg2.
Qed.

(** ** The steps keep the elements of the units and the types of the metadata *)
Definition metas_keep h h' : Prop :=
  forall m md, metas h !! m = Some md -> exists md', metas h' !! m = Some md' /\ md_eventType md' = md_eventType md.

Record evolves s s' : Prop := {
  evolves_units : forall n cu, units s !! n = Some cu ->
    exists cu', units s' !! n = Some cu' /\ same_unit cu cu';
  evolves_metas : metas_keep (sys_heap s) (sys_heap s');
}.

Lemma metas_keep_refl h : metas_keep h h.
Proof. intros m md. eauto. Qed.

Lemma grows_keep h h' : heap_grows h h' -> metas_keep h h'.
Proof. intros [] m md Hm. eauto. Qed.

#[export] Instance evolves_preorder : PreOrder evolves.
Proof.
  split.
  - intros s. split; [|apply metas_keep_refl]. intros n cu Hn. exists cu. split; [done|reflexivity].
  - intros a b c [U1 M1] [U2 M2]. split.
    + intros n cu (cu1 & (cu2 & ? & ?)%U2 & ?)%U1. exists cu2. split; [done|]. by etrans.
    + intros m md (md1 & (md2 & ? & ?)%M2 & ?)%M1. exists md2. split; [done|congruence].
Qed.

Lemma same_unit_priority cu cu' t : same_unit cu cu' -> priority_of cu' t = priority_of cu t.
Proof. intros [_ E _]. unfold priority_of. by rewrite E. Qed.

(** The kind of a slot does not change. *)
Definition slot_kind (s : option (option Element)) : option bool :=
  match s with
  | Some (Some (Complete _)) => Some true
  | Some (Some (Delta _)) => Some false
  | _ => None
  end.

Lemma same_unit_kind cu cu' i :
  same_unit cu cu' ->
  slot_kind (ElementPriorityQueue cu' !! i) = slot_kind (ElementPriorityQueue cu !! i).
Proof.
  intros [_ _ HF]. destruct (ElementPriorityQueue cu !! i) as [x|] eqn:Ei.
  - destruct (Forall2_lookup_l _ _ _ _ _ HF Ei) as (y & -> & Hxy).
    destruct Hxy as [[] [] Hxy|]; done.
  - apply lookup_ge_None in Ei. rewrite (Forall2_length _ _ _ HF) in Ei.
    apply lookup_ge_None in Ei as ->. done.
Qed.

Lemma job_slot_kind s j :
  job_slot s j =
  match units s !! job_Reporter j, metas (sys_heap s) !! job_Metadata j with
  | Some cu, Some md =>
      if decide (slot_kind (ElementPriorityQueue cu !! priority_of cu (md_eventType md)) = Some true)
      then Some (job_Reporter j, priority_of cu (md_eventType md)) else None
  | _, _ => None
  end.
Proof.
  unfold job_slot. destruct (units s !! job_Reporter j) as [cu|]; [|done].
  destruct (metas (sys_heap s) !! job_Metadata j) as [md|]; [|done].
  destruct (ElementPriorityQueue cu !! priority_of cu (md_eventType md)) as [[[]|]|]; done.
Qed.

Lemma evolves_slot s s' j : evolves s s' -> known s j -> known s' j /\ job_slot s' j = job_slot s j.
Proof.
  intros [HU HM] [[cu Hcu] [md Hmd]].
  destruct (HU _ _ Hcu) as (cu' & Hcu' & Hs). destruct (HM _ _ Hmd) as (md' & Hmd' & Ht).
  split; [split; eauto|]. rewrite !job_slot_kind, Hcu, Hmd, Hcu', Hmd', Ht.
  rewrite (same_unit_priority _ _ _ Hs), (same_unit_kind _ _ _ Hs). done.
Qed.

(** ** The invariant *)

(** What a complete element holds is the metadata of an event of its slot. *)
Definition held_ok h cu : Prop :=
  forall i c m, ElementPriorityQueue cu !! i = Some (Some (Complete c)) -> ce_metadata c = Some m ->
    exists md, metas h !! m = Some md /\ priority_of cu (md_eventType md) = i.

(** Every unit waiting for the dispatcher waits once and has its flag set. *)
Definition ready_ok (us : gmap string Unit) (names : list string) : Prop :=
  NoDup names /\ forall n, n ∈ names -> exists cu, us !! n = Some cu /\ isInReadyQueue cu = true.

Record invariant s : Prop := {
  inv_heap : heap_ok (sys_heap s);
  inv_units : forall n cu, units s !! n = Some cu -> cu_name cu = n /\ held_ok (sys_heap s) cu;
  inv_ready : ready_ok (units s) (ready_names s);
  inv_known : forall j, j ∈ in_flight s ++ DeltaEventJobChan (sys_rq s) -> known s j;
  inv_delta : forall j, j ∈ DeltaEventJobChan (sys_rq s) -> job_slot s j = None;
  inv_keys : NoDup (omap (job_slot s) (in_flight s));
  inv_busy : forall j k, j ∈ in_flight s -> job_slot s j = Some k -> busy s k = true;
}.

Lemma held_ok_keep h h' cu : metas_keep h h' -> held_ok h cu -> held_ok h' cu.
Proof.
  intros Hk Hh i c m Hi Hm. destruct (Hh _ _ _ Hi Hm) as (md & Hmd & Hp).
  destruct (Hk _ _ Hmd) as (md' & ? & Ht). exists md'. by rewrite Ht.
Qed.

Lemma held_ok_step h cu cu' p m :
  held_ok h cu -> same_unit cu cu' -> held_step cu cu' p m ->
  (forall m', m = Some m' -> exists md, metas h !! m' = Some md /\ priority_of cu (md_eventType md) = p) ->
  held_ok h cu'.
Proof.
  intros Hh Hs Hstep Hm i c m' Hi Hc. setoid_rewrite (same_unit_priority _ _ _ Hs).
  destruct (Hstep _ _ Hi) as (c0 & Hi0 & [E|[-> E]]).
  - eapply Hh; [done|congruence].
  - apply Hm. congruence.
Qed.

Lemma ready_ok_step us n cu cu' rq rq' d :
  us !! n = Some cu \/ us !! n = None /\ isInReadyQueue cu = false ->
  cu_name cu = n -> ready_step cu cu' rq rq' ->
  ready_ok us (d ++ ConflationUnitChan rq) ->
  ready_ok (<[n := cu']> us) (d ++ ConflationUnitChan rq').
Proof.
  intros Hcu Hn Hr [Hnd Hall].
  assert (Hup : forall f, (isInReadyQueue cu = true -> f = true) -> isInReadyQueue cu' = f ->
    forall k, k ∈ d ++ ConflationUnitChan rq ->
    exists c, <[n := cu']> us !! k = Some c /\ isInReadyQueue c = true).
  { intros f Hf Hcu' k Hk. destruct (Hall _ Hk) as (c & Hc & Hcf). destruct (decide (n = k)) as [->|].
    - rewrite lookup_insert_eq. exists cu'. split; [done|]. rewrite Hcu'. apply Hf.
      destruct Hcu as [?|[? _]]; congruence.
    - rewrite lookup_insert_ne by done. eauto. }
  destruct Hr as [Hf ->|Hf Hf' ->].
  - split; [done|]. by apply (Hup (isInReadyQueue cu)).
  - rewrite app_assoc. split.
    + apply NoDup_app. split_and!; [done| |apply NoDup_singleton].
      intros k Hk ->%list_elem_of_singleton. destruct (Hall _ Hk) as (c & Hc & Hcf).
      destruct Hcu as [?|[? _]]; congruence.
    + intros k [Hk| ->%list_elem_of_singleton]%elem_of_app.
      * by apply (Hup true).
      * exists cu'. rewrite Hn, lookup_insert_eq. done.
Qed.

Lemma omap_job_slot s s' (l : list Job) :
  evolves s s' -> (forall j, j ∈ l -> known s j) -> omap (job_slot s') l = omap (job_slot s) l.
Proof.
  intros He. induction l as [|j l IH]; intros Hk; [done|]. simpl.
  rewrite (proj2 (evolves_slot _ _ j He (Hk j (list_elem_of_here _ _)))).
  assert (E : omap (job_slot s') l = omap (job_slot s) l).
  { apply IH. intros; apply Hk. by apply list_elem_of_further. }
  destruct (job_slot s j); [f_equal|]; exact E.
Qed.

(** Steps that leave the units alone. *)
Lemma invariant_local s s' :
  invariant s -> evolves s s' -> units s' = units s -> heap_ok (sys_heap s') ->
  ready_ok (units s) (ready_names s') ->
  (forall j, j ∈ in_flight s' ++ DeltaEventJobChan (sys_rq s') ->
     j ∈ in_flight s ++ DeltaEventJobChan (sys_rq s)) ->
  (forall j, j ∈ DeltaEventJobChan (sys_rq s') -> j ∈ DeltaEventJobChan (sys_rq s)) ->
  NoDup (omap (job_slot s) (in_flight s')) -> invariant s'.
Proof.
  intros [] He Hu Hok Hr Hin Hd Hk.
  assert (Hslot : forall j, j ∈ in_flight s' ++ DeltaEventJobChan (sys_rq s') ->
    known s' j /\ job_slot s' j = job_slot s j) by (intros; apply evolves_slot; auto).
  split; rewrite ?Hu; try done.
  - intros n cu Hn. destruct (inv_units0 _ _ Hn). split; [done|].
    eapply held_ok_keep; [apply He|done].
  - intros j Hj. by apply Hslot.
  - intros j Hj. rewrite (proj2 (Hslot j ltac:(set_solver))). auto.
  - rewrite (omap_job_slot s); [done..|]. intros. apply inv_known0, Hin. set_solver.
  - intros j k Hj. rewrite (proj2 (Hslot j ltac:(set_solver))). intros Ek.
    unfold busy. rewrite Hu. apply (inv_busy0 j k); [|done].
    assert (j ∈ in_flight s ++ DeltaEventJobChan (sys_rq s)) as [?|Hjd]%elem_of_app
      by (apply Hin; set_solver); [done|].
    rewrite (inv_delta0 _ Hjd) in Ek. done.
Qed.

(** ** Each action keeps the invariant *)
Lemma in_flight_remove h cm rq d (jobs : list (Job * phase)) i jp :
  jobs !! i = Some jp ->
  in_flight (MkSystem h cm rq d jobs) ≡ₚ jp.1 :: in_flight (MkSystem h cm rq d (slice_remove jobs i)).
Proof.
  intros Hi. unfold in_flight; simpl. rewrite (slice_remove_perm _ _ _ Hi) at 1.
  by rewrite fmap_cons, Permutation_middle.
Qed.

Lemma in_flight_phase h h' cm rq d (jobs : list (Job * phase)) i j ph ph' :
  jobs !! i = Some (j, ph) ->
  in_flight (MkSystem h' cm rq d (<[i := (j, ph')]> jobs)) = in_flight (MkSystem h cm rq d jobs).
Proof.
  intros Hi. unfold in_flight; simpl. f_equal. rewrite list_fmap_insert. apply list_insert_id.
  by rewrite list_lookup_fmap, Hi.
Qed.

Lemma units_evolve h h' cm cm' rq rq' d d' jobs jobs' n cu' :
  (forall cu, conflationUnits cm !! n = Some cu -> same_unit cu cu') ->
  conflationUnits cm' = <[n := cu']> (conflationUnits cm) -> metas_keep h h' ->
  evolves (MkSystem h cm rq d jobs) (MkSystem h' cm' rq' d' jobs').
Proof.
  intros Hs E Hk. split; [|done]. unfold units; simpl. intros k c Hc. rewrite E.
  destruct (decide (n = k)) as [->|].
  - rewrite lookup_insert_eq. eauto.
  - rewrite lookup_insert_ne by done. exists c. split; [done|reflexivity].
Qed.

Lemma fresh_held_ok h n cu : fresh_unit n cu -> held_ok h cu.
Proof.
  intros [_ _ Hs] i c m Hi Hm. apply (Forall_lookup_1 _ _ _ _ Hs) in Hi as (_ & ? & _). congruence.
Qed.

Lemma busy_insert (cm : ConflationManager Event Handler) h rq d jobs h' cm' rq' d' jobs' n cu cu' k p :
  conflationUnits cm !! n = Some cu -> conflationUnits cm' = <[n := cu']> (conflationUnits cm) ->
  (k = n -> in_process cu p = true -> in_process cu' p = true) ->
  busy (MkSystem h cm rq d jobs) (k, p) = true -> busy (MkSystem h' cm' rq' d' jobs') (k, p) = true.
Proof.
  intros Hn E Hp. unfold busy, units; simpl. rewrite E. destruct (decide (n = k)) as [->|].
  - rewrite lookup_insert_eq, Hn. auto.
  - by rewrite lookup_insert_ne.
Qed.

Lemma invariant_recv h cm rq d jobs evt cm' rq' h' :
  invariant (MkSystem h cm rq d jobs) -> Insert cm evt rq h = Ret (cm', rq', h') ->
  invariant (MkSystem h' cm' rq' d jobs) /\
  evolves (MkSystem h cm rq d jobs) (MkSystem h' cm' rq' d jobs).
Proof.
  intros HI E. pose proof HI as [Hh Hu Hr Hk Hd Hn Hb].
  destruct (Insert_spec _ _ _ _ _ _ _ Hh E) as (Hg & _ & [[Eu ->]|Hc]); simpl in *.
  { assert (He : evolves (MkSystem h cm rq d jobs) (MkSystem h' cm' rq d jobs)).
    { split; simpl; [|by apply grows_keep]. unfold units; simpl. rewrite Eu.
      intros n cu Hcu. exists cu. split; [done|reflexivity]. }
    split; [|done]. apply (invariant_local _ _ HI); try done. apply Hg. }
  destruct Hc as (cu & cu' & m & md & Hcu & Eu & Hmd & Ht & Hs & Hm & Hrs & Hst & Hdel).
  assert (Hname : cu_name cu = Source evt) by (destruct Hcu as [?|[_ []]]; [by apply Hu|done]).
  assert (He : evolves (MkSystem h cm rq d jobs) (MkSystem h' cm' rq' d jobs)).
  { eapply units_evolve; [|exact Eu|by apply grows_keep].
    intros c Hc. destruct Hcu as [?|[? _]]; [|congruence]. by assert (c = cu) as -> by congruence. }
  split; [|done].
  assert (Hslot : forall j, j ∈ in_flight (MkSystem h cm rq d jobs) ++ DeltaEventJobChan rq ->
    known (MkSystem h' cm' rq' d jobs) j /\
    job_slot (MkSystem h' cm' rq' d jobs) j = job_slot (MkSystem h cm rq d jobs) j)
    by (intros j Hj; by apply evolves_slot; auto).
  assert (Hnew : forall j, j ∈ DeltaEventJobChan rq' -> j ∈ DeltaEventJobChan rq \/
    known (MkSystem h' cm' rq' d jobs) j /\ job_slot (MkSystem h' cm' rq' d jobs) j = None).
  { intros j Hj. destruct Hdel as [E'|(dl & Hdl & E')]; rewrite E' in Hj; [by left|].
    apply elem_of_app in Hj as [?| ->%list_elem_of_singleton]; [by left|right].
    unfold known; rewrite job_slot_kind; unfold units; simpl.
    rewrite Hname, Eu, lookup_insert_eq, Hmd. split; [split; eauto|].
    rewrite (same_unit_priority _ _ _ Hs), (same_unit_kind _ _ _ Hs), Ht, Hdl. done. }
  split; simpl; try done.
  - apply Hg.
  - unfold units; simpl. rewrite Eu. intros n c Hc. destruct (decide (Source evt = n)) as [<-|].
    + rewrite lookup_insert_eq in Hc. injection Hc as <-. split; [by rewrite (same_name _ _ Hs)|].
      eapply held_ok_step; [|done|done|].
      * destruct Hcu as [Hcu|[_ Hf]]; [|by eapply fresh_held_ok].
        eapply held_ok_keep; [by apply grows_keep|]. by apply (Hu _ _ Hcu).
      * intros m' [= <-]. rewrite <- Ht. eauto.
    + rewrite lookup_insert_ne in Hc by done. destruct (Hu _ _ Hc). split; [done|].
      eapply held_ok_keep; [by apply grows_keep|done].
  - unfold units, ready_names in *; simpl in *. rewrite Eu. eapply ready_ok_step; [|done|exact Hrs|exact Hr].
    destruct Hcu as [?|[? []]]; auto.
  - intros j [Hj|Hj]%elem_of_app; [apply Hslot; set_solver|].
    destruct (Hnew _ Hj) as [|[]]; [apply Hslot; set_solver|done].
  - intros j Hj. destruct (Hnew _ Hj) as [Hj'|[]]; [|done].
    rewrite (proj2 (Hslot j ltac:(set_solver))). auto.
  - rewrite (omap_job_slot (MkSystem h cm rq d jobs)); [done..|]. intros j Hj. apply Hk. set_solver.
  - intros j [k p] Hj. rewrite (proj2 (Hslot j ltac:(set_solver))). intros Ej.
    pose proof (Hb _ _ Hj Ej) as Hbk. destruct Hcu as [Hcu|[Hcu _]].
    + eapply busy_insert; [exact Hcu|exact Eu| |exact Hbk].
      intros _. rewrite !in_process_marks, Hm. done.
    + unfold busy, units in *; simpl in *. rewrite Eu. destruct (decide (Source evt = k)) as [<-|].
      * rewrite Hcu in Hbk. done.
      * by rewrite lookup_insert_ne.
Qed.

(** [GetNext] marks one slot that was not marked. *)
Lemma invariant_getnext_err h cm rq jobs n cu e cu' :
  invariant (MkSystem h cm rq (DUnit n) jobs) -> conflationUnits cm !! n = Some cu ->
  GetNext cu h = Ret (Err e, cu') -> invariant (MkSystem h (set_unit cm n cu') rq DIdle jobs).
Proof.
  intros HI Hcu [-> _]%GetNext_Err.
  assert (Eu : units (MkSystem h (set_unit cm n cu) rq DIdle jobs) = conflationUnits cm)
    by (apply insert_id, Hcu).
  apply (invariant_local _ _ HI); [|exact Eu|apply (inv_heap _ HI)| |done|done|apply (inv_keys _ HI)].
  - eapply units_evolve; [|done|apply metas_keep_refl].
    intros c Hc. assert (c = cu) as -> by congruence. reflexivity.
  - destruct (inv_ready _ HI) as [Hnd Hall]. unfold ready_names in *; simpl in *.
    apply NoDup_cons in Hnd as [_ Hnd]. split; [done|]. intros k Hk. apply Hall. by right.
Qed.

Lemma invariant_getnext h cm rq jobs n cu j cu' :
  invariant (MkSystem h cm rq (DUnit n) jobs) -> conflationUnits cm !! n = Some cu ->
  GetNext cu h = Ret (Ok j, cu') -> invariant (MkSystem h (set_unit cm n cu') rq (DJob j) jobs).
Proof.
  intros HI Hcu E. pose proof HI as [Hh Hu Hr Hk Hd Hn Hb]. simpl in *.
  destruct (Hu _ _ Hcu) as [Hname Hheld].
  unfold ready_names in Hr; simpl in Hr. destruct Hr as [[Hnc Hnd]%NoDup_cons Hall].
  destruct (GetNext_Ok _ _ _ _ E) as
    (i & c & m & _ & Hi & Hrdy & Hm & Hjm & Hjr & _ & _ & Hf & Hs & Hst & Hq).
  destruct (IsReady_inv _ _ _ Hrdy) as (_ & _ & _ & _ & _ & Hfree & _).
  destruct (Hheld _ _ _ Hi Hm) as (md & Hmd & Hp).
  set (s := MkSystem h cm rq (DUnit n) jobs) in *.
  set (s' := MkSystem h (set_unit cm n cu') rq (DJob j) jobs).
  assert (He : evolves s s').
  { eapply units_evolve; [|done|apply metas_keep_refl].
    intros c' Hc'. assert (c' = cu) as -> by congruence. done. }
  assert (Hj : job_slot s j = Some (n, i)).
  { rewrite job_slot_kind. unfold units; simpl. rewrite Hjr, Hname, Hcu, Hjm, Hmd, Hp, Hi. done. }
  assert (Hkj : known s j) by (split; simpl; unfold units; simpl; rewrite ?Hjr, ?Hname, ?Hjm; eauto).
  assert (Hslot : forall j', j' ∈ in_flight s' ++ DeltaEventJobChan rq ->
    known s' j' /\ job_slot s' j' = job_slot s j').
  { intros j' Hj'. apply evolves_slot; [done|].
    unfold in_flight in Hj'; simpl in Hj'. apply elem_of_cons in Hj' as [->|?]; auto. }
  assert (Hnb : forall j', j' ∈ in_flight s -> job_slot s j' <> Some (n, i)).
  { intros j' Hj' Ej. specialize (Hb _ _ Hj' Ej). unfold busy, in_process, units in Hb; simpl in Hb.
    rewrite Hcu, Hi in Hb. congruence. }
  split; simpl; try done.
  - unfold units; simpl. intros k c'. destruct (decide (n = k)) as [<-|].
    + rewrite lookup_insert_eq. intros [= <-]. split; [by rewrite (same_name _ _ Hs)|].
      eapply held_ok_step; [done..|]. intros m' [= <-]. eauto.
    + rewrite lookup_insert_ne by done. auto.
  - split; [done|]. unfold units, ready_names; simpl. intros k Hk'.
    rewrite lookup_insert_ne by (intros ->; done). apply Hall. by right.
  - intros j' Hj'. by apply Hslot.
  - intros j' Hj'. rewrite (proj2 (Hslot j' ltac:(set_solver))). auto.
  - change (NoDup (omap (job_slot s') (j :: in_flight s))). rewrite (omap_job_slot s); [|done|].
    + simpl. rewrite Hj. apply NoDup_cons. split; [|done].
      intros (j' & Hj' & Ej)%list_elem_of_omap. by apply (Hnb j').
    + intros j' [->|?]%elem_of_cons; [done|]. apply Hk. by apply elem_of_app; left.
  - intros j' [k p] Hj'. rewrite (proj2 (Hslot j' ltac:(set_solver))). intros Ej.
    unfold in_flight in Hj'; simpl in Hj'. apply elem_of_cons in Hj' as [->|Hj'].
    + rewrite Hj in Ej. injection Ej as <- <-. unfold busy, units, in_process; simpl.
      rewrite lookup_insert_eq, Hq, list_lookup_insert_eq; [done|]. by eapply lookup_lt_Some.
    + eapply busy_insert; [exact Hcu|reflexivity| |exact (Hb _ _ Hj' Ej)].
      intros _. rewrite !in_process_marks, Hq, marks_update, list_lookup_insert.
      case_decide; [done|]. done.
Qed.

(** [ReportResult] clears the mark of the reported job only. *)
Lemma invariant_report h cm rq d jobs i j err cu cu' rq' :
  invariant (MkSystem h cm rq d jobs) -> jobs !! i = Some (j, Finished err) ->
  conflationUnits cm !! job_Reporter j = Some cu ->
  ReportResult cu (job_Metadata j) err rq h = Ret (cu', rq') ->
  invariant (MkSystem h (set_unit cm (job_Reporter j) cu') rq' d (slice_remove jobs i)).
Proof.
  intros HI Hi Hcu E. pose proof HI as [Hh Hu Hr Hk Hd Hn Hb]. simpl in *.
  destruct (ReportResult_spec _ _ _ _ _ _ _ E) as (md & Hmd & Hs & Hm & Hrs & Hst & Hdel).
  set (p := priority_of cu (md_eventType md)) in *. destruct (Hu _ _ Hcu) as [Hname Hheld].
  set (s := MkSystem h cm rq d jobs) in *.
  set (s' := MkSystem h (set_unit cm (job_Reporter j) cu') rq' d (slice_remove jobs i)).
  assert (He : evolves s s').
  { eapply units_evolve; [|done|apply metas_keep_refl].
    intros c Hc. by assert (c = cu) as -> by congruence. }
  pose proof (in_flight_remove h cm rq d jobs i _ Hi) as Hperm. simpl in Hperm. fold s in Hperm.
  assert (Hin : forall j', j' ∈ in_flight s' -> j' ∈ in_flight s)
    by (intros j' Hj'; rewrite Hperm; by right).
  assert (Hslot : forall j', j' ∈ in_flight s' \/ j' ∈ DeltaEventJobChan rq ->
    known s' j' /\ job_slot s' j' = job_slot s j').
  { intros j' Hj'. apply evolves_slot; [done|]. apply Hk, elem_of_app. destruct Hj'; auto. }
  rewrite Hperm in Hn. change (in_flight _) with (in_flight s') in Hn. simpl in Hn.
  assert (Hkeys : NoDup (omap (job_slot s) (in_flight s')) /\
    forall j', j' ∈ in_flight s' -> job_slot s j' = Some (job_Reporter j, p) -> False).
  { destruct (job_slot s j) as [k|] eqn:Ej.
    - apply NoDup_cons in Hn as [Hnot Hn]. split; [done|]. intros j' Hj' Ej'. apply Hnot.
      apply list_elem_of_omap. exists j'. split; [done|]. rewrite Ej', <- Ej.
      revert Ej. rewrite job_slot_kind. unfold units; simpl. rewrite Hcu, Hmd. by case_decide.
    - split; [done|]. intros j' Hj' Ej'. revert Ej' Ej. rewrite !job_slot_kind. unfold units; simpl.
      rewrite Hcu, Hmd. fold p. intros Ej' Ej. case_decide; [done|].
      destruct (conflationUnits cm !! job_Reporter j') eqn:Hc'; [|done].
      destruct (metas h !! job_Metadata j'); [|done]. case_decide as Hkind; [|done].
      injection Ej' as Er Ep. rewrite Er, Hcu in Hc'. injection Hc' as <-. rewrite Ep in Hkind. done. }
  destruct Hkeys as [Hnodup Hother].
  split.
  - exact Hh.
  - unfold units; simpl. intros k c. destruct (decide (job_Reporter j = k)) as [<-|].
    + rewrite lookup_insert_eq. intros [= <-]. split; [by rewrite (same_name _ _ Hs)|].
      eapply held_ok_step; [done..|]. by intros.
    + rewrite lookup_insert_ne by done. auto.
  - change (ready_ok (<[job_Reporter j := cu']> (conflationUnits cm)) (ready_names s')).
    unfold ready_names in *; simpl in *. eapply ready_ok_step; [by left|done|exact Hrs|exact Hr].
  - simpl. rewrite Hdel. intros j' Hj'%elem_of_app. by apply Hslot.
  - simpl. rewrite Hdel. intros j' Hj'. rewrite (proj2 (Hslot j' (or_intror Hj'))). auto.
  - rewrite (omap_job_slot s); [done..|]. intros j' Hj'. apply Hk, elem_of_app. auto.
  - intros j' [k q] Hj'. rewrite (proj2 (Hslot j' (or_introl Hj'))). intros Ej.
    eapply busy_insert; [exact Hcu|reflexivity| |exact (Hb _ _ (Hin _ Hj') Ej)].
    intros ->. rewrite !in_process_marks, Hm, list_lookup_insert. case_decide as Hpq; [|done].
    destruct Hpq as [<- _]. destruct (Hother _ Hj' Ej).
Qed.

Lemma attempt_type md err : md_eventType (attempt md err).1 = md_eventType md.
Proof. by destruct err. Qed.

Lemma set_meta_keep h m md md' :
  metas h !! m = Some md -> md_eventType md' = md_eventType md -> metas_keep h (set_meta h m md').
Proof.
  intros Hm Ht k c Hk. simpl. destruct (decide (m = k)) as [->|].
  - rewrite lookup_insert_eq. exists md'. split; [done|congruence].
  - rewrite lookup_insert_ne by done. eauto.
Qed.

Lemma set_meta_heap_ok h m md md' : heap_ok h -> metas h !! m = Some md -> heap_ok (set_meta h m md').
Proof.
  intros Hok Hm l Hl. simpl in *. destruct (Hok l Hl). split; [done|].
  by rewrite lookup_insert_ne by congruence.
Qed.

Lemma evolves_same_units h h' cm rq rq' d d' jobs jobs' :
  metas_keep h h' -> evolves (MkSystem h cm rq d jobs) (MkSystem h' cm rq' d' jobs').
Proof. intros Hk. split; [|done]. intros n cu Hn. exists cu. split; [done|reflexivity]. Qed.

(** Closes the goals on the lists of a local step. *)
Ltac local_step := try done; try apply metas_keep_refl; eauto.

#[local] Opaque attempt.

Lemma exec_local pool a s s' :
  match a with ARecv _ | AGetNext | AReport _ => False | _ => True end ->
  invariant s -> exec pool a s = Ret s' -> evolves s s' /\ invariant s'.
Proof.
  intros Ha HI E. destruct s as [h cm rq d jobs]. pose proof HI as [Hh Hu Hr Hk Hd Hn Hb]. simpl in *.
  destruct a as [| | | | |i ok|i e|i|]; try done; simpl in E.
  - destruct d, (DeltaEventJobChan rq) as [|j q] eqn:Eq; inv_ret.
    assert (He : evolves (MkSystem h cm rq DIdle jobs)
      (MkSystem h cm (MkReadyQueue q (ConflationUnitChan rq)) (DJob j) jobs))
      by apply evolves_same_units, metas_keep_refl.
    split; [done|]. apply (invariant_local _ _ HI); simpl; local_step; rewrite ?Eq.
    + unfold in_flight; simpl. intros j'. rewrite !elem_of_cons, !elem_of_app, elem_of_cons. tauto.
    + intros j'. rewrite elem_of_cons. auto.
    + unfold in_flight in *; simpl in *. rewrite (Hd j); [done|]. by left.
  - destruct d, (ConflationUnitChan rq) as [|n q] eqn:Eq; inv_ret.
    split; [apply evolves_same_units, metas_keep_refl|].
    apply (invariant_local _ _ HI); simpl; local_step.
    + apply evolves_same_units, metas_keep_refl.
    + unfold ready_names in *; simpl in *. by rewrite Eq in Hr.
  - destruct d; inv_ret. destruct (_ <? _)%nat; inv_ret.
    assert (Hp : in_flight (MkSystem h cm rq DIdle (jobs ++ [(job, Queued)])) ≡ₚ
                 in_flight (MkSystem h cm rq (DJob job) jobs)).
    { unfold in_flight; simpl. rewrite fmap_app; simpl. by rewrite Permutation_app_comm. }
    split; [apply evolves_same_units, metas_keep_refl|].
    apply (invariant_local _ _ HI); local_step.
    + apply evolves_same_units, metas_keep_refl.
    + intros j'. by rewrite Hp.
    + by rewrite Hp.
  - destruct (jobs !! i) as [[j []]|] eqn:Ei; inv_ret.
    split; [apply evolves_same_units, metas_keep_refl|].
    apply (invariant_local _ _ HI); local_step; [apply evolves_same_units, metas_keep_refl| |];
      (destruct ok; [by rewrite (in_flight_phase h h _ _ _ _ _ _ _ _ Ei)|]);
      pose proof (in_flight_remove h cm rq d jobs i _ Ei) as Hp.
    + simpl. intros j'. rewrite !elem_of_app, Hp, elem_of_cons. tauto.
    + rewrite Hp in Hn. simpl in Hn. destruct (job_slot _ j); [|done]. by apply NoDup_cons in Hn as [_ ?].
  - destruct (jobs !! i) as [[j []]|] eqn:Ei; inv_ret.
    match goal with E : get_meta _ _ = Ret _ |- _ => apply get_meta_Ret in E as Hmd end.
    assert (Hkeep : metas_keep h (set_meta h (job_Metadata j) (attempt a e).1))
      by (eapply set_meta_keep; [exact Hmd|apply attempt_type]).
    split; [by apply evolves_same_units|].
    apply (invariant_local _ _ HI); local_step; [by apply evolves_same_units|by eapply set_meta_heap_ok| |];
      (destruct (attempt a e).2; [by rewrite (in_flight_phase h _ _ _ _ _ _ _ _ _ Ei)|done]).
  - destruct (jobs !! i) as [[j []]|] eqn:Ei; inv_ret.
    split; [apply evolves_same_units, metas_keep_refl|].
    apply (invariant_local _ _ HI); local_step; [apply evolves_same_units, metas_keep_refl| |];
      by rewrite (in_flight_phase h h _ _ _ _ _ _ _ _ Ei).
Qed.

Lemma exec_invariant pool a s s' : invariant s -> exec pool a s = Ret s' -> evolves s s' /\ invariant s'.
Proof.
  intros HI E. destruct a; try (by eapply exec_local; [|done|exact E]).
  - destruct s as [h cm rq d jobs]. simpl in E. inv_ret.
    edestruct invariant_recv; [done..|]. done.
  - destruct s as [h cm rq d jobs]. simpl in E. destruct d as [|n|]; inv_ret.
    destruct (conflationUnits cm !! n) as [cu|] eqn:Hcu; inv_ret.
    match goal with E : GetNext _ _ = _ |- _ => rename E into Eg end.
    split.
    + eapply units_evolve; [|done|apply metas_keep_refl]. intros c0 Hc.
      assert (c0 = cu) as -> by congruence. destruct r; [|by apply GetNext_Err in Eg as [-> _]].
      apply GetNext_Ok in Eg. by destruct Eg as (?&?&?&?&?&?&?&?&?&?&?&?&?&?).
    + destruct r; [by eapply invariant_getnext|by eapply invariant_getnext_err].
  - destruct s as [h cm rq d jobs]. simpl in E. destruct (jobs !! i) as [[j []]|] eqn:Ei; inv_ret.
    destruct (conflationUnits cm !! job_Reporter j) as [cu|] eqn:Hcu; inv_ret.
    match goal with E : ReportResult _ _ _ _ _ = _ |- _ => rename E into Er end.
    split; [|by eapply invariant_report].
    eapply units_evolve; [|done|apply metas_keep_refl]. intros cx Hc.
    assert (cx = cu) as -> by congruence. by apply ReportResult_spec in Er as (? & ? & ? & _).
Qed.

Lemma fold_Register_units rs (cm : ConflationManager Event Handler) :
  conflationUnits (fold_left Register rs cm) = conflationUnits cm.
Proof. revert cm; induction rs as [|r rs IH]; intros cm; simpl; [done|]. by rewrite IH. Qed.

Lemma init_invariant rs : invariant (init rs).
Proof.
  assert (E : units (init rs) = ∅) by (unfold units, init; simpl; by rewrite fold_Register_units).
  split; rewrite ?E; simpl; try done.
  - split; [constructor|]. by intros n Hn%not_elem_of_nil.
  - by intros j Hj%not_elem_of_nil.
  - by intros j Hj%not_elem_of_nil.
  - constructor.
  - by intros j k Hj%not_elem_of_nil.
Qed.

Lemma steps_invariant pool s s' : invariant s -> steps pool s s' -> evolves s s' /\ invariant s'.
Proof.
  intros HI Hs. induction Hs as [s|s a s1 s2 E Hs IH]; [by split|].
  destruct (exec_invariant _ _ _ _ HI E) as [He HI1]. destruct (IH HI1) as [He' HI2].
  split; [by etrans|done].
Qed.

Lemma reachable_invariant pool rs s : reachable pool rs s -> invariant s.
Proof. intros Hr. by eapply steps_invariant; [apply init_invariant|exact Hr]. Qed.
End Safety.

(** ** What an element promises, and that it keeps the promise

    The abstract state of a complete element is the version of what was last
    processed and the version of what is held; [offer] is the specification of
    the insertion of an event. [insert] refines it, through the pointers to
    shared version objects. The chain of dependencies terminates when every
    dependency has a lower priority index. *)

(** ** The specification *)
Record Slot := MkSlot { slot_last : Version; slot_held : option Version }.

(** A version of the first generation forgets what is known before it is compared. *)
Definition forget (v : Version) (s : Slot) : Slot :=
  if InitGen v then MkSlot NewVersion (const NewVersion <$> slot_held s) else s.

(** Whether the event of version [v] is kept, and the new state. *)
Definition offer (v : Version) (s : Slot) : bool * Slot :=
  let s0 := forget v s in
  if NewerThan v (Some (slot_last s0)) && NewerThan v (slot_held s0)
  then (true, MkSlot (slot_last s0) (Some v)) else (false, s0).

Section Refinement.
Context {Event Handler : Type} `{EventSDK Event}.
Local Notation Unit := (ConflationUnit Event Handler).
Local Notation Element := (ConflationElement Event Handler).
Implicit Types (cu : Unit) (h : Heap) (e : completeElement Event Handler).

(** The element [e] in the store [h] has the abstract state [s]. *)
Definition models h e (s : Slot) : Prop :=
  versions h !! ce_lastProcessedVersion e = Some (slot_last s) /\
  match ce_metadata e, slot_held s with
  | None, None => True
  | Some m, Some v =>
      exists md l, metas h !! m = Some md /\ eventVersion md = Some l /\ versions h !! l = Some v
  | _, _ => False
  end.

(** The version object of the incoming event is not one the element holds. *)
Definition separate h e (l : nat) : Prop :=
  l <> ce_lastProcessedVersion e /\
  forall m md, ce_metadata e = Some m -> metas h !! m = Some md -> eventVersion md <> Some l.

Lemma complete_reset_models h e s l v :
  heap_ok h -> models h e s -> separate h e l -> versions h !! l = Some v ->
  exists e' h', complete_reset e h = Ret (e', h') /\
    models h' e' (MkSlot NewVersion (const NewVersion <$> slot_held s)) /\
    versions h' !! l = Some v /\ metas h' = metas h.
Proof.
  intros Hok [Hl Hh] [_ Hsep] Hv. unfold complete_reset.
  destruct (alloc_version NewVersion h) as [n h1] eqn:Ea.
  destruct (alloc_version_grows _ _ _ _ Hok Ea) as (Hg & Hn & Ev & Em). simpl.
  destruct (ce_metadata e) as [m|] eqn:Ecm, (slot_held s) as [hv|] eqn:Es; try done.
  - destruct Hh as (md & k & Hmd & Hk & Hkv).
    rewrite (proj2 (get_meta_Ret h1 m md)) by (rewrite Em; done). simpl. rewrite Hk.
    assert (Hk1 : versions h1 !! k = Some hv) by (rewrite Ev, lookup_insert_ne by congruence; done).
    rewrite (proj2 (get_version_Ret _ _ _) Hk1). simpl. eexists _, _. split; [done|].
    split; [|split].
    + split; simpl; [rewrite Ev, lookup_insert_ne by congruence; by rewrite lookup_insert_eq|].
      rewrite Ecm, Em. exists md, k. by rewrite lookup_insert_eq.
    + simpl. rewrite lookup_insert_ne by (specialize (Hsep _ _ eq_refl Hmd); congruence).
      rewrite Ev, lookup_insert_ne by congruence. done.
    + done.
  - eexists _, _. split; [done|]. split; [|split; [|done]].
    + split; simpl; [by rewrite Ev, lookup_insert_eq|]. by rewrite Ecm.
    + rewrite Ev, lookup_insert_ne by congruence. done.
Qed.

(** [Predicate] always returns, and computes [offer]. *)
Lemma complete_Predicate_offer h e s l v :
  heap_ok h -> models h e s -> separate h e l -> versions h !! l = Some v ->
  exists e' h', complete_Predicate e (Some l) h = Ret ((offer v s).1, e', h') /\
    models h' e' (forget v s) /\ versions h' !! l = Some v /\ metas h' = metas h /\
    (InitGen v = false -> e' = e /\ h' = h).
Proof.
  intros Hok Hm Hs Hv. unfold complete_Predicate, offer, forget. simpl.
  rewrite (proj2 (get_version_Ret _ _ _) Hv). simpl.
  assert (Hpre : exists e1 h1, (if InitGen v then complete_reset e h else Ret (e, h)) = Ret (e1, h1) /\
    models h1 e1 (if InitGen v then MkSlot NewVersion (const NewVersion <$> slot_held s) else s) /\
    versions h1 !! l = Some v /\ metas h1 = metas h /\ (InitGen v = false -> e1 = e /\ h1 = h)).
  { destruct (InitGen v); [|by exists e, h].
    destruct (complete_reset_models h e s l v) as (e1 & h1 & E & Hm1 & Hv1 & Em); [done..|].
    exists e1, h1. done. }
  destruct Hpre as (e1 & h1 & -> & Hm1 & Hv1 & Em & Hid). simpl.
  destruct (if InitGen v then _ else s) as [last held]. destruct Hm1 as [Hl Hh]. simpl in *.
  rewrite (proj2 (get_version_Ret _ _ _) Hv1); simpl.
  rewrite (proj2 (get_version_Ret _ _ _) Hl); simpl.
  exists e1, h1. split; [|done].
  destruct (NewerThan v (Some last)); simpl; [|done].
  destruct (ce_metadata e1) as [m|], held as [hv|]; try done.
  destruct Hh as (md & k & Hmd & Hk & Hkv).
  rewrite (proj2 (get_meta_Ret _ _ _) Hmd); simpl. rewrite Hk.
  rewrite (proj2 (get_version_Ret _ _ _) Hkv); simpl. by destruct (NewerThan v (Some hv)).
Qed.

(** C2: inserting an event into a unit whose element for the event's type is a
    complete one refines [offer]: the event is kept exactly when its version is
    newer than what was processed and than what is held (both forgotten first
    when the version is of the first generation), in which case the element
    holds that event with its metadata; in the other case the held event is
    the same. *)
Theorem insert_refines_offer cu ev m rq h cu' rq' h' e s md l v :
  heap_ok h -> ElementPriorityQueue cu !! priority_of cu (Type_ ev) = Some (Some (Complete e)) ->
  models h e s -> metas h !! m = Some md -> eventVersion md = Some l -> versions h !! l = Some v ->
  separate h e l -> insert cu ev m rq h = Ret (cu', rq', h') ->
  exists e', ElementPriorityQueue cu' !! priority_of cu (Type_ ev) = Some (Some (Complete e')) /\
    models h' e' (offer v s).2 /\
    (if (offer v s).1 then ce_event e' = Some ev /\ ce_metadata e' = Some m
     else ce_event e' = ce_event e /\ ce_metadata e' = ce_metadata e).
Proof.
  intros Hok Hp Hm Hmd Hl Hv Hsep E. unfold insert in E.
  rewrite (proj2 (slice_get_Ret _ _ _) Hp) in E; simpl in E.
  rewrite (proj2 (get_meta_Ret _ _ _) Hmd) in E; simpl in E. rewrite Hl in E.
  destruct (complete_Predicate_offer h e s l v) as (e1 & h1 & E1 & Hm1 & Hv1 & Em & _); [done..|].
  rewrite E1 in E; simpl in E. pose proof E1 as Hst. apply complete_Predicate_static in Hst as [last ->].
  assert (Hs : (offer v s).2 = if (offer v s).1 then MkSlot (slot_last (forget v s)) (Some v) else forget v s)
    by (unfold offer; by destruct (_ && _)).
  rewrite Hs. destruct (offer v s).1; inv_ret.
  - unfold complete_AddToReadyQueue in *. inv_ret.
    match goal with Eu : update_slot _ _ _ = Ret _, Ea : addCUToReadyQueueIfNeeded _ _ _ = Ret _ |- _ =>
      edestruct (fun Hs => update_then_add _ _ _ _ _ _ _ _ _ (Some m) Hp Hs Eu Ea)
        as (_ & _ & _ & _ & Hq) end.
    { by simpl. }
    { intros c' [= <-]. eauto. }
    eexists. split; [rewrite Hq; apply list_lookup_insert_eq; by eapply lookup_lt_Some|].
    split; [|done]. destruct Hm1 as [Hl1 _]. split; [done|]. simpl.
    exists md, l. by rewrite Em.
  - match goal with Eu : update_slot _ _ _ = Ret _ |- _ =>
      edestruct (fun Hs => same_unit_update _ _ _ _ _ Hp Hs Eu) as (_ & _ & Hq); [by simpl|] end.
    eexists. split; [rewrite Hq; apply list_lookup_insert_eq; by eapply lookup_lt_Some|]. done.
Qed.
End Refinement.
