(* ===== verification/ConflationProgress.v ===== *)
(** * Who is dispatched next, and who never is again

    The choice of the next job of a unit, and what the steps of the pipeline do
    to the marks of the elements in process and to the ready flags. *)

From stdpp Require Import prelude gmap strings list.
From Stdlib Require Import ZArith Lia.
From S2P Require Import Prelude.
From S2P Require Import GoLib.
From S2P Require Import Version.
From S2P Require Import CloudEvents.
From S2P Require Import Metadata.
From S2P Require Import Conflation.
From S2P Require Import ConflationFacts.
From S2P Require Import ConflationSystem.
From S2P Require Import ConflationSafety.
Local Open Scope string_scope.
Local Open Scope list_scope.

Section Progress.
Context {Event Handler : Type} `{EventSDK Event}.
Local Notation Unit := (ConflationUnit Event Handler).
Local Notation Element := (ConflationElement Event Handler).
Local Notation Job := (ConflationJob Event Handler).
Local Notation Sys := (System Event Handler).
Implicit Types (cu : Unit) (h : Heap) (s : Sys) (j : Job) (c : completeElement Event Handler).

(** ** Chains of dependencies *)
Inductive blocked cu : completeElement Event Handler -> Prop :=
| blocked_self c : ce_isInProcess c = true -> blocked cu c
| blocked_dep c d c' : ce_dependency c = Some d ->
    ElementPriorityQueue cu !! priority_of cu (dep_EventType d) = Some (Some (Complete c')) ->
    blocked cu c' -> blocked cu c.

(** Every dependency comes before the element in the order of priorities. *)
Definition chain_ok cu : Prop :=
  forall i c d, ElementPriorityQueue cu !! i = Some (Some (Complete c)) -> ce_dependency c = Some d ->
    priority_of cu (dep_EventType d) < i.

Lemma chain_fuel_enough cu fuel : forall i c,
  chain_ok cu -> ElementPriorityQueue cu !! i = Some (Some (Complete c)) -> i < fuel ->
  exists b, isCurrentOrAnyDependencyInProcess fuel cu c = Ret b /\ (b = true <-> blocked cu c).
Proof.
  induction fuel as [|fuel IH]; intros i c Hc Hi Hlt; [lia|]. simpl.
  destruct (ce_isInProcess c) eqn:Ep.
  { exists true. split; [done|]. split; [|done]. intros _. by apply blocked_self. }
  destruct (ce_dependency c) as [d|] eqn:Ed.
  2: { exists false. split; [done|]. split; [done|]. intros Hb. inversion Hb; congruence. }
  pose proof (Hc _ _ _ Hi Ed) as Hp.
  destruct (lookup_lt_is_Some_2 (ElementPriorityQueue cu) (priority_of cu (dep_EventType d))) as [sl Hsl];
    [apply lookup_lt_Some in Hi; lia|].
  unfold complete_at, slice_get. rewrite Hsl; simpl.
  assert (Hdep : forall c', blocked cu c -> sl = Some (Complete c') -> blocked cu c').
  { intros c' Hb ->. inversion Hb; subst; [congruence|]. congruence. }
  destruct sl as [[c'|]|]; simpl.
  - destruct (IH _ c' Hc Hsl) as (b & Eb & Hb); [lia|]. exists b. split; [done|]. rewrite Hb.
    split; [intros; by eapply blocked_dep|]. intros Hbl. by eapply Hdep.
  - exists false. split; [done|]. split; [done|]. intros Hb. inversion Hb; subst; congruence.
  - exists false. split; [done|]. split; [done|]. intros Hb. inversion Hb; subst; congruence.
Qed.

(** C36: the recursion along the dependencies of an element returns when every
    dependency has a lower priority index than the element that depends on it,
    and tells whether the element or an element it depends on, directly or
    not, is in process. *)
Theorem isCurrentOrAnyDependencyInProcess_total cu i c :
  chain_ok cu -> ElementPriorityQueue cu !! i = Some (Some (Complete c)) ->
  exists b, isCurrentOrAnyDependencyInProcess (chain_fuel cu) cu c = Ret b /\ (b = true <-> blocked cu c).
Proof.
  intros Hc Hi. apply (chain_fuel_enough cu (chain_fuel cu) i c); [done..|].
  apply lookup_lt_Some in Hi. unfold chain_fuel. lia.
Qed.

(** What [matchDependency] requires of the processed version of the dependency. *)
Definition dependency_satisfied cu h c (md : ThresholdMetadata) : Prop :=
  forall d, ce_dependency c = Some d ->
    exists c' l dv last,
      ElementPriorityQueue cu !! priority_of cu (dep_EventType d) = Some (Some (Complete c')) /\
      eventDependencyVersion md = Some l /\ versions h !! l = Some dv /\
      versions h !! ce_lastProcessedVersion c' = Some last /\
      if decide (dep_Type d = ExactMatch) then Value dv = Value last else (Value dv <= Value last)%Z.

Lemma matchDependency_true cu h c m md :
  ce_metadata c = Some m -> metas h !! m = Some md -> matchDependency cu c h = Ret true ->
  dependency_satisfied cu h c md.
Proof.
  intros Hm Hmd E d Hd. unfold matchDependency in E. rewrite Hd, Hm in E.
  unfold complete_at in E. inv_ret. destruct a as [c'|]; [|done]. inv_ret.
  match goal with E : slice_get _ _ = Ret _ |- _ => apply slice_get_Ret in E; rename E into Hs end.
  match goal with Es : match ?o with _ => _ end = Ret _ |- _ => destruct o as [[x|]|]; inv_ret; try done end.
  match goal with E : get_meta _ _ = Ret _ |- _ => apply get_meta_Ret in E end.
  match goal with E : get_version h _ = Ret _ |- _ => apply get_version_Ret in E end.
  assert (a = md) as -> by congruence.
  destruct (eventDependencyVersion md) as [l|]; simpl in *; [|done].
  match goal with E : get_version h l = Ret _ |- _ => apply get_version_Ret in E end.
  exists c', l, a2, a1. split_and!; try done.
  case_decide; inv_ret.
  - apply Z.eqb_eq. done.
  - match goal with E : negb _ = true |- _ => apply negb_true_iff, Z.ltb_ge in E end. lia.
Qed.

(** C8: the job a unit hands to the dispatcher is the held event of the first
    element in priority order that is ready; the element was not in process, no
    element it depends on is in process, the dependency version carried by its
    metadata agrees with the last processed version of its dependency, and the
    element is marked in process. *)
Theorem GetNext_first_ready cu h j cu' :
  chain_ok cu -> GetNext cu h = Ret (Ok j, cu') ->
  exists i c md, ElementPriorityQueue cu !! i = Some (Some (Complete c)) /\
    ce_event c = Some (job_Event j) /\ ce_metadata c = Some (job_Metadata j) /\
    job_Handle j = ce_handlerFunction c /\
    metas h !! job_Metadata j = Some md /\ Processed md = false /\
    ~ blocked cu c /\ dependency_satisfied cu h c md /\
    (forall k el, k < i -> ElementPriorityQueue cu !! k = Some el -> slot_ready cu h el = Ret false) /\
    isInReadyQueue cu' = false /\
    ElementPriorityQueue cu' = <[i := Some (Complete (complete_set_process c true))]> (ElementPriorityQueue cu).
Proof.
  intros Hc E. destruct (GetNext_Ok _ _ _ _ E) as
    (i & c & m & En & Hi & Hrdy & Hm & Hjm & _ & He & Hh & Hf & _ & _ & Hq).
  destruct (IsReady_inv _ _ _ Hrdy) as (ev & m' & md & _ & Hm' & _ & Hmd & Hp & Hb & Hd).
  assert (m' = m) as -> by congruence. subst m.
  apply next_ready_Some in En as (j0 & c0 & Ei & Hc0 & _ & Hlt). simpl in Ei. subst j0.
  destruct (isCurrentOrAnyDependencyInProcess_total cu i c Hc Hi) as (b & Eb & Hbl).
  assert (b = false) as -> by congruence.
  exists i, c, md. split_and!; try done.
  - intros Hx. by apply Hbl in Hx.
  - by eapply matchDependency_true.
Qed.

(** ** Marks and flags across the steps *)

(** What one step does to the mark of a slot and to the jobs in flight. *)
Record mark_step s s' : Prop := {
  mark_cleared : forall k, busy s k = true -> busy s' k = true \/
    exists j, j ∈ in_flight s /\ job_slot s j = Some k;
  mark_set : forall k, busy s' k = true -> busy s k = true \/ sys_disp s = DUnit k.1;
  mark_jobs : forall j k, j ∈ in_flight s' -> job_slot s' j = Some k ->
    (j ∈ in_flight s /\ job_slot s j = Some k) \/ busy s k = false;
}.

Lemma mark_step_local s s' :
  invariant s -> evolves s s' -> units s' = units s ->
  (forall j, j ∈ in_flight s' -> j ∈ in_flight s \/ j ∈ DeltaEventJobChan (sys_rq s)) -> mark_step s s'.
Proof.
  intros HI He Hu Hin. split.
  - intros k Hk. left. unfold busy. by rewrite Hu.
  - intros k Hk. left. unfold busy in *. by rewrite Hu in Hk.
  - intros j k Hj Ej. left.
    assert (Hkn : known s j) by (apply (inv_known _ HI), elem_of_app; apply Hin, Hj).
    rewrite (proj2 (evolves_slot _ _ j He Hkn)) in Ej. split; [|done].
    destruct (Hin _ Hj) as [|Hd]; [done|]. rewrite (inv_delta _ HI _ Hd) in Ej. done.
Qed.

Lemma units_insert_lookup (us : gmap string Unit) n cu' k :
  <[n := cu']> us !! k = if decide (n = k) then Some cu' else us !! k.
Proof.
  case_decide as E; [by rewrite <- E, lookup_insert_eq|by rewrite lookup_insert_ne].
Qed.

Lemma fresh_in_process n cu p : fresh_unit n cu -> in_process cu p = false.
Proof.
  intros [_ _ Hf]. unfold in_process.
  destruct (ElementPriorityQueue cu !! p) as [[[c|]|]|] eqn:E; try done.
  by apply (Forall_lookup_1 _ _ _ _ Hf) in E as (? & _).
Qed.

(** A step that replaces one unit and starts no job. *)
Lemma mark_step_unit s s' n cu' :
  invariant s -> evolves s s' -> units s' = <[n := cu']> (units s) ->
  (forall p, in_process cu' p = true -> busy s (n, p) = true) ->
  (forall p, busy s (n, p) = true -> in_process cu' p = true \/
     exists j, j ∈ in_flight s /\ job_slot s j = Some (n, p)) ->
  (forall j, j ∈ in_flight s' -> j ∈ in_flight s) -> mark_step s s'.
Proof.
  intros HI He Hu Hset Hclr Hin.
  assert (Hb : forall k p, busy s' (k, p) = if decide (n = k) then in_process cu' p else busy s (k, p)).
  { intros k p. unfold busy; simpl. rewrite Hu, units_insert_lookup. by case_decide. }
  split.
  - intros [k p] Hk. rewrite Hb. case_decide as E; [subst; auto|auto].
  - intros [k p] Hk. rewrite Hb in Hk. left. case_decide as E; [subst; auto|auto].
  - intros j k Hj Ej. left. split; [by apply Hin|].
    rewrite <- Ej. symmetry. apply evolves_slot; [done|]. apply (inv_known _ HI), elem_of_app. auto.
Qed.

Lemma recv_mark_step h cm rq d jobs evt cm' rq' h' :
  invariant (MkSystem h cm rq d jobs) -> Insert cm evt rq h = Ret (cm', rq', h') ->
  mark_step (MkSystem h cm rq d jobs) (MkSystem h' cm' rq' d jobs).
Proof.
  intros HI E. destruct (invariant_recv _ _ _ _ _ _ _ _ _ HI E) as [_ He].
  destruct (Insert_spec _ _ _ _ _ _ _ (inv_heap _ HI) E) as (_ & _ & [[Eu _]|Hc]).
  { by apply mark_step_local; auto. }
  destruct Hc as (cu & cu' & m & md & Hcu & Eu & _ & _ & _ & Hm & _).
  assert (Hp : forall p, in_process cu' p = busy (MkSystem h cm rq d jobs) (Source evt, p)).
  { intros p. rewrite !in_process_marks, Hm, <- in_process_marks. unfold busy, units; simpl.
    destruct Hcu as [->|[-> Hf]]; [done|]. by eapply fresh_in_process. }
  eapply mark_step_unit; [done..| | |done]; intros p; rewrite Hp; auto.
Qed.

Lemma getnext_mark_step h cm rq jobs n cu r cu' s' :
  let s := MkSystem h cm rq (DUnit n) jobs in
  invariant s -> evolves s s' -> invariant s' ->
  conflationUnits cm !! n = Some cu -> GetNext cu h = Ret (r, cu') ->
  s' = MkSystem h (set_unit cm n cu') rq (match r with Ok j => DJob j | Err _ => DIdle end) jobs ->
  mark_step s s'.
Proof.
  intros s HI He HI' Hcu E Es'.
  assert (Hb : forall k p, busy s' (k, p) = if decide (n = k) then in_process cu' p else busy s (k, p)).
  { intros k p. rewrite Es'. unfold busy, units; simpl. rewrite units_insert_lookup. by case_decide. }
  assert (Hbs : forall p, busy s (n, p) = in_process cu p) by (intros p; unfold busy, units; simpl; by rewrite Hcu).
  assert (Hold : forall j k, j ∈ in_flight s -> job_slot s' j = Some k -> job_slot s j = Some k).
  { intros j k Hj <-. symmetry. apply evolves_slot; [done|]. apply (inv_known _ HI), elem_of_app. auto. }
  destruct r as [j|e].
  - destruct (GetNext_Ok _ _ _ _ E) as
      (i & c & m & _ & Hi & Hrdy & Hm & Hjm & Hjr & _ & _ & _ & _ & _ & Hq).
    destruct (IsReady_inv _ _ _ Hrdy) as (_ & _ & _ & _ & _ & Hfree & _).
    assert (Hmk : forall p, in_process cu' p = if decide (p = i) then true else in_process cu p).
    { intros p. unfold in_process. rewrite Hq, list_lookup_insert. case_decide as E1.
      - destruct E1 as [-> _]. by rewrite decide_True.
      - case_decide as E2; [|done]. subst. destruct E1. split; [done|]. by eapply lookup_lt_Some. }
    assert (Hnot : busy s (n, i) = false) by (rewrite Hbs; unfold in_process; by rewrite Hi).
    split.
    + intros [k p] Hk. left. rewrite Hb. case_decide as E1; [|done]. subst k. rewrite Hmk.
      case_decide; [done|]. by rewrite Hbs in Hk.
    + intros [k p] Hk. rewrite Hb in Hk. case_decide as E1; [subst; by right|by left].
    + intros j' k Hj' Ej'. rewrite Es' in Hj'. unfold in_flight in Hj'; simpl in Hj'.
      apply elem_of_cons in Hj' as [->|Hj']; [right|left; eauto].
      destruct (inv_units _ HI _ _ Hcu) as [Hname Hheld].
      destruct (Hheld _ _ _ Hi Hm) as (md & Hmd & Hp).
      assert (Hkj : known s j) by (split; simpl; unfold units; simpl; rewrite ?Hjr, ?Hname, ?Hjm; eauto).
      rewrite (proj2 (evolves_slot _ _ _ He Hkj)), job_slot_kind in Ej'.
      unfold units in Ej'; simpl in Ej', Hmd. rewrite Hjr, Hname, Hcu, Hjm, Hmd, Hp, Hi in Ej'. simpl in Ej'.
      injection Ej' as <-. done.
  - destruct (GetNext_Err _ _ _ _ E) as [-> _].
    assert (Hsame : forall k p, busy s' (k, p) = busy s (k, p))
      by (intros k p; rewrite Hb; case_decide; [subst; by rewrite Hbs|done]).
    split.
    + intros [k p] Hk. left. by rewrite Hsame.
    + intros [k p] Hk. left. by rewrite Hsame in Hk.
    + intros j k Hj Ej. left. rewrite Es' in Hj. eauto.
Qed.

Lemma report_mark_step h cm rq d jobs i j err cu cu' rq' :
  let s := MkSystem h cm rq d jobs in
  let s' := MkSystem h (set_unit cm (job_Reporter j) cu') rq' d (slice_remove jobs i) in
  invariant s -> evolves s s' -> jobs !! i = Some (j, Finished err) ->
  conflationUnits cm !! job_Reporter j = Some cu ->
  ReportResult cu (job_Metadata j) err rq h = Ret (cu', rq') -> mark_step s s'.
Proof.
  intros s s' HI He Hi Hcu E.
  destruct (ReportResult_spec _ _ _ _ _ _ _ E) as (md & Hmd & Hs & Hm & _).
  assert (Hbs : forall p, busy s (job_Reporter j, p) = in_process cu p)
    by (intros p; unfold busy, units; simpl; by rewrite Hcu).
  assert (Hj : j ∈ in_flight s).
  { unfold s. rewrite (in_flight_remove _ _ _ _ _ _ _ Hi). by left. }
  eapply (mark_step_unit _ _ (job_Reporter j) cu'); [done..| | |].
  - intros p. rewrite Hbs, !in_process_marks, Hm, list_lookup_insert. by case_decide.
  - intros p. rewrite Hbs, !in_process_marks, Hm, list_lookup_insert. case_decide as E1; [|auto].
    destruct E1 as [Ep _]. intros Hp. right. exists j. split; [done|].
    rewrite job_slot_kind. unfold units; simpl. rewrite Hcu, Hmd, Ep.
    rewrite <- in_process_marks in Hp. unfold in_process in Hp.
    destruct (ElementPriorityQueue cu !! p) as [[[]|]|]; done.
  - intros j' Hj'. unfold s. rewrite (in_flight_remove _ _ _ _ _ _ _ Hi). by right.
Qed.

#[local] Opaque attempt.

Definition local_action (a : action Event) : Prop :=
  match a with ARecv _ | AGetNext | AReport _ => False | _ => True end.

Lemma exec_local_effect pool a s s' :
  local_action a -> exec pool a s = Ret s' ->
  units s' = units s /\ ready_names s' = ready_names s /\
  (forall j, j ∈ in_flight s' -> j ∈ in_flight s \/ j ∈ DeltaEventJobChan (sys_rq s)).
Proof.
  intros Ha E. destruct s as [h cm rq d jobs]. destruct a as [| | | | |i ok|i e|i|]; try done; simpl in E.
  - destruct d, (DeltaEventJobChan rq) as [|j q] eqn:Eq; inv_ret. split_and!; try done.
    unfold in_flight; simpl. rewrite Eq. intros j' [->|?]%elem_of_cons; [right; by left|by left].
  - destruct d, (ConflationUnitChan rq) as [|n q] eqn:Eq; inv_ret. split_and!; [done| |by left].
    unfold ready_names; simpl. by rewrite Eq.
  - destruct d; inv_ret. destruct (_ <? _)%nat; inv_ret. split_and!; [done..|].
    unfold in_flight; simpl. intros j. rewrite fmap_app, elem_of_app, elem_of_cons. simpl.
    rewrite list_elem_of_singleton. tauto.
  - destruct (jobs !! i) as [[j []]|] eqn:Ei; inv_ret. split_and!; [done..|]. intros j' Hj'. left.
    destruct ok; cbv beta iota in Hj'; [by rewrite (in_flight_phase h h _ _ _ _ _ _ _ _ Ei) in Hj'|].
    rewrite (in_flight_remove h cm rq d jobs i _ Ei). by right.
  - destruct (jobs !! i) as [[j []]|] eqn:Ei; inv_ret. split_and!; [done..|]. intros j' Hj'. left.
    destruct (attempt a e).2; cbv beta iota in Hj'; [by rewrite (in_flight_phase h _ _ _ _ _ _ _ _ _ Ei) in Hj'|done].
  - destruct (jobs !! i) as [[j []]|] eqn:Ei; inv_ret. split_and!; [done..|]. intros j' Hj'. left.
    by rewrite (in_flight_phase h h _ _ _ _ _ _ _ _ Ei) in Hj'.
Qed.

Lemma exec_mark_step pool a s s' :
  invariant s -> exec pool a s = Ret s' -> mark_step s s'.
Proof.
  intros HI E. destruct (exec_invariant _ _ _ _ HI E) as [He HI'].
  assert (Hl : local_action a -> mark_step s s').
  { intros Ha. destruct (exec_local_effect _ _ _ _ Ha E) as (? & _ & ?). by apply mark_step_local. }
  destruct s as [h cm rq d jobs]. destruct a; try (by apply Hl); clear Hl; simpl in E.
  - inv_ret. by apply recv_mark_step with evt.
  - destruct d as [|n|]; inv_ret. destruct (conflationUnits cm !! n) as [cu|] eqn:Hcu; inv_ret.
    by eapply getnext_mark_step.
  - destruct (jobs !! i) as [[j []]|] eqn:Ei; inv_ret.
    destruct (conflationUnits cm !! job_Reporter j) as [cu|] eqn:Hcu; inv_ret.
    by eapply report_mark_step.
Qed.

(** *** Elements that stay in process *)

(** The slot is marked and no job in flight will report on it. *)
Definition orphaned s (k : string * nat) : Prop :=
  busy s k = true /\ forall j, j ∈ in_flight s -> job_slot s j <> Some k.

Lemma orphaned_exec pool a s s' k :
  invariant s -> exec pool a s = Ret s' -> orphaned s k -> orphaned s' k.
Proof.
  intros HI E [Hb Hj]. destruct (exec_mark_step _ _ _ _ HI E) as [H1 _ H3]. split.
  - destruct (H1 _ Hb) as [|(j & Hin & Ej)]; [done|]. by destruct (Hj j).
  - intros j Hin Ej. destruct (H3 _ _ Hin Ej) as [[Hin' Ej']|]; [by apply (Hj j)|congruence].
Qed.

Lemma orphaned_steps pool s s' k : invariant s -> steps pool s s' -> orphaned s k -> orphaned s' k.
Proof.
  intros HI Hs. induction Hs as [s|s a s1 s2 E Hs IH]; intros Ho; [done|].
  apply IH; [by eapply exec_invariant|]. by eapply orphaned_exec.
Qed.

(** *** Units that are never received by the dispatcher again *)
Definition stranded s (n : string) : Prop :=
  n ∉ ready_names s /\ exists cu, units s !! n = Some cu /\ isInReadyQueue cu = true.

Lemma stranded_update s s' n m cu cu' rq rq' :
  units s' = <[m := cu']> (units s) ->
  units s !! m = Some cu \/ units s !! m = None ->
  (units s !! n = Some cu -> n = m -> isInReadyQueue cu = true) ->
  sys_rq s = rq -> sys_rq s' = rq' -> sys_disp s' = sys_disp s ->
  cu_name cu = m -> ready_step cu cu' rq rq' -> stranded s n -> stranded s' n.
Proof.
  intros Hu Hm Hf Erq Erq' Ed Hname Hr [Hn (cu0 & Hcu0 & Hfl)].
  unfold stranded. rewrite Hu, units_insert_lookup. unfold ready_names in *. rewrite Erq', Ed, Erq in *.
  assert (Hcase : n = m -> isInReadyQueue cu = true).
  { intros ->. apply Hf; [|done]. destruct Hm; congruence. }
  destruct Hr as [Hf' ->|Hf0 Hf' ->].
  - split; [done|]. case_decide as E; [|eauto]. exists cu'. rewrite Hf'. auto.
  - assert (n <> m) by (intros E; specialize (Hcase E); congruence).
    split; [|rewrite decide_False by done; eauto].
    rewrite app_assoc, elem_of_app, list_elem_of_singleton. intros [?|?]; [done|congruence].
Qed.

Lemma stranded_exec pool a s s' n :
  invariant s -> exec pool a s = Ret s' -> stranded s n -> stranded s' n.
Proof.
  intros HI E Hst.
  assert (Hl : local_action a -> stranded s' n).
  { intros Ha. destruct (exec_local_effect _ _ _ _ Ha E) as (Hu & Hr & _).
    unfold stranded. by rewrite Hu, Hr. }
  destruct s as [h cm rq d jobs]. destruct a; try (by apply Hl); clear Hl; simpl in E.
  - inv_ret. match goal with E : Insert _ _ _ _ = _ |- _ => rename E into Ei end.
    destruct (Insert_spec _ _ _ _ _ _ _ (inv_heap _ HI) Ei) as (_ & _ & [[Eu ->]|Hc]).
    { unfold stranded, units in *; simpl in *. by rewrite Eu. }
    destruct Hc as (cu & cu' & m & md & Hcu & Eu & _ & _ & _ & _ & Hr & _).
    eapply (stranded_update (MkSystem h cm rq d jobs)); [exact Eu| | |done|done|done| |exact Hr|exact Hst].
    + destruct Hcu as [?|[? _]]; auto.
    + intros Hn _. destruct Hst as [_ (cu0 & Hcu0 & ?)]. unfold units in *; simpl in *. congruence.
    + destruct Hcu as [Hcu|[_ []]]; [by apply (inv_units _ HI _ _ Hcu)|done].
  - destruct d as [|m|]; inv_ret. destruct (conflationUnits cm !! m) as [cu|] eqn:Hcu; inv_ret.
    destruct Hst as [Hn (cu0 & Hcu0 & Hf)]. unfold ready_names in Hn; simpl in Hn.
    apply not_elem_of_cons in Hn as [Hnm Hn]. split.
    + unfold ready_names; simpl. by destruct r.
    + unfold units in *; simpl in *. rewrite lookup_insert_ne by done. eauto.
  - destruct (jobs !! i) as [[j []]|] eqn:Ei; inv_ret.
    destruct (conflationUnits cm !! job_Reporter j) as [cu|] eqn:Hcu; inv_ret.
    match goal with E : ReportResult _ _ _ _ _ = _ |- _ =>
      destruct (ReportResult_spec _ _ _ _ _ _ _ E) as (md & _ & _ & _ & Hr & _) end.
    eapply (stranded_update (MkSystem h cm rq d jobs)); [done|by left| |done|done|done| |exact Hr|exact Hst].
    + intros Hn _. destruct Hst as [_ (cu0 & Hcu0 & ?)]. unfold units in *; simpl in *. congruence.
    + by apply (inv_units _ HI _ _ Hcu).
Qed.

Lemma stranded_steps pool s s' n :
  invariant s -> steps pool s s' -> stranded s n ->
  stranded s' n /\ forall p, busy s' (n, p) = true -> busy s (n, p) = true.
Proof.
  intros HI Hs. induction Hs as [s|s a s1 s2 E Hs IH]; intros Hst; [done|].
  destruct IH as [Hst2 Hb]; [by eapply exec_invariant|by eapply stranded_exec|].
  split; [done|]. intros p Hp. apply Hb in Hp.
  destruct (mark_set _ _ (exec_mark_step _ _ _ _ HI E) _ Hp) as [|Hd]; [done|].
  destruct Hst as [Hn _]. destruct Hn. unfold ready_names. rewrite Hd. by left.
Qed.
End Progress.
