(* ===== verification/ConflationProps.v ===== *)
(** * Properties of the status pipeline

    The guarantees of the manager's conflation in every reachable state, and
    the concrete runs in which it stops serving a hub or an event type. *)

From stdpp Require Import prelude gmap strings list.
From Stdlib Require Import ZArith Lia.
From S2P Require Import Prelude.
From S2P Require Import GoLib.
From S2P Require Import Version.
From S2P Require Import CloudEvents.
From S2P Require Import Metadata.
From S2P Require Import Conflation.
From S2P Require Import ConflationFacts.
From S2P Require Import ConflationSystem.
From S2P Require Import ConflationSafety.
From S2P Require Import ConflationProgress.

Local Open Scope string_scope.
Local Open Scope list_scope.

Section Properties.
Context {Event Handler : Type} `{EventSDK Event}.
Local Notation Sys := (System Event Handler).
Local Notation Job := (ConflationJob Event Handler).
Implicit Types (s : Sys) (j : Job).

Lemma run_steps pool acts s s' : run pool acts s = Ret s' -> steps pool s s'.
Proof.
  revert s. induction acts as [|a acts IH]; intros s E; simpl in E; inv_ret.
  - apply steps_refl.
  - eapply steps_step; eauto.
Qed.

(** C1: in every reachable state at most one job of each hub and complete event
    type is between its dispatch and its report, and the element of that type
    is marked in process meanwhile. *)
Theorem one_job_per_complete_element pool rs s :
  reachable pool rs s ->
  NoDup (omap (job_slot s) (in_flight s)) /\
  forall j k, j ∈ in_flight s -> job_slot s j = Some k -> busy s k = true.
Proof. intros []%reachable_invariant. done. Qed.

(** In every reachable state the units waiting for the dispatcher wait once
    and have their ready flag set. *)
Theorem ready_queue_without_repetition pool rs s :
  reachable pool rs s ->
  NoDup (ready_names s) /\
  forall n, n ∈ ready_names s -> exists cu, units s !! n = Some cu /\ isInReadyQueue cu = true.
Proof. intros [_ _ ? _ _ _ _]%reachable_invariant. done. Qed.

(** When a worker fails to take the database lock it drops its job without
    a report: whatever happens next, the element stays marked in process and no
    job of this hub and event type is dispatched again. *)
Theorem lock_failure_orphans_element pool rs s s1 s2 i j k :
  reachable pool rs s -> sys_jobs s !! i = Some (j, Queued) -> job_slot s j = Some k ->
  exec pool (ALock i false) s = Ret s1 -> steps pool s1 s2 ->
  busy s2 k = true /\ forall j', j' ∈ in_flight s2 -> job_slot s2 j' <> Some k.
Proof.
  intros Hr Hi Hk E Hs. pose proof (reachable_invariant _ _ _ Hr) as HI.
  destruct (exec_invariant _ _ _ _ HI E) as [He HI1].
  apply (orphaned_steps pool s1 s2 k HI1 Hs). destruct s as [h cm rq d jobs]. simpl in *.
  rewrite Hi in E. inv_ret. pose proof (in_flight_remove h cm rq d jobs i _ Hi) as Hp. simpl in Hp.
  split.
  - apply (inv_busy _ HI j k); [|done]. rewrite Hp. by left.
  - intros j' Hj' Ej'.
    assert (Hin : j' ∈ in_flight (MkSystem h cm rq d jobs)) by (rewrite Hp; by right).
    pose proof (inv_keys _ HI) as Hnd. rewrite Hp in Hnd. simpl in Hnd. rewrite Hk in Hnd.
    apply NoDup_cons in Hnd as [Hnd _]. apply Hnd, list_elem_of_omap. exists j'. split; [done|].
    rewrite <- Ej'. symmetry. apply evolves_slot; [done|]. apply (inv_known _ HI), elem_of_app. by left.
Qed.

(** A unit whose ready flag is set and that waits nowhere stays so: the
    dispatcher never receives it again and none of its complete elements is
    ever put in process again, whatever events arrive. *)
Theorem stranded_unit_is_never_served pool rs s s' n :
  reachable pool rs s -> stranded s n -> steps pool s s' ->
  stranded s' n /\ forall p, busy s' (n, p) = true -> busy s (n, p) = true.
Proof. intros Hr Hst Hs. by eapply stranded_steps; [eapply reachable_invariant|..]. Qed.
End Properties.

(** ** Concrete runs *)
Module Runs.
Local Notation Sys := (System PlainEvent string).

Definition regs : list (ConflationRegistration string) :=
  [ NewConflationRegistration 0 CompleteStateMode "compliance" "handleCompliance";
    WithDependency (NewConflationRegistration 1 CompleteStateMode "complete" "handleComplete")
      (Some (NewDependency "compliance" ExactMatch)) ].

Definition event (ty ver : string) (dep : option string) : PlainEvent :=
  MkPlainEvent "id" ty "hub1" []
    (match dep with
     | None => {[ExtVersion := ExtString ver]}
     | Some d => {[ExtVersion := ExtString ver; ExtDependencyVersion := ExtString d]}
     end).

Definition state (acts : list (action PlainEvent)) : outcome Sys := run 5 acts (init regs).

(** From the dispatch to the report of the job of the first unit in the queue. *)
Definition process : list (action PlainEvent) :=
  [ATakeUnit; AGetNext; ARun; ALock 0 true; AAttempt 0 false; AReport 0].

Definition last_of (s : Sys) (ty : string) : option Version :=
  match units s !! "hub1" with
  | Some cu =>
      match ElementPriorityQueue cu !! priority_of cu ty with
      | Some (Some (Complete c)) => versions (sys_heap s) !! ce_lastProcessedVersion c
      | _ => None
      end
  | None => None
  end.

Definition state_or_init (acts : list (action PlainEvent)) : Sys :=
  match state acts with Ret s => s | _ => init regs end.

Lemma state_reachable acts : is_ret (state acts) = true -> reachable 5 regs (state_or_init acts).
Proof.
  unfold reachable, state_or_init. intros E. destruct (state acts) eqn:Es; try done. by eapply run_steps.
Qed.

Definition dispatched : list (action PlainEvent) :=
  [ARecv (event "compliance" "1.1" None); ATakeUnit; AGetNext; ARun].

(** A complete event is ready; before the dispatcher takes it, the next
    complete event arrives ahead of the compliance event it depends on. *)
Definition overtaken : list (action PlainEvent) :=
  [ARecv (event "compliance" "1.1" None)] ++ process ++
  [ARecv (event "complete" "1.1" (Some "1.1")); ARecv (event "complete" "2.2" (Some "2.2"));
   ATakeUnit; AGetNext].

(** The hub restarts with first-generation versions while an event is in
    process and a newer one is held. *)
Definition restarted : list (action PlainEvent) :=
  [ARecv (event "compliance" "5.3" None); ATakeUnit; AGetNext; ARun; ALock 0 true;
   ARecv (event "compliance" "6.4" None); ARecv (event "compliance" "0.1" None);
   AAttempt 0 false; AReport 0] ++ process.

Definition failing (n : nat) : list (action PlainEvent) :=
  dispatched ++ [ALock 0 true] ++ replicate n (AAttempt 0 true) ++ [ATimeout 0; AReport 0].

Lemma one_job_per_complete_element_witness :
  reachable 5 regs (state_or_init dispatched) /\ length (in_flight (state_or_init dispatched)) = 1 /\
  NoDup (omap (job_slot (state_or_init dispatched)) (in_flight (state_or_init dispatched))).
Proof.
  assert (Hr : reachable 5 regs (state_or_init dispatched)) by (apply state_reachable; vm_compute; done).
  split; [exact Hr|]. split; [vm_compute; reflexivity|].
  apply (one_job_per_complete_element 5 regs _ Hr).
Defined.

Lemma ready_queue_without_repetition_witness :
  reachable 5 regs (state_or_init [ARecv (event "compliance" "1.1" None)]) /\
  ready_names (state_or_init [ARecv (event "compliance" "1.1" None)]) = ["hub1"] /\
  NoDup (ready_names (state_or_init [ARecv (event "compliance" "1.1" None)])).
Proof.
  assert (Hr : reachable 5 regs (state_or_init [ARecv (event "compliance" "1.1" None)]))
    by (apply state_reachable; vm_compute; done).
  split; [exact Hr|]. split; [vm_compute; reflexivity|].
  apply (ready_queue_without_repetition 5 regs _ Hr).
Defined.

(** The result of a run, as a system. *)
Definition ret_or (s0 : Sys) (m : outcome Sys) : Sys := match m with Ret s => s | _ => s0 end.

Lemma ret_or_eq s0 m : is_ret m = true -> m = Ret (ret_or s0 m).
Proof. by destruct m. Qed.

Definition first_job (s : Sys) : ConflationJob PlainEvent string * phase :=
  default (NewConflationJob (event "" "" None) 0 "" "", Polling) (sys_jobs s !! 0).

Definition jobs_queued (s : Sys) : bool :=
  match sys_jobs s with [(_, Queued)] => true | _ => false end.

Lemma jobs_queued_eq s : jobs_queued s = true -> sys_jobs s !! 0 = Some ((first_job s).1, Queued).
Proof. unfold jobs_queued, first_job. by destruct (sys_jobs s) as [|[j []] []]. Qed.

Lemma lock_failure_orphans_element_witness :
  let s := state_or_init dispatched in
  let s1 := ret_or s (exec 5 (ALock 0 false) s) in
  busy (ret_or s (exec 5 (ARecv (event "compliance" "2.2" None)) s1)) ("hub1", 0) = true.
Proof.
  intros s s1.
  apply (lock_failure_orphans_element 5 regs s s1 _ 0 (first_job s).1 ("hub1", 0)).
  - apply state_reachable. vm_compute. reflexivity.
  - apply jobs_queued_eq. vm_compute. reflexivity.
  - vm_compute. reflexivity.
  - apply ret_or_eq. vm_compute. reflexivity.
  - eapply steps_step; [apply ret_or_eq|apply steps_refl]. vm_compute. reflexivity.
Defined.

Definition flagged (s : Sys) (n : string) : bool :=
  match units s !! n with Some cu => isInReadyQueue cu | None => false end.

Lemma stranded_intro (s : Sys) n : ready_names s = [] -> flagged s n = true -> stranded s n.
Proof.
  unfold flagged. intros E Hf. split; [rewrite E; apply not_elem_of_nil|].
  destruct (units s !! n) as [cu|]; [eauto|done].
Qed.

(** A unit can become stranded: a complete event that waits in the queue is
    replaced by the next one before the compliance event it depends on has
    arrived; [GetNext] then returns its error without clearing the ready
    flag. *)
Theorem GetNext_error_strands_unit :
  reachable 5 regs (state_or_init overtaken) /\ stranded (state_or_init overtaken) "hub1".
Proof.
  split; [apply state_reachable|apply stranded_intro]; vm_compute; reflexivity.
Qed.

Lemma stranded_unit_is_never_served_witness :
  let s := state_or_init overtaken in
  stranded (ret_or s (exec 5 (ARecv (event "compliance" "2.2" None)) s)) "hub1".
Proof.
  intros s. apply (stranded_unit_is_never_served 5 regs s _ "hub1").
  - apply state_reachable. vm_compute. reflexivity.
  - apply stranded_intro; vm_compute; reflexivity.
  - eapply steps_step; [apply ret_or_eq|apply steps_refl]. vm_compute. reflexivity.
Defined.

(** After a restart of the hub that overlaps with the processing of an older
    event while a newer event is held, the element's last processed version is
    the one before the restart, and the hub's next event is dropped. *)
Theorem restart_while_processing_drops_events :
  let s := state_or_init restarted in
  let s' := ret_or s (exec 5 (ARecv (event "compliance" "1.2" None)) s) in
  is_ret (state restarted) = true /\ last_of s "compliance" = Some (MkVersion 5 3) /\
  is_ret (exec 5 (ARecv (event "compliance" "1.2" None)) s) = true /\
  ready_names s' = [] /\ in_flight s' = [] /\ units s' = units s.
Proof. vm_compute. done. Qed.

(** An event of a type with a dependency that carries no dependency version
    makes the manager panic when its element is considered. *)
Theorem missing_dependency_version_panics :
  state [ARecv (event "complete" "1.1" None)] = Panic.
Proof. vm_compute. reflexivity. Qed.

(** An event whose handler failed twice before the poll timed out is
    dispatched again; after three failures its metadata counts as processed and
    the event is never dispatched again, although it was never handled. *)
Theorem failures_up_to_the_threshold :
  ready_names (state_or_init (failing 2)) = ["hub1"] /\
  is_ret (state (failing 3)) = true /\ ready_names (state_or_init (failing 3)) = [] /\
  last_of (state_or_init (failing 3)) "compliance" = Some NewVersion /\
  Processed <$> (metas (sys_heap (state_or_init (failing 3))) !! 1) = Some true.
Proof. vm_compute. done. Qed.

Definition unit_of (s : Sys) : ConflationUnit PlainEvent string :=
  default (MkUnit "" [] ∅ false) (units s !! "hub1").

Definition element_at (cu : ConflationUnit PlainEvent string) (i : nat) : completeElement PlainEvent string :=
  match ElementPriorityQueue cu !! i with
  | Some (Some (Complete c)) => c
  | _ => MkComplete "" CompleteStateMode "" None false 0 None None
  end.

Definition complete_slot (cu : ConflationUnit PlainEvent string) (i : nat) : bool :=
  match ElementPriorityQueue cu !! i with Some (Some (Complete _)) => true | _ => false end.

Lemma complete_slot_eq cu i :
  complete_slot cu i = true -> ElementPriorityQueue cu !! i = Some (Some (Complete (element_at cu i))).
Proof. unfold complete_slot, element_at. destruct (ElementPriorityQueue cu !! i) as [[[]|]|]; done. Qed.

(** A decision procedure for [chain_ok] on concrete units. *)
Definition chain_okb (cu : ConflationUnit PlainEvent string) : bool :=
  forallb (fun i => match ElementPriorityQueue cu !! i with
    | Some (Some (Complete c)) =>
        match ce_dependency c with
        | Some d => (priority_of cu (dep_EventType d) <? i)%nat
        | None => true
        end
    | _ => true
    end) (seq 0 (length (ElementPriorityQueue cu))).

Lemma chain_okb_ok cu : chain_okb cu = true -> chain_ok cu.
Proof.
  intros Hb i c d Hi Hd. unfold chain_okb in Hb. rewrite forallb_elem_of in Hb.
  specialize (Hb i). rewrite Hi, Hd in Hb. apply Nat.ltb_lt, Hb.
  apply elem_of_seq. apply lookup_lt_Some in Hi. lia.
Qed.

Lemma isCurrentOrAnyDependencyInProcess_total_witness :
  let cu := unit_of (state_or_init dispatched) in
  exists b, isCurrentOrAnyDependencyInProcess (chain_fuel cu) cu (element_at cu 1) = Ret b /\
    (b = true <-> blocked cu (element_at cu 1)).
Proof.
  intros cu. apply (isCurrentOrAnyDependencyInProcess_total cu 1).
  - apply chain_okb_ok. vm_compute. reflexivity.
  - apply complete_slot_eq. vm_compute. reflexivity.
Defined.

Definition received : list (action PlainEvent) := [ARecv (event "compliance" "1.1" None)].

Lemma GetNext_first_ready_witness :
  let s := state_or_init received in
  exists j cu', GetNext (unit_of s) (sys_heap s) = Ret (Ok j, cu') /\
  exists i c md, ElementPriorityQueue (unit_of s) !! i = Some (Some (Complete c)) /\
    ce_event c = Some (job_Event j) /\ metas (sys_heap s) !! job_Metadata j = Some md.
Proof.
  intros s. eexists _, _. split; [vm_compute; reflexivity|].
  edestruct (GetNext_first_ready (unit_of s) (sys_heap s)) as (i & c & md & Hi & He & _ & _ & Hm & _).
  - apply chain_okb_ok. vm_compute. reflexivity.
  - vm_compute. reflexivity.
  - exists i, c, md. split; [exact Hi|]. split; [exact He|exact Hm].
Defined.

Definition second : PlainEvent := event "compliance" "2.2" None.

Definition second_heap : Heap := (NewThresholdMetadata TransportID 3 second (sys_heap (state_or_init received))).2.
Definition second_metadata : ThresholdMetadata :=
  MkMetadata 3 0 (MkPosition "" "" 0 0) "compliance" (Some 4) None.

Lemma second_heap_ok : heap_ok second_heap.
Proof.
  assert (Hs : heap_ok (sys_heap (state_or_init received)))
    by (apply (reachable_invariant 5 regs), state_reachable; vm_compute; done).
  unfold second_heap. pose proof (NewThresholdMetadata_grows TransportID 3 second _ Hs) as Hg.
  destruct (NewThresholdMetadata _ _ _ _) as [[m|] h']; [apply Hg|by subst].
Qed.

Lemma insert_refines_offer_witness :
  let s := state_or_init received in
  exists cu' rq' h' (e' : completeElement PlainEvent string), insert (unit_of s) second 5 (sys_rq s) second_heap = Ret (cu', rq', h') /\
    models h' e' (MkSlot NewVersion (Some (MkVersion 2 2))) /\ ce_event e' = Some second.
Proof.
  intros s.
  assert (Er : is_ret (insert (unit_of s) second 5 (sys_rq s) second_heap) = true) by (vm_compute; reflexivity).
  destruct (insert (unit_of s) second 5 (sys_rq s) second_heap) as [[[cu' rq'] h']| | |] eqn:E;
    try discriminate Er.
  destruct (insert_refines_offer (unit_of s) second 5 (sys_rq s) second_heap cu' rq' h'
    (element_at (unit_of s) 0) (MkSlot NewVersion (Some (MkVersion 1 1))) second_metadata 4 (MkVersion 2 2))
    as (e' & _ & Hm & He).
  - apply second_heap_ok.
  - apply (complete_slot_eq (unit_of s) 0). vm_compute. reflexivity.
  - split; [vm_compute; reflexivity|]. vm_compute. eexists _, _. split; [reflexivity|]. split; reflexivity.
  - vm_compute. reflexivity.
  - reflexivity.
  - vm_compute. reflexivity.
  - split; [vm_compute; discriminate|]. intros m md Em Emd. vm_compute in Em. injection Em as <-.
    vm_compute in Emd. injection Emd as <-. vm_compute. discriminate.
  - exact E.
  - exists cu', rq', h', e'. split; [reflexivity|]. split; [exact Hm|apply He].
Defined.
End Runs.

(** The poll of a worker ends exactly when the handler succeeds, whatever
    the number of failures before, while the metadata counts as processed from
    its threshold of failures on. *)
Theorem attempt_ends_only_with_success (md : ThresholdMetadata) (err : bool) (n : nat) :
  (attempt md err).2 = negb err /\
  (count md = 0%Z -> (0 < maxRetry md < two63)%Z -> (Z.of_nat n < two63)%Z ->
   Processed (Nat.iter n (fun m => (attempt m true).1) md) = (maxRetry md <=? Z.of_nat n)%Z).
Proof.
  split.
  - destruct err; simpl; [|done]. by rewrite orb_true_r.
  - intros. by apply Processed_after_failures.
Qed.

Lemma attempt_ends_only_with_success_witness :
  Processed (Nat.iter 3 (fun m => (attempt m true).1) (MkMetadata 3 0 (MkPosition "" "" 0 0) "t" None None)) = true.
Proof.
  rewrite (proj2 (attempt_ends_only_with_success (MkMetadata 3 0 (MkPosition "" "" 0 0) "t" None None) true 3));
    [reflexivity|reflexivity|split; reflexivity|reflexivity].
Defined.

(** ** Processed versions never go back

    The last processed version of every element, read through its pointer in
    the shared store, across the steps of the pipeline: it only moves forward,
    unless an event with a version of the first generation arrives. *)

Section Versions.
Context {Event Handler : Type} `{EventSDK Event}.
Local Notation Unit := (ConflationUnit Event Handler).
Local Notation Element := (ConflationElement Event Handler).
Local Notation Sys := (System Event Handler).
Implicit Types (cu : Unit) (h : Heap) (s : Sys) (el : Element).

Definition last_ptr el : nat :=
  match el with Complete c => ce_lastProcessedVersion c | Delta d => de_lastProcessedVersion d end.

Definition versions_keep h h' : Prop :=
  forall l v, versions h !! l = Some v -> versions h' !! l = Some v.

(** The last processed version of [el'] is not older than that of [el]. *)
Definition not_older h el h' el' : Prop :=
  forall v, versions h !! last_ptr el = Some v ->
    exists v', versions h' !! last_ptr el' = Some v' /\ ~ version_lt v' v.

Definition units_not_older (us us' : gmap string Unit) h h' : Prop :=
  forall n cu i el, us !! n = Some cu -> ElementPriorityQueue cu !! i = Some (Some el) ->
    exists cu' el', us' !! n = Some cu' /\ ElementPriorityQueue cu' !! i = Some (Some el') /\
      not_older h el h' el'.

Lemma not_older_refl h h' el el' : versions_keep h h' -> last_ptr el' = last_ptr el -> not_older h el h' el'.
Proof. intros Hk E v Hv. rewrite E. exists v. split; [auto|]. apply irreflexivity, _. Qed.

Lemma versions_keep_refl h : versions_keep h h.
Proof. by intros ? ?. Qed.

Lemma not_older_same h el el' : last_ptr el' = last_ptr el -> not_older h el h el'.
Proof. apply not_older_refl, versions_keep_refl. Qed.

Lemma versions_keep_trans h1 h2 h3 : versions_keep h1 h2 -> versions_keep h2 h3 -> versions_keep h1 h3.
Proof. unfold versions_keep. auto. Qed.

Lemma alloc_version_keep v h l h' : heap_ok h -> alloc_version v h = (l, h') -> versions_keep h h'.
Proof.
  intros Hok E k w Hk. destruct (alloc_version_grows _ _ _ _ Hok E) as (_ & Hn & -> & _).
  rewrite lookup_insert_ne by congruence. done.
Qed.

Lemma add_registrations_keep (rs : list (ConflationRegistration Handler)) : forall cu h cu' h',
  heap_ok h -> add_registrations rs cu h = Ret (cu', h') -> versions_keep h h'.
Proof.
  induction rs as [|r rs IH]; intros cu h cu' h' Hok E; simpl in E; inv_ret; [by intros ? ?|].
  assert (Hr : versions_keep h h0 /\ heap_ok h0).
  { unfold add_registration, NewCompleteElement, NewDeltaElement in *.
    destruct (alloc_version NewVersion h) as [l h1] eqn:Ea.
    destruct (alloc_version_grows _ _ _ _ Hok Ea) as (Hg & _).
    pose proof (alloc_version_keep _ _ _ _ Hok Ea).
    destruct (reg_syncMode r); inv_ret; (split; [done|apply Hg]). }
  destruct Hr as [Hk Hok']. eapply versions_keep_trans; [exact Hk|]. by eapply IH.
Qed.

(** The metadata of an event keeps the versions and holds the event's version. *)
Lemma NewThresholdMetadata_version id max (evt : Event) h m h' :
  heap_ok h -> NewThresholdMetadata id max evt h = (Some m, h') ->
  versions_keep h h' /\
  exists md v, metas h' !! m = Some md /\ get_version_ptr h' (eventVersion md) = Ret v /\
    getVersionFromEvent evt ExtVersion = Ok (Some v).
Proof.
  intros Hok. unfold NewThresholdMetadata.
  destruct (getVersionFromEvent evt ExtVersion) as [[ev|]|]; try done.
  destruct (getVersionFromEvent evt ExtDependencyVersion) as [dv|]; [|done].
  destruct (alloc_version ev h) as [lv h1] eqn:E1.
  destruct (alloc_version_grows _ _ _ _ Hok E1) as (Hg1 & Hv1 & Ev1 & _).
  pose proof (alloc_version_keep _ _ _ _ Hok E1) as Hk1.
  assert (Hlv : versions h1 !! lv = Some ev) by (by rewrite Ev1, lookup_insert_eq).
  destruct dv as [d|].
  - destruct (alloc_version d h1) as [ld h2] eqn:E2.
    destruct (alloc_version_grows _ _ _ _ (grows_ok _ _ Hg1) E2) as (Hg2 & _).
    pose proof (alloc_version_keep _ _ _ _ (grows_ok _ _ Hg1) E2) as Hk2.
    intros [= <- <-]. split; [by eapply versions_keep_trans|]. eexists _, ev. simpl.
    rewrite lookup_insert_eq. split; [done|]. split; [|done].
    apply get_version_Ret. simpl. auto.
  - intros [= <- <-]. split; [done|]. eexists _, ev. simpl.
    rewrite lookup_insert_eq. split; [done|]. split; [|done]. apply get_version_Ret. done.
Qed.

Lemma versions_keep_ptr h h' p v :
  versions_keep h h' -> get_version_ptr h p = Ret v -> get_version_ptr h' p = Ret v.
Proof. intros Hk. destruct p as [l|]; [|done]. simpl. rewrite !get_version_Ret. auto. Qed.

(** Versions of later generations leave the elements' pointers alone. *)
Lemma insert_later_generation cu ev m md v rq h cu' rq' h' :
  metas h !! m = Some md -> get_version_ptr h (eventVersion md) = Ret v -> InitGen v = false ->
  insert cu ev m rq h = Ret (cu', rq', h') ->
  h' = h /\ forall i el', ElementPriorityQueue cu' !! i = Some (Some el') ->
    exists el, ElementPriorityQueue cu !! i = Some (Some el) /\ last_ptr el' = last_ptr el.
Proof.
  intros Hm Hv Hi E. unfold insert in E. inv_ret.
  match goal with E : slice_get _ _ = Ret _ |- _ => apply slice_get_Ret in E; rename E into Hp end.
  assert (Hq : forall el cu1 el1, a = Some el ->
    update_slot cu (priority_of cu (Type_ ev)) el1 = Ret cu1 -> last_ptr el1 = last_ptr el ->
    forall i el', ElementPriorityQueue cu1 !! i = Some (Some el') ->
    exists el, ElementPriorityQueue cu !! i = Some (Some el) /\ last_ptr el' = last_ptr el).
  { intros el cu1 el1 -> Eu Hl i el' Hi'. unfold update_slot, slice_set in Eu.
    case_decide; inv_ret. simpl in Hi'. rewrite list_lookup_insert in Hi'.
    case_decide as Ep; [destruct Ep as [<- _]; injection Hi' as <-; eauto|eauto]. }
  rewrite (proj2 (get_meta_Ret _ _ _) Hm) in E. simpl in E.
  destruct a as [[e|e]|]; inv_ret.
  - match goal with E : complete_Predicate _ _ _ = _ |- _ => rename E into Ep end.
    assert (c = e /\ h0 = h) as [-> ->].
    { unfold complete_Predicate in Ep. rewrite Hv in Ep. simpl in Ep. rewrite Hi in Ep. simpl in Ep.
      rewrite Hv in Ep. simpl in Ep. inv_ret. destruct (negb _); inv_ret; [done|].
      destruct (ce_metadata _); inv_ret; done. }
    destruct b; inv_ret; (split; [done|]).
    + unfold complete_AddToReadyQueue in *. inv_ret.
      match goal with Ea : addCUToReadyQueueIfNeeded _ _ _ = _ |- _ =>
        apply addCU_spec in Ea as (Eq & _) end. rewrite Eq. match goal with Eu : update_slot _ _ _ = Ret _ |- _ => pose proof (Hq _ _ _ eq_refl Eu eq_refl) end; eauto.
    + match goal with Eu : update_slot _ _ _ = Ret _ |- _ => pose proof (Hq _ _ _ eq_refl Eu eq_refl) end; eauto.
  - match goal with E : delta_Predicate _ _ _ = _ |- _ => rename E into Ep end.
    assert (d = e /\ h0 = h) as [-> ->].
    { unfold delta_Predicate in Ep. rewrite Hv in Ep. simpl in Ep. rewrite Hi in Ep. by inv_ret. }
    destruct b; inv_ret; (split; [done|]).
    + unfold delta_AddToReadyQueue in *. inv_ret. match goal with Eu : update_slot _ _ _ = Ret _ |- _ => pose proof (Hq _ _ _ eq_refl Eu eq_refl) end; eauto.
    + match goal with Eu : update_slot _ _ _ = Ret _ |- _ => pose proof (Hq _ _ _ eq_refl Eu eq_refl) end; eauto.
  - split; [done|eauto].
Qed.

Lemma not_older_newer h el el' (p : option nat) v last :
  get_version_ptr h p = Ret v -> get_version h (last_ptr el) = Ret last ->
  NewerThan v (Some last) = true -> last_ptr el' = default 0%nat p -> not_older h el h el'.
Proof.
  intros Hv Hl Hn Ep w Hw. apply get_version_Ret in Hl. assert (w = last) as -> by congruence.
  rewrite Ep. destruct p as [l|]; [|done]. apply get_version_Ret in Hv. exists v. split; [done|].
  apply NewerThan_spec in Hn. intros Hc. apply (irreflexivity version_lt v). by etrans.
Qed.

Lemma complete_PostProcess_last (e e' : completeElement Event Handler) m err h :
  complete_PostProcess e m err h = Ret e' -> not_older h (Complete e) h (Complete e').
Proof.
  unfold complete_PostProcess. destruct err; intros E; inv_ret; [by apply not_older_same|].
  match goal with E : (if Processed _ then _ else _) = Ret ?x |- _ =>
    assert (Ha : not_older h (Complete e) h (Complete x)) end.
  { destruct (Processed _); inv_ret; [|by apply not_older_same].
    destruct (NewerThan _ _) eqn:En; inv_ret; [|by apply not_older_same]. by eapply not_older_newer. }
  destruct (ce_metadata _); inv_ret. by destruct (Equals _ _).
Qed.

Lemma delta_PostProcess_last (e e' : deltaElement Handler) m err h :
  delta_PostProcess e m err h = Ret e' -> not_older h (Delta e) h (Delta e').
Proof.
  unfold delta_PostProcess. destruct err; intros E; inv_ret; [by apply not_older_same|].
  destruct (Processed _); inv_ret; [|by apply not_older_same].
  destruct (NewerThan _ _) eqn:En; inv_ret; [|by apply not_older_same]. by eapply not_older_newer.
Qed.

(** A report moves the pointer of the reported slot to a newer version, or not at all. *)
Lemma ReportResult_last cu m err rq h cu' rq' :
  ReportResult cu m err rq h = Ret (cu', rq') ->
  forall i el', ElementPriorityQueue cu' !! i = Some (Some el') ->
    exists el, ElementPriorityQueue cu !! i = Some (Some el) /\ not_older h el h el'.
Proof.
  intros E i el' Hi'. unfold ReportResult in E. inv_ret.
  match goal with E : slice_get _ _ = Ret _ |- _ => apply slice_get_Ret in E; rename E into Hp end.
  assert (Hq : forall el el1 cu1, a0 = Some el -> not_older h el h el1 ->
    update_slot cu (priority_of cu (md_eventType a)) el1 = Ret cu1 ->
    ElementPriorityQueue cu1 !! i = Some (Some el') ->
    exists el, ElementPriorityQueue cu !! i = Some (Some el) /\ not_older h el h el').
  { intros el el1 cu1 -> Hl Eu Hi1. unfold update_slot, slice_set in Eu.
    case_decide; inv_ret. simpl in Hi1. rewrite list_lookup_insert in Hi1.
    case_decide as Ep; [destruct Ep as [<- _]; injection Hi1 as <-; eauto|].
    exists el'. split; [done|]. by apply not_older_same. }
  destruct a0 as [[e|e]|]; inv_ret.
  - match goal with E : complete_PostProcess _ _ _ _ = _, Eu : update_slot _ _ _ = _ |- _ =>
      apply complete_PostProcess_last in E; pose proof (Hq _ _ _ eq_refl E Eu) end.
    case_decide; inv_ret; [|by auto].
    match goal with Ea : addCUToReadyQueueIfNeeded _ _ _ = _ |- _ => apply addCU_spec in Ea as [Eq _]; rewrite Eq in Hi'; by auto end.
  - match goal with E : delta_PostProcess _ _ _ _ = _, Eu : update_slot _ _ _ = _ |- _ =>
      apply delta_PostProcess_last in E; pose proof (Hq _ _ _ eq_refl E Eu) end.
    case_decide; inv_ret; [|by auto].
    match goal with Ea : addCUToReadyQueueIfNeeded _ _ _ = _ |- _ => apply addCU_spec in Ea as [Eq _]; rewrite Eq in Hi'; by auto end.
Qed.

(** *** The steps *)
Definition later_generation (a : action Event) : Prop :=
  forall evt v, a = ARecv evt -> getVersionFromEvent evt ExtVersion = Ok (Some v) -> InitGen v = false.

Lemma units_not_older_same us h h' : versions_keep h h' -> units_not_older us us h h'.
Proof. intros Hk n cu i el Hn Hi. exists cu, el. split; [done|]. split; [done|]. by apply not_older_refl. Qed.

Lemma units_not_older_update us n cu cu' h h' :
  versions_keep h h' -> us !! n = Some cu ->
  (forall i el, ElementPriorityQueue cu !! i = Some (Some el) ->
     exists el', ElementPriorityQueue cu' !! i = Some (Some el') /\ not_older h el h' el') ->
  units_not_older us (<[n := cu']> us) h h'.
Proof.
  intros Hk Hn Hel m c i el Hm Hi. destruct (decide (n = m)) as [<-|].
  - assert (c = cu) as -> by congruence. destruct (Hel _ _ Hi) as (el' & ? & ?).
    exists cu', el'. by rewrite lookup_insert_eq.
  - exists c, el. rewrite lookup_insert_ne by done. split; [done|]. split; [done|]. by apply not_older_refl.
Qed.

(** From slots of the new unit back to slots of the old one, and forth. *)
Lemma same_unit_forth cu cu' (P : Element -> Element -> Prop) :
  same_unit cu cu' ->
  (forall i el', ElementPriorityQueue cu' !! i = Some (Some el') ->
     exists el, ElementPriorityQueue cu !! i = Some (Some el) /\ P el el') ->
  forall i el, ElementPriorityQueue cu !! i = Some (Some el) ->
    exists el', ElementPriorityQueue cu' !! i = Some (Some el') /\ P el el'.
Proof.
  intros [_ _ HF] Hback i el Hi. destruct (Forall2_lookup_l _ _ _ _ _ HF Hi) as (y & Hy & Hxy).
  inversion Hxy as [x y' Hs|]; subst. exists y'. split; [done|].
  destruct (Hback _ _ Hy) as (el0 & Hi0 & HP). by assert (el0 = el) as -> by congruence.
Qed.

Lemma Insert_not_older (cm cm' : ConflationManager Event Handler) evt rq rq' h h' :
  heap_ok h -> later_generation (ARecv evt) -> Insert cm evt rq h = Ret (cm', rq', h') ->
  units_not_older (conflationUnits cm) (conflationUnits cm') h h'.
Proof.
  intros Hok Hlate E. unfold Insert in E.
  destruct (registrations cm !! Type_ evt) as [rg|]; [|inv_ret; apply units_not_older_same, versions_keep_refl].
  destruct (NewThresholdMetadata _ _ _ _) as [[m|] h1] eqn:En.
  2: { pose proof (NewThresholdMetadata_grows TransportID 3 evt h Hok) as Hg. rewrite En in Hg. subst.
       inv_ret. apply units_not_older_same, versions_keep_refl. }
  destruct (NewThresholdMetadata_version _ _ _ _ _ _ Hok En) as (Hk1 & md & v & Hmd & Hv & Ev).
  pose proof (NewThresholdMetadata_grows TransportID 3 evt h Hok) as Hg. rewrite En in Hg.
  destruct Hg as [Hg1 _]. inv_ret.
  match goal with E : getConflationUnit _ _ _ = _, E1 : insert _ _ _ _ _ = _ |- _ =>
    rename E into Ec; rename E1 into Ei end.
  assert (Hcu : versions_keep h1 h0 /\ (forall k x, metas h1 !! k = Some x -> metas h0 !! k = Some x) /\
    ((conflationUnits cm !! Source evt = Some c /\ c0 = cm) \/
     (conflationUnits cm !! Source evt = None /\ conflationUnits c0 = <[Source evt := c]> (conflationUnits cm)))).
  { unfold getConflationUnit in Ec. destruct (conflationUnits cm !! Source evt) eqn:El; inv_ret.
    - split; [apply versions_keep_refl|]. split; [by intros ? ?|auto].
    - match goal with E : newConflationUnit _ _ _ = Ret _ |- _ => rename E into Enew end.
      split; [by eapply add_registrations_keep; [apply Hg1|exact Enew]|]. split; [|auto].
      apply newConflationUnit_fresh in Enew as [Hg2 _]; [|apply Hg1]. intros k x. apply Hg2. }
  destruct Hcu as (Hk2 & Hm2 & Hcu).
  destruct (insert_later_generation c evt m md v rq h0 c1 rq' h') as [-> Hback];
    [by apply Hm2|by eapply versions_keep_ptr|by eapply Hlate|exact Ei|].
  pose proof (insert_spec _ _ _ _ _ _ _ _ Ei) as (Hs & _).
  assert (Hk : versions_keep h h0) by (by eapply versions_keep_trans).
  assert (Hforth : forall i el, ElementPriorityQueue c !! i = Some (Some el) ->
     exists el', ElementPriorityQueue c1 !! i = Some (Some el') /\ not_older h el h0 el').
  { apply (same_unit_forth c c1); [done|]. intros i el' Hi. destruct (Hback _ _ Hi) as (el & ? & ?).
    exists el. split; [done|]. by apply not_older_refl. }
  destruct Hcu as [[Hcu ->]|[Hcu Eu]].
  - by eapply units_not_older_update.
  - simpl. rewrite Eu, insert_insert_eq. intros n cu i el Hn Hi.
    exists cu, el. rewrite lookup_insert_ne by congruence. split; [done|]. split; [done|]. by apply not_older_refl.
Qed.

(** C7: the last processed version of an element never goes back: after any step
    other than the arrival of an event whose version is of the first
    generation, every element of every unit is still there and the version its
    pointer designates is the same or a newer one. *)
Theorem last_processed_version_monotone pool rs a s s' :
  reachable pool rs s -> later_generation a -> exec pool a s = Ret s' ->
  units_not_older (units s) (units s') (sys_heap s) (sys_heap s').
Proof.
  intros HI%reachable_invariant Hlate E.
  assert (Hl : local_action a -> versions_keep (sys_heap s) (sys_heap s') ->
    units_not_older (units s) (units s') (sys_heap s) (sys_heap s')).
  { intros Ha Hk. destruct (exec_local_effect _ _ _ _ Ha E) as (-> & _ & _). by apply units_not_older_same. }
  destruct s as [h cm rq d jobs]. destruct a as [evt| | | | |i ok|i e|i|i]; simpl in *.
  - inv_ret. by eapply Insert_not_older; [apply HI|..].
  - destruct d, (DeltaEventJobChan rq); inv_ret. apply Hl; [done|apply versions_keep_refl].
  - destruct d, (ConflationUnitChan rq); inv_ret. apply Hl; [done|apply versions_keep_refl].
  - destruct d as [|n|]; inv_ret. destruct (conflationUnits cm !! n) as [cu|] eqn:Hcu; inv_ret.
    eapply units_not_older_update; [apply versions_keep_refl|done|]. destruct r as [j|e].
    + match goal with E : GetNext _ _ = _ |- _ => apply GetNext_Ok in E as
        (k & c0 & m & _ & Hk & _ & _ & _ & _ & _ & _ & _ & _ & _ & Hq) end.
      intros i el Hi. rewrite Hq. destruct (decide (k = i)) as [<-|].
      * rewrite list_lookup_insert_eq by (by eapply lookup_lt_Some). eexists. split; [done|].
        apply not_older_same. assert (el = Complete c0) as -> by congruence. done.
      * rewrite list_lookup_insert_ne by done. eexists. split; [done|]. by apply not_older_same.
    + match goal with E : GetNext _ _ = _ |- _ => apply GetNext_Err in E as [-> _] end.
      intros i el Hi. eexists. split; [done|]. by apply not_older_same.
  - destruct d; inv_ret. destruct (_ <? _)%nat; inv_ret. apply Hl; [done|apply versions_keep_refl].
  - destruct (jobs !! i) as [[j []]|]; inv_ret. apply Hl; [done|apply versions_keep_refl].
  - destruct (jobs !! i) as [[j []]|]; inv_ret. apply Hl; [done|by intros ? ?].
  - destruct (jobs !! i) as [[j []]|]; inv_ret. apply Hl; [done|apply versions_keep_refl].
  - destruct (jobs !! i) as [[j []]|]; inv_ret.
    destruct (conflationUnits cm !! job_Reporter j) as [cu|] eqn:Hcu; inv_ret.
    match goal with E : ReportResult _ _ _ _ _ = _ |- _ => rename E into Er end.
    pose proof (ReportResult_spec _ _ _ _ _ _ _ Er) as (md & _ & Hs & _).
    eapply units_not_older_update; [apply versions_keep_refl|done|].
    eapply same_unit_forth; [exact Hs|]. by eapply ReportResult_last.
Qed.
End Versions.

Import Runs.
Lemma last_processed_version_monotone_witness :
  let s := state_or_init received in
  let s' := ret_or s (exec 5 (ARecv second) s) in
  units_not_older (units s) (units s') (sys_heap s) (sys_heap s').
Proof.
  intros s s'. apply (last_processed_version_monotone 5 regs (ARecv second)).
  - apply state_reachable. vm_compute. reflexivity.
  - intros evt v [= <-]. vm_compute. intros [= <-]. reflexivity.
  - apply ret_or_eq. vm_compute. reflexivity.
Defined.
