(* ===== verification/Committer.v ===== *)
(** * Committing transport offsets

    [manager/pkg/status/conflator/conflation_committer.go]: which offset of
    each topic and partition is stored in the database, and
    [getInitOffset] of [pkg/transport/consumer/generic_consumer.go], which reads
    the stored offsets when the consumer starts. *)

From stdpp Require Import prelude gmap strings list.
From Stdlib Require Import ZArith Lia Ascii.
From S2P Require Import Prelude.
From S2P Require Import GoLib.
From S2P Require Import Version.
From S2P Require Import CloudEvents.
From S2P Require Import Metadata.
From S2P Require Import Conflation.
From S2P Require Import ConflationSystem.
From S2P Require Import ConflationProps.
Local Open Scope string_scope.
Local Open Scope list_scope.

(** ** The offsets to commit *)
Definition positionKey (topic : string) (partition : Z) : string :=
  topic +:+ String "@"%char (FormatInt partition).

Definition key_of (p : EventPosition) : string := positionKey (Topic p) (Partition p).

(** One iteration of the first loop, on the pending and the processed map. *)
Definition commit_step (maps : gmap string EventPosition * gmap string EventPosition)
    (metadata : option ThresholdMetadata) : gmap string EventPosition * gmap string EventPosition :=
  let '(pending, processed) := maps in
  match metadata with
  | None => maps
  | Some md =>
      let position := kafkaPosition md in
      let key := key_of position in
      if negb (Processed md) then
        match pending !! key with
        | Some lowest =>
            if (Offset lowest <=? Offset position)%Z then maps else (<[key := position]> pending, processed)
        | None => (<[key := position]> pending, processed)
        end
      else
        match processed !! key with
        | Some highest =>
            if (Offset position <=? Offset highest)%Z then maps else (pending, <[key := position]> processed)
        | None => (pending, <[key := position]> processed)
        end
  end.

Definition next_position (p : EventPosition) : EventPosition :=
  MkPosition (OwnerIdentity p) (Topic p) (Partition p) (swrap64 (Offset p + 1)).

Definition metadataToCommit (metadataArray : list (option ThresholdMetadata)) : gmap string EventPosition :=
  let '(pending, processed) := fold_left commit_step metadataArray (∅, ∅) in
  pending ∪ (next_position <$> processed).

(** ** The committer *)

(** A row of the table [status.transport]: its name and the fields of its
    payload (the topic is not part of the JSON). *)
Record Transport := MkTransport {
  tr_Name : string;
  tr_Owner : string;
  tr_Partition : Z;
  tr_Offset : Z;
}.

Record ConflationCommitter := MkCommitter { committedPositions : gmap string Z }.
Definition NewKafkaConflationCommitter : ConflationCommitter := MkCommitter ∅.

(** The loop over the positions: the rows to write and the positions recorded as
    committed. *)
Fixpoint collect_transports (k : ConflationCommitter) (transPositions : list (string * EventPosition))
    : list Transport * ConflationCommitter :=
  match transPositions with
  | [] => ([], k)
  | (key, p) :: rest =>
      if match committedPositions k !! key with Some o => (Offset p <=? o)%Z | None => false end
      then collect_transports k rest
      else
        let '(rows, k') := collect_transports (MkCommitter (<[key := Offset p]> (committedPositions k))) rest in
        (MkTransport (Topic p) (OwnerIdentity p) (Partition p) (Offset p) :: rows, k')
  end.

(** [lock_err] and [write_err] are the results of [database.Lock] and of
    [CreateInBatches]; the last component is what was written. *)
Definition commit (k : ConflationCommitter) (transportMetadatas : list (option ThresholdMetadata))
    (lock_err write_err : option goerror) : option goerror * ConflationCommitter * list Transport :=
  let '(databaseTransports, k') := collect_transports k (map_to_list (metadataToCommit transportMetadatas)) in
  match lock_err with
  | Some e => (Some e, k', [])
  | None =>
      match databaseTransports with
      | [] => (None, k', [])
      | _ =>
          match write_err with
          | Some e => (Some e, k', [])
          | None => (None, k', databaseTransports)
          end
      end
  end.

(** ** Reading the offsets back *)
Record TopicPartition := MkTopicPartition { tp_Topic : string; tp_Partition : Z; tp_Offset : Z }.

(** The regular expression [^status*] matches the names that begin with
    [statu]. *)
Definition status_name (name : string) : bool := String.prefix "statu" name.

Definition getInitOffset (kafkaClusterIdentity : string) (table : list Transport) : list TopicPartition :=
  (fun r => MkTopicPartition (tr_Name r) (tr_Partition r) (tr_Offset r)) <$>
  filter (fun r => status_name (tr_Name r) = true /\ tr_Owner r <> "" /\ tr_Owner r = kafkaClusterIdentity) table.

(** ** What is committed *)
Definition with_key (k : string) (ms : list (option ThresholdMetadata)) (b : bool) (p : EventPosition) : Prop :=
  exists md, Some md ∈ ms /\ Processed md = b /\ kafkaPosition md = p /\ key_of p = k.

(** [p] has the least (or greatest) offset of those satisfying [P]. *)
Definition extremal (le : Z -> Z -> Prop) (P : EventPosition -> Prop) (o : option EventPosition) : Prop :=
  match o with
  | Some p => P p /\ forall q, P q -> le (Offset p) (Offset q)
  | None => forall q, ~ P q
  end.

Definition commit_inv (ms : list (option ThresholdMetadata))
    (maps : gmap string EventPosition * gmap string EventPosition) : Prop :=
  forall k, extremal Z.le (with_key k ms false) (maps.1 !! k) /\
            extremal Z.ge (with_key k ms true) (maps.2 !! k).

Lemma with_key_snoc k ms m b p :
  with_key k (ms ++ [m]) b p <->
  with_key k ms b p \/ (exists md, m = Some md /\ Processed md = b /\ kafkaPosition md = p /\ key_of p = k).
Proof.
  unfold with_key. split.
  - intros (md & [Hin|E%list_elem_of_singleton]%elem_of_app & ?); [left; eauto|right; eauto].
  - intros [(md & Hin & ?)|(md & -> & ?)]; exists md; (split; [apply elem_of_app|done]); [by left|right].
    by apply list_elem_of_singleton.
Qed.

(** Keeping the extremal position when a candidate arrives. *)
Lemma extremal_snoc (le : Z -> Z -> Prop) (leb : Z -> Z -> bool) (P Q : EventPosition -> Prop) o q :
  (forall a b, leb a b = true <-> le a b) -> (forall a b, le a b \/ le b a) -> Transitive le ->
  (forall p, Q p <-> P p \/ p = q) -> extremal le P o ->
  extremal le Q
    (match o with Some p => if leb (Offset p) (Offset q) then Some p else Some q | None => Some q end).
Proof.
  intros Hleb Htot Htr HQ Ho. assert (Hrefl : forall a, le a a) by (intros a; by destruct (Htot a a)).
  destruct o as [p|]; simpl in *.
  - destruct Ho as [HP Hmin]. destruct (leb (Offset p) (Offset q)) eqn:E; simpl.
    + split; [by apply HQ; left|]. intros r [Hr| ->]%HQ; [auto|]. by apply Hleb.
    + split; [by apply HQ; right|]. intros r [Hr| ->]%HQ; [|auto].
      destruct (Htot (Offset p) (Offset q)) as [Hle|Hle]; [apply Hleb in Hle; congruence|].
      etrans; [exact Hle|auto].
  - split; [by apply HQ; right|]. intros r [Hr| ->]%HQ; [by apply Ho in Hr|auto].
Qed.

Lemma extremal_ext le P Q o : (forall p, P p <-> Q p) -> extremal le P o -> extremal le Q o.
Proof.
  intros Hpq. destruct o as [p|]; simpl; [intros [? Hm]|intros Hn q Hq; by eapply Hn, Hpq].
  split; [by apply Hpq|]. intros q Hq. by apply Hm, Hpq.
Qed.

Lemma commit_step_inv ms m maps : commit_inv ms maps -> commit_inv (ms ++ [m]) (commit_step maps m).
Proof.
  intros Hinv k. destruct (Hinv k) as [Hp Hq].
  destruct m as [md|]; [|destruct maps; split; (eapply extremal_ext; [|eassumption]); intros p;
    rewrite with_key_snoc; split; [by left|intros [|(? & [=] & _)]; done|by left|intros [|(? & [=] & _)]; done]].
  destruct maps as [pending processed]. unfold commit_step. simpl in Hp, Hq.
  assert (Hsnoc : forall b, (Processed md = b /\ key_of (kafkaPosition md) = k ->
      forall p, with_key k (ms ++ [Some md]) b p <-> with_key k ms b p \/ p = kafkaPosition md) /\
    (~ (Processed md = b /\ key_of (kafkaPosition md) = k) ->
      forall p, with_key k ms b p <-> with_key k (ms ++ [Some md]) b p)).
  { intros b. split.
    - intros [Hb Hk] p. rewrite with_key_snoc. split; [intros [|(? & [= <-] & ? & ? & ?)]; auto|].
      intros [| ->]; [by left|right; eauto].
    - intros Hn p. rewrite with_key_snoc. split; [by left|]. intros [|(? & [= <-] & ? & <- & ?)]; [done|].
      destruct Hn; auto. }
  destruct (Processed md) eqn:Epr; simpl.
  - assert (Hp' : extremal Z.le (with_key k (ms ++ [Some md]) false) (pending !! k)).
    { eapply extremal_ext; [|exact Hp]. apply (Hsnoc false). intros [? _]; done. }
    destruct (decide (key_of (kafkaPosition md) = k)) as [Ek|Ek].
    + pose proof (extremal_snoc Z.ge (fun a b => (b <=? a)%Z) _ _ _ _ ltac:(intros; rewrite Z.leb_le; lia)
        ltac:(intros; lia) ltac:(intros ???; lia) (proj1 (Hsnoc true) (conj eq_refl Ek)) Hq) as Hx.
      rewrite Ek. destruct (processed !! k) as [hi|] eqn:Eh; simpl in Hx.
      * destruct (_ <=? _)%Z; simpl; (split; [done|]); [by rewrite Eh|by rewrite lookup_insert_eq].
      * simpl. split; [done|]. by rewrite lookup_insert_eq.
    + assert (Hq' : extremal Z.ge (with_key k (ms ++ [Some md]) true) (processed !! k)).
      { eapply extremal_ext; [|exact Hq]. apply (Hsnoc true). intros [_ ?]; done. }
      destruct (processed !! key_of (kafkaPosition md)); [destruct (_ <=? _)%Z|]; simpl; (split; [done|]);
        rewrite ?lookup_insert_ne by done; done.
  - assert (Hq' : extremal Z.ge (with_key k (ms ++ [Some md]) true) (processed !! k)).
    { eapply extremal_ext; [|exact Hq]. apply (Hsnoc true). intros [? _]; done. }
    destruct (decide (key_of (kafkaPosition md) = k)) as [Ek|Ek].
    + pose proof (extremal_snoc Z.le Z.leb _ _ _ _ Z.leb_le
        ltac:(intros; lia) ltac:(intros ???; lia) (proj1 (Hsnoc false) (conj eq_refl Ek)) Hp) as Hx.
      rewrite Ek. destruct (pending !! k) as [lo|] eqn:El; simpl in Hx.
      * destruct (_ <=? _)%Z; simpl; (split; [|done]); [by rewrite El|by rewrite lookup_insert_eq].
      * simpl. split; [|done]. by rewrite lookup_insert_eq.
    + assert (Hp' : extremal Z.le (with_key k (ms ++ [Some md]) false) (pending !! k)).
      { eapply extremal_ext; [|exact Hp]. apply (Hsnoc false). intros [_ ?]; done. }
      destruct (pending !! key_of (kafkaPosition md)); [destruct (_ <=? _)%Z|]; simpl; (split; [|done]);
        rewrite ?lookup_insert_ne by done; done.
Qed.

Lemma commit_fold_inv ms : commit_inv ms (fold_left commit_step ms (∅, ∅)).
Proof.
  induction ms as [|m ms IH] using rev_ind.
  - intros k. simpl. rewrite !lookup_empty. split; intros q (md & Hin & _); by apply not_elem_of_nil in Hin.
  - rewrite fold_left_app. by apply commit_step_inv.
Qed.

Lemma metadataToCommit_lookup ms k :
  metadataToCommit ms !! k =
  match (fold_left commit_step ms (∅, ∅)).1 !! k with
  | Some p => Some p
  | None => next_position <$> (fold_left commit_step ms (∅, ∅)).2 !! k
  end.
Proof.
  unfold metadataToCommit. destruct (fold_left commit_step ms (∅, ∅)) as [pending processed]. simpl.
  rewrite lookup_union, lookup_fmap.
  by destruct (pending !! k), (processed !! k).
Qed.

(** C17: for every topic and partition, the committed position is the one of the
    pending event with the lowest offset when there is a pending event, the one
    after the processed event with the highest offset otherwise, and there is
    none exactly when there is no event. *)
Theorem metadataToCommit_spec ms k :
  match metadataToCommit ms !! k with
  | Some p =>
      (with_key k ms false p /\ forall q, with_key k ms false q -> (Offset p <= Offset q)%Z) \/
      ((forall q, ~ with_key k ms false q) /\
       exists h, with_key k ms true h /\ p = next_position h /\
         forall q, with_key k ms true q -> (Offset q <= Offset h)%Z)
  | None => forall b q, ~ with_key k ms b q
  end.
Proof.
  destruct (commit_fold_inv ms k) as [Hp Hq]. rewrite metadataToCommit_lookup.
  destruct ((fold_left commit_step ms (∅, ∅)).1 !! k) as [p|]; simpl in Hp; [by left|].
  destruct ((fold_left commit_step ms (∅, ∅)).2 !! k) as [h|]; simpl in *.
  - right. split; [done|]. exists h. destruct Hq as [Hh Hmax]. split; [done|]. split; [done|].
    intros q Hwq. specialize (Hmax _ Hwq). lia.
  - intros [] q; auto.
Qed.

Definition sample_md (processed : bool) (topic : string) (offset : Z) : ThresholdMetadata :=
  MkMetadata (if processed then 0 else 3) 0 (MkPosition "" topic 0 offset) "" None None.

(** *** The database *)
Lemma collect_transports_rows ts : forall k rows k',
  collect_transports k ts = (rows, k') ->
  (forall r, r ∈ rows -> exists key p, (key, p) ∈ ts /\
     r = MkTransport (Topic p) (OwnerIdentity p) (Partition p) (Offset p)) /\
  (forall key o, committedPositions k !! key = Some o ->
     exists o', committedPositions k' !! key = Some o' /\ (o <= o')%Z) /\
  (forall key p, (key, p) ∈ ts -> exists o, committedPositions k' !! key = Some o /\ (Offset p <= o)%Z).
Proof.
  induction ts as [|[key p] ts IH]; intros k rows k' E; simpl in E.
  { injection E as <- <-. split_and!; [by intros r Hr%not_elem_of_nil|intros ? o ?; exists o; split; [done|lia]|].
    by intros ? ? Hin%not_elem_of_nil. }
  destruct (match committedPositions k !! key with Some o => (Offset p <=? o)%Z | None => false end) eqn:Ec.
  - destruct (IH _ _ _ E) as (Hr & Hm & Ht). split_and!; [|done|].
    + intros r Hin. destruct (Hr _ Hin) as (key' & p' & ? & ?). exists key', p'. split; [by right|done].
    + intros key' p' [[= -> ->]|Hin]%elem_of_cons; [|auto].
      destruct (committedPositions k !! key) as [o|] eqn:Eo; [|done].
      apply Z.leb_le in Ec. destruct (Hm _ _ Eo) as (o' & ? & ?). exists o'. split; [done|lia].
  - destruct (collect_transports _ ts) as [rows0 k0] eqn:E0. injection E as <- <-.
    destruct (IH _ _ _ E0) as (Hr & Hm & Ht). simpl in Hm.
    assert (Hkey : exists o', committedPositions k0 !! key = Some o' /\ (Offset p <= o')%Z)
      by (apply Hm; by rewrite lookup_insert_eq).
    split_and!.
    + intros r [->|Hin]%elem_of_cons; [exists key, p; split; [by left|done]|].
      destruct (Hr _ Hin) as (key' & p' & ? & ?). exists key', p'. split; [by right|done].
    + intros key' o Ho. destruct (decide (key' = key)) as [->|].
      * destruct Hkey as (o' & ? & ?). exists o'. split; [done|]. rewrite Ho in Ec. apply Z.leb_gt in Ec. lia.
      * apply Hm. by rewrite lookup_insert_ne.
    + intros key' p' [[= -> ->]|Hin]%elem_of_cons; auto.
Qed.

Lemma collect_transports_done ts : forall k,
  (forall key p, (key, p) ∈ ts -> exists o, committedPositions k !! key = Some o /\ (Offset p <= o)%Z) ->
  collect_transports k ts = ([], k).
Proof.
  induction ts as [|[key p] ts IH]; intros k Hk; simpl; [done|].
  destruct (Hk key p) as (o & -> & Ho); [by left|]. rewrite (proj2 (Z.leb_le _ _) Ho).
  apply IH. intros; apply Hk. by right.
Qed.

(** The positions are recorded as committed before they are written: when
    the lock or the write fails, the next round with the same events writes
    nothing and reports no error. *)
Theorem failed_commit_is_not_retried k ms e k1 rows :
  commit k ms (Some e) None = (Some e, k1, rows) \/ commit k ms None (Some e) = (Some e, k1, rows) ->
  rows = [] /\ commit k1 ms None None = (None, k1, []).
Proof.
  unfold commit. destruct (collect_transports k (map_to_list (metadataToCommit ms))) as [ts k'] eqn:E.
  intros Hc. assert (Hk : k1 = k' /\ rows = []).
  { destruct Hc as [[= <- <-]|Hc]; [done|]. by destruct ts; injection Hc; auto. }
  destruct Hk as [-> ->]. split; [done|].
  destruct (collect_transports_rows _ _ _ _ E) as (_ & _ & Ht). by rewrite (collect_transports_done _ _ Ht).
Qed.

Lemma failed_commit_is_not_retried_witness :
  let ms := Some <$> [sample_md true "topic1" 5] in
  let k1 := (commit NewKafkaConflationCommitter ms None (Some "timeout")).1.2 in
  commit k1 ms None None = (None, k1, []).
Proof.
  intros ms k1. apply (failed_commit_is_not_retried NewKafkaConflationCommitter ms "timeout" k1 []).
  right. vm_compute. reflexivity.
Defined.

(** The positions of the events the manager receives are stored with the
    owner [TransportID], which is empty, so that [getInitOffset] selects none
    of them, whatever the cluster. *)
Theorem committed_positions_are_not_restored {Event : Type} `{EventSDK Event} k ms lock_err write_err cluster :
  (forall md, Some md ∈ ms -> exists evt : Event, kafkaPosition md = position_of_event TransportID evt) ->
  getInitOffset cluster (commit k ms lock_err write_err).2 = [].
Proof.
  intros Hms. unfold commit.
  destruct (collect_transports k (map_to_list (metadataToCommit ms))) as [ts k'] eqn:E.
  destruct (collect_transports_rows _ _ _ _ E) as (Hr & _).
  assert (Hown : forall b key p, with_key key ms b p -> OwnerIdentity p = "").
  { intros b key p (md & Hin & _ & <- & _). destruct (Hms _ Hin) as (evt & ->).
    unfold position_of_event. simpl. by destruct (ParseInt _). }
  assert (Hts : forall r, r ∈ ts -> tr_Owner r = "").
  { intros r Hin. destruct (Hr _ Hin) as (key & p & Hp%elem_of_map_to_list & ->). simpl.
    pose proof (metadataToCommit_spec ms key) as Hs. rewrite Hp in Hs.
    destruct Hs as [[Hw _]|[_ (hi & Hw & -> & _)]]; simpl; by eapply Hown. }
  assert (Hnil : getInitOffset cluster ts = []).
  { unfold getInitOffset. destruct (filter _ ts) as [|r l] eqn:Ef; [done|].
    assert (Hin : r ∈ r :: l) by left. rewrite <- Ef in Hin.
    apply list_elem_of_filter in Hin as [(_ & Hne & _) Hin]. by rewrite (Hts _ Hin) in Hne. }
  destruct lock_err; [done|]. destruct ts; [done|]. by destruct write_err.
Qed.

Definition sample_received : PlainEvent :=
  MkPlainEvent "id" "t" "hub1" []
    {["kafkatopic" := ExtString "status.hub1"; "kafkapartition" := ExtInt 0; "kafkaoffset" := ExtString "41"]}.

Lemma committed_positions_are_not_restored_witness :
  let ms := [Some (MkMetadata 0 0 (position_of_event TransportID sample_received) "t" None None)] in
  (commit NewKafkaConflationCommitter ms None None).2 = [MkTransport "status.hub1" "" 0 42] /\
  getInitOffset "kafka-cluster" (commit NewKafkaConflationCommitter ms None None).2 = [].
Proof.
  intros ms. split; [vm_compute; reflexivity|].
  apply (committed_positions_are_not_restored NewKafkaConflationCommitter ms None None "kafka-cluster").
  intros md [Hin|Hin]%elem_of_cons; [|by apply not_elem_of_nil in Hin].
  injection Hin as ->. exists sample_received. reflexivity.
Defined.

(** *** Delta events *)

(** The metadata the committer reads: those of the units, through the store. *)
Definition retrieve (s : System PlainEvent string) : list (option ThresholdMetadata) :=
  match GetMetadatas (sys_cm s) with
  | Ret ms => (fun m => metas (sys_heap s) !! m) <$> ms
  | _ => []
  end.

Definition delta_regs : list (ConflationRegistration string) :=
  [NewConflationRegistration 0 DeltaStateMode "delta" "handleDelta"].

Definition delta_event (ver offset : string) : PlainEvent :=
  MkPlainEvent "id" "delta" "hub1" []
    {[ExtVersion := ExtString ver; "kafkatopic" := ExtString "status.hub1";
      "kafkapartition" := ExtInt 0; "kafkaoffset" := ExtString offset]}.

(** Two delta events are dispatched; the worker of the second one is faster. *)
Definition delta_run : System PlainEvent string :=
  match run 5 [ARecv (delta_event "1.1" "10"); ARecv (delta_event "1.2" "11");
               ATakeDelta; ARun; ATakeDelta; ARun; ALock 1 true; AAttempt 1 false; AReport 1]
          (init delta_regs) with
  | Ret s => s
  | _ => init delta_regs
  end.

(** A delta element only keeps the metadata of its latest event: with an
    earlier delta event still in flight, the position committed is the one
    after the later event, so the earlier event is not read again after a
    restart. *)
Theorem delta_in_flight_offset_is_skipped :
  ((fun j => (fun md => (Processed md, Offset (kafkaPosition md))) <$> (metas (sys_heap delta_run) !! job_Metadata j))
     <$> in_flight delta_run) = [Some (false, 10%Z)] /\
  (Offset <$> metadataToCommit (retrieve delta_run) !! "status.hub1@0") = Some 12%Z.
Proof. vm_compute. done. Qed.
