(* ===== verification/Handlers.v ===== *)
(** * Registration of the status handlers

    [conflation_priority.go] and the functions that
    register the handlers ([manager/pkg/status/handlers]). A unit created from
    the registered set has an element at every priority, in whatever order the
    map of registrations is ranged over. *)

From stdpp Require Import prelude gmap strings list.
From Stdlib Require Import ZArith Lia.
From S2P Require Import Prelude.
From S2P Require Import GoLib.
From S2P Require Import EventTypes.
From S2P Require Import Version.
From S2P Require Import CloudEvents.
From S2P Require Import Metadata.
From S2P Require Import Conflation.
From S2P Require Import ConflationFacts.
From S2P Require Import ConflationProgress.
Local Open Scope string_scope.
Local Open Scope list_scope.

(** ** Priorities: the constants of an [iota] *)
Definition HubClusterHeartbeatPriority : nat := 0.
Definition HubClusterInfoPriority : nat := 1.
Definition ManagedClustersPriority : nat := 2.
Definition ManagedClusterEventPriority : nat := 3.
Definition LocalPolicySpecPriority : nat := 4.
Definition LocalCompliancePriority : nat := 5.
Definition LocalCompleteCompliancePriority : nat := 6.
Definition LocalEventRootPolicyPriority : nat := 7.
Definition LocalReplicatedPolicyEventPriority : nat := 8.
Definition LocalPlacementRulesSpecPriority : nat := 9.
Definition SecurityAlertCountsPriority : nat := 10.
Definition KlusterletAddonConfigPriority : nat := 11.
Definition CompliancePriority : nat := 12.
Definition CompleteCompliancePriority : nat := 13.
Definition DeltaCompliancePriority : nat := 14.
Definition MinimalCompliancePriority : nat := 15.
Definition PlacementRulePriority : nat := 16.
Definition PlacementPriority : nat := 17.
Definition PlacementDecisionPriority : nat := 18.
Definition SubscriptionStatusPriority : nat := 19.
Definition SubscriptionReportPriority : nat := 20.

(** ** Registrations *)

(** The handler functions, by name; the table is the one of a generic handler. *)
Inductive HandlerFunc :=
| handleHeartbeatEvent
| hubClusterInfo_handleEvent
| managedCluster_handleEvent
| managedClusterEvent_handleEvent
| handleKlusterletAddonConfigEvent
| localPolicySpec_handleEvent
| localCompliance_handleEvent
| localComplete_handleEvent
| localRootPolicyEvent_handleEvent
| localReplicatedPolicyEvent_handleEvent
| securityAlertCounts_handleEvent
| policyCompliance_handleEvent
| policyComplete_handleEvent
| policyDelta_handleEvent
| policyMini_handleEvent
| generic_insertUpdate (table : string).

Section Register.
Context {Event : Type} `{EventSDK Event}.
Local Notation Manager := (ConflationManager Event HandlerFunc).
Implicit Types cm : Manager.

Definition RegisterHubClusterHeartbeatHandler cm : Manager :=
  Register cm (NewConflationRegistration HubClusterHeartbeatPriority CompleteStateMode HubClusterHeartbeatType handleHeartbeatEvent).

Definition RegsiterHubClusterInfoHandler cm : Manager :=
  Register cm (NewConflationRegistration HubClusterInfoPriority CompleteStateMode HubClusterInfoType hubClusterInfo_handleEvent).

Definition RegisterManagedClusterHandler cm : Manager :=
  Register cm (NewConflationRegistration ManagedClustersPriority CompleteStateMode ManagedClusterType managedCluster_handleEvent).

Definition RegisterManagedClusterEventHandler cm : Manager :=
  Register cm (NewConflationRegistration ManagedClusterEventPriority DeltaStateMode ManagedClusterEventType managedClusterEvent_handleEvent).

Definition RegisterKlusterletAddonConfigHandler cm : Manager :=
  Register cm (NewConflationRegistration KlusterletAddonConfigPriority CompleteStateMode KlusterletAddonConfigType handleKlusterletAddonConfigEvent).

Definition RegisterLocalPolicySpecHandler cm : Manager :=
  Register cm (NewConflationRegistration LocalPolicySpecPriority CompleteStateMode LocalPolicySpecType localPolicySpec_handleEvent).

Definition RegisterLocalPolicyComplianceHandler cm : Manager :=
  Register cm (NewConflationRegistration LocalCompliancePriority CompleteStateMode LocalComplianceType localCompliance_handleEvent).

Definition RegisterLocalPolicyCompleteHandler cm : Manager :=
  Register cm (WithDependency (NewConflationRegistration LocalCompleteCompliancePriority CompleteStateMode LocalCompleteComplianceType localComplete_handleEvent)
    (Some (NewDependency LocalComplianceType ExactMatch))).

Definition RegisterLocalRootPolicyEventHandler cm : Manager :=
  Register cm (NewConflationRegistration LocalEventRootPolicyPriority DeltaStateMode LocalRootPolicyEventType localRootPolicyEvent_handleEvent).

Definition RegisterLocalReplicatedPolicyEventHandler cm : Manager :=
  Register cm (NewConflationRegistration LocalReplicatedPolicyEventPriority DeltaStateMode LocalReplicatedPolicyEventType localReplicatedPolicyEvent_handleEvent).

Definition RegisterSecurityAlertCountsHandler cm : Manager :=
  Register cm (NewConflationRegistration SecurityAlertCountsPriority CompleteStateMode SecurityAlertCountsType securityAlertCounts_handleEvent).

Definition RegisterPolicyComplianceHandler cm : Manager :=
  Register cm (NewConflationRegistration CompliancePriority CompleteStateMode ComplianceType policyCompliance_handleEvent).

Definition RegisterPolicyCompleteHandler cm : Manager :=
  Register cm (WithDependency (NewConflationRegistration CompleteCompliancePriority CompleteStateMode CompleteComplianceType policyComplete_handleEvent)
    (Some (NewDependency ComplianceType ExactMatch))).

Definition RegisterPolicyDeltaComplianceHandler cm : Manager :=
  Register cm (WithDependency (NewConflationRegistration DeltaCompliancePriority DeltaStateMode DeltaComplianceType policyDelta_handleEvent)
    (Some (NewDependency CompleteComplianceType ExactMatch))).

Definition RegisterPolicyMiniComplianceHandler cm : Manager :=
  Register cm (NewConflationRegistration MinimalCompliancePriority CompleteStateMode MiniComplianceType policyMini_handleEvent).

Definition RegisterGenericHandler cm (eventType : string) (priority : nat) (syncMode : EventSyncMode)
    (table : string) : Manager :=
  Register cm (NewConflationRegistration priority syncMode eventType (generic_insertUpdate table)).

Definition RegisterHandlers cm (enableGlobalResource : bool) : Manager :=
  let cm := RegisterHubClusterHeartbeatHandler cm in
  let cm := RegsiterHubClusterInfoHandler cm in
  let cm := RegisterManagedClusterHandler cm in
  let cm := RegisterManagedClusterEventHandler cm in
  let cm := RegisterKlusterletAddonConfigHandler cm in
  let cm := RegisterLocalPolicySpecHandler cm in
  let cm := RegisterLocalPolicyComplianceHandler cm in
  let cm := RegisterLocalPolicyCompleteHandler cm in
  let cm := RegisterLocalRootPolicyEventHandler cm in
  let cm := RegisterLocalReplicatedPolicyEventHandler cm in
  let cm := RegisterGenericHandler cm LocalPlacementRuleSpecType LocalPlacementRulesSpecPriority
              CompleteStateMode "local_spec.placementrules" in
  let cm := RegisterSecurityAlertCountsHandler cm in
  if enableGlobalResource then
    let cm := RegisterPolicyComplianceHandler cm in
    let cm := RegisterPolicyCompleteHandler cm in
    let cm := RegisterPolicyDeltaComplianceHandler cm in
    let cm := RegisterPolicyMiniComplianceHandler cm in
    let cm := RegisterGenericHandler cm PlacementRuleSpecType PlacementRulePriority CompleteStateMode
                "status.placementrules" in
    let cm := RegisterGenericHandler cm PlacementSpecType PlacementPriority CompleteStateMode
                "status.placements" in
    let cm := RegisterGenericHandler cm PlacementDecisionType PlacementDecisionPriority CompleteStateMode
                "status.placementdecisions" in
    let cm := RegisterGenericHandler cm SubscriptionReportType SubscriptionReportPriority CompleteStateMode
                "status.subscription_reports" in
    RegisterGenericHandler cm SubscriptionStatusType SubscriptionStatusPriority CompleteStateMode
      "status.subscription_statuses"
  else cm.

(** ** The units created from the registrations *)

(** The element made for a registration. *)
Definition made_for (r : ConflationRegistration HandlerFunc) (el : ConflationElement Event HandlerFunc) : Prop :=
  match el with
  | Complete c => reg_syncMode r = CompleteStateMode /\ ce_eventType c = reg_eventType r /\
      ce_syncMode c = reg_syncMode r /\
      ce_handlerFunction c = reg_handleFunc r /\ ce_dependency c = reg_dependency r /\
      ce_isInProcess c = false /\ ce_event c = None /\ ce_metadata c = None
  | Delta d => reg_syncMode r = DeltaStateMode /\ de_eventType d = reg_eventType r /\
      de_syncMode d = reg_syncMode r /\
      de_handlerFunction d = reg_handleFunc r /\ de_dependency d = reg_dependency r /\
      de_isInProcess d = false /\ de_metadata d = None
  end.

Definition slot_of (cu : ConflationUnit Event HandlerFunc) (r : ConflationRegistration HandlerFunc) : Prop :=
  eventTypeToPriority cu !! reg_eventType r = Some (reg_priority r) /\
  exists el, ElementPriorityQueue cu !! reg_priority r = Some (Some el) /\ made_for r el.

Lemma add_registration_slot r (cu : ConflationUnit Event HandlerFunc) h :
  reg_priority r < length (ElementPriorityQueue cu) ->
  exists el h', add_registration r cu h =
    Ret (MkUnit (cu_name cu) (<[reg_priority r := Some el]> (ElementPriorityQueue cu))
           (<[reg_eventType r := reg_priority r]> (eventTypeToPriority cu)) (isInReadyQueue cu), h') /\
    made_for r el.
Proof.
  intros Hlt. unfold add_registration, NewCompleteElement, NewDeltaElement, update_slot.
  destruct (alloc_version NewVersion h) as [l h'] eqn:Ea.
  destruct (reg_syncMode r) eqn:Em; rewrite slice_set_lt by done; simpl;
    eexists _, h'; (split; [done|]); unfold made_for; simpl; rewrite Em; done.
Qed.

Lemma add_registrations_slots rs : forall (cu : ConflationUnit Event HandlerFunc) h,
  Forall (fun r => reg_priority r < length (ElementPriorityQueue cu)) rs ->
  NoDup (reg_priority <$> rs) -> NoDup (reg_eventType <$> rs) ->
  exists cu' h', add_registrations rs cu h = Ret (cu', h') /\ cu_name cu' = cu_name cu /\
    isInReadyQueue cu' = isInReadyQueue cu /\
    length (ElementPriorityQueue cu') = length (ElementPriorityQueue cu) /\
    (forall r, r ∈ rs -> slot_of cu' r) /\
    (forall i, i ∉ reg_priority <$> rs -> ElementPriorityQueue cu' !! i = ElementPriorityQueue cu !! i) /\
    (forall t, t ∉ reg_eventType <$> rs -> eventTypeToPriority cu' !! t = eventTypeToPriority cu !! t).
Proof.
  induction rs as [|r rs IH]; intros cu h Hlt Hp Ht; simpl.
  { exists cu, h. split_and!; try done. by intros r Hr%not_elem_of_nil. }
  apply Forall_cons in Hlt as [Hr Hlt].
  simpl in Hp, Ht. apply NoDup_cons in Hp as [Hpr Hp]. apply NoDup_cons in Ht as [Htr Ht].
  destruct (add_registration_slot r cu h Hr) as (el & h1 & -> & Hel). simpl.
  match goal with |- context [add_registrations rs ?cu1 h1] =>
    destruct (IH cu1 h1) as (cu' & h' & E & Hn & Hf & Hlen & Hs & Hq & Hm) end; [|done..|].
  { simpl. by rewrite length_insert. }
  simpl in *. rewrite length_insert in Hlen.
  exists cu', h'. split_and!; try done.
  - intros r' [->|Hr']%elem_of_cons; [|auto]. split.
    + rewrite Hm by done. by rewrite lookup_insert_eq.
    + exists el. rewrite Hq by done. by rewrite list_lookup_insert_eq.
  - intros i [Hi1 Hi2]%not_elem_of_cons. rewrite Hq by done. by rewrite list_lookup_insert_ne.
  - intros t [Ht1 Ht2]%not_elem_of_cons. rewrite Hm by done. by rewrite lookup_insert_ne.
Qed.

(** Registrations whose priorities are the indices of a unit, each once. *)
Record well_registered (rs : list (ConflationRegistration HandlerFunc)) : Prop := {
  wr_priorities : reg_priority <$> rs ≡ₚ seq 0 (length rs);
  wr_types : NoDup (reg_eventType <$> rs);
  wr_dependencies : forall r d, r ∈ rs -> reg_dependency r = Some d ->
    exists r', r' ∈ rs /\ reg_eventType r' = dep_EventType d /\
      reg_syncMode r' = CompleteStateMode /\ reg_priority r' < reg_priority r;
}.

Lemma well_registered_unit rs name h :
  well_registered rs ->
  exists cu h', newConflationUnit (Event := Event) name rs h = Ret (cu, h') /\
    length (ElementPriorityQueue cu) = length rs /\ Forall is_Some (ElementPriorityQueue cu) /\
    (forall r, r ∈ rs -> slot_of cu r) /\ chain_ok cu.
Proof.
  intros [Hp Ht Hd]. unfold newConflationUnit.
  set (cu0 := MkUnit name (replicate (length rs) None) ∅ false).
  destruct (add_registrations_slots rs cu0 h) as (cu & h' & E & _ & _ & Hlen & Hs & _).
  - apply Forall_forall. intros r Hr. simpl. rewrite length_replicate.
    assert (Hin : reg_priority r ∈ reg_priority <$> rs) by (apply list_elem_of_fmap; eauto).
    rewrite Hp, elem_of_seq in Hin. lia.
  - rewrite Hp. apply NoDup_seq.
  - done.
  - simpl in Hlen. rewrite length_replicate in Hlen.
    assert (Hall : forall i, i < length rs -> exists r, r ∈ rs /\ reg_priority r = i).
    { intros i Hi. assert (Hin : i ∈ reg_priority <$> rs) by (rewrite Hp; apply elem_of_seq; lia).
      apply list_elem_of_fmap in Hin as (r & -> & ?). eauto. }
    exists cu, h'. split_and!; try done.
    + apply Forall_lookup_2. intros i s Hi. destruct (Hall i) as (r & Hr & <-).
      { apply lookup_lt_Some in Hi. lia. }
      destruct (Hs _ Hr) as (_ & el & Hel & _). rewrite Hel in Hi. by injection Hi as <-.
    + intros i c d Hi Hc. destruct (Hall i) as (r & Hr & <-); [apply lookup_lt_Some in Hi; lia|].
      destruct (Hs _ Hr) as (_ & el & Hel & Hm). rewrite Hel in Hi. injection Hi as ->.
      destruct Hm as (_ & _ & _ & _ & Hdep & _). rewrite Hdep in Hc.
      destruct (Hd _ _ Hr Hc) as (r' & Hr' & Ety & _ & Hlt).
      unfold priority_of. destruct (Hs _ Hr') as [Hm' _]. rewrite <- Ety, Hm'. done.
Qed.

(** A decision procedure, for the sets of registrations of the program. *)
Definition well_registeredb (rs : list (ConflationRegistration HandlerFunc)) : bool :=
  bool_decide (reg_priority <$> rs ≡ₚ seq 0 (length rs)) && bool_decide (NoDup (reg_eventType <$> rs)) &&
  forallb (fun r => match reg_dependency r with
    | None => true
    | Some d => existsb (fun r' => bool_decide (reg_eventType r' = dep_EventType d) &&
        bool_decide (reg_syncMode r' = CompleteStateMode) && (reg_priority r' <? reg_priority r)%nat) rs
    end) rs.

Lemma well_registeredb_ok rs : well_registeredb rs = true -> well_registered rs.
Proof.
  unfold well_registeredb. rewrite !andb_true_iff, !bool_decide_eq_true, forallb_elem_of.
  intros [[Hp Ht] Hd]. split; [done..|]. intros r d Hr Er. specialize (Hd _ Hr). rewrite Er in Hd.
  apply existsb_exists in Hd as (r' & Hin & Hb). rewrite !andb_true_iff, !bool_decide_eq_true in Hb.
  destruct Hb as [[? ?] Hlt]. exists r'. apply Nat.ltb_lt in Hlt. by rewrite list_elem_of_In.
Qed.

Lemma well_registered_perm rs rs' : rs ≡ₚ rs' -> well_registered rs -> well_registered rs'.
Proof.
  intros Hperm [Hp Ht Hd]. split.
  - rewrite <- Hperm, Hp. by rewrite (Permutation_length Hperm).
  - by rewrite <- Hperm.
  - intros r d Hr Er. rewrite <- Hperm in Hr. destruct (Hd _ _ Hr Er) as (r' & Hr' & ?).
    exists r'. by rewrite <- Hperm.
Qed.

(** With or without the global resources, the registered handlers have the
    priorities 0, 1, ... each once, so that a unit created for a hub has, in
    whatever order the map of registrations is ranged over, no missing
    element, each event type at its own priority with its own handler and
    dependency, and every dependency before the elements that depend on it. *)
Theorem registered_unit_is_complete (enableGlobalResource : bool) name h rs :
  rs ≡ₚ (map_to_list (registrations (RegisterHandlers NewConflationManager enableGlobalResource))).*2 ->
  exists cu h', newConflationUnit (Event := Event) name rs h = Ret (cu, h') /\
    length (ElementPriorityQueue cu) = (if enableGlobalResource then 21 else 12) /\
    Forall is_Some (ElementPriorityQueue cu) /\ (forall r, r ∈ rs -> slot_of cu r) /\ chain_ok cu.
Proof.
  intros Hrs.
  assert (Hw : well_registered rs).
  { eapply well_registered_perm; [symmetry; exact Hrs|]. apply well_registeredb_ok.
    destruct enableGlobalResource; vm_compute; reflexivity. }
  destruct (well_registered_unit rs name h Hw) as (cu & h' & E & Hlen & ?).
  exists cu, h'. split; [done|]. split; [|done]. rewrite Hlen, (Permutation_length Hrs).
  destruct enableGlobalResource; vm_compute; reflexivity.
Qed.
End Register.

Lemma registered_unit_is_complete_witness :
  exists cu h', newConflationUnit (Event := PlainEvent) "hub1"
      (reverse (map_to_list (registrations (RegisterHandlers (Event := PlainEvent) NewConflationManager true))).*2)
      empty_heap = Ret (cu, h') /\ length (ElementPriorityQueue cu) = 21.
Proof.
  destruct (registered_unit_is_complete (Event := PlainEvent) true "hub1" empty_heap
    (reverse (map_to_list (registrations (RegisterHandlers (Event := PlainEvent) NewConflationManager true))).*2))
    as (cu & h' & E & Hlen & _).
  - apply reverse_Permutation.
  - exists cu, h'. split; [exact E|exact Hlen].
Defined.
