(* ===== verification/KubeObjects.v ===== *)
(** * Kubernetes objects and the client

    The objects the agent's syncers receive, with the fields the code reads or
    writes, the store of the objects and versions that are shared through
    pointers, the client of the API server as an interface, and the helpers of
    [pkg/utils]. *)

From stdpp Require Import prelude gmap strings list.
From Stdlib Require Import ZArith Lia Ascii.
From S2P Require Import Prelude.
From S2P Require Import GoLib.
From S2P Require Import Version.
From S2P Require Import CloudEvents.
Local Open Scope string_scope.
Local Open Scope list_scope.

(** ** Objects; a time is a number of nanoseconds *)
Record CompliancePerClusterStatus := MkClusterStatus { ClusterName : string; ComplianceState : string }.
Record ComplianceHistory := MkHistory { hist_LastTimestamp : Z; hist_Message : string; hist_EventName : string }.
Record DetailsPerTemplate := MkDetail { det_ComplianceState : string; det_History : option (list ComplianceHistory) }.

(** The status of a policy; [None] is a nil slice. *)
Record PolicyStatus := MkPolicyStatus {
  ps_Status : option (list CompliancePerClusterStatus);
  ps_ComplianceState : string;
  ps_Details : option (list DetailsPerTemplate);
}.
Definition empty_status : PolicyStatus := MkPolicyStatus None "" None.

Record EventSeries := MkSeries { ser_Count : Z; ser_LastObservedTime : Z }.

Record CoreEvent := MkCoreEvent {
  inv_Kind : string;
  inv_Namespace : string;
  inv_Name : string;
  ev_Message : string;
  ev_Reason : string;
  ev_Count : Z;
  ev_Source : string;
  ev_LastTimestamp : option Z;     (** [None] is the zero time *)
  ev_Series : option EventSeries;
  ev_ReportingController : string;
  ev_ReportingInstance : string;
  ev_Type : string;
}.

(** The dynamic types the code tells apart. *)
Inductive body :=
| BPolicy (status : PolicyStatus)
| BEvent (e : CoreEvent)
| BCluster (claims : list (string * string))
| BOther.

Record Object := MkObject {
  UID : string;
  Namespace : string;
  Name : string;
  Generation_ : Z;
  ResourceVersion : string;
  CreationTimestamp : Z;
  DeletionTimestamp : option Z;    (** [None] is the zero time *)
  Labels : gmap string string;
  Annotations : gmap string string;
  Finalizers : list string;
  OwnerReferences : list string;
  ManagedFields : list string;
  SelfLink : string;
  obj_body : body;
}.

Definition set_body (o : Object) (b : body) : Object :=
  MkObject (UID o) (Namespace o) (Name o) (Generation_ o) (ResourceVersion o) (CreationTimestamp o)
    (DeletionTimestamp o) (Labels o) (Annotations o) (Finalizers o) (OwnerReferences o) (ManagedFields o)
    (SelfLink o) b.
Definition set_labels (o : Object) (l : gmap string string) : Object :=
  MkObject (UID o) (Namespace o) (Name o) (Generation_ o) (ResourceVersion o) (CreationTimestamp o)
    (DeletionTimestamp o) l (Annotations o) (Finalizers o) (OwnerReferences o) (ManagedFields o)
    (SelfLink o) (obj_body o).
Definition set_finalizers (o : Object) (fs : list string) : Object :=
  MkObject (UID o) (Namespace o) (Name o) (Generation_ o) (ResourceVersion o) (CreationTimestamp o)
    (DeletionTimestamp o) (Labels o) (Annotations o) fs (OwnerReferences o) (ManagedFields o)
    (SelfLink o) (obj_body o).
Definition set_key (o : Object) (ns name : string) : Object :=
  MkObject (UID o) ns name (Generation_ o) (ResourceVersion o) (CreationTimestamp o)
    (DeletionTimestamp o) (Labels o) (Annotations o) (Finalizers o) (OwnerReferences o) (ManagedFields o)
    (SelfLink o) (obj_body o).

(** [cleanObject] of [multi_object_syncer.go]. *)
Definition cleanObject (o : Object) : Object :=
  MkObject (UID o) (Namespace o) (Name o) (Generation_ o) (ResourceVersion o) (CreationTimestamp o)
    (DeletionTimestamp o) (Labels o) (Annotations o) [] [] [] "" (obj_body o).

(** The object returned by [Instance()] of a controller: all fields zero. *)
Definition zero_object (b : body) : Object :=
  MkObject "" "" "" 0 "" 0 None ∅ ∅ [] [] [] "" b.

(** ** Constants *)
Definition GlobalHubGlobalResourceLabel : string := "global-hub.open-cluster-management.io/global-resource".
Definition OriginOwnerReferenceAnnotation : string :=
  "global-hub.open-cluster-management.io/origin-ownerreference-uid".
Definition GlobalHubCleanupFinalizer : string := "global-hub.open-cluster-management.io/resource-cleanup".
Definition GlobalHubFinalizerRemovingDeadline : string :=
  "global-hub.open-cluster-management.io/finalizer-removing-deadline".
Definition ManagedClusterKind : string := "ManagedCluster".
Definition PolicyKind : string := "Policy".
Definition PolicyEventRootPolicyNameLabelKey : string := "policy.open-cluster-management.io/root-policy".
Definition PolicyEventClusterNameLabelKey : string := "policy.open-cluster-management.io/cluster-name".

(** ** Helpers of pkg/utils *)
Definition HasAnnotation (o : Object) (key : string) : bool := bool_decide (is_Some (Annotations o !! key)).
Definition HasLabel (o : Object) (key : string) : bool := bool_decide (is_Some (Labels o !! key)).
Definition HasItemKey (labels : gmap string string) (label : string) : bool :=
  bool_decide (is_Some (labels !! label)).

Fixpoint ContainsString (slice : list string) (s : string) : bool :=
  match slice with
  | [] => false
  | item :: rest => if String.eqb item s then true else ContainsString rest s
  end.

Fixpoint ContainSubStrings (allStrings subStrings : list string) : bool :=
  match subStrings with
  | [] => true
  | item :: rest => if negb (ContainsString allStrings item) then false else ContainSubStrings allStrings rest
  end.

Definition Merge (slices : list (list string)) : list string := concat slices.

(** Same length, and every element of [b] in [a]. *)
Definition Equal (a b : list string) : bool :=
  if negb (length a =? length b)%nat then false else ContainSubStrings a b.

Lemma ContainsString_spec l s : ContainsString l s = true <-> s ∈ l.
Proof.
  induction l as [|x l IH]; simpl.
  - split; [done|]. by intros ?%not_elem_of_nil.
  - rewrite elem_of_cons. destruct (String.eqb_spec x s) as [->|Hne].
    + split; auto.
    + rewrite IH. split; [auto|]. intros [->|]; done.
Qed.

Lemma ContainSubStrings_spec all subs : ContainSubStrings all subs = true <-> forall s, s ∈ subs -> s ∈ all.
Proof.
  induction subs as [|x subs IH]; simpl.
  - split; [|done]. by intros _ s ?%not_elem_of_nil.
  - destruct (ContainsString all x) eqn:E; simpl.
    + rewrite IH. setoid_rewrite elem_of_cons. apply ContainsString_spec in E.
      split; [intros Hs s [->|]; auto|auto].
    + split; [done|]. intros Hs. rewrite (proj2 (ContainsString_spec all x)) in E; [done|].
      apply Hs. by left.
Qed.

(** On slices without repetition, [Equal] is equality up to the order. *)
Lemma Equal_perm a b : NoDup a -> NoDup b -> (Equal a b = true <-> a ≡ₚ b).
Proof.
  intros Ha Hb. unfold Equal. destruct (length a =? length b)%nat eqn:El; simpl.
  - apply Nat.eqb_eq in El. rewrite ContainSubStrings_spec. split.
    + intros Hs. symmetry. apply submseteq_length_Permutation; [|lia]. by apply NoDup_submseteq.
    + intros Hp s Hin. by rewrite Hp.
  - apply Nat.eqb_neq in El. split; [done|]. intros Hp. by apply Permutation_length in Hp.
Qed.

(** ** The API server *)
Inductive get_result := Found (o : Object) | NotFound | GetError (e : goerror).

(** [kget] of a kind by namespace and name; [kupdate] returns its error, the
    object as it is left by the call and the new state of the server. *)
Class KubeClient (W : Type) := {
  kget : W -> string -> string -> string -> get_result;
  kupdate : W -> Object -> option goerror * Object * W;
}.

(** [utils.GetRootPolicy] and [utils.GetClusterId]. *)
Section Lookups.
Context {W : Type} `{KubeClient W}.

Definition GetRootPolicy (w : W) (namespacedName : string) : result Object :=
  match split_char "."%char namespacedName with
  | ns :: name :: _ =>
      match kget w PolicyKind ns name with
      | Found o => Ok o
      | NotFound => Err "failed to get root policy - not found"
      | GetError e => Err ("failed to get root policy - " +:+ e)
      end
  | _ => Err ("invalid root policy namespaced name - " +:+ namespacedName)
  end.

Fixpoint claim_id (clusterId : string) (claims : list (string * string)) : string :=
  match claims with
  | [] => clusterId
  | (n, v) :: rest => if String.eqb n "id.k8s.io" then v else claim_id clusterId rest
  end.

Definition GetClusterId (w : W) (clusterName : string) : result string :=
  match kget w ManagedClusterKind "" clusterName with
  | Found o => Ok (claim_id (UID o) (match obj_body o with BCluster claims => claims | _ => [] end))
  | NotFound => Err "failed to get cluster - not found"
  | GetError e => Err ("failed to get cluster - " +:+ e)
  end.
End Lookups.

(** A server that is a map, for examples. *)
Definition PlainServer := gmap (string * string * string) Object.
#[export] Instance PlainServerClient : KubeClient PlainServer := {|
  kget w kind ns name := match w !! (kind, ns, name) with Some o => Found o | None => NotFound end;
  kupdate w o :=
    let kind := match obj_body o with
                | BPolicy _ => PolicyKind | BEvent _ => "Event"
                | BCluster _ => ManagedClusterKind | BOther => "" end in
    match w !! (kind, Namespace o, Name o) with
    | Some _ => (None, o, <[(kind, Namespace o, Name o) := o]> w)
    | None => (Some "not found", o, w)
    end;
|}.

(** ** The store shared by the goroutines of the agent *)
Record Store := MkStore {
  st_next : nat;
  st_objs : gmap nat Object;
  st_vers : gmap nat Version;
  st_resync : option (gmap string nat);  (** [registeredResyncTypes] *)
}.
Definition empty_store : Store := MkStore 0 ∅ ∅ None.

Definition st_alloc_obj (o : Object) (s : Store) : nat * Store :=
  (st_next s, MkStore (S (st_next s)) (<[st_next s := o]> (st_objs s)) (st_vers s) (st_resync s)).
Definition st_alloc_ver (v : Version) (s : Store) : nat * Store :=
  (st_next s, MkStore (S (st_next s)) (st_objs s) (<[st_next s := v]> (st_vers s)) (st_resync s)).
Definition st_get_obj (s : Store) (l : nat) : outcome Object :=
  match st_objs s !! l with Some o => Ret o | None => Panic end.
Definition st_get_ver (s : Store) (l : nat) : outcome Version :=
  match st_vers s !! l with Some v => Ret v | None => Panic end.
Definition st_set_obj (s : Store) (l : nat) (o : Object) : Store :=
  MkStore (st_next s) (<[l := o]> (st_objs s)) (st_vers s) (st_resync s).
Definition st_set_ver (s : Store) (l : nat) (v : Version) : Store :=
  MkStore (st_next s) (st_objs s) (<[l := v]> (st_vers s)) (st_resync s).
Definition st_set_resync (s : Store) (r : gmap string nat) : Store :=
  MkStore (st_next s) (st_objs s) (st_vers s) (Some r).

Lemma st_get_ver_Ret s l v : st_get_ver s l = Ret v <-> st_vers s !! l = Some v.
Proof. unfold st_get_ver. destruct (st_vers s !! l); split; congruence. Qed.

Lemma st_get_obj_Ret s l o : st_get_obj s l = Ret o <-> st_objs s !! l = Some o.
Proof. unfold st_get_obj. destruct (st_objs s !! l); split; congruence. Qed.
#[export] Hint Rewrite st_get_ver_Ret st_get_obj_Ret : hub.
