(* ===== verification/TimeFilter.v ===== *)
(** * The time filter of the agent's event syncers

    [agent/pkg/status/filter/time_filter.go]: the cache of the time of the last
    event sent per event type, the filter on new events, and its persistence
    in a ConfigMap. *)

From stdpp Require Import prelude gmap strings list.
From Stdlib Require Import ZArith Lia.
From S2P Require Import Prelude.
From S2P Require Import GoLib.
Local Open Scope string_scope.
Local Open Scope list_scope.

Definition DeltaDuration : Z := 3 * 1000000000.

(** The time of January 1 of the year 1, the zero time, is 0. *)
Definition zero_time : Z := 0.

Record TimeCaches := MkCaches {
  topicName : string;
  eventTimeCache : gmap string Z;
  lastEventTimeCache : gmap string Z;
}.
Definition initial_caches : TimeCaches := MkCaches "" ∅ ∅.

Definition CacheTime (key : string) (new : Z) (c : TimeCaches) : TimeCaches :=
  match eventTimeCache c !! key with
  | None => MkCaches (topicName c) (<[key := new]> (eventTimeCache c)) (lastEventTimeCache c)
  | Some old =>
      if (old <? new)%Z
      then MkCaches (topicName c) (<[key := new]> (eventTimeCache c)) (lastEventTimeCache c) else c
  end.

Definition Newer (key : string) (val : Z) (c : TimeCaches) : bool :=
  match eventTimeCache c !! key with
  | None => true
  | Some old => (old - DeltaDuration <? val)%Z
  end.

Definition RegisterTimeFilter (key : string) (c : TimeCaches) : TimeCaches :=
  MkCaches (topicName c) (<[key := zero_time]> (eventTimeCache c)) (<[key := zero_time]> (lastEventTimeCache c)).

Definition cacheKey (c : TimeCaches) (key : string) : string := topicName c +:+ "--" +:+ key.

(** The textual form of a time and the ConfigMaps of the server. *)
Class TimeFormat := { format_time : Z -> string; parse_time : string -> result Z }.

Inductive cm_result := CMFound (data : gmap string string) | CMNotFound | CMError (e : goerror).
Class ConfigMapClient (W : Type) := {
  cm_get : W -> cm_result;
  cm_create : W -> option goerror * W;
  cm_update : W -> gmap string string -> option goerror * W;
}.

Section Sync.
Context {W : Type} `{ConfigMapClient W} `{TimeFormat}.

Definition loadEventTimeCacheFromConfigMap (data : gmap string string) (key : string) (c : TimeCaches)
    : option goerror * TimeCaches :=
  match data !! cacheKey c key with
  | None => (None, c)
  | Some val =>
      match parse_time val with
      | Err e => (Some e, c)
      | Ok timeVal => (None, MkCaches (topicName c) (<[key := timeVal]> (eventTimeCache c)) (lastEventTimeCache c))
      end
  end.

Fixpoint load_all (data : gmap string string) (keys : list string) (c : TimeCaches)
    : option goerror * TimeCaches :=
  match keys with
  | [] => (None, c)
  | key :: rest =>
      match loadEventTimeCacheFromConfigMap data key c with
      | (Some e, c') => (Some e, c')
      | (None, c') => load_all data rest c'
      end
  end.

(** [LaunchTimeFilter], up to the start of the periodic goroutine. *)
Definition LaunchTimeFilter (topic : string) (c : TimeCaches) (w : W) : option goerror * TimeCaches * W :=
  let c1 := MkCaches topic (eventTimeCache c) (lastEventTimeCache c) in
  match cm_get w with
  | CMNotFound =>
      match cm_create w with
      | (Some e, w') => (Some e, c1, w')
      | (None, w') =>
          let '(err, c2) := load_all ∅ (map_to_list (lastEventTimeCache c1)).*1 c1 in (err, c2, w')
      end
  | CMError e => (Some e, c1, w)
  | CMFound data =>
      let '(err, c2) := load_all data (map_to_list (lastEventTimeCache c1)).*1 c1 in (err, c2, w)
  end.

(** The first loop of [periodicSync]: a missing last time is the zero time. *)
Definition sync_step (acc : bool * gmap string Z) (kv : string * Z) : bool * gmap string Z :=
  let '(update, last) := acc in
  let '(key, currentTime) := kv in
  let found := last !! key in
  let '(update1, last1) := match found with None => (true, <[key := currentTime]> last) | Some _ => (update, last) end in
  if (default zero_time found <? currentTime)%Z then (true, <[key := currentTime]> last1) else (update1, last1).

Definition with_times (c : TimeCaches) (data : gmap string string) : gmap string string :=
  fold_left (fun d kv => <[cacheKey c kv.1 := format_time kv.2]> d) (map_to_list (lastEventTimeCache c)) data.

Definition periodicSync (c : TimeCaches) (w : W) : option goerror * TimeCaches * W :=
  let '(update, last) := fold_left sync_step (map_to_list (eventTimeCache c)) (false, lastEventTimeCache c) in
  let c1 := MkCaches (topicName c) (eventTimeCache c) last in
  if update then
    match cm_get w with
    | CMFound data =>
        let '(err, w') := cm_update w (with_times c1 data) in (err, c1, w')
    | CMNotFound => (Some "not found", c1, w)
    | CMError e => (Some e, c1, w)
    end
  else (None, c1, w).

(** ** The filter *)
Lemma CacheTime_lookup key new c k :
  eventTimeCache (CacheTime key new c) !! k =
  if decide (k = key)
  then Some (match eventTimeCache c !! key with Some old => Z.max old new | None => new end)
  else eventTimeCache c !! k.
Proof.
  unfold CacheTime. case_decide as E; [subst k|]; destruct (eventTimeCache c !! key) as [old|] eqn:Eo;
    try destruct (old <? new)%Z eqn:El; simpl;
    rewrite ?lookup_insert_eq, ?lookup_insert_ne by done; try done.
  - apply Z.ltb_lt in El. f_equal. lia.
  - apply Z.ltb_ge in El. rewrite Eo. f_equal. lia.
Qed.

Lemma CacheTime_fold key ts : forall c old,
  eventTimeCache c !! key = Some old ->
  eventTimeCache (fold_left (fun c t => CacheTime key t c) ts c) !! key = Some (foldr Z.max old ts).
Proof.
  induction ts as [|t ts IH]; intros c old Hc; simpl; [done|].
  rewrite (IH _ (Z.max old t)); [|by rewrite CacheTime_lookup, decide_True, Hc].
  f_equal. clear IH Hc. induction ts; simpl; lia.
Qed.

Lemma foldr_max_ge old ts : (old <= foldr Z.max old ts)%Z /\ forall t, t ∈ ts -> (t <= foldr Z.max old ts)%Z.
Proof.
  induction ts as [|x ts [IH1 IH2]]; simpl.
  - split; [lia|]. by intros t ?%not_elem_of_nil.
  - split; [lia|]. intros t [->|Ht]%elem_of_cons; [lia|]. specialize (IH2 _ Ht). lia.
Qed.

(** After the times of sent events are cached, [Newer] rejects exactly the events
    older by the tolerance than one of them. *)
Lemma sent_events_filter_spec key ts c old val :
  eventTimeCache c !! key = Some old ->
  Newer key val (fold_left (fun c t => CacheTime key t c) ts c) = false <->
  exists t, t ∈ old :: ts /\ (val <= t - DeltaDuration)%Z.
Proof.
  intros Hc. unfold Newer. rewrite (CacheTime_fold _ _ _ _ Hc), Z.ltb_ge.
  destruct (foldr_max_ge old ts) as [Hge1 Hge2]. split.
  - intros Hle. assert (Hin : foldr Z.max old ts ∈ old :: ts).
    { clear. induction ts as [|x ts IH]; simpl; [by left|].
      destruct (Z.max_dec x (foldr Z.max old ts)) as [->| ->]; [right; left|].
      apply elem_of_cons in IH as [->|]; [by left|by right; right]. }
    eauto.
  - intros (t & [->|Ht]%elem_of_cons & Hle); [lia|]. specialize (Hge2 _ Ht). lia.
Qed.

(** After the times of the sent events are cached, an event is filtered out
    exactly when it is older, by at least the tolerance of three seconds, than
    the latest of them (or than the time cached before). *)
Theorem sent_events_are_filtered key ts c old val :
  eventTimeCache c !! key = Some old ->
  Newer key val (fold_left (fun c t => CacheTime key t c) ts c) = false <->
  exists t, t ∈ old :: ts /\ (val <= t - DeltaDuration)%Z.
Proof. apply sent_events_filter_spec. Qed.

(** *** The persistence of the cache *)
Lemma sync_step_done kvs last :
  (forall k t, (k, t) ∈ kvs -> exists l, last !! k = Some l /\ (t <= l)%Z) ->
  fold_left sync_step kvs (false, last) = (false, last).
Proof.
  induction kvs as [|[k t] kvs IH]; intros Hk; [done|]. simpl.
  destruct (Hk k t) as (l & Hl & Hle); [by left|]. rewrite Hl. simpl. rewrite (proj2 (Z.ltb_ge _ _) Hle).
  apply IH. intros; apply Hk. by right.
Qed.

Lemma sync_step_covers kvs : forall b last,
  (forall k t, (k, t) ∈ kvs -> (zero_time <= t)%Z) ->
  (forall k l, last !! k = Some l ->
     exists l', (fold_left sync_step kvs (b, last)).2 !! k = Some l' /\ (l <= l')%Z) /\
  forall k t, (k, t) ∈ kvs -> exists l, (fold_left sync_step kvs (b, last)).2 !! k = Some l /\ (t <= l)%Z.
Proof.
  induction kvs as [|[k t] kvs IH]; intros b last Hz; simpl.
  { split; [intros k l ?; exists l; split; [done|lia]|]. by intros ? ? ?%not_elem_of_nil. }
  assert (Ht : (zero_time <= t)%Z) by (apply (Hz k); by left).
  assert (Hz' : forall k t, (k, t) ∈ kvs -> (zero_time <= t)%Z) by (intros; apply (Hz k0); by right).
  match goal with |- context [fold_left sync_step kvs ?p] => set (st := p) end.
  assert (Hst : exists b1 last1, st = (b1, last1) /\
    (exists l, last1 !! k = Some l /\ (t <= l)%Z) /\
    forall k' l, last !! k' = Some l -> exists l', last1 !! k' = Some l' /\ (l <= l')%Z).
  { subst st. destruct (last !! k) as [l0|] eqn:E0; simpl; destruct (_ <? _)%Z eqn:El;
      eexists _, _; (split; [reflexivity|]); rewrite ?lookup_insert_eq.
    - apply Z.ltb_lt in El. split; [exists t; split; [done|lia]|]. intros k' l Hl.
      destruct (decide (k = k')) as [<-|]; [rewrite lookup_insert_eq; exists t; split; [done|]|].
      + assert (l = l0) by congruence. lia.
      + rewrite lookup_insert_ne by done. exists l. split; [done|lia].
    - apply Z.ltb_ge in El. split; [eauto|]. intros k' l Hl. exists l. split; [done|lia].
    - split; [exists t; split; [done|lia]|]. intros k' l Hl.
      rewrite !lookup_insert_ne by congruence. exists l. split; [done|lia].
    - split; [exists t; split; [done|lia]|]. intros k' l Hl.
      rewrite lookup_insert_ne by congruence. exists l. split; [done|lia]. }
  destruct Hst as (b1 & last1 & -> & (l & Hl & Hle) & Hkeep).
  destruct (IH b1 last1 Hz') as [IH1 IH2]. split.
  - intros k' l' Hl'. destruct (Hkeep _ _ Hl') as (l1 & Hl1 & ?).
    destruct (IH1 _ _ Hl1) as (l2 & ? & ?). exists l2. split; [done|lia].
  - intros k' t' [[= -> ->]|Hin]%elem_of_cons; [|eauto].
    destruct (IH1 _ _ Hl) as (l2 & ? & ?). exists l2. split; [done|lia].
Qed.

(** The last times are recorded before the ConfigMap is written: after a
    round that fails, the next round with the same cache does not touch the
    ConfigMap and reports no error, so the times are not persisted until a
    later event is sent. *)
Theorem failed_time_sync_is_not_retried c w e c1 w1 w2 :
  (forall k t, eventTimeCache c !! k = Some t -> (zero_time <= t)%Z) ->
  periodicSync c w = (Some e, c1, w1) ->
  periodicSync c1 w2 = (None, c1, w2).
Proof.
  intros Hz. unfold periodicSync at 1.
  pose proof (sync_step_covers (map_to_list (eventTimeCache c)) false (lastEventTimeCache c)) as Hc.
  destruct (fold_left sync_step (map_to_list (eventTimeCache c)) (false, lastEventTimeCache c)) as [u last].
  intros E. assert (Hc1 : c1 = MkCaches (topicName c) (eventTimeCache c) last).
  { destruct u; [|done]. destruct (cm_get w); try (by injection E).
    destruct (cm_update w _). by injection E. }
  rewrite Hc1. unfold periodicSync. simpl.
  rewrite sync_step_done; [done|]. simpl in Hc. apply Hc.
  intros k t Hin%elem_of_map_to_list. by eapply Hz.
Qed.
End Sync.

(** *** An instance *)
Module Sample.
#[local] Instance sample_format : TimeFormat := {|
  format_time := FormatInt;
  parse_time s := match ParseInt s with (z, None) => Ok z | (_, Some e) => Err e end |}.
(** A ConfigMap whose updates fail while the flag is set. *)
#[local] Instance sample_client : ConfigMapClient (bool * gmap string string) := {|
  cm_get (w : bool * gmap string string) := CMFound w.2;
  cm_create w := (@None goerror, w);
  cm_update w d := if w.1 then (Some "conflict", w) else (None, (false, d)) |}.

Definition sent : TimeCaches := CacheTime "policy" 7000000000 (RegisterTimeFilter "policy" initial_caches).

Lemma sent_events_are_filtered_witness :
  Newer "policy" 5000000000 (fold_left (fun c t => CacheTime "policy" t c) [9000000000; 7000000000]%Z sent) = false.
Proof.
  apply (sent_events_are_filtered "policy" [9000000000; 7000000000]%Z sent 7000000000); [reflexivity|].
  exists 9000000000%Z. split; [right; left|]. done.
Defined.

Definition failing : bool * gmap string string := (true, ∅).
Definition working : bool * gmap string string := (false, ∅).

Lemma failed_time_sync_is_not_retried_witness :
  let c1 := (periodicSync sent failing).1.2 in
  (periodicSync sent failing).1.1 = Some "conflict" /\ periodicSync c1 working = (None, c1, working).
Proof.
  intros c1. split; [vm_compute; reflexivity|].
  apply (failed_time_sync_is_not_retried sent failing "conflict" c1 failing working).
  - intros k t Hk. unfold sent in Hk. rewrite CacheTime_lookup in Hk. case_decide; [|simpl in Hk].
    + simpl in Hk. injection Hk as <-. done.
    + rewrite lookup_insert_ne in Hk by done. done.
  - vm_compute. reflexivity.
Defined.
End Sample.
