(* ===== verification/Emitter.v ===== *)
(** * Emitters of the agent

    The payloads ([pkg/bundle]), [generic_emitter.go], the heartbeat emitter
    ([heartbeat_syncer.go]) and the resync of versions ([resync_syncer.go]).
    Versions are shared through pointers: the version of a compliance emitter is
    also the dependency version of the emitter that depends on it and the one
    the resync registry increments. *)

From stdpp Require Import prelude gmap strings list.
From Stdlib Require Import ZArith Lia Sorting.Sorted.
From S2P Require Import Prelude.
From S2P Require Import GoLib.
From S2P Require Import Version.
From S2P Require Import CloudEvents.
From S2P Require Import KubeObjects.
From S2P Require Import TimeFilter.
From S2P Require Import ConflationSafety.
Local Open Scope string_scope.
Local Open Scope list_scope.

(** ** Payloads *)
Record Compliance := MkCompliance {
  cp_PolicyID : string;
  cp_NamespacedName : string;
  cp_CompliantClusters : list string;
  cp_NonCompliantClusters : list string;
  cp_UnknownComplianceClusters : list string;
  cp_PendingComplianceClusters : list string;
}.

Record CompleteCompliance := MkComplete_ {
  cc_PolicyID : string;
  cc_NamespacedName : string;
  cc_NonCompliantClusters : list string;
  cc_UnknownComplianceClusters : list string;
  cc_PendingComplianceClusters : list string;
}.

Record BaseEvent := MkBaseEvent {
  be_EventName : string;
  be_EventNamespace : string;
  be_Message : string;
  be_Reason : string;
  be_Count : Z;
  be_Source : string;
  be_CreatedAt : Z;
}.
Record RootPolicyEvent := MkRootPolicyEvent { re_Base : BaseEvent; re_PolicyID : string; re_Compliance : string }.
Record ReplicatedPolicyEvent := MkReplicatedPolicyEvent {
  rp_Base : BaseEvent;
  rp_PolicyID : string;
  rp_ClusterID : string;
  rp_ClusterName : string;
  rp_Compliance : string;
}.
Record ManagedClusterEvent := MkManagedClusterEvent {
  mce_EventNamespace : string;
  mce_EventName : string;
  mce_ClusterName : string;
  mce_ClusterID : string;
  mce_LeafHubName : string;
  mce_Message : string;
  mce_Reason : string;
  mce_ReportingController : string;
  mce_ReportingInstance : string;
  mce_EventType : string;
  mce_CreatedAt : Z;
}.

(** The data of an event, by its Go type; generic bundles hold pointers. *)
Inductive payload :=
| PNil
| PGeneric (objects : list nat)
| PCompliance (b : list Compliance)
| PComplete (b : list CompleteCompliance)
| PRoot (b : list RootPolicyEvent)
| PReplicated (b : list ReplicatedPolicyEvent)
| PClusterEvents (b : list ManagedClusterEvent).

(** The encoding of the data by the SDK. *)
Class PayloadCodec := { marshal : Store -> payload -> result bytes }.

Section Emitters.
Context {Event : Type} `{EventSDK Event} `{PayloadCodec}.
Variable LeafHubName : string.

(** ** The generic emitter *)
Record genericEmitter := MkEmitter {
  eventType : string;
  currentVersion : nat;       (** pointer to a version *)
  lastSentVersion : Version;
  emitter_topic : string;
  dependencyVersion : option nat;
  postSend : option (payload -> TimeCaches -> payload * TimeCaches);
}.

Definition EmitterOption := genericEmitter -> genericEmitter.
Definition WithTopic (t : string) : EmitterOption := fun g =>
  MkEmitter (eventType g) (currentVersion g) (lastSentVersion g) t (dependencyVersion g) (postSend g).
Definition WithDependencyVersion (v : nat) : EmitterOption := fun g =>
  MkEmitter (eventType g) (currentVersion g) (lastSentVersion g) (emitter_topic g) (Some v) (postSend g).
Definition WithVersion (v : nat) : EmitterOption := fun g =>
  MkEmitter (eventType g) v (lastSentVersion g) (emitter_topic g) (dependencyVersion g) (postSend g).
Definition WithPostSend (f : payload -> TimeCaches -> payload * TimeCaches) : EmitterOption := fun g =>
  MkEmitter (eventType g) (currentVersion g) (lastSentVersion g) (emitter_topic g) (dependencyVersion g) (Some f).

Definition applyOptions (e : genericEmitter) (opts : list EmitterOption) : genericEmitter :=
  fold_left (fun e fn => fn e) opts e.

Definition set_last_sent (g : genericEmitter) (v : Version) : genericEmitter :=
  MkEmitter (eventType g) (currentVersion g) v (emitter_topic g) (dependencyVersion g) (postSend g).

(** [EnableResync]: the registry is created at the first registration. *)
Definition EnableResync (evtType : string) (syncVersion : nat) (st : Store) : Store :=
  st_set_resync st (<[evtType := syncVersion]> (default ∅ (st_resync st))).

Definition NewGenericEmitter (type : string) (opts : list EmitterOption) (st : Store)
    : outcome (genericEmitter * Store) :=
  let '(l, st1) := st_alloc_ver NewVersion st in
  let e := applyOptions (MkEmitter type l NewVersion "" None None) opts in
  let! v := st_get_ver st1 (currentVersion e) in
  Ret (set_last_sent e v, EnableResync type (currentVersion e) st1).

Definition ShouldSend (g : genericEmitter) (st : Store) : outcome bool :=
  let! v := st_get_ver st (currentVersion g) in
  Ret (NewerThan v (Some (lastSentVersion g))).

Definition PostSend (g : genericEmitter) (data : payload) (c : TimeCaches) (st : Store)
    : outcome (genericEmitter * payload * TimeCaches * Store) :=
  let '(data', c') := match postSend g with Some f => f data c | None => (data, c) end in
  let! v := st_get_ver st (currentVersion g) in
  let st' := st_set_ver st (currentVersion g) (Next v) in
  Ret (set_last_sent g (Next v), data', c', st').

Definition PostUpdate (g : genericEmitter) (st : Store) : outcome Store :=
  let! v := st_get_ver st (currentVersion g) in
  Ret (st_set_ver st (currentVersion g) (Incr v)).

(** The event is returned with the error of its encoding. *)
Definition ToCloudEvent (g : genericEmitter) (data : payload) (st : Store)
    : outcome (Event * option goerror) :=
  let e := SetType (eventType g) (SetSource LeafHubName NewEvent) in
  let! v := st_get_ver st (currentVersion g) in
  let e1 := SetExtension ExtVersion (ExtString (Version_String v)) e in
  let! e2 :=
    (match dependencyVersion g with
     | None => Ret e1
     | Some l =>
         let! d := st_get_ver st l in
         Ret (SetExtension ExtDependencyVersion (ExtString (Version_String d)) e1)
     end) in
  match (let? b := marshal st data in SetData b e2) with
  | Ok e3 => Ret (e3, None)
  | Err err => Ret (e2, Some err)
  end.

(** ** The heartbeat emitter *)
Record heartbeatEmitter := MkHeartbeat {
  hb_currentVersion : nat;
  hb_lastSentVersion : Version;
}.

Definition NewHeartbeatEmitter (st : Store) : heartbeatEmitter * Store :=
  let '(l, st') := st_alloc_ver NewVersion st in (MkHeartbeat l NewVersion, st').

Definition hb_PostUpdate (s : heartbeatEmitter) (st : Store) : outcome Store :=
  let! v := st_get_ver st (hb_currentVersion s) in
  Ret (st_set_ver st (hb_currentVersion s) (Incr v)).

Definition hb_ToCloudEvent (type : string) (s : heartbeatEmitter) (st : Store)
    : outcome (Event * option goerror) :=
  let e := SetType type (SetSource LeafHubName NewEvent) in
  let! v := st_get_ver st (hb_currentVersion s) in
  let e1 := SetExtension ExtVersion (ExtString (Version_String v)) e in
  match (let? b := marshal st (PGeneric []) in SetData b e1) with
  | Ok e2 => Ret (e2, None)
  | Err err => Ret (e1, Some err)
  end.

Definition hb_ShouldSend (s : heartbeatEmitter) : bool := true.
Definition hb_Topic (s : heartbeatEmitter) : string := "".

Definition hb_PostSend (s : heartbeatEmitter) (st : Store) : outcome (heartbeatEmitter * Store) :=
  let! v := st_get_ver st (hb_currentVersion s) in
  Ret (MkHeartbeat (hb_currentVersion s) (Next v), st_set_ver st (hb_currentVersion s) (Next v)).

(** ** Resync *)
Fixpoint resync_types (types : gmap string nat) (eventTypes : list string) (st : Store) : outcome Store :=
  match eventTypes with
  | [] => Ret st
  | t :: rest =>
      match types !! t with
      | None => Ret st
      | Some l =>
          let! v := st_get_ver st l in
          resync_types types rest (st_set_ver st l (Incr v))
      end
  end.

(** [unmarshaled] is the result of decoding the payload as a list of types. *)
Definition Resync (unmarshaled : result (list string)) (st : Store) : outcome (option goerror * Store) :=
  match st_resync st with
  | None => Ret (None, st)
  | Some types =>
      match unmarshaled with
      | Err e => Ret (Some e, st)
      | Ok eventTypes => let! st' := resync_types types eventTypes st in Ret (None, st')
      end
  end.

Definition GetEventVersion (st : Store) (evtType : string) : option nat :=
  match st_resync st with Some types => types !! evtType | None => None end.
End Emitters.

(** ** The versions an emitter sends *)
Section Runs.
Context {Event : Type} `{EventSDK Event} `{!EventLaws Event} `{PayloadCodec}.
Variable hub : string.

(** What happens to an emitter: an object is updated, a resync request arrives,
    or the periodic sync runs on the data of the handler. [strict] is the
    multi-object syncer, which keeps an event that was not encoded; the
    multi-event syncer sends it without data. [accepted] is the answer of the
    producer. *)
Inductive emitter_op :=
| OpUpdate
| OpResync (unmarshaled : result (list string))
| OpSync (data : payload) (strict accepted : bool).

(** One operation, with the event that it delivers. *)
Definition emitter_step (g : genericEmitter) (c : TimeCaches) (st : Store) (op : emitter_op)
    : outcome (option Event * genericEmitter * TimeCaches * Store) :=
  match op with
  | OpUpdate => let! st' := PostUpdate g st in Ret (None, g, c, st')
  | OpResync u => let! (_, st') := Resync u st in Ret (None, g, c, st')
  | OpSync data strict accepted =>
      let! send := ShouldSend g st in
      if send then
        let! (evt, err) := ToCloudEvent hub g data st in
        if accepted && negb (strict && bool_decide (is_Some err)) then
          let! (g', _, c', st') := PostSend g data c st in
          Ret (Some evt, g', c', st')
        else Ret (None, g, c, st)
      else Ret (None, g, c, st)
  end.

(** The events delivered by a sequence of operations. *)
Fixpoint emitter_run (g : genericEmitter) (c : TimeCaches) (st : Store) (ops : list emitter_op)
    : outcome (list Event * genericEmitter * TimeCaches * Store) :=
  match ops with
  | [] => Ret ([], g, c, st)
  | op :: rest =>
      let! (e, g1, c1, st1) := emitter_step g c st op in
      let! (es, g2, c2, st2) := emitter_run g1 c1 st1 rest in
      Ret (option_list e ++ es, g2, c2, st2)
  end.

(** By how much an operation can advance a counter. *)
Definition op_weight (op : emitter_op) : nat :=
  match op with OpResync (Ok l) => length l | OpResync (Err _) => 0 | _ => 1 end.
Definition ops_weight (ops : list emitter_op) : nat := sum_list (op_weight <$> ops).

Definition allocated (st : Store) (l : nat) : Prop := is_Some (st_vers st !! l).

(** The version the emitter points to, with room for [n] more increments; the
    pointers of the registry of the resync and of the dependency are allocated. *)
Record emitter_at (g : genericEmitter) (st : Store) (v : Version) (n : nat) : Prop := MkAt {
  at_version : st_vers st !! currentVersion g = Some v;
  at_ok : version_ok v;
  at_generation : (Generation v + Z.of_nat n < two64)%Z;
  at_value : (Value v + Z.of_nat n < two64)%Z;
  at_last_generation : Generation (lastSentVersion g) = Generation v;
  at_last_value : (Value (lastSentVersion g) <= Value v)%Z;
  at_dependency : forall l, dependencyVersion g = Some l -> allocated st l;
  at_registry : forall types t l, st_resync st = Some types -> types !! t = Some l -> allocated st l;
}.

Lemma Incr_small v n : version_ok v -> (Value v + Z.of_nat (S n) < two64)%Z ->
  Incr v = MkVersion (Generation v) (Value v + 1).
Proof. intros [_ [? ?]] Hn. unfold Incr. rewrite wrap64_small; [done|]. unfold u64_ok. lia. Qed.

Lemma Next_small v n : version_ok v -> (Generation v + Z.of_nat (S n) < two64)%Z ->
  Next v = MkVersion (Generation v + 1) (Value v).
Proof. intros [[? ?] _] Hn. unfold Next. rewrite wrap64_small; [done|]. unfold u64_ok. lia. Qed.

Lemma NewerThan_last g v n st : emitter_at g st v n ->
  NewerThan v (Some (lastSentVersion g)) = (Value (lastSentVersion g) <? Value v)%Z.
Proof.
  intros [_ _ _ _ Hg Hv _ _]. apply eq_bool_prop_intro.
  rewrite !Is_true_true, NewerThan_spec, Z.ltb_lt. unfold version_lt. lia.
Qed.

Lemma allocated_insert st l l' v :
  allocated st l -> allocated (st_set_ver st l' v) l.
Proof. intros [x Hx]. unfold allocated. simpl. destruct (decide (l' = l)) as [->|];
  [rewrite lookup_insert_eq|rewrite lookup_insert_ne by done]; eauto. Qed.

(** Less room is needed for fewer operations. *)
Lemma emitter_at_weaken g st v n m : m <= n -> emitter_at g st v n -> emitter_at g st v m.
Proof. intros Hm [? ? ? ? ? ? ? ?]. by split; try done; lia. Qed.

(** A pointer that is written, whichever it is. *)
Lemma emitter_at_Incr g st v n l u : st_vers st !! l = Some u ->
  emitter_at g st v (S n) ->
  exists v', emitter_at g (st_set_ver st l (Incr u)) v' n /\
    Generation v' = Generation v /\ (Value v <= Value v')%Z.
Proof.
  intros Hu [Hv Hok Hg Hval Hlg Hlv Hd Hr]. destruct (decide (l = currentVersion g)) as [->|Hne].
  - assert (u = v) as -> by congruence. exists (Incr v). rewrite (Incr_small v n) by done. destruct Hok as [[? ?] [? ?]].
    split; [split; simpl; try done; try lia|simpl; lia].
    + apply lookup_insert_eq.
    + split; split; simpl; lia.
    + intros ? ?. by apply allocated_insert, Hd.
    + intros ? ? ? ? ?. eapply allocated_insert, Hr; done.
  - exists v. split; [split; simpl; try done; try lia|lia].
    + by rewrite lookup_insert_ne.
    + intros ? ?. by apply allocated_insert, Hd.
    + intros ? ? ? ? ?. eapply allocated_insert, Hr; done.
Qed.

(** After a delivery. *)
Lemma emitter_at_Next g st v n : emitter_at g st v (S n) ->
  emitter_at (set_last_sent g (Next v)) (st_set_ver st (currentVersion g) (Next v)) (Next v) n.
Proof.
  intros [Hv Hok Hg Hval Hlg Hlv Hd Hr]. rewrite (Next_small v n) by done.
  destruct Hok as [[? ?] [? ?]]. split; simpl; try done; try lia.
  - apply lookup_insert_eq.
  - split; split; simpl; lia.
  - intros ? ?. by apply allocated_insert, Hd.
  - intros ? ? ? ? ?. eapply allocated_insert, Hr; done.
Qed.

(** A resync advances the value of the emitter at most, and never fails. *)
Lemma resync_types_at types l : forall g st v n,
  st_resync st = Some types -> emitter_at g st v (length l + n) ->
  exists st' v', resync_types types l st = Ret st' /\ emitter_at g st' v' n /\
    Generation v' = Generation v /\ (Value v <= Value v')%Z.
Proof.
  induction l as [|t l IH]; intros g st v n Hs Hat; simpl.
  { exists st, v. split_and!; [done|done|done|lia]. }
  destruct (types !! t) as [p|] eqn:Ep; [|exists st, v; split_and!; [done| |done|lia]].
  - destruct (at_registry _ _ _ _ Hat _ _ _ Hs Ep) as [u Hu].
    rewrite (proj2 (st_get_ver_Ret _ _ _) Hu). simpl.
    destruct (emitter_at_Incr g st v (length l + n) p u Hu Hat) as (v1 & Hat1 & Hg1 & Hv1).
    destruct (IH g (st_set_ver st p (Incr u)) v1 n Hs Hat1) as (st' & v' & E & Hat' & Hg' & Hv').
    exists st', v'. split_and!; [done|done|congruence|lia].
  - eapply emitter_at_weaken; [|done]. lia.
Qed.

Lemma Resync_at u g st v n :
  emitter_at g st v (op_weight (OpResync u) + n) ->
  exists err st' v', Resync u st = Ret (err, st') /\ emitter_at g st' v' n /\
    Generation v' = Generation v /\ (Value v <= Value v')%Z.
Proof.
  intros Hat. unfold Resync. destruct (st_resync st) as [types|] eqn:Es.
  - destruct u as [l|e]; simpl in Hat.
    + destruct (resync_types_at types l g st v n Es Hat) as (st' & v' & -> & Hx).
      exists None, st', v'. done.
    + exists (Some e), st, v. split_and!; [done|done|done|lia].
  - exists None, st, v. split_and!; [done| |done|lia]. eapply emitter_at_weaken; [|done]. lia.
Qed.

(** The event of an emitter, encoded or not, is of its type and hub and has the
    version the emitter is at. *)
Definition event_of (g : genericEmitter) (e : Event) (v : Version) : Prop :=
  Type_ e = eventType g /\ Source e = hub /\
  Extensions e !! ExtVersion = Some (ExtString (Version_String v)).

Lemma ToCloudEvent_at g st v n data : emitter_at g st v n ->
  exists e err, ToCloudEvent hub g data st = Ret (e, err) /\ event_of g e v.
Proof.
  intros [Hv _ _ _ _ _ Hd _]. unfold ToCloudEvent.
  rewrite (proj2 (st_get_ver_Ret _ _ _) Hv). simpl.
  match goal with |- context [SetExtension ExtVersion ?x ?e0] => set (e1 := SetExtension ExtVersion x e0) end.
  assert (H1 : event_of g e1 v).
  { unfold e1. split_and!; rewrite ?Type_SetExtension, ?Source_SetExtension, ?Type_SetType, ?Source_SetType,
      ?Source_SetSource; [done|done|]. apply Extensions_SetExtension_eq. }
  clearbody e1.
  assert (H2 : exists e2, (match dependencyVersion g with
     | None => Ret e1
     | Some l => let! d := st_get_ver st l in
         Ret (SetExtension ExtDependencyVersion (ExtString (Version_String d)) e1) end) = Ret e2 /\ event_of g e2 v).
  { destruct (dependencyVersion g) as [l|]; [|by eauto]. destruct (Hd l eq_refl) as [d Hl].
    rewrite (proj2 (st_get_ver_Ret _ _ _) Hl). simpl. eexists. split; [done|]. destruct H1 as (? & ? & ?).
    split_and!; rewrite ?Type_SetExtension, ?Source_SetExtension; [done|done|].
    by rewrite Extensions_SetExtension_ne. }
  destruct H2 as (e2 & -> & H2). simpl.
  destruct (let? b := marshal st data in SetData b e2) as [e3|err] eqn:E3; [|by eauto].
  exists e3, None. split; [done|]. destruct (marshal st data) as [b|]; simpl in E3; [|done].
  destruct (SetData_Ok _ _ _ E3) as (_ & _ & Ht & Hs & Hx). destruct H2 as (? & ? & ?).
  split_and!; congruence.
Qed.

Lemma PostSend_at g st v n data c : emitter_at g st v n ->
  exists data' c', PostSend g data c st =
    Ret (set_last_sent g (Next v), data', c', st_set_ver st (currentVersion g) (Next v)).
Proof.
  intros Hat. unfold PostSend. destruct (postSend g) as [f|]; [destruct (f data c) as [data' c']|];
    rewrite (proj2 (st_get_ver_Ret _ _ _) (at_version _ _ _ _ Hat)); simpl; eauto.
Qed.

(** Every delivered version: from the current generation on, one generation
    apart, with values that strictly increase. *)
Fixpoint sent_chain (gen val : Z) (vs : list Version) : Prop :=
  match vs with
  | [] => True
  | v :: rest => Generation v = gen /\ (val < Value v)%Z /\ sent_chain (gen + 1) (Value v) rest
  end.

Lemma sent_chain_le gen val val' vs : (val' <= val)%Z -> sent_chain gen val vs -> sent_chain gen val' vs.
Proof. destruct vs; simpl; [done|]. intros ? (? & ? & ?). split_and!; [done|lia|done]. Qed.

(** A step either delivers nothing and keeps the generation, or delivers the
    current version, newer than the last one sent, and moves to the next generation. *)
Lemma emitter_step_at g c st v op n : emitter_at g st v (op_weight op + n) ->
  exists e g' c' st' v', emitter_step g c st op = Ret (e, g', c', st') /\
    emitter_at g' st' v' n /\ eventType g' = eventType g /\
    match e with
    | None => Generation v' = Generation v /\ lastSentVersion g' = lastSentVersion g
    | Some e => event_of g e v /\ (Value (lastSentVersion g) < Value v)%Z /\
        (Generation v' = Generation v + 1)%Z /\ Value (lastSentVersion g') = Value v
    end.
Proof.
  intros Hat. assert (Hn : emitter_at g st v n) by (eapply emitter_at_weaken; [|done]; lia).
  destruct op as [|u|data strict accepted]; simpl emitter_step.
  - unfold PostUpdate. rewrite (proj2 (st_get_ver_Ret _ _ _) (at_version _ _ _ _ Hat)). simpl.
    destruct (emitter_at_Incr g st v n _ v (at_version _ _ _ _ Hat) Hat) as (v' & Hat' & ? & ?).
    exists None, g, c, (st_set_ver st (currentVersion g) (Incr v)), v'. done.
  - destruct (Resync_at u g st v n Hat) as (err & st' & v' & -> & Hat' & ? & ?). simpl.
    exists None, g, c, st', v'. done.
  - unfold ShouldSend. rewrite (proj2 (st_get_ver_Ret _ _ _) (at_version _ _ _ _ Hat)). simpl.
    rewrite (NewerThan_last _ _ _ _ Hat). destruct (_ <? _)%Z eqn:El; [|by exists None, g, c, st, v].
    apply Z.ltb_lt in El. destruct (ToCloudEvent_at g st v _ data Hat) as (e & err & -> & He). simpl.
    destruct (accepted && _); [|by exists None, g, c, st, v].
    destruct (PostSend_at g st v _ data c Hat) as (data' & c' & ->). simpl.
    exists (Some e), (set_last_sent g (Next v)), c', (st_set_ver st (currentVersion g) (Next v)), (Next v).
    rewrite (Next_small v n (at_ok _ _ _ _ Hat) (at_generation _ _ _ _ Hat)).
    split_and!; try done.
    rewrite <- (Next_small v n (at_ok _ _ _ _ Hat) (at_generation _ _ _ _ Hat)). by apply emitter_at_Next.
Qed.

Lemma event_of_type g g' e v : eventType g' = eventType g -> event_of g' e v -> event_of g e v.
Proof. unfold event_of. by intros ->. Qed.

(** C15: whatever updates, resync requests and sync rounds, with the producer
    accepting or refusing, an emitter goes through, it never fails, and the
    events that it delivers are of its type and hub and have versions of
    consecutive generations with strictly increasing values, as long as its
    counters do not overflow. *)
Theorem emitter_delivers_increasing_versions ops : forall g c st v,
  emitter_at g st v (ops_weight ops) ->
  exists es g' c' st' vs, emitter_run g c st ops = Ret (es, g', c', st') /\
    Forall2 (event_of g) es vs /\ sent_chain (Generation v) (Value (lastSentVersion g)) vs.
Proof.
  induction ops as [|op ops IH]; intros g c st v Hat; [by exists [], g, c, st, []|].
  destruct (emitter_step_at g c st v op (ops_weight ops) Hat) as (e & g1 & c1 & st1 & v1 & E & Hat1 & Ht & He).
  destruct (IH g1 c1 st1 v1 Hat1) as (es & g' & c' & st' & vs & E' & Hes & Hc).
  assert (Hes' : Forall2 (event_of g) es vs)
    by (eapply Forall2_impl; [exact Hes|]; intros ? ?; by apply event_of_type).
  simpl. rewrite E. simpl. rewrite E'. simpl. destruct e as [e|].
  - destruct He as (He & Hlt & Hg1 & Hl1). exists (e :: es), g', c', st', (v :: vs).
    rewrite Hg1, Hl1 in Hc. split_and!; [done|by constructor|done].
  - destruct He as (Hg1 & Hl1). exists es, g', c', st', vs. rewrite Hg1, Hl1 in Hc. done.
Qed.
End Runs.

Definition sample_emitter : genericEmitter := MkEmitter "t" 0 NewVersion "" None None.
Definition sample_store : Store := MkStore 1 ∅ {[0 := NewVersion]} (Some {["t" := 0]}).

#[local] Instance sample_codec : PayloadCodec := {|
  marshal _ p := match p with PGeneric _ => Err "unsupported value" | _ => Ok [] end |}.

Lemma sample_emitter_at n : (Z.of_nat n < two64)%Z -> emitter_at sample_emitter sample_store NewVersion n.
Proof.
  intros Hn. split; simpl; try done; try lia. intros types t l [= <-] Hl. exists NewVersion.
  apply lookup_singleton_Some in Hl as [_ <-]. apply lookup_singleton_eq.
Qed.

(** An update, a refused event, a resync of the type twice, a round with
    nothing new, data that cannot be encoded for a strict and for a lax syncer. *)
Definition sample_ops : list emitter_op :=
  [OpUpdate; OpSync PNil false false; OpResync (Ok ["t"; "t"; "unknown"; "t"]); OpSync (PCompliance []) true true;
   OpSync PNil false true; OpResync (Err "unexpected end of JSON input"); OpUpdate;
   OpSync (PGeneric [0]) true true; OpSync (PGeneric [0]) false true].

Lemma emitter_delivers_increasing_versions_witness :
  exists es g' c' st' vs,
    emitter_run (Event:=PlainEvent) "hub1" sample_emitter initial_caches sample_store sample_ops = Ret (es, g', c', st') /\
    Forall2 (event_of (Event:=PlainEvent) "hub1" sample_emitter) es vs /\ sent_chain 0 0 vs /\
    (fun e : PlainEvent => Extensions e !! ExtVersion) <$> es = [Some (ExtString "0.3"); Some (ExtString "1.4")].
Proof.
  destruct (emitter_delivers_increasing_versions (Event:=PlainEvent) "hub1" sample_ops
    sample_emitter initial_caches sample_store NewVersion) as (es & g' & c' & st' & vs & E & He & Hc).
  - apply sample_emitter_at. reflexivity.
  - exists es, g', c', st', vs. split; [exact E|]. split; [exact He|]. split; [exact Hc|].
    vm_compute in E. injection E as <- _ _ _. vm_compute. reflexivity.
Defined.


(** ** The manager's side *)

(** The manager's slot for the type: an event is offered, or the held event is
    processed. *)
Inductive slot_op := Offer (v : Version) | Process.
Definition process (s : Slot) : Slot :=
  match slot_held s with
  | Some v => if NewerThan v (Some (slot_last s)) then MkSlot v (slot_held s) else s
  | None => s
  end.
Fixpoint slot_run (s : Slot) (ops : list slot_op) : list bool * Slot :=
  match ops with
  | [] => ([], s)
  | Offer v :: rest => let '(ok, s1) := offer v s in let '(oks, s2) := slot_run s1 rest in (ok :: oks, s2)
  | Process :: rest => slot_run (process s) rest
  end.
Fixpoint offers (ops : list slot_op) : list Version :=
  match ops with [] => [] | Offer v :: rest => v :: offers rest | Process :: rest => offers rest end.

(** Everything known to the slot is older than what comes next. *)
Definition slot_before (s : Slot) (gen val : Z) : Prop :=
  (Generation (slot_last s) < gen)%Z /\
  match slot_held s with Some h => (Generation h < gen)%Z | None => True end.

Lemma offer_newer v s : (0 < Generation v)%Z -> slot_before s (Generation v) (Value v) ->
  offer v s = (true, MkSlot (slot_last s) (Some v)).
Proof.
  intros Hg [Hl Hh]. unfold offer, forget. replace (InitGen v) with false by (symmetry; apply Z.eqb_neq; lia).
  rewrite (proj2 (NewerThan_spec _ _)) by (unfold version_lt; lia). simpl.
  destruct (slot_held s) as [h|]; [|done].
  by rewrite (proj2 (NewerThan_spec _ _)) by (unfold version_lt; lia).
Qed.

Lemma slot_run_chain ops : forall s gen val,
  (0 < gen)%Z -> slot_before s gen val -> sent_chain gen val (offers ops) ->
  Forall (fun ok => ok = true) (slot_run s ops).1.
Proof.
  induction ops as [|[v|] ops IH]; intros s gen val Hg Hs Hc; simpl in *.
  - constructor.
  - destruct Hc as (Ev & Hv & Hc). rewrite offer_newer by (rewrite ?Ev; done).
    destruct (slot_run _ ops) as [oks s2] eqn:E. simpl. constructor; [done|].
    pose proof (IH (MkSlot (slot_last s) (Some v)) (gen + 1)%Z (Value v)) as Hx. rewrite E in Hx.
    apply Hx; [lia| |done]. destruct Hs as [Hl _]. split; simpl; lia.
  - apply (IH _ gen val); [done| |done]. destruct Hs as [Hl Hh]. unfold process, slot_before.
    destruct (slot_held s) as [h|] eqn:Eh; [|by rewrite Eh].
    destruct (NewerThan h (Some (slot_last s))); simpl; rewrite ?Eh; done.
Qed.

(** The manager keeps every event that an emitter that starts delivers: when
    the versions of a new emitter are offered in order to the element of the
    hub and type, in whatever state it is, with the held event processed at any
    time in between, every offer is accepted. *)
Theorem new_emitter_events_are_accepted ops s :
  sent_chain 0 0 (offers ops) -> hd_error ops <> Some Process ->
  Forall (fun ok => ok = true) (slot_run s ops).1.
Proof.
  destruct ops as [|[v|] ops]; intros Hc Hp; simpl in *; [constructor| |done].
  destruct Hc as (Ev & Hv & Hc).
  assert (Ho : offer v s = (true, MkSlot NewVersion (Some v))).
  { unfold offer, forget. replace (InitGen v) with true by (symmetry; apply Z.eqb_eq; done). simpl.
    assert (Hn : version_lt NewVersion v) by (right; simpl; lia).
    rewrite (proj2 (NewerThan_spec _ _) Hn). simpl.
    destruct (slot_held s); simpl; [|done]. by rewrite (proj2 (NewerThan_spec _ _) Hn). }
  rewrite Ho. destruct (slot_run _ ops) as [oks s2] eqn:E. simpl. constructor; [done|].
  pose proof (slot_run_chain ops (MkSlot NewVersion (Some v)) 1 (Value v)) as Hx. rewrite E in Hx.
  apply Hx; [lia| |done]. split; simpl; [lia|]. rewrite Ev. lia.
Qed.

Lemma new_emitter_events_are_accepted_witness :
  (slot_run (MkSlot (MkVersion 5 9) (Some (MkVersion 6 9)))
     [Offer (MkVersion 0 2); Process; Offer (MkVersion 1 3); Offer (MkVersion 2 4)]).1 = [true; true; true] /\
  Forall (fun ok => ok = true) (slot_run (MkSlot (MkVersion 5 9) (Some (MkVersion 6 9)))
     [Offer (MkVersion 0 2); Process; Offer (MkVersion 1 3); Offer (MkVersion 2 4)]).1.
Proof.
  split; [vm_compute; reflexivity|].
  apply (new_emitter_events_are_accepted
    [Offer (MkVersion 0 2); Process; Offer (MkVersion 1 3); Offer (MkVersion 2 4)]); [|discriminate].
  vm_compute. done.
Defined.

(** The first heartbeat of an agent carries the version 0.0, which the
    manager's element of the hub never keeps, whatever its state. *)
Theorem first_heartbeat_is_dropped st s :
  let '(hb, st1) := NewHeartbeatEmitter st in
  st_get_ver st1 (hb_currentVersion hb) = Ret NewVersion /\ hb_ShouldSend hb = true /\
  (offer NewVersion s).1 = false.
Proof.
  simpl. split; [|split; [done|]].
  - unfold st_get_ver; simpl. by rewrite lookup_insert_eq.
  - unfold offer, forget. simpl. by destruct (slot_held s).
Qed.

(** A resync request stops at the first type that is not registered: the
    registered types before it are incremented, those after it are not, and no
    error is reported. *)
Theorem resync_stops_at_unknown_type (types : gmap string nat) st before t after st1 :
  st_resync st = Some types -> types !! t = None ->
  Resync (Ok before) st = Ret (None, st1) -> Forall (fun u => is_Some (types !! u)) before ->
  Resync (Ok (before ++ t :: after)) st = Ret (None, st1).
Proof.
  intros Ht Hn. unfold Resync. rewrite Ht. intros E Hb. inv_ret.
  enough (Hx : resync_types types (before ++ t :: after) st = Ret st1) by (by rewrite Hx).
  clear Ht. revert st E0. induction Hb as [|u before [l Hl] Hb IH]; intros st E; simpl in *.
  - rewrite Hn. done.
  - rewrite Hl in *. inv_ret. by apply IH.
Qed.

Lemma resync_stops_at_unknown_type_witness :
  let st := MkStore 2 ∅ {[0 := NewVersion; 1 := NewVersion]} (Some {["a" := 0; "b" := 1]}) in
  let st1 := MkStore 2 ∅ {[0 := MkVersion 0 1; 1 := NewVersion]} (Some {["a" := 0; "b" := 1]}) in
  Resync (Ok ["a"; "unknown"; "b"]) st = Ret (None, st1).
Proof.
  intros st st1. apply (resync_stops_at_unknown_type {["a" := 0; "b" := 1]} st ["a"] "unknown" ["b"] st1).
  - reflexivity.
  - vm_compute. reflexivity.
  - vm_compute. reflexivity.
  - constructor; [|constructor]. vm_compute. eauto.
Defined.
