(* ===== verification/GenericHandler.v ===== *)
(** * The generic handler of the agent's syncers

    [agent/pkg/status/generic/generic_handler.go]: the bundle is a slice of
    pointers to objects of the store; an object can be changed after it was put
    in the bundle. *)

From stdpp Require Import prelude gmap strings list.
From Stdlib Require Import ZArith Lia.
From S2P Require Import Prelude.
From S2P Require Import GoLib.
From S2P Require Import Version.
From S2P Require Import CloudEvents.
From S2P Require Import KubeObjects.
Local Open Scope string_scope.
Local Open Scope list_scope.

(** The configuration the predicates read ([configmap]). *)
Record AgentConfig := MkConfig { AggregationFull : bool; EnableLocalPolicy : bool }.

Record genericHandler := MkGenericHandler {
  gh_eventData : list nat;
  gh_isSpec : bool;
  gh_tweakFunc : option (Object -> outcome Object);
  gh_shouldUpdate : option (AgentConfig -> Object -> bool);
}.

Definition HandlerOption := genericHandler -> genericHandler.
Definition WithTweakFunc (f : Object -> outcome Object) : HandlerOption := fun g =>
  MkGenericHandler (gh_eventData g) (gh_isSpec g) (Some f) (gh_shouldUpdate g).
Definition WithSpec (onlySpec : bool) : HandlerOption := fun g =>
  MkGenericHandler (gh_eventData g) onlySpec (gh_tweakFunc g) (gh_shouldUpdate g).
Definition WithShouldUpdate (f : AgentConfig -> Object -> bool) : HandlerOption := fun g =>
  MkGenericHandler (gh_eventData g) (gh_isSpec g) (gh_tweakFunc g) (Some f).

Definition NewGenericHandler (eventData : list nat) (opts : list HandlerOption) : genericHandler :=
  fold_left (fun h fn => fn h) opts (MkGenericHandler eventData false None None).

Definition set_data (h : genericHandler) (l : list nat) : genericHandler :=
  MkGenericHandler l (gh_isSpec h) (gh_tweakFunc h) (gh_shouldUpdate h).

(** The first index whose object satisfies [p]; [None] is [-1]. *)
Fixpoint object_index (st : Store) (p : Object -> bool) (objects : list nat) : outcome (option nat) :=
  match objects with
  | [] => Ret None
  | l :: rest =>
      let! o := st_get_obj st l in
      if p o then Ret (Some 0)
      else let! r := object_index st p rest in Ret (option_map S r)
  end.

Definition getObjectIndexByUID (st : Store) (uid : string) (objects : list nat) : outcome (option nat) :=
  object_index st (fun o => String.eqb (UID o) uid) objects.

Definition getObjectIndexByObj (st : Store) (obj : Object) (objects : list nat) : outcome (option nat) :=
  if (0 <? String.length (UID obj))%nat then getObjectIndexByUID st (UID obj) objects
  else object_index st (fun o => String.eqb (Namespace o) (Namespace obj) && String.eqb (Name o) (Name obj)) objects.

Definition should (h : genericHandler) (cfg : AgentConfig) (o : Object) : bool :=
  match gh_shouldUpdate h with Some f => f cfg o | None => true end.

(** The object is the pointer [p]. *)
Definition generic_Update (h : genericHandler) (cfg : AgentConfig) (p : nat) (st : Store)
    : outcome (bool * genericHandler * Store) :=
  let! obj := st_get_obj st p in
  if negb (should h cfg obj) then Ret (false, h, st)
  else
    let! index := getObjectIndexByUID st (UID obj) (gh_eventData h) in
    match index with
    | None => Ret (true, set_data h (gh_eventData h ++ [p]), st)
    | Some i =>
        let! oldp := slice_get (gh_eventData h) i in
        let! old := st_get_obj st oldp in
        if gh_isSpec h && (Generation_ old =? Generation_ obj)%Z then Ret (false, h, st)
        else if String.eqb (ResourceVersion obj) (ResourceVersion old) then Ret (false, h, st)
        else
          let! data := slice_set (gh_eventData h) i p in
          match gh_tweakFunc h with
          | None => Ret (true, set_data h data, st)
          | Some tweak => let! obj' := tweak obj in Ret (true, set_data h data, st_set_obj st p obj')
          end
    end.

Definition generic_Delete (h : genericHandler) (cfg : AgentConfig) (p : nat) (st : Store)
    : outcome (bool * genericHandler) :=
  let! obj := st_get_obj st p in
  if negb (should h cfg obj) then Ret (false, h)
  else
    let! index := getObjectIndexByObj st obj (gh_eventData h) in
    match index with
    | None => Ret (false, h)
    | Some i => Ret (true, set_data h (slice_remove (gh_eventData h) i))
    end.

(** ** The bundle *)

(** Every pointer of the bundle is valid and no two objects have the same UID. *)
Definition uids (st : Store) (l : list nat) : list string := (fun p => default "" (UID <$> st_objs st !! p)) <$> l.
Definition bundle_ok (st : Store) (h : genericHandler) : Prop :=
  (forall p, p ∈ gh_eventData h -> is_Some (st_objs st !! p)) /\ NoDup (uids st (gh_eventData h)).

Lemma object_index_spec st p l :
  (forall q, q ∈ l -> is_Some (st_objs st !! q)) ->
  object_index st p l = Ret (find_index (fun q => match st_objs st !! q with Some o => p o | None => false end) l).
Proof.
  induction l as [|q l IH]; intros Hl; simpl; [done|].
  destruct (Hl q) as [o Ho]; [by left|]. rewrite (proj2 (st_get_obj_Ret _ _ _) Ho), Ho. simpl.
  destruct (p o); [done|]. rewrite IH; [done|]. intros; apply Hl. by right.
Qed.

Lemma index_uid_spec st uid l :
  (forall q, q ∈ l -> is_Some (st_objs st !! q)) ->
  exists r, getObjectIndexByUID st uid l = Ret r /\
    match r with
    | Some i => exists q o, l !! i = Some q /\ st_objs st !! q = Some o /\ UID o = uid
    | None => forall q o, q ∈ l -> st_objs st !! q = Some o -> UID o <> uid
    end.
Proof.
  intros Hl. unfold getObjectIndexByUID. rewrite object_index_spec by done.
  eexists; split; [done|]. destruct (find_index _ l) as [i|] eqn:E.
  - apply find_index_Some in E as (q & Hq & Hp & _). exists q.
    destruct (st_objs st !! q) as [o|]; [|done]. exists o. apply String.eqb_eq in Hp. done.
  - apply find_index_None in E. intros q o Hq Ho Hu. rewrite Forall_forall in E. specialize (E _ Hq).
    simpl in E. rewrite Ho in E. apply String.eqb_neq in E. done.
Qed.

Lemma uids_insert st l i q p o o' :
  l !! i = Some q -> st_objs st !! q = Some o -> st_objs st !! p = Some o' -> UID o = UID o' ->
  uids st (<[i := p]> l) = uids st l.
Proof.
  intros Hi Ho Ho' Hu. unfold uids. rewrite list_fmap_insert. apply list_insert_id.
  rewrite list_lookup_fmap, Hi. simpl. rewrite Ho, Ho'. simpl. by rewrite Hu.
Qed.

Lemma uids_set st p o o' l :
  st_objs st !! p = Some o -> UID o' = UID o -> uids (st_set_obj st p o') l = uids st l.
Proof.
  intros Ho Hu. unfold uids. apply list_fmap_ext. intros _ q _. simpl.
  destruct (decide (p = q)) as [<-|]; [by rewrite lookup_insert_eq, Ho; simpl; rewrite Hu|by rewrite lookup_insert_ne].
Qed.

(** The tweak keeps the identity of the object. *)
Definition tweak_ok (h : genericHandler) : Prop :=
  forall f o o', gh_tweakFunc h = Some f -> f o = Ret o' -> UID o' = UID o.

Definition tweak_total (h : genericHandler) (o : Object) : Prop :=
  forall f, gh_tweakFunc h = Some f -> exists o', f o = Ret o'.

(** An update of a valid bundle by an object returns and keeps the bundle
    valid, with one entry per UID; it reports a change exactly when the object
    passes the predicate and is either not in the bundle or differs from its
    entry in the resource version (and in the generation, for a spec bundle),
    and then the bundle holds the new object. *)
Theorem generic_Update_spec h cfg p st obj :
  bundle_ok st h -> tweak_ok h -> tweak_total h obj -> st_objs st !! p = Some obj ->
  exists b h' st', generic_Update h cfg p st = Ret (b, h', st') /\ bundle_ok st' h' /\
    (b = true -> p ∈ gh_eventData h') /\ (b = false -> h' = h /\ st' = st) /\
    (b = true <-> should h cfg obj = true /\
       forall q old, q ∈ gh_eventData h -> st_objs st !! q = Some old -> UID old = UID obj ->
         ResourceVersion obj <> ResourceVersion old /\
         (gh_isSpec h = true -> Generation_ old <> Generation_ obj)).
Proof.
  intros [Hval Hnd] Htw Htot Hp. unfold generic_Update.
  rewrite (proj2 (st_get_obj_Ret _ _ _) Hp). simpl.
  destruct (should h cfg obj) eqn:Esh; simpl.
  2: { exists false, h, st. split_and!; try done. split; [done|by intros [? _]]. }
  destruct (index_uid_spec st (UID obj) (gh_eventData h) Hval) as (r & -> & Hr). simpl.
  destruct r as [i|].
  - destruct Hr as (q & old & Hi & Hold & Hu).
    rewrite (proj2 (slice_get_Ret _ _ _) Hi). simpl.
    rewrite (proj2 (st_get_obj_Ret _ _ _) Hold). simpl.
    assert (Huniq : forall q' old', q' ∈ gh_eventData h -> st_objs st !! q' = Some old' -> UID old' = UID obj -> old' = old).
    { intros q' old' Hq' Hold' Hu'.
      assert (q' = q) as ->; [|congruence].
      eapply (NoDup_fmap_eq (fun p => default "" (UID <$> st_objs st !! p))); [exact Hnd|done|by eapply list_elem_of_lookup_2|].
      by rewrite Hold', Hold; simpl; rewrite Hu, Hu'. }
    assert (Hq : q ∈ gh_eventData h) by (by eapply list_elem_of_lookup_2).
    destruct (gh_isSpec h && (Generation_ old =? Generation_ obj)%Z) eqn:Eg.
    { exists false, h, st. split_and!; try done. split; [done|]. intros [_ Hall].
      destruct (Hall _ _ Hq Hold Hu) as [_ Hgen]. apply andb_true_iff in Eg as [Es Eg].
      apply Z.eqb_eq in Eg. by apply Hgen in Es. }
    destruct (String.eqb_spec (ResourceVersion obj) (ResourceVersion old)) as [Erv|Erv].
    { exists false, h, st. split_and!; try done. split; [done|]. intros [_ Hall].
      by destruct (Hall _ _ Hq Hold Hu). }
    rewrite slice_set_lt by (by eapply lookup_lt_Some). simpl.
    assert (Hiff : true = true <-> true = true /\
       forall q' old', q' ∈ gh_eventData h -> st_objs st !! q' = Some old' -> UID old' = UID obj ->
         ResourceVersion obj <> ResourceVersion old' /\ (gh_isSpec h = true -> Generation_ old' <> Generation_ obj)).
    { split; [|done]. intros _. split; [done|]. intros q' old' Hq' Hold' Hu'.
      rewrite (Huniq _ _ Hq' Hold' Hu'). split; [done|]. intros Hs. rewrite Hs in Eg. simpl in Eg.
      by apply Z.eqb_neq. }
    assert (Hin : p ∈ <[i:=p]> (gh_eventData h))
      by (eapply list_elem_of_lookup_2; apply list_lookup_insert_eq; by eapply lookup_lt_Some).
    assert (Hvalid : forall q', q' ∈ <[i:=p]> (gh_eventData h) -> is_Some (st_objs st !! q')).
    { intros q' (k & Hk)%list_elem_of_lookup. rewrite list_lookup_insert in Hk.
      case_decide; [injection Hk as <-; eauto|]. apply Hval. by eapply list_elem_of_lookup_2. }
    destruct (gh_tweakFunc h) as [tweak|] eqn:Etw.
    + destruct (Htot _ Etw) as [obj' Eo]. rewrite Eo. simpl.
      pose proof (Htw _ _ _ Etw Eo) as Huid.
      eexists true, _, _. split; [done|]. split; [split|split_and!]; try done; simpl.
      * intros q' Hq'. destruct (decide (p = q')) as [<-|]; [rewrite lookup_insert_eq; eauto|].
        rewrite lookup_insert_ne by done. auto.
      * erewrite (uids_set st p obj obj'), (uids_insert st _ i q p old obj); done.
    + eexists true, _, _. split; [done|]. split; [split|split_and!]; try done; simpl.
      erewrite (uids_insert st _ i q p old obj); done.
  - exists true, (set_data h (gh_eventData h ++ [p])), st. split; [done|]. simpl.
    split; [split|split_and!]; simpl; try done.
    + intros q [Hq| ->%list_elem_of_singleton]%elem_of_app; eauto.
    + unfold uids. rewrite fmap_app. apply NoDup_app. split_and!; [done| |apply NoDup_singleton].
      simpl. rewrite Hp. simpl. intros u (q & -> & Hq)%list_elem_of_fmap Hin%list_elem_of_singleton.
      destruct (Hval _ Hq) as [o Ho]. rewrite Ho in Hin. simpl in Hin. by eapply Hr.
    + intros _. apply elem_of_app. right. by left.
    + split; [|done]. intros _. split; [done|]. intros q old Hq Hold Hu. by destruct (Hr _ _ Hq Hold).
Qed.

(** A tweak function is not applied to an object that is inserted in the
    bundle: the object of the bundle is the one received. *)
Theorem first_insertion_is_not_tweaked h cfg p st obj f :
  (forall q, q ∈ gh_eventData h -> exists o, st_objs st !! q = Some o /\ UID o <> UID obj) ->
  gh_tweakFunc h = Some f -> should h cfg obj = true -> st_objs st !! p = Some obj ->
  generic_Update h cfg p st = Ret (true, set_data h (gh_eventData h ++ [p]), st).
Proof.
  intros Hnot _ Hsh Hp. unfold generic_Update. rewrite (proj2 (st_get_obj_Ret _ _ _) Hp). simpl.
  rewrite Hsh. simpl. destruct (index_uid_spec st (UID obj) (gh_eventData h)) as (r & -> & Hr).
  { intros q Hq. destruct (Hnot _ Hq) as (o & ? & _). eauto. }
  simpl. destruct r as [i|]; [|done]. destruct Hr as (q & o & Hi & Ho & Hu).
  destruct (Hnot q) as (o' & Ho' & Hne); [by eapply list_elem_of_lookup_2|]. congruence.
Qed.

(** ** Examples *)
Definition sample_policy (uid rv : string) (gen : Z) (status : PolicyStatus) : Object :=
  MkObject uid "default" ("policy-" +:+ uid) gen rv 0 None ∅ ∅ [] [] [] "" (BPolicy status).
Definition sample_status : PolicyStatus :=
  MkPolicyStatus (Some [MkClusterStatus "cluster1" "Compliant"; MkClusterStatus "cluster2" "NonCompliant"]) "" None.
Definition clear_status (o : Object) : outcome Object :=
  match obj_body o with BPolicy _ => Ret (set_body o (BPolicy empty_status)) | _ => Panic end.
Definition spec_handler (data : list nat) : genericHandler :=
  NewGenericHandler data [WithSpec true; WithTweakFunc clear_status].
Definition two_policies : Store :=
  MkStore 2 {[0 := sample_policy "a" "1" 1 sample_status; 1 := sample_policy "a" "2" 2 sample_status]} ∅ None.

Lemma generic_Update_spec_witness :
  exists b h' st', generic_Update (spec_handler [0]) (MkConfig true true) 1 two_policies = Ret (b, h', st') /\
    bundle_ok st' h' /\ b = true.
Proof.
  destruct (generic_Update_spec (spec_handler [0]) (MkConfig true true) 1 two_policies
    (sample_policy "a" "2" 2 sample_status)) as (b & h' & st' & E & Hok & _).
  - split.
    + intros p Hp%list_elem_of_singleton. subst p. vm_compute. eauto.
    + vm_compute. apply NoDup_singleton.
  - intros f o o' [= <-]. unfold clear_status. destruct (obj_body o); [|done..]. by intros [= <-].
  - intros f [= <-]. eexists. reflexivity.
  - reflexivity.
  - exists b, h', st'. split; [exact E|]. split; [exact Hok|]. vm_compute in E. by injection E as <- _ _.
Defined.

Lemma first_insertion_is_not_tweaked_witness :
  generic_Update (spec_handler []) (MkConfig true true) 1 two_policies =
    Ret (true, set_data (spec_handler []) [1], two_policies).
Proof.
  apply (first_insertion_is_not_tweaked (spec_handler []) (MkConfig true true) 1 two_policies
    (sample_policy "a" "2" 2 sample_status) clear_status).
  - intros q Hq. by apply not_elem_of_nil in Hq.
  - reflexivity.
  - reflexivity.
  - reflexivity.
Defined.
