(* ===== verification/PolicyHandlers.v ===== *)
(** * The policy handlers of the agent

    [agent/pkg/status/syncers/policies/handlers]: the compliance bundle (the
    clusters of every policy by state), the complete-compliance bundle (the
    clusters that are not compliant) and the events of the policies' status. *)

From stdpp Require Import prelude gmap strings list.
From Stdlib Require Import ZArith Lia.
From S2P Require Import Prelude.
From S2P Require Import GoLib.
From S2P Require Import Regex.
From S2P Require Import EventTypes.
From S2P Require Import Version.
From S2P Require Import CloudEvents.
From S2P Require Import KubeObjects.
From S2P Require Import TimeFilter.
From S2P Require Import ConflationSafety.
From S2P Require Import Emitter.
From S2P Require Import GenericHandler.
Local Open Scope string_scope.
Local Open Scope list_scope.

(** ** Reading a policy *)
Definition Compliant : string := "Compliant".
Definition NonCompliant : string := "NonCompliant".
Definition Pending : string := "Pending".

Definition namespacedName (o : Object) : string := Namespace o +:+ "/" +:+ Name o.

Definition extractPolicyIdentity (o : Object) : string :=
  match Annotations o !! OriginOwnerReferenceAnnotation with
  | Some id => id
  | None => UID o
  end.

(** The statuses per cluster; ranging over a nil slice does nothing. *)
Definition statuses (s : PolicyStatus) : list CompliancePerClusterStatus := default [] (ps_Status s).

(** Compliant, non-compliant, unknown and pending clusters. *)
Definition cluster_step (acc : list string * list string * list string * list string)
    (c : CompliancePerClusterStatus) : list string * list string * list string * list string :=
  let '(comp, nonc, unk, pend) := acc in
  if String.eqb (ComplianceState c) Compliant then (comp ++ [ClusterName c], nonc, unk, pend)
  else if String.eqb (ComplianceState c) NonCompliant then (comp, nonc ++ [ClusterName c], unk, pend)
  else if String.eqb (ComplianceState c) Pending then (comp, nonc, unk, pend ++ [ClusterName c])
  else (comp, nonc, unk ++ [ClusterName c], pend).

Definition getClusterStatus (s : PolicyStatus) : list string * list string * list string * list string :=
  fold_left cluster_step (statuses s) ([], [], [], []).

(** ** The compliance handler *)
Record complianceHandler := MkComplianceHandler {
  ch_eventData : list Compliance;
  ch_shouldUpdate : AgentConfig -> Object -> bool;
}.
Definition ch_set (h : complianceHandler) (l : list Compliance) : complianceHandler :=
  MkComplianceHandler l (ch_shouldUpdate h).

Definition getNewCompliance (originPolicyID : string) (o : Object) (s : PolicyStatus) : Compliance :=
  let '(comp, nonc, unk, pend) := getClusterStatus s in
  MkCompliance originPolicyID (namespacedName o) comp nonc unk pend.

Definition getIndexByPolicyID (uid : string) (cs : list Compliance) : option nat :=
  find_index (fun c => String.eqb (cp_PolicyID c) uid) cs.

Definition getCompliancesIndexByObj (o : Object) (cs : list Compliance) : option nat :=
  let uid := extractPolicyIdentity o in
  if (0 <? String.length uid)%nat then find_index (fun c => String.eqb uid (cp_PolicyID c)) cs
  else find_index (fun c => String.eqb (cp_NamespacedName c) (namespacedName o)) cs.

(** Whether the list of clusters changed, and the new entry. *)
Definition compare_clusters (cached : Compliance) (s : PolicyStatus) : bool * Compliance :=
  let '(comp, nonc, unk, pend) := getClusterStatus s in
  let allClusters := Merge [comp; nonc; unk; pend] in
  let clusterListChanged :=
    negb (length (cp_CompliantClusters cached) + length (cp_NonCompliantClusters cached) +
          length (cp_UnknownComplianceClusters cached) + length (cp_PendingComplianceClusters cached)
          =? length allClusters)%nat
    || negb (ContainSubStrings allClusters (cp_CompliantClusters cached))
    || negb (ContainSubStrings allClusters (cp_NonCompliantClusters cached))
    || negb (ContainSubStrings allClusters (cp_UnknownComplianceClusters cached))
    || negb (ContainSubStrings allClusters (cp_PendingComplianceClusters cached)) in
  (clusterListChanged, MkCompliance (cp_PolicyID cached) (cp_NamespacedName cached) comp nonc unk pend).

Definition updatePayloadIfChanged (h : complianceHandler) (objectIndex : nat) (s : PolicyStatus)
    : outcome (bool * complianceHandler) :=
  let! cached := slice_get (ch_eventData h) objectIndex in
  let '(changed, new) := compare_clusters cached s in
  let! data := slice_set (ch_eventData h) objectIndex new in
  Ret (changed, ch_set h data).

Definition no_clusters (c : Compliance) : bool :=
  (length (cp_CompliantClusters c) =? 0)%nat && (length (cp_NonCompliantClusters c) =? 0)%nat &&
  (length (cp_UnknownComplianceClusters c) =? 0)%nat && (length (cp_PendingComplianceClusters c) =? 0)%nat.

Definition compliance_Update (h : complianceHandler) (cfg : AgentConfig) (o : Object)
    : outcome (bool * complianceHandler) :=
  if negb (ch_shouldUpdate h cfg o) then Ret (false, h)
  else
    match obj_body o with
    | BPolicy s =>
        let policyID := extractPolicyIdentity o in
        match getIndexByPolicyID policyID (ch_eventData h) with
        | None =>
            let compliance := getNewCompliance policyID o s in
            if no_clusters compliance then Ret (false, h)
            else Ret (true, ch_set h (ch_eventData h ++ [compliance]))
        | Some index => updatePayloadIfChanged h index s
        end
    | _ => Ret (false, h)
    end.

Definition compliance_Delete (h : complianceHandler) (cfg : AgentConfig) (o : Object)
    : bool * complianceHandler :=
  if negb (ch_shouldUpdate h cfg o) then (false, h)
  else
    match getCompliancesIndexByObj o (ch_eventData h) with
    | None => (false, h)
    | Some i => (true, ch_set h (slice_remove (ch_eventData h) i))
    end.

(** ** The complete-compliance handler *)
Record completeComplianceHandler := MkCompleteHandler {
  cch_eventData : list CompleteCompliance;
  cch_shouldUpdate : AgentConfig -> Object -> bool;
}.
Definition cch_set (h : completeComplianceHandler) (l : list CompleteCompliance) : completeComplianceHandler :=
  MkCompleteHandler l (cch_shouldUpdate h).

Definition complete_cluster_step (acc : list string * list string * list string) (c : CompliancePerClusterStatus)
    : list string * list string * list string :=
  let '(nonc, unk, pend) := acc in
  if String.eqb (ComplianceState c) Compliant then acc
  else if String.eqb (ComplianceState c) NonCompliant then (nonc ++ [ClusterName c], unk, pend)
  else if String.eqb (ComplianceState c) Pending then (nonc, unk, pend ++ [ClusterName c])
  else (nonc, unk ++ [ClusterName c], pend).

Definition newCompleteCompliance (originPolicyID : string) (o : Object) (s : PolicyStatus) : CompleteCompliance :=
  let '(nonc, unk, pend) := fold_left complete_cluster_step (statuses s) ([], [], []) in
  MkComplete_ originPolicyID (namespacedName o) nonc unk pend.

Definition getPayloadIndexByUID (uid : string) (cs : list CompleteCompliance) : option nat :=
  find_index (fun c => String.eqb (cc_PolicyID c) uid) cs.

Definition getPayloadIndexByObj (o : Object) (cs : list CompleteCompliance) : option nat :=
  let uid := extractPolicyIdentity o in
  if (0 <? String.length uid)%nat then find_index (fun c => String.eqb uid (cc_PolicyID c)) cs
  else find_index (fun c => String.eqb (cc_NamespacedName c) (namespacedName o)) cs.

Definition all_compliant (c : CompleteCompliance) : bool :=
  (length (cc_NonCompliantClusters c) =? 0)%nat && (length (cc_UnknownComplianceClusters c) =? 0)%nat &&
  (length (cc_PendingComplianceClusters c) =? 0)%nat.

Definition completeCompliance_Update (h : completeComplianceHandler) (cfg : AgentConfig) (o : Object)
    : outcome (bool * completeComplianceHandler) :=
  match obj_body o with
  | BPolicy s =>
      if negb (cch_shouldUpdate h cfg o) then Ret (false, h)
      else
        match ps_Status s with
        | None => Ret (false, h)
        | Some _ =>
            let originPolicyID := extractPolicyIdentity o in
            let newComplete := newCompleteCompliance originPolicyID o s in
            match getPayloadIndexByUID originPolicyID (cch_eventData h) with
            | None =>
                if all_compliant newComplete then Ret (false, h)
                else Ret (true, cch_set h (cch_eventData h ++ [newComplete]))
            | Some index =>
                let! oldComplete := slice_get (cch_eventData h) index in
                if Equal (cc_NonCompliantClusters oldComplete) (cc_NonCompliantClusters newComplete) &&
                   Equal (cc_PendingComplianceClusters oldComplete) (cc_PendingComplianceClusters newComplete) &&
                   Equal (cc_UnknownComplianceClusters oldComplete) (cc_UnknownComplianceClusters newComplete)
                then Ret (false, h)
                else
                  let entry := MkComplete_ (cc_PolicyID oldComplete) (cc_NamespacedName oldComplete)
                    (cc_NonCompliantClusters newComplete) (cc_UnknownComplianceClusters newComplete)
                    (cc_PendingComplianceClusters newComplete) in
                  let! data := slice_set (cch_eventData h) index entry in
                  Ret (true, cch_set h (if all_compliant entry then slice_remove data index else data))
            end
        end
  | _ => Ret (false, h)
  end.

Definition completeCompliance_Delete (h : completeComplianceHandler) (cfg : AgentConfig) (o : Object)
    : bool * completeComplianceHandler :=
  match obj_body o with
  | BPolicy _ =>
      if negb (cch_shouldUpdate h cfg o) then (false, h)
      else
        match getPayloadIndexByObj o (cch_eventData h) with
        | None => (false, h)
        | Some i => (false, cch_set h (slice_remove (cch_eventData h) i))
        end
  | _ => (false, h)
  end.

(** ** The status event handler *)
Record policyStatusEventHandler := MkStatusEventHandler {
  se_name : string;
  se_payload : list ReplicatedPolicyEvent;
  se_shouldUpdate : AgentConfig -> Object -> bool;
}.

(** [(\w+);] *)
Definition MessageCompliaceStateRegex : list piece := [Plus word_class; Lit ";"].

(** The first group holds word characters: trimming it changes nothing. *)
Definition GetComplianceState (regex : list piece) (message defaultVal : string) : string :=
  match find_submatch regex message with
  | Some (firstWord :: _) => firstWord
  | _ => defaultVal
  end.

Example state_of_message : GetComplianceState MessageCompliaceStateRegex "NonCompliant; violation - x" "Pending" = "NonCompliant".
Proof. reflexivity. Qed.
Example state_of_plain_message : GetComplianceState MessageCompliaceStateRegex "no state" "Pending" = "Pending".
Proof. reflexivity. Qed.

Section StatusEvents.
Context {W : Type} `{KubeClient W}.

Definition GetRootPolicyAndClusterInfo (replicatedPolicy : Object) (w : W) : result (Object * string * string) :=
  let rootPolicyNamespacedName := default "" (Labels replicatedPolicy !! PolicyEventRootPolicyNameLabelKey) in
  let? rootPolicy := GetRootPolicy w rootPolicyNamespacedName in
  match Labels replicatedPolicy !! PolicyEventClusterNameLabelKey with
  | None => Err "cluster name label not found"
  | Some clusterName =>
      let? clusterID := GetClusterId w clusterName in
      Ok (rootPolicy, clusterID, clusterName)
  end.

Definition NewPolicyStatusEventHandler (eventType : string) (shouldUpdate : AgentConfig -> Object -> bool)
    (c : TimeCaches) : policyStatusEventHandler * TimeCaches :=
  let name := short_name eventType in
  (MkStatusEventHandler name [] shouldUpdate, RegisterTimeFilter name c).

Definition history_event (o root : Object) (clusterID clusterName : string) (detail : DetailsPerTemplate)
    (evt : ComplianceHistory) : ReplicatedPolicyEvent :=
  MkReplicatedPolicyEvent
    (MkBaseEvent (hist_EventName evt) (Namespace o) (hist_Message evt) "PolicyStatusSync" 1
       "policy-status-history-sync" (hist_LastTimestamp evt))
    (UID root) clusterID clusterName (GetComplianceState MessageCompliaceStateRegex (hist_Message evt) (det_ComplianceState detail)).

(** The events of the history that pass the time filter. *)
Definition detail_events (name : string) (o root : Object) (clusterID clusterName : string) (c : TimeCaches)
    (detail : DetailsPerTemplate) : list ReplicatedPolicyEvent :=
  history_event o root clusterID clusterName detail <$>
    filter (fun evt => Newer name (hist_LastTimestamp evt) c = true) (default [] (det_History detail)).

Definition statusEvent_Update (h : policyStatusEventHandler) (cfg : AgentConfig) (o : Object) (c : TimeCaches) (w : W)
    : bool * policyStatusEventHandler :=
  if negb (se_shouldUpdate h cfg o) then (false, h)
  else
    match obj_body o with
    | BPolicy s =>
        match ps_Details s with
        | None => (false, h)
        | Some details =>
            match GetRootPolicyAndClusterInfo o w with
            | Err _ => (false, h)
            | Ok (rootPolicy, clusterID, clusterName) =>
                let evts := concat (detail_events (se_name h) o rootPolicy clusterID clusterName c <$> details) in
                (negb (length evts =? 0)%nat,
                 MkStatusEventHandler (se_name h) (se_payload h ++ evts) (se_shouldUpdate h))
            end
        end
    | _ => (false, h)
    end.

Definition statusEvent_Delete (h : policyStatusEventHandler) (o : Object) : bool := false.
End StatusEvents.

(** The function run after the events are sent: it caches their times and
    empties the payload. *)
Definition status_postSend (name : string) (data : payload) (c : TimeCaches) : payload * TimeCaches :=
  match data with
  | PReplicated events =>
      (PReplicated [], fold_left (fun c evt => CacheTime name (be_CreatedAt (rp_Base evt)) c) events c)
  | _ => (data, c)
  end.

Definition NewPolicyStatusEventEmitter (eventType : string) (st : Store) : outcome (genericEmitter * Store) :=
  NewGenericEmitter eventType [WithPostSend (status_postSend (short_name eventType))] st.

(** ** Facts *)
Definition all_names (s : PolicyStatus) : list string := ClusterName <$> statuses s.

(** The clusters of a state. *)
Definition in_state (p : string -> bool) (l : list CompliancePerClusterStatus) : list string :=
  ClusterName <$> filter (fun c => p (ComplianceState c) = true) l.
Definition is_state (x y : string) : bool := String.eqb y x.
Definition is_unknown (y : string) : bool :=
  negb (String.eqb y Compliant) && negb (String.eqb y NonCompliant) && negb (String.eqb y Pending).

Lemma in_state_snoc p l c :
  in_state p (l ++ [c]) = in_state p l ++ (if p (ComplianceState c) then [ClusterName c] else []).
Proof.
  unfold in_state. rewrite filter_app, fmap_app. f_equal. rewrite filter_cons.
  destruct (p (ComplianceState c)); simpl; by rewrite ?decide_True, ?decide_False.
Qed.

(** The four states of a cluster exclude each other and cover every string. *)
Lemma state_cases (y : string) :
  (is_state Compliant y, is_state NonCompliant y, is_unknown y, is_state Pending y) =
  if String.eqb y Compliant then (true, false, false, false)
  else if String.eqb y NonCompliant then (false, true, false, false)
  else if String.eqb y Pending then (false, false, false, true)
  else (false, false, true, false).
Proof.
  unfold is_state, is_unknown.
  destruct (String.eqb_spec y Compliant) as [E|?]; [by subst y|].
  destruct (String.eqb_spec y NonCompliant) as [E|?]; [by subst y|].
  destruct (String.eqb_spec y Pending) as [E|?]; [by subst y|done].
Qed.

(** Splits on the state of a cluster. *)
Ltac state_split c :=
  let H := fresh "H" in
  pose proof (state_cases (ComplianceState c)) as H;
  destruct (String.eqb (ComplianceState c) Compliant);
  [|destruct (String.eqb (ComplianceState c) NonCompliant);
    [|destruct (String.eqb (ComplianceState c) Pending)]];
  let E1 := fresh "E" in let E2 := fresh "E" in let E3 := fresh "E" in let E4 := fresh "E" in
  injection H as E1 E2 E3 E4; rewrite ?E1, ?E2, ?E3, ?E4, ?app_nil_r; clear E1 E2 E3 E4.

Lemma getClusterStatus_spec s :
  getClusterStatus s =
  (in_state (is_state Compliant) (statuses s), in_state (is_state NonCompliant) (statuses s),
   in_state is_unknown (statuses s), in_state (is_state Pending) (statuses s)).
Proof.
  unfold getClusterStatus. induction (statuses s) as [|c l IH] using rev_ind; [done|].
  rewrite fold_left_app, IH, !in_state_snoc. cbn [fold_left]. unfold cluster_step. by state_split c.
Qed.

(** Every cluster is in exactly one of the four lists. *)
Lemma getClusterStatus_partition s :
  let '(comp, nonc, unk, pend) := getClusterStatus s in
  comp ++ nonc ++ unk ++ pend ≡ₚ all_names s.
Proof.
  rewrite getClusterStatus_spec. unfold all_names.
  induction (statuses s) as [|c l IH] using rev_ind; [done|].
  rewrite !in_state_snoc, fmap_app, <- IH. change (ClusterName <$> [c]) with [ClusterName c].
  state_split c; solve_Permutation.
Qed.

Definition clusters_of (c : Compliance) : list string :=
  cp_CompliantClusters c ++ cp_NonCompliantClusters c ++ cp_UnknownComplianceClusters c ++
  cp_PendingComplianceClusters c.

(** For a policy whose status names each cluster once, an update of its entry
    reports a change exactly when its set of clusters changed, whatever the
    states, and in every case the entry holds the new state of every
    cluster. *)
Theorem compliance_change_iff_clusters_changed cached s :
  NoDup (clusters_of cached) -> NoDup (all_names s) ->
  ((compare_clusters cached s).1 = false <-> clusters_of cached ≡ₚ all_names s) /\
  clusters_of (compare_clusters cached s).2 ≡ₚ all_names s /\
  (cp_CompliantClusters (compare_clusters cached s).2 = in_state (is_state Compliant) (statuses s) /\
   cp_NonCompliantClusters (compare_clusters cached s).2 = in_state (is_state NonCompliant) (statuses s) /\
   cp_UnknownComplianceClusters (compare_clusters cached s).2 = in_state is_unknown (statuses s) /\
   cp_PendingComplianceClusters (compare_clusters cached s).2 = in_state (is_state Pending) (statuses s)).
Proof.
  intros Hc Hs. unfold compare_clusters. pose proof (getClusterStatus_partition s) as Hp.
  rewrite getClusterStatus_spec in *. cbn [fst snd].
  set (all := Merge _). assert (Hall : all ≡ₚ all_names s).
  { unfold all, Merge. cbn [concat]. by rewrite app_nil_r. }
  split; [|split; [exact Hp|done]].
  rewrite !orb_false_iff, !negb_false_iff, Nat.eqb_eq, !ContainSubStrings_spec.
  rewrite <- Hall. unfold clusters_of in *. split.
  - intros [[[[Hl H1] H2] H3] H4]. apply submseteq_length_Permutation.
    + apply NoDup_submseteq; [done|]. intros x. rewrite !elem_of_app. intuition.
    + rewrite !length_app. lia.
  - intros He. assert (Hx : forall x, x ∈ cp_CompliantClusters cached ++ cp_NonCompliantClusters cached ++
        cp_UnknownComplianceClusters cached ++ cp_PendingComplianceClusters cached -> x ∈ all)
      by (intros x; by rewrite He).
    split_and!; [rewrite <- He, !length_app; lia|..]; intros x Hin; apply Hx; rewrite !elem_of_app; tauto.
Qed.

Lemma compliance_change_iff_clusters_changed_witness :
  (compare_clusters (MkCompliance "p" "ns/p" ["cluster2"] ["cluster1"] [] []) sample_status).1 = false.
Proof.
  apply (compliance_change_iff_clusters_changed (MkCompliance "p" "ns/p" ["cluster2"] ["cluster1"] [] []) sample_status).
  - apply (bool_decide_unpack _). vm_compute. done.
  - apply (bool_decide_unpack _). vm_compute. done.
  - unfold clusters_of. simpl. by constructor.
Defined.

(** *** The complete bundle *)

(** One entry per policy, each with a cluster that is not compliant. *)
Definition complete_ok (l : list CompleteCompliance) : Prop :=
  NoDup (cc_PolicyID <$> l) /\ Forall (fun c => all_compliant c = false) l.

Lemma find_index_id uid (cs : list CompleteCompliance) :
  match getPayloadIndexByUID uid cs with
  | Some i => exists c, cs !! i = Some c /\ cc_PolicyID c = uid
  | None => uid ∉ cc_PolicyID <$> cs
  end.
Proof.
  unfold getPayloadIndexByUID. destruct (find_index _ cs) as [i|] eqn:E.
  - apply find_index_Some in E as (c & Hc & Hp & _). exists c. split; [done|]. by apply String.eqb_eq.
  - apply find_index_None in E. intros (c & -> & Hc)%list_elem_of_fmap. rewrite Forall_forall in E.
    specialize (E _ Hc). simpl in E. by rewrite String.eqb_refl in E.
Qed.

Lemma newComplete_id id o s : cc_PolicyID (newCompleteCompliance id o s) = id.
Proof. unfold newCompleteCompliance. by destruct (fold_left _ _ _) as [[]]. Qed.

Lemma slice_remove_subseteq {A} (l : list A) i x : x ∈ slice_remove l i -> x ∈ l.
Proof. apply slice_remove_elem. Qed.

Lemma slice_remove_NoDup {A B} (f : A -> B) (l : list A) i : NoDup (f <$> l) -> NoDup (f <$> slice_remove l i).
Proof.
  destruct (l !! i) as [x|] eqn:E.
  - intros Hn. by destruct (NoDup_fmap_remove f l i x E Hn).
  - unfold slice_remove. apply lookup_ge_None in E. rewrite take_ge, drop_ge by lia. by rewrite app_nil_r.
Qed.

(** Updates and deletes keep the complete-compliance bundle well formed: one
    entry per policy, and no entry of a policy all of whose clusters are
    compliant. *)
Theorem complete_bundle_well_formed h cfg o b h' :
  complete_ok (cch_eventData h) ->
  completeCompliance_Update h cfg o = Ret (b, h') \/ completeCompliance_Delete h cfg o = (b, h') ->
  complete_ok (cch_eventData h').
Proof.
  intros [Hn Hf] [E|E].
  - unfold completeCompliance_Update in E. destruct (obj_body o) as [s| | |]; inv_ret; try done.
    destruct (negb _); inv_ret; [done|]. destruct (ps_Status s); inv_ret; [|done].
    pose proof (find_index_id (extractPolicyIdentity o) (cch_eventData h)) as Hidx.
    destruct (getPayloadIndexByUID _ _) as [i|].
    + inv_ret. match goal with E : slice_get _ _ = _ |- _ => apply slice_get_Ret in E; rename E into Hi end.
      destruct (_ && _ && _); inv_ret; [done|].
      match goal with E : slice_set _ _ _ = _ |- _ => unfold slice_set in E end.
      case_decide; inv_ret. simpl.
      match goal with |- context [all_compliant ?e] => set (entry := e) end.
      assert (Hids : cc_PolicyID <$> <[i:=entry]> (cch_eventData h) = cc_PolicyID <$> cch_eventData h).
      { rewrite list_fmap_insert. apply list_insert_id. by rewrite list_lookup_fmap, Hi. }
      destruct (all_compliant entry) eqn:Ea; split.
      * apply slice_remove_NoDup. by rewrite Hids.
      * apply Forall_forall. intros c Hc. unfold slice_remove in Hc.
        rewrite take_insert_ge, drop_insert_lt in Hc by lia.
        apply (proj1 (Forall_forall _ _) Hf). by apply (slice_remove_elem _ i).
      * by rewrite Hids.
      * by apply Forall_insert.
    + destruct (all_compliant _) eqn:Ea; inv_ret; [done|]. simpl. split.
      * rewrite fmap_app. apply NoDup_app. split_and!; [done| |apply NoDup_singleton].
        simpl. rewrite newComplete_id. by intros x Hx ->%list_elem_of_singleton.
      * apply Forall_app. split; [done|]. by constructor.
  - unfold completeCompliance_Delete in E. destruct (obj_body o); [|by injection E as _ <-..].
    destruct (negb _); [by injection E as _ <-|].
    destruct (getPayloadIndexByObj o _) as [i|]; injection E as _ <-; [|done]. simpl. split.
    + by apply slice_remove_NoDup.
    + apply Forall_forall. intros c Hc. by apply (proj1 (Forall_forall _ _) Hf), (slice_remove_elem _ i).
Qed.

Definition complete_handler (l : list CompleteCompliance) : completeComplianceHandler :=
  MkCompleteHandler l (fun _ _ => true).

Lemma complete_bundle_well_formed_witness :
  exists b h', completeCompliance_Update (complete_handler []) (MkConfig true true) (sample_policy "a" "1" 1 sample_status)
    = Ret (b, h') /\ length (cch_eventData h') = 1 /\ complete_ok (cch_eventData h').
Proof.
  eexists _, _. split; [vm_compute; reflexivity|]. split; [vm_compute; reflexivity|].
  eapply (complete_bundle_well_formed (complete_handler []) (MkConfig true true)
    (sample_policy "a" "1" 1 sample_status)).
  - split; [constructor|constructor].
  - left. vm_compute. reflexivity.
Defined.
