(* ===== verification/EventHandlers.v ===== *)
(** * The handlers of Kubernetes events of the agent

    [agent/pkg/status/syncers/events/handlers]: the events of the root policies,
    of the replicated policies (a handler the syncer does not launch) and of the
    managed clusters. An event is added to the bundle when it is newer, up to a
    tolerance, than the last event sent. *)

From stdpp Require Import prelude gmap strings list.
From Stdlib Require Import ZArith Lia.
From S2P Require Import Prelude.
From S2P Require Import GoLib.
From S2P Require Import Regex.
From S2P Require Import EventTypes.
From S2P Require Import Version.
From S2P Require Import CloudEvents.
From S2P Require Import KubeObjects.
From S2P Require Import TimeFilter.
From S2P Require Import ConflationSafety.
From S2P Require Import Emitter.
From S2P Require Import GenericHandler.
From S2P Require Import PolicyHandlers.
Local Open Scope string_scope.
Local Open Scope list_scope.

Definition UnknownComplianceState : string := "Unknown".

(** [Policy (.+) status was updated to (.+) in cluster namespace (.+)] *)
Definition PolicyMessageStatusRe : list piece :=
  [Lit "Policy "; Plus dot_class; Lit " status was updated to "; Plus dot_class;
   Lit " in cluster namespace "; Plus dot_class].

(** ** The times and counts of an event *)
Definition getEventLastTime (o : Object) (evt : CoreEvent) : Z :=
  let lastTime := match ev_LastTimestamp evt with Some t => t | None => CreationTimestamp o end in
  match ev_Series evt with Some s => ser_LastObservedTime s | None => lastTime end.

Definition getEventCount (evt : CoreEvent) : Z :=
  match ev_Series evt with Some s => ser_Count s | None => ev_Count evt end.

Definition policyCompliance (policy : Object) (evt : CoreEvent) : string :=
  let state := match obj_body policy with BPolicy s => ps_ComplianceState s | _ => "" end in
  let compliance := if negb (String.eqb state "") then state else UnknownComplianceState in
  if negb (String.eqb compliance UnknownComplianceState) then compliance
  else
    match find_submatch PolicyMessageStatusRe (ev_Message evt) with
    | Some [_; g; _] => g
    | _ => compliance
    end.

Record localRootPolicyHandler := MkRootHandler { rh_name : string; rh_payload : list RootPolicyEvent }.
Record localReplicatedPolicyEventHandler := MkReplicatedHandler {
  rph_name : string;
  rph_payload : list ReplicatedPolicyEvent;
}.
Record managedClusterEventHandler := MkClusterEventHandler {
  mch_name : string;
  mch_payload : list ManagedClusterEvent;
}.

Definition NewLocalRootPolicyEventHandler (c : TimeCaches) : localRootPolicyHandler * TimeCaches :=
  let name := short_name LocalRootPolicyEventType in (MkRootHandler name [], RegisterTimeFilter name c).
Definition NewLocalReplicatedPolicyEventHandler (c : TimeCaches) : localReplicatedPolicyEventHandler * TimeCaches :=
  let name := short_name LocalReplicatedPolicyEventType in (MkReplicatedHandler name [], RegisterTimeFilter name c).
Definition NewManagedClusterEventHandler (c : TimeCaches) : managedClusterEventHandler * TimeCaches :=
  let name := short_name ManagedClusterEventType in (MkClusterEventHandler name [], RegisterTimeFilter name c).

(** ** After the events are sent: the times are cached, the payload is emptied *)
Definition root_postSend (name : string) (data : payload) (c : TimeCaches) : payload * TimeCaches :=
  match data with
  | PRoot events => (PRoot [], fold_left (fun c evt => CacheTime name (be_CreatedAt (re_Base evt)) c) events c)
  | _ => (data, c)
  end.
Definition replicated_postSend (name : string) (data : payload) (c : TimeCaches) : payload * TimeCaches :=
  match data with
  | PReplicated events =>
      (PReplicated [], fold_left (fun c evt => CacheTime name (be_CreatedAt (rp_Base evt)) c) events c)
  | _ => (data, c)
  end.
Definition cluster_postSend (name : string) (data : payload) (c : TimeCaches) : payload * TimeCaches :=
  match data with
  | PClusterEvents events => (PClusterEvents [], fold_left (fun c evt => CacheTime name (mce_CreatedAt evt) c) events c)
  | _ => (data, c)
  end.

Definition NewRootPolicyEventEmitter (eventType : string) (st : Store) : outcome (genericEmitter * Store) :=
  NewGenericEmitter eventType [WithPostSend (root_postSend (short_name eventType))] st.
Definition NewReplicatedPolicyEventEmitter (eventType : string) (st : Store) : outcome (genericEmitter * Store) :=
  NewGenericEmitter eventType [WithPostSend (replicated_postSend (short_name eventType))] st.
Definition NewManagedClusterEventEmitter (st : Store) : outcome (genericEmitter * Store) :=
  NewGenericEmitter ManagedClusterEventType [WithPostSend (cluster_postSend (short_name ManagedClusterEventType))] st.

Section Updates.
Context {W : Type} `{KubeClient W}.
Variable LeafHubName : string.

(** ** The involved objects *)
Definition getInvolvePolicy (w : W) (evt : CoreEvent) : result Object :=
  match kget w PolicyKind (inv_Namespace evt) (inv_Name evt) with
  | Found o => Ok o
  | NotFound => Err "not found"
  | GetError e => Err e
  end.

Definition getInvolveCluster (w : W) (evt : CoreEvent) : result Object :=
  match kget w ManagedClusterKind (inv_Namespace evt) (inv_Name evt) with
  | Found o => Ok o
  | NotFound => Err "not found"
  | GetError e => Err e
  end.

Definition policyEventPredicate (name : string) (o : Object) (c : TimeCaches) (w : W) : option Object :=
  match obj_body o with
  | BEvent evt =>
      if negb (Newer name (getEventLastTime o evt) c) then None
      else if negb (String.eqb (inv_Kind evt) PolicyKind) then None
      else match getInvolvePolicy w evt with Ok policy => Some policy | Err _ => None end
  | _ => None
  end.

(** ** The events of root policies *)
Definition localRootPolicy_shouldUpdate (h : localRootPolicyHandler) (cfg : AgentConfig) (o : Object)
    (c : TimeCaches) (w : W) : bool :=
  if negb (EnableLocalPolicy cfg) then false
  else
    match policyEventPredicate (rh_name h) o c w with
    | Some policy =>
        negb (HasAnnotation policy OriginOwnerReferenceAnnotation) &&
        negb (HasLabel policy PolicyEventRootPolicyNameLabelKey)
    | None => false
    end.

Definition root_event (o policy : Object) (evt : CoreEvent) : RootPolicyEvent :=
  MkRootPolicyEvent
    (MkBaseEvent (Name o) (Namespace o) (ev_Message evt) (ev_Reason evt) (getEventCount evt) (ev_Source evt)
       (getEventLastTime o evt))
    (UID policy) (policyCompliance policy evt).

Definition localRootPolicy_Update (h : localRootPolicyHandler) (cfg : AgentConfig) (o : Object)
    (c : TimeCaches) (w : W) : bool * localRootPolicyHandler :=
  if negb (localRootPolicy_shouldUpdate h cfg o c w) then (false, h)
  else
    match obj_body o with
    | BEvent evt =>
        match getInvolvePolicy w evt with
        | Err _ => (false, h)
        | Ok policy => (true, MkRootHandler (rh_name h) (rh_payload h ++ [root_event o policy evt]))
        end
    | _ => (false, h)
    end.

Definition localRootPolicy_Delete (h : localRootPolicyHandler) (o : Object) : bool := false.

(** ** The events of replicated policies *)
Definition localReplicated_shouldUpdate (h : localReplicatedPolicyEventHandler) (cfg : AgentConfig) (o : Object)
    (c : TimeCaches) (w : W) : bool :=
  if negb (EnableLocalPolicy cfg) then false
  else
    match policyEventPredicate (rph_name h) o c w with
    | Some policy =>
        negb (HasAnnotation policy OriginOwnerReferenceAnnotation) &&
        HasItemKey (Labels policy) PolicyEventRootPolicyNameLabelKey
    | None => false
    end.

Definition localReplicated_Update (h : localReplicatedPolicyEventHandler) (cfg : AgentConfig) (o : Object)
    (c : TimeCaches) (w : W) : bool * localReplicatedPolicyEventHandler :=
  if negb (localReplicated_shouldUpdate h cfg o c w) then (false, h)
  else
    match obj_body o with
    | BEvent evt =>
        match getInvolvePolicy w evt with
        | Err _ => (false, h)
        | Ok policy =>
            match GetRootPolicyAndClusterInfo policy w with
            | Err _ => (false, h)
            | Ok (rootPolicy, clusterID, clusterName) =>
                let replicatedPolicyEvent :=
                  MkReplicatedPolicyEvent
                    (MkBaseEvent (Name o) (Namespace o) (ev_Message evt) (ev_Reason evt) (ev_Count evt)
                       (ev_Source evt) (CreationTimestamp o))
                    (UID rootPolicy) clusterID clusterName (policyCompliance rootPolicy evt) in
                (true, MkReplicatedHandler (rph_name h) (rph_payload h ++ [replicatedPolicyEvent]))
            end
        end
    | _ => (false, h)
    end.

Definition localReplicated_Delete (h : localReplicatedPolicyEventHandler) (o : Object) : bool := false.

(** ** The events of managed clusters *)
Definition managedClusterEvent_shouldUpdate (h : managedClusterEventHandler) (o : Object) (c : TimeCaches) : bool :=
  match obj_body o with
  | BEvent evt =>
      if negb (String.eqb (inv_Kind evt) ManagedClusterKind) then false
      else if negb (Newer (mch_name h) (getEventLastTime o evt) c) then false
      else true
  | _ => false
  end.

Definition managedClusterEvent_Update (h : managedClusterEventHandler) (o : Object) (c : TimeCaches) (w : W)
    : bool * managedClusterEventHandler :=
  if negb (managedClusterEvent_shouldUpdate h o c) then (false, h)
  else
    match obj_body o with
    | BEvent evt =>
        match getInvolveCluster w evt with
        | Err _ => (false, h)
        | Ok cluster =>
            match GetClusterId w (Name cluster) with
            | Err _ => (false, h)
            | Ok clusterId =>
                let clusterEvent :=
                  MkManagedClusterEvent (Namespace o) (Name o) (Name cluster) clusterId LeafHubName
                    (ev_Message evt) (ev_Reason evt) (ev_ReportingController evt) (ev_ReportingInstance evt)
                    (ev_Type evt) (getEventLastTime o evt) in
                (true, MkClusterEventHandler (mch_name h) (mch_payload h ++ [clusterEvent]))
            end
        end
    | _ => (false, h)
    end.

Definition managedClusterEvent_Delete (h : managedClusterEventHandler) (o : Object) : bool := false.

(** ** Facts *)

(** An update adds the event of the involved policy, or nothing. *)
Lemma localRootPolicy_Update_spec h cfg o c w :
  localRootPolicy_Update h cfg o c w =
  match policyEventPredicate (rh_name h) o c w, obj_body o with
  | Some policy, BEvent evt =>
      if EnableLocalPolicy cfg && negb (HasAnnotation policy OriginOwnerReferenceAnnotation)
         && negb (HasLabel policy PolicyEventRootPolicyNameLabelKey)
      then (true, MkRootHandler (rh_name h) (rh_payload h ++ [root_event o policy evt]))
      else (false, h)
  | _, _ => (false, h)
  end.
Proof.
  unfold localRootPolicy_Update, localRootPolicy_shouldUpdate.
  destruct (EnableLocalPolicy cfg); simpl; [|by repeat case_match].
  unfold policyEventPredicate. destruct (obj_body o) as [|evt| |]; try done.
  destruct (Newer _ _ _); [|done]. destruct (String.eqb _ _); [|done]. simpl.
  destruct (getInvolvePolicy w evt); [|done]. by destruct (_ && _).
Qed.

Lemma policyEventPredicate_newer name o c c' w evt policy :
  obj_body o = BEvent evt -> policyEventPredicate name o c w = Some policy ->
  policyEventPredicate name o c' w = if Newer name (getEventLastTime o evt) c' then Some policy else None.
Proof.
  unfold policyEventPredicate. intros ->. destruct (Newer name _ c); [|done]. simpl. intros ->.
  by destruct (Newer name _ c').
Qed.

(** An event that was added to the bundle of root-policy events, and is
    reconciled again after the bundle was sent, is added and sent again exactly
    when no event of that bundle (and no event sent before) is at least three
    seconds newer: the filter drops older events only. *)
Theorem event_sent_again_within_tolerance h cfg o evt c w old h' :
  obj_body o = BEvent evt -> eventTimeCache c !! rh_name h = Some old ->
  localRootPolicy_Update h cfg o c w = (true, h') ->
  let c' := (root_postSend (rh_name h) (PRoot (rh_payload h')) c).2 in
  (localRootPolicy_Update (MkRootHandler (rh_name h) []) cfg o c' w).1 = true <->
  forall t, t ∈ old :: (be_CreatedAt ∘ re_Base <$> rh_payload h') -> (t < getEventLastTime o evt + DeltaDuration)%Z.
Proof.
  intros Hb Hc Hu. simpl. rewrite localRootPolicy_Update_spec in *. rewrite Hb in *. simpl.
  destruct (policyEventPredicate (rh_name h) o c w) as [policy|] eqn:Ep; [|done].
  rewrite (policyEventPredicate_newer _ _ c _ w evt policy) by done.
  assert (Hfold : forall l c, fold_left (fun c evt => CacheTime (rh_name h) (be_CreatedAt (re_Base evt)) c) l c =
    fold_left (fun c t => CacheTime (rh_name h) t c) (be_CreatedAt ∘ re_Base <$> l) c).
  { induction l as [|x l IH]; intros c0; simpl; [done|]. by rewrite IH. }
  rewrite Hfold. pose proof (sent_events_filter_spec (rh_name h) (be_CreatedAt ∘ re_Base <$> rh_payload h') c old
    (getEventLastTime o evt) Hc) as Hspec.
  destruct (EnableLocalPolicy cfg && _ && _) eqn:Eg; [|done].
  destruct (Newer _ _ _) eqn:En; simpl; rewrite ?Eg.
  - split; [|done]. intros _ t Ht. apply Z.nle_gt. intros Hle.
    assert (true = false); [|done]. apply Hspec. exists t. split; [done|lia].
  - split; [done|]. intros Hall. destruct (proj1 Hspec eq_refl) as (t & Ht & Hle).
    specialize (Hall _ Ht). lia.
Qed.

(** An event of a policy is never added to both bundles of policy events: a
    policy is a root policy or a replicated one. *)
Theorem root_and_replicated_events_disjoint h hr cfg o c w h1 h2 :
  localRootPolicy_Update h cfg o c w = (true, h1) -> localReplicated_Update hr cfg o c w <> (true, h2).
Proof.
  rewrite localRootPolicy_Update_spec. unfold localReplicated_Update, localReplicated_shouldUpdate.
  unfold policyEventPredicate. destruct (obj_body o) as [|evt| |]; try done.
  destruct (Newer (rh_name h) _ c); [|done]. destruct (String.eqb _ _); [|done]. simpl.
  destruct (getInvolvePolicy w evt) as [policy|]; [|done].
  destruct (HasLabel policy PolicyEventRootPolicyNameLabelKey) eqn:El; simpl; rewrite ?andb_false_r; [done|].
  intros _. change (HasItemKey (Labels policy) PolicyEventRootPolicyNameLabelKey = false) in El.
  destruct (EnableLocalPolicy cfg), (Newer (rph_name hr) _ c); simpl; rewrite ?El, ?andb_false_r; done.
Qed.
End Updates.

(** ** Examples *)
Definition sample_core (time : Z) : CoreEvent :=
  MkCoreEvent PolicyKind "default" "policy-a" "Policy default.policy-a status was updated to NonCompliant in cluster namespace c1"
    "PolicyStatusSync" 1 "policy-status-sync" (Some time) None "" "" "Warning".
Definition sample_event (time : Z) : Object :=
  MkObject "e1" "ns" "event-1" 0 "1" 0 None ∅ ∅ [] [] [] "" (BEvent (sample_core time)).
Definition policy_server : PlainServer := {[(PolicyKind, "default", "policy-a") := sample_policy "a" "1" 1 empty_status]}.
Definition full_config : AgentConfig := MkConfig true true.
Definition root_setup : localRootPolicyHandler * TimeCaches := NewLocalRootPolicyEventHandler initial_caches.
Definition first_event : Object := sample_event 9000000000.
Definition after_update : localRootPolicyHandler :=
  (localRootPolicy_Update root_setup.1 full_config first_event root_setup.2 policy_server).2.

Example state_of_policy_message :
  policyCompliance (sample_policy "a" "1" 1 empty_status) (sample_core 0) = "NonCompliant".
Proof. reflexivity. Qed.

Lemma event_sent_again_within_tolerance_witness :
  (localRootPolicy_Update (MkRootHandler (rh_name root_setup.1) []) full_config first_event
     (root_postSend (rh_name root_setup.1) (PRoot (rh_payload after_update)) root_setup.2).2 policy_server).1 = true.
Proof.
  refine (proj2 (event_sent_again_within_tolerance root_setup.1 full_config first_event (sample_core 9000000000)
    root_setup.2 policy_server 0 after_update _ _ _) _).
  - reflexivity.
  - vm_compute. reflexivity.
  - vm_compute. reflexivity.
  - intros t [->|Ht]%elem_of_cons; [vm_compute; done|].
    change (be_CreatedAt ∘ re_Base <$> rh_payload after_update) with [9000000000%Z] in Ht.
    apply list_elem_of_singleton in Ht as ->. vm_compute. done.
Defined.

Lemma root_and_replicated_events_disjoint_witness :
  (localRootPolicy_Update root_setup.1 full_config first_event root_setup.2 policy_server).1 = true /\
  localReplicated_Update (NewLocalReplicatedPolicyEventHandler initial_caches).1 full_config first_event
    root_setup.2 policy_server <> (true, (NewLocalReplicatedPolicyEventHandler initial_caches).1).
Proof.
  split; [vm_compute; reflexivity|].
  eapply (root_and_replicated_events_disjoint root_setup.1 _ full_config first_event root_setup.2 policy_server
    after_update).
  vm_compute. reflexivity.
Defined.
