(* ===== verification/StatusSyncer.v ===== *)
(** * The syncers of the agent

    [agent/pkg/status/generic]: [multi_event_syncer.go] (several bundles made
    from one kind of object) and [multi_object_syncer.go] (one bundle made from
    several kinds), and the policy syncer ([policies/policy_syncer.go]). Emitters
    are used through an interface; the handlers are the ones of the repository.
    Both syncers hold a lock during an update and during a sync: each is one
    step on the shared store. *)

From stdpp Require Import prelude gmap strings list.
From Stdlib Require Import ZArith Lia.
From S2P Require Import Prelude.
From S2P Require Import GoLib.
From S2P Require Import Regex.
From S2P Require Import EventTypes.
From S2P Require Import Version.
From S2P Require Import CloudEvents.
From S2P Require Import Libraries.
From S2P Require Import ConflationSafety.
From S2P Require Import KubeObjects.
From S2P Require Import TimeFilter.
From S2P Require Import Emitter.
From S2P Require Import GenericHandler.
From S2P Require Import PolicyHandlers.
From S2P Require Import EventHandlers.

Local Open Scope string_scope.
Local Open Scope list_scope.

(** ** Interfaces *)

(** [interfaces.Emitter]. *)
Class EmitterI (E Event : Type) := {
  em_PostUpdate : E -> Store -> outcome Store;
  em_ToCloudEvent : E -> payload -> Store -> outcome (Event * option goerror);
  em_Topic : E -> string;
  em_ShouldSend : E -> Store -> outcome bool;
  em_PostSend : E -> payload -> TimeCaches -> Store -> outcome (E * payload * TimeCaches * Store);
}.

#[export] Instance genericEmitterI {Event} `{EventSDK Event, PayloadCodec} (leafHubName : string)
    : EmitterI genericEmitter Event := {|
  em_PostUpdate := PostUpdate;
  em_ToCloudEvent := ToCloudEvent leafHubName;
  em_Topic := emitter_topic;
  em_ShouldSend := ShouldSend;
  em_PostSend := PostSend;
|}.

#[export] Instance heartbeatEmitterI {Event} `{EventSDK Event, PayloadCodec} (leafHubName : string)
    : EmitterI heartbeatEmitter Event := {|
  em_PostUpdate := hb_PostUpdate;
  em_ToCloudEvent e _ st := hb_ToCloudEvent leafHubName HubClusterHeartbeatType e st;
  em_Topic := hb_Topic;
  em_ShouldSend e _ := Ret (hb_ShouldSend e);
  em_PostSend e data c st := let! (e', st') := hb_PostSend e st in Ret (e', data, c, st');
|}.

(** The finalizer functions of [controllerutil]. *)
Class FinalizerUtil := {
  ContainsFinalizer : Object -> string -> bool;
  AddFinalizer : Object -> string -> Object;
  RemoveFinalizer : Object -> string -> Object;
}.
Class FinalizerLaws `{FinalizerUtil} : Prop := {
  ContainsFinalizer_spec o f : ContainsFinalizer o f = bool_decide (f ∈ Finalizers o);
  AddFinalizer_spec o f : AddFinalizer o f = if ContainsFinalizer o f then o else set_finalizers o (Finalizers o ++ [f]);
  RemoveFinalizer_spec o f : RemoveFinalizer o f = set_finalizers o (filter (fun x => x <> f) (Finalizers o));
}.

(** [interfaces.Handler]: the handlers of the repository. *)
Inductive Handler :=
| HGeneric (h : genericHandler)
| HCompliance (h : complianceHandler)
| HComplete (h : completeComplianceHandler)
| HStatusEvent (h : policyStatusEventHandler)
| HRootEvent (h : localRootPolicyHandler)
| HReplicatedEvent (h : localReplicatedPolicyEventHandler)
| HClusterEvent (h : managedClusterEventHandler).

Definition handler_Get (h : Handler) : payload :=
  match h with
  | HGeneric h => PGeneric (gh_eventData h)
  | HCompliance h => PCompliance (ch_eventData h)
  | HComplete h => PComplete (cch_eventData h)
  | HStatusEvent h => PReplicated (se_payload h)
  | HRootEvent h => PRoot (rh_payload h)
  | HReplicatedEvent h => PReplicated (rph_payload h)
  | HClusterEvent h => PClusterEvents (mch_payload h)
  end.

(** [Get] returns a pointer: the payload is shared with the handler. *)
Definition handler_put (h : Handler) (data : payload) : Handler :=
  match h, data with
  | HGeneric h, PGeneric l => HGeneric (set_data h l)
  | HCompliance h, PCompliance l => HCompliance (ch_set h l)
  | HComplete h, PComplete l => HComplete (cch_set h l)
  | HStatusEvent h, PReplicated l => HStatusEvent (MkStatusEventHandler (se_name h) l (se_shouldUpdate h))
  | HRootEvent h, PRoot l => HRootEvent (MkRootHandler (rh_name h) l)
  | HReplicatedEvent h, PReplicated l => HReplicatedEvent (MkReplicatedHandler (rph_name h) l)
  | HClusterEvent h, PClusterEvents l => HClusterEvent (MkClusterEventHandler (mch_name h) l)
  | _, _ => h
  end.

Section Syncers.
Context {W P E Event : Type} `{KubeClient W} `{Producer P Event} `{EmitterI E Event} `{EventSDK Event}
  `{FinalizerUtil}.
Variable LeafHubName : string.

(** What the handlers read besides the object. *)
Record env := MkEnv {
  e_cfg : AgentConfig;
  e_caches : TimeCaches;
  e_server : W;
  e_now : Z;           (** [time.Now().Unix()] *)
}.

Definition handler_Update (h : Handler) (p : nat) (st : Store) (e : env) : outcome (bool * Handler * Store) :=
  match h with
  | HGeneric h => let! (b, h', st') := generic_Update h (e_cfg e) p st in Ret (b, HGeneric h', st')
  | HCompliance h =>
      let! o := st_get_obj st p in
      let! (b, h') := compliance_Update h (e_cfg e) o in Ret (b, HCompliance h', st)
  | HComplete h =>
      let! o := st_get_obj st p in
      let! (b, h') := completeCompliance_Update h (e_cfg e) o in Ret (b, HComplete h', st)
  | HStatusEvent h =>
      let! o := st_get_obj st p in
      let '(b, h') := statusEvent_Update h (e_cfg e) o (e_caches e) (e_server e) in Ret (b, HStatusEvent h', st)
  | HRootEvent h =>
      let! o := st_get_obj st p in
      let '(b, h') := localRootPolicy_Update h (e_cfg e) o (e_caches e) (e_server e) in Ret (b, HRootEvent h', st)
  | HReplicatedEvent h =>
      let! o := st_get_obj st p in
      let '(b, h') := localReplicated_Update h (e_cfg e) o (e_caches e) (e_server e) in
      Ret (b, HReplicatedEvent h', st)
  | HClusterEvent h =>
      let! o := st_get_obj st p in
      let '(b, h') := managedClusterEvent_Update LeafHubName h o (e_caches e) (e_server e) in
      Ret (b, HClusterEvent h', st)
  end.

Definition handler_Delete (h : Handler) (p : nat) (st : Store) (e : env) : outcome (bool * Handler) :=
  match h with
  | HGeneric h => let! (b, h') := generic_Delete h (e_cfg e) p st in Ret (b, HGeneric h')
  | HCompliance h =>
      let! o := st_get_obj st p in
      let '(b, h') := compliance_Delete h (e_cfg e) o in Ret (b, HCompliance h')
  | HComplete h =>
      let! o := st_get_obj st p in
      let '(b, h') := completeCompliance_Delete h (e_cfg e) o in Ret (b, HComplete h')
  | _ => Ret (false, h)
  end.

(** ** Finalizers *)
Definition enableCleanUpFinalizer (o : Object) : bool :=
  HasLabel o GlobalHubGlobalResourceLabel || HasAnnotation o OriginOwnerReferenceAnnotation.

Fixpoint str_contains (s sub : string) : bool :=
  String.prefix sub s || match s with EmptyString => false | String _ s' => str_contains s' sub end.

(** The error, the object as it is left in memory and the server. *)
Definition addFinalizer (w : W) (now : Z) (o : Object) (finalizer : string) : option goerror * Object * W :=
  let cont (o : Object) :=
    if ContainsFinalizer o finalizer then (None, o, w)
    else
      let '(err, o', w') := kupdate w (AddFinalizer o finalizer) in
      match err with
      | Some e => if str_contains e "the object has been modified" then (None, o', w') else (Some e, o', w')
      | None => (None, o', w')
      end in
  match Labels o !! GlobalHubFinalizerRemovingDeadline with
  | None => cont o
  | Some val =>
      match ParseInt val with
      | (_, Some e) => (Some e, o, w)
      | (deadline, None) =>
          if (now <? deadline)%Z then (None, o, w)
          else cont (set_labels o (delete GlobalHubFinalizerRemovingDeadline (Labels o)))
      end
  end.

Definition removeFinalizer (w : W) (o : Object) (finalizer : string) : option goerror * Object * W :=
  if negb (ContainsFinalizer o finalizer) then (None, o, w)
  else kupdate w (RemoveFinalizer o finalizer).

(** ** The multi-event syncer *)
Definition EmitterHandler : Type := E * Handler.

(** [updateObject] and [deleteObject], the emitters in order. *)
Fixpoint updateObject (ehs : list EmitterHandler) (p : nat) (st : Store) (e : env)
    : outcome (list EmitterHandler * Store) :=
  match ehs with
  | [] => Ret ([], st)
  | (em, h) :: rest =>
      let! (updated, h', st1) := handler_Update h p st e in
      let! st2 := (if updated then em_PostUpdate em st1 else Ret st1) in
      let! (rest', st3) := updateObject rest p st2 e in
      Ret ((em, h') :: rest', st3)
  end.

Fixpoint deleteObject (ehs : list EmitterHandler) (p : nat) (st : Store) (e : env)
    : outcome (list EmitterHandler * Store) :=
  match ehs with
  | [] => Ret ([], st)
  | (em, h) :: rest =>
      let! (deleted, h') := handler_Delete h p st e in
      let! st2 := (if deleted then em_PostUpdate em st else Ret st) in
      let! (rest', st3) := deleteObject rest p st2 e in
      Ret ((em, h') :: rest', st3)
  end.

(** The error of a reconciliation is also whether it is requeued. *)
Definition multiEvent_Reconcile (kind : string) (instance : body) (ns name : string)
    (ehs : list EmitterHandler) (st : Store) (e : env)
    : outcome (option goerror * list EmitterHandler * Store * W) :=
  let w := e_server e in
  match kget w kind ns name with
  | NotFound =>
      let '(p, st1) := st_alloc_obj (set_key (zero_object instance) ns name) st in
      let! (ehs', st2) := deleteObject ehs p st1 e in
      Ret (None, ehs', st2, w)
  | GetError err => Ret (Some err, ehs, st, w)
  | Found o =>
      match DeletionTimestamp o with
      | Some _ =>
          let '(p, st1) := st_alloc_obj o st in
          let! (ehs', st2) := deleteObject ehs p st1 e in
          let! o2 := st_get_obj st2 p in
          if negb (enableCleanUpFinalizer o2) then Ret (None, ehs', st2, w)
          else
            let '(err, o', w') := removeFinalizer w o2 GlobalHubCleanupFinalizer in
            Ret (err, ehs', st_set_obj st2 p o', w')
      | None =>
          let '(p, st1) := st_alloc_obj (cleanObject o) st in
          let! (ehs', st2) := updateObject ehs p st1 e in
          let! o2 := st_get_obj st2 p in
          if negb (enableCleanUpFinalizer o2) then Ret (None, ehs', st2, w)
          else
            let '(err, o', w') := addFinalizer w (e_now e) o2 GlobalHubCleanupFinalizer in
            Ret (err, ehs', st_set_obj st2 p o', w')
      end
  end.

(** An error of [ToCloudEvent] is only logged. *)
Fixpoint multiEvent_syncEvents (ehs : list EmitterHandler) (pr : P) (c : TimeCaches) (st : Store)
    : outcome (list EmitterHandler * P * TimeCaches * Store) :=
  match ehs with
  | [] => Ret ([], pr, c, st)
  | (em, h) :: rest =>
      let! send := em_ShouldSend em st in
      let! (em', h', pr', c', st') :=
        (if send then
           let! (evt, _) := em_ToCloudEvent em (handler_Get h) st in
           let evt' := SetSource LeafHubName evt in
           match SendEvent pr (em_Topic em) evt' with
           | (Some _, pr1) => Ret (em, h, pr1, c, st)
           | (None, pr1) =>
               let! (em1, data, c1, st1) := em_PostSend em (handler_Get h) c st in
               Ret (em1, handler_put h data, pr1, c1, st1)
           end
         else Ret (em, h, pr, c, st)) in
      let! (rest', pr2, c2, st2) := multiEvent_syncEvents rest pr' c' st' in
      Ret ((em', h') :: rest', pr2, c2, st2)
  end.

(** ** The multi-object syncer: the handlers share the first one's payload *)
Definition multiObject_syncEvent (handlers : list Handler) (em : E) (pr : P) (c : TimeCaches) (st : Store)
    : outcome (list Handler * E * P * TimeCaches * Store) :=
  let eventData := match handlers with h :: _ => handler_Get h | [] => PNil end in
  let! send := em_ShouldSend em st in
  if send then
    let! (evt, err) := em_ToCloudEvent em eventData st in
    match err with
    | Some _ => Ret (handlers, em, pr, c, st)
    | None =>
        match SendEvent pr (em_Topic em) evt with
        | (Some _, pr1) => Ret (handlers, em, pr1, c, st)
        | (None, pr1) =>
            let! (em1, data, c1, st1) := em_PostSend em eventData c st in
            Ret ((fun h => handler_put h data) <$> handlers, em1, pr1, c1, st1)
        end
    end
  else Ret (handlers, em, pr, c, st).

Definition updateObjectAndFinalizer (em : E) (h : Handler) (p : nat) (st : Store) (e : env)
    : outcome (option goerror * Handler * Store * W) :=
  let! o := st_get_obj st p in
  let '(err, o1, w1) :=
    if enableCleanUpFinalizer o then addFinalizer (e_server e) (e_now e) o GlobalHubCleanupFinalizer
    else (None, o, e_server e) in
  let st1 := st_set_obj st p o1 in
  match err with
  | Some e => Ret (Some e, h, st1, w1)
  | None =>
      let! (updated, h', st2) := handler_Update h p st1 (MkEnv (e_cfg e) (e_caches e) w1 (e_now e)) in
      let! st3 := (if updated then em_PostUpdate em st2 else Ret st2) in
      Ret (None, h', st3, w1)
  end.

Definition deleteObjectAndFinalizer (em : E) (h : Handler) (p : nat) (st : Store) (e : env)
    : outcome (option goerror * Handler * Store * W) :=
  let! (deleted, h') := handler_Delete h p st e in
  let! st1 := (if deleted then em_PostUpdate em st else Ret st) in
  let! o := st_get_obj st1 p in
  if enableCleanUpFinalizer o then
    let '(err, o1, w1) := removeFinalizer (e_server e) o GlobalHubCleanupFinalizer in
    Ret (err, h', st_set_obj st1 p o1, w1)
  else Ret (None, h', st1, e_server e).

(** The controller of the [i]-th handler; the payload it leaves is seen by all. *)
Definition multiObject_Reconcile (kind : string) (instance : body) (ns name : string) (em : E)
    (handlers : list Handler) (i : nat) (st : Store) (e : env)
    : outcome (option goerror * list Handler * Store * W) :=
  let! h := slice_get handlers i in
  let! (err, h', st', w') :=
    (match kget (e_server e) kind ns name with
     | NotFound =>
         let '(p, st1) := st_alloc_obj (set_key (zero_object instance) ns name) st in
         deleteObjectAndFinalizer em h p st1 e
     | GetError err => Ret (Some ("reconciliation failed: " +:+ err), h, st, e_server e)
     | Found o =>
         let '(p, st1) := st_alloc_obj o st in
         match DeletionTimestamp o with
         | Some _ => deleteObjectAndFinalizer em h p st1 e
         | None => updateObjectAndFinalizer em h p st1 e
         end
     end) in
  Ret (err, (fun h => handler_put h (handler_Get h')) <$> handlers, st', w').
End Syncers.

(** ** Laws of the emitters and facts on the syncers

    What a syncer relies on of an emitter, as a class discharged by the generic
    emitter, and the theorems on the syncers proved from it. *)

(** The versions of [st] are still there in [st']. *)
Definition vers_grow (st st' : Store) : Prop :=
  forall l, is_Some (st_vers st !! l) -> is_Some (st_vers st' !! l).

(** An emitter owns a version; it is sent when it is due, and is not due any
    more once it is sent, until its version changes. *)
Class EmitterLaws (E Event : Type) `{EmitterI E Event} := {
  em_version : E -> nat;
  em_valid : E -> Store -> Prop;
  em_valid_grow em st st' : em_valid em st -> vers_grow st st' -> em_valid em st';
  em_ShouldSend_total em st : em_valid em st -> exists b, em_ShouldSend em st = Ret b;
  em_ShouldSend_local em st st' :
    st_vers st !! em_version em = st_vers st' !! em_version em -> em_ShouldSend em st = em_ShouldSend em st';
  em_ToCloudEvent_total em data st : em_valid em st -> exists r, em_ToCloudEvent em data st = Ret r;
  em_PostUpdate_objs em st st' : em_PostUpdate em st = Ret st' -> st_objs st' = st_objs st;
  em_PostSend_spec em data c st : em_valid em st ->
    exists em' data' c' st', em_PostSend em data c st = Ret (em', data', c', st') /\
      em_version em' = em_version em /\ em_valid em' st' /\ em_ShouldSend em' st' = Ret false /\
      vers_grow st st' /\ st_objs st' = st_objs st /\
      forall l, l <> em_version em -> st_vers st' !! l = st_vers st !! l;
}.

#[export] Program Instance genericEmitterLaws {Event} `{EventSDK Event, PayloadCodec} (leafHubName : string)
    : EmitterLaws genericEmitter Event (H := genericEmitterI leafHubName) := {|
  em_version := currentVersion;
  em_valid g st := is_Some (st_vers st !! currentVersion g) /\
    forall l, dependencyVersion g = Some l -> is_Some (st_vers st !! l);
|}.
Next Obligation. intros Event H1 H2 hub em st st' [H3 H4] Hg. split; [by apply Hg|]. intros; apply Hg; auto. Qed.
Next Obligation.
  intros Event H1 H2 hub em st [[v Hv] _]. simpl. unfold ShouldSend, st_get_ver. rewrite Hv. simpl. eauto.
Qed.
Next Obligation. intros Event H1 H2 hub em st st' Hv. simpl in *. unfold ShouldSend, st_get_ver. by rewrite Hv. Qed.
Next Obligation.
  intros Event H1 H2 hub em data st [[v Hv] Hd]. simpl. unfold ToCloudEvent, st_get_ver. rewrite Hv. simpl.
  destruct (dependencyVersion em) as [l|]; simpl; [|case_match; eauto].
  destruct (Hd l eq_refl) as [d ->]. simpl. case_match; eauto.
Qed.
Next Obligation.
  intros Event H1 H2 hub em st st' Hp. simpl in Hp. unfold PostUpdate in Hp. by inv_ret.
Qed.
Next Obligation.
  intros Event H1 H2 hub em data c st [[v Hv] Hd]. simpl. unfold PostSend, st_get_ver.
  destruct (match postSend em with Some f => _ | None => _ end) as [data' c']. rewrite Hv. simpl.
  eexists _, _, _, _. split; [done|]. simpl. rewrite lookup_insert_eq. split; [done|].
  assert (Hgrow : vers_grow st (st_set_ver st (currentVersion em) (Next v))).
  { intros l Hl. simpl. destruct (decide (currentVersion em = l)) as [<-|]; [rewrite lookup_insert_eq; eauto|].
    by rewrite lookup_insert_ne. }
  split; [split; [eauto|]|].
  { intros l Hl. apply (Hgrow l), Hd, Hl. }
  split; [|split; [done|split; [done|]]].
  - unfold ShouldSend, st_get_ver. simpl. rewrite lookup_insert_eq. simpl. f_equal.
    apply NewerThan_false. unfold version_lt. lia.
  - intros l Hl. by rewrite lookup_insert_ne by congruence.
Qed.

Section Facts.
Context {W P E Event : Type} `{KubeClient W} `{Producer P Event} `{EmitterLaws E Event} `{EventSDK Event}
  `{FinalizerUtil}.
Variable LeafHubName : string.

Notation sync := (multiEvent_syncEvents LeafHubName).

Lemma vers_grow_refl st : vers_grow st st.
Proof. by intros l. Qed.
Lemma vers_grow_trans st1 st2 st3 : vers_grow st1 st2 -> vers_grow st2 st3 -> vers_grow st1 st3.
Proof. intros H1' H2' l Hl. by apply H2', H1'. Qed.

(** Nothing is due. *)
Definition quiet (ehs : list (EmitterHandler (E := E))) (st : Store) : Prop :=
  forall em h, (em, h) ∈ ehs -> em_ShouldSend em st = Ret false.

Lemma quiet_sync ehs pr c st : quiet ehs st -> sync ehs pr c st = Ret (ehs, pr, c, st).
Proof.
  induction ehs as [|[em h] ehs IH]; intros Hq; simpl; [done|].
  rewrite (Hq em h) by (by left). simpl. rewrite IH; [done|]. intros em' h' Hin. apply (Hq em' h'). by right.
Qed.

(** The emitters that are due, in order. *)
Definition is_due (st : Store) (eh : EmitterHandler (E := E)) : bool :=
  match em_ShouldSend eh.1 st with Ret b => b | _ => false end.
Definition due (st : Store) (ehs : list (EmitterHandler (E := E))) : list EmitterHandler :=
  filter (fun eh => is_due st eh = true) ehs.

(** The event of an emitter in a round that starts in [st]: its topic, and what
    [ToCloudEvent] makes of the data of the handler while the objects and the
    version of the emitter are those of the start; the versions of emitters
    before it may have advanced. *)
Definition event_for (st : Store) (eh : EmitterHandler (E := E)) (te : string * Event) : Prop :=
  exists st1 evt err, st_objs st1 = st_objs st /\ st_vers st1 !! em_version eh.1 = st_vers st !! em_version eh.1 /\
    em_ToCloudEvent eh.1 (handler_Get eh.2) st1 = Ret (evt, err) /\
    te = (em_Topic eh.1, SetSource LeafHubName evt).

Definition send_all (pr : P) (tes : list (string * Event)) : P :=
  foldl (fun pr te => (SendEvent pr te.1 te.2 : option goerror * P).2) pr tes.

(** In a store where the objects and the versions of the emitters are the same,
    the same emitters are due, with the same events. *)
Lemma due_same st st1 ehs : st_objs st1 = st_objs st ->
  (forall l, l ∈ em_version ∘ fst <$> ehs -> st_vers st1 !! l = st_vers st !! l) ->
  due st1 ehs = due st ehs /\ forall tes, Forall2 (event_for st1) (due st1 ehs) tes -> Forall2 (event_for st) (due st ehs) tes.
Proof.
  intros Ho Hv.
  assert (Heq : due st1 ehs = due st ehs).
  { unfold due. induction ehs as [|eh ehs IH]; [done|].
    assert (Eb : is_due st1 eh = is_due st eh).
    { unfold is_due. rewrite (em_ShouldSend_local eh.1 st1 st); [done|]. apply Hv. by left. }
    specialize (IH (fun l Hl => Hv l (list_elem_of_further _ _ _ Hl))). rewrite !filter_cons, Eb, IH. done. }
  split; [done|]. intros tes Htes. rewrite <- Heq.
  assert (Hin : Forall (fun eh => eh ∈ ehs) (due st1 ehs))
    by (apply Forall_forall; intros eh [_ ?]%list_elem_of_filter; done).
  revert Htes Hin. generalize (due st1 ehs). clear Heq. intros d Htes. induction Htes as [|eh te d tes He Htes IH]; [constructor|].
  intros [Hin Hall]%Forall_cons. constructor; [|by apply IH].
  destruct He as (st2 & evt & err & H2o & H2v & Et & ->). exists st2, evt, err.
  split_and!; [congruence| |done|done]. rewrite H2v. apply Hv. apply list_elem_of_fmap. by exists eh.
Qed.

(** One round: the events of the emitters that are due are sent in order and
    nothing else, none is due any more, and the versions of the others do not change. *)
Lemma sync_round ehs : forall pr c st,
  Forall (fun eh => em_valid eh.1 st) ehs -> NoDup (em_version ∘ fst <$> ehs) ->
  (forall pr t evt, (SendEvent pr t evt : option goerror * P).1 = None) ->
  exists ehs' pr' c' st', sync ehs pr c st = Ret (ehs', pr', c', st') /\ quiet ehs' st' /\
    em_version ∘ fst <$> ehs' = em_version ∘ fst <$> ehs /\ vers_grow st st' /\
    (forall l, l ∉ em_version ∘ fst <$> ehs -> st_vers st' !! l = st_vers st !! l) /\
    exists tes, pr' = send_all pr tes /\ Forall2 (event_for st) (due st ehs) tes.
Proof.
  induction ehs as [|[em h] ehs IH]; intros pr c st Hv Hn Hs.
  { exists [], pr, c, st. split; [done|]. split; [intros ? ? Hin; by apply not_elem_of_nil in Hin|].
    split; [done|]. split; [apply vers_grow_refl|]. split; [done|]. exists []. split; [done|constructor]. }
  rewrite fmap_cons, NoDup_cons in Hn. destruct Hn as [Hnin Hn]. simpl in Hnin.
  apply Forall_cons in Hv as [Hem Hv]. simpl in Hem.
  assert (Hstep : exists em' h' pr1 c1 st1,
    (let! send := em_ShouldSend em st in
     if send then
       let! (evt, _) := em_ToCloudEvent em (handler_Get h) st in
       match SendEvent pr (em_Topic em) (SetSource LeafHubName evt) with
       | (Some _, pr1) => Ret (em, h, pr1, c, st)
       | (None, pr1) =>
           let! (em1, data, c1, st1) := em_PostSend em (handler_Get h) c st in
           Ret (em1, handler_put h data, pr1, c1, st1)
       end
     else Ret (em, h, pr, c, st)) = Ret (em', h', pr1, c1, st1) /\
    em_version em' = em_version em /\ em_ShouldSend em' st1 = Ret false /\ vers_grow st st1 /\
    st_objs st1 = st_objs st /\ (forall l, l <> em_version em -> st_vers st1 !! l = st_vers st !! l) /\
    if is_due st (em, h) then exists te, event_for st (em, h) te /\ pr1 = send_all pr [te] else pr1 = pr).
  { destruct (em_ShouldSend_total em st Hem) as [b Eb]. rewrite Eb. simpl. destruct b.
    2: { exists em, h, pr, c, st. split_and!; try done; [apply vers_grow_refl|]. unfold is_due. simpl. by rewrite Eb. }
    destruct (em_ToCloudEvent_total em (handler_Get h) st Hem) as [[evt err] Et]. rewrite Et. simpl.
    pose proof (Hs pr (em_Topic em) (SetSource LeafHubName evt)) as Hok.
    destruct (SendEvent pr _ _) as [o pr1] eqn:Ep. simpl in Hok. subst o.
    destruct (em_PostSend_spec em (handler_Get h) c st Hem) as (em' & d & c1 & st1 & -> & Hx). simpl.
    exists em', (handler_put h d), pr1, c1, st1. unfold is_due. simpl. rewrite Eb.
    split_and!; [done|naive_solver..|]. eexists. split; [by exists st, evt, err|]. simpl. by rewrite Ep. }
  destruct Hstep as (em' & h' & pr1 & c1 & st1 & Estep & Ever & Eq & Hg & Ho1 & Hsame & Hsent).
  destruct (IH pr1 c1 st1) as (ehs' & pr2 & c2 & st2 & Er & Hq & Evs & Hg2 & Hsame2 & tes & Hpr2 & Htes); [|done|done|].
  { eapply Forall_impl; [exact Hv|]. intros eh Heh. exact (em_valid_grow _ _ _ Heh Hg). }
  exists ((em', h') :: ehs'), pr2, c2, st2. cbn [multiEvent_syncEvents].
  revert Estep. destruct (em_ShouldSend em st) as [send| | |]; simpl; try done. intros ->. simpl. rewrite Er. simpl.
  split; [done|]. split.
  { intros em2 h2 [[= -> ->]|Hin]%elem_of_cons; [|by eapply Hq].
    rewrite <- Eq. apply em_ShouldSend_local. rewrite Ever. by apply Hsame2. }
  split; [exact (f_equal2 cons Ever Evs)|].
  split; [by eapply vers_grow_trans|]. split.
  { intros l [Hl1 Hl2]%not_elem_of_cons. simpl in Hl1. rewrite Hsame2 by done. by apply Hsame. }
  assert (Htes' : Forall2 (event_for st) (due st ehs) tes).
  { eapply due_same; [exact Ho1| |exact Htes]. intros l Hl. apply Hsame. intros ->. by apply Hnin. }
  unfold due. rewrite filter_cons. destruct (is_due st (em, h)).
  - destruct Hsent as (te & Hte & ->). rewrite decide_True by done. exists (te :: tes). split; [done|by constructor].
  - rewrite decide_False by done. exists tes. by rewrite Hpr2, Hsent.
Qed.

(** C28: a round of the multi-event syncer over emitters that own distinct
    versions, with a producer that accepts every event, returns and sends exactly
    the events of the emitters that are due, in order; the next round, whatever
    the time caches, sends nothing and changes nothing: each change of a bundle
    is sent once. *)
Theorem sync_sends_each_change_once ehs pr c st pr2 c2 :
  Forall (fun eh => em_valid eh.1 st) ehs -> NoDup (em_version ∘ fst <$> ehs) ->
  (forall pr t evt, (SendEvent pr t evt : option goerror * P).1 = None) ->
  exists ehs' pr' c' st' tes, sync ehs pr c st = Ret (ehs', pr', c', st') /\
    pr' = send_all pr tes /\ Forall2 (event_for st) (due st ehs) tes /\
    sync ehs' pr2 c2 st' = Ret (ehs', pr2, c2, st').
Proof.
  intros Hv Hn Hs. destruct (sync_round ehs pr c st Hv Hn Hs) as (ehs' & pr' & c' & st' & Er & Hq & _ & _ & _ & tes & Hpr & Htes).
  exists ehs', pr', c', st', tes. split_and!; [done..|]. by apply quiet_sync.
Qed.

(** A round whose events are all refused by the producer leaves the
    handlers, the emitters, the versions and the time caches as they are: the
    same events are due in the next round. *)
Theorem refused_events_stay_due ehs pr c st :
  Forall (fun eh => em_valid eh.1 st) ehs ->
  (forall pr t evt, is_Some ((SendEvent pr t evt : option goerror * P).1)) ->
  exists pr', sync ehs pr c st = Ret (ehs, pr', c, st).
Proof.
  revert pr. induction ehs as [|[em h] ehs IH]; intros pr Hv Hs; simpl; [eauto|].
  apply Forall_cons in Hv as [Hem Hv]. simpl in Hem.
  destruct (em_ShouldSend_total em st Hem) as [b ->]. simpl. destruct b; simpl.
  - destruct (em_ToCloudEvent_total em (handler_Get h) st Hem) as [[evt err] ->]. simpl.
    destruct (Hs pr (em_Topic em) (SetSource LeafHubName evt)) as [e Ee].
    destruct (SendEvent pr _ _) as [o pr1]. simpl in Ee. subst o. simpl.
    destruct (IH pr1 Hv Hs) as [pr' ->]. simpl. eauto.
  - destruct (IH pr Hv Hs) as [pr' ->]. simpl. eauto.
Qed.

(** When a bundle cannot be encoded, the multi-event syncer sends the event
    without its data and marks the version as sent, so that the bundle is not
    sent until it changes again; the multi-object syncer returns and keeps
    the bundle due. *)
Theorem unencodable_bundle_is_marked_sent em h pr c st evt err pr1 :
  em_valid em st -> em_ShouldSend em st = Ret true ->
  em_ToCloudEvent em (handler_Get h) st = Ret (evt, Some err) ->
  SendEvent pr (em_Topic em) (SetSource LeafHubName evt) = (None, pr1) ->
  (exists em1 h1 c1 st1, sync [(em, h)] pr c st = Ret ([(em1, h1)], pr1, c1, st1) /\
     em_ShouldSend em1 st1 = Ret false) /\
  multiObject_syncEvent [h] em pr c st = Ret ([h], em, pr, c, st).
Proof.
  intros Hv Hs Ht Hp. split.
  - destruct (em_PostSend_spec em (handler_Get h) c st Hv) as (em1 & d & c1 & st1 & Eps & _ & _ & Eq & _).
    exists em1, (handler_put h d), c1, st1. split; [|done]. simpl. rewrite Hs. simpl. rewrite Ht. simpl.
    rewrite Hp, Eps. done.
  - unfold multiObject_syncEvent. rewrite Hs. simpl. rewrite Ht. done.
Qed.
(** *** What an update does to the object *)

(** The tweak functions change the body of an object only. *)
Definition tweaks_body (ehs : list (EmitterHandler (E := E))) : Prop :=
  forall em h f o o', (em, HGeneric h) ∈ ehs -> gh_tweakFunc h = Some f -> f o = Ret o' ->
    exists b, o' = set_body o b.

Lemma set_body_id o : set_body o (obj_body o) = o.
Proof. by destruct o. Qed.

Lemma generic_Update_object h cfg p st o b h' st' :
  (forall f o o', gh_tweakFunc h = Some f -> f o = Ret o' -> exists b, o' = set_body o b) ->
  st_objs st !! p = Some o -> generic_Update h cfg p st = Ret (b, h', st') ->
  exists bd, st_objs st' !! p = Some (set_body o bd).
Proof.
  intros Ht Ho E'. assert (Hsame : exists bd, st_objs st !! p = Some (set_body o bd))
    by (exists (obj_body o); by rewrite set_body_id).
  unfold generic_Update in E'. rewrite (proj2 (st_get_obj_Ret _ _ _) Ho) in E'. simpl in E'.
  destruct (negb _); inv_ret; [done|].
  destruct (getObjectIndexByUID _ _ _) as [[i|]| | |]; simpl in E'; inv_ret; [|done].
  destruct (_ && _); inv_ret; [done|]. destruct (String.eqb _ _); inv_ret; [done|].
  destruct (gh_tweakFunc h) as [f|] eqn:Ef; inv_ret; [|done].
  match goal with Ex : f o = Ret _ |- _ => destruct (Ht _ _ _ eq_refl Ex) as [bd ->] end.
  exists bd. simpl. by rewrite lookup_insert_eq.
Qed.

Lemma handler_Update_object (e : env (W := W)) em h ehs p st o b h' st' :
  tweaks_body ehs -> (em, h) ∈ ehs -> st_objs st !! p = Some o ->
  handler_Update LeafHubName h p st e = Ret (b, h', st') ->
  exists bd, st_objs st' !! p = Some (set_body o bd).
Proof.
  intros Ht Hin Ho E'. assert (Hsame : exists bd, st_objs st !! p = Some (set_body o bd))
    by (exists (obj_body o); by rewrite set_body_id).
  destruct h as [h|h|h|h|h|h|h]; simpl in E'; try (rewrite (proj2 (st_get_obj_Ret _ _ _) Ho) in E'; simpl in E').
  { destruct (generic_Update h (e_cfg e) p st) as [[[b1 h1] st1]| | |] eqn:Eg; simpl in E'; inv_ret.
    eapply generic_Update_object; [|done|exact Eg]. intros f o1 o2 Hf Hx. by eapply Ht. }
  all: repeat case_in E'; simpl in E'; inv_ret; done.
Qed.

Lemma updateObject_object (e : env (W := W)) ehs : forall p st o ehs' st',
  tweaks_body ehs -> st_objs st !! p = Some o ->
  updateObject LeafHubName ehs p st e = Ret (ehs', st') ->
  exists bd, st_objs st' !! p = Some (set_body o bd).
Proof.
  induction ehs as [|[em h] ehs IH]; intros p st o ehs' st' Ht Ho E'; simpl in E'; inv_ret.
  { exists (obj_body o). by rewrite set_body_id. }
  match goal with Ex : handler_Update _ _ _ _ _ = Ret _ |- _ =>
    destruct (handler_Update_object _ _ _ _ _ _ _ _ _ _ Ht (list_elem_of_here _ _) Ho Ex) as [bd Hbd] end.
  match goal with Ex : (if ?u then _ else _) = Ret ?s2, Ey : updateObject _ ehs p ?s2 e = _ |- _ =>
    assert (Hs2 : st_objs s2 !! p = Some (set_body o bd));
    [destruct u; [by rewrite (em_PostUpdate_objs _ _ _ Ex)|by injection Ex as <-]|];
    destruct (IH p s2 _ _ _ (fun em0 h0 f o0 o1 Hin => Ht em0 h0 f o0 o1 (list_elem_of_further _ _ _ Hin)) Hs2 Ey)
      as [bd' Hbd'] end.
  exists bd'. rewrite Hbd'. by destruct o.
Qed.

(** The multi-event syncer writes back a global object without its owner
    references and without the finalizers of others: after a reconciliation of
    an object that is to carry the cleanup finalizer and has no removing
    deadline, the server holds the result of updating the object with the
    cleanup finalizer as its only finalizer and with no owner reference. *)
Theorem global_object_loses_owners (e : env (W := W)) `{!FinalizerLaws} kind instance ns name ehs st o err ehs' st' w' :
  kget (e_server e) kind ns name = Found o -> DeletionTimestamp o = None ->
  enableCleanUpFinalizer o = true -> Labels o !! GlobalHubFinalizerRemovingDeadline = None ->
  tweaks_body ehs ->
  multiEvent_Reconcile LeafHubName kind instance ns name ehs st e = Ret (err, ehs', st', w') ->
  exists o1, w' = (kupdate (e_server e) o1).2 /\ UID o1 = UID o /\ Name o1 = Name o /\
    Finalizers o1 = [GlobalHubCleanupFinalizer] /\ OwnerReferences o1 = [] /\ ManagedFields o1 = [].
Proof.
  intros Hget Hdel Hen Hlab Ht. unfold multiEvent_Reconcile. rewrite Hget, Hdel. simpl. intros E'.
  destruct (updateObject _ _ _ _ _) as [[ehs1 st2]| | |] eqn:Eu; simpl in E'; try discriminate E'.
  destruct (updateObject_object _ _ _ _ (cleanObject o) _ _ Ht (lookup_insert_eq _ _ _) Eu) as [bd Hbd].
  rewrite (proj2 (st_get_obj_Ret _ _ _) Hbd) in E'. simpl in E'.
  change (enableCleanUpFinalizer (set_body (cleanObject o) bd)) with (enableCleanUpFinalizer o) in E'.
  rewrite Hen in E'. simpl in E'.
  set (o2 := set_body (cleanObject o) bd) in *.
  exists (set_finalizers o2 [GlobalHubCleanupFinalizer]). split; [|done].
  unfold addFinalizer in E'. change (Labels o2) with (Labels o) in E'. rewrite Hlab in E'.
  assert (Hc : ContainsFinalizer o2 GlobalHubCleanupFinalizer = false).
  { rewrite ContainsFinalizer_spec. apply bool_decide_eq_false. apply not_elem_of_nil. }
  rewrite AddFinalizer_spec, Hc in E'. change (Finalizers o2 ++ [GlobalHubCleanupFinalizer])
    with [GlobalHubCleanupFinalizer] in E'.
  destruct (kupdate _ _) as [[err1 o'] w1]. by repeat case_in E'; simpl in E'; inv_ret.
Qed.
End Facts.
