(* ===== verification/PolicySyncer.v ===== *)
(** * The policy syncer of the agent

    [agent/pkg/status/syncers/policies/policy_syncer.go]: the six emitters of the
    policies and their handlers, in order, with the theorems on the syncers
    that run them. *)

From stdpp Require Import prelude gmap strings list.
From Stdlib Require Import ZArith Lia.
From S2P Require Import Prelude.
From S2P Require Import GoLib.
From S2P Require Import Regex.
From S2P Require Import EventTypes.
From S2P Require Import Version.
From S2P Require Import CloudEvents.
From S2P Require Import Libraries.
From S2P Require Import KubeObjects.
From S2P Require Import TimeFilter.
From S2P Require Import ConflationSafety.
From S2P Require Import Emitter.
From S2P Require Import GenericHandler.
From S2P Require Import PolicyHandlers.
From S2P Require Import EventHandlers.
From S2P Require Import StatusSyncer.
Local Open Scope string_scope.
Local Open Scope list_scope.

Definition cleanPolicy (o : Object) : outcome Object :=
  match obj_body o with
  | BPolicy _ => Ret (set_body o (BPolicy empty_status))
  | _ => Panic
  end.

(** ** The predicates *)
Definition local_root (o : Object) : bool :=
  negb (HasAnnotation o OriginOwnerReferenceAnnotation) && negb (HasLabel o PolicyEventRootPolicyNameLabelKey).
Definition localComplianceShouldUpdate (cfg : AgentConfig) (o : Object) : bool :=
  AggregationFull cfg && EnableLocalPolicy cfg && local_root o.
Definition localStatusEventShouldUpdate (cfg : AgentConfig) (o : Object) : bool :=
  EnableLocalPolicy cfg && negb (HasAnnotation o OriginOwnerReferenceAnnotation) &&
  HasLabel o PolicyEventRootPolicyNameLabelKey.
Definition localPolicySpecShouldUpdate (cfg : AgentConfig) (o : Object) : bool :=
  EnableLocalPolicy cfg && local_root o.
Definition complianceShouldUpdate (cfg : AgentConfig) (o : Object) : bool :=
  AggregationFull cfg && HasAnnotation o OriginOwnerReferenceAnnotation &&
  negb (HasLabel o PolicyEventRootPolicyNameLabelKey).

(** ** The syncer *)
Definition LaunchPolicySyncer (c : TimeCaches) (st : Store)
    : outcome (list (genericEmitter * Handler) * TimeCaches * Store) :=
  let '(localComplianceVersion, st) := st_alloc_ver NewVersion st in
  let localComplianceHandler := MkComplianceHandler [] localComplianceShouldUpdate in
  let! (localComplianceEmitter, st) :=
    NewGenericEmitter LocalComplianceType [WithVersion localComplianceVersion] st in
  let localCompleteHandler := MkCompleteHandler [] localComplianceShouldUpdate in
  let! (localCompleteEmitter, st) :=
    NewGenericEmitter LocalCompleteComplianceType [WithDependencyVersion localComplianceVersion] st in
  let '(localStatusEventHandler, c) :=
    NewPolicyStatusEventHandler LocalReplicatedPolicyEventType localStatusEventShouldUpdate c in
  let! (localStatusEventEmitter, st) := NewPolicyStatusEventEmitter LocalReplicatedPolicyEventType st in
  let localPolicySpecHandler :=
    NewGenericHandler [] [WithShouldUpdate localPolicySpecShouldUpdate; WithSpec true; WithTweakFunc cleanPolicy] in
  let! (localPolicySpecEmitter, st) := NewGenericEmitter LocalPolicySpecType [] st in
  let '(complianceVersion, st) := st_alloc_ver NewVersion st in
  let globalComplianceHandler := MkComplianceHandler [] complianceShouldUpdate in
  let! (globalComplianceEmitter, st) := NewGenericEmitter ComplianceType [WithVersion complianceVersion] st in
  let globalCompleteHandler := MkCompleteHandler [] complianceShouldUpdate in
  let! (globalCompleteEmitter, st) :=
    NewGenericEmitter CompleteComplianceType [WithDependencyVersion complianceVersion] st in
  Ret ([(localPolicySpecEmitter, HGeneric localPolicySpecHandler);
        (localComplianceEmitter, HCompliance localComplianceHandler);
        (localCompleteEmitter, HComplete localCompleteHandler);
        (localStatusEventEmitter, HStatusEvent localStatusEventHandler);
        (globalComplianceEmitter, HCompliance globalComplianceHandler);
        (globalCompleteEmitter, HComplete globalCompleteHandler)], c, st).

(** ** The spec handler comes first *)

(** The compliance handler on a policy whose status is empty. *)
Lemma compliance_Update_empty hc cfg o j cached :
  ch_shouldUpdate hc cfg o = true -> obj_body o = BPolicy empty_status ->
  getIndexByPolicyID (extractPolicyIdentity o) (ch_eventData hc) = Some j ->
  ch_eventData hc !! j = Some cached -> clusters_of cached <> [] ->
  compliance_Update hc cfg o =
    Ret (true, ch_set hc (<[j := MkCompliance (cp_PolicyID cached) (cp_NamespacedName cached) [] [] [] []]> (ch_eventData hc))).
Proof.
  intros Hs Hb Hj Hc Hne. unfold compliance_Update. rewrite Hs, Hb, Hj. simpl. unfold updatePayloadIfChanged.
  rewrite (proj2 (slice_get_Ret _ _ _) Hc). simpl. rewrite slice_set_lt by (by eapply lookup_lt_Some). simpl.
  repeat f_equal. destruct (_ =? _)%nat eqn:El; [|done]. apply Nat.eqb_eq in El.
  destruct Hne. unfold clusters_of. apply nil_length_inv. rewrite !length_app. lia.
Qed.

Section SpecFirst.
Context {W Event : Type} `{KubeClient W} `{EventSDK Event, PayloadCodec}.
Variable LeafHubName : string.
#[local] Instance emitters : EmitterI genericEmitter Event := genericEmitterI LeafHubName.

(** The local spec handler runs before the local compliance handler on the
    same object and clears its status: when the spec of a local root policy of
    both bundles changes, the entry of the policy in the compliance bundle
    loses all its clusters, whatever the status of the policy, and the bundle
    is due to be sent. *)
Theorem spec_update_empties_compliance (e : env (W := W)) (em1 em2 : genericEmitter) h hc p q st o s old i j cached v1 v2 :
  st_objs st !! p = Some o -> obj_body o = BPolicy s -> localComplianceShouldUpdate (e_cfg e) o = true ->
  gh_shouldUpdate h = Some localPolicySpecShouldUpdate -> gh_tweakFunc h = Some cleanPolicy ->
  getObjectIndexByUID st (UID o) (gh_eventData h) = Ret (Some i) -> gh_eventData h !! i = Some q ->
  st_objs st !! q = Some old -> Generation_ old <> Generation_ o -> ResourceVersion old <> ResourceVersion o ->
  ch_shouldUpdate hc = localComplianceShouldUpdate ->
  getIndexByPolicyID (extractPolicyIdentity o) (ch_eventData hc) = Some j ->
  ch_eventData hc !! j = Some cached -> clusters_of cached <> [] ->
  st_vers st !! currentVersion em1 = Some v1 -> st_vers st !! currentVersion em2 = Some v2 ->
  currentVersion em1 <> currentVersion em2 ->
  exists h' hc' st' c',
    updateObject LeafHubName [(em1, HGeneric h); (em2, HCompliance hc)] p st e =
      Ret ([(em1, HGeneric h'); (em2, HCompliance hc')], st') /\
    ch_eventData hc' !! j = Some c' /\ cp_PolicyID c' = cp_PolicyID cached /\ clusters_of c' = [] /\
    st_vers st' !! currentVersion em2 = Some (Incr v2).
Proof.
  intros Hp Hb Hsh Hgs Hgt Hidx Hi Hq Hgen Hrv Hcs Hj Hc Hne Hv1 Hv2 Hd.
  assert (Hg : generic_Update h (e_cfg e) p st =
    Ret (true, set_data h (<[i:=p]> (gh_eventData h)), st_set_obj st p (set_body o (BPolicy empty_status)))).
  { unfold generic_Update, should. rewrite (proj2 (st_get_obj_Ret _ _ _) Hp), Hgs. simpl.
    assert (Hspec : localPolicySpecShouldUpdate (e_cfg e) o = true).
    { unfold localComplianceShouldUpdate, localPolicySpecShouldUpdate in *.
      by destruct (AggregationFull (e_cfg e)), (EnableLocalPolicy (e_cfg e)). }
    rewrite Hspec, Hidx. simpl. rewrite (proj2 (slice_get_Ret _ _ _) Hi). simpl.
    rewrite (proj2 (st_get_obj_Ret _ _ _) Hq). simpl. rewrite (proj2 (Z.eqb_neq _ _) Hgen), andb_false_r.
    rewrite (proj2 (String.eqb_neq _ _)) by congruence.
    rewrite slice_set_lt by (by eapply lookup_lt_Some). simpl. rewrite Hgt. unfold cleanPolicy. rewrite Hb. done. }
  set (o' := set_body o (BPolicy empty_status)) in *.
  set (st1 := st_set_ver (st_set_obj st p o') (currentVersion em1) (Incr v1)).
  pose proof (compliance_Update_empty hc (e_cfg e) o' j cached) as Hcu.
  cbn [updateObject handler_Update]. rewrite Hg. cbn [obind em_PostUpdate emitters genericEmitterI].
  unfold PostUpdate at 1. unfold st_get_ver at 1. change (st_vers (st_set_obj st p o')) with (st_vers st).
  rewrite Hv1. cbn [obind]. fold st1. unfold st_get_obj. change (st_objs st1) with (<[p := o']> (st_objs st)).
  rewrite lookup_insert_eq. cbn [obind]. rewrite Hcu by (rewrite ?Hcs; done). cbn [obind].
  unfold PostUpdate, st_get_ver. assert (Hv2' : st_vers st1 !! currentVersion em2 = Some v2)
    by (unfold st1; simpl; by rewrite lookup_insert_ne).
  rewrite Hv2'. cbn [obind]. eexists _, _, _, _. split; [reflexivity|]. simpl.
  rewrite list_lookup_insert_eq by (by eapply lookup_lt_Some). split; [done|]. split; [done|]. split; [done|].
  by rewrite lookup_insert_eq.
Qed.
End SpecFirst.

(** ** Examples *)
Module Sample.
#[local] Instance codec : PayloadCodec := {| marshal _ _ := Ok [] |}.
#[local] Instance emitters_ : EmitterI genericEmitter PlainEvent := genericEmitterI "hub1".
#[local] Instance laws_ : EmitterLaws genericEmitter PlainEvent := genericEmitterLaws "hub1".
(** A producer that logs what it accepts, and one that refuses everything. *)
#[local] Instance log_producer : Producer (list PlainEvent) PlainEvent := {| SendEvent l _ e := (None, l ++ [e]) |}.
#[local] Instance refusing : Producer unit PlainEvent := {| SendEvent l _ _ := (Some "no broker", l) |}.
#[local] Instance finalizers : FinalizerUtil := {|
  ContainsFinalizer o f := bool_decide (f ∈ Finalizers o);
  AddFinalizer o f := if bool_decide (f ∈ Finalizers o) then o else set_finalizers o (Finalizers o ++ [f]);
  RemoveFinalizer o f := set_finalizers o (filter (fun x => x <> f) (Finalizers o)) |}.
#[local] Instance finalizer_laws : FinalizerLaws.
Proof. by split. Qed.

Notation EH := (list (genericEmitter * Handler)).
Definition launched : EH * TimeCaches * Store :=
  match LaunchPolicySyncer initial_caches empty_store with
  | Ret x => x | _ => ([], initial_caches, empty_store) end.
Definition policy_v1 : Object := sample_policy "a" "1" 1 sample_status.
Definition policy_v2 : Object := sample_policy "a" "2" 2 sample_status.
Definition serve (o : Object) : PlainServer := {[(PolicyKind, Namespace o, Name o) := o]}.
Definition env_of (o : Object) : env (W := PlainServer) := MkEnv (MkConfig true true) launched.1.2 (serve o) 100.

(** Reconciles the objects one after the other. *)
Fixpoint reconcile_all (os : list Object) (ehs : EH) (st : Store) : EH * Store :=
  match os with
  | [] => (ehs, st)
  | o :: os =>
      match multiEvent_Reconcile "hub1" PolicyKind (BPolicy empty_status) (Namespace o) (Name o) ehs st (env_of o) with
      | Ret (_, ehs', st', _) => reconcile_all os ehs' st'
      | _ => ([], empty_store)
      end
  end.
Definition local_clusters (x : EH * Store) : list (list string) :=
  match x.1 !! 1 with Some (_, HCompliance h) => clusters_of <$> ch_eventData h | _ => [] end.

Example launched_six : length launched.1.1 = 6.
Proof. vm_compute. reflexivity. Qed.
Example clusters_after_creation :
  local_clusters (reconcile_all [policy_v1] launched.1.1 launched.2) = [["cluster1"; "cluster2"]].
Proof. vm_compute. reflexivity. Qed.
Example clusters_after_spec_change :
  local_clusters (reconcile_all [policy_v1; policy_v2] launched.1.1 launched.2) = [[]].
Proof. vm_compute. reflexivity. Qed.

(** The state after the first reconciliation, with the new object at [p]. *)
Definition created : EH * Store := reconcile_all [policy_v1] launched.1.1 launched.2.
Definition created_emitter (n : nat) : genericEmitter := default (MkEmitter "" 0 NewVersion "" None None) (fst <$> created.1 !! n).
Definition created_spec : genericHandler :=
  match snd <$> created.1 !! 0 with Some (HGeneric h) => h | _ => NewGenericHandler [] [] end.
Definition created_compliance : complianceHandler :=
  match snd <$> created.1 !! 1 with Some (HCompliance h) => h | _ => MkComplianceHandler [] localComplianceShouldUpdate end.
Definition updated : nat * Store := st_alloc_obj policy_v2 created.2.

Lemma spec_update_empties_compliance_witness :
  exists h' hc' st' c',
    updateObject "hub1" [(created_emitter 0, HGeneric created_spec); (created_emitter 1, HCompliance created_compliance)]
      updated.1 updated.2 (env_of policy_v2) =
      Ret ([(created_emitter 0, HGeneric h'); (created_emitter 1, HCompliance hc')], st') /\
    ch_eventData hc' !! 0 = Some c' /\ clusters_of c' = [].
Proof.
  edestruct (spec_update_empties_compliance "hub1" (env_of policy_v2) (created_emitter 0) (created_emitter 1)
    created_spec created_compliance updated.1 (default 0 (gh_eventData created_spec !! 0)) updated.2 policy_v2
    sample_status policy_v1 0 0 (MkCompliance "a" "default/policy-a" ["cluster1"] ["cluster2"] [] [])
    (MkVersion 0 1) (MkVersion 0 1)) as (h' & hc' & st' & c' & E & Hc & _ & Hn & _).
  18: { exists h', hc', st', c'. split; [exact E|]. split; [exact Hc|exact Hn]. }
  all: try (vm_compute; reflexivity); vm_compute; discriminate.
Defined.

(** A policy of the global hub with an owner and a finalizer of another controller. *)
Definition global_policy : Object :=
  MkObject "g" "default" "policy-g" 1 "1" 0 None ∅ {[OriginOwnerReferenceAnnotation := "origin"]}
    ["other/finalizer"] ["owner"] [] "" (BPolicy sample_status).

Lemma launched_tweaks : tweaks_body launched.1.1.
Proof.
  intros em h f o o' Hin Hf Ho.
  assert (f = cleanPolicy) as ->.
  { revert em h Hin Hf. change (forall em h, (em, HGeneric h) ∈ launched.1.1 -> gh_tweakFunc h = Some f -> f = cleanPolicy).
    assert (Hall : Forall (fun eh : genericEmitter * Handler =>
      match eh.2 with HGeneric h => gh_tweakFunc h = Some cleanPolicy | _ => True end) launched.1.1)
      by (repeat constructor).
    intros em h Hin Hf. apply (proj1 (Forall_forall _ _) Hall) in Hin. simpl in Hin. congruence. }
  unfold cleanPolicy in Ho. destruct (obj_body o); inv_ret; eauto.
Qed.

Definition reconciled : outcome (option goerror * EH * Store * PlainServer) :=
  multiEvent_Reconcile "hub1" PolicyKind (BPolicy empty_status) "default" "policy-g" launched.1.1 launched.2
    (env_of global_policy).
Definition no_error {A B C} (r : outcome (option goerror * A * B * C)) : bool :=
  match r with Ret (None, _, _, _) => true | _ => false end.
Lemma no_error_Ret {A B C} (r : outcome (option goerror * A * B * C)) :
  no_error r = true -> exists a b c, r = Ret (None, a, b, c).
Proof. destruct r as [[[[[|] a] b] c]| | |]; [done| |done..]. eauto. Qed.

Lemma global_object_loses_owners_witness :
  exists ehs' st' w' o1, reconciled = Ret (None, ehs', st', w') /\
    w' = (kupdate (serve global_policy) o1).2 /\ Finalizers o1 = [GlobalHubCleanupFinalizer] /\ OwnerReferences o1 = [].
Proof.
  destruct (no_error_Ret reconciled) as (ehs' & st' & w' & Er); [vm_compute; reflexivity|].
  destruct (global_object_loses_owners "hub1" (env_of global_policy) PolicyKind (BPolicy empty_status) "default" "policy-g"
    launched.1.1 launched.2 global_policy None ehs' st' w') as (o1 & Hw & _ & _ & Hf & Ho & _).
  - vm_compute. reflexivity.
  - reflexivity.
  - vm_compute. reflexivity.
  - vm_compute. reflexivity.
  - exact launched_tweaks.
  - exact Er.
  - exists ehs', st', w', o1. split; [exact Er|]. split; [exact Hw|]. split; [exact Hf|exact Ho].
Defined.

Definition versions_valid (x : EH * Store) : bool :=
  forallb (fun eh => bool_decide (is_Some (st_vers x.2 !! currentVersion eh.1)) &&
    match dependencyVersion eh.1 with Some l => bool_decide (is_Some (st_vers x.2 !! l)) | None => true end) x.1.

Lemma versions_valid_spec x : versions_valid x = true -> Forall (fun eh => em_valid eh.1 x.2) x.1.
Proof.
  unfold versions_valid. rewrite forallb_elem_of, Forall_forall. intros Hv eh Hin. specialize (Hv eh Hin).
  apply andb_true_iff in Hv as [Hv Hd]. apply bool_decide_eq_true in Hv. split; [done|].
  intros l Hl. rewrite Hl in Hd. by apply bool_decide_eq_true in Hd.
Qed.

Definition first_round : outcome (EH * list PlainEvent * TimeCaches * Store) :=
  multiEvent_syncEvents "hub1" created.1 ([] : list PlainEvent) launched.1.2 created.2.
Definition events_sent (r : outcome (EH * list PlainEvent * TimeCaches * Store)) : nat :=
  match r with Ret (_, pr, _, _) => length pr | _ => 0 end.

(** The spec, the compliance and the complete-compliance events are sent. *)
Lemma sync_sends_each_change_once_witness :
  events_sent first_round = 3 /\
  exists ehs' pr' c' st' tes, first_round = Ret (ehs', pr', c', st') /\
    pr' = send_all [] tes /\ Forall2 (event_for "hub1" created.2) (due created.2 created.1) tes /\
    multiEvent_syncEvents "hub1" ehs' ([] : list PlainEvent) launched.1.2 st' = Ret (ehs', [], launched.1.2, st').
Proof.
  split; [vm_compute; reflexivity|].
  apply (sync_sends_each_change_once "hub1" created.1 ([] : list PlainEvent) launched.1.2 created.2 [] launched.1.2).
  - apply versions_valid_spec. vm_compute. reflexivity.
  - apply (bool_decide_unpack _). vm_compute. exact I.
  - done.
Defined.

Lemma refused_events_stay_due_witness :
  exists pr', multiEvent_syncEvents "hub1" created.1 tt launched.1.2 created.2 = Ret (created.1, pr', launched.1.2, created.2).
Proof.
  apply (refused_events_stay_due "hub1" created.1 tt launched.1.2 created.2).
  - apply versions_valid_spec. vm_compute. reflexivity.
  - intros pr t evt. simpl. eauto.
Defined.
End Sample.

(** The bundles that cannot be encoded. *)
Module Unencodable.
#[local] Instance codec : PayloadCodec := {| marshal _ _ := Err "unsupported value" |}.
#[local] Instance emitters_ : EmitterI genericEmitter PlainEvent := genericEmitterI "hub1".
#[local] Instance laws_ : EmitterLaws genericEmitter PlainEvent := genericEmitterLaws "hub1".
#[local] Instance log_producer : Producer (list PlainEvent) PlainEvent := {| SendEvent l _ e := (None, l ++ [e]) |}.
Definition due_store : Store := MkStore 1 ∅ {[0 := MkVersion 0 1]} None.

Lemma unencodable_bundle_is_marked_sent_witness :
  exists evt em1 h1 c1 st1, multiEvent_syncEvents "hub1" [(sample_emitter, HCompliance (MkComplianceHandler [] (fun _ _ => true)))]
      ([] : list PlainEvent) initial_caches due_store = Ret ([(em1, h1)], [evt], c1, st1) /\
    em_ShouldSend em1 st1 = Ret false.
Proof.
  set (evt := SetExtension ExtVersion (ExtString "0.1") (SetType "t" (SetSource "hub1" NewEvent)) : PlainEvent).
  destruct (unencodable_bundle_is_marked_sent "hub1" sample_emitter (HCompliance (MkComplianceHandler [] (fun _ _ => true)))
    ([] : list PlainEvent) initial_caches due_store evt "unsupported value" [SetSource "hub1" evt])
    as [(em1 & h1 & c1 & st1 & Es & Eq) _].
  - split; [vm_compute; eauto|done].
  - vm_compute. reflexivity.
  - vm_compute. reflexivity.
  - reflexivity.
  - exists (SetSource "hub1" evt), em1, h1, c1, st1. split; [exact Es|exact Eq].
Defined.
End Unencodable.
