(* ===== verification/ComplianceDB.v ===== *)
(** * The compliance tables of the manager

    [manager/pkg/status/handlers/policy]: the handlers of the compliance, complete
    and delta compliance bundles of the global policies ([status.compliance])
    and of the local policies ([local_status.compliance]). GORM and the sets of
    [golang-set] are not part of the repository: the operations used are a class
    over the database, its meaning on the rows is a class of laws, and a map of
    rows implements both. The decoding of an event's data is an argument. *)

From stdpp Require Import prelude gmap strings list.
From Stdlib Require Import ZArith Lia.
From S2P Require Import Prelude.
From S2P Require Import GoLib.
From S2P Require Import Version.
From S2P Require Import KubeObjects.
From S2P Require Import TimeFilter.
From S2P Require Import ConflationSafety.
From S2P Require Import Emitter.
Local Open Scope string_scope.
Local Open Scope list_scope.

(** ** Rows *)
Definition DBNonCompliant : string := "non_compliant".
Definition DBCompliant : string := "compliant".
Definition DBUnknown : string := "unknown".
Definition DBPending : string := "pending".
Definition ErrorNone : string := "none".

Record StatusCompliance := MkRow {
  sc_PolicyID : string;
  sc_ClusterName : string;
  sc_LeafHubName : string;
  sc_Error : string;
  sc_Compliance : string;
}.

(** The conditions of a query: an example row, whose empty fields are no
    conditions, or the text [leaf_hub_name = ? AND compliance <> ?]. *)
Inductive query :=
| ByExample (policy cluster leaf : string)
| ByHub (leaf : string)
| ByHubNot (leaf compliance : string).

Inductive stmt :=
| DeleteWhere (policy cluster leaf : string)           (** conditions by example *)
| UpdatesRow (r : StatusCompliance)                    (** by primary key *)
| UpdatesPolicy (policy leaf compliance : string)      (** [policy_id = ? AND leaf_hub_name = ?] *)
| UpdatesExample (policy cluster leaf compliance : string). (** conditions by example *)

Class ComplianceTable (D : Type) := {
  db_find : D -> query -> result (list StatusCompliance);
  db_upsert : D -> list StatusCompliance -> option goerror * D;   (** [CreateInBatches], [UpdateAll] *)
  db_tx : D -> list stmt -> option goerror * D;                   (** the statements in a transaction *)
}.

(** The orders in which Go ranges over a map and [ToSlice] lists a set. *)
Class Orders := {
  ToSlice : gset string -> list string;
  range_keys : forall {A}, gmap string A -> list string;
}.
Class OrdersLaws `{Orders} : Prop := {
  ToSlice_perm s : ToSlice s ≡ₚ elements s;
  range_keys_perm {A} (m : gmap string A) : range_keys m ≡ₚ (map_to_list m).*1;
}.

(** ** [PolicyClustersSets] *)
Notation PolicyClustersSets := (gmap string (gset string)).

Definition NewPolicyClusterSets : PolicyClustersSets :=
  {[DBCompliant := ∅; DBNonCompliant := ∅; DBUnknown := ∅; DBPending := ∅]}.

(** The set of a status that is not a key is nil. *)
Definition AddCluster (sets : PolicyClustersSets) (clusterName status : string) : outcome PolicyClustersSets :=
  match sets !! status with
  | None => Panic
  | Some s => Ret (<[status := {[clusterName]} ∪ s]> sets)
  end.

Definition GetClusters (sets : PolicyClustersSets) (status : string) : gset string := default ∅ (sets !! status).

Definition GetAllClusters (sets : PolicyClustersSets) : gset string :=
  GetClusters sets DBCompliant ∪
  (GetClusters sets DBNonCompliant ∪ GetClusters sets DBPending ∪ GetClusters sets DBUnknown).

Section Handlers.
Context {D : Type} `{ComplianceTable D} `{Orders}.

Fixpoint cluster_sets (rows : list StatusCompliance) (acc : gmap string PolicyClustersSets)
    : outcome (gmap string PolicyClustersSets) :=
  match rows with
  | [] => Ret acc
  | r :: rest =>
      let sets := default NewPolicyClusterSets (acc !! sc_PolicyID r) in
      let! sets' := AddCluster sets (sc_ClusterName r) (sc_Compliance r) in
      cluster_sets rest (<[sc_PolicyID r := sets']> acc)
  end.

Definition getComplianceClusterSets (d : D) (q : query) : outcome (result (gmap string PolicyClustersSets)) :=
  match db_find d q with
  | Err e => Ret (Err e)
  | Ok rows => let! m := cluster_sets rows ∅ in Ret (Ok m)
  end.

(** ** The compliance bundle *)
Fixpoint newCompliances (leafHub policyID compliance : string) (clusters : list string) (allClusterOnDB : gset string)
    : list StatusCompliance * gset string :=
  match clusters with
  | [] => ([], allClusterOnDB)
  | cluster :: rest =>
      let '(rows, s) := newCompliances leafHub policyID compliance rest (allClusterOnDB ∖ {[cluster]}) in
      (MkRow policyID cluster leafHub ErrorNone compliance :: rows, s)
  end.

(** The rows of an entry, and the clusters of the database it does not name. *)
Definition entry_rows (leafHubName : string) (ec : Compliance) (onDB : gset string)
    : list StatusCompliance * gset string :=
  let policyID := cp_PolicyID ec in
  let '(compliant, s1) := newCompliances leafHubName policyID DBCompliant (cp_CompliantClusters ec) onDB in
  let '(nonCompliant, s2) := newCompliances leafHubName policyID DBNonCompliant (cp_NonCompliantClusters ec) s1 in
  let '(unknown, s3) := newCompliances leafHubName policyID DBUnknown (cp_UnknownComplianceClusters ec) s2 in
  let '(pending, s4) := newCompliances leafHubName policyID DBPending (cp_PendingComplianceClusters ec) s3 in
  (compliant ++ nonCompliant ++ unknown ++ pending, s4).

(** The loop over the bundle; [all] is what is left of the sets of the database. *)
Fixpoint compliance_entries (leafHubName : string) (data : list Compliance) (all : gmap string PolicyClustersSets)
    (d : D) : option goerror * gmap string PolicyClustersSets * D :=
  match data with
  | [] => (None, all, d)
  | ec :: rest =>
      let policyID := cp_PolicyID ec in
      let sets := default NewPolicyClusterSets (all !! policyID) in
      let '(batch, allClustersOnDB) := entry_rows leafHubName ec (GetAllClusters sets) in
      match db_upsert d batch with
      | (Some e, d1) => (Some e, all, d1)
      | (None, d1) =>
          match db_tx d1 ((fun c => DeleteWhere policyID c leafHubName) <$> ToSlice allClustersOnDB) with
          | (Some e, d2) => (Some ("failed to handle clusters per policy bundle - " +:+ e), all, d2)
          | (None, d2) => compliance_entries leafHubName rest (delete policyID all) d2
          end
      end
  end.

Definition remove_absent (all : gmap string PolicyClustersSets) (d : D) : option goerror * D :=
  match db_tx d ((fun policyID => DeleteWhere policyID "" "") <$> range_keys all) with
  | (Some e, d') => (Some ("failed to handle compliance event - " +:+ e), d')
  | (None, d') => (None, d')
  end.

Definition policyCompliance_handleEvent (leafHubName : string) (decoded : result (list Compliance)) (d : D)
    : outcome (option goerror * D) :=
  match decoded with
  | Err e => Ret (Some e, d)
  | Ok data =>
      match db_find d (ByExample "" "" leafHubName) with
      | Err e => Ret (Some e, d)
      | Ok _ =>
          let! sets := getComplianceClusterSets d (ByHub leafHubName) in
          match sets with
          | Err e => Ret (Some e, d)
          | Ok all =>
              match compliance_entries leafHubName data all d with
              | (Some e, _, d1) => Ret (Some e, d1)
              | (None, all', d1) => Ret (remove_absent all' d1)
              end
          end
      end
  end.

(** The local policies: the same steps on the other table, without the first
    query. *)
Definition handleCompliance (leafHub : string) (decoded : result (list Compliance)) (d : D)
    : outcome (option goerror * D) :=
  match decoded with
  | Err e => Ret (Some e, d)
  | Ok data =>
      let! sets := getComplianceClusterSets d (ByHub leafHub) in
      match sets with
      | Err e => Ret (Some e, d)
      | Ok all =>
          match compliance_entries leafHub data all d with
          | (Some e, _, d1) => Ret (Some e, d1)
          | (None, all', d1) => Ret (remove_absent all' d1)
          end
      end
  end.

(** ** The complete-compliance bundle *)

(** The clusters of the event in a state: a row for those the database has in
    another state; all are removed from the clusters left. *)
Fixpoint changed_rows (leafHub policyID status : string) (sets : PolicyClustersSets) (clusters : list string)
    (left_ : gset string) : list StatusCompliance * gset string :=
  match clusters with
  | [] => ([], left_)
  | c :: rest =>
      let '(rows, l) := changed_rows leafHub policyID status sets rest (left_ ∖ {[c]}) in
      (if bool_decide (c ∈ GetClusters sets status) then rows
       else MkRow policyID c leafHub ErrorNone status :: rows, l)
  end.

Definition complete_rows (leafHub : string) (ec : CompleteCompliance) (sets : PolicyClustersSets) : list StatusCompliance :=
  let policyID := cc_PolicyID ec in
  let '(r1, l1) := changed_rows leafHub policyID DBNonCompliant sets (cc_NonCompliantClusters ec) (GetAllClusters sets) in
  let '(r2, l2) := changed_rows leafHub policyID DBPending sets (cc_PendingComplianceClusters ec) l1 in
  let '(r3, l3) := changed_rows leafHub policyID DBUnknown sets (cc_UnknownComplianceClusters ec) l2 in
  r1 ++ r2 ++ r3 ++ ((fun c => MkRow policyID c leafHub ErrorNone DBCompliant) <$> ToSlice l3).

Fixpoint complete_entries (leafHub : string) (data : list CompleteCompliance) (all : gmap string PolicyClustersSets)
    (d : D) : option goerror * gmap string PolicyClustersSets * D :=
  match data with
  | [] => (None, all, d)
  | ec :: rest =>
      let policyID := cc_PolicyID ec in
      let sets := default NewPolicyClusterSets (all !! policyID) in
      match db_tx d (UpdatesRow <$> complete_rows leafHub ec sets) with
      | (Some e, d1) => (Some ("failed to update compliances by complete event - " +:+ e), all, d1)
      | (None, d1) => complete_entries leafHub rest (delete policyID all) d1
      end
  end.

Definition all_compliant_absent (leafHub : string) (all : gmap string PolicyClustersSets) (d : D)
    : option goerror * D :=
  match db_tx d ((fun policyID => UpdatesPolicy policyID leafHub DBCompliant) <$> range_keys all) with
  | (Some e, d') => (Some ("failed deleting compliances from complaince - " +:+ e), d')
  | (None, d') => (None, d')
  end.

Definition policyComplete_handleEvent (leafHub : string) (decoded : result (list CompleteCompliance)) (d : D)
    : outcome (option goerror * D) :=
  match decoded with
  | Err e => Ret (Some e, d)
  | Ok data =>
      let! sets := getComplianceClusterSets d (ByHubNot leafHub DBCompliant) in
      match sets with
      | Err e => Ret (Some e, d)
      | Ok all =>
          match complete_entries leafHub data all d with
          | (Some e, _, d1) => Ret (Some e, d1)
          | (None, all', d1) => Ret (all_compliant_absent leafHub all' d1)
          end
      end
  end.

(** The local policies: the database is read before the data is decoded. *)
Definition handleCompleteCompliance (leafHub : string) (decoded : result (list CompleteCompliance)) (d : D)
    : outcome (option goerror * D) :=
  let! sets := getComplianceClusterSets d (ByHubNot leafHub DBCompliant) in
  match sets with
  | Err e => Ret (Some e, d)
  | Ok all =>
      match decoded with
      | Err e => Ret (Some e, d)
      | Ok data =>
          match complete_entries leafHub data all d with
          | (Some e, _, d1) => Ret (Some e, d1)
          | (None, all', d1) => Ret (all_compliant_absent leafHub all' d1)
          end
      end
  end.

(** ** The delta-compliance bundle *)
Definition updateCompliance (policyID leafHub cluster compliance : string) : stmt :=
  UpdatesExample policyID cluster leafHub compliance.

Definition delta_stmts (leafHub : string) (ec : Compliance) : list stmt :=
  ((fun c => updateCompliance (cp_PolicyID ec) leafHub c DBCompliant) <$> cp_CompliantClusters ec) ++
  ((fun c => updateCompliance (cp_PolicyID ec) leafHub c DBNonCompliant) <$> cp_NonCompliantClusters ec) ++
  ((fun c => updateCompliance (cp_PolicyID ec) leafHub c DBUnknown) <$> cp_UnknownComplianceClusters ec) ++
  ((fun c => updateCompliance (cp_PolicyID ec) leafHub c DBPending) <$> cp_PendingComplianceClusters ec).

Definition policyDelta_handleEvent (leafHub : string) (decoded : result (list Compliance)) (d : D)
    : option goerror * D :=
  match decoded with
  | Err e => (Some e, d)
  | Ok data =>
      match db_tx d (concat (delta_stmts leafHub <$> data)) with
      | (Some e, d') => (Some ("failed to handle delta compliance bundle - " +:+ e), d')
      | (None, d') => (None, d')
      end
  end.
End Handlers.

(** ** The meaning of the operations on the rows *)
(** Policy, cluster, hub. *)
Notation key := (string * string * string)%type.
(** Error, compliance. *)
Notation Table := (gmap (string * string * string) (string * string)).

Definition row_of (kv : key * (string * string)) : StatusCompliance :=
  MkRow kv.1.1.1 kv.1.1.2 kv.1.2 kv.2.1 kv.2.2.
Definition row_key (r : StatusCompliance) : key := (sc_PolicyID r, sc_ClusterName r, sc_LeafHubName r).
Definition row_value (r : StatusCompliance) : string * string := (sc_Error r, sc_Compliance r).

(** An empty field of an example is no condition. *)
Definition field_matches (cond value : string) : bool := String.eqb cond "" || String.eqb cond value.
Definition key_matches (policy cluster leaf : string) (k : key) : bool :=
  field_matches policy k.1.1 && field_matches cluster k.1.2 && field_matches leaf k.2.
Definition no_condition (policy cluster leaf : string) : bool :=
  String.eqb policy "" && String.eqb cluster "" && String.eqb leaf "".

Definition query_matches (q : query) (k : key) (v : string * string) : bool :=
  match q with
  | ByExample p c l => key_matches p c l k
  | ByHub l => String.eqb l k.2
  | ByHubNot l s => String.eqb l k.2 && negb (String.eqb v.2 s)
  end.

Definition upsert (t : Table) (r : StatusCompliance) : Table := <[row_key r := row_value r]> t.

(** Statements without any condition are refused; an empty field of an update
    keeps its column. *)
Definition set_fields (err status : string) (v : string * string) : string * string :=
  (if String.eqb err "" then v.1 else err, if String.eqb status "" then v.2 else status).
Definition update_where (p c l err status : string) (t : Table) : Table :=
  map_imap (fun k v => Some (if key_matches p c l k then set_fields err status v else v)) t.

Definition exec_stmt (s : stmt) (t : Table) : result Table :=
  match s with
  | DeleteWhere p c l =>
      if no_condition p c l then Err "WHERE conditions required"
      else Ok (filter (fun kv => key_matches p c l kv.1 = false) t)
  | UpdatesRow r =>
      if no_condition (sc_PolicyID r) (sc_ClusterName r) (sc_LeafHubName r) then Err "WHERE conditions required"
      else Ok (update_where (sc_PolicyID r) (sc_ClusterName r) (sc_LeafHubName r) (sc_Error r) (sc_Compliance r) t)
  | UpdatesPolicy p l s =>
      Ok (map_imap (fun k v => Some (if String.eqb p k.1.1 && String.eqb l k.2 then set_fields "" s v else v)) t)
  | UpdatesExample p c l s =>
      if no_condition p c l then Err "WHERE conditions required" else Ok (update_where p c l "" s t)
  end.

Fixpoint exec_stmts (l : list stmt) (t : Table) : result Table :=
  match l with
  | [] => Ok t
  | s :: rest => let? t' := exec_stmt s t in exec_stmts rest t'
  end.

Class ComplianceTableLaws (D : Type) `{ComplianceTable D} := {
  rows : D -> Table;
  find_rows d q l : db_find d q = Ok l ->
    l ≡ₚ row_of <$> filter (fun kv => query_matches q kv.1 kv.2 = true) (map_to_list (rows d));
  upsert_rows d l d' : db_upsert d l = (None, d') -> rows d' = fold_left upsert l (rows d);
  tx_commit d l d' : db_tx d l = (None, d') -> exec_stmts l (rows d) = Ok (rows d');
  tx_rollback d l e d' : db_tx d l = (Some e, d') -> rows d' = rows d;
}.

#[export] Instance table_db : ComplianceTable Table := {|
  db_find t q := Ok (row_of <$> filter (fun kv => query_matches q kv.1 kv.2 = true) (map_to_list t));
  db_upsert t l := (None, fold_left upsert l t);
  db_tx t l := match exec_stmts l t with Ok t' => (None, t') | Err e => (Some e, t) end;
|}.

#[export] Program Instance table_laws : ComplianceTableLaws Table := {| rows t := t |}.
Next Obligation. intros t q l [= <-]. done. Qed.
Next Obligation. by intros t l t' [= <-]. Qed.
Next Obligation. intros t l t'. simpl. destruct (exec_stmts l t); [|done]. by intros [= <-]. Qed.
Next Obligation. intros t l e t'. simpl. destruct (exec_stmts l t); [done|]. by intros [= _ <-]. Qed.

#[export] Instance plain_orders : Orders := {|
  ToSlice s := elements s;
  range_keys A m := (map_to_list m).*1;
|}.
#[export] Instance plain_orders_laws : OrdersLaws.
Proof. by split. Qed.
