(* ===== verification/ComplianceFacts.v ===== *)
(** * The compliance tables: what a bundle does to the rows

    The rows of the hub after a compliance, a complete-compliance and a
    delta-compliance bundle, and what happens to the rows of other hubs. *)

From stdpp Require Import prelude gmap strings list.
From Stdlib Require Import ZArith Lia.
From S2P Require Import Prelude.
From S2P Require Import GoLib.
From S2P Require Import Version.
From S2P Require Import ConflationSafety.
From S2P Require Import KubeObjects.
From S2P Require Import TimeFilter.
From S2P Require Import Emitter.
From S2P Require Import ComplianceDB.

Local Open Scope string_scope.
Local Open Scope list_scope.

(** Keys have no empty column and the statuses are the four of the enumeration. *)
Definition four : list string := [DBCompliant; DBNonCompliant; DBUnknown; DBPending].
Definition table_ok (t : Table) : Prop :=
  forall p c l v, t !! (p, c, l) = Some v -> p <> "" /\ c <> "" /\ l <> "" /\ v.2 ∈ four.

(** The hub [l] has a row of the policy [p]. *)
Definition hub_has_policy (t : Table) (p l : string) : bool :=
  existsb (fun kv => String.eqb kv.1.1.1 p && String.eqb kv.1.2 l) (map_to_list t).

Lemma hub_has_policy_spec t p l : hub_has_policy t p l = true <-> exists c, is_Some (t !! (p, c, l)).
Proof.
  unfold hub_has_policy. rewrite existsb_exists. split.
  - intros ([[[kp kc] kl] v] & Hin & Hm). simpl in Hm. apply andb_true_iff in Hm as [Hp Hl].
    apply String.eqb_eq in Hp as ->, Hl as ->. apply list_elem_of_In, elem_of_map_to_list in Hin. eauto.
  - intros (c & v & Hv). exists ((p, c, l), v). split; [by apply list_elem_of_In, elem_of_map_to_list|].
    simpl. by rewrite !String.eqb_refl.
Qed.

(** ** The sets read from the database *)
Definition sets_of (all : gmap string PolicyClustersSets) (p : string) : PolicyClustersSets :=
  default NewPolicyClusterSets (all !! p).
Definition sets_ok (s : PolicyClustersSets) : Prop := forall st, st ∈ four -> is_Some (s !! st).

Lemma NewPolicyClusterSets_ok : sets_ok NewPolicyClusterSets.
Proof.
  intros st Hst. unfold four in Hst. rewrite !elem_of_cons in Hst.
  destruct Hst as [->|[->|[->|[->|Hst]]]]; [by eexists..|]. by apply not_elem_of_nil in Hst.
Qed.

Lemma NewPolicyClusterSets_empty st : GetClusters NewPolicyClusterSets st = ∅.
Proof.
  unfold GetClusters, NewPolicyClusterSets. rewrite !lookup_insert, lookup_singleton. by repeat case_decide.
Qed.

Lemma sets_of_delete all p q : sets_of (delete p all) q = if decide (p = q) then NewPolicyClusterSets else sets_of all q.
Proof. unfold sets_of. rewrite lookup_delete. by case_decide. Qed.

Lemma elem_of_GetAllClusters c s : c ∈ GetAllClusters s <-> exists st, st ∈ four /\ c ∈ GetClusters s st.
Proof.
  unfold GetAllClusters. rewrite !elem_of_union. unfold four. split.
  - intros [?|[[?|?]|?]]; eexists; (split; [|eassumption]); rewrite !elem_of_cons; tauto.
  - intros (st & Hst & Hc). rewrite !elem_of_cons in Hst.
    destruct Hst as [->|[->|[->|[->|Hst]]]]; [tauto..|]. by apply not_elem_of_nil in Hst.
Qed.

Lemma AddCluster_spec s c st : sets_ok s -> st ∈ four ->
  exists s', AddCluster s c st = Ret s' /\ sets_ok s' /\
    forall x y, x ∈ GetClusters s' y <-> x ∈ GetClusters s y \/ (x = c /\ y = st).
Proof.
  intros Hs Hst. unfold AddCluster. destruct (Hs st Hst) as [set Hset]. rewrite Hset.
  eexists. split; [done|]. split.
  - intros y Hy. rewrite lookup_insert. case_decide; [eauto|by apply Hs].
  - intros x y. unfold GetClusters. rewrite lookup_insert. case_decide as Hy; simpl; [|naive_solver].
    subst y. rewrite Hset. simpl. rewrite elem_of_union, elem_of_singleton. naive_solver.
Qed.

Lemma cluster_sets_spec rows : forall acc,
  (forall p, sets_ok (sets_of acc p)) -> Forall (fun r => sc_Compliance r ∈ four) rows ->
  exists m, cluster_sets rows acc = Ret m /\ (forall p, sets_ok (sets_of m p)) /\
    (forall p, is_Some (m !! p) <-> is_Some (acc !! p) \/ exists r, r ∈ rows /\ sc_PolicyID r = p) /\
    (forall p c st, c ∈ GetClusters (sets_of m p) st <->
       c ∈ GetClusters (sets_of acc p) st \/
       exists r, r ∈ rows /\ sc_PolicyID r = p /\ sc_ClusterName r = c /\ sc_Compliance r = st).
Proof.
  induction rows as [|r rows IH]; intros acc Hok Hf; simpl.
  { exists acc. split; [done|]. split; [done|]. setoid_rewrite elem_of_nil. naive_solver. }
  apply Forall_cons in Hf as [Hr Hf].
  destruct (AddCluster_spec (sets_of acc (sc_PolicyID r)) (sc_ClusterName r) _ (Hok _) Hr) as (s' & Es & Hs' & Hmem).
  unfold sets_of in Es. rewrite Es. simpl.
  destruct (IH (<[sc_PolicyID r:=s']> acc)) as (m & Em & Hm & Hdom & Hin); [|done|].
  { intros p. unfold sets_of. rewrite lookup_insert. case_decide; [done|by apply Hok]. }
  exists m. split; [done|]. split; [done|]. split.
  - intros p. rewrite Hdom, lookup_insert. setoid_rewrite elem_of_cons. case_decide; naive_solver.
  - intros p c st. rewrite Hin. setoid_rewrite elem_of_cons.
    assert (Hx : c ∈ GetClusters (sets_of (<[sc_PolicyID r:=s']> acc) p) st <->
      c ∈ GetClusters (sets_of acc p) st \/ (sc_PolicyID r = p /\ sc_ClusterName r = c /\ sc_Compliance r = st)).
    { unfold sets_of at 1. rewrite lookup_insert. case_decide as Hp; simpl.
      - subst p. rewrite Hmem. naive_solver.
      - split; [by left|]. intros [?|[? _]]; done. }
    rewrite Hx. naive_solver.
Qed.

(** ** The statements on the rows *)
Lemma field_matches_ne a b : a <> "" -> field_matches a b = bool_decide (a = b).
Proof.
  intros Ha. unfold field_matches. rewrite (proj2 (String.eqb_neq _ _) Ha). simpl.
  destruct (String.eqb_spec a b); [by rewrite bool_decide_true|by rewrite bool_decide_false].
Qed.

Lemma upsert_same p st e l cs : forall t k,
  fold_left upsert ((fun c => MkRow p c l e st) <$> cs) t !! k =
  if decide (k.1.1 = p /\ k.2 = l /\ k.1.2 ∈ cs) then Some (e, st) else t !! k.
Proof.
  induction cs as [|c cs IH]; intros t k; simpl.
  { rewrite decide_False; [done|]. intros (_ & _ & Hn). by apply not_elem_of_nil in Hn. }
  rewrite IH. unfold upsert, row_key, row_value. simpl. rewrite lookup_insert.
  destruct k as [[kp kc] kl]. simpl. repeat case_decide; simplify_eq; try done; exfalso; set_solver.
Qed.

Lemma exec_deletes p l cs : forall t,
  p <> "" -> l <> "" -> (forall c, c ∈ cs -> c <> "") ->
  exists t', exec_stmts ((fun c => DeleteWhere p c l) <$> cs) t = Ok t' /\
    forall k, t' !! k = if decide (k.1.1 = p /\ k.2 = l /\ k.1.2 ∈ cs) then None else t !! k.
Proof.
  induction cs as [|c cs IH]; intros t Hp Hl Hc.
  { exists t. split; [done|]. intros k. rewrite decide_False; [done|].
    intros (_ & _ & Hn). by apply not_elem_of_nil in Hn. }
  rewrite fmap_cons. cbn [exec_stmts exec_stmt]. unfold no_condition.
  rewrite (proj2 (String.eqb_neq _ _) Hp). cbn [andb rbind].
  match goal with |- context [exec_stmts _ ?t1] => destruct (IH t1 Hp Hl) as (t' & -> & Ht') end.
  { intros; apply Hc. by right. }
  exists t'. split; [done|]. intros [[kp kc] kl]. rewrite Ht'. simpl.
  destruct (decide (kp = p /\ kl = l /\ kc ∈ c :: cs)) as [(-> & -> & Hin)|Hn].
  - case_decide as Hd; [done|]. apply elem_of_cons in Hin as [->|Hin]; [|naive_solver].
    apply map_lookup_filter_None. right. intros v _. simpl. unfold key_matches. simpl.
    rewrite !field_matches_ne by (try done; apply Hc; by left). by rewrite !bool_decide_true.
  - rewrite decide_False by set_solver. rewrite map_lookup_filter. simpl.
    destruct (t !! (kp, kc, kl)) as [v|]; simpl; [|done]. case_guard as Hg; simpl; [done|]. exfalso. apply Hg.
    unfold key_matches. simpl. rewrite !field_matches_ne by (try done; apply Hc; by left).
    rewrite !andb_false_iff, !bool_decide_eq_false. destruct (decide (p = kp)), (decide (l = kl)), (decide (c = kc)); set_solver.
Qed.

Lemma exec_delete_policies ps : forall t,
  (forall p, p ∈ ps -> p <> "") ->
  exists t', exec_stmts ((fun p => DeleteWhere p "" "") <$> ps) t = Ok t' /\
    forall k, t' !! k = if decide (k.1.1 ∈ ps) then None else t !! k.
Proof.
  induction ps as [|p ps IH]; intros t Hp.
  { exists t. split; [done|]. intros k. rewrite decide_False; [done|]. apply not_elem_of_nil. }
  rewrite fmap_cons. cbn [exec_stmts exec_stmt]. unfold no_condition.
  rewrite (proj2 (String.eqb_neq p _)) by (apply Hp; by left). cbn [andb rbind].
  match goal with |- context [exec_stmts _ ?t1] => destruct (IH t1) as (t' & -> & Ht') end.
  { intros; apply Hp. by right. }
  exists t'. split; [done|]. intros [[kp kc] kl]. rewrite Ht'. simpl. rewrite map_lookup_filter. simpl.
  assert (Hm : key_matches p "" "" (kp, kc, kl) = bool_decide (p = kp)).
  { unfold key_matches. simpl. rewrite field_matches_ne by (apply Hp; by left). by rewrite !andb_true_r. }
  destruct (decide (p = kp)) as [->|Hne].
  - rewrite (decide_True (P := kp ∈ kp :: ps)) by (by left). destruct (decide (kp ∈ ps)); [done|].
    destruct (t !! _); simpl; [|done]. case_guard as Hg; [|done]. exfalso.
    by rewrite Hm, bool_decide_true in Hg.
  - destruct (decide (kp ∈ ps)); [by rewrite decide_True by (by right)|].
    rewrite decide_False by set_solver. destruct (t !! _); simpl; [|done]. case_guard as Hg; [done|]. exfalso. apply Hg.
    by rewrite Hm, bool_decide_false.
Qed.

(** ** The entries of a compliance bundle *)

(** The entry of a policy, and the status it gives a cluster; a cluster named
    twice gets the last one written. *)
Fixpoint entry_of (p : string) (data : list Compliance) : option Compliance :=
  match data with
  | [] => None
  | ec :: rest => if String.eqb (cp_PolicyID ec) p then Some ec else entry_of p rest
  end.
Definition event_status (ec : Compliance) (c : string) : option string :=
  if decide (c ∈ cp_PendingComplianceClusters ec) then Some DBPending
  else if decide (c ∈ cp_UnknownComplianceClusters ec) then Some DBUnknown
  else if decide (c ∈ cp_NonCompliantClusters ec) then Some DBNonCompliant
  else if decide (c ∈ cp_CompliantClusters ec) then Some DBCompliant
  else None.

Lemma entry_of_None p data : p ∉ cp_PolicyID <$> data -> entry_of p data = None.
Proof.
  induction data as [|ec data IH]; simpl; [done|]. intros [Hp Hd]%not_elem_of_cons.
  rewrite (proj2 (String.eqb_neq _ _)) by congruence. by apply IH.
Qed.

Lemma entry_of_Some p data : p ∈ cp_PolicyID <$> data -> is_Some (entry_of p data).
Proof.
  induction data as [|ec data IH]; simpl; [by intros ?%not_elem_of_nil|].
  intros [->|Hd]%elem_of_cons; [by rewrite String.eqb_refl; eauto|]. case_match; [eauto|by apply IH].
Qed.

Lemma newCompliances_spec l p st cs : forall s,
  newCompliances l p st cs s = ((fun c => MkRow p c l ErrorNone st) <$> cs, s ∖ list_to_set cs).
Proof.
  induction cs as [|c cs IH]; intros s; simpl; [f_equal; set_solver|]. rewrite IH. f_equal. set_solver.
Qed.

Lemma entry_rows_spec l ec s t k :
  fold_left upsert (entry_rows l ec s).1 t !! k =
  (if decide (k.1.1 = cp_PolicyID ec /\ k.2 = l)
   then match event_status ec k.1.2 with Some st => Some (ErrorNone, st) | None => t !! k end
   else t !! k).
Proof.
  unfold entry_rows. rewrite !newCompliances_spec. cbn [fst]. rewrite !fold_left_app, !upsert_same.
  unfold event_status. destruct (decide (k.1.1 = cp_PolicyID ec /\ k.2 = l)) as [[H1 H2]|Hn].
  - repeat case_decide; try done; naive_solver.
  - by repeat (rewrite decide_False by naive_solver).
Qed.

Lemma entry_rows_left l ec s c :
  c ∈ (entry_rows l ec s).2 <-> c ∈ s /\ event_status ec c = None.
Proof.
  unfold entry_rows. rewrite !newCompliances_spec. cbn [snd]. unfold event_status.
  rewrite !elem_of_difference, !elem_of_list_to_set. repeat case_decide; naive_solver.
Qed.

Section Facts.
Context {D : Type} `{ComplianceTableLaws D} `{OrdersLaws}.

(** What is read for a hub. *)
Lemma getComplianceClusterSets_spec d l q all :
  table_ok (rows d) -> (q = ByHub l \/ q = ByHubNot l DBCompliant) ->
  getComplianceClusterSets d q = Ret (Ok all) ->
  (forall p, is_Some (all !! p) <-> exists c v, rows d !! (p, c, l) = Some v /\ query_matches q (p, c, l) v = true) /\
  (forall p c st, c ∈ GetClusters (sets_of all p) st <->
     exists e, rows d !! (p, c, l) = Some (e, st) /\ query_matches q (p, c, l) (e, st) = true).
Proof.
  intros Hok Hq. unfold getComplianceClusterSets. destruct (db_find d q) as [found|] eqn:Ef; [|done].
  pose proof (find_rows _ _ _ Ef) as Hperm.
  assert (Hin : forall r, r ∈ found <-> exists k v, rows d !! k = Some v /\ query_matches q k v = true /\ r = row_of (k, v)).
  { intros r. rewrite Hperm. rewrite list_elem_of_fmap. setoid_rewrite list_elem_of_filter. split.
    - intros ([k v] & -> & Hm & Hk%elem_of_map_to_list). naive_solver.
    - intros (k & v & Hk & Hm & ->). exists (k, v). split; [done|]. split; [done|]. by apply elem_of_map_to_list. }
  assert (Hhub : forall k v, query_matches q k v = true -> k.2 = l).
  { intros k v. destruct Hq as [->| ->]; simpl; [|rewrite andb_true_iff; intros [Hl _]; revert Hl];
      intros Hl%String.eqb_eq; done. }
  destruct (cluster_sets_spec found ∅) as (m & Em & _ & Hdom & Hmem).
  { intros p. unfold sets_of. rewrite lookup_empty. apply NewPolicyClusterSets_ok. }
  { apply Forall_forall. intros r (k & v & Hk & _ & ->)%Hin. destruct k as [[kp kc] kl].
    by destruct (Hok _ _ _ _ Hk) as (_ & _ & _ & ?). }
  rewrite Em. simpl. intros [= <-]. split.
  - intros p. rewrite Hdom, lookup_empty. split.
    + intros [[? [=]]|(r & (k & v & Hk & Hm & ->)%Hin & <-)]. destruct k as [[kp kc] kl]. simpl.
      pose proof (Hhub _ _ Hm) as Hl. simpl in Hl. subst kl. eauto.
    + intros (c & v & Hk & Hm). right. exists (row_of ((p, c, l), v)). split; [|done]. apply Hin. eauto.
  - intros p c st. rewrite Hmem. unfold sets_of. rewrite lookup_empty. simpl. rewrite NewPolicyClusterSets_empty. split.
    + intros [?|(r & (k & v & Hk & Hm & ->)%Hin & Hp & Hc & Hs)]; [set_solver|]. destruct k as [[kp kc] kl], v as [e s].
      simpl in *. subst. pose proof (Hhub _ _ Hm) as Hl. simpl in Hl. subst kl. eauto.
    + intros (e & Hk & Hm). right. exists (row_of ((p, c, l), (e, st))). split; [|done]. apply Hin. eauto.
Qed.

(** The loop over the entries. *)
Lemma compliance_entries_spec l data : forall all d all' d',
  l <> "" -> NoDup (cp_PolicyID <$> data) -> (forall ec, ec ∈ data -> cp_PolicyID ec <> "") ->
  (forall p c, c ∈ GetAllClusters (sets_of all p) -> c <> "") ->
  compliance_entries l data all d = (None, all', d') ->
  (forall p, all' !! p = if decide (p ∈ cp_PolicyID <$> data) then None else all !! p) /\
  (forall k, rows d' !! k =
     match (if decide (k.2 = l) then entry_of k.1.1 data else None) with
     | None => rows d !! k
     | Some ec =>
         match event_status ec k.1.2 with
         | Some st => Some (ErrorNone, st)
         | None => if decide (k.1.2 ∈ GetAllClusters (sets_of all k.1.1)) then None else rows d !! k
         end
     end).
Proof.
  induction data as [|ec data IH]; intros all d all' d' Hl Hn Hp Hc; simpl.
  { intros [= <- <-]. split; [intros p; done|]. intros k. by case_decide. }
  apply NoDup_cons in Hn as [Hnin Hn].
  fold (sets_of all (cp_PolicyID ec)). set (sets := sets_of all (cp_PolicyID ec)).
  pose proof (entry_rows_spec l ec (GetAllClusters sets)) as Hrows.
  pose proof (entry_rows_left l ec (GetAllClusters sets)) as Hleft.
  destruct (entry_rows l ec (GetAllClusters sets)) as [batch left_]. cbn [fst snd] in Hrows, Hleft.
  destruct (db_upsert d batch) as [[e|] d1] eqn:Eu; [done|]. apply upsert_rows in Eu.
  destruct (db_tx d1 _) as [[e|] d2] eqn:Et; [done|]. apply tx_commit in Et.
  assert (Hleft' : forall c, c ∈ ToSlice left_ <-> c ∈ left_) by (intros; by rewrite ToSlice_perm, elem_of_elements).
  destruct (exec_deletes (cp_PolicyID ec) l (ToSlice left_) (rows d1)) as (t' & Ex & Ht'); [|done| |].
  { apply Hp. by left. }
  { intros c [Hc' _]%Hleft'%Hleft. by eapply Hc. }
  rewrite Ex in Et. injection Et as ->.
  intros E. destruct (IH (delete (cp_PolicyID ec) all) d2 all' d' Hl Hn) as [Hall Hk]; [..|exact E|].
  { intros; apply Hp. by right. }
  { intros p c. rewrite sets_of_delete. case_decide; [|apply Hc].
    rewrite elem_of_GetAllClusters. setoid_rewrite NewPolicyClusterSets_empty. set_solver. }
  split.
  - intros p. rewrite Hall, lookup_delete. repeat case_decide; set_solver.
  - intros k. rewrite Hk, sets_of_delete, Ht', Eu, Hrows. clear Hk E IH Hall.
    destruct (decide (k.2 = l)) as [Ek|Ek].
    2: { by rewrite !decide_False by naive_solver. }
    destruct (String.eqb_spec (cp_PolicyID ec) k.1.1) as [Epk|Epk].
    + rewrite entry_of_None by (by rewrite <- Epk). rewrite (decide_True (P := k.1.1 = cp_PolicyID ec /\ k.2 = l)) by done.
      unfold sets in *. rewrite Epk in *. destruct (event_status ec k.1.2) as [st|] eqn:Est.
      * rewrite decide_False; [done|]. intros (_ & _ & [_ Hx]%Hleft'%Hleft). congruence.
      * destruct (decide (k.1.2 ∈ GetAllClusters (sets_of all k.1.1))) as [Hin|Hnot].
        -- rewrite decide_True; [done|]. split; [done|]. split; [done|]. by apply Hleft', Hleft.
        -- rewrite decide_False; [done|]. intros (_ & _ & [Hx _]%Hleft'%Hleft). done.
    + rewrite (decide_False (P := cp_PolicyID ec = k.1.1)) by done.
      rewrite !(decide_False (P := k.1.1 = cp_PolicyID ec /\ _)) by naive_solver. done.
Qed.

Lemma remove_absent_spec all d d' :
  (forall p, is_Some (all !! p) -> p <> "") -> remove_absent all d = (None, d') ->
  forall k, rows d' !! k = if decide (is_Some (all !! k.1.1)) then None else rows d !! k.
Proof.
  intros Hp. unfold remove_absent. destruct (db_tx d _) as [[e|] d1] eqn:Et; [done|]. intros [= <-].
  apply tx_commit in Et.
  assert (Hin : forall p, p ∈ range_keys all <-> is_Some (all !! p)).
  { intros p. rewrite range_keys_perm, list_elem_of_fmap. split.
    - intros ([q v] & -> & Hq%elem_of_map_to_list). simpl. eauto.
    - intros [v Hv]. exists (p, v). split; [done|]. by apply elem_of_map_to_list. }
  destruct (exec_delete_policies (range_keys all) (rows d)) as (t' & Ex & Ht').
  { intros p Hp'%Hin. by apply Hp. }
  rewrite Ex in Et. injection Et as ->. intros k. rewrite Ht'.
  repeat case_decide; try done; exfalso; naive_solver.
Qed.
End Facts.

(** ** Updates by primary key *)
Definition row_nonempty (r : StatusCompliance) : Prop :=
  sc_PolicyID r <> "" /\ sc_ClusterName r <> "" /\ sc_LeafHubName r <> "" /\
  sc_Error r = ErrorNone /\ sc_Compliance r <> "".

Lemma update_row_lookup r t k : row_nonempty r ->
  update_where (sc_PolicyID r) (sc_ClusterName r) (sc_LeafHubName r) (sc_Error r) (sc_Compliance r) t !! k =
  if decide (row_key r = k) then (fun _ => (ErrorNone, sc_Compliance r)) <$> t !! k else t !! k.
Proof.
  intros (Hp & Hc & Hl & He & Hs). unfold update_where. rewrite map_lookup_imap. destruct (t !! k) as [v|]; simpl.
  2: { by case_decide. }
  destruct k as [[kp kc] kl]. unfold key_matches. simpl. rewrite !field_matches_ne by done.
  unfold row_key. case_decide as Hd.
  - injection Hd as -> -> ->. rewrite !bool_decide_true by done. simpl. unfold set_fields. rewrite He.
    by rewrite (proj2 (String.eqb_neq _ _) Hs).
  - destruct (bool_decide _) eqn:E1; [|done]. destruct (bool_decide (sc_ClusterName r = kc)) eqn:E2; [|done].
    destruct (bool_decide (sc_LeafHubName r = kl)) eqn:E3; [|done]. simpl. exfalso. apply Hd.
    apply bool_decide_eq_true in E1, E2, E3. by subst.
Qed.

Lemma exec_updates rs : forall t, Forall row_nonempty rs ->
  exists t', exec_stmts (UpdatesRow <$> rs) t = Ok t' /\
    (forall k, (forall r, r ∈ rs -> row_key r <> k) -> t' !! k = t !! k) /\
    (forall k s, (exists r, r ∈ rs /\ row_key r = k) -> (forall r, r ∈ rs -> row_key r = k -> sc_Compliance r = s) ->
       t' !! k = (fun _ => (ErrorNone, s)) <$> t !! k).
Proof.
  induction rs as [|r rs IH]; intros t Hf.
  { exists t. split; [done|]. split; [done|]. intros k s (r & Hr & _). by apply not_elem_of_nil in Hr. }
  apply Forall_cons in Hf as [Hr Hf]. rewrite fmap_cons. cbn [exec_stmts exec_stmt]. unfold no_condition.
  rewrite (proj2 (String.eqb_neq _ _) (proj1 Hr)). cbn [andb rbind].
  destruct (IH (update_where (sc_PolicyID r) (sc_ClusterName r) (sc_LeafHubName r) (sc_Error r) (sc_Compliance r) t) Hf)
    as (t' & -> & Hno & Hyes).
  exists t'. split; [done|]. split.
  - intros k Hk. rewrite Hno by (intros; apply Hk; by right). rewrite update_row_lookup by done.
    rewrite decide_False; [done|]. apply Hk. by left.
  - intros k s Hex Hall. destruct (decide (Exists (fun r' => row_key r' = k) rs)) as [He|He].
    + apply Exists_exists in He. rewrite (Hyes k s He) by (intros; apply Hall; [by right|done]).
      rewrite update_row_lookup by done. case_decide; [|done]. by destruct (t !! k).
    + rewrite Hno. 2: { intros r' Hr' Hk. apply He, Exists_exists. eauto. }
      rewrite update_row_lookup by done. rewrite decide_True.
      * rewrite (Hall r); [done|by left|]. destruct Hex as (r' & [->|Hr']%elem_of_cons & Hk); [done|].
        destruct He. apply Exists_exists. eauto.
      * destruct Hex as (r' & [->|Hr']%elem_of_cons & Hk); [done|]. destruct He. apply Exists_exists. eauto.
Qed.

(** ** The entries of a complete-compliance bundle *)
Fixpoint complete_of (p : string) (data : list CompleteCompliance) : option CompleteCompliance :=
  match data with
  | [] => None
  | ec :: rest => if String.eqb (cc_PolicyID ec) p then Some ec else complete_of p rest
  end.

Definition complete_status (ec : CompleteCompliance) (c : string) : string :=
  if decide (c ∈ cc_NonCompliantClusters ec) then DBNonCompliant
  else if decide (c ∈ cc_PendingComplianceClusters ec) then DBPending
  else if decide (c ∈ cc_UnknownComplianceClusters ec) then DBUnknown
  else DBCompliant.

(** No cluster in two states. *)
Definition states_disjoint (ec : CompleteCompliance) : Prop :=
  forall c, ~ (c ∈ cc_NonCompliantClusters ec /\ c ∈ cc_PendingComplianceClusters ec) /\
    ~ (c ∈ cc_NonCompliantClusters ec /\ c ∈ cc_UnknownComplianceClusters ec) /\
    ~ (c ∈ cc_PendingComplianceClusters ec /\ c ∈ cc_UnknownComplianceClusters ec).

Lemma complete_of_None p data : p ∉ cc_PolicyID <$> data -> complete_of p data = None.
Proof.
  induction data as [|ec data IH]; simpl; [done|]. intros [Hp Hd]%not_elem_of_cons.
  rewrite (proj2 (String.eqb_neq _ _)) by congruence. by apply IH.
Qed.

Lemma complete_of_Some p data : p ∈ cc_PolicyID <$> data -> is_Some (complete_of p data).
Proof.
  induction data as [|ec data IH]; simpl; [by intros ?%not_elem_of_nil|].
  intros [->|Hd]%elem_of_cons; [by rewrite String.eqb_refl; eauto|]. case_match; [eauto|by apply IH].
Qed.

Lemma changed_rows_spec l p st sets cs : forall left_,
  changed_rows l p st sets cs left_ =
  ((fun c => MkRow p c l ErrorNone st) <$> filter (fun c => c ∉ GetClusters sets st) cs, left_ ∖ list_to_set cs).
Proof.
  induction cs as [|c cs IH]; intros left_; simpl; [f_equal; set_solver|]. rewrite IH, filter_cons.
  case_bool_decide as Hc.
  - rewrite decide_False by auto. f_equal. set_solver.
  - rewrite decide_True by done. f_equal. set_solver.
Qed.

Section CompleteFacts.
Context {D : Type} `{ComplianceTableLaws D} `{OrdersLaws}.

(** The row written for a cluster, and when there is one. *)
Lemma complete_rows_spec l ec sets r : states_disjoint ec ->
  r ∈ complete_rows l ec sets <->
  exists c, r = MkRow (cc_PolicyID ec) c l ErrorNone (complete_status ec c) /\
    (if String.eqb (complete_status ec c) DBCompliant then c ∈ GetAllClusters sets
     else c ∉ GetClusters sets (complete_status ec c)).
Proof.
  intros Hd. unfold complete_rows. rewrite !changed_rows_spec. rewrite !elem_of_app, !list_elem_of_fmap.
  setoid_rewrite list_elem_of_filter. setoid_rewrite ToSlice_perm. setoid_rewrite elem_of_elements.
  setoid_rewrite elem_of_difference. setoid_rewrite elem_of_difference. setoid_rewrite elem_of_difference.
  setoid_rewrite elem_of_list_to_set. unfold complete_status. split.
  - intros [(c & -> & ? & Hin)|[(c & -> & ? & Hin)|[(c & -> & ? & Hin)|(c & -> & [[Hall Hn] Hp] & Hu)]]];
      exists c; destruct (Hd c) as (H1' & H2' & H3'); repeat case_decide; try (exfalso; tauto); done.
  - intros (c & -> & Hc). repeat case_decide; simpl in Hc; [left|right; left|right; right; left|right; right; right];
      exists c; tauto.
Qed.

(** The sets of the database agree with the rows, for the policies of [ps]. *)
Definition sets_agree (l : string) (all : gmap string PolicyClustersSets) (t : Table) (p : string) : Prop :=
  forall c st, c ∈ GetClusters (sets_of all p) st <-> exists e, t !! (p, c, l) = Some (e, st) /\ st <> DBCompliant.

Lemma complete_entries_spec l data : forall all d all' d',
  l <> "" -> NoDup (cc_PolicyID <$> data) -> Forall states_disjoint data ->
  table_ok (rows d) -> (forall p, p ∈ cc_PolicyID <$> data -> p <> "" /\ sets_agree l all (rows d) p) ->
  (forall ec c, ec ∈ data -> complete_status ec c <> DBCompliant -> c <> "") ->
  complete_entries l data all d = (None, all', d') ->
  (forall p, all' !! p = if decide (p ∈ cc_PolicyID <$> data) then None else all !! p) /\
  (forall k, match (if decide (k.2 = l) then complete_of k.1.1 data else None) with
     | None => rows d' !! k = rows d !! k
     | Some ec => snd <$> rows d' !! k = (fun _ => complete_status ec k.1.2) <$> rows d !! k
     end).
Proof.
  induction data as [|ec data IH]; intros all d all' d' Hl Hn Hdis Hok Hp Hcl; simpl.
  { intros [= <- <-]. split; [done|]. intros k. by case_decide. }
  apply NoDup_cons in Hn as [Hnin Hn]. apply Forall_cons in Hdis as [Hdec Hdis].
  fold (sets_of all (cc_PolicyID ec)). set (sets := sets_of all (cc_PolicyID ec)).
  destruct (Hp (cc_PolicyID ec)) as [Hpne Hagree]; [by left|]. fold sets in Hagree.
  destruct (db_tx d _) as [[e|] d1] eqn:Et; [done|]. apply tx_commit in Et.
  assert (Hst : forall c, complete_status ec c ∈ four /\ complete_status ec c <> "").
  { intros c. unfold complete_status. repeat case_decide; (split; [unfold four; set_solver|done]). }
  destruct (exec_updates (complete_rows l ec sets) (rows d)) as (t' & Ex & Hno & Hyes).
  { apply Forall_forall. intros r (c & -> & Hc)%complete_rows_spec; [|done]. split_and!; simpl; try done; [|apply Hst].
    destruct (String.eqb_spec (complete_status ec c) DBCompliant) as [Es|Es].
    - apply elem_of_GetAllClusters in Hc as (st & _ & (e & Hk & _)%Hagree). by destruct (Hok _ _ _ _ Hk) as (_ & ? & _).
    - apply (Hcl ec c); [by left|done]. }
  rewrite Ex in Et. injection Et as ->.
  assert (Hrow : forall k, k.2 <> l \/ k.1.1 <> cc_PolicyID ec -> rows d1 !! k = rows d !! k).
  { intros k Hk. apply Hno. intros r (c & -> & _)%complete_rows_spec; [|done]. unfold row_key. simpl. intros <-.
    simpl in Hk. tauto. }
  assert (Hown : forall c, snd <$> rows d1 !! (cc_PolicyID ec, c, l) = (fun _ => complete_status ec c) <$> rows d !! (cc_PolicyID ec, c, l)).
  { intros c. set (k := (cc_PolicyID ec, c, l)).
    destruct (rows d !! k) as [[e st]|] eqn:Ek.
    - assert (Hkeep : (forall r, r ∈ complete_rows l ec sets -> row_key r <> k) -> st = complete_status ec c ->
        snd <$> rows d1 !! k = Some (complete_status ec c)).
      { intros Hr Es. by rewrite Hno, Ek, Es. }
      assert (Hset : (exists r, r ∈ complete_rows l ec sets /\ row_key r = k) -> snd <$> rows d1 !! k = Some (complete_status ec c)).
      { intros Hr. rewrite (Hyes k (complete_status ec c) Hr); [by rewrite Ek|].
        intros r (c' & -> & _)%complete_rows_spec; [|done]. unfold row_key, k. simpl. by intros [= ->]. }
      assert (Hcase : (exists r, r ∈ complete_rows l ec sets /\ row_key r = k) \/
        (forall r, r ∈ complete_rows l ec sets -> row_key r <> k)).
      { destruct (decide (Exists (fun r => row_key r = k) (complete_rows l ec sets))) as [He|He].
        - left. by apply Exists_exists in He.
        - right. intros r Hr Hk. apply He, Exists_exists. eauto. }
      simpl. destruct Hcase as [Hr|Hr]; [by apply Hset|apply Hkeep; [done|]].
      assert (Hnot : ~ (if String.eqb (complete_status ec c) DBCompliant then c ∈ GetAllClusters sets
                        else c ∉ GetClusters sets (complete_status ec c))).
      { intros Hx. eapply (Hr (MkRow (cc_PolicyID ec) c l ErrorNone (complete_status ec c))); [|done].
        apply complete_rows_spec; [done|]. eauto. }
      destruct (String.eqb_spec (complete_status ec c) DBCompliant) as [Es|Es].
      + destruct (decide (st = DBCompliant)) as [->|Hne]; [done|]. exfalso. apply Hnot, elem_of_GetAllClusters.
        exists st. split; [by destruct (Hok _ _ _ _ Ek) as (_ & _ & _ & ?)|]. apply Hagree. eauto.
      + destruct (decide (c ∈ GetClusters sets (complete_status ec c))) as [(e' & Hk & _)%Hagree|]; [|done].
        unfold k in Ek. rewrite Ek in Hk. by injection Hk.
    - destruct (decide (Exists (fun r => row_key r = k) (complete_rows l ec sets))) as [He|He].
      + apply Exists_exists in He. rewrite (Hyes k (complete_status ec c) He).
        * by rewrite Ek.
        * intros r (c' & -> & _)%complete_rows_spec; [|done]. unfold row_key, k. simpl. by intros [= ->].
      + rewrite Hno, Ek; [done|]. intros r Hr Hk. apply He, Exists_exists. eauto. }
  intros E. destruct (IH (delete (cc_PolicyID ec) all) d1 all' d' Hl Hn Hdis) as [Hall Hk]; [..|exact E|].
  { intros p c l' v Hv. destruct (decide (l' = l /\ p = cc_PolicyID ec)) as [[-> ->]|Hne].
    - specialize (Hown c). rewrite Hv in Hown. destruct (rows d !! _) as [v0|] eqn:E0; [|done].
      injection Hown as Ev. destruct (Hok _ _ _ _ E0) as (? & ? & ? & _). rewrite Ev. split_and!; try done. apply Hst.
    - rewrite (Hrow (p, c, l')) in Hv by (simpl; destruct (decide (l' = l)); naive_solver). by eapply Hok. }
  { intros p Hin. destruct (Hp p) as [Hpe Hag]; [by right|]. split; [done|].
    assert (cc_PolicyID ec <> p) by (by intros <-). intros c st. rewrite sets_of_delete, decide_False by done.
    rewrite (Hag c st). by rewrite (Hrow (p, c, l)) by (right; simpl; congruence). }
  { intros ec' c Hin. apply Hcl. by right. }
  split.
  - intros p. rewrite Hall, lookup_delete. clear. repeat case_decide; set_solver.
  - intros k. specialize (Hk k). destruct (decide (k.2 = l)) as [El|El].
    2: { rewrite Hk. apply Hrow. by left. }
    destruct (String.eqb_spec (cc_PolicyID ec) k.1.1) as [Ep|Ep].
    + rewrite complete_of_None in Hk by (by rewrite <- Ep). rewrite Hk. destruct k as [[kp kc] kl]. simpl in *. subst.
      apply Hown.
    + destruct (complete_of k.1.1 data) as [ec'|]; rewrite Hk, Hrow by (right; congruence); done.
Qed.

(** The policies that are not in the bundle become compliant. *)
Lemma all_compliant_absent_spec l all d d' :
  all_compliant_absent l all d = (None, d') ->
  forall k, rows d' !! k =
    if decide (k.2 = l /\ is_Some (all !! k.1.1)) then (fun v => (v.1, DBCompliant)) <$> rows d !! k else rows d !! k.
Proof.
  unfold all_compliant_absent. destruct (db_tx d _) as [[e|] d1] eqn:Et; [done|]. intros [= <-].
  apply tx_commit in Et. intros k.
  assert (Hin : is_Some (all !! k.1.1) <-> k.1.1 ∈ range_keys all).
  { rewrite range_keys_perm, list_elem_of_fmap. split.
    - intros [v Hv]. exists (k.1.1, v). split; [done|]. by apply elem_of_map_to_list.
    - intros ([q v] & Hq & Hv%elem_of_map_to_list). simpl in Hq. rewrite Hq. eauto. }
  assert (Hgen : forall ps t t', exec_stmts ((fun p => UpdatesPolicy p l DBCompliant) <$> ps) t = Ok t' ->
    t' !! k = if decide (k.2 = l /\ k.1.1 ∈ ps) then (fun v => (v.1, DBCompliant)) <$> t !! k else t !! k).
  { clear. induction ps as [|p ps IH]; intros t t'; simpl.
    - intros [= ->]. rewrite decide_False; [done|]. intros [_ Hn]. by apply not_elem_of_nil in Hn.
    - intros ->%IH. rewrite map_lookup_imap. destruct (t !! k) as [v|]; simpl; [|by repeat case_decide].
      destruct (String.eqb_spec p k.1.1) as [Ep|Ep], (String.eqb_spec l k.2) as [El|El]; simpl;
        repeat case_decide; try done; exfalso; set_solver. }
  rewrite (Hgen _ _ _ Et). repeat case_decide; try done; exfalso; tauto.
Qed.
End CompleteFacts.

(** ** Properties of the compliance handlers

    What a handled bundle leaves in the tables, for the hub that sent it and for
    the others. *)

Section Compliance.
Context {D : Type} `{ComplianceTableLaws D} `{OrdersLaws}.

(** Both handlers of a compliance bundle, on their table. *)
Definition compliance_handled (l : string) (data : list Compliance) (d d' : D) : Prop :=
  policyCompliance_handleEvent l (Ok data) d = Ret (None, d') \/ handleCompliance l (Ok data) d = Ret (None, d').

(** The rows after a handled bundle, of the hub and of the others. *)
Lemma compliance_handled_rows l data d d' :
  table_ok (rows d) -> l <> "" -> NoDup (cp_PolicyID <$> data) -> (forall ec, ec ∈ data -> cp_PolicyID ec <> "") ->
  compliance_handled l data d d' ->
  (forall p c, rows d' !! (p, c, l) =
     match entry_of p data with
     | Some ec => pair ErrorNone <$> event_status ec c
     | None => None
     end) /\
  (forall p c l', l' <> l -> rows d' !! (p, c, l') =
     if bool_decide (p ∈ cp_PolicyID <$> data) then rows d !! (p, c, l')
     else if hub_has_policy (rows d) p l then None else rows d !! (p, c, l')).
Proof.
  intros Hok Hl Hn Hp Hh.
  assert (Hcore : exists all all' d1, getComplianceClusterSets d (ByHub l) = Ret (Ok all) /\
    compliance_entries l data all d = (None, all', d1) /\ remove_absent all' d1 = (None, d')).
  { destruct Hh as [E|E]; [unfold policyCompliance_handleEvent in E; destruct (db_find d _); [|done]|
      unfold handleCompliance in E];
      (destruct (getComplianceClusterSets d (ByHub l)) as [[all|]| | |] eqn:Eg; simpl in E; try done);
      (destruct (compliance_entries l data all d) as [[[e|] all'] d1] eqn:Ee; [done|]);
      injection E as E; by exists all, all', d1. }
  destruct Hcore as (all & all' & d1 & Eg & Ee & Er).
  destruct (getComplianceClusterSets_spec d l (ByHub l) all Hok (or_introl eq_refl) Eg) as [Hdom Hmem].
  assert (Hin : forall p c, c ∈ GetAllClusters (sets_of all p) <-> is_Some (rows d !! (p, c, l))).
  { intros p c. rewrite elem_of_GetAllClusters. setoid_rewrite Hmem. clear Ee Er. split.
    - intros (st & _ & e & Hk & _). eauto.
    - intros [[e st] Hk]. exists st. split; [by destruct (Hok _ _ _ _ Hk) as (_ & _ & _ & ?)|].
      exists e. split; [done|]. simpl. by apply String.eqb_eq. }
  assert (Hpol : forall p, is_Some (all !! p) <-> hub_has_policy (rows d) p l = true).
  { intros p. rewrite Hdom, hub_has_policy_spec. split.
    - intros (c & v & Hk & _). eauto.
    - intros (c & v & Hk). exists c, v. split; [done|]. simpl. by apply String.eqb_eq. }
  destruct (compliance_entries_spec l data all d all' d1 Hl Hn Hp) as [Hall Hk]; [|exact Ee|].
  { intros p c [v Hv]%Hin. by destruct (Hok _ _ _ _ Hv) as (_ & ? & _). }
  assert (Hrem : forall k, rows d' !! k = if decide (is_Some (all' !! k.1.1)) then None else rows d1 !! k).
  { apply remove_absent_spec; [|done]. intros p [v Hv]. rewrite Hall in Hv. case_decide; [done|].
    destruct (proj1 (Hdom p) (ex_intro _ v Hv)) as (c & v' & Hv' & _). by destruct (Hok _ _ _ _ Hv'). }
  split.
  - intros p c. rewrite Hrem, Hall, Hk. simpl. rewrite (decide_True (P := l = l)) by done.
    destruct (decide (p ∈ cp_PolicyID <$> data)) as [Hd|Hd].
    + rewrite decide_False by (by intros [? ?]). destruct (entry_of_Some p data Hd) as [ec ->].
      destruct (event_status ec c); simpl; [done|]. case_decide as Hc; [done|].
      rewrite Hin in Hc. by apply eq_None_not_Some.
    + rewrite entry_of_None by done. case_decide as Ha; [done|]. apply eq_None_not_Some. intros Hx.
      apply Ha, Hpol, hub_has_policy_spec. eauto.
  - intros p c l' Hl'. rewrite Hrem, Hall, Hk. simpl. rewrite (decide_False (P := l' = l)) by done.
    case_bool_decide as Hd.
    + rewrite (decide_True (P := p ∈ _)) by done. by rewrite decide_False by (by intros [? ?]).
    + rewrite (decide_False (P := p ∈ _)) by done. destruct (hub_has_policy (rows d) p l) eqn:Eh.
      * by rewrite decide_True by (by apply Hpol).
      * rewrite decide_False; [done|]. intros Hx%Hpol. congruence.
Qed.

(** C5: a compliance bundle, global or local, that is handled without an error
    makes the rows of its hub exactly its content: a row for every cluster it
    names, with its status and no error, and no other row of that hub. *)
Theorem compliance_bundle_is_the_hub_state l data d d' p c :
  table_ok (rows d) -> l <> "" -> NoDup (cp_PolicyID <$> data) -> (forall ec, ec ∈ data -> cp_PolicyID ec <> "") ->
  compliance_handled l data d d' ->
  rows d' !! (p, c, l) =
    match entry_of p data with
    | Some ec => pair ErrorNone <$> event_status ec c
    | None => None
    end.
Proof. intros Hok Hl Hn Hp Hh. by apply (compliance_handled_rows l data d d'). Qed.

(** A compliance bundle deletes rows of other hubs: when the hub that sends
    it had rows of a policy that its bundle does not contain any more, the rows
    of that policy of every other hub are deleted too; the other rows of the
    other hubs do not change. *)
Theorem absent_policy_is_deleted_from_every_hub l data d d' p c l' :
  table_ok (rows d) -> l <> "" -> NoDup (cp_PolicyID <$> data) -> (forall ec, ec ∈ data -> cp_PolicyID ec <> "") ->
  compliance_handled l data d d' -> l' <> l ->
  rows d' !! (p, c, l') =
    if bool_decide (p ∈ cp_PolicyID <$> data) then rows d !! (p, c, l')
    else if hub_has_policy (rows d) p l then None else rows d !! (p, c, l').
Proof. intros Hok Hl Hn Hp Hh. by apply (compliance_handled_rows l data d d'). Qed.
End Compliance.

Section Complete.
Context {D : Type} `{ComplianceTableLaws D} `{OrdersLaws}.

Definition complete_handled (l : string) (data : list CompleteCompliance) (d d' : D) : Prop :=
  policyComplete_handleEvent l (Ok data) d = Ret (None, d') \/ handleCompleteCompliance l (Ok data) d = Ret (None, d').

(** The status a bundle gives to a cluster of a policy it may not contain. *)
Definition bundle_status (data : list CompleteCompliance) (p c : string) : string :=
  match complete_of p data with Some ec => complete_status ec c | None => DBCompliant end.

(** A bundle whose policies and clusters have names, once each. *)
Definition complete_data_ok (data : list CompleteCompliance) : Prop :=
  NoDup (cc_PolicyID <$> data) /\ Forall states_disjoint data /\
  (forall ec c, ec ∈ data -> complete_status ec c <> DBCompliant -> c <> "") /\
  (forall ec, ec ∈ data -> cc_PolicyID ec <> "").

Lemma complete_handled_rows l data d d' :
  table_ok (rows d) -> l <> "" -> complete_data_ok data -> complete_handled l data d d' ->
  forall p c l', if decide (l' = l)
    then snd <$> rows d' !! (p, c, l') = (fun _ => bundle_status data p c) <$> rows d !! (p, c, l')
    else rows d' !! (p, c, l') = rows d !! (p, c, l').
Proof.
  intros Hok Hl (Hn & Hdis & Hc & Hp) Hh.
  assert (Hcore : exists all all' d1, getComplianceClusterSets d (ByHubNot l DBCompliant) = Ret (Ok all) /\
    complete_entries l data all d = (None, all', d1) /\ all_compliant_absent l all' d1 = (None, d')).
  { destruct Hh as [E|E]; [unfold policyComplete_handleEvent in E|unfold handleCompleteCompliance in E];
      (destruct (getComplianceClusterSets d (ByHubNot l DBCompliant)) as [[all|]| | |] eqn:Eg; simpl in E; try done);
      (destruct (complete_entries l data all d) as [[[e|] all'] d1] eqn:Ee; [done|]);
      injection E as E; by exists all, all', d1. }
  destruct Hcore as (all & all' & d1 & Eg & Ee & Er).
  destruct (getComplianceClusterSets_spec d l _ all Hok (or_intror eq_refl) Eg) as [Hdom Hmem].
  assert (Hne : forall st, negb (String.eqb st DBCompliant) = true <-> st <> DBCompliant).
  { intros st. rewrite negb_true_iff. apply String.eqb_neq. }
  destruct (complete_entries_spec l data all d all' d1 Hl Hn Hdis Hok) as [Hall Hk]; [|done|exact Ee|].
  { intros p (ec & -> & Hin)%list_elem_of_fmap. split; [by apply Hp|]. intros c st. rewrite Hmem. simpl.
    setoid_rewrite andb_true_iff. setoid_rewrite String.eqb_eq. setoid_rewrite Hne. naive_solver. }
  intros p c l'. rewrite (all_compliant_absent_spec l all' d1 d' Er). specialize (Hk (p, c, l')).
  rewrite Hall. simpl in *. destruct (decide (l' = l)) as [->|Hne'].
  2: { by rewrite decide_False by (by intros [? _]). }
  unfold bundle_status. destruct (complete_of p data) as [ec|] eqn:Ec.
  - assert (Hin : p ∈ cc_PolicyID <$> data).
    { destruct (decide (p ∈ cc_PolicyID <$> data)); [done|]. by rewrite complete_of_None in Ec. }
    rewrite (decide_True (P := p ∈ _)) by done. rewrite decide_False; [done|]. by intros [_ [? ?]].
  - rewrite Hk. destruct (decide (p ∈ cc_PolicyID <$> data)) as [Hin|Hnin].
    { destruct (complete_of_Some p data Hin) as [ec Hec]. congruence. }
    case_decide as Ha; [by destruct (rows d !! _) as [[]|]|].
    destruct (rows d !! (p, c, l)) as [[e st]|] eqn:Ek; [|done]. simpl. f_equal.
    destruct (decide (st = DBCompliant)) as [|Hst]; [done|]. exfalso. apply Ha. split; [done|].
    apply Hdom. exists c, (e, st). split; [done|]. simpl. by rewrite String.eqb_refl, (proj2 (Hne _) Hst).
Qed.

(** A complete-compliance bundle, global or local, that is handled without
    an error changes statuses only, and only of its hub: every row of the hub
    gets the status the bundle gives its cluster, compliant when the policy is
    not in the bundle or the cluster is not named; no row appears or
    disappears, and the rows of the other hubs do not change. *)
Theorem complete_bundle_sets_every_status l data d d' p c l' :
  table_ok (rows d) -> l <> "" -> complete_data_ok data -> complete_handled l data d d' ->
  if decide (l' = l)
  then snd <$> rows d' !! (p, c, l') = (fun _ => bundle_status data p c) <$> rows d !! (p, c, l')
  else rows d' !! (p, c, l') = rows d !! (p, c, l').
Proof. intros Hok Hl Hd Hh. by apply (complete_handled_rows l data d d'). Qed.
End Complete.
