(* ===== verification/ComplianceFlow.v ===== *)
(** * From the status of a policy to the compliance table

    The bundles the agent builds from a policy, handled by the manager: the
    status of every cluster reaches the table. Concrete instances of the
    properties of the compliance handlers are at the end. *)

From stdpp Require Import prelude gmap strings list.
From Stdlib Require Import ZArith Lia.
From S2P Require Import Prelude.
From S2P Require Import GoLib.
From S2P Require Import Version.
From S2P Require Import KubeObjects.
From S2P Require Import TimeFilter.
From S2P Require Import ConflationSafety.
From S2P Require Import Emitter.
From S2P Require Import GenericHandler.
From S2P Require Import PolicyHandlers.
From S2P Require Import ComplianceDB.
From S2P Require Import ComplianceFacts.
Local Open Scope string_scope.
Local Open Scope list_scope.

(** The column value of a state of the agent. *)
Definition db_status (y : string) : string :=
  if String.eqb y Compliant then DBCompliant
  else if String.eqb y NonCompliant then DBNonCompliant
  else if String.eqb y Pending then DBPending
  else DBUnknown.

Lemma newCompleteCompliance_spec id o s :
  newCompleteCompliance id o s =
  MkComplete_ id (namespacedName o) (in_state (is_state NonCompliant) (statuses s))
    (in_state is_unknown (statuses s)) (in_state (is_state Pending) (statuses s)).
Proof.
  unfold newCompleteCompliance.
  assert (Hf : fold_left complete_cluster_step (statuses s) ([], [], []) =
    (in_state (is_state NonCompliant) (statuses s), in_state is_unknown (statuses s), in_state (is_state Pending) (statuses s))).
  { induction (statuses s) as [|c l IH] using rev_ind; [done|].
    rewrite fold_left_app, IH, !in_state_snoc. cbn [fold_left]. unfold complete_cluster_step. by state_split c. }
  by rewrite Hf.
Qed.

Lemma elem_of_in_state p l c : NoDup (ClusterName <$> l) -> c ∈ l ->
  ClusterName c ∈ in_state p l <-> p (ComplianceState c) = true.
Proof.
  intros Hn Hc. unfold in_state. rewrite list_elem_of_fmap. setoid_rewrite list_elem_of_filter. split.
  - intros (x & Hx & Hp & Hin). by rewrite (NoDup_fmap_eq ClusterName l c x Hn Hc Hin Hx).
  - intros Hp. by exists c.
Qed.

Lemma complete_status_new id o s c : NoDup (all_names s) -> c ∈ statuses s ->
  complete_status (newCompleteCompliance id o s) (ClusterName c) = db_status (ComplianceState c).
Proof.
  intros Hn Hc. rewrite newCompleteCompliance_spec. unfold complete_status, db_status. simpl.
  pose proof (elem_of_in_state (is_state NonCompliant) _ c Hn Hc) as H1.
  pose proof (elem_of_in_state is_unknown _ c Hn Hc) as H2.
  pose proof (elem_of_in_state (is_state Pending) _ c Hn Hc) as H3.
  revert H1 H2 H3. state_split c; intros H1 H2 H3; repeat case_decide; intuition done.
Qed.

Lemma all_compliant_status id o s c : all_compliant (newCompleteCompliance id o s) = true -> c ∈ statuses s ->
  NoDup (all_names s) -> db_status (ComplianceState c) = DBCompliant.
Proof.
  intros Ha Hc Hn. rewrite <- (complete_status_new id o s c Hn Hc). unfold all_compliant in Ha.
  rewrite !andb_true_iff, !Nat.eqb_eq in Ha. destruct Ha as [[H1 H2] H3].
  apply nil_length_inv in H1, H2, H3. unfold complete_status. rewrite H1, H2, H3.
  by rewrite !decide_False by apply not_elem_of_nil.
Qed.

Lemma event_status_new id o s c : c ∈ all_names s -> is_Some (event_status (getNewCompliance id o s) c).
Proof.
  unfold getNewCompliance. pose proof (getClusterStatus_partition s) as Hp.
  destruct (getClusterStatus s) as [[[comp nonc] unk] pend]. intros Hc. rewrite <- Hp in Hc.
  rewrite !elem_of_app in Hc. unfold event_status. simpl. repeat case_decide; eauto. exfalso. tauto.
Qed.

Section Flow.
Context {D : Type} `{ComplianceTableLaws D} `{OrdersLaws}.

Definition compliance_data_ok (data : list Compliance) : Prop :=
  NoDup (cp_PolicyID <$> data) /\ (forall ec, ec ∈ data -> cp_PolicyID ec <> "") /\
  (forall ec c, ec ∈ data -> is_Some (event_status ec c) -> c <> "").

Lemma entry_of_elem p data ec : entry_of p data = Some ec -> ec ∈ data /\ cp_PolicyID ec = p.
Proof.
  induction data as [|x data IH]; simpl; [done|]. destruct (String.eqb_spec (cp_PolicyID x) p) as [Ex|Ex].
  - intros [= <-]. split; [by left|done].
  - intros [Hin Hp]%IH. split; [by right|done].
Qed.

Lemma compliance_handled_ok l data d d' :
  table_ok (rows d) -> l <> "" -> compliance_data_ok data -> compliance_handled l data d d' -> table_ok (rows d').
Proof.
  intros Hok Hl (Hn & Hp & Hc) Hh. destruct (compliance_handled_rows l data d d' Hok Hl Hn Hp Hh) as [Hown Hother].
  intros p c l' v Hv. destruct (decide (l' = l)) as [->|Hne].
  - rewrite Hown in Hv. destruct (entry_of p data) as [ec|] eqn:Ee; [|done].
    apply entry_of_elem in Ee as [Hin <-]. destruct (event_status ec c) as [st|] eqn:Es; [|done].
    injection Hv as <-. split_and!; [by apply Hp|by apply (Hc ec c); [|rewrite Es; eauto]|done|].
    unfold event_status in Es. unfold four. repeat case_decide; simplify_eq; simpl; set_solver.
  - rewrite Hother in Hv by done. repeat case_match; try done; by eapply Hok.
Qed.

(** C16: the state of every cluster of a policy reaches the table: when the
    manager handles a compliance bundle of the hub that holds the entry built
    from a status of the policy, and then a complete-compliance bundle built
    from a later status with the same clusters, in which the policy is left out
    if all its clusters are compliant, the row of each cluster has the later
    state. *)
Theorem reported_state_reaches_the_table l data1 data2 d d1 d2 id o s1 s2 c :
  table_ok (rows d) -> l <> "" -> compliance_data_ok data1 -> complete_data_ok data2 ->
  compliance_handled l data1 d d1 -> complete_handled l data2 d1 d2 ->
  entry_of id data1 = Some (getNewCompliance id o s1) ->
  complete_of id data2 = (if all_compliant (newCompleteCompliance id o s2) then None
                          else Some (newCompleteCompliance id o s2)) ->
  NoDup (all_names s2) -> all_names s1 ≡ₚ all_names s2 -> c ∈ statuses s2 ->
  snd <$> rows d2 !! (id, ClusterName c, l) = Some (db_status (ComplianceState c)).
Proof.
  intros Hok Hl Hd1 Hd2 Hh1 Hh2 He Hco Hn Hperm Hc.
  pose proof (compliance_handled_ok _ _ _ _ Hok Hl Hd1 Hh1) as Hok1.
  destruct Hd1 as (Hn1 & Hp1 & _).
  destruct (compliance_handled_rows l data1 d d1 Hok Hl Hn1 Hp1 Hh1) as [Hown _].
  pose proof (complete_handled_rows l data2 d1 d2 Hok1 Hl Hd2 Hh2 id (ClusterName c) l) as Hx.
  rewrite decide_True in Hx by done. rewrite Hx, Hown, He.
  destruct (event_status_new id o s1 (ClusterName c)) as [st ->].
  { rewrite Hperm. by apply list_elem_of_fmap_2. }
  simpl. f_equal. unfold bundle_status. rewrite Hco.
  destruct (all_compliant _) eqn:Ea; [|by apply complete_status_new].
  symmetry. by apply (all_compliant_status id o s2).
Qed.
End Flow.

(** ** Examples *)

(** Two hubs report the same global policy. *)
Definition two_hubs : Table :=
  {[("policy", "cluster1", "hub1") := ("none", "compliant"); ("policy", "cluster2", "hub2") := ("none", "non_compliant");
    ("other", "cluster1", "hub1") := ("none", "unknown")]}.

Definition table_okb (t : Table) : bool :=
  forallb (fun kv => negb (String.eqb kv.1.1.1 "") && negb (String.eqb kv.1.1.2 "") && negb (String.eqb kv.1.2 "") &&
    bool_decide (kv.2.2 ∈ four)) (map_to_list t).

Lemma table_okb_spec t : table_okb t = true -> table_ok t.
Proof.
  unfold table_okb. rewrite forallb_elem_of. intros Hall p c l v Hv.
  specialize (Hall ((p, c, l), v) (proj2 (elem_of_map_to_list _ _ _) Hv)). simpl in Hall.
  rewrite !andb_true_iff, !negb_true_iff, !String.eqb_neq, bool_decide_eq_true in Hall. tauto.
Qed.

(** The table a handler leaves, and that it returned without an error. *)
Definition table_after (r : outcome (option goerror * Table)) : Table := match r with Ret (_, t) => t | _ => ∅ end.
Definition succeeded (r : outcome (option goerror * Table)) : bool := match r with Ret (None, _) => true | _ => false end.
Lemma succeeded_Ret r : succeeded r = true -> r = Ret (None, table_after r).
Proof. by destruct r as [[[e|] t]| | |]. Qed.

Definition hub1_bundle : list Compliance := [MkCompliance "other" "" ["cluster1"] ["cluster3"] [] []].
Definition handled_table : Table :=
  table_after (policyCompliance_handleEvent "hub1" (Ok hub1_bundle) two_hubs).

Lemma two_hubs_ok : table_ok two_hubs.
Proof. apply table_okb_spec. vm_compute. reflexivity. Qed.
Lemma hub1_bundle_names : NoDup (cp_PolicyID <$> hub1_bundle) /\ forall ec, ec ∈ hub1_bundle -> cp_PolicyID ec <> "".
Proof.
  split; [apply (bool_decide_unpack _); vm_compute; exact I|]. intros ec ->%list_elem_of_singleton. discriminate.
Qed.
Lemma hub1_bundle_handled : compliance_handled "hub1" hub1_bundle two_hubs handled_table.
Proof. left. apply succeeded_Ret. vm_compute. reflexivity. Qed.

Lemma compliance_bundle_is_the_hub_state_witness :
  handled_table !! ("other", "cluster3", "hub1") = Some ("none", "non_compliant") /\
  handled_table !! ("policy", "cluster1", "hub1") = None.
Proof.
  split; (eapply eq_trans;
    [exact (compliance_bundle_is_the_hub_state (D := Table) "hub1" hub1_bundle two_hubs handled_table _ _
       two_hubs_ok ltac:(discriminate) (proj1 hub1_bundle_names) (proj2 hub1_bundle_names) hub1_bundle_handled)
    |vm_compute; reflexivity]).
Defined.

(** The row of the other hub is lost. *)
Lemma absent_policy_is_deleted_from_every_hub_witness :
  two_hubs !! ("policy", "cluster2", "hub2") = Some ("none", "non_compliant") /\
  handled_table !! ("policy", "cluster2", "hub2") = None.
Proof.
  split; [vm_compute; reflexivity|]. eapply eq_trans;
    [exact (absent_policy_is_deleted_from_every_hub (D := Table) "hub1" hub1_bundle two_hubs handled_table "policy"
       "cluster2" "hub2" two_hubs_ok ltac:(discriminate) (proj1 hub1_bundle_names) (proj2 hub1_bundle_names)
       hub1_bundle_handled ltac:(discriminate))
    |vm_compute; reflexivity].
Defined.

Definition hub1_complete : list CompleteCompliance := [MkComplete_ "policy" "" ["cluster1"] [] []].
Definition completed_table : Table :=
  table_after (policyComplete_handleEvent "hub1" (Ok hub1_complete) two_hubs).

Lemma hub1_complete_ok : complete_data_ok hub1_complete.
Proof.
  split; [apply (bool_decide_unpack _); vm_compute; exact I|]. split; [|split].
  - constructor; [|constructor]. intros c. simpl. split_and!; intros [_ Hx]; by apply not_elem_of_nil in Hx.
  - intros ec c ->%list_elem_of_singleton. unfold complete_status. simpl. repeat case_decide; try done.
    all: intros _ ->; set_solver.
  - intros ec ->%list_elem_of_singleton. discriminate.
Qed.

Lemma hub1_complete_handled : complete_handled "hub1" hub1_complete two_hubs completed_table.
Proof. left. apply succeeded_Ret. vm_compute. reflexivity. Qed.

Lemma complete_bundle_sets_every_status_witness :
  snd <$> completed_table !! ("policy", "cluster1", "hub1") = Some "non_compliant" /\
  snd <$> completed_table !! ("other", "cluster1", "hub1") = Some "compliant" /\
  completed_table !! ("policy", "cluster2", "hub2") = Some ("none", "non_compliant").
Proof.
  assert (Hx := fun p c l' => complete_bundle_sets_every_status (D := Table) "hub1" hub1_complete two_hubs completed_table
    p c l' two_hubs_ok ltac:(discriminate) hub1_complete_ok hub1_complete_handled).
  split; [|split].
  - eapply eq_trans; [exact (Hx "policy" "cluster1" "hub1")|vm_compute; reflexivity].
  - eapply eq_trans; [exact (Hx "other" "cluster1" "hub1")|vm_compute; reflexivity].
  - eapply eq_trans; [exact (Hx "policy" "cluster2" "hub2")|vm_compute; reflexivity].
Defined.

(** The policy of a hub, first with two clusters and then with a changed state. *)
Definition flow_policy : Object := sample_policy "id" "1" 1 sample_status.
Definition later_status : PolicyStatus :=
  MkPolicyStatus (Some [MkClusterStatus "cluster1" "NonCompliant"; MkClusterStatus "cluster2" "Pending"]) "" None.
Definition flow_data1 : list Compliance := [getNewCompliance "id" flow_policy sample_status].
Definition flow_data2 : list CompleteCompliance := [newCompleteCompliance "id" flow_policy later_status].
Definition flow1 : Table :=
  table_after (handleCompliance "hub1" (Ok flow_data1) two_hubs).
Definition flow2 : Table :=
  table_after (handleCompleteCompliance "hub1" (Ok flow_data2) flow1).

Lemma flow_data1_ok : compliance_data_ok flow_data1.
Proof.
  split; [apply (bool_decide_unpack _); vm_compute; exact I|].
  split; [intros ec ->%list_elem_of_singleton; discriminate|].
  intros ec c ->%list_elem_of_singleton. unfold event_status. simpl. repeat case_decide; intros [? [=]] ->; set_solver.
Qed.
Lemma flow_data2_ok : complete_data_ok flow_data2.
Proof.
  split; [apply (bool_decide_unpack _); vm_compute; exact I|]. split; [|split].
  - constructor; [|constructor]. intros c. simpl. split_and!; intros [H1 H2]; set_solver.
  - intros ec c ->%list_elem_of_singleton. unfold complete_status. simpl. repeat case_decide; try done.
    all: intros _ ->; set_solver.
  - intros ec ->%list_elem_of_singleton. discriminate.
Qed.
Lemma flow_handled : compliance_handled "hub1" flow_data1 two_hubs flow1 /\ complete_handled "hub1" flow_data2 flow1 flow2.
Proof. split; right; apply succeeded_Ret; vm_compute; reflexivity. Qed.

Lemma reported_state_reaches_the_table_witness :
  snd <$> flow2 !! ("id", "cluster1", "hub1") = Some "non_compliant" /\
  snd <$> flow2 !! ("id", "cluster2", "hub1") = Some "pending".
Proof.
  assert (Hx := fun c => reported_state_reaches_the_table (D := Table) "hub1" flow_data1 flow_data2 two_hubs flow1 flow2
    "id" flow_policy sample_status later_status c two_hubs_ok ltac:(discriminate) flow_data1_ok flow_data2_ok
    (proj1 flow_handled) (proj2 flow_handled) ltac:(reflexivity) ltac:(reflexivity)).
  split.
  - apply (Hx (MkClusterStatus "cluster1" "NonCompliant")).
    + apply (bool_decide_unpack _). vm_compute. exact I.
    + reflexivity.
    + by left.
  - apply (Hx (MkClusterStatus "cluster2" "Pending")).
    + apply (bool_decide_unpack _). vm_compute. exact I.
    + reflexivity.
    + right. by left.
Defined.
