(* ===== verification/ObjectDB.v ===== *)
(** * The object tables of the manager

    The handlers of bundles of objects: [handlers/generic/generic_handler.go] over
    [database/dao/generic_dao.go] (tables with id, hub and payload), the managed
    clusters ([managedcluster_handler.go], one row per cluster) and the specs of
    local policies ([local_policy_spec_handler.go], one row per policy). All
    compare the objects of the bundle with the ids and versions of the database,
    write what is new or changed and delete what the bundle does not contain. *)

From stdpp Require Import prelude gmap strings list.
From Stdlib Require Import ZArith Lia.
From S2P Require Import Prelude.
From S2P Require Import GoLib.
From S2P Require Import KubeObjects.
From S2P Require Import ComplianceDB.
Local Open Scope string_scope.
Local Open Scope list_scope.

(** A selected column: its name in the result and, unless it is the id, the path
    of a text in the payload ([payload->...->>...]). *)
Inductive column := ColId (name : string) | ColJson (path : list string) (name : string).

(** A row of a result, by column name; a NULL is absent. *)
Notation result_row := (gmap string string).

(** The JSON of an object, and the texts in it. *)
Class Json (P : Type) := {
  marshal_object : Object -> result P;
  json_text : P -> list string -> option string;
}.
Class JsonLaws (P : Type) `{Json P} : Prop := {
  json_uid o p : marshal_object o = Ok p -> json_text p ["metadata"; "uid"] = Some (UID o);
  json_version o p : marshal_object o = Ok p -> json_text p ["metadata"; "resourceVersion"] = Some (ResourceVersion o);
}.

(** Statements; those of GORM carry conditions by example. *)
Inductive ostmt (P : Type) :=
| OInsert (hub id : string) (p : P)
| OUpdate (hub id : string) (p : P)
| ODelete (hub id : string)
| ODeleteExample (hub id : string).
Arguments OInsert {P}. Arguments OUpdate {P}. Arguments ODelete {P}. Arguments ODeleteExample {P}.

Class ObjectTable (D P : Type) := {
  ot_select : D -> string -> list column -> result (list result_row);   (** the rows of a hub *)
  ot_upsert : D -> list (string * string * P) -> option goerror * D;    (** hub, id, payload *)
  ot_tx : D -> list (result (ostmt P)) -> option goerror * D;           (** an error stops and rolls back *)
}.

(** Scanning a result into [models.ResourceVersion]: a column that is not there
    leaves the empty string. *)
Definition scan_version (r : result_row) : string * string :=
  (default "" (r !! "key"), default "" (r !! "resource_version")).
Definition to_version_map (l : list result_row) : gmap string string :=
  fold_left (fun m r => <[(scan_version r).1 := (scan_version r).2]> m) l ∅.

Section Handlers.
Context {D P : Type} `{ObjectTable D P} `{Json P} `{Orders}.

(** ** The generic handler *)

(** The quote that closes the JSON key is after [AS resource_version]: the key is
    [resourceVersion AS resource_version] and the column has no name of its own. *)
Definition GetIdToVersionByHub (d : D) (hubName : string) : result (gmap string string) :=
  let? found := ot_select d hubName
    [ColId "key"; ColJson ["metadata"; "resourceVersion AS resource_version"] "?column?"] in
  Ok (to_version_map found).

Definition dao_Insert (hubName id : string) (obj : Object) : result (ostmt P) :=
  let? payload := marshal_object obj in Ok (OInsert hubName id payload).
Definition dao_Update (hubName id : string) (obj : Object) : result (ostmt P) :=
  let? payload := marshal_object obj in Ok (OUpdate hubName id payload).
Definition dao_Delete (hubName id : string) : result (ostmt P) := Ok (ODelete hubName id).

Definition getGenericObjectUID (o : Object) : string :=
  match Annotations o !! OriginOwnerReferenceAnnotation with Some id => id | None => UID o end.

(** The steps of the loop and what is left of the map of the database. *)
Fixpoint generic_steps (hub : string) (data : list Object) (m : gmap string string)
    : list (result (ostmt P)) * gmap string string :=
  match data with
  | [] => ([], m)
  | o :: rest =>
      let uid := getGenericObjectUID o in
      match m !! uid with
      | None => let '(l, m') := generic_steps hub rest m in (dao_Insert hub uid o :: l, m')
      | Some resourceVersionFromDB =>
          let '(l, m') := generic_steps hub rest (delete uid m) in
          if String.eqb (ResourceVersion o) resourceVersionFromDB then (l, m')
          else (dao_Update hub uid o :: l, m')
      end
  end.

Definition generic_handleEvent (leafHubName : string) (decoded : result (list Object)) (d : D) : option goerror * D :=
  match decoded with
  | Err e => (Some ("failed to parse the event data: " +:+ e), d)
  | Ok data =>
      match GetIdToVersionByHub d leafHubName with
      | Err e => (Some ("failed fetching leaf hub IDs from db - " +:+ e), d)
      | Ok m =>
          let '(l, m') := generic_steps leafHubName data m in
          ot_tx d (l ++ (dao_Delete leafHubName <$> range_keys m'))
      end
  end.

(** ** The managed clusters *)
Definition getClusterIdToVersionMap (d : D) (leafHubName : string) : result (gmap string string) :=
  let? found := ot_select d leafHubName
    [ColId "key"; ColJson ["metadata"; "resourceVersion"] "resource_version"] in
  Ok (to_version_map found).

(** The id of a cluster: its claim, or empty. *)
Definition cluster_id (o : Object) : string :=
  claim_id "" (match obj_body o with BCluster claims => claims | _ => [] end).

(** The rows to write and what is left of the map; objects without an id are
    skipped. *)
Fixpoint object_batch (id : Object -> string) (hub : string) (data : list Object) (m : gmap string string)
    : result (list (string * string * P) * gmap string string) :=
  match data with
  | [] => Ok ([], m)
  | o :: rest =>
      let clusterId := id o in
      if String.eqb clusterId "" then object_batch id hub rest m
      else
        let? payload := marshal_object o in
        match m !! clusterId with
        | None =>
            let? (l, m') := object_batch id hub rest m in Ok ((hub, clusterId, payload) :: l, m')
        | Some clusterVersionFromDB =>
            let? (l, m') := object_batch id hub rest (delete clusterId m) in
            Ok (if String.eqb (ResourceVersion o) clusterVersionFromDB then (l, m')
                else ((hub, clusterId, payload) :: l, m'))
        end
  end.
Definition cluster_batch := object_batch cluster_id.

Definition managedCluster_handleEvent (leafHubName : string) (decoded : result (list Object)) (d : D)
    : option goerror * D :=
  match decoded with
  | Err e => (Some e, d)
  | Ok data =>
      match getClusterIdToVersionMap d leafHubName with
      | Err e => (Some ("failed fetching leaf hub managed clusters from db - " +:+ e), d)
      | Ok m =>
          match cluster_batch leafHubName data m with
          | Err e => (Some e, d)
          | Ok (batch, m') =>
              match ot_upsert d batch with
              | (Some e, d1) => (Some e, d1)
              | (None, d1) =>
                  match ot_tx d1 ((fun id => Ok (ODeleteExample leafHubName id)) <$> range_keys m') with
                  | (Some e, d2) => (Some ("failed deleting managed clusters - " +:+ e), d2)
                  | (None, d2) => (None, d2)
                  end
              end
          end
      end
  end.

(** ** The specs of local policies *)
Definition getPolicyIdToVersionMap (d : D) (leafHubName : string) : result (gmap string string) :=
  let? found := ot_select d leafHubName
    [ColJson ["metadata"; "uid"] "key"; ColJson ["metadata"; "resourceVersion"] "resource_version"] in
  Ok (to_version_map found).

Fixpoint policy_batch (hub : string) (data : list Object) (m : gmap string string)
    : result (list (string * string * P) * gmap string string) :=
  match data with
  | [] => Ok ([], m)
  | o :: rest =>
      let uid := UID o in
      let? payload := marshal_object o in
      match m !! uid with
      | None => let? (l, m') := policy_batch hub rest m in Ok ((hub, uid, payload) :: l, m')
      | Some resourceVersionFromDB =>
          let? (l, m') := policy_batch hub rest (delete uid m) in
          Ok (if String.eqb (ResourceVersion o) resourceVersionFromDB then (l, m') else ((hub, uid, payload) :: l, m'))
      end
  end.

(** The deletion is by policy id only; the data is decoded after the read. *)
Definition localPolicySpec_handleEvent (leafHubName : string) (decoded : result (list Object)) (d : D)
    : option goerror * D :=
  match getPolicyIdToVersionMap d leafHubName with
  | Err e => (Some e, d)
  | Ok m =>
      match decoded with
      | Err e => (Some e, d)
      | Ok data =>
          match policy_batch leafHubName data m with
          | Err e => (Some e, d)
          | Ok (batch, m') =>
              match ot_upsert d batch with
              | (Some e, d1) => (Some e, d1)
              | (None, d1) =>
                  match ot_tx d1 ((fun uid => Ok (ODeleteExample "" uid)) <$> range_keys m') with
                  | (Some e, d2) => (Some ("failed deleting records from local_spec.policies - " +:+ e), d2)
                  | (None, d2) => (None, d2)
                  end
              end
          end
      end
  end.
End Handlers.

(** ** The meaning of the operations

    Tables with one row per id ([managed_clusters], [local_spec.policies]): an
    upsert also moves the row to the hub; soft-deleted rows are not rows. *)
Definition column_value {P} `{Json P} (id : string) (p : P) (c : column) : string * option string :=
  match c with ColId name => (name, Some id) | ColJson path name => (name, json_text p path) end.
Definition select_row {P} `{Json P} (cols : list column) (id : string) (p : P) : result_row :=
  fold_left (fun r c => match column_value id p c with (n, Some v) => <[n := v]> r | (n, None) => r end) cols ∅.

Section IdTable.
Context {P : Type} `{Json P}.
Notation IdTable := (gmap string (string * P)).    (** id to hub and payload *)

Definition id_exec (s : ostmt P) (t : IdTable) : result IdTable :=
  match s with
  | OInsert hub id p => match t !! id with Some _ => Err "duplicate key" | None => Ok (<[id := (hub, p)]> t) end
  | OUpdate hub id p =>
      Ok (match t !! id with Some (h, _) => if String.eqb h hub then <[id := (h, p)]> t else t | None => t end)
  | ODelete hub id =>
      Ok (match t !! id with Some (h, _) => if String.eqb h hub then delete id t else t | None => t end)
  | ODeleteExample hub id =>
      if String.eqb hub "" && String.eqb id "" then Err "WHERE conditions required"
      else Ok (filter (fun kv => field_matches hub kv.2.1 && field_matches id kv.1 = false) t)
  end.

Fixpoint id_execs (l : list (result (ostmt P))) (t : IdTable) : result IdTable :=
  match l with
  | [] => Ok t
  | s :: rest => let? st := s in let? t' := id_exec st t in id_execs rest t'
  end.

Definition id_upsert (t : IdTable) (r : string * string * P) : IdTable := <[r.1.2 := (r.1.1, r.2)]> t.
End IdTable.

(** Tables with one row per hub and id. *)
Section PairTable.
Context {P : Type} `{Json P}.
Notation PairTable := (gmap (string * string) P).

Definition pair_exec (s : ostmt P) (t : PairTable) : result PairTable :=
  match s with
  | OInsert hub id p =>
      match t !! (hub, id) with Some _ => Err "duplicate key" | None => Ok (<[(hub, id) := p]> t) end
  | OUpdate hub id p => Ok (match t !! (hub, id) with Some _ => <[(hub, id) := p]> t | None => t end)
  | ODelete hub id => Ok (delete (hub, id) t)
  | ODeleteExample hub id =>
      if String.eqb hub "" && String.eqb id "" then Err "WHERE conditions required"
      else Ok (filter (fun kv => field_matches hub kv.1.1 && field_matches id kv.1.2 = false) t)
  end.

Fixpoint pair_execs (l : list (result (ostmt P))) (t : PairTable) : result PairTable :=
  match l with
  | [] => Ok t
  | s :: rest => let? st := s in let? t' := pair_exec st t in pair_execs rest t'
  end.
End PairTable.

Class IdTableLaws (D P : Type) `{ObjectTable D P} `{Json P} := {
  id_rows : D -> gmap string (string * P);
  id_select d hub cols l : ot_select d hub cols = Ok l ->
    l ≡ₚ (fun kv => select_row cols kv.1 kv.2.2) <$>
      filter (fun kv : string * (string * P) => kv.2.1 = hub) (map_to_list (id_rows d));
  id_upsert_rows d l d' : ot_upsert d l = (None, d') -> id_rows d' = fold_left id_upsert l (id_rows d);
  id_tx_commit d l d' : ot_tx d l = (None, d') -> id_execs l (id_rows d) = Ok (id_rows d');
}.

Class PairTableLaws (D P : Type) `{ObjectTable D P} `{Json P} := {
  pair_rows : D -> gmap (string * string) P;
  pair_select d hub cols l : ot_select d hub cols = Ok l ->
    l ≡ₚ (fun kv => select_row cols kv.1.2 kv.2) <$>
      filter (fun kv : string * string * P => kv.1.1 = hub) (map_to_list (pair_rows d));
  pair_tx_commit d l d' : ot_tx d l = (None, d') -> pair_execs l (pair_rows d) = Ok (pair_rows d');
}.
