(* ===== verification/ObjectFacts.v ===== *)
(** * The object tables: what a bundle does to the rows

    The rows of a hub after a bundle of objects, for the three kinds of tables. *)

From stdpp Require Import prelude gmap strings list.
From Stdlib Require Import ZArith Lia.
From S2P Require Import Prelude.
From S2P Require Import GoLib.
From S2P Require Import KubeObjects.
From S2P Require Import GenericHandler.
From S2P Require Import ComplianceDB.
From S2P Require Import ObjectDB.

Local Open Scope string_scope.
Local Open Scope list_scope.

(** The object of the bundle with an id. *)
Fixpoint object_by (key : Object -> string) (id : string) (data : list Object) : option Object :=
  match data with
  | [] => None
  | o :: rest => if String.eqb (key o) id then Some o else object_by key id rest
  end.

Lemma object_by_None key id data : id ∉ key <$> data -> object_by key id data = None.
Proof.
  induction data as [|o data IH]; simpl; [done|]. intros [Hp Hd]%not_elem_of_cons.
  rewrite (proj2 (String.eqb_neq _ _)) by congruence. by apply IH.
Qed.

Lemma object_by_Some key id data o : object_by key id data = Some o -> o ∈ data /\ key o = id.
Proof.
  induction data as [|x data IH]; simpl; [done|]. destruct (String.eqb_spec (key x) id) as [Ex|Ex].
  - intros [= <-]. split; [by left|done].
  - intros [Hin Hp]%IH. split; [by right|done].
Qed.

Lemma object_by_elem key data o : o ∈ data -> is_Some (object_by key (key o) data).
Proof.
  induction data as [|x data IH]; simpl; [by intros ?%not_elem_of_nil|].
  intros [->|Hd]%elem_of_cons; [by rewrite String.eqb_refl; eauto|]. case_match; [eauto|by apply IH].
Qed.

(** The ids and versions of the selected rows. *)
Lemma to_version_map_spec (l : list result_row) : forall m : gmap string string,
  NoDup (fst ∘ scan_version <$> l) ->
  forall id, fold_left (fun m r => <[(scan_version r).1 := (scan_version r).2]> m) l m !! id =
    match find (fun r => String.eqb (scan_version r).1 id) l with
    | Some r => Some (scan_version r).2
    | None => m !! id
    end.
Proof.
  induction l as [|r l IH]; intros m Hn id; [done|]. rewrite fmap_cons in Hn. apply NoDup_cons in Hn as [Hr Hn].
  cbn [fold_left find]. rewrite IH by done.
  destruct (find _ l) as [r'|] eqn:Ef.
  - apply find_some in Ef as [Hin Heq]. apply String.eqb_eq in Heq.
    destruct (String.eqb_spec (scan_version r).1 id) as [Ei|Ei]; [|done]. exfalso. apply Hr.
    apply list_elem_of_fmap. exists r'. split; [|by apply list_elem_of_In]. change ((scan_version r).1 = (scan_version r').1). congruence.
  - rewrite lookup_insert. destruct (String.eqb_spec (scan_version r).1 id) as [Ei|Ei]; case_decide; done.
Qed.

Lemma to_version_map_fun (l : list result_row) (f : string -> option string) :
  NoDup (fst ∘ scan_version <$> l) ->
  (forall i v, f i = Some v <-> exists r, r ∈ l /\ scan_version r = (i, v)) ->
  forall id, to_version_map l !! id = f id.
Proof.
  intros Hn Hf id. unfold to_version_map. rewrite to_version_map_spec by done.
  destruct (find _ l) as [r|] eqn:Ef.
  - apply find_some in Ef as [Hin Heq]. apply list_elem_of_In in Hin. apply String.eqb_eq in Heq.
    symmetry. apply Hf. exists r. split; [done|]. rewrite <- Heq. by destruct (scan_version r).
  - rewrite lookup_empty. destruct (f id) as [v|] eqn:Efi; [|done]. exfalso.
    apply Hf in Efi as (r & Hin & Hr). apply list_elem_of_In in Hin. eapply find_none in Ef; [|exact Hin].
    rewrite Hr in Ef. simpl in Ef. by rewrite String.eqb_refl in Ef.
Qed.

(** The rows of a hub, selected. *)
Lemma to_version_map_rows {K V} `{Countable K} (t : gmap K V) (l : list result_row) (row : K * V -> result_row)
    (Q : K * V -> Prop) `{!forall kv, Decision (Q kv)} (ver : K * V -> string * string) (f : string -> option string) :
  l ≡ₚ row <$> filter Q (map_to_list t) ->
  (forall k v, t !! k = Some v -> Q (k, v) -> scan_version (row (k, v)) = ver (k, v)) ->
  (forall k v k' v', t !! k = Some v -> t !! k' = Some v' -> Q (k, v) -> Q (k', v') ->
     (ver (k, v)).1 = (ver (k', v')).1 -> k = k') ->
  (forall i w, f i = Some w <-> exists k v, t !! k = Some v /\ Q (k, v) /\ ver (k, v) = (i, w)) ->
  forall id, to_version_map l !! id = f id.
Proof.
  intros Hl Hver Hinj Hf. apply to_version_map_fun.
  - rewrite Hl, <- list_fmap_compose. apply NoDup_fmap_2_strong; [|apply NoDup_filter, NoDup_map_to_list].
    intros [k v] [k' v'] [HQ Hin]%list_elem_of_filter [HQ' Hin']%list_elem_of_filter Heq.
    apply elem_of_map_to_list in Hin, Hin'. unfold compose in Heq. rewrite !Hver in Heq by done.
    assert (k = k') by (by eapply Hinj). congruence.
  - intros i w. rewrite Hf. split.
    + intros (k & v & Hk & HQ & Hv). exists (row (k, v)). split; [|by rewrite Hver].
      rewrite Hl. apply list_elem_of_fmap_2, list_elem_of_filter. split; [done|]. by apply elem_of_map_to_list.
    + intros (r & Hr & Hv). rewrite Hl in Hr. apply list_elem_of_fmap in Hr as ([k v] & -> & [HQ Hin]%list_elem_of_filter).
      apply elem_of_map_to_list in Hin. exists k, v. rewrite Hver in Hv by done. done.
Qed.

Lemma field_matches_ne_ a b : a <> "" -> field_matches a b = bool_decide (a = b).
Proof.
  intros Ha. unfold field_matches. rewrite (proj2 (String.eqb_neq _ _) Ha). simpl.
  destruct (String.eqb_spec a b); [by rewrite bool_decide_true|by rewrite bool_decide_false].
Qed.

Section Facts.
Context {D P : Type} `{ObjectTable D P} `{Json P} `{OrdersLaws}.

Lemma elem_of_range_keys {A} (m : gmap string A) id : id ∈ range_keys m <-> is_Some (m !! id).
Proof.
  rewrite range_keys_perm, list_elem_of_fmap. split.
  - intros ([q v] & -> & Hq%elem_of_map_to_list). simpl. eauto.
  - intros [v Hv]. exists (id, v). split; [done|]. by apply elem_of_map_to_list.
Qed.

(** *** One row per hub and id *)
Lemma GetIdToVersionByHub_spec `{!PairTableLaws D P} d hub m :
  GetIdToVersionByHub d hub = Ok m ->
  forall id, m !! id = (fun _ => "") <$> pair_rows d !! (hub, id).
Proof.
  unfold GetIdToVersionByHub. destruct (ot_select d hub _) as [l|] eqn:Es; [|done]. simpl. intros [= <-].
  eapply (to_version_map_rows (pair_rows d) l _ _ (fun kv => (kv.1.2, ""))); [by apply pair_select| | |].
  - intros [h i] p _ _. unfold scan_version, select_row, column_value. cbn [fold_left fst snd].
    destruct (json_text p _); [rewrite !(lookup_insert_ne _ "?column?") by done|]; by rewrite lookup_insert_eq.
  - intros [h i] p [h' i'] p' _ _ Hh Hh' Hi. simpl in *. congruence.
  - intros i w. split.
    + destruct (pair_rows d !! (hub, i)) as [p|] eqn:Hp; [|done]. intros [= <-]. by exists (hub, i), p.
    + intros ([h i'] & p & Hp & Hh & [= -> <-]). simpl in Hh. subst h. by rewrite Hp.
Qed.

(** What the loop of the generic handler writes. *)
Lemma generic_steps_spec hub data : forall (m : gmap string string) (t : gmap (string * string) P) l m' rest t',
  NoDup (getGenericObjectUID <$> data) ->
  (forall o, o ∈ data -> ResourceVersion o <> "") ->
  (forall id v, m !! id = Some v -> v = "" /\ is_Some (t !! (hub, id))) ->
  (forall o, o ∈ data -> is_Some (t !! (hub, getGenericObjectUID o)) -> is_Some (m !! getGenericObjectUID o)) ->
  generic_steps hub data m = (l, m') -> pair_execs (l ++ rest) t = Ok t' ->
  (forall id, m' !! id = if decide (id ∈ getGenericObjectUID <$> data) then None else m !! id) /\
  exists t1, pair_execs rest t1 = Ok t' /\
    forall h id, match (if decide (h = hub) then object_by getGenericObjectUID id data else None) with
      | Some o => exists p, marshal_object o = Ok p /\ t1 !! (h, id) = Some p
      | None => t1 !! (h, id) = t !! (h, id)
      end.
Proof.
  induction data as [|o data IH]; intros m t l m' rest t' Hn Hrv Hm Hd; cbn [generic_steps].
  { intros [= <- <-] E. split; [done|]. exists t. split; [done|]. intros h id. by case_decide. }
  apply NoDup_cons in Hn as [Hnin Hn]. set (uid := getGenericObjectUID o) in *.
  intros Es Ex.
  assert (Hstep : exists p l0, marshal_object o = Ok p /\ generic_steps hub data (delete uid m) = (l0, m') /\
     pair_execs (l0 ++ rest) (<[(hub, uid) := p]> t) = Ok t').
  { destruct (m !! uid) as [v|] eqn:Em.
    - destruct (Hm _ _ Em) as [-> [p0 Hp0]]. destruct (generic_steps hub data (delete uid m)) as [l0 m0] eqn:El.
      rewrite (proj2 (String.eqb_neq _ _)) in Es by (apply Hrv; by left). injection Es as <- <-.
      unfold dao_Update in Ex. destruct (marshal_object o) as [p|]; [|done]. cbn in Ex. rewrite Hp0 in Ex.
      by exists p, l0.
    - rewrite delete_id by done. destruct (generic_steps hub data m) as [l0 m0] eqn:El. injection Es as <- <-.
      unfold dao_Insert in Ex. destruct (marshal_object o) as [p|]; [|done]. cbn in Ex.
      destruct (t !! (hub, uid)); [done|]. by exists p, l0. }
  clear Es Ex. destruct Hstep as (p & l0 & Hp & Es & Ex).
  assert (Hneq : forall o', o' ∈ data -> getGenericObjectUID o' <> uid).
  { intros o' Ho' Heq. apply Hnin. rewrite <- Heq. by apply list_elem_of_fmap_2. }
  destruct (IH (delete uid m) (<[(hub, uid) := p]> t) l0 m' rest t' Hn) as [Hm' (t1 & Ex1 & Ht1)]; [..|done|done|].
  { intros; apply Hrv; by right. }
  { intros id v [Hne Hv]%lookup_delete_Some. destruct (Hm _ _ Hv) as [? Hs]. split; [done|].
    by rewrite lookup_insert_ne by congruence. }
  { intros o' Ho'. specialize (Hneq _ Ho'). rewrite lookup_insert_ne, lookup_delete_ne by congruence.
    apply Hd. by right. }
  split.
  - intros id. rewrite Hm', lookup_delete. repeat case_decide; set_solver.
  - exists t1. split; [done|]. intros h id. specialize (Ht1 h id). case_decide as Hh; [subst h|].
    + cbn [object_by]. fold uid. destruct (String.eqb_spec uid id) as [<-|Hne].
      * rewrite object_by_None in Ht1 by done. rewrite Ht1, lookup_insert_eq. eauto.
      * destruct (object_by _ id data); [done|]. by rewrite Ht1, lookup_insert_ne by congruence.
    + by rewrite Ht1, lookup_insert_ne by congruence.
Qed.

Lemma pair_deletes hub ids : forall (t t' : gmap (string * string) P),
  pair_execs (dao_Delete hub <$> ids) t = Ok t' ->
  forall h id, t' !! (h, id) = if decide (h = hub /\ id ∈ ids) then None else t !! (h, id).
Proof.
  induction ids as [|i ids IH]; intros t t'; simpl.
  - intros [= ->] h id. rewrite decide_False; [done|]. intros [_ Hn]. by apply not_elem_of_nil in Hn.
  - intros E h id. rewrite (IH _ _ E), lookup_delete. repeat case_decide; simplify_eq; try done; exfalso; set_solver.
Qed.

(** *** One row per id *)

(** The hub of the row and its version. *)
Definition hub_version (t : gmap string (string * P)) (hub id : string) : option string :=
  match t !! id with
  | Some (h, p) => if String.eqb h hub then Some (default "" (json_text p ["metadata"; "resourceVersion"])) else None
  | None => None
  end.

Lemma hub_version_Some t hub id v : hub_version t hub id = Some v <->
  exists p, t !! id = Some (hub, p) /\ v = default "" (json_text p ["metadata"; "resourceVersion"]).
Proof.
  unfold hub_version. destruct (t !! id) as [[h p]|]; [|naive_solver].
  destruct (String.eqb_spec h hub) as [->|Hne]; naive_solver.
Qed.

Lemma getClusterIdToVersionMap_spec `{!IdTableLaws D P} d hub m :
  getClusterIdToVersionMap d hub = Ok m -> forall id, m !! id = hub_version (id_rows d) hub id.
Proof.
  unfold getClusterIdToVersionMap. destruct (ot_select d hub _) as [l|] eqn:Es; [|done]. simpl. intros [= <-].
  eapply (to_version_map_rows (id_rows d) l _ _
    (fun kv => (kv.1, default "" (json_text kv.2.2 ["metadata"; "resourceVersion"])))); [by apply id_select| | |].
  - intros i [h p] _ _. unfold scan_version, select_row, column_value. cbn [fold_left fst snd].
    destruct (json_text p _); simpl; [rewrite (lookup_insert_ne _ "resource_version" "key") by done|];
      by rewrite !lookup_insert_eq.
  - done.
  - intros i w. rewrite hub_version_Some. split.
    + intros (p & Hp & ->). by exists i, (hub, p).
    + intros (k & [h p] & Hp & Hh & [= <- <-]). simpl in Hh. subst h. eauto.
Qed.

(** The payload of a row names its id. *)
Definition payload_ids (t : gmap string (string * P)) : Prop :=
  forall id h p, t !! id = Some (h, p) -> json_text p ["metadata"; "uid"] = Some id.

Lemma getPolicyIdToVersionMap_spec `{!IdTableLaws D P} d hub m :
  payload_ids (id_rows d) ->
  getPolicyIdToVersionMap d hub = Ok m -> forall id, m !! id = hub_version (id_rows d) hub id.
Proof.
  intros Hids. unfold getPolicyIdToVersionMap. destruct (ot_select d hub _) as [l|] eqn:Es; [|done]. simpl. intros [= <-].
  eapply (to_version_map_rows (id_rows d) l _ _
    (fun kv => (kv.1, default "" (json_text kv.2.2 ["metadata"; "resourceVersion"])))); [by apply id_select| | |].
  - intros i [h p] Hp _. unfold scan_version, select_row, column_value. cbn [fold_left fst snd].
    rewrite (Hids _ _ _ Hp).
    destruct (json_text p _); simpl; [rewrite (lookup_insert_ne _ "resource_version" "key") by done|];
      by rewrite !lookup_insert_eq.
  - done.
  - intros i w. rewrite hub_version_Some. split.
    + intros (p & Hp & ->). by exists i, (hub, p).
    + intros (k & [h p] & Hp & Hh & [= <- <-]). simpl in Hh. subst h. eauto.
Qed.

(** Objects with an id. *)
Definition ids_of (key : Object -> string) (data : list Object) : list string :=
  filter (fun id => id <> "") (key <$> data).

Lemma object_batch_spec key hub data : forall m l m' (t : gmap string (string * P)),
  NoDup (ids_of key data) -> object_batch key hub data m = Ok (l, m') ->
  (forall id, m' !! id = if decide (id ∈ ids_of key data) then None else m !! id) /\
  forall id, id <> "" -> match object_by key id data with
    | Some o => exists p, marshal_object o = Ok p /\
        fold_left id_upsert l t !! id = if decide (m !! id = Some (ResourceVersion o)) then t !! id else Some (hub, p)
    | None => fold_left id_upsert l t !! id = t !! id
    end.
Proof.
  induction data as [|o data IH]; intros m l m' t Hn; cbn [object_batch].
  { intros [= <- <-]. done. }
  unfold ids_of in *. rewrite fmap_cons, filter_cons in *.
  destruct (String.eqb_spec (key o) "") as [Ek|Ek].
  { rewrite decide_False in * by auto. intros E. destruct (IH _ _ _ t Hn E) as [Hm Ht]. split; [done|].
    intros id Hid. cbn [object_by]. rewrite (proj2 (String.eqb_neq _ _)) by congruence. by apply Ht. }
  rewrite decide_True in * by auto. apply NoDup_cons in Hn as [Hnin Hn].
  destruct (marshal_object o) as [p|] eqn:Ep; [|done]. cbn [rbind]. intros E.
  assert (Hstep : exists l0, object_batch key hub data (delete (key o) m) = Ok (l0, m') /\
    (l = if decide (m !! key o = Some (ResourceVersion o)) then l0 else (hub, key o, p) :: l0)).
  { destruct (m !! key o) as [v|] eqn:Em.
    - destruct (object_batch key hub data (delete (key o) m)) as [[l0 m0]|] eqn:Eb; [|done]. cbn in E.
      destruct (String.eqb_spec (ResourceVersion o) v) as [Ev|Ev]; injection E as <- <-; exists l0; (split; [done|]).
      + by rewrite decide_True by congruence.
      + by rewrite decide_False by congruence.
    - rewrite delete_id by done. destruct (object_batch key hub data m) as [[l0 m0]|] eqn:Eb; [|done]. cbn in E.
      injection E as <- <-. exists l0. split; [done|]. by rewrite decide_False by congruence. }
  destruct Hstep as (l0 & Eb & El).
  assert (Hnone : object_by key (key o) data = None).
  { apply object_by_None. intros Hin. apply Hnin, list_elem_of_filter. done. }
  split.
  - intros id. destruct (IH _ _ _ t Hn Eb) as [Hm _]. rewrite Hm, lookup_delete. clear -Ek.
    repeat case_decide; set_solver.
  - intros id Hid. cbn [object_by]. destruct (String.eqb_spec (key o) id) as [<-|Hne].
    + exists p. split; [done|]. rewrite El. case_decide as Hv.
      * destruct (IH _ _ _ t Hn Eb) as [_ Ht]. specialize (Ht _ Hid). by rewrite Hnone in Ht.
      * cbn [fold_left]. destruct (IH _ _ _ (id_upsert t (hub, key o, p)) Hn Eb) as [_ Ht]. specialize (Ht _ Hid).
        rewrite Hnone in Ht. rewrite Ht. unfold id_upsert. cbn. by rewrite lookup_insert_eq.
    + assert (Hother : forall t0, t0 !! id = t !! id -> match object_by key id data with
          | Some o => exists p, marshal_object o = Ok p /\
              fold_left id_upsert l0 t0 !! id = if decide (m !! id = Some (ResourceVersion o)) then t !! id else Some (hub, p)
          | None => fold_left id_upsert l0 t0 !! id = t !! id end).
      { intros t0 Ht0. destruct (IH _ _ _ t0 Hn Eb) as [_ Ht]. specialize (Ht _ Hid).
        rewrite lookup_delete_ne in Ht by done. by rewrite Ht0 in Ht. }
      rewrite El. case_decide; [by apply Hother|]. cbn [fold_left]. apply Hother. unfold id_upsert. cbn.
      by rewrite lookup_insert_ne.
Qed.

Lemma id_deletes hub ids : forall (t t' : gmap string (string * P)),
  (forall id, id ∈ ids -> id <> "") ->
  id_execs ((fun id => Ok (ODeleteExample hub id)) <$> ids) t = Ok t' ->
  forall id, t' !! id = match t !! id with
    | Some (h, p) => if decide ((hub = "" \/ h = hub) /\ id ∈ ids) then None else Some (h, p)
    | None => None
    end.
Proof.
  induction ids as [|i ids IH]; intros t t' Hne; cbn [fmap list_fmap id_execs].
  - intros [= ->] id. destruct (t' !! id) as [[h p]|]; [|done]. rewrite decide_False; [done|].
    intros [_ Hn]. by apply not_elem_of_nil in Hn.
  - cbn [rbind id_exec]. assert (Hi : i <> "") by (apply Hne; by left).
    rewrite (proj2 (String.eqb_neq i "") Hi), andb_false_r. cbn [rbind]. intros E id.
    rewrite (IH _ _ (fun id Hid => Hne id (list_elem_of_further _ _ _ Hid)) E), map_lookup_filter.
    destruct (t !! id) as [[h p]|]; cbn; [|done]. rewrite (field_matches_ne_ i) by done.
    case_guard as Hg; cbn; [|].
    + assert (Hno : ~ ((hub = "" \/ h = hub) /\ i = id)).
      { intros [Hh ->]. rewrite bool_decide_true, andb_true_r in Hg by done. unfold field_matches in Hg.
        apply orb_false_iff in Hg as [H1' H2']. apply String.eqb_neq in H1', H2'. naive_solver. }
      repeat case_decide; try done; exfalso; set_solver.
    + apply not_false_iff_true, andb_true_iff in Hg as [Hf Hb]. apply bool_decide_eq_true in Hb as ->.
      rewrite decide_True; [done|]. split; [|by left]. unfold field_matches in Hf.
      apply orb_true_iff in Hf as [Hf|Hf]; apply String.eqb_eq in Hf; auto.
Qed.
End Facts.

(** ** Properties of the object handlers

    A bundle of objects that is handled makes the rows of its hub its content;
    the version column of the generic tables is never read. *)

Section Props.
Context {D P : Type} `{ObjectTable D P} `{Json P} `{OrdersLaws}.

(** The versions that the generic handler reads from the database are all
    empty, whatever the payloads hold: the JSON key and the name of the column
    of its query are not those of the version. *)
Theorem generic_versions_are_empty `{!PairTableLaws D P} d hub m :
  GetIdToVersionByHub d hub = Ok m -> forall id, m !! id = (fun _ => "") <$> pair_rows d !! (hub, id).
Proof. apply GetIdToVersionByHub_spec. Qed.

(** A bundle handled by the generic handler without an error, whose objects
    have distinct ids and a version, makes the rows of its hub exactly its
    objects, each with its current payload, and leaves the rows of the other
    hubs as they are. *)
Theorem generic_bundle_is_the_hub_state `{!PairTableLaws D P} hub data d d' :
  NoDup (getGenericObjectUID <$> data) -> (forall o, o ∈ data -> ResourceVersion o <> "") ->
  generic_handleEvent hub (Ok data) d = (None, d') ->
  forall h id, match (if decide (h = hub) then object_by getGenericObjectUID id data else None) with
    | Some o => exists p, marshal_object o = Ok p /\ pair_rows d' !! (h, id) = Some p
    | None => pair_rows d' !! (h, id) = if decide (h = hub) then None else pair_rows d !! (h, id)
    end.
Proof.
  intros Hn Hrv. unfold generic_handleEvent. destruct (GetIdToVersionByHub d hub) as [m|] eqn:Em; [|done].
  destruct (generic_steps hub data m) as [l m'] eqn:Es. intros Et%pair_tx_commit.
  pose proof (GetIdToVersionByHub_spec _ _ _ Em) as Hm.
  destruct (generic_steps_spec hub data m (pair_rows d) l m'
    (dao_Delete hub <$> range_keys m') (pair_rows d') Hn Hrv) as [Hm' (t1 & Ex & Ht1)]; [..|done|exact Et|].
  { intros id v Hv. rewrite Hm in Hv. destruct (pair_rows d !! (hub, id)); [|done]. injection Hv as <-. eauto. }
  { intros o _ [p Hp]. rewrite Hm, Hp. simpl. eauto. }
  intros h id. rewrite (pair_deletes _ _ _ _ Ex). specialize (Ht1 h id).
  assert (Hkey : id ∈ range_keys m' <-> id ∉ getGenericObjectUID <$> data /\ is_Some (pair_rows d !! (hub, id))).
  { rewrite elem_of_range_keys, Hm'. destruct (decide (id ∈ getGenericObjectUID <$> data)) as [Hin|Hin].
    - split; [intros Hx; by apply is_Some_None in Hx|intros [Hx _]; by destruct Hx].
    - rewrite Hm, fmap_is_Some. tauto. }
  revert Ht1. destruct (decide (h = hub)) as [->|Hh].
  - destruct (object_by getGenericObjectUID id data) as [o|] eqn:Eo; intros Ht1.
    + rewrite decide_False; [done|]. intros [_ [Hx _]%Hkey]. apply object_by_Some in Eo as [Hin <-].
      by apply Hx, list_elem_of_fmap_2.
    + destruct (decide (hub = hub /\ id ∈ range_keys m')) as [|Hk]; [done|]. rewrite Ht1.
      apply eq_None_not_Some. intros Hs. apply Hk. split; [done|]. apply Hkey. split; [|done].
      intros (o & -> & Hin)%list_elem_of_fmap. destruct (object_by_elem getGenericObjectUID data o Hin) as [o' Eo']. congruence.
  - intros Ht1. rewrite decide_False by (by intros [? _]). done.
Qed.

(** The batch handlers, on tables with a row per id. *)
Lemma batch_handled `{!IdTableLaws D P} key hub del data d d' m l m' d1 :
  hub <> "" -> (del = hub \/ (del = "" /\ forall id h p, id_rows d !! id = Some (h, p) -> m !! id <> None -> h = hub)) ->
  (forall id, id_rows d !! id <> None -> id <> "") ->
  NoDup (ids_of key data) -> (forall id, m !! id = hub_version (id_rows d) hub id) ->
  object_batch key hub data m = Ok (l, m') -> ot_upsert d l = (None, d1) ->
  ot_tx d1 ((fun id => Ok (ODeleteExample del id)) <$> range_keys m') = (None, d') ->
  forall id, id <> "" -> match object_by key id data with
    | Some o => exists p, marshal_object o = Ok p /\
        id_rows d' !! id = if decide (hub_version (id_rows d) hub id = Some (ResourceVersion o))
                           then id_rows d !! id else Some (hub, p)
    | None => id_rows d' !! id = match id_rows d !! id with
        | Some (h, p) => if decide (h = hub) then None else Some (h, p)
        | None => None
        end
    end.
Proof.
  intros Hhub Hdel Hids Hn Hm Hb Hu Ht id Hid.
  destruct (object_batch_spec key hub data m l m' (id_rows d) Hn Hb) as [Hm' Hl]. specialize (Hl id Hid).
  apply id_upsert_rows in Hu. apply id_tx_commit in Ht.
  assert (Hver : forall i, is_Some (m !! i) -> exists p, id_rows d !! i = Some (hub, p)).
  { intros i [v Hv]. rewrite Hm in Hv. apply hub_version_Some in Hv as (p & Hp & _). eauto. }
  assert (Hrange : id ∈ range_keys m' <-> id ∉ ids_of key data /\ is_Some (m !! id)).
  { rewrite elem_of_range_keys, Hm'. destruct (decide (id ∈ ids_of key data)) as [Hin|Hin]; [|tauto].
    split; [intros Hx; by apply is_Some_None in Hx|intros [Hx _]; by destruct Hx]. }
  pose proof (id_deletes del (range_keys m') (id_rows d1) (id_rows d')) as Hd. rewrite Hd; [|..|done]; clear Hd.
  2: { intros i Hi%elem_of_range_keys. rewrite Hm' in Hi.
       destruct (decide (i ∈ ids_of key data)); [by apply is_Some_None in Hi|]. apply Hver in Hi as [p Hp]. apply Hids. by rewrite Hp. }
  rewrite Hu.
  destruct (object_by key id data) as [o|] eqn:Eo.
  - destruct Hl as (p & Hp & Hl). exists p. split; [done|]. rewrite Hl, Hm.
    assert (Hnot : id ∉ range_keys m').
    { intros [Hx _]%Hrange. apply Hx. apply object_by_Some in Eo as [Hin <-].
      apply list_elem_of_filter. split; [done|]. by apply list_elem_of_fmap_2. }
    destruct (decide (hub_version (id_rows d) hub id = Some (ResourceVersion o))) as [Hv|Hv].
    + destruct (id_rows d !! id) as [[h q]|]; [|done]. rewrite decide_False; [done|]. by intros [_ ?].
    + rewrite decide_False; [done|]. by intros [_ ?].
  - rewrite Hl. destruct (id_rows d !! id) as [[h p]|] eqn:Ed; [|done].
    assert (Hnin : id ∉ ids_of key data).
    { intros (Hne & Hin)%list_elem_of_filter. apply list_elem_of_fmap in Hin as (o & -> & Hin).
      destruct (object_by_elem key data o Hin) as [o' Eo']. congruence. }
    assert (Hsome : is_Some (m !! id) <-> h = hub).
    { split.
      - intros (p' & Hp')%Hver. congruence.
      - intros ->. rewrite Hm. unfold hub_version. rewrite Ed, String.eqb_refl. eauto. }
    destruct (decide (h = hub)) as [->|Hh].
    + rewrite decide_True; [done|]. split; [|by apply Hrange; split; [|apply Hsome]].
      destruct Hdel as [->|[-> _]]; auto.
    + rewrite decide_False; [done|]. intros [_ [_ Hx]%Hrange]. by apply Hh, Hsome.
Qed.

(** After a bundle of managed clusters, every cluster of the bundle that has
    an id has its row under the hub of the bundle, with the payload of the bundle
    unless the row of the hub already has that version (a row of another hub is
    taken over); the other rows of the hub are gone, and the other rows of
    the other hubs do not change. *)
Theorem managed_clusters_follow_the_bundle `{!IdTableLaws D P} hub data d d' :
  hub <> "" -> (forall id, id_rows d !! id <> None -> id <> "") -> NoDup (ids_of cluster_id data) ->
  managedCluster_handleEvent hub (Ok data) d = (None, d') ->
  forall id, id <> "" -> match object_by cluster_id id data with
    | Some o => exists p, marshal_object o = Ok p /\
        id_rows d' !! id = if decide (hub_version (id_rows d) hub id = Some (ResourceVersion o))
                           then id_rows d !! id else Some (hub, p)
    | None => id_rows d' !! id = match id_rows d !! id with
        | Some (h, p) => if decide (h = hub) then None else Some (h, p)
        | None => None
        end
    end.
Proof.
  intros Hhub Hids Hn. unfold managedCluster_handleEvent.
  destruct (getClusterIdToVersionMap d hub) as [m|] eqn:Em; [|done].
  destruct (cluster_batch hub data m) as [[l m']|] eqn:Eb; [|done].
  destruct (ot_upsert d l) as [[e|] d1] eqn:Eu; [done|].
  destruct (ot_tx d1 _) as [[e|] d2] eqn:Et; [done|]. intros [= <-].
  eapply (batch_handled cluster_id hub hub data d d2 m l m' d1); eauto.
  by apply getClusterIdToVersionMap_spec.
Qed.

Lemma policy_batch_eq hub data : forall m,
  (forall o, o ∈ data -> UID o <> "") -> policy_batch hub data m = object_batch UID hub data m.
Proof.
  induction data as [|o data IH]; intros m Hu; simpl; [done|].
  rewrite (proj2 (String.eqb_neq _ _)) by (apply Hu; by left).
  assert (Hr : forall o, o ∈ data -> UID o <> "") by (intros; apply Hu; by right).
  by rewrite !IH.
Qed.

(** After a bundle of local policies, the rows of its hub are its policies
    (unchanged where the version is the same), although the deletion is by
    policy id only: the other rows of the hub are gone and those of the other
    hubs do not change, when the payload of every row names its id. *)
Theorem local_policies_follow_the_bundle `{!IdTableLaws D P} hub data d d' :
  hub <> "" -> (forall id, id_rows d !! id <> None -> id <> "") -> payload_ids (id_rows d) ->
  NoDup (UID <$> data) -> (forall o, o ∈ data -> UID o <> "") ->
  localPolicySpec_handleEvent hub (Ok data) d = (None, d') ->
  forall id, id <> "" -> match object_by UID id data with
    | Some o => exists p, marshal_object o = Ok p /\
        id_rows d' !! id = if decide (hub_version (id_rows d) hub id = Some (ResourceVersion o))
                           then id_rows d !! id else Some (hub, p)
    | None => id_rows d' !! id = match id_rows d !! id with
        | Some (h, p) => if decide (h = hub) then None else Some (h, p)
        | None => None
        end
    end.
Proof.
  intros Hhub Hids Hpay Hn Hu. unfold localPolicySpec_handleEvent.
  destruct (getPolicyIdToVersionMap d hub) as [m|] eqn:Em; [|done]. rewrite policy_batch_eq by done.
  destruct (object_batch UID hub data m) as [[l m']|] eqn:Eb; [|done].
  destruct (ot_upsert d l) as [[e|] d1] eqn:Eu; [done|].
  destruct (ot_tx d1 _) as [[e|] d2] eqn:Et; [done|]. intros [= <-].
  pose proof (getPolicyIdToVersionMap_spec _ _ _ Hpay Em) as Hm.
  eapply (batch_handled UID hub "" data d d2 m l m' d1); eauto.
  - right. split; [done|]. intros id h p Hp Hx. rewrite Hm in Hx. unfold hub_version in Hx. rewrite Hp in Hx.
    destruct (String.eqb_spec h hub); done.
  - unfold ids_of. by apply NoDup_filter.
Qed.
End Props.

(** ** Concrete tables *)
#[local] Instance object_json : Json Object := {|
  marshal_object o := Ok o;
  json_text o path :=
    if bool_decide (path = ["metadata"; "uid"]) then Some (UID o)
    else if bool_decide (path = ["metadata"; "resourceVersion"]) then Some (ResourceVersion o)
    else None;
|}.
#[local] Instance object_json_laws : JsonLaws Object.
Proof. by split; intros o p [= <-]. Qed.

Notation IdT := (gmap string (string * Object)).
Notation PairT := (gmap (string * string) Object).
#[local] Instance id_db : ObjectTable IdT Object := {|
  ot_select t hub cols :=
    Ok ((fun kv => select_row cols kv.1 kv.2.2) <$> filter (fun kv : string * (string * Object) => kv.2.1 = hub) (map_to_list t));
  ot_upsert t l := (None, fold_left id_upsert l t);
  ot_tx t l := match id_execs l t with Ok t' => (None, t') | Err e => (Some e, t) end;
|}.
#[local] Program Instance id_laws : IdTableLaws IdT Object := {| id_rows t := t |}.
Next Obligation. by intros d hub cols l [= <-]. Qed.
Next Obligation. by intros d l d' [= <-]. Qed.
Next Obligation. intros d l d'. simpl. destruct (id_execs l d); [|done]. by intros [= <-]. Qed.
#[local] Instance pair_db : ObjectTable PairT Object := {|
  ot_select t hub cols :=
    Ok ((fun kv => select_row cols kv.1.2 kv.2) <$> filter (fun kv : string * string * Object => kv.1.1 = hub) (map_to_list t));
  ot_upsert t l := (None, fold_left (fun t r => <[r.1 := r.2]> t) l t);
  ot_tx t l := match pair_execs l t with Ok t' => (None, t') | Err e => (Some e, t) end;
|}.
#[local] Program Instance pair_laws : PairTableLaws PairT Object := {| pair_rows t := t |}.
Next Obligation. by intros d hub cols l [= <-]. Qed.
Next Obligation. intros d l d'. simpl. destruct (pair_execs l d); [|done]. by intros [= <-]. Qed.

Definition plain_object (uid rv : string) (b : body) : Object :=
  MkObject uid "default" uid 1 rv 0 None ∅ ∅ [] [] [] "" b.
Definition old_pairs : PairT :=
  {[("hub1", "a") := plain_object "a" "1" BOther; ("hub1", "b") := plain_object "b" "1" BOther;
    ("hub2", "b") := plain_object "b" "7" BOther]}.
Definition pair_bundle : list Object := [plain_object "a" "2" BOther; plain_object "c" "1" BOther].
Definition new_pairs : PairT := (generic_handleEvent "hub1" (Ok pair_bundle) old_pairs).2.

Lemma generic_versions_are_empty_witness :
  exists m, GetIdToVersionByHub old_pairs "hub1" = Ok m /\ m !! "a" = Some "".
Proof.
  eexists. split; [reflexivity|]. eapply eq_trans; [exact (generic_versions_are_empty (D := PairT) old_pairs "hub1" _ eq_refl "a")|].
  vm_compute. reflexivity.
Defined.

(** The row that is not in the bundle is deleted. *)
Lemma generic_bundle_is_the_hub_state_witness : new_pairs !! ("hub1", "b") = None /\ new_pairs !! ("hub2", "b") = old_pairs !! ("hub2", "b").
Proof.
  assert (Hx := generic_bundle_is_the_hub_state (D := PairT) "hub1" pair_bundle old_pairs new_pairs
    ltac:(apply (bool_decide_unpack _); vm_compute; exact I)
    ltac:(intros o Ho; repeat (apply elem_of_cons in Ho as [->|Ho]; [discriminate|]); by apply not_elem_of_nil in Ho)
    ltac:(vm_compute; reflexivity)).
  split; [exact (Hx "hub1" "b")|exact (Hx "hub2" "b")].
Defined.

(** The cluster [c2] is taken over from another hub, [c3] is gone. *)
Definition cluster (id rv : string) : Object := plain_object ("uid-" +:+ id) rv (BCluster [("name", "x"); ("id.k8s.io", id)]).
Definition old_clusters : IdT :=
  {["c1" := ("hub1", cluster "c1" "1"); "c2" := ("hub2", cluster "c2" "1"); "c3" := ("hub1", cluster "c3" "1")]}.
Definition cluster_bundle : list Object := [cluster "c1" "1"; cluster "c2" "5"].
Definition new_clusters : IdT := (managedCluster_handleEvent "hub1" (Ok cluster_bundle) old_clusters).2.

Definition ids_nonempty (t : IdT) : bool := forallb (fun kv => negb (String.eqb kv.1 "")) (map_to_list t).
Lemma ids_nonempty_spec (t : IdT) : ids_nonempty t = true -> forall id, t !! id <> None -> id <> "".
Proof.
  unfold ids_nonempty. rewrite forallb_elem_of. intros Hall id Hid. destruct (t !! id) as [v|] eqn:E; [|done].
  specialize (Hall (id, v) (proj2 (elem_of_map_to_list _ _ _) E)). simpl in Hall.
  by apply negb_true_iff, String.eqb_neq in Hall.
Qed.

Lemma managed_clusters_follow_the_bundle_witness :
  (exists p, Ok (cluster "c2" "5") = Ok p /\ new_clusters !! "c2" = Some ("hub1", p)) /\ new_clusters !! "c3" = None.
Proof.
  assert (Hx := managed_clusters_follow_the_bundle (D := IdT) "hub1" cluster_bundle old_clusters new_clusters
    ltac:(discriminate) (ids_nonempty_spec old_clusters ltac:(vm_compute; reflexivity))
    ltac:(apply (bool_decide_unpack _); vm_compute; exact I) ltac:(vm_compute; reflexivity)).
  split; [exact (Hx "c2" ltac:(discriminate))|exact (Hx "c3" ltac:(discriminate))].
Defined.

Definition old_policies : IdT := {["a" := ("hub1", plain_object "a" "1" BOther); "b" := ("hub2", plain_object "b" "1" BOther)]}.
Definition new_policies : IdT := (localPolicySpec_handleEvent "hub1" (Ok [plain_object "c" "3" BOther]) old_policies).2.
Definition ids_named (t : IdT) : bool := forallb (fun kv => String.eqb (UID kv.2.2) kv.1) (map_to_list t).
Lemma ids_named_spec (t : IdT) : ids_named t = true -> payload_ids t.
Proof.
  unfold ids_named. rewrite forallb_elem_of. intros Hall id h p Hp.
  specialize (Hall (id, (h, p)) (proj2 (elem_of_map_to_list _ _ _) Hp)). simpl in Hall.
  apply String.eqb_eq in Hall. simpl. by rewrite Hall.
Qed.

Lemma local_policies_follow_the_bundle_witness :
  new_policies !! "a" = None /\ new_policies !! "b" = old_policies !! "b".
Proof.
  assert (Hx := local_policies_follow_the_bundle (D := IdT) "hub1" [plain_object "c" "3" BOther] old_policies new_policies
    ltac:(discriminate) (ids_nonempty_spec old_policies ltac:(vm_compute; reflexivity))
    (ids_named_spec old_policies ltac:(vm_compute; reflexivity)) ltac:(apply NoDup_singleton)
    ltac:(intros o ->%list_elem_of_singleton; discriminate) ltac:(vm_compute; reflexivity)).
  split; [exact (Hx "a" ltac:(discriminate))|exact (Hx "b" ltac:(discriminate))].
Defined.
