(* ===== verification/HubManagement.v ===== *)
(** * The life cycle of the managed hubs

    [manager/pkg/processes/hubmanagement]: the probe that makes a hub inactive
    when its heartbeat is too old and active again when it is recent
    ([hub_management.go]), the controller of the deleted add-ons
    ([hub_addon_controller.go]), and the handler of the heartbeats
    ([handlers/managedhub/hub_cluster_heartbeat_handler.go]). The database is a
    class; its laws give the effect of a successful statement on the rows. *)

From stdpp Require Import prelude gmap strings list.
From Stdlib Require Import ZArith Lia.
From S2P Require Import Prelude.
From S2P Require Import GoLib.
From S2P Require Import EventTypes.
From S2P Require Import CloudEvents.
From S2P Require Import Libraries.
From S2P Require Import SpecTransport.
Local Open Scope string_scope.
Local Open Scope list_scope.

(** Times and durations are in nanoseconds. *)
Definition HubActive : string := "active".
Definition HubInactive : string := "inactive".
Definition ActiveTimeout : Z := 5 * 60 * 1000000000.

Record LeafHubHeartbeat := MkHeartbeat {
  hb_Name : string;
  hb_Status : string;
  hb_LastUpdateAt : Z;
}.

(** ** The database *)

(** The models whose rows carry the name of their hub. *)
Inductive hub_model := MManagedCluster | MLeafHub | MLocalSpecPolicy | MLocalStatusCompliance.
#[export] Instance hub_model_eq_dec : EqDecision hub_model.
Proof. solve_decision. Defined.

(** The conditions [last_timestamp < ? AND status = ?] and
    [last_timestamp > ? AND status = ?]. *)
Inductive beat_query := Older (t : Z) (status : string) | Newer_ (t : Z) (status : string).

Inductive hub_stmt :=
| DeleteOfHub (m : hub_model) (hub : string)      (** conditions by example: the hub *)
| UpdateStatus (hub status : string).             (** [leaf_hub_name = ?] *)

Class HubTables (D : Type) := {
  beats_find : D -> beat_query -> result (list LeafHubHeartbeat);
  hub_tx : D -> list hub_stmt -> option goerror * D;              (** in one transaction *)
  beat_create : D -> LeafHubHeartbeat -> option goerror * D;      (** [OnConflict], [UpdateAll] *)
}.

(** [json.Marshal] of a list of strings. *)
Class StringsCodec := { marshal_strings : list string -> result bytes }.

Section Hubs.
Context {D P Event : Type} `{HubTables D} `{EventSDK Event} `{Producer P Event} `{Poller} `{StringsCodec}.

(** ** [hub_management.go] *)
Definition resyncResources : list string :=
  [HubClusterInfoType; ManagedClusterType; LocalPolicySpecType; LocalComplianceType].

Definition resync (hubName : string) (pr : P) : option goerror * P :=
  match marshal_strings resyncResources with
  | Err e => (Some e, pr)
  | Ok payloadBytes =>
      SendEvent pr "" (utils_ToCloudEvent (Event := Event) ResyncMsgKey CloudEventSourceGlobalHub hubName payloadBytes)
  end.

Definition cleanup (hubName : string) (d : D) : option goerror * D :=
  hub_tx d [DeleteOfHub MManagedCluster hubName; DeleteOfHub MLeafHub hubName;
            DeleteOfHub MLocalSpecPolicy hubName; DeleteOfHub MLocalStatusCompliance hubName;
            UpdateStatus hubName HubInactive].

Definition cleanup_attempt (hubName : string) (d : D) : bool * option goerror * D :=
  match cleanup hubName d with
  | (Some _, d') => (false, None, d')
  | (None, d') => (true, None, d')
  end.

Fixpoint inactive (hubs : list LeafHubHeartbeat) (d : D) : option goerror * D :=
  match hubs with
  | [] => (None, d)
  | hub :: rest =>
      match poll (cleanup_attempt (hb_Name hub)) d with
      | (Some e, d') => (Some e, d')
      | (None, d') => inactive rest d'
      end
  end.

Definition reactive_attempt (hubName : string) (s : P * D) : bool * option goerror * (P * D) :=
  let '(pr, d) := s in
  match resync hubName pr with
  | (Some _, pr') => (false, None, (pr', d))
  | (None, pr') =>
      match hub_tx d [UpdateStatus hubName HubActive] with
      | (Some _, d') => (false, None, (pr', d'))
      | (None, d') => (true, None, (pr', d'))
      end
  end.

Fixpoint reactive (hubs : list LeafHubHeartbeat) (s : P * D) : option goerror * (P * D) :=
  match hubs with
  | [] => (None, s)
  | hub :: rest =>
      match poll (reactive_attempt (hb_Name hub)) s with
      | (Some e, s') => (Some e, s')
      | (None, s') => reactive rest s'
      end
  end.

Definition update (activeTimeout now : Z) (pr : P) (d : D) : option goerror * (P * D) :=
  let thresholdTime := (now - activeTimeout)%Z in
  match beats_find d (Older thresholdTime HubActive) with
  | Err e => (Some e, (pr, d))
  | Ok expiredHubs =>
      match inactive expiredHubs d with
      | (Some e, d1) => (Some ("failed to inactive hubs " +:+ e), (pr, d1))
      | (None, d1) =>
          match beats_find d1 (Newer_ thresholdTime HubInactive) with
          | Err e => (Some e, (pr, d1))
          | Ok reactiveHubs =>
              match reactive reactiveHubs (pr, d1) with
              | (Some e, s) => (Some ("failed to reactive hubs " +:+ e), s)
              | (None, s) => (None, s)
              end
          end
      end
  end.

(** [Start]: what precedes the ticker. *)
Definition Start (pr : P) : option goerror * P := resync Broadcast pr.

(** ** [hub_addon_controller.go] *)

(** What the client returns for the add-on, with its deletion timestamp. *)
Inductive addon_result := AddonFound (deleting : bool) | AddonNotFound | AddonError (e : goerror).

(** Whether to requeue after five seconds, and the error. *)
Definition addon_Reconcile (started : bool) (namespace : string) (addon : addon_result) (d : D)
    : (bool * option goerror) * D :=
  if negb started then ((true, None), d)
  else
    let hubs := [MkHeartbeat namespace "" 0] in
    match addon with
    | AddonNotFound =>
        if String.eqb namespace "" then ((false, None), d)
        else let '(err, d') := inactive hubs d in ((false, err), d')
    | AddonError e => ((true, Some ("failed to get addon: " +:+ e)), d)
    | AddonFound deleting =>
        if deleting then let '(err, d') := inactive hubs d in ((false, err), d')
        else ((false, None), d)
    end.

(** ** [hub_cluster_heartbeat_handler.go] *)
Definition handleHeartbeatEvent (source : string) (now : Z) (d : D) : option goerror * D :=
  match beat_create d (MkHeartbeat source "" now) with
  | (Some e, d') => (Some ("failed to update heartbeat " +:+ e), d')
  | (None, d') => (None, d')
  end.
End Hubs.

(** ** The meaning of the statements *)
#[export] Instance hub_model_countable : Countable hub_model.
Proof.
  refine (inj_countable'
    (fun m => match m with MManagedCluster => 0 | MLeafHub => 1 | MLocalSpecPolicy => 2
              | MLocalStatusCompliance => 3 end)
    (fun n => match n with 0 => MManagedCluster | 1 => MLeafHub | 2 => MLocalSpecPolicy
              | _ => MLocalStatusCompliance end) _).
  by intros [].
Defined.

(** The heartbeats (hub to status and time), and the rows of the models that are
    not deleted (model and key to hub). *)
Record HubDB := MkHubDB {
  hd_beats : gmap string (string * Z);
  hd_rows : gmap (hub_model * string) string;
}.

Definition beat_matches (q : beat_query) (kv : string * (string * Z)) : bool :=
  match q with
  | Older t s => (kv.2.2 <? t)%Z && String.eqb kv.2.1 s
  | Newer_ t s => (t <? kv.2.2)%Z && String.eqb kv.2.1 s
  end.
Definition beat_of (kv : string * (string * Z)) : LeafHubHeartbeat := MkHeartbeat kv.1 kv.2.1 kv.2.2.

(** A deletion without a condition is refused. *)
Definition exec_hub_stmt (s : hub_stmt) (t : HubDB) : result HubDB :=
  match s with
  | DeleteOfHub m hub =>
      if String.eqb hub "" then Err "WHERE conditions required"
      else Ok (MkHubDB (hd_beats t) (filter (fun kv => ~ (kv.1.1 = m /\ kv.2 = hub)) (hd_rows t)))
  | UpdateStatus hub status => Ok (MkHubDB (alter (fun v => (status, v.2)) hub (hd_beats t)) (hd_rows t))
  end.

Fixpoint exec_hub_stmts (l : list hub_stmt) (t : HubDB) : result HubDB :=
  match l with
  | [] => Ok t
  | s :: rest => let? t' := exec_hub_stmt s t in exec_hub_stmts rest t'
  end.

(** [UpdateAll] leaves a column with a default expression as it is, and an
    insertion without its value takes the default of the table. *)
Definition created_beat (b : LeafHubHeartbeat) (t : HubDB) : HubDB :=
  let status := match hd_beats t !! hb_Name b with
                | Some (s, _) => s
                | None => if String.eqb (hb_Status b) "" then HubActive else hb_Status b
                end in
  MkHubDB (<[hb_Name b := (status, hb_LastUpdateAt b)]> (hd_beats t)) (hd_rows t).

Class HubTablesLaws (D : Type) `{HubTables D} := {
  hdb : D -> HubDB;
  beats_find_rows d q l : beats_find d q = Ok l ->
    l ≡ₚ beat_of <$> filter (fun kv => beat_matches q kv = true) (map_to_list (hd_beats (hdb d)));
  hub_commit d l d' : hub_tx d l = (None, d') -> exec_hub_stmts l (hdb d) = Ok (hdb d');
  hub_rollback d l e d' : hub_tx d l = (Some e, d') -> hdb d' = hdb d;
  beat_created d b d' : beat_create d b = (None, d') -> hdb d' = created_beat b (hdb d);
  beat_refused d b e d' : beat_create d b = (Some e, d') -> hdb d' = hdb d;
}.

#[export] Instance hub_db : HubTables HubDB := {|
  beats_find t q := Ok (beat_of <$> filter (fun kv => beat_matches q kv = true) (map_to_list (hd_beats t)));
  hub_tx t l := match exec_hub_stmts l t with Ok t' => (None, t') | Err e => (Some e, t) end;
  beat_create t b := (None, created_beat b t);
|}.
#[export] Program Instance hub_db_laws : HubTablesLaws HubDB := {| hdb t := t |}.
Next Obligation. by intros t q l [= <-]. Qed.
Next Obligation. intros t l t'. simpl. destruct (exec_hub_stmts l t); [|done]. by intros [= <-]. Qed.
Next Obligation. intros t l e t'. simpl. destruct (exec_hub_stmts l t); [done|]. by intros [= _ <-]. Qed.
Next Obligation. by intros t b t' [= <-]. Qed.
Next Obligation. by intros. Qed.

(** ** Facts *)
Definition set_status (hub status : string) (t : HubDB) : HubDB :=
  MkHubDB (alter (fun v => (status, v.2)) hub (hd_beats t)) (hd_rows t).
Definition without_hub (hub : string) (t : HubDB) : HubDB :=
  MkHubDB (hd_beats t) (filter (fun kv => kv.2 <> hub) (hd_rows t)).
Definition cleaned (t : HubDB) (b : LeafHubHeartbeat) : HubDB :=
  set_status (hb_Name b) HubInactive (without_hub (hb_Name b) t).
Definition activated (t : HubDB) (b : LeafHubHeartbeat) : HubDB := set_status (hb_Name b) HubActive t.

Section Facts.
Context {D P Event : Type} `{HubTablesLaws D} `{EventLaws Event} `{!Producer P Event} `{!ProducerLog P Event}.
Context `{PollerLaws} `{StringsCodec}.

Definition resync_event (bytes_ : bytes) (hubName : string) : Event :=
  utils_ToCloudEvent ResyncMsgKey CloudEventSourceGlobalHub hubName bytes_.

Lemma cleanup_None hub d d' :
  cleanup hub d = (None, d') -> hub <> "" /\ hdb d' = cleaned (hdb d) (MkHeartbeat hub "" 0).
Proof.
  unfold cleanup. intros E%hub_commit. simpl in E.
  destruct (String.eqb_spec hub "") as [->|Hne]; [done|]. simpl in E. injection E as E. split; [done|].
  rewrite <- E. unfold cleaned, set_status, without_hub. simpl. f_equal.
  rewrite !map_filter_filter. apply map_filter_ext. intros [m id] h _. simpl.
  destruct (decide (h = hub)) as [->|Hh]; destruct m; intuition congruence.
Qed.

Lemma inactive_spec hubs d d' :
  inactive hubs d = (None, d') ->
  (forall b, b ∈ hubs -> hb_Name b <> "") /\ hdb d' = fold_left cleaned hubs (hdb d).
Proof.
  revert d. induction hubs as [|b hubs IH]; intros d; simpl.
  - intros [= <-]. split; [|done]. by intros b ?%not_elem_of_nil.
  - destruct (poll _ d) as [[e|] d1] eqn:E; [done|]. intros Hr. apply IH in Hr as [Hne ->].
    pose proof (poll_spec (cleanup_attempt (hb_Name b)) d) as Hp. rewrite E in Hp. simpl in Hp.
    eapply (polled_None _ (fun x => hdb x = hdb d)) in Hp as (d0 & Hd0 & Ea); [| |done].
    + unfold cleanup_attempt in Ea. destruct (cleanup (hb_Name b) d0) as [[e|] d2] eqn:Ec; [done|].
      injection Ea as ->. apply cleanup_None in Ec as [Hb ->]. rewrite Hd0. split; [|done].
      intros b' [->|Hb']%elem_of_cons; auto.
    + intros s x err s' Hs Ea ->. unfold cleanup_attempt in Ea.
      destruct (cleanup (hb_Name b) s) as [[e|] d2] eqn:Ec; [|done]. injection Ea as <- <-.
      unfold cleanup in Ec. apply hub_rollback in Ec. congruence.
Qed.

(** The events sent by [reactive]: those of the hubs, each at least once. *)
Lemma reactive_spec data hubs pr d pr' d' :
  marshal_strings resyncResources = Ok data ->
  reactive hubs (pr, d) = (None, (pr', d')) ->
  hdb d' = fold_left activated hubs (hdb d) /\
  exists evs, sent_events pr' = sent_events pr ++ evs /\
    forall e, e ∈ evs <-> exists b, b ∈ hubs /\ e = resync_event data (hb_Name b).
Proof.
  intros Hm. revert pr d. induction hubs as [|b hubs IH]; intros pr d; simpl.
  - intros [= <- <-]. split; [done|]. exists []. rewrite app_nil_r. split; [done|].
    intros e. split; [by intros ?%not_elem_of_nil|]. by intros (b & ?%not_elem_of_nil & _).
  - destruct (poll _ (pr, d)) as [[e|] [pr1 d1]] eqn:E; [done|].
    intros Hr. apply IH in Hr as (-> & evs2 & Hs2 & He2).
    pose proof (poll_spec (reactive_attempt (hb_Name b)) (pr, d)) as Hp. rewrite E in Hp. simpl in Hp.
    set (ev := resync_event data (hb_Name b)).
    eapply (polled_None _ (fun x => hdb x.2 = hdb d /\
      exists evs, sent_events x.1 = sent_events pr ++ evs /\ forall e, e ∈ evs -> e = ev)) in Hp
      as ([pr0 d0] & [Hd0 (evs & Hs0 & He0)] & Ea); simpl in *.
    + unfold reactive_attempt, resync in Ea. rewrite Hm in Ea.
      destruct (SendEvent pr0 "" _) as [[e|] pr2] eqn:Es; [done|].
      destruct (hub_tx d0 _) as [[e|] d2] eqn:Et; [done|]. injection Ea as -> ->.
      apply hub_commit in Et. simpl in Et. injection Et as Et. rewrite <- Et, Hd0. split; [done|].
      apply send_accepted in Es. exists (evs ++ [ev] ++ evs2). rewrite Hs2, Es, Hs0, <- !app_assoc.
      split; [done|]. intros e. rewrite !elem_of_app, list_elem_of_singleton, He2. split.
      * intros [Hin|[->|(b' & Hb' & ->)]]; [exists b|exists b|exists b'];
          (split; [set_solver|]); auto.
      * intros (b' & [->|Hb']%elem_of_cons & ->); eauto.
    + intros [pr0 d0] x err [pr2 d2] [Hd0 (evs & Hs0 & He0)] Ea ->. simpl in *.
      unfold reactive_attempt, resync in Ea. rewrite Hm in Ea.
      destruct (SendEvent pr0 "" _) as [[e|] pr3] eqn:Es.
      * injection Ea as <- <- <-. split; [done|]. apply send_refused in Es. rewrite Es. eauto.
      * destruct (hub_tx d0 _) as [[e|] d3] eqn:Et; [|done]. injection Ea as <- <- <-.
        apply hub_rollback in Et. split; [congruence|].
        apply send_accepted in Es. exists (evs ++ [ev]). rewrite Es, Hs0, app_assoc. split; [done|].
        intros e'. rewrite elem_of_app, list_elem_of_singleton. intros [?|?]; auto.
    + split; [done|]. exists []. rewrite app_nil_r. split; [done|]. by intros e ?%not_elem_of_nil.
Qed.
End Facts.

(** The effect of the folds on one hub and on one row. *)
Lemma fold_set_status (f : HubDB -> LeafHubHeartbeat -> HubDB) status hubs t h :
  (forall t b, hd_beats (f t b) = alter (fun v => (status, v.2)) (hb_Name b) (hd_beats t)) ->
  hd_beats (fold_left f hubs t) !! h =
    if decide (h ∈ hb_Name <$> hubs) then (fun v => (status, v.2)) <$> hd_beats t !! h else hd_beats t !! h.
Proof.
  intros Hf. revert t. induction hubs as [|b hubs IH]; intros t; [case_decide; set_solver|].
  cbn [fold_left].
  rewrite IH, Hf. destruct (decide (h = hb_Name b)) as [->|Hne].
  - rewrite lookup_alter_eq. destruct (hd_beats t !! hb_Name b); repeat case_decide; try done; exfalso; set_solver.
  - rewrite lookup_alter_ne by done. repeat case_decide; try done; exfalso; set_solver.
Qed.

Lemma fold_cleaned_rows hubs t k :
  hd_rows (fold_left cleaned hubs t) !! k =
    match hd_rows t !! k with
    | Some h => if decide (h ∈ hb_Name <$> hubs) then None else Some h
    | None => None
    end.
Proof.
  revert t. induction hubs as [|b hubs IH]; intros t; cbn [fold_left].
  - destruct (hd_rows t !! k); [|done]. case_decide; set_solver.
  - rewrite IH. unfold cleaned. cbn [hd_rows set_status without_hub]. rewrite map_lookup_filter. destruct (hd_rows t !! k) as [h|]; simpl; [|done].
    destruct (decide (h = hb_Name b)) as [->|Hne].
    + rewrite option_guard_False by (simpl; tauto). simpl. case_decide; [done|]. set_solver.
    + rewrite option_guard_True by done. simpl. repeat case_decide; try done; exfalso; set_solver.
Qed.

Lemma fold_activated_rows hubs t : hd_rows (fold_left activated hubs t) = hd_rows t.
Proof. revert t. induction hubs as [|b hubs IH]; intros t; simpl; [done|]. by rewrite IH. Qed.

Section Props.
Context {D P Event : Type} `{HubTablesLaws D} `{EventLaws Event} `{!Producer P Event} `{!ProducerLog P Event}.
Context `{PollerLaws} `{StringsCodec}.

Lemma beats_found d q l h :
  beats_find d q = Ok l ->
  h ∈ hb_Name <$> l <-> exists s t, hd_beats (hdb d) !! h = Some (s, t) /\ beat_matches q (h, (s, t)) = true.
Proof.
  intros E%beats_find_rows. rewrite E. setoid_rewrite list_elem_of_fmap.
  setoid_rewrite list_elem_of_fmap. setoid_rewrite list_elem_of_filter. split.
  - intros (b & -> & [h' [s t]] & -> & Hm & Hin%elem_of_map_to_list). simpl. eauto.
  - intros (s & t & Hl & Hm). exists (beat_of (h, (s, t))). split; [done|].
    exists (h, (s, t)). by rewrite elem_of_map_to_list.
Qed.

(** The hubs a probe expires and revives. *)
Definition expires (threshold : Z) (t : HubDB) (h : string) : Prop :=
  exists last, hd_beats t !! h = Some (HubActive, last) /\ (last < threshold)%Z.
Definition revives (threshold : Z) (t : HubDB) (h : string) : Prop :=
  exists last, hd_beats t !! h = Some (HubInactive, last) /\ (threshold < last)%Z.
#[local] Instance expires_dec threshold t h : Decision (expires threshold t h).
Proof.
  unfold expires. destruct (hd_beats t !! h) as [[s last]|] eqn:E.
  - destruct (decide (s = HubActive /\ (last < threshold)%Z)) as [[-> ?]|Hn]; [left; eauto|right].
    intros (l & [= -> <-] & ?). by apply Hn.
  - right. by intros (? & ? & ?).
Defined.

Definition status_after (threshold : Z) (v : string * Z) : string * Z :=
  if (v.2 <? threshold)%Z && String.eqb v.1 HubActive then (HubInactive, v.2)
  else if (threshold <? v.2)%Z && String.eqb v.1 HubInactive then (HubActive, v.2)
  else v.

Lemma update_spec data timeout now pr d pr' d' :
  marshal_strings resyncResources = Ok data ->
  update (Event := Event) timeout now pr d = (None, (pr', d')) ->
  let threshold := (now - timeout)%Z in
  (forall h, hd_beats (hdb d') !! h = status_after threshold <$> hd_beats (hdb d) !! h) /\
  (forall k, hd_rows (hdb d') !! k = match hd_rows (hdb d) !! k with
     | Some h => if decide (expires threshold (hdb d) h) then None else Some h
     | None => None
     end) /\
  exists evs, sent_events pr' = sent_events pr ++ evs /\
    forall e, e ∈ evs <-> exists h, revives threshold (hdb d) h /\ e = resync_event data h.
Proof.
  intros Hm. unfold update. destruct (beats_find d _) as [expired|] eqn:Ex; [|done].
  destruct (inactive expired d) as [[e|] d1] eqn:Ei; [done|]. apply inactive_spec in Ei as [_ Hd1].
  destruct (beats_find d1 _) as [revived|] eqn:Er; [|done].
  destruct (reactive revived (pr, d1)) as [[e|] s] eqn:Ea; [done|]. intros [= ->].
  apply (reactive_spec data) in Ea as (Hd' & evs & Hs & Hev); [|done].
  pose proof (fun h => beats_found d _ expired h Ex) as Hex.
  pose proof (fun h => beats_found d1 _ revived h Er) as Hrv. simpl in *.
  assert (Hst : forall h, hd_beats (hdb d1) !! h = (fun v => if (v.2 <? now - timeout)%Z && String.eqb v.1 HubActive
      then (HubInactive, v.2) else v) <$> hd_beats (hdb d) !! h).
  { intros h. rewrite Hd1, (fold_set_status _ HubInactive) by done.
    destruct (hd_beats (hdb d) !! h) as [[s t]|] eqn:El; [|by case_decide]. simpl.
    destruct (decide (h ∈ _)) as [Hin|Hn]; simpl.
    { apply Hex in Hin as (s' & t' & E & Hb). rewrite El in E. injection E as <- <-. by rewrite Hb. }
    destruct ((t <? now - timeout)%Z && String.eqb s HubActive) eqn:Eb; [|done].
    destruct Hn. apply Hex. eauto. }
  assert (Hre : forall h, h ∈ hb_Name <$> revived <-> revives (now - timeout) (hdb d) h).
  { intros h. rewrite Hrv, Hst. unfold revives. split.
    - intros (s & t & Hl & [Ht Hs']%andb_true_iff). apply String.eqb_eq in Hs' as ->. apply Z.ltb_lt in Ht.
      destruct (hd_beats (hdb d) !! h) as [[s0 t0]|]; [|done]. simpl in Hl.
      destruct ((t0 <? now - timeout)%Z && String.eqb s0 HubActive) eqn:Eb; injection Hl as E; subst.
      + apply andb_true_iff in Eb as [Eb _]. apply Z.ltb_lt in Eb. lia.
      + exists t. by subst.
    - intros (t & -> & Ht). exists HubInactive, t. simpl. rewrite andb_false_r. split; [done|].
      rewrite andb_true_r. by apply Z.ltb_lt. }
  split; [|split].
  - intros h. rewrite Hd', (fold_set_status _ HubActive) by done. rewrite Hst.
    destruct (hd_beats (hdb d) !! h) as [[s t]|] eqn:El; [|by case_decide]. simpl. unfold status_after. simpl.
    destruct (decide (h ∈ _)) as [(t' & E & Ht)%Hre|Hn].
    + rewrite El in E. injection E as -> ->. simpl. rewrite andb_false_r.
      by rewrite (proj2 (Z.ltb_lt _ _) Ht).
    + destruct ((t <? now - timeout)%Z && String.eqb s HubActive) eqn:E1; [done|].
      destruct ((now - timeout <? t)%Z && String.eqb s HubInactive) eqn:E2; [|done].
      apply andb_true_iff in E2 as [E2 E3]. apply String.eqb_eq in E3 as ->. apply Z.ltb_lt in E2.
      destruct Hn. apply Hre. by exists t.
  - intros k. rewrite Hd', fold_activated_rows, Hd1, fold_cleaned_rows.
    destruct (hd_rows (hdb d) !! k) as [h|]; [|done].
    assert (Hiff : h ∈ hb_Name <$> expired <-> expires (now - timeout) (hdb d) h).
    { rewrite Hex. unfold expires. split.
      - intros (s & t & Hl & [Ht Hs']%andb_true_iff). apply String.eqb_eq in Hs' as ->. apply Z.ltb_lt in Ht. eauto.
      - intros (t & Hl & Ht). exists HubActive, t. split; [done|]. rewrite andb_true_r. by apply Z.ltb_lt. }
    by rewrite (decide_ext _ _ _ _ Hiff).
  - exists evs. split; [done|]. intros e. rewrite Hev. split.
    + intros (b & Hb & ->). exists (hb_Name b). split; [|done]. apply Hre. by apply list_elem_of_fmap_2.
    + intros (h & Hh & ->). apply Hre in Hh. apply list_elem_of_fmap in Hh as (b & -> & Hb). eauto.
Qed.

(** The columns hold nothing else than the two statuses. *)
Definition statuses_ok (t : HubDB) : Prop :=
  forall h s last, hd_beats t !! h = Some (s, last) -> s = HubActive \/ s = HubInactive.

(** C23: a probe that ends without an error makes inactive the hubs whose heartbeat is older than the timeout and active those whose heartbeat is more recent; the managed clusters, hub information, policies and compliances of the hubs that expire are deleted, those of every other hub stay; and the resync events sent are those of the hubs that become active again, each at least once. *)
Theorem probe_follows_heartbeats data timeout now pr d pr' d' :
  marshal_strings resyncResources = Ok data -> statuses_ok (hdb d) ->
  update (Event := Event) timeout now pr d = (None, (pr', d')) ->
  let threshold := (now - timeout)%Z in
  (forall h, hd_beats (hdb d') !! h = (fun v => (match (v.2 ?= threshold)%Z with
     | Lt => HubInactive | Gt => HubActive | Eq => v.1 end, v.2)) <$> hd_beats (hdb d) !! h) /\
  (forall k, hd_rows (hdb d') !! k = match hd_rows (hdb d) !! k with
     | Some h => if decide (expires threshold (hdb d) h) then None else Some h
     | None => None
     end) /\
  exists evs, sent_events pr' = sent_events pr ++ evs /\
    forall e, e ∈ evs <-> exists h, revives threshold (hdb d) h /\ e = resync_event data h.
Proof.
  intros Hm Hok Hu. destruct (update_spec data timeout now pr d pr' d' Hm Hu) as (Hb & Hr & He).
  split; [|done]. intros h. rewrite Hb. destruct (hd_beats (hdb d) !! h) as [[s t]|] eqn:E; [|done]. simpl. f_equal.
  unfold status_after. simpl. destruct (Hok h s t E) as [->| ->]; simpl;
    destruct (Z.compare_spec t (now - timeout)); destruct (Z.ltb_spec t (now - timeout));
    destruct (Z.ltb_spec (now - timeout) t); simpl; done || lia.
Qed.

(** A heartbeat brings its hub back: when it is stored and the next probe, run before the timeout of the heartbeat, ends without an error, the hub is active, and a resync event was sent to it if it was inactive. *)
Theorem heartbeat_reactivates_hub data timeout t0 now hub pr d d1 pr' d' :
  marshal_strings resyncResources = Ok data -> statuses_ok (hdb d) ->
  handleHeartbeatEvent hub t0 d = (None, d1) -> (now - timeout < t0)%Z ->
  update (Event := Event) timeout now pr d1 = (None, (pr', d')) ->
  hd_beats (hdb d') !! hub = Some (HubActive, t0) /\
  (forall last, hd_beats (hdb d) !! hub = Some (HubInactive, last) ->
     exists evs, sent_events pr' = sent_events pr ++ evs /\ resync_event data hub ∈ evs).
Proof.
  intros Hm Hok Hh Ht Hu. unfold handleHeartbeatEvent in Hh.
  destruct (beat_create d _) as [[e|] d2] eqn:Ec; [done|]. injection Hh as ->. apply beat_created in Ec.
  destruct (update_spec data timeout now pr d1 pr' d' Hm Hu) as (Hb & _ & evs & Hs & He).
  assert (Hl : exists s, hd_beats (hdb d1) !! hub = Some (s, t0) /\ (s = HubActive \/ s = HubInactive) /\
      forall last, hd_beats (hdb d) !! hub = Some (HubInactive, last) -> s = HubInactive).
  { rewrite Ec. unfold created_beat. simpl. destruct (hd_beats (hdb d) !! hub) as [[s last]|] eqn:El;
      rewrite lookup_insert_eq; eexists; split_and!; try done; eauto. by intros ? [= -> _]. }
  destruct Hl as (s & Hl & Hs' & Hi). apply Z.ltb_lt in Ht as Ht'. split.
  - rewrite Hb, Hl. simpl. unfold status_after. simpl.
    rewrite (proj2 (Z.ltb_ge t0 _)) by lia. simpl. rewrite Ht'. by destruct Hs' as [->| ->].
  - intros last Hlast. exists evs. split; [done|]. apply He. exists hub. split; [|done].
    exists t0. rewrite (Hi last Hlast) in Hl. done.
Qed.

(** The deletion of the add-on of a hub does not keep it inactive: when its last heartbeat is within the timeout, the next probe makes the hub active again and sends it a resync event. *)
Theorem deleted_addon_hub_comes_back data timeout now hub s last pr d d1 pr' d' :
  marshal_strings resyncResources = Ok data ->
  hd_beats (hdb d) !! hub = Some (s, last) -> (now - timeout < last)%Z ->
  addon_Reconcile true hub AddonNotFound d = ((false, None), d1) ->
  update (Event := Event) timeout now pr d1 = (None, (pr', d')) ->
  hub <> "" ->
  hd_beats (hdb d1) !! hub = Some (HubInactive, last) /\
  hd_beats (hdb d') !! hub = Some (HubActive, last) /\
  exists evs, sent_events pr' = sent_events pr ++ evs /\ resync_event data hub ∈ evs.
Proof.
  intros Hm Hl Ht Ha Hu Hne. unfold addon_Reconcile in Ha. cbn [negb] in Ha.
  destruct (String.eqb_spec hub "") as [|_]; [done|].
  destruct (inactive _ d) as [err d2] eqn:Ei. injection Ha as -> ->.
  apply inactive_spec in Ei as [_ Ei]. destruct (update_spec data timeout now pr d1 pr' d' Hm Hu) as (Hb & _ & evs & Hs & He).
  assert (Hl1 : hd_beats (hdb d1) !! hub = Some (HubInactive, last)).
  { rewrite Ei. simpl. by rewrite lookup_alter_eq, Hl. }
  split; [done|]. split.
  - rewrite Hb, Hl1. simpl. unfold status_after. simpl. rewrite andb_false_r. by rewrite (proj2 (Z.ltb_lt _ _) Ht).
  - exists evs. split; [done|]. apply He. exists hub. split; [|done]. by exists last.
Qed.
End Props.

(** ** Witnesses *)
Module Sample.
#[local] Instance strings_codec : StringsCodec := {| marshal_strings _ := Ok [] |}.
#[local] Instance poller : Poller := poller_of 3.
#[local] Instance poller_laws : PollerLaws := poller_of_laws 3.

(** Two hubs: one whose heartbeat is old, one that was inactive and has just sent one. *)
Definition two : HubDB :=
  MkHubDB {["old" := (HubActive, 10%Z); "back" := (HubInactive, 700%Z)]}
    {[(MManagedCluster, "c1") := "old"; (MManagedCluster, "c2") := "back"]}.
Definition probed : list PlainEvent * HubDB := (update 300 900 [] two).2.

Lemma marshaled : marshal_strings resyncResources = Ok [].
Proof. reflexivity. Qed.

Lemma two_ok : statuses_ok two.
Proof.
  intros h s last. unfold two. simpl. rewrite lookup_insert_Some, lookup_singleton_Some.
  intros [[_ [= <- _]]|(_ & _ & [= <- _])]; auto.
Qed.

Lemma probe_follows_heartbeats_witness :
  hd_beats probed.2 !! "old" = Some (HubInactive, 10%Z) /\ hd_rows probed.2 !! (MManagedCluster, "c1") = None.
Proof.
  destruct (probe_follows_heartbeats (Event := PlainEvent) [] 300 900 [] two probed.1 probed.2 marshaled)
    as (Hb & Hr & _); [exact two_ok|vm_compute; reflexivity|].
  split; [exact (Hb "old")|]. eapply eq_trans; [exact (Hr (MManagedCluster, "c1"))|vm_compute; reflexivity].
Defined.

Definition beaten : HubDB := (handleHeartbeatEvent "old" 850 two).2.
Definition probed2 : list PlainEvent * HubDB := (update 300 900 [] beaten).2.

Lemma heartbeat_reactivates_hub_witness : hd_beats probed2.2 !! "old" = Some (HubActive, 850%Z).
Proof.
  destruct (heartbeat_reactivates_hub (Event := PlainEvent) [] 300 850 900 "old" [] two beaten probed2.1 probed2.2
    marshaled) as [Hb _]; [exact two_ok|vm_compute; reflexivity|lia|vm_compute; reflexivity|exact Hb].
Defined.

Definition undeployed : HubDB := (addon_Reconcile true "back" AddonNotFound two).2.
Definition probed3 : list PlainEvent * HubDB := (update 300 900 [] undeployed).2.

Lemma deleted_addon_hub_comes_back_witness : hd_beats probed3.2 !! "back" = Some (HubActive, 700%Z).
Proof.
  destruct (deleted_addon_hub_comes_back (Event := PlainEvent) [] 300 900 "back" HubInactive 700 [] two undeployed
    probed3.1 probed3.2 marshaled) as (_ & Hb & _);
    [vm_compute; reflexivity|lia|vm_compute; reflexivity|vm_compute; reflexivity|done|exact Hb].
Defined.
End Sample.
