(* ===== verification/Base64.v ===== *)
(** * [encoding/base64]: the standard encoding

    [StdEncoding.DecodeString], which the agent uses for the identity of a user
    in the annotations of an object, and the encoder, for round trips. Line
    breaks are skipped; the decoder is not strict about the trailing bits. *)

From Stdlib Require Import ZArith NArith Ascii String Lia ZifyN ZifyNat.
From stdpp Require Import prelude strings list.
From S2P Require Import Prelude.
Local Open Scope string_scope.
Local Open Scope list_scope.
Local Open Scope N_scope.

Definition in_range (lo hi n : N) : bool := (lo <=? n) && (n <=? hi).

(** The value of a character of the alphabet. *)
Definition sextet (c : ascii) : option N :=
  let n := N_of_ascii c in
  if in_range 65 90 n then Some (n - 65)
  else if in_range 97 122 n then Some (n - 97 + 26)
  else if in_range 48 57 n then Some (n - 48 + 52)
  else if n =? 43 then Some 62
  else if n =? 47 then Some 63
  else None.

Definition letter (n : N) : ascii :=
  ascii_of_N (if n <? 26 then n + 65 else if n <? 52 then n - 26 + 97 else if n <? 62 then n - 52 + 48
              else if n =? 62 then 43 else 47).

Definition pad : ascii := ascii_of_N 61.

Definition byte1 (x y : N) : ascii := ascii_of_N (x * 4 + y / 16).
Definition byte2 (y z : N) : ascii := ascii_of_N (y mod 16 * 16 + z / 4).
Definition byte3 (z w : N) : ascii := ascii_of_N (z mod 4 * 64 + w).

Fixpoint decode_quanta (l : list ascii) : option (list ascii) :=
  match l with
  | [] => Some []
  | a :: b :: c :: d :: rest =>
      match sextet a, sextet b with
      | Some x, Some y =>
          if Ascii.eqb c pad then
            match rest with
            | [] => if Ascii.eqb d pad then Some [byte1 x y] else None
            | _ => None
            end
          else
            match sextet c with
            | None => None
            | Some z =>
                if Ascii.eqb d pad then
                  match rest with [] => Some [byte1 x y; byte2 y z] | _ => None end
                else
                  match sextet d, decode_quanta rest with
                  | Some w, Some bs => Some (byte1 x y :: byte2 y z :: byte3 z w :: bs)
                  | _, _ => None
                  end
            end
      | _, _ => None
      end
  | _ => None
  end.

Definition line_break (c : ascii) : bool := (N_of_ascii c =? 10) || (N_of_ascii c =? 13).

Definition DecodeString (s : string) : result string :=
  match decode_quanta (filter (fun c => line_break c = false) (list_ascii_of_string s)) with
  | Some bs => Ok (string_of_list_ascii bs)
  | None => Err "illegal base64 data"
  end.

(** ** The encoder *)
Fixpoint encode_quanta (l : list ascii) : list ascii :=
  match l with
  | [] => []
  | [a] => let x := N_of_ascii a in [letter (x / 4); letter (x mod 4 * 16); pad; pad]
  | [a; b] =>
      let x := N_of_ascii a in let y := N_of_ascii b in
      [letter (x / 4); letter (x mod 4 * 16 + y / 16); letter (y mod 16 * 4); pad]
  | a :: b :: c :: rest =>
      let x := N_of_ascii a in let y := N_of_ascii b in let z := N_of_ascii c in
      letter (x / 4) :: letter (x mod 4 * 16 + y / 16) :: letter (y mod 16 * 4 + z / 64) :: letter (z mod 64)
        :: encode_quanta rest
  end.
Definition EncodeToString (s : string) : string := string_of_list_ascii (encode_quanta (list_ascii_of_string s)).

Lemma letters_checked :
  forallb (fun n => let c := letter (N.of_nat n) in
    bool_decide (sextet c = Some (N.of_nat n)) && negb (Ascii.eqb c pad) && negb (line_break c)) (seq 0 64) = true.
Proof. vm_compute. reflexivity. Qed.

Lemma letter_spec n : n < 64 -> sextet (letter n) = Some n /\ Ascii.eqb (letter n) pad = false /\ line_break (letter n) = false.
Proof.
  intros Hn. assert (Hin : N.to_nat n ∈ seq 0 64) by (apply elem_of_seq; lia).
  pose proof (proj1 (forallb_elem_of _ _) letters_checked _ Hin) as H. cbv beta zeta in H. rewrite N2Nat.id in H.
  apply andb_true_iff in H as [[H1%bool_decide_eq_true H2%negb_true_iff]%andb_true_iff H3%negb_true_iff]. done.
Qed.

Lemma ascii_small a : N_of_ascii a < 256.
Proof. apply N_ascii_bounded. Qed.

Lemma ascii_of_N_eq a n : n = N_of_ascii a -> ascii_of_N n = a.
Proof. intros ->. apply ascii_N_embedding. Qed.

Ltac Zify.zify_post_hook ::= Z.div_mod_to_equations.

(** Lists of bytes, by groups of three. *)
Lemma triples_ind (Q : list ascii -> Prop) :
  Q [] -> (forall a, Q [a]) -> (forall a b, Q [a; b]) -> (forall a b c l, Q l -> Q (a :: b :: c :: l)) -> forall l, Q l.
Proof.
  intros H0 H1 H2 H3 l. assert (Hb : forall n l, (length l <= n)%nat -> Q l); [|by apply (Hb (length l))].
  clear l. induction n as [|n IH]; intros [|a [|b [|c l]]] Hl; simpl in Hl; try lia; auto.
  apply H3, IH. lia.
Qed.

Lemma decode_encode l : decode_quanta (encode_quanta l) = Some l.
Proof.
  induction l as [|a|a b|a b c l IH] using triples_ind; [done|..]; cbn [encode_quanta decode_quanta].
  - pose proof (ascii_small a).
    destruct (letter_spec (N_of_ascii a / 4)) as (-> & _); [lia|].
    destruct (letter_spec (N_of_ascii a mod 4 * 16)) as (-> & _); [lia|].
    rewrite !Ascii.eqb_refl. do 2 f_equal. apply ascii_of_N_eq. lia.
  - pose proof (ascii_small a). pose proof (ascii_small b).
    destruct (letter_spec (N_of_ascii a / 4)) as (-> & _); [lia|].
    destruct (letter_spec (N_of_ascii a mod 4 * 16 + N_of_ascii b / 16)) as (-> & _); [lia|].
    destruct (letter_spec (N_of_ascii b mod 16 * 4)) as (-> & -> & _); [lia|].
    rewrite Ascii.eqb_refl. do 2 f_equal; [|f_equal]; apply ascii_of_N_eq; lia.
  - pose proof (ascii_small a). pose proof (ascii_small b). pose proof (ascii_small c).
    destruct (letter_spec (N_of_ascii a / 4)) as (-> & _); [lia|].
    destruct (letter_spec (N_of_ascii a mod 4 * 16 + N_of_ascii b / 16)) as (-> & _); [lia|].
    destruct (letter_spec (N_of_ascii b mod 16 * 4 + N_of_ascii c / 64)) as (-> & -> & _); [lia|].
    destruct (letter_spec (N_of_ascii c mod 64)) as (-> & -> & _); [lia|].
    rewrite IH. do 2 f_equal; [|f_equal; [|f_equal]]; apply ascii_of_N_eq; lia.
Qed.

Lemma encode_no_break l : Forall (fun c => line_break c = false) (encode_quanta l).
Proof.
  induction l as [|a|a b|a b c l IH] using triples_ind; cbn [encode_quanta];
    repeat (apply Forall_cons; split); try done;
    pose proof ascii_small as Hs; try (pose proof (Hs a)); try (pose proof (Hs b)); try (pose proof (Hs c));
    apply letter_spec; lia.
Qed.

Lemma filter_all {A} (P : A -> Prop) `{!forall x, Decision (P x)} (l : list A) : Forall P l -> filter P l = l.
Proof. induction 1; [done|]. rewrite filter_cons_True by done. by f_equal. Qed.

Lemma DecodeString_EncodeToString s : DecodeString (EncodeToString s) = Ok s.
Proof.
  unfold DecodeString, EncodeToString. rewrite list_ascii_of_string_of_list_ascii.
  by rewrite filter_all, decode_encode, string_of_list_ascii_of_string by apply encode_no_break.
Qed.
