(* ===== verification/SpecAgent.v ===== *)
(** * The specs the agent applies

    [agent/pkg/spec]: the dispatcher of the events from the global hub
    ([dispatcher.go], [spec.go]), the worker pool and its impersonation workers
    ([workers/worker_pool.go], [rbac/impersonation_manager.go]), the syncer of
    generic bundles ([syncers/generic_syncer.go]) and the syncer of the labels
    of managed clusters ([syncers/clusterlabel_syncer.go]).

    A syncer adds the number of its jobs to a wait group, submits the jobs and
    waits. A job that is submitted is run by one of the workers; the order in
    which the jobs of a bundle run is arbitrary, each as one step. A job that
    the pool drops is never run, and the syncer waits for it for ever. *)

From stdpp Require Import prelude gmap strings list.
From Stdlib Require Import ZArith Lia Ascii.
From S2P Require Import Prelude.
From S2P Require Import GoLib.
From S2P Require Import Base64.
From S2P Require Import CloudEvents.
From S2P Require Import Libraries.
From S2P Require Import SpecTransport.
From S2P Require Import KubeObjects.
Local Open Scope string_scope.
Local Open Scope list_scope.

(** ** Objects

    A field of an unstructured object: a map, by the JSON of its values, or
    other JSON. An absent map of annotations reads as the empty one. *)
Inductive field := FMap (m : gmap string string) | FRaw (json : string).

Record unstructured := MkUnstructured {
  u_kind : string;
  u_namespace : string;
  u_name : string;
  u_uid : string;
  u_labels : gmap string string;
  u_annotations : gmap string string;
  u_finalizers : list string;
  u_deleting : bool;                   (** whether there is a deletion timestamp *)
  u_fields : gmap string field;        (** the fields other than the metadata *)
}.
Definition set_u_annotations (o : unstructured) (a : gmap string string) : unstructured :=
  MkUnstructured (u_kind o) (u_namespace o) (u_name o) (u_uid o) (u_labels o) a (u_finalizers o) (u_deleting o) (u_fields o).
Definition set_u_fields (o : unstructured) (f : gmap string field) : unstructured :=
  MkUnstructured (u_kind o) (u_namespace o) (u_name o) (u_uid o) (u_labels o) (u_annotations o) (u_finalizers o) (u_deleting o) f.

(** ** [rbac/impersonation_manager.go] *)
Definition NoIdentity : string := "".
Definition UserIdentityAnnotation : string := "open-cluster-management.io/user-identity".
Definition UserGroupsAnnotation : string := "open-cluster-management.io/user-group".

Definition decodeBase64IdentityAnnotation (annotations : gmap string string) (annotationToDecode : string)
    : result string :=
  match annotations !! annotationToDecode with
  | Some base64Value =>
      match DecodeString base64Value with
      | Ok s => Ok s
      | Err e => Err ("failed to base64 decode annotation " +:+ annotationToDecode +:+ " - " +:+ e)
      end
  | None => Ok NoIdentity
  end.

(** [None] is an object of another type than [unstructured]. *)
Definition GetUserIdentity (obj : option unstructured) : result string :=
  match obj with
  | None => Ok NoIdentity
  | Some o =>
      match decodeBase64IdentityAnnotation (u_annotations o) UserIdentityAnnotation with
      | Ok s => Ok s
      | Err e => Err ("failed to decode base64 user identity - " +:+ e)
      end
  end.

Definition GetUserGroups (obj : option unstructured) : result (string * list string) :=
  match obj with
  | None => Ok (NoIdentity, [])
  | Some o =>
      if bool_decide (u_annotations o = ∅) then Ok (NoIdentity, [])
      else
        match decodeBase64IdentityAnnotation (u_annotations o) UserGroupsAnnotation with
        | Ok userGroups =>
            Ok (default "" (u_annotations o !! UserGroupsAnnotation), split_char ","%char userGroups)
        | Err e => Err ("failed to decode base64 user identity - " +:+ e)
        end
  end.

(** ** [workers/worker_pool.go] *)

(** Whether the lock of the impersonation workers is held by a call that
    returned, and the identifiers of the workers. *)
Record WorkerPool := MkPool {
  impersonationWorkersLock : bool;
  impersonationWorkersQueues : gset string;
}.
Definition NewPool : WorkerPool := MkPool false ∅.

(** The client of the controller has the identifier of no user. *)
Definition controller_worker : string := "".

(** [Impersonate] creates a client, which can fail. *)
Class Impersonation := { Impersonate : string -> list string -> option goerror }.

Section Pool.
Context `{Impersonation}.

Definition createUserWorker (userIdentity : string) (userGroups : list string) (workerIdentifier : string)
    (pool : WorkerPool) : option goerror * WorkerPool :=
  match Impersonate userIdentity userGroups with
  | Some e => (Some ("failed to impersonate - " +:+ e), pool)
  | None =>
      (None, MkPool (impersonationWorkersLock pool) ({[workerIdentifier]} ∪ impersonationWorkersQueues pool))
  end.

(** The worker whose queue gets the job, [None] when the job is dropped. The
    lock is not released when a worker cannot be created. *)
Definition Submit (obj : option unstructured) (pool : WorkerPool) : outcome (option string * WorkerPool) :=
  match GetUserIdentity obj with
  | Err _ => Ret (None, pool)
  | Ok userIdentity =>
      if String.eqb userIdentity NoIdentity then Ret (Some controller_worker, pool)
      else
        match GetUserGroups obj with
        | Err _ => Ret (None, pool)
        | Ok (base64UserGroups, userGroups) =>
            if impersonationWorkersLock pool then Block
            else
              let locked := MkPool true (impersonationWorkersQueues pool) in
              let workerIdentifier := userIdentity +:+ "." +:+ base64UserGroups in
              let '(err, pool') :=
                (if bool_decide (workerIdentifier ∈ impersonationWorkersQueues pool) then (None, locked)
                 else createUserWorker userIdentity userGroups workerIdentifier locked) in
              match err with
              | Some _ => Ret (None, pool')
              | None => Ret (Some workerIdentifier, MkPool false (impersonationWorkersQueues pool'))
              end
        end
  end.

(** The jobs that are queued, each with its worker, and the number of jobs
    dropped. *)
Fixpoint submit_all {J : Type} (obj_of : J -> option unstructured) (jobs : list J) (pool : WorkerPool)
    : outcome (list (string * J) * nat * WorkerPool) :=
  match jobs with
  | [] => Ret ([], 0, pool)
  | j :: rest =>
      let! (queued, pool1) := Submit (obj_of j) pool in
      let! (js, dropped, pool2) := submit_all obj_of rest pool1 in
      Ret (match queued with
           | Some worker => ((worker, j) :: js, dropped, pool2)
           | None => (js, S dropped, pool2)
           end)
  end.
End Pool.

(** The order in which the workers run the jobs. *)
Class Scheduler := { schedule : forall {A : Type}, list A -> list A }.
Class SchedulerLaws `{Scheduler} : Prop := { schedule_perm {A : Type} (l : list A) : schedule l ≡ₚ l }.

Fixpoint run_jobs {J W : Type} (run : string -> J -> W -> outcome W) (jobs : list (string * J)) (w : W) : outcome W :=
  match jobs with
  | [] => Ret w
  | (worker, j) :: rest => let! w' := run worker j w in run_jobs run rest w'
  end.

(** Submitting the jobs of a bundle and waiting for all of them. *)
Definition submit_and_wait `{Impersonation, Scheduler} {J W : Type} (obj_of : J -> option unstructured)
    (run : string -> J -> W -> outcome W) (jobs : list J) (pool : WorkerPool) (w : W) : outcome (WorkerPool * W) :=
  let! (queued, dropped, pool') := submit_all obj_of jobs pool in
  match dropped with
  | O => let! w' := run_jobs run (schedule queued) w in Ret (pool', w')
  | S _ => Block
  end.

(** ** [syncers/generic_syncer.go] *)
Inductive create_result := Created | AlreadyExists | CreateError (e : goerror).

(** The client of the API server; the first string is the worker, whose client
    acts for its user. *)
Class SpecClient (W : Type) := {
  create_namespace : W -> string -> string -> create_result * W;
  marshal_unstructured : unstructured -> result bytes;
  patch_apply : W -> string -> unstructured -> bytes -> option goerror * W;
  delete_object : W -> string -> unstructured -> option goerror * W;
}.

Definition has_suffix (s suffix : string) : bool :=
  (String.length suffix <=? String.length s)%nat &&
  String.eqb (String.substring (String.length s - String.length suffix) (String.length suffix) s) suffix.
Definition notFoundErrorSuffix : string := "not found".

Inductive generic_job := JUpdate (o : unstructured) | JDelete (o : unstructured).
Definition job_obj (j : generic_job) : option unstructured :=
  match j with JUpdate o => Some o | JDelete o => Some o end.

Definition anonymize (o : unstructured) : unstructured :=
  set_u_annotations o (delete UserGroupsAnnotation (delete UserIdentityAnnotation (u_annotations o))).

(** The fields that are skipped; a [spec] that is not a map panics. *)
Definition skip_fields (o : unstructured) : outcome unstructured :=
  let f1 := delete "bindingOverrides" (u_fields o) in
  let! f2 := (match f1 !! "spec" with
              | None => Ret f1
              | Some (FMap m) => Ret (<["spec" := FMap (delete "spreadPolicy" (delete "decisionStrategy" m))]> f1)
              | Some (FRaw _) => Panic
              end) in
  Ret (set_u_fields o (delete "status" f2)).

Section Generic.
Context {W : Type} `{SpecClient W}.

Definition CreateNamespaceIfNotExist (worker namespace : string) (w : W) : option goerror * W :=
  if String.eqb namespace "" then (None, w)
  else
    match create_namespace w worker namespace with
    | (CreateError e, w') => (Some ("failed to create namespace " +:+ namespace +:+ " - " +:+ e), w')
    | (_, w') => (None, w')
    end.

Definition UpdateObject (worker : string) (o : unstructured) (w : W) : option goerror * W :=
  match marshal_unstructured o with
  | Err e => (Some ("failed to update object - " +:+ e), w)
  | Ok objectBytes =>
      match patch_apply w worker o objectBytes with
      | (Some e, w') => (Some ("failed to update object - " +:+ e), w')
      | (None, w') => (None, w')
      end
  end.

Definition DeleteObject (worker : string) (o : unstructured) (w : W) : bool * option goerror * W :=
  match delete_object w worker o with
  | (Some e, w') =>
      if negb (has_suffix e notFoundErrorSuffix) then (false, Some ("failed to delete object - " +:+ e), w')
      else (false, None, w')
  | (None, w') => (true, None, w')
  end.

(** The handler of a job: errors are logged. *)
Definition run_generic (enforceHohRbac : bool) (worker : string) (j : generic_job) (w : W) : outcome W :=
  match j with
  | JUpdate o =>
      match (if enforceHohRbac then (None, w) else CreateNamespaceIfNotExist worker (u_namespace o) w) with
      | (Some _, w1) => Ret w1
      | (None, w1) => let! o' := skip_fields o in Ret (UpdateObject worker o' w1).2
      end
  | JDelete o => Ret (DeleteObject worker o w).2
  end.

Definition prepare (enforceHohRbac : bool) (o : unstructured) : unstructured :=
  if enforceHohRbac then o else anonymize o.

(** [Sync] of a decoded bundle: its objects and its deleted objects. *)
Definition generic_Sync `{Impersonation, Scheduler} (enforceHohRbac : bool)
    (decoded : result (list unstructured * list unstructured)) (pool : WorkerPool) (w : W)
    : outcome (option goerror * WorkerPool * W) :=
  match decoded with
  | Err e => Ret (Some e, pool, w)
  | Ok (objects, deletedObjects) =>
      let! (pool', w') := submit_and_wait job_obj (run_generic enforceHohRbac)
        ((JUpdate ∘ prepare enforceHohRbac <$> objects) ++ (JDelete ∘ prepare enforceHohRbac <$> deletedObjects))
        pool w in
      Ret (None, pool', w')
  end.

(** [json.Unmarshal] of the bundle. *)
Class BundleCodec := { unmarshal_bundle : bytes -> result (list unstructured * list unstructured) }.

(** The syncer that is registered, on the pool and the server. *)
Definition generic_syncer `{Impersonation, Scheduler, BundleCodec} (enforceHohRbac : bool) (payload : bytes)
    (s : WorkerPool * W) : outcome (option goerror * (WorkerPool * W)) :=
  let! (err, pool, w) := generic_Sync enforceHohRbac (unmarshal_bundle payload) s.1 s.2 in Ret (err, (pool, w)).
End Generic.

(** ** [syncers/clusterlabel_syncer.go] *)
Definition hohFieldManager : string := "mgh-agent".

(** The last processed update of each cluster; the time of a cluster that is not
    there is the zero time. *)
Notation Stamps := (gmap string Z).
Definition zero_stamp : Z := 0.
Definition stamp_of (stamps : Stamps) (name : string) : Z := default zero_stamp (stamps !! name).

(** The entries of the managed fields are represented by their managers: the
    entry of [mgh-agent] is replaced where it is, or appended. *)
Definition updateManagedFieldEntry (entries : list string) : list string :=
  match find_index (String.eqb hohFieldManager) entries with
  | Some i => <[i := hohFieldManager]> entries
  | None => entries ++ [hohFieldManager]
  end.

Definition set_managed_fields (o : Object) (l : list string) : Object :=
  MkObject (UID o) (Namespace o) (Name o) (Generation_ o) (ResourceVersion o) (CreationTimestamp o)
    (DeletionTimestamp o) (Labels o) (Annotations o) (Finalizers o) (OwnerReferences o) l
    (SelfLink o) (obj_body o).

(** The labels of the spec are set, then the deleted keys are removed. *)
Definition apply_labels (spec : ManagedClusterLabelsSpec) (labels : gmap string string) : gmap string string :=
  fold_left (fun m k => delete k m) (mls_DeletedLabelKeys spec) (mls_Labels spec ∪ labels).

Section Labels.
Context {W : Type} `{KubeClient W}.

Definition run_labels (worker : string) (spec : ManagedClusterLabelsSpec) (s : W * Stamps)
    : outcome (W * Stamps) :=
  let '(w, stamps) := s in
  let marked := <[mls_ClusterName spec := mls_UpdateTimestamp spec]> stamps in
  match kget w ManagedClusterKind "" (mls_ClusterName spec) with
  | NotFound => Ret (w, marked)
  | GetError _ => Ret (w, stamps)
  | Found o =>
      let o' := set_managed_fields (set_labels o (apply_labels spec (Labels o)))
                  (updateManagedFieldEntry (ManagedFields o)) in
      match kupdate w o' with
      | (Some _, _, w') => Ret (w', stamps)
      | (None, _, w') => Ret (w', marked)
      end
  end.

(** The loop of [handleBundle]: the specs that are newer than what was
    processed. *)
Definition due_spec (stamps : Stamps) (spec : ManagedClusterLabelsSpec) : bool :=
  (stamp_of stamps (mls_ClusterName spec) <? mls_UpdateTimestamp spec)%Z.

Definition labels_Sync `{Impersonation, Scheduler} (decoded : result ManagedClusterLabelsSpecBundle)
    (pool : WorkerPool) (s : W * Stamps) : outcome (option goerror * WorkerPool * (W * Stamps)) :=
  match decoded with
  | Err e => Ret (Some e, pool, s)
  | Ok bundle =>
      let! (pool', s') := submit_and_wait (fun _ => None) run_labels
        (filter (fun spec => due_spec s.2 spec = true) (mlb_Objects bundle)) pool s in
      Ret (None, pool', s')
  end.
End Labels.

(** ** [dispatcher.go] and [spec.go] *)
Section Dispatcher.
Context {Event S : Type} `{EventSDK Event} `{Retrier}.

(** [Sync] of a syncer, on the state of the agent. *)
Notation Syncer := (bytes -> S -> outcome (option goerror * S)).

(** A call that does not return is not called again. *)
Definition sync_once (syncer : Syncer) (data : bytes) (s : outcome S) : option goerror * outcome S :=
  match s with
  | Ret s0 =>
      match syncer data s0 with
      | Ret (err, s1) => (err, Ret s1)
      | Panic => (None, Panic)
      | Block => (None, Block)
      | Diverge => (None, Diverge)
      end
  | stuck => (None, stuck)
  end.

(** One event; [None] is a nil event. *)
Definition dispatch (leafHubName : string) (syncers : gmap string Syncer) (evt : option Event) (s : S) : outcome S :=
  match evt with
  | None => Panic
  | Some e =>
      match Extensions e !! CloudEventExtensionKeyClusterName with
      | Some (ExtString clusterName) =>
          if negb (String.eqb clusterName Broadcast) && negb (String.eqb clusterName leafHubName) then Ret s
          else
            let syncer := match syncers !! Type_ e with
                          | Some sy => Some sy
                          | None => syncers !! GenericSpecMsgKey
                          end in
            match syncer with
            | None => Ret s
            | Some sy => (retry_on_conflict (sync_once sy (Data e)) (Ret s)).2
            end
      | _ => Ret s
      end
  end.

Fixpoint dispatch_all (leafHubName : string) (syncers : gmap string Syncer) (evts : list (option Event)) (s : S)
    : outcome S :=
  match evts with
  | [] => Ret s
  | e :: rest => let! s' := dispatch leafHubName syncers e s in dispatch_all leafHubName syncers rest s'
  end.

Definition RegisterSyncer (messageID : string) (syncer : Syncer) (syncers : gmap string Syncer) : gmap string Syncer :=
  <[messageID := syncer]> syncers.

(** The syncers that [AddToManager] registers. *)
Definition AddToManager (enableGlobalResource : bool) (generic labels migrationFrom migrationTo resync_ : Syncer)
    : gmap string Syncer :=
  let m0 := if enableGlobalResource
            then RegisterSyncer ManagedClustersLabelsMsgKey labels (RegisterSyncer GenericSpecMsgKey generic ∅)
            else ∅ in
  RegisterSyncer ResyncMsgKey resync_
    (RegisterSyncer CloudEventTypeMigrationTo migrationTo (RegisterSyncer CloudEventTypeMigrationFrom migrationFrom m0)).
End Dispatcher.
