(* ===== verification/SpecAgentFacts.v ===== *)
(** * Properties of the specs the agent applies

    Which jobs are dropped, when a syncer returns, and what the server holds
    after a bundle. *)

From stdpp Require Import prelude gmap strings list.
From Stdlib Require Import ZArith Lia Ascii.
From S2P Require Import Prelude.
From S2P Require Import GoLib.
From S2P Require Import Base64.
From S2P Require Import CloudEvents.
From S2P Require Import Libraries.
From S2P Require Import SpecTransport.
From S2P Require Import KubeObjects.
From S2P Require Import SpecAgent.
Local Open Scope string_scope.
Local Open Scope list_scope.

(** ** Submitting *)

(** A call that returns a result with the property, or never returns. *)
Definition ret_or_block {A} (m : outcome A) (Q : A -> Prop) : Prop :=
  match m with Ret a => Q a | Block => True | _ => False end.

Lemma ret_or_block_bind {A B} (m : outcome A) (k : A -> outcome B) (Q : A -> Prop) (R : B -> Prop) :
  ret_or_block m Q -> (forall a, Q a -> ret_or_block (k a) R) -> ret_or_block (obind m k) R.
Proof. destruct m; simpl; auto. Qed.

Section Pool.
Context `{Impersonation}.

(** The identity of a job is not decodable. *)
Definition undecodable (obj : option unstructured) : Prop := exists e, GetUserIdentity obj = Err e.

Lemma Submit_no_identity obj pool :
  GetUserIdentity obj = Ok NoIdentity -> Submit obj pool = Ret (Some controller_worker, pool).
Proof. unfold Submit. by intros ->. Qed.

Lemma Submit_undecodable obj pool : undecodable obj -> Submit obj pool = Ret (None, pool).
Proof. unfold Submit. by intros [e ->]. Qed.

(** A worker that cannot be created leaves the lock held: the next job of a user
    blocks its submission. *)
Lemma failed_impersonation_keeps_the_lock obj obj' pool user groups64 groups user' groups' e :
  GetUserIdentity obj = Ok user -> user <> NoIdentity -> GetUserGroups obj = Ok (groups64, groups) ->
  Impersonate user groups = Some e -> user +:+ "." +:+ groups64 ∉ impersonationWorkersQueues pool ->
  impersonationWorkersLock pool = false ->
  GetUserIdentity obj' = Ok user' -> user' <> NoIdentity -> GetUserGroups obj' = Ok groups' ->
  exists pool', Submit obj pool = Ret (None, pool') /\ Submit obj' pool' = Block.
Proof.
  intros Hu Hne Hg Hi Hq Hl Hu' Hne' Hg'. exists (MkPool true (impersonationWorkersQueues pool)). unfold Submit.
  rewrite Hu, Hg, Hl, Hu', Hg', bool_decide_false by done. unfold createUserWorker. rewrite Hi.
  destruct (String.eqb_spec user NoIdentity); [done|]. destruct (String.eqb_spec user' NoIdentity); [done|].
  by destruct groups'.
Qed.

Lemma submit_all_no_identity {J} (obj_of : J -> option unstructured) jobs pool :
  (forall j, j ∈ jobs -> GetUserIdentity (obj_of j) = Ok NoIdentity) ->
  submit_all obj_of jobs pool = Ret ((fun j => (controller_worker, j)) <$> jobs, 0, pool).
Proof.
  induction jobs as [|j jobs IH]; simpl; intros Hj; [done|].
  rewrite Submit_no_identity by (apply Hj; left). simpl. rewrite IH by (intros; apply Hj; by right). done.
Qed.

Lemma Submit_shape obj pool : ret_or_block (Submit obj pool) (fun _ => True).
Proof. unfold Submit, ret_or_block. repeat case_goal; done. Qed.

Lemma submit_all_undecodable {J} (obj_of : J -> option unstructured) jobs pool :
  ret_or_block (submit_all obj_of jobs pool)
    (fun r => (exists j, j ∈ jobs /\ undecodable (obj_of j)) -> r.1.2 <> 0).
Proof.
  revert pool. induction jobs as [|j jobs IH]; intros pool; simpl; [by intros (j & ?%not_elem_of_nil & _)|].
  assert (Hb : ret_or_block (Submit (obj_of j) pool) (fun r => undecodable (obj_of j) -> r.1 = None)).
  { pose proof (Submit_shape (obj_of j) pool) as Hs. destruct (Submit (obj_of j) pool) as [r| | |] eqn:E; try done.
    intros Hj. rewrite Submit_undecodable in E by done. by injection E as <-. }
  eapply ret_or_block_bind; [exact Hb|]. intros [q pool1] Hq. simpl in *.
  eapply ret_or_block_bind; [apply (IH pool1)|]. intros [[js dropped] pool2] Hd. simpl in *.
  intros (j' & [->|Hin]%elem_of_cons & Hj').
  - by rewrite (Hq Hj').
  - destruct q; simpl; [|done]. apply Hd. eauto.
Qed.
End Pool.

(** ** A syncer that waits for ever *)
Section Stuck.
Context {Event S : Type} `{EventSDK Event} `{RetrierLaws}.

(** The syncer an event is dispatched to. *)
Definition addressed (leafHubName : string) (e : Event) : Prop :=
  exists n, Extensions e !! CloudEventExtensionKeyClusterName = Some (ExtString n) /\ (n = Broadcast \/ n = leafHubName).
Definition syncer_for {A} (syncers : gmap string A) (e : Event) : option A :=
  match syncers !! Type_ e with Some sy => Some sy | None => syncers !! GenericSpecMsgKey end.

Lemma dispatch_addressed leafHubName (syncers : gmap string (bytes -> S -> outcome (option goerror * S))) e s sy :
  addressed leafHubName e -> syncer_for syncers e = Some sy ->
  dispatch leafHubName syncers (Some e) s = (retry_on_conflict (sync_once sy (Data e)) (Ret s)).2.
Proof.
  intros (n & Hx & Hn) Hsy. unfold dispatch. unfold syncer_for in Hsy. rewrite Hx, Hsy.
  destruct (String.eqb_spec n Broadcast), (String.eqb_spec n leafHubName); simpl; try done. tauto.
Qed.

Lemma dispatch_Block leafHubName (syncers : gmap string (bytes -> S -> outcome (option goerror * S))) e s sy :
  addressed leafHubName e -> syncer_for syncers e = Some sy -> sy (Data e) s = Block ->
  dispatch leafHubName syncers (Some e) s = Block.
Proof.
  intros Ha Hsy Hb. rewrite (dispatch_addressed _ _ _ _ sy) by done.
  pose proof (retry_spec (sync_once sy (Data e)) (Ret s)) as Hr.
  destruct (retry_on_conflict (sync_once sy (Data e)) (Ret s)) as [r x]. simpl in *.
  inversion Hr as [? ? ? E|? err ? ? ? E]; subst; unfold sync_once in E; rewrite Hb in E; congruence.
Qed.

(** A syncer that returns without an error is called once. *)
Lemma dispatch_Ret leafHubName (syncers : gmap string (bytes -> S -> outcome (option goerror * S))) e s s' sy :
  addressed leafHubName e -> syncer_for syncers e = Some sy -> sy (Data e) s = Ret (None, s') ->
  dispatch leafHubName syncers (Some e) s = Ret s'.
Proof.
  intros Ha Hsy Hb. rewrite (dispatch_addressed _ _ _ _ sy) by done.
  pose proof (retry_spec (sync_once sy (Data e)) (Ret s)) as Hr.
  destruct (retry_on_conflict (sync_once sy (Data e)) (Ret s)) as [r x]. simpl in *.
  inversion Hr as [? ? ? E|? err ? ? ? E]; subst; unfold sync_once in E; rewrite Hb in E; congruence.
Qed.
End Stuck.

Section Generic.
Context {Event W : Type} `{EventSDK Event} `{RetrierLaws} `{SpecClient W} `{Impersonation} `{SchedulerLaws} `{BundleCodec}.

Lemma Sync_undecodable objects deleted pool (w : W) :
  (exists o, o ∈ objects ++ deleted /\ undecodable (Some o)) ->
  generic_Sync true (Ok (objects, deleted)) pool w = Block.
Proof.
  intros (o & Hin & Hu). unfold generic_Sync, submit_and_wait, prepare.
  set (jobs := _ ++ _).
  pose proof (submit_all_undecodable job_obj jobs pool) as Hs.
  destruct (submit_all job_obj jobs pool) as [[[js dropped] pool']| | |]; simpl in *; try done.
  destruct dropped; [|done]. destruct Hs; [|done]. unfold jobs.
  apply elem_of_app in Hin as [Hin|Hin]; [exists (JUpdate o)|exists (JDelete o)]; (split; [|done]);
    apply elem_of_app; [left|right]; by apply (list_elem_of_fmap_2 (_ ∘ _)).
Qed.

(** C39: with the RBAC of the hub of hubs enforced, an object whose identity annotation is not base64 stops the agent: the syncer of its bundle waits for a job that is never run, and no later event, of any type, is handled. *)
Theorem undecodable_identity_stops_the_agent leafHubName syncers (e : Event) rest pool (w : W) objects deleted o :
  addressed leafHubName e -> syncer_for syncers e = Some (generic_syncer true) ->
  unmarshal_bundle (Data e) = Ok (objects, deleted) ->
  o ∈ objects ++ deleted -> undecodable (Some o) ->
  dispatch_all leafHubName syncers (Some e :: rest) (pool, w) = Block.
Proof.
  intros Ha Hs Hd Hin Hu. cbn [dispatch_all]. erewrite (dispatch_Block _ _ _ _ (generic_syncer true)); [done..|].
  unfold generic_syncer. simpl. rewrite Hd. rewrite Sync_undecodable; eauto.
Qed.
End Generic.

(** ** Jobs with an effect on one key *)
Section LocalJobs.
Context {J W K V : Type} (get : W -> K -> V) (job_key : J -> K) (effect : J -> V -> V -> Prop).
Context (run : string -> J -> W -> outcome W) (ok : J -> Prop).
Context (run_local : forall worker j w, ok j -> exists w', run worker j w = Ret w' /\
  effect j (get w (job_key j)) (get w' (job_key j)) /\ forall k, k <> job_key j -> get w' k = get w k).

Lemma run_jobs_local jobs w :
  Forall ok jobs.*2 -> NoDup (job_key <$> jobs.*2) ->
  exists w', run_jobs run jobs w = Ret w' /\
    (forall j, j ∈ jobs.*2 -> effect j (get w (job_key j)) (get w' (job_key j))) /\
    (forall k, k ∉ job_key <$> jobs.*2 -> get w' k = get w k).
Proof using run_local.
  revert w. induction jobs as [|[wk j] jobs IH]; intros w; simpl.
  - intros _ _. exists w. split; [done|]. split; [by intros j ?%not_elem_of_nil|done].
  - intros [Hj Hok]%Forall_cons [Hn Hnd]%NoDup_cons.
    destruct (run_local wk j w Hj) as (w1 & -> & He & Hk). simpl.
    destruct (IH w1 Hok Hnd) as (w2 & -> & He2 & Hk2). exists w2. split; [done|]. split.
    + intros j' [->|Hin]%elem_of_cons; [by rewrite Hk2|].
      assert (job_key j' <> job_key j) by (intros E; destruct Hn; rewrite <- E; by apply list_elem_of_fmap_2).
      rewrite <- (Hk (job_key j')) by done. auto.
    + intros k Hkn. rewrite Hk2 by (intros Hin; destruct Hkn; by right). apply Hk.
      intros ->. destruct Hkn. left.
Qed.

(** A bundle whose jobs carry no identity is processed, in whatever order. *)
Lemma submit_and_wait_local `{Impersonation, SchedulerLaws} (obj_of : J -> option unstructured) jobs pool w :
  (forall j, j ∈ jobs -> GetUserIdentity (obj_of j) = Ok NoIdentity) ->
  Forall ok jobs -> NoDup (job_key <$> jobs) ->
  exists w', submit_and_wait obj_of run jobs pool w = Ret (pool, w') /\
    (forall j, j ∈ jobs -> effect j (get w (job_key j)) (get w' (job_key j))) /\
    (forall k, k ∉ job_key <$> jobs -> get w' k = get w k).
Proof using run_local.
  intros Hid Hok Hnd. unfold submit_and_wait. rewrite submit_all_no_identity by done. simpl.
  set (queued := (fun j => (controller_worker, j)) <$> jobs).
  assert (Hq : (schedule queued).*2 ≡ₚ jobs).
  { rewrite (schedule_perm queued). unfold queued. rewrite <- list_fmap_compose.
    by rewrite (list_fmap_ext _ id jobs), list_fmap_id by done. }
  destruct (run_jobs_local (schedule queued) w) as (w' & -> & He & Hk).
  - by rewrite Hq.
  - by rewrite Hq.
  - exists w'. split; [done|]. split; [intros j Hj; apply He; by rewrite Hq|].
    intros k Hk'. apply Hk. by rewrite Hq.
Qed.
End LocalJobs.

(** ** The labels of the managed clusters *)

(** The labels of the clusters on the server. *)
Class LabelServer (W : Type) `{KubeClient W} := {
  cluster_labels : W -> gmap string (gmap string string);
  get_labels w n o : kget w ManagedClusterKind "" n = Found o ->
    Name o = n /\ is_Some (cluster_labels w !! n) /\ cluster_labels w !! n = Some (Labels o);
  get_absent w n : kget w ManagedClusterKind "" n = NotFound -> cluster_labels w !! n = None;
  update_labels w n o l fs o' w' : kget w ManagedClusterKind "" n = Found o ->
    kupdate w (set_managed_fields (set_labels o l) fs) = (None, o', w') ->
    cluster_labels w' = <[n := l]> (cluster_labels w);
  update_refused w n o l fs e o' w' : kget w ManagedClusterKind "" n = Found o ->
    kupdate w (set_managed_fields (set_labels o l) fs) = (Some e, o', w') ->
    cluster_labels w' = cluster_labels w;
}.

Lemma apply_labels_lookup spec m k :
  apply_labels spec m !! k =
    if decide (k ∈ mls_DeletedLabelKeys spec) then None
    else match mls_Labels spec !! k with Some v => Some v | None => m !! k end.
Proof.
  unfold apply_labels.
  assert (Hf : forall l (m : gmap string string),
    fold_left (fun m k => delete k m) l m !! k = if decide (k ∈ l) then None else m !! k).
  { induction l as [|x l IH]; intros m'; [case_decide; set_solver|]. cbn [fold_left]. rewrite IH.
    destruct (decide (k = x)) as [->|Hne]; [rewrite lookup_delete_eq|rewrite lookup_delete_ne by done];
      repeat case_decide; try done; exfalso; set_solver. }
  rewrite Hf. case_decide; [done|]. rewrite lookup_union. by destruct (mls_Labels spec !! k), (m !! k).
Qed.

Section Labels.
Context {W : Type} `{LabelServer W} `{Impersonation} `{SchedulerLaws}.

(** What the server and the syncer hold of a cluster. *)
Definition label_state (s : W * Stamps) (n : string) : option (gmap string string) * option Z :=
  (cluster_labels s.1 !! n, s.2 !! n).

Definition label_after (spec : ManagedClusterLabelsSpec) (m : gmap string string) (k : string) : option string :=
  if decide (k ∈ mls_DeletedLabelKeys spec) then None
  else match mls_Labels spec !! k with Some v => Some v | None => m !! k end.

Definition handled (spec : ManagedClusterLabelsSpec) (v v' : option (gmap string string) * option Z) : Prop :=
  v'.2 = Some (mls_UpdateTimestamp spec) /\
  match v.1, v'.1 with
  | Some m, Some m' => forall k, m' !! k = label_after spec m k
  | None, None => True
  | _, _ => False
  end.

(** Every call of the server succeeds. *)
Definition reliable : Prop :=
  (forall w n e, kget w ManagedClusterKind "" n <> GetError e) /\ forall w o e o' w', kupdate w o <> (Some e, o', w').

Lemma run_labels_local worker spec (s : W * Stamps) :
  exists s', run_labels worker spec s = Ret s' /\
    (handled spec (label_state s (mls_ClusterName spec)) (label_state s' (mls_ClusterName spec)) \/
     label_state s' (mls_ClusterName spec) = label_state s (mls_ClusterName spec) /\ ~ reliable) /\
    forall n, n <> mls_ClusterName spec -> label_state s' n = label_state s n.
Proof.
  destruct s as [w stamps]. unfold run_labels, handled, label_state. set (n := mls_ClusterName spec). simpl.
  destruct (kget w ManagedClusterKind "" n) as [o| |e] eqn:Eg.
  - destruct (kupdate w _) as [[[e|] o'] w'] eqn:Eu.
    + eexists; split; [done|]. simpl. rewrite (update_refused _ _ _ _ _ _ _ _ Eg Eu). split; [|done].
      right. split; [done|]. intros [_ Hr]. by eapply Hr.
    + eexists; split; [done|]. simpl. rewrite (update_labels _ _ _ _ _ _ _ Eg Eu).
      destruct (get_labels _ _ _ Eg) as (_ & _ & ->). split.
      * left. simpl. rewrite !lookup_insert_eq. split; [done|]. intros k. apply apply_labels_lookup.
      * intros m Hm. by rewrite !lookup_insert_ne.
  - eexists; split; [done|]. simpl. rewrite (get_absent _ _ Eg). split.
    + left. by rewrite lookup_insert_eq.
    + intros m Hm. by rewrite lookup_insert_ne.
  - eexists; split; [done|]. split; [|done]. right. split; [done|]. intros [Hr _]. by eapply Hr.
Qed.

Lemma labels_Sync_spec bundle pool (s : W * Stamps) :
  NoDup (mls_ClusterName <$> mlb_Objects bundle) ->
  exists s', labels_Sync (Ok bundle) pool s = Ret (None, pool, s') /\
    forall n, match list_find (fun spec => mls_ClusterName spec = n /\ due_spec s.2 spec = true) (mlb_Objects bundle) with
      | Some (_, spec) =>
          handled spec (label_state s n) (label_state s' n) \/ (label_state s' n = label_state s n /\ ~ reliable)
      | None => label_state s' n = label_state s n
      end.
Proof.
  intros Hnd. unfold labels_Sync. set (due := filter _ _).
  destruct (submit_and_wait_local label_state mls_ClusterName
    (fun spec v v' => handled spec v v' \/ (v' = v /\ ~ reliable)) run_labels (fun _ => True)
    (fun wk j w _ => run_labels_local wk j w) (fun _ => None) due pool s) as (s' & -> & He & Hk).
  - done.
  - by apply Forall_true.
  - unfold due. eapply sublist_NoDup; [exact Hnd|]. apply fmap_sublist, sublist_filter.
  - simpl. exists s'. split; [done|]. intros n.
    destruct (list_find _ _) as [[i spec]|] eqn:Ef.
    + apply list_find_Some in Ef as (Hi & (<- & Hd) & _).
      apply He. unfold due. rewrite list_elem_of_filter. split; [done|]. by eapply list_elem_of_lookup_2.
    + apply Hk. intros (spec & -> & Hin)%list_elem_of_fmap. unfold due in Hin.
      apply list_elem_of_filter in Hin as [Hd Hin]. rewrite list_find_None, Forall_forall in Ef. by eapply Ef.
Qed.

(** The label syncer always returns; each spec of a bundle without repetition that is newer than what was processed for its cluster is either handled (the server holds the labels of the spec and none of its deleted keys, the other labels are as before, and the update is recorded) or, when the server fails, left as it was, to be handled when it is received again; nothing else changes. *)
Theorem label_bundle_is_applied bundle pool (s : W * Stamps) :
  NoDup (mls_ClusterName <$> mlb_Objects bundle) ->
  exists s', labels_Sync (Ok bundle) pool s = Ret (None, pool, s') /\
    forall n, match list_find (fun spec => mls_ClusterName spec = n /\ due_spec s.2 spec = true) (mlb_Objects bundle) with
      | Some (_, spec) =>
          handled spec (label_state s n) (label_state s' n) \/ (label_state s' n = label_state s n /\ ~ reliable)
      | None => label_state s' n = label_state s n
      end.
Proof. apply labels_Sync_spec. Qed.
End Labels.

(** ** The generic bundles *)
Definition object_key (o : unstructured) : string * string * string := (u_kind o, u_namespace o, u_name o).

(** What an accepted deletion leaves of an object: one with finalizers gets a
    deletion timestamp. *)
Definition marked_object (o : unstructured) : option unstructured :=
  match u_finalizers o with
  | [] => None
  | fs => Some (MkUnstructured (u_kind o) (u_namespace o) (u_name o) (u_uid o) (u_labels o) (u_annotations o) fs true (u_fields o))
  end.

(** The objects of the server; [applied] is the result of a server-side apply. *)
Class SpecServer (W : Type) `{SpecClient W} := {
  spec_objects : W -> gmap (string * string * string) unstructured;
  applied : option unstructured -> unstructured -> unstructured;
  namespace_objects w k n r w' : create_namespace w k n = (r, w') -> spec_objects w' = spec_objects w;
  patch_objects w k o b w' : patch_apply w k o b = (None, w') ->
    spec_objects w' = <[object_key o := applied (spec_objects w !! object_key o) o]> (spec_objects w);
  patch_refused w k o b e w' : patch_apply w k o b = (Some e, w') -> spec_objects w' = spec_objects w;
  delete_objects w k o w' : delete_object w k o = (None, w') ->
    spec_objects w' = partial_alter (fun v => v ≫= marked_object) (object_key o) (spec_objects w);
  delete_refused w k o e w' : delete_object w k o = (Some e, w') -> spec_objects w' = spec_objects w;
}.

Section GenericBundles.
Context {W : Type} `{SpecServer W} `{Impersonation} `{SchedulerLaws}.

(** An object whose [spec] is a map, or that has none. *)
Definition spec_is_map (o : unstructured) : Prop :=
  match delete "bindingOverrides" (u_fields o) !! "spec" with Some (FRaw _) => False | _ => True end.

(** What is sent of an object: without the identity of a user, the deprecated
    fields and the status. *)
Definition sent_object (o : unstructured) : unstructured :=
  match skip_fields (anonymize o) with Ret o' => o' | _ => o end.

Definition job_object (j : generic_job) : unstructured := match j with JUpdate o => o | JDelete o => o end.

(** Every call of the server succeeds, except the deletion of an absent object. *)
Definition reliable_server : Prop :=
  (forall w k n e, (create_namespace w k n).1 <> CreateError e) /\
  (forall o, exists b, marshal_unstructured o = Ok b) /\
  (forall w k o b, (patch_apply w k o b).1 = None) /\
  (forall w k o e w', delete_object w k o = (Some e, w') -> spec_objects w !! object_key o = None).

Definition job_effect (j : generic_job) (v v' : option unstructured) : Prop :=
  match j with
  | JUpdate o => forall o', skip_fields o = Ret o' -> v' = Some (applied v o')
  | JDelete _ => v' = v ≫= marked_object
  end.

Lemma skip_fields_Ret o : spec_is_map o -> exists o', skip_fields o = Ret o' /\ object_key o' = object_key o.
Proof.
  unfold spec_is_map, skip_fields. destruct (_ !! "spec") as [[m|r]|]; [|done|]; intros _; by eexists.
Qed.

Lemma run_generic_local worker j w :
  spec_is_map (job_object j) ->
  exists w', run_generic false worker j w = Ret w' /\
    (job_effect j (spec_objects w !! object_key (job_object j)) (spec_objects w' !! object_key (job_object j)) \/
     (spec_objects w' !! object_key (job_object j) = spec_objects w !! object_key (job_object j) /\ ~ reliable_server)) /\
    forall k, k <> object_key (job_object j) -> spec_objects w' !! k = spec_objects w !! k.
Proof.
  destruct j as [o|o]; simpl; intros Hm.
  - assert (Hns : exists err w1, CreateNamespaceIfNotExist worker (u_namespace o) w = (err, w1) /\
        spec_objects w1 = spec_objects w /\ (is_Some err -> ~ reliable_server)).
    { unfold CreateNamespaceIfNotExist. destruct (String.eqb _ _); [by do 2 eexists; split; [|split; [|intros [??]]]|].
      destruct (create_namespace w worker (u_namespace o)) as [r w1] eqn:Ec.
      pose proof (namespace_objects _ _ _ _ _ Ec) as Hw.
      destruct r as [| |e]; do 2 eexists; (split; [done|]); (split; [done|]); [by intros [??]..|].
      intros _ (Hr & _). apply (Hr w worker (u_namespace o) e). by rewrite Ec. }
    destruct Hns as (err & w1 & -> & Hw1 & Herr). destruct err as [e|].
    { eexists; split; [done|]. rewrite Hw1. split; [|done]. right. split; [done|]. apply Herr. eauto. }
    destruct (skip_fields_Ret o Hm) as (o' & Hsk & Hk). rewrite Hsk. simpl. eexists; split; [done|].
    unfold UpdateObject. destruct (marshal_unstructured o') as [b|e] eqn:Eb; simpl.
    2:{ rewrite Hw1. split; [|done]. right. split; [done|]. intros (_ & Hr & _). destruct (Hr o'). congruence. }
    destruct (patch_apply w1 worker o' b) as [[e|] w2] eqn:Ep; simpl.
    + rewrite (patch_refused _ _ _ _ _ _ Ep), Hw1. split; [|done]. right. split; [done|].
      intros (_ & _ & Hr & _). specialize (Hr w1 worker o' b). rewrite Ep in Hr. done.
    + rewrite (patch_objects _ _ _ _ _ Ep), Hw1, Hk. split.
      * left. intros o2 [= <-]. by rewrite lookup_insert_eq.
      * intros k Hne. by rewrite lookup_insert_ne.
  - eexists; split; [done|]. unfold DeleteObject. destruct (delete_object w worker o) as [[e|] w'] eqn:Ed.
    + assert (Hw : forall b, (if b : bool then (false, Some ("failed to delete object - " +:+ e), w')
          else (false, None, w')).2 = w') by (by intros []).
      rewrite Hw, (delete_refused _ _ _ _ _ Ed). split; [|done].
      destruct (spec_objects w !! object_key o) eqn:El; [right|by left]. split; [done|].
      intros (_ & _ & _ & Hr). rewrite (Hr _ _ _ _ _ Ed) in El. done.
    + simpl. rewrite (delete_objects _ _ _ _ Ed). split; [left; apply lookup_partial_alter_eq|].
      intros k Hne. by rewrite lookup_partial_alter_ne.
Qed.

Lemma generic_Sync_spec objects deleted pool (w : W) :
  NoDup (object_key <$> objects ++ deleted) -> Forall spec_is_map (objects ++ deleted) ->
  exists w', generic_Sync false (Ok (objects, deleted)) pool w = Ret (None, pool, w') /\
    (forall k, k ∉ object_key <$> objects ++ deleted -> spec_objects w' !! k = spec_objects w !! k) /\
    (reliable_server ->
      (forall o, o ∈ objects ->
        spec_objects w' !! object_key o = Some (applied (spec_objects w !! object_key o) (sent_object o))) /\
      (forall o, o ∈ deleted -> spec_objects w' !! object_key o = spec_objects w !! object_key o ≫= marked_object)).
Proof.
  intros Hnd Hmap. unfold generic_Sync. set (jobs := _ ++ _).
  assert (Hkeys : object_key <$> (job_object <$> jobs) = object_key <$> objects ++ deleted).
  { unfold jobs. rewrite !fmap_app, <- !list_fmap_compose. done. }
  destruct (submit_and_wait_local (fun w k => spec_objects w !! k) (object_key ∘ job_object)
    (fun j v v' => job_effect j v v' \/ (v' = v /\ ~ reliable_server)) (run_generic false) (spec_is_map ∘ job_object)
    run_generic_local job_obj jobs pool w) as (w' & -> & He & Hk).
  - intros j Hj. assert (Ha : exists o, job_obj j = Some (anonymize o)).
    { unfold jobs in Hj. apply elem_of_app in Hj as [Hj|Hj];
        apply list_elem_of_fmap in Hj as (o & -> & _); by exists o. }
    destruct Ha as [o ->]. unfold GetUserIdentity, decodeBase64IdentityAnnotation. simpl.
    by rewrite lookup_delete_ne, lookup_delete_eq.
  - unfold jobs. rewrite Forall_app, !Forall_fmap. rewrite Forall_app in Hmap. done.
  - rewrite list_fmap_compose, Hkeys. done.
  - simpl. exists w'. split; [done|]. rewrite list_fmap_compose, Hkeys in Hk. split; [done|].
    intros Hr. split; intros o Ho.
    + destruct (He (JUpdate (anonymize o))) as [Hj|[_ Hn]]; [|simpl in Hj|done].
      * unfold jobs. apply elem_of_app. left. by apply (list_elem_of_fmap_2 (JUpdate ∘ anonymize)).
      * assert (Hm : spec_is_map (anonymize o)).
        { rewrite Forall_forall in Hmap. change (spec_is_map o). apply Hmap. apply elem_of_app. by left. }
        destruct (skip_fields_Ret _ Hm) as (o' & Hs & _). unfold sent_object. rewrite Hs. by apply Hj.
    + destruct (He (JDelete (anonymize o))) as [Hj|[_ Hn]]; [|done|done].
      unfold jobs. apply elem_of_app. right. by apply (list_elem_of_fmap_2 (JDelete ∘ anonymize)).
Qed.

(** Without the RBAC of the hub of hubs, a bundle of objects with distinct keys whose specs are maps is always processed to its end, whoever its objects name as their users: on a server that accepts the calls, each object of the bundle is applied without the identity of a user, its status and the deprecated fields, each deleted object is gone or, when it has finalizers, being deleted, and no other object changes. *)
Theorem generic_bundle_is_applied objects deleted pool (w : W) :
  NoDup (object_key <$> objects ++ deleted) -> Forall spec_is_map (objects ++ deleted) ->
  exists w', generic_Sync false (Ok (objects, deleted)) pool w = Ret (None, pool, w') /\
    (forall k, k ∉ object_key <$> objects ++ deleted -> spec_objects w' !! k = spec_objects w !! k) /\
    (reliable_server ->
      (forall o, o ∈ objects ->
        spec_objects w' !! object_key o = Some (applied (spec_objects w !! object_key o) (sent_object o))) /\
      (forall o, o ∈ deleted -> spec_objects w' !! object_key o = spec_objects w !! object_key o ≫= marked_object)).
Proof. apply generic_Sync_spec. Qed.
End GenericBundles.

(** ** Witnesses *)
Module Sample.
#[local] Instance no_failure : Impersonation := {| Impersonate _ _ := None |}.
#[local] Instance in_order : Scheduler := {| schedule A l := rev l |}.
#[local] Instance in_order_laws : SchedulerLaws.
Proof. split. intros. simpl. symmetry. apply Permutation_rev. Defined.
#[local] Instance retrier : Retrier := retrier_of 4 (fun _ => false).
#[local] Instance retrier_laws : RetrierLaws := retrier_of_laws 4 (fun _ => false).

(** A server that is a map of objects. *)
#[local] Instance map_client : SpecClient (gmap (string * string * string) unstructured) := {|
  create_namespace w _ _ := (AlreadyExists, w);
  marshal_unstructured _ := Ok [];
  patch_apply w _ o _ := (None, <[object_key o := o]> w);
  delete_object w _ o :=
    match w !! object_key o with
    | Some _ => (None, partial_alter (fun v => v ≫= marked_object) (object_key o) w)
    | None => (Some "not found", w) end;
|}.
#[local] Program Instance map_server : SpecServer (gmap (string * string * string) unstructured) :=
  {| spec_objects w := w; applied _ o := o |}.
Next Obligation. by intros ????? [= _ <-]. Qed.
Next Obligation. by intros ????? [= <-]. Qed.
Next Obligation. by intros. Qed.
Next Obligation. intros w k o w'. simpl. destruct (w !! _); [|done]. by intros [= <-]. Qed.
Next Obligation. intros w k o e w'. simpl. destruct (w !! _); [done|]. by intros [= _ <-]. Qed.

Lemma map_server_reliable : reliable_server (W := gmap (string * string * string) unstructured).
Proof.
  split; [done|]. split; [by eexists|]. split; [done|].
  intros w k o e w'. simpl. by destruct (w !! _) eqn:E.
Qed.

Definition policy : unstructured :=
  MkUnstructured "Policy" "ns" "p" "" ∅ {[UserIdentityAnnotation := "!"]} [] false {["status" := FRaw "{}"; "spec" := FMap ∅]}.
Definition old_policy : unstructured := MkUnstructured "Policy" "ns" "q" "" ∅ ∅ [] false ∅.
Definition before : gmap (string * string * string) unstructured := {[object_key old_policy := old_policy]}.

Lemma generic_bundle_is_applied_witness :
  exists w', generic_Sync false (Ok ([policy], [old_policy])) NewPool before = Ret (None, NewPool, w') /\
    w' !! object_key policy = Some (set_u_fields (anonymize policy) {["spec" := FMap ∅]}) /\
    w' !! object_key old_policy = None.
Proof.
  destruct (generic_bundle_is_applied [policy] [old_policy] NewPool before) as (w' & Hs & _ & Hr).
  - apply (bool_decide_unpack _). vm_compute. exact I.
  - repeat (apply Forall_cons; split); done.
  - exists w'. split; [exact Hs|]. destruct (Hr map_server_reliable) as [Ho Hd]. split.
    + eapply eq_trans; [apply Ho; by left|vm_compute; reflexivity].
    + eapply eq_trans; [apply Hd; by left|vm_compute; reflexivity].
Defined.

#[local] Instance codec : BundleCodec := {| unmarshal_bundle _ := Ok ([policy], []) |}.
Definition policies_event : PlainEvent := utils_ToCloudEvent "Policies" CloudEventSourceGlobalHub Broadcast [].
Definition registered : gmap string (bytes -> WorkerPool * gmap (string * string * string) unstructured ->
    outcome (option goerror * (WorkerPool * gmap (string * string * string) unstructured))) :=
  AddToManager true (generic_syncer true) (fun _ s => Ret (None, s)) (fun _ s => Ret (None, s))
    (fun _ s => Ret (None, s)) (fun _ s => Ret (None, s)).

Lemma undecodable_identity_stops_the_agent_witness :
  dispatch_all "hub1" registered [Some policies_event; Some policies_event] (NewPool, before) = Block.
Proof.
  eapply (undecodable_identity_stops_the_agent "hub1" registered policies_event [Some policies_event] NewPool before [policy] [] policy).
  - exists Broadcast. split; [vm_compute; reflexivity|by left].
  - vm_compute. reflexivity.
  - reflexivity.
  - by left.
  - eexists. vm_compute. reflexivity.
Defined.

(** A server of clusters. *)
#[local] Instance clusters_client : KubeClient (gmap string Object) := {|
  kget w _ _ n := match w !! n with
                  | Some o => if decide (Name o = n) then Found o else NotFound
                  | None => NotFound
                  end;
  kupdate w o := (None, o, <[Name o := o]> w);
|}.
#[local] Program Instance clusters_server : LabelServer (gmap string Object) := {|
  cluster_labels w := omap (fun o => Some (Labels o)) (filter (fun kv => Name kv.2 = kv.1) w);
|}.
Next Obligation.
  intros w n o. simpl. destruct (w !! n) as [x|] eqn:E; [|done]. case_decide as Hn; [|done]. intros [= <-].
  rewrite lookup_omap, (map_lookup_filter_Some_2 _ _ _ x) by done. by eauto.
Qed.
Next Obligation.
  intros w n. simpl. destruct (w !! n) as [x|] eqn:E; [case_decide as Hn; [done|]|]; intros _;
    rewrite lookup_omap, map_lookup_filter_None_2; try done; [right; intros y Hy; simpl; congruence|by left].
Qed.
Next Obligation.
  intros w n o l fs o' w' Hg [= _ <-]. simpl in Hg. destruct (w !! n) as [x|] eqn:E; [|done].
  case_decide as Hn; [|done]. injection Hg as ->. subst n. simpl. apply map_eq. intros k.
  rewrite lookup_omap, map_lookup_filter. destruct (decide (k = Name o)) as [->|Hk].
  - rewrite !lookup_insert_eq. simpl. by rewrite option_guard_True by done.
  - rewrite !lookup_insert_ne by done. by rewrite lookup_omap, map_lookup_filter.
Qed.
Next Obligation. by intros. Qed.

Definition cluster (name : string) (labels : gmap string string) : Object :=
  MkObject "" "" name 0 "" 0 None labels ∅ [] [] [] "" (BCluster []).
Definition clusters : gmap string Object := {["c1" := cluster "c1" {["a" := "1"; "b" := "2"]}]}.
Definition labels_bundle : ManagedClusterLabelsSpecBundle :=
  MkLabelsBundle [MkLabelsSpec "c1" {["a" := "3"]} ["b"] 7 0] "hub1".

Lemma label_bundle_is_applied_witness :
  exists s', labels_Sync (Ok labels_bundle) NewPool (clusters, ∅) = Ret (None, NewPool, s') /\
    exists m, (label_state s' "c1").1 = Some m /\ m !! "a" = Some "3" /\ m !! "b" = None.
Proof.
  destruct (label_bundle_is_applied labels_bundle NewPool (clusters, ∅)) as (s' & Hs & Hl).
  - apply (bool_decide_unpack _). vm_compute. exact I.
  - exists s'. split; [exact Hs|]. specialize (Hl "c1").
    assert (Ef : list_find (fun spec => mls_ClusterName spec = "c1" /\
        due_spec (∅ : Stamps) spec = true) (mlb_Objects labels_bundle)
      = Some (0, MkLabelsSpec "c1" {["a" := "3"]} ["b"] 7 0)) by reflexivity.
    cbn [snd] in Hl. rewrite Ef in Hl.
    assert (Ev : (label_state (clusters, ∅) "c1").1 = Some {["a" := "1"; "b" := "2"]}) by reflexivity.
    destruct Hl as [[_ Hl]|[_ []]].
    + rewrite Ev in Hl. destruct (label_state s' "c1").1 as [m|]; [|destruct Hl]. exists m. split; [done|].
      split; [eapply eq_trans; [exact (Hl "a")|reflexivity]|eapply eq_trans; [exact (Hl "b")|reflexivity]].
    + split; [|done]. intros w n e. simpl. repeat case_match; done.
Defined.
End Sample.
