(* ===== verification/HubFlow.v ===== *)
(** * From a probe of the manager to the emitters of an agent

    The manager sends a resync event to the hubs it makes active again
    ([HubManagement]); the dispatcher of the agent hands it to the resync
    syncer ([SpecAgent]), which increments the versions of the emitters
    ([Emitter]), so that they send their bundles again. *)

From Stdlib Require Import Strings.Ascii Strings.String.
From stdpp Require Import prelude gmap strings list.
From Stdlib Require Import ZArith Lia.
From S2P Require Import Prelude.
From S2P Require Import GoLib.
From S2P Require Import EventTypes.
From S2P Require Import Version.
From S2P Require Import CloudEvents.
From S2P Require Import Libraries.
From S2P Require Import SpecTransport.
From S2P Require Import KubeObjects.
From S2P Require Import Emitter.
From S2P Require Import HubManagement.
From S2P Require Import SpecAgent.
From S2P Require Import SpecAgentFacts.
Local Open Scope string_scope.
Local Open Scope list_scope.

(** [json.Unmarshal] of a list of strings, of what was payload_marshaled. *)
Class StringsDecoder := { unmarshal_strings : bytes -> result (list string) }.
Class StringsLaws `{StringsCodec, StringsDecoder} : Prop := {
  unmarshal_marshal l b : marshal_strings l = Ok b -> unmarshal_strings b = Ok l;
}.

(** The resync syncer, on the store of the agent. *)
Definition resync_syncer `{StringsDecoder} (payload : bytes) (st : Store) : outcome (option goerror * Store) :=
  Resync (unmarshal_strings payload) st.

(** ** What a resync increments *)

(** All the types are registered, with a version that exists. *)
Definition registered_types (types : gmap string nat) (ts : list string) (st : Store) : Prop :=
  forall t, t ∈ ts -> exists l, types !! t = Some l /\ is_Some (st_vers st !! l).

(** A version grows by at most one for each type, and by at least one when its
    own type is among them. *)
Definition grown (must : Prop) (n : nat) (v v' : Version) : Prop :=
  Generation v' = Generation v /\ (Value v <= Value v' <= Value v + Z.of_nat n)%Z /\
  (must -> (Value v < Value v')%Z).

Lemma Incr_grown v n : version_ok v -> (Value v + Z.of_nat (S n) < two64)%Z ->
  grown True 1 v (Incr v) /\ version_ok (Incr v).
Proof.
  intros Hok Hb. rewrite (Incr_small v n) by done. destruct Hok as [Hg [Hv1 Hv2]].
  assert (u64_ok (Value v + 1)) by (unfold u64_ok; lia).
  split; [|done]. unfold grown. cbn [Generation Value]. split_and!; try done; lia.
Qed.

Lemma resync_types_grown types ts st :
  registered_types types ts st ->
  (forall l v, st_vers st !! l = Some v -> version_ok v /\ (Value v + Z.of_nat (length ts) < two64)%Z) ->
  exists st', resync_types types ts st = Ret st' /\
    forall l v, st_vers st !! l = Some v -> exists v', st_vers st' !! l = Some v' /\
      grown (exists t, t ∈ ts /\ types !! t = Some l) (length ts) v v'.
Proof.
  revert st. induction ts as [|t ts IH]; intros st Hreg Hb; cbn [resync_types].
  - exists st. split; [done|]. intros l v Hl. exists v. split; [done|]. unfold grown. simpl.
    split; [done|]. split; [lia|]. by intros (t & ?%not_elem_of_nil & _).
  - destruct (Hreg t) as (l0 & Ht & [v0 Hl0]); [by left|]. rewrite Ht.
    rewrite (proj2 (st_get_ver_Ret st l0 v0) Hl0). cbn [obind].
    destruct (Hb l0 v0 Hl0) as [Hok0 Hb0]. cbn [length] in Hb0.
    destruct (Incr_grown v0 (length ts) Hok0 Hb0) as [(Hg1 & Hv1 & Hm1) Hok1]. specialize (Hm1 I).
    assert (Hvers : forall l, st_vers (st_set_ver st l0 (Incr v0)) !! l =
      if decide (l = l0) then Some (Incr v0) else st_vers st !! l).
    { intros l. unfold st_set_ver. simpl. case_decide as E; [by rewrite E, lookup_insert_eq|by rewrite lookup_insert_ne]. }
    destruct (IH (st_set_ver st l0 (Incr v0))) as (st' & E & Hst').
    + intros u Hu. destruct (Hreg u) as (lu & Hlu & Hs); [by right|]. exists lu. split; [done|].
      rewrite Hvers. by case_decide.
    + intros l2 v2. rewrite Hvers. case_decide; [intros [= <-]; split; [done|lia]|]. intros H2.
      destruct (Hb l2 v2 H2) as [? H3]. split; [done|]. simpl in H3. lia.
    + exists st'. split; [done|]. intros l v Hl. specialize (Hst' l). rewrite Hvers in Hst'.
      unfold grown in *. cbn [length]. case_decide as E'.
      * subst l0. destruct (Hst' _ eq_refl) as (v' & Hv' & Hg & Hv & _). assert (v0 = v) as -> by congruence.
        exists v'. split; [done|]. split; [congruence|]. split; [lia|]. intros _. lia.
      * destruct (Hst' _ Hl) as (v' & Hv' & Hg & Hv & Hm). exists v'. split; [done|]. split; [done|].
        split; [lia|]. intros (u & [->|Hu]%elem_of_cons & Htu); [congruence|]. apply Hm. by exists u.
Qed.

Section Flow.
Context {D P Event : Type} `{HubTablesLaws D} `{EventLaws Event} `{!Producer P Event} `{!ProducerLog P Event}.
Context `{PollerLaws} `{RetrierLaws} `{StringsLaws}.

(** An emitter of a registered type, that sent what its version said. *)
Definition idle_emitter (types : gmap string nat) (g : genericEmitter) (st : Store) : Prop :=
  types !! eventType g = Some (currentVersion g) /\
  exists v, st_vers st !! currentVersion g = Some v /\ Generation (lastSentVersion g) = Generation v /\
    (Value (lastSentVersion g) <= Value v)%Z.

(** What the store of the agent has room for. *)
Definition resyncable (types : gmap string nat) (st : Store) : Prop :=
  st_resync st = Some types /\ registered_types types resyncResources st /\
  forall l v, st_vers st !! l = Some v -> version_ok v /\ (Value v + 4 < two64)%Z.

Lemma resync_event_dispatched data hub syncers types st :
  marshal_strings resyncResources = Ok data ->
  syncers !! ResyncMsgKey = Some resync_syncer -> resyncable types st ->
  exists st', dispatch hub syncers (Some (resync_event (Event := Event) data hub)) st = Ret st' /\
    forall g, idle_emitter types g st -> eventType g ∈ resyncResources -> ShouldSend g st' = Ret true.
Proof.
  intros Hm Hsy (Hres & Hreg & Hb).
  destruct (resync_types_grown types resyncResources st) as (st' & E & Hst'); [done..|].
  destruct (utils_ToCloudEvent_spec (Event := Event) ResyncMsgKey CloudEventSourceGlobalHub hub data) as (Ht & _ & Hd & Hx).
  exists st'. split.
  - unfold resync_event. eapply (dispatch_Ret hub syncers _ st st' resync_syncer).
    + exists hub. auto.
    + unfold syncer_for. rewrite Ht, Hsy. done.
    + rewrite Hd. unfold resync_syncer, Resync. rewrite Hres, (unmarshal_marshal _ _ Hm), E. done.
  - intros g (Hty & v & Hv & Hg & Hval) Hin. destruct (Hst' _ _ Hv) as (v' & Hv' & Hg' & _ & Hlt).
    specialize (Hlt (ex_intro _ _ (conj Hin Hty))). unfold ShouldSend.
    rewrite (proj2 (st_get_ver_Ret st' _ v') Hv'). cbn [obind]. f_equal.
    apply NewerThan_spec. unfold version_lt. lia.
Qed.

(** C24: a hub that comes back sends its state again: when a probe that ends without an error finds a recent heartbeat of an inactive hub, one of the events it sends makes every idle emitter of the four resync types of the agent of that hub due. *)
Theorem reactivated_hub_resends_its_state data timeout now pr d pr' d' hub last syncers types st :
  marshal_strings resyncResources = Ok data ->
  hd_beats (hdb d) !! hub = Some (HubInactive, last) -> (now - timeout < last)%Z ->
  update (Event := Event) timeout now pr d = (None, (pr', d')) ->
  syncers !! ResyncMsgKey = Some resync_syncer -> resyncable types st ->
  exists e st', e ∈ sent_events pr' /\ dispatch hub syncers (Some e) st = Ret st' /\
    forall g, idle_emitter types g st -> eventType g ∈ resyncResources -> ShouldSend g st' = Ret true.
Proof.
  intros Hm Hl Ht Hu Hsy Hst.
  destruct (update_spec data timeout now pr d pr' d' Hm Hu) as (_ & _ & evs & Hs & He).
  destruct (resync_event_dispatched data hub syncers types st) as (st' & E & Hg); [done..|].
  exists (resync_event data hub), st'. split; [|done]. rewrite Hs. apply elem_of_app. right. apply He.
  exists hub. split; [by exists last|done].
Qed.
End Flow.

(** ** Witness *)
Module Sample.
(** The strings are separated by commas. *)
Definition encoded (l : list string) : bytes := Stdlib.Strings.String.list_byte_of_string (String.concat "," l).
Definition decoded (b : bytes) : list string := split_char ","%char (Stdlib.Strings.String.string_of_list_byte b).
#[local] Instance codec : StringsCodec := {|
  marshal_strings l := if decide (decoded (encoded l) = l) then Ok (encoded l) else Err "comma";
|}.
#[local] Instance decoder : StringsDecoder := {| unmarshal_strings b := Ok (decoded b) |}.
#[local] Instance strings_laws : StringsLaws.
Proof. split. intros l b. simpl. case_decide as E; [|done]. intros [= <-]. by rewrite E. Qed.

#[local] Instance poller : Poller := poller_of 3.
#[local] Instance poller_laws : PollerLaws := poller_of_laws 3.
#[local] Instance retrier : Retrier := retrier_of 3 (fun _ => false).
#[local] Instance retrier_laws : RetrierLaws := retrier_of_laws 3 _.

(** An agent with one version for each of the four types; all its bundles were
    sent. *)
Definition types : gmap string nat := list_to_map (zip resyncResources [0; 1; 2; 3]).
Definition agent : Store := MkStore 4 ∅ (list_to_map (zip [0; 1; 2; 3] (replicate 4 (MkVersion 5 7)))) (Some types).
Definition policies : genericEmitter := MkEmitter LocalPolicySpecType 2 (MkVersion 5 7) "" None None.
Definition registered : gmap string (bytes -> Store -> outcome (option goerror * Store)) :=
  AddToManager false resync_syncer resync_syncer resync_syncer resync_syncer resync_syncer.
Definition one : HubDB := MkHubDB {["hub1" := (HubInactive, 700%Z)]} ∅.
Definition probed : list PlainEvent * HubDB := (update 300 900 [] one).2.

Lemma agent_resyncable : resyncable types agent.
Proof.
  split; [done|]. split.
  - intros t Ht. unfold resyncResources in Ht. repeat (apply elem_of_cons in Ht as [->|Ht]; [eexists; vm_compute; eauto|]).
    by apply not_elem_of_nil in Ht.
  - intros l v Hl. apply elem_of_list_to_map_2 in Hl. simpl in Hl.
    repeat (apply elem_of_cons in Hl as [[= -> ->]|Hl]; [done|]). by apply not_elem_of_nil in Hl.
Qed.

Lemma payload_marshaled : marshal_strings resyncResources = Ok (encoded resyncResources).
Proof. reflexivity. Qed.
Lemma probed_None : update (Event := PlainEvent) 300 900 [] one = (None, (probed.1, probed.2)).
Proof. vm_compute. reflexivity. Qed.
Lemma policies_idle : idle_emitter types policies agent.
Proof. split; [reflexivity|]. exists (MkVersion 5 7). done. Qed.

Lemma reactivated_hub_resends_its_state_witness :
  exists e st', e ∈ probed.1 /\ dispatch "hub1" registered (Some e) agent = Ret st' /\ ShouldSend policies st' = Ret true.
Proof.
  pose proof (reactivated_hub_resends_its_state (Event := PlainEvent) _ 300 900 [] one probed.1 probed.2 "hub1" 700
    registered types agent payload_marshaled) as Hp.
  destruct Hp as (e & st' & He & Hd & Hg);
    [reflexivity|lia|exact probed_None|reflexivity|exact agent_resyncable|].
  exists e, st'. split; [exact He|]. split; [exact Hd|]. apply Hg; [exact policies_idle|].
  right. right. left.
Defined.
End Sample.
