(* ===== verification/EventTables.v ===== *)
(** * The event tables of the manager

    The handlers of the events of managed clusters
    ([handlers/managedcluster/managedcluster_event_handler.go]), of root policies
    and of replicated policies ([handlers/policy/local_*_policy_event_handler.go]).
    Each converts a bundle to rows and inserts them in batches with a conflict
    clause on the unique key of its table; the insertion is a class whose law
    is the meaning of the clause. *)

From stdpp Require Import prelude gmap strings list.
From Stdlib Require Import ZArith Lia.
From S2P Require Import Prelude.
From S2P Require Import GoLib.
From S2P Require Import Version.
From S2P Require Import CloudEvents.
From S2P Require Import KubeObjects.
From S2P Require Import TimeFilter.
From S2P Require Import Emitter.
From S2P Require Import ComplianceDB.
Local Open Scope string_scope.
Local Open Scope list_scope.

(** ** Rows ([pkg/database/models/event.go]) *)
Record BaseLocalPolicyEvent := MkPolicyRow {
  le_EventName : string;
  le_EventNamespace : string;
  le_PolicyID : string;
  le_Message : string;
  le_LeafHubName : string;
  le_Reason : string;
  le_Count : Z;
  le_Source : bytes;
  le_CreatedAt : Z;
  le_Compliance : string;
}.
Record LocalReplicatedPolicyEvent := MkReplicatedRow {
  lr_Base : BaseLocalPolicyEvent;
  lr_ClusterID : string;
  lr_ClusterName : string;
}.

Definition GetDatabaseCompliance (PolicyCompliance : string) : string :=
  if String.eqb PolicyCompliance "Compliant" then DBCompliant
  else if String.eqb PolicyCompliance "NonCompliant" then DBNonCompliant
  else if String.eqb PolicyCompliance "Pending" then DBPending
  else DBUnknown.

(** What a conflict does to a row, and the insertion in batches. *)
Inductive on_conflict := DoNothing | UpdateAll.
Class EventTable (D R : Type) := {
  create_in_batches : D -> on_conflict -> list R -> nat -> option goerror * D;
}.

(** [json.Marshal] of the source of an event. *)
Class SourceCodec := { marshal_source : string -> result bytes }.

Definition BatchSize : nat := 50.

Section Handlers.
Context {D : Type} `{SourceCodec}.

(** The error of the encoding of a source is logged. *)
Definition source_jsonb (source : string) : bytes :=
  match marshal_source source with Ok b => b | Err _ => [] end.

Definition policy_row (leafHubName policyID compliance : string) (e : BaseEvent) : BaseLocalPolicyEvent :=
  MkPolicyRow (be_EventName e) (be_EventNamespace e) policyID (be_Message e) leafHubName (be_Reason e)
    (be_Count e) (source_jsonb (be_Source e)) (be_CreatedAt e) (GetDatabaseCompliance compliance).

Definition root_row (leafHubName : string) (e : RootPolicyEvent) : BaseLocalPolicyEvent :=
  policy_row leafHubName (re_PolicyID e) (re_Compliance e) (re_Base e).
Definition root_rows (leafHubName : string) (data : list RootPolicyEvent) : list BaseLocalPolicyEvent :=
  root_row leafHubName <$> filter (fun e => String.eqb (re_PolicyID e) "" = false) data.

Definition rootPolicyEvent_handleEvent `{EventTable D BaseLocalPolicyEvent} (leafHubName : string)
    (decoded : result (list RootPolicyEvent)) (d : D) : option goerror * D :=
  match decoded with
  | Err e => (Some e, d)
  | Ok [] => (Some "the root policy event payload shouldn't be empty", d)
  | Ok data =>
      match create_in_batches d UpdateAll (root_rows leafHubName data) 100 with
      | (Some e, d') => (Some ("failed to handle the event to database " +:+ e), d')
      | (None, d') => (None, d')
      end
  end.

Definition replicated_row (leafHubName : string) (e : ReplicatedPolicyEvent) : LocalReplicatedPolicyEvent :=
  MkReplicatedRow (policy_row leafHubName (rp_PolicyID e) (rp_Compliance e) (rp_Base e)) (rp_ClusterID e)
    (rp_ClusterName e).

Definition replicatedPolicyEvent_handleEvent `{EventTable D LocalReplicatedPolicyEvent} (leafHubName : string)
    (decoded : result (list ReplicatedPolicyEvent)) (d : D) : option goerror * D :=
  match decoded with
  | Err e => (Some e, d)
  | Ok [] => (None, d)
  | Ok data =>
      match create_in_batches d DoNothing (replicated_row leafHubName <$> data) 100 with
      | (Some e, d') => (Some ("failed handling leaf hub LocalPolicyStatusEvent event - " +:+ e), d')
      | (None, d') => (None, d')
      end
  end.

(** The loop assigns the name of the hub to a copy of each event, so the rows
    are the events as they were sent. *)
Definition managedClusterEvent_handleEvent `{EventTable D ManagedClusterEvent} (leafHubName : string)
    (decoded : result (list ManagedClusterEvent)) (d : D) : option goerror * D :=
  match decoded with
  | Err e => (Some e, d)
  | Ok managedClusterEvents =>
      match managedClusterEvents with
      | [] => (None, d)
      | _ =>
          match create_in_batches d DoNothing managedClusterEvents BatchSize with
          | (Some e, d') => (Some ("failed handling leaf hub LocalPolicyStatusEvent event - " +:+ e), d')
          | (None, d') => (None, d')
          end
      end
  end.
End Handlers.

(** ** The meaning of the insertion *)
Class Keyed (R K : Type) := {
  row_key : R -> K;         (** the columns of the unique constraint *)
  row_date : R -> Z;        (** the zero time is replaced by the time of the database *)
}.
#[export] Instance policy_keyed : Keyed BaseLocalPolicyEvent (string * Z * Z) := {|
  row_key r := (le_EventName r, le_Count r, le_CreatedAt r);
  row_date := le_CreatedAt;
|}.
#[export] Instance replicated_keyed : Keyed LocalReplicatedPolicyEvent (string * Z * Z) := {|
  row_key r := row_key (lr_Base r);
  row_date r := row_date (lr_Base r);
|}.
#[export] Instance cluster_event_keyed : Keyed ManagedClusterEvent (string * string * Z) := {|
  row_key r := (mce_LeafHubName r, mce_EventName r, mce_CreatedAt r);
  row_date := mce_CreatedAt;
|}.

Fixpoint batches {A} (fuel size : nat) (l : list A) : list (list A) :=
  match fuel, l with
  | S n, _ :: _ => take size l :: batches n size (drop size l)
  | _, _ => []
  end.

Section Tables.
Context {R K : Type} `{Countable K} `{Keyed R K}.
Notation Table := (gmap K R).

Definition upserted (t : Table) (r : R) : Table := <[row_key r := r]> t.
Definition inserted (t : Table) (r : R) : Table :=
  match t !! row_key r with Some _ => t | None => <[row_key r := r]> t end.

(** One statement: a row cannot be updated twice by it. *)
Definition exec_batch (mode : on_conflict) (batch : list R) (t : Table) : result Table :=
  match mode with
  | DoNothing => Ok (fold_left inserted batch t)
  | UpdateAll =>
      if bool_decide (NoDup (row_key <$> batch)) then Ok (fold_left upserted batch t)
      else Err "ON CONFLICT DO UPDATE command cannot affect row a second time"
  end.
Fixpoint exec_batches (mode : on_conflict) (bs : list (list R)) (t : Table) : result Table :=
  match bs with
  | [] => Ok t
  | b :: rest => let? t' := exec_batch mode b t in exec_batches mode rest t'
  end.
Definition exec_create (mode : on_conflict) (rows : list R) (size : nat) (t : Table) : result Table :=
  exec_batches mode (batches (length rows) size rows) t.

Definition dated (rows : list R) : Prop := Forall (fun r => row_date r <> zero_time) rows.
#[export] Instance dated_dec (rows : list R) : Decision (dated rows).
Proof. unfold dated. apply _. Defined.
End Tables.

(** The batches are inserted in one transaction. *)
Class EventTableLaws (D R K : Type) `{Countable K, Keyed R K, EventTable D R} := {
  event_rows : D -> gmap K R;
  create_commit d mode rows size d' : dated rows -> create_in_batches d mode rows size = (None, d') ->
    exec_create mode rows size (event_rows d) = Ok (event_rows d');
  create_rollback d mode rows size e d' : create_in_batches d mode rows size = (Some e, d') ->
    event_rows d' = event_rows d;
}.

#[export] Instance map_event_table {R K : Type} `{Countable K, Keyed R K} : EventTable (gmap K R) R := {|
  create_in_batches t mode rows size :=
    match exec_create mode rows size t with Ok t' => (None, t') | Err e => (Some e, t) end;
|}.
#[export] Program Instance map_event_laws {R K : Type} `{Countable K, Keyed R K} :
  EventTableLaws (gmap K R) R K := {| event_rows t := t |}.
Next Obligation. intros R K ??? t mode rows size t' _. simpl. destruct (exec_create _ _ _ _); congruence. Qed.
Next Obligation. intros R K ??? t mode rows size e t'. simpl. destruct (exec_create _ _ _ _); congruence. Qed.

Lemma batches_concat {A} fuel size (l : list A) :
  0 < size -> length l <= fuel -> concat (batches fuel size l) = l.
Proof.
  intros Hs. revert l. induction fuel as [|n IH]; intros [|x l] Hl; simpl in *; try done; [lia|].
  rewrite IH; [by rewrite take_drop|]. destruct size; [lia|]. simpl. rewrite length_drop. lia.
Qed.

Section TableFacts.
Context {R K : Type} `{Countable K} `{Keyed R K}.
Implicit Types (t : gmap K R) (rows : list R).

Definition row_effect (mode : on_conflict) : gmap K R -> R -> gmap K R :=
  match mode with DoNothing => inserted | UpdateAll => upserted end.

Lemma exec_batches_Ok mode bs t t' :
  exec_batches mode bs t = Ok t' -> t' = fold_left (row_effect mode) (concat bs) t.
Proof.
  revert t. induction bs as [|b bs IH]; intros t; simpl; [by intros [= <-]|].
  destruct mode; simpl; [|case_bool_decide; [|done]]; simpl; intros ->%IH; by rewrite fold_left_app.
Qed.

Lemma exec_create_Ok mode rows size t t' :
  0 < size -> exec_create mode rows size t = Ok t' -> t' = fold_left (row_effect mode) rows t.
Proof. intros Hs E%exec_batches_Ok. by rewrite batches_concat in E. Qed.

(** The table after the rows: the last row of a key, or the first one that finds
    no row, and the old rows of the other keys. *)
Lemma upserted_all_lookup rows t k :
  fold_left upserted rows t !! k =
    match last (filter (fun r => row_key r = k) rows) with Some r => Some r | None => t !! k end.
Proof.
  revert t. induction rows as [|r rows IH] using rev_ind; intros t; [done|].
  rewrite fold_left_app, filter_app. cbn [fold_left]. unfold upserted at 1.
  destruct (decide (row_key r = k)) as [<-|Hne].
  - rewrite filter_cons_True, last_app by done. simpl. by rewrite lookup_insert_eq.
  - rewrite filter_cons_False, app_nil_r, lookup_insert_ne by done. apply IH.
Qed.

Lemma inserted_lookup t r k :
  inserted t r !! k = match t !! k with Some x => Some x | None => if decide (row_key r = k) then Some r else None end.
Proof.
  unfold inserted. destruct (t !! row_key r) eqn:E.
  - destruct (t !! k) eqn:Ek; [done|]. case_decide; congruence.
  - destruct (decide (row_key r = k)) as [<-|Hne]; [by rewrite lookup_insert_eq, E|].
    rewrite lookup_insert_ne by done. by destruct (t !! k).
Qed.

Lemma inserted_all_lookup rows t k :
  fold_left inserted rows t !! k =
    match t !! k with Some x => Some x | None => head (filter (fun r => row_key r = k) rows) end.
Proof.
  revert t. induction rows as [|r rows IH]; intros t; cbn [fold_left]; [by destruct (t !! k)|].
  rewrite IH, inserted_lookup. destruct (t !! k) as [x|]; [done|].
  rewrite filter_cons. by case_decide.
Qed.

(** Inserting the same rows again changes nothing. *)
Lemma row_effect_idempotent mode rows t :
  fold_left (row_effect mode) rows (fold_left (row_effect mode) rows t) = fold_left (row_effect mode) rows t.
Proof.
  apply map_eq. intros k. destruct mode; simpl.
  - rewrite !inserted_all_lookup. destruct (t !! k) as [x|]; [done|].
    by destruct (head (filter (fun r => row_key r = k) rows)).
  - rewrite !upserted_all_lookup. by destruct (last (filter (fun r => row_key r = k) rows)).
Qed.

Context {D : Type} `{!EventTable D R} `{!EventTableLaws D R K}.

Lemma create_rows d mode rows size d' :
  0 < size -> dated rows -> create_in_batches d mode rows size = (None, d') ->
  event_rows d' = fold_left (row_effect mode) rows (event_rows d).
Proof. intros Hs Hd E%create_commit; [|done]. by eapply exec_create_Ok. Qed.

Lemma create_again d mode rows size d1 d2 d3 :
  0 < size -> dated rows -> create_in_batches d mode rows size = (None, d1) ->
  event_rows d2 = event_rows d1 -> create_in_batches d2 mode rows size = (None, d3) ->
  event_rows d3 = event_rows d1.
Proof.
  intros Hs Hd E1%create_rows E2 E3%create_rows; try done. rewrite E3, E2, E1. apply row_effect_idempotent.
Qed.
End TableFacts.

(** ** The handlers on the tables *)
Section Props.
Context {D : Type} `{SourceCodec}.

Section Root.
Context `{EventTableLaws D BaseLocalPolicyEvent (string * Z * Z)}.

Lemma root_handleEvent_None leafHubName data d d' :
  rootPolicyEvent_handleEvent leafHubName (Ok data) d = (None, d') ->
  create_in_batches d UpdateAll (root_rows leafHubName data) 100 = (None, d').
Proof.
  unfold rootPolicyEvent_handleEvent. destruct data as [|x data]; [done|].
  by destruct (create_in_batches d _ _ _) as [[e|] d1].
Qed.

(** After a bundle of root policy events is handled without an error, every event with a policy ID has its row, the last one when several have the same name, count and time, the events without a policy ID have none, and every other row is as it was. *)
Theorem root_events_are_stored leafHubName data d d' :
  dated (root_rows leafHubName data) ->
  rootPolicyEvent_handleEvent leafHubName (Ok data) d = (None, d') ->
  forall k, event_rows d' !! k =
    match last (filter (fun e => re_PolicyID e <> "" /\ row_key (root_row leafHubName e) = k) data) with
    | Some e => Some (root_row leafHubName e)
    | None => event_rows d !! k
    end.
Proof.
  intros Hd E%root_handleEvent_None k. apply create_rows in E; [|lia|done]. rewrite E. simpl.
  rewrite upserted_all_lookup. unfold root_rows. rewrite filter_fmap_list, fmap_last, list_filter_filter.
  rewrite (list_filter_iff _ (fun e => re_PolicyID e <> "" /\ row_key (root_row leafHubName e) = k)).
  - by destruct (last _).
  - intros e. simpl. rewrite String.eqb_neq. tauto.
Qed.

(** A bundle of at most a hundred root policy events in which two have the same name, count and time is refused, and leaves the table as it is, however often it is handled. *)
Theorem repeated_root_event_refuses_bundle leafHubName data d :
  dated (root_rows leafHubName data) -> length (root_rows leafHubName data) <= 100 ->
  ~ NoDup (row_key <$> root_rows leafHubName data) ->
  exists e d', rootPolicyEvent_handleEvent leafHubName (Ok data) d = (Some e, d') /\ event_rows d' = event_rows d.
Proof.
  intros Hd Hl Hn. destruct data as [|x data]; [destruct Hn; constructor|]. unfold rootPolicyEvent_handleEvent.
  destruct (create_in_batches d _ _ _) as [[e|] d1] eqn:E.
  - eexists _, d1. split; [done|]. by eapply create_rollback.
  - exfalso. apply create_commit in E; [|done]. revert E. unfold exec_create.
    destruct (root_rows leafHubName (x :: data)) as [|r rows] eqn:Er; [destruct Hn; constructor|].
    cbn [length batches exec_batches]. rewrite take_ge by done. unfold exec_batch at 1.
    rewrite bool_decide_false by done. done.
Qed.
End Root.

Section Appended.
Context `{!EventTable D LocalReplicatedPolicyEvent} `{!EventTableLaws D LocalReplicatedPolicyEvent (string * Z * Z)}.
Context `{!EventTable D ManagedClusterEvent} `{!EventTableLaws D ManagedClusterEvent (string * string * Z)}.

Lemma replicated_handleEvent_None leafHubName data d d' :
  replicatedPolicyEvent_handleEvent leafHubName (Ok data) d = (None, d') ->
  d' = d /\ data = [] \/ create_in_batches d DoNothing (replicated_row leafHubName <$> data) 100 = (None, d').
Proof.
  unfold replicatedPolicyEvent_handleEvent. destruct data as [|x data]; [intros [= ->]; auto|].
  destruct (create_in_batches d _ _ _) as [[e|] d1]; [done|]. intros [= ->]. auto.
Qed.

Lemma cluster_handleEvent_None leafHubName data d d' :
  managedClusterEvent_handleEvent leafHubName (Ok data) d = (None, d') ->
  d' = d /\ data = [] \/ create_in_batches d DoNothing data BatchSize = (None, d').
Proof.
  unfold managedClusterEvent_handleEvent. destruct data as [|x data]; [intros [= ->]; auto|].
  destruct (create_in_batches d _ _ _) as [[e|] d1]; [done|]. intros [= ->]. auto.
Qed.

(** The events of managed clusters are stored with the hub name their payload carries, whatever the source of the cloud event is: after the bundle is handled without an error, a row that existed is unchanged and the first event of each new key is stored as it was sent. *)
Theorem cluster_events_keep_their_hub leafHubName data d d' :
  dated data -> managedClusterEvent_handleEvent leafHubName (Ok data) d = (None, d') ->
  forall hub name t, event_rows d' !! (hub, name, t) =
    match event_rows d !! (hub, name, t) with
    | Some r => Some r
    | None => head (filter (fun e => mce_LeafHubName e = hub /\ mce_EventName e = name /\ mce_CreatedAt e = t) data)
    end.
Proof.
  intros Hd E hub name t. apply cluster_handleEvent_None in E as [[-> ->]|E].
  - by destruct (event_rows d !! _).
  - apply create_rows in E; [|unfold BatchSize; lia|done]. rewrite E. simpl. rewrite inserted_all_lookup.
    destruct (event_rows d !! _); [done|]. f_equal. apply list_filter_iff. intros e. simpl.
    split; [by intros [= -> -> ->]|]. by intros (-> & -> & ->).
Qed.

(** A bundle of replicated policy events never changes a row: after it is handled without an error, the rows that existed are as they were, those of other hubs included, and the first event of each new name, count and time has its row. *)
Theorem replicated_events_are_appended leafHubName data d d' :
  dated (replicated_row leafHubName <$> data) ->
  replicatedPolicyEvent_handleEvent leafHubName (Ok data) d = (None, d') ->
  forall k : string * Z * Z, event_rows d' !! k =
    match event_rows d !! k with
    | Some r => Some r
    | None => head (filter (fun r : LocalReplicatedPolicyEvent => row_key r = k) (replicated_row leafHubName <$> data))
    end.
Proof.
  intros Hd E k. apply replicated_handleEvent_None in E as [[-> ->]|E].
  - by destruct (event_rows d !! _).
  - apply create_rows in E; [|lia|done]. rewrite E. cbn [row_effect]. apply inserted_all_lookup.
Qed.
End Appended.

Section Redelivery.
Context `{!EventTable D BaseLocalPolicyEvent} `{!EventTableLaws D BaseLocalPolicyEvent (string * Z * Z)}.
Context `{!EventTable D LocalReplicatedPolicyEvent} `{!EventTableLaws D LocalReplicatedPolicyEvent (string * Z * Z)}.
Context `{!EventTable D ManagedClusterEvent} `{!EventTableLaws D ManagedClusterEvent (string * string * Z)}.

(** A redelivered bundle is harmless: handling a bundle of root policy events, replicated policy events or managed cluster events a second time, on the table the first time left, changes no row. *)
Theorem redelivered_events_change_nothing leafHubName roots replicated clusters d d1 d2 :
  dated (root_rows leafHubName roots) -> dated (replicated_row leafHubName <$> replicated) -> dated clusters ->
  (rootPolicyEvent_handleEvent leafHubName (Ok roots) d = (None, d1) ->
   rootPolicyEvent_handleEvent leafHubName (Ok roots) d1 = (None, d2) ->
   event_rows (R := BaseLocalPolicyEvent) d2 = event_rows d1) /\
  (replicatedPolicyEvent_handleEvent leafHubName (Ok replicated) d = (None, d1) ->
   replicatedPolicyEvent_handleEvent leafHubName (Ok replicated) d1 = (None, d2) ->
   event_rows (R := LocalReplicatedPolicyEvent) d2 = event_rows d1) /\
  (managedClusterEvent_handleEvent leafHubName (Ok clusters) d = (None, d1) ->
   managedClusterEvent_handleEvent leafHubName (Ok clusters) d1 = (None, d2) ->
   event_rows (R := ManagedClusterEvent) d2 = event_rows d1).
Proof.
  intros Hr Hp Hc. split_and!.
  - intros E1%root_handleEvent_None E2%root_handleEvent_None. eapply (create_again d); [|done..]; lia.
  - intros [[-> ->]|E1]%replicated_handleEvent_None [[-> E]|E2]%replicated_handleEvent_None; try done; simpl.
    + apply create_rows in E2; [done|lia|done].
    + eapply (create_again d); [|done..]; lia.
  - intros [[-> ->]|E1]%cluster_handleEvent_None [[-> E]|E2]%cluster_handleEvent_None; try done.
    + apply create_rows in E2; [done|unfold BatchSize; lia|done].
    + eapply (create_again d); [|done..]; unfold BatchSize; lia.
Qed.
End Redelivery.
End Props.

(** ** Witnesses *)
Module Sample.
#[local] Instance sources : SourceCodec := {| marshal_source s := Ok [] |}.
Definition base (name : string) (t : Z) : BaseEvent := MkBaseEvent name "ns" "m" "r" 1 "s" t.
Definition root (id name compliance : string) (t : Z) : RootPolicyEvent := MkRootPolicyEvent (base name t) id compliance.
Definition roots : list RootPolicyEvent :=
  [root "p1" "e" "Compliant" 5; root "" "x" "Compliant" 5; root "p1" "f" "NonCompliant" 6].
Definition stored : gmap (string * Z * Z) BaseLocalPolicyEvent :=
  (rootPolicyEvent_handleEvent "hub1" (Ok roots) ∅).2.

Lemma root_events_are_stored_witness :
  stored !! ("f", 1%Z, 6%Z) = Some (root_row "hub1" (root "p1" "f" "NonCompliant" 6)) /\ stored !! ("x", 1%Z, 5%Z) = None.
Proof.
  assert (Hs := root_events_are_stored (D := gmap (string * Z * Z) BaseLocalPolicyEvent) "hub1" roots ∅ stored).
  split; (eapply eq_trans; [apply Hs|]); try (reflexivity); apply (bool_decide_unpack _); exact I.
Defined.

Lemma repeated_root_event_refuses_bundle_witness :
  exists e d', rootPolicyEvent_handleEvent "hub1" (Ok (roots ++ roots)) stored = (Some e, d') /\ d' = stored.
Proof.
  destruct (repeated_root_event_refuses_bundle (D := gmap (string * Z * Z) BaseLocalPolicyEvent) "hub1" (roots ++ roots)
    stored) as (e & d' & E & Hd); [| | |exists e, d'; split; [exact E|exact Hd]].
  - apply (bool_decide_unpack _); exact I.
  - apply (bool_decide_unpack _); exact I.
  - apply (bool_decide_unpack _); exact I.
Defined.

Definition cluster_event (hub : string) (t : Z) : ManagedClusterEvent :=
  MkManagedClusterEvent "ns" "e" "c1" "id1" hub "m" "r" "ctl" "i" "Normal" t.
Definition cluster_rows : gmap (string * string * Z) ManagedClusterEvent :=
  (managedClusterEvent_handleEvent "hub1" (Ok [cluster_event "other" 5]) ∅).2.

Lemma cluster_events_keep_their_hub_witness : cluster_rows !! ("other", "e", 5%Z) = Some (cluster_event "other" 5).
Proof.
  pose proof (cluster_events_keep_their_hub (D := gmap (string * string * Z) ManagedClusterEvent) "hub1"
    [cluster_event "other" 5] ∅ cluster_rows) as Hc.
  eapply eq_trans; [apply Hc|reflexivity].
  - apply (bool_decide_unpack _); exact I.
  - reflexivity.
Defined.

Definition replicated : list ReplicatedPolicyEvent :=
  [MkReplicatedPolicyEvent (base "e" 5) "p1" "c1" "cluster1" "Pending"].
Definition replicated_rows : gmap (string * Z * Z) LocalReplicatedPolicyEvent :=
  (replicatedPolicyEvent_handleEvent "hub1" (Ok replicated) ∅).2.

Lemma replicated_events_are_appended_witness :
  (replicatedPolicyEvent_handleEvent "hub2" (Ok replicated) replicated_rows).2 !! ("e", 1%Z, 5%Z) =
    replicated_rows !! ("e", 1%Z, 5%Z).
Proof.
  pose proof (replicated_events_are_appended (D := gmap (string * Z * Z) LocalReplicatedPolicyEvent) "hub2"
    replicated replicated_rows) as Hr.
  eapply eq_trans; [apply Hr|reflexivity].
  - apply (bool_decide_unpack _); exact I.
  - reflexivity.
Defined.

(** The three tables together. *)
Definition Tables : Type :=
  gmap (string * Z * Z) BaseLocalPolicyEvent * gmap (string * Z * Z) LocalReplicatedPolicyEvent *
  gmap (string * string * Z) ManagedClusterEvent.
#[local] Program Instance roots_table : EventTable Tables BaseLocalPolicyEvent := {|
  create_in_batches t mode rows size :=
    let '(e, r) := create_in_batches t.1.1 mode rows size in (e, (r, t.1.2, t.2));
|}.
#[local] Program Instance replicated_table : EventTable Tables LocalReplicatedPolicyEvent := {|
  create_in_batches t mode rows size :=
    let '(e, r) := create_in_batches t.1.2 mode rows size in (e, (t.1.1, r, t.2));
|}.
#[local] Program Instance clusters_table : EventTable Tables ManagedClusterEvent := {|
  create_in_batches t mode rows size :=
    let '(e, r) := create_in_batches t.2 mode rows size in (e, (t.1, r));
|}.
#[local] Program Instance roots_laws : EventTableLaws Tables BaseLocalPolicyEvent (string * Z * Z) := {|
  event_rows t := t.1.1;
|}.
Next Obligation. intros t mode rows size t' _. simpl. destruct (exec_create _ _ _ _); [|done]. by intros [= <-]. Qed.
Next Obligation. intros t mode rows size e t'. simpl. destruct (exec_create _ _ _ _); [done|]. by intros [= _ <-]. Qed.
#[local] Program Instance replicated_laws : EventTableLaws Tables LocalReplicatedPolicyEvent (string * Z * Z) := {|
  event_rows t := t.1.2;
|}.
Next Obligation. intros t mode rows size t' _. simpl. destruct (exec_create _ _ _ _); [|done]. by intros [= <-]. Qed.
Next Obligation. intros t mode rows size e t'. simpl. destruct (exec_create _ _ _ _); [done|]. by intros [= _ <-]. Qed.
#[local] Program Instance clusters_laws : EventTableLaws Tables ManagedClusterEvent (string * string * Z) := {|
  event_rows t := t.2;
|}.
Next Obligation. intros t mode rows size t' _. simpl. destruct (exec_create _ _ _ _); [|done]. by intros [= <-]. Qed.
Next Obligation. intros t mode rows size e t'. simpl. destruct (exec_create _ _ _ _); [done|]. by intros [= _ <-]. Qed.

Definition handled : Tables := (rootPolicyEvent_handleEvent "hub1" (Ok roots) (∅, ∅, ∅)).2.

Lemma redelivered_events_change_nothing_witness :
  (rootPolicyEvent_handleEvent "hub1" (Ok roots) handled).2.1.1 = handled.1.1.
Proof.
  destruct (redelivered_events_change_nothing (D := Tables) "hub1" roots [] [] (∅, ∅, ∅) handled
    (rootPolicyEvent_handleEvent "hub1" (Ok roots) handled).2) as [Hr _].
  - apply (bool_decide_unpack _); exact I.
  - constructor.
  - constructor.
  - apply Hr; reflexivity.
Defined.
End Sample.
