(* ===== verification/InfoHandlers.v ===== *)
(** * Hub information, security alerts and minimal compliance

    The handlers of [handlers/managedhub/hub_cluster_info_handler.go],
    [handlers/security/security_alert_counts_handler.go] and
    [handlers/policy/policy_minimal_compliance_handler.go], over classes of the
    statements they use, whose laws are the effect on the rows. *)

From stdpp Require Import prelude gmap strings list.
From Stdlib Require Import ZArith Lia.
From S2P Require Import Prelude.
From S2P Require Import GoLib.
From S2P Require Import CloudEvents.
From S2P Require Import ComplianceDB.
Local Open Scope string_scope.
Local Open Scope list_scope.

(** ** Hub information *)
Definition DefaultClusterId : string := "00000000-0000-0000-0000-000000000000".

Record HubClusterInfo := MkHubInfo {
  hi_ConsoleURL : string;
  hi_GrafanaURL : string;
  hi_ClusterId : string;
}.
Record LeafHub := MkLeafHub {
  lh_LeafHubName : string;
  lh_ClusterID : string;
  lh_Payload : bytes;
}.

(** Soft deletion: the rows found and updated are those that are not deleted. *)
Class LeafHubTable (D : Type) := {
  leafhub_find : D -> string -> result (list LeafHub);           (** conditions by example: the name *)
  leafhub_create : D -> LeafHub -> option goerror * D;           (** [OnConflict] of the key, [UpdateAll] *)
  leafhub_updates : D -> string -> LeafHub -> option goerror * D; (** conditions by example: the name *)
}.
Class InfoCodec := { marshal_info : HubClusterInfo -> result bytes }.

Definition hubClusterInfo_handleEvent {D} `{LeafHubTable D, InfoCodec} (leafHubName : string)
    (decoded : result HubClusterInfo) (d : D) : option goerror * D :=
  match leafhub_find d leafHubName with
  | Err e => (Some e, d)
  | Ok existingObjects =>
      match decoded with
      | Err e => (Some e, d)
      | Ok hubInfoData =>
          let clusterId := if String.eqb (hi_ClusterId hubInfoData) "" then DefaultClusterId
                           else hi_ClusterId hubInfoData in
          match marshal_info hubInfoData with
          | Err e => (Some e, d)
          | Ok payload =>
              match existingObjects with
              | [] => leafhub_create d (MkLeafHub leafHubName clusterId payload)
              | _ => leafhub_updates d leafHubName (MkLeafHub leafHubName clusterId payload)
              end
          end
      end
  end.

(** ** Security alerts *)
Record SecurityAlertCounts := MkAlertCounts {
  ac_Low : Z;
  ac_Medium : Z;
  ac_High : Z;
  ac_Critical : Z;
  ac_DetailURL : string;
  ac_Source : string;
}.
(** [models.SecurityAlertCounts]: the counts with the name of the hub. *)
Record AlertRow := MkAlertRow { ar_HubName : string; ar_Counts : SecurityAlertCounts }.

Class AlertTable (D : Type) := { alert_create : D -> AlertRow -> option goerror * D }.  (** [UpdateAll] *)

Definition securityAlertCounts_handleEvent {D} `{AlertTable D} (leafHubName : string)
    (decoded : result SecurityAlertCounts) (d : D) : option goerror * D :=
  match decoded with
  | Err e => (Some e, d)
  | Ok wireModel => alert_create d (MkAlertRow leafHubName wireModel)
  end.

(** ** Minimal compliance *)
Record MinimalCompliance := MkMinimal {
  mc_PolicyID : string;
  mc_NonCompliantClusters : Z;
  mc_AppliedClusters : Z;
}.
Record AggregatedCompliance := MkAggregated {
  ag_PolicyID : string;
  ag_LeafHubName : string;
  ag_AppliedClusters : Z;
  ag_NonCompliantClusters : Z;
}.

Class AggregatedTable (D : Type) := {
  agg_ids : D -> string -> result (list string);               (** [SELECT DISTINCT(policy_id)] of a hub *)
  agg_create : D -> AggregatedCompliance -> option goerror * D; (** [UpdateAll] *)
  agg_delete : D -> string -> string -> option goerror * D;     (** conditions by example: policy and hub *)
}.

Section Minimal.
Context {D : Type} `{AggregatedTable D} `{Orders}.

Fixpoint minimal_entries (leafHub : string) (data : list MinimalCompliance) (ids : gset string) (d : D)
    : option goerror * gset string * D :=
  match data with
  | [] => (None, ids, d)
  | m :: rest =>
      match agg_create d (MkAggregated (mc_PolicyID m) leafHub (mc_AppliedClusters m) (mc_NonCompliantClusters m)) with
      | (Some e, d') => (Some ("failed to InsertUpdate minimal compliance of policy - " +:+ e), ids, d')
      | (None, d') => minimal_entries leafHub rest (ids ∖ {[mc_PolicyID m]}) d'
      end
  end.

Fixpoint remove_policies (leafHub : string) (ids : list string) (d : D) : option goerror * D :=
  match ids with
  | [] => (None, d)
  | policyID :: rest =>
      match agg_delete d policyID leafHub with
      | (Some e, d') => (Some ("failed to delete minimal compliance of policy - " +:+ e), d')
      | (None, d') => remove_policies leafHub rest d'
      end
  end.

Definition policyMini_handleEvent (leafHub : string) (decoded : result (list MinimalCompliance)) (d : D)
    : option goerror * D :=
  match decoded with
  | Err e => (Some e, d)
  | Ok data =>
      match agg_ids d leafHub with
      | Err e => (Some ("error reading from table - " +:+ e), d)
      | Ok ids =>
          match minimal_entries leafHub data (list_to_set ids) d with
          | (Some e, _, d') => (Some e, d')
          | (None, policyIDSetFromDB, d') => remove_policies leafHub (ToSlice policyIDSetFromDB) d'
          end
      end
  end.
End Minimal.

(** ** The meaning of the statements *)

(** Cluster ID and name of the hub, to the payload and whether it is deleted. *)
Notation HubRows := (gmap (string * string) (bytes * bool)).

Definition live_of (name : string) (t : HubRows) : list (string * string * (bytes * bool)) :=
  filter (fun kv => kv.1.2 = name /\ kv.2.2 = false) (map_to_list t).
Definition leaf_of (kv : string * string * (bytes * bool)) : LeafHub := MkLeafHub kv.1.2 kv.1.1 kv.2.1.

Definition exec_updates (name : string) (r : LeafHub) (t : HubRows) : result HubRows :=
  let k' := (lh_ClusterID r, lh_LeafHubName r) in
  match live_of name t with
  | [] => Ok t
  | [(k, _)] =>
      if bool_decide (k = k') || bool_decide (t !! k' = None)
      then Ok (<[k' := (lh_Payload r, false)]> (delete k t))
      else Err "duplicate key value violates unique constraint"
  | _ => Err "duplicate key value violates unique constraint"
  end.

(** A name is never empty: an empty one would be no condition. *)
Class LeafHubLaws (D : Type) `{LeafHubTable D} := {
  hub_rows : D -> HubRows;
  find_live d name l : name <> "" -> leafhub_find d name = Ok l -> l ≡ₚ leaf_of <$> live_of name (hub_rows d);
  hub_created d r d' : leafhub_create d r = (None, d') ->
    hub_rows d' = <[(lh_ClusterID r, lh_LeafHubName r) := (lh_Payload r, false)]> (hub_rows d);
  hub_not_created d r e d' : leafhub_create d r = (Some e, d') -> hub_rows d' = hub_rows d;
  hub_updated d name r d' : name <> "" -> leafhub_updates d name r = (None, d') ->
    exec_updates name r (hub_rows d) = Ok (hub_rows d');
  hub_not_updated d name r e d' : leafhub_updates d name r = (Some e, d') -> hub_rows d' = hub_rows d;
}.

#[export] Instance map_hub_table : LeafHubTable HubRows := {|
  leafhub_find t name := Ok (leaf_of <$> live_of name t);
  leafhub_create t r := (None, <[(lh_ClusterID r, lh_LeafHubName r) := (lh_Payload r, false)]> t);
  leafhub_updates t name r := match exec_updates name r t with Ok t' => (None, t') | Err e => (Some e, t) end;
|}.
#[export] Program Instance map_hub_laws : LeafHubLaws HubRows := {| hub_rows t := t |}.
Next Obligation. by intros t name l _ [= <-]. Qed.
Next Obligation. by intros t r t' [= <-]. Qed.
Next Obligation. by intros. Qed.
Next Obligation. intros t name r t' _. simpl. destruct (exec_updates _ _ _); [|done]. by intros [= <-]. Qed.
Next Obligation. intros t name r e t'. simpl. destruct (exec_updates _ _ _); [done|]. by intros [= _ <-]. Qed.

(** Policy and hub, to the numbers of clusters applied and not compliant. *)
Notation AggRows := (gmap (string * string) (Z * Z)).

Definition agg_deleted (policy hub : string) (t : AggRows) : AggRows :=
  filter (fun kv => ~ ((policy = "" \/ kv.1.1 = policy) /\ (hub = "" \/ kv.1.2 = hub))) t.

Class AggregatedLaws (D : Type) `{AggregatedTable D} := {
  agg_rows : D -> AggRows;
  agg_ids_rows d hub l : agg_ids d hub = Ok l -> forall p, p ∈ l <-> is_Some (agg_rows d !! (p, hub));
  agg_created d r d' : agg_create d r = (None, d') ->
    agg_rows d' = <[(ag_PolicyID r, ag_LeafHubName r) := (ag_AppliedClusters r, ag_NonCompliantClusters r)]> (agg_rows d);
  agg_removed d policy hub d' : agg_delete d policy hub = (None, d') -> agg_rows d' = agg_deleted policy hub (agg_rows d);
}.

#[export] Instance map_agg_table : AggregatedTable AggRows := {|
  agg_ids t hub := Ok ((fun kv => kv.1.1) <$> filter (fun kv => kv.1.2 = hub) (map_to_list t));
  agg_create t r := (None, <[(ag_PolicyID r, ag_LeafHubName r) := (ag_AppliedClusters r, ag_NonCompliantClusters r)]> t);
  agg_delete t policy hub := (None, agg_deleted policy hub t);
|}.
#[export] Program Instance map_agg_laws : AggregatedLaws AggRows := {| agg_rows t := t |}.
Next Obligation.
  intros t hub l [= <-] p. rewrite list_elem_of_fmap. split.
  - intros ([[p' h] v] & -> & [Hh Hin]%list_elem_of_filter). simpl in *. subst.
    apply elem_of_map_to_list in Hin. eauto.
  - intros [v Hv]. exists (p, hub, v). split; [done|]. by rewrite list_elem_of_filter, elem_of_map_to_list.
Qed.
Next Obligation. by intros t r t' [= <-]. Qed.
Next Obligation. by intros t policy hub t' [= <-]. Qed.

(** ** The row of a hub *)

(** At most one row of each hub is not deleted. *)
Definition one_live (t : HubRows) : Prop :=
  forall name c1 c2 p1 p2, t !! (c1, name) = Some (p1, false) -> t !! (c2, name) = Some (p2, false) -> c1 = c2.

Lemma elem_live name t c n v :
  (c, n, v) ∈ live_of name t <-> n = name /\ v.2 = false /\ t !! (c, n) = Some v.
Proof. unfold live_of. rewrite list_elem_of_filter, elem_of_map_to_list. simpl. tauto. Qed.

Lemma live_of_shape name t :
  one_live t ->
  live_of name t = [] \/ exists c p, live_of name t = [(c, name, (p, false))].
Proof.
  intros Ho. destruct (live_of name t) as [|[[c n] [p b]] rest] eqn:E; [by left|right].
  assert (Hx : (c, n, (p, b)) ∈ live_of name t) by (rewrite E; left).
  apply elem_live in Hx as (-> & Hb & Hx). simpl in Hb. subst b.
  destruct rest as [|[[c2 n2] [p2 b2]] rest]; [by exists c, p|].
  assert (Hy : (c2, n2, (p2, b2)) ∈ live_of name t) by (rewrite E; right; left).
  apply elem_live in Hy as (-> & Hb & Hy). simpl in Hb. subst b2.
  assert (c = c2) as -> by (by eapply Ho).
  assert (Hn : NoDup (live_of name t)) by (apply NoDup_filter, NoDup_map_to_list).
  rewrite E in Hn. apply NoDup_cons in Hn as [Hn _]. destruct Hn.
  assert (p = p2) as -> by congruence. left.
Qed.

Lemma live_nil name t : live_of name t = [] -> forall c p, t !! (c, name) <> Some (p, false).
Proof. intros E c p Hl. assert (Hx : (c, name, (p, false)) ∈ live_of name t) by (by apply elem_live). rewrite E in Hx. set_solver. Qed.

(** What a bundle leaves: the one live row of the hub, the deleted rows, and
    the rows of the other hubs. *)
Definition holds_info (name cluster : string) (p : bytes) (t t' : HubRows) : Prop :=
  t' !! (cluster, name) = Some (p, false) /\
  (forall c p', t' !! (c, name) = Some (p', false) -> c = cluster) /\
  forall c n, n <> name -> t' !! (c, n) = t !! (c, n).

Lemma holds_info_one_live name cluster p t t' : one_live t -> holds_info name cluster p t t' -> one_live t'.
Proof.
  intros Ho (Hc & Hu & Hn) n c1 c2 p1 p2. destruct (decide (n = name)) as [->|Hne].
  - intros H1%Hu H2%Hu. congruence.
  - rewrite !Hn by done. apply Ho.
Qed.

Definition cluster_of (i : HubClusterInfo) : string :=
  if String.eqb (hi_ClusterId i) "" then DefaultClusterId else hi_ClusterId i.

Section HubInfo.
Context {D : Type} `{LeafHubLaws D} `{InfoCodec}.

(** After the information of a hub is handled without an error, the hub has exactly one row that is not deleted, with the cluster ID of the bundle (the default one when it has none) and its payload; the rows of the other hubs are as they were, and every hub still has at most one live row. *)
Theorem hub_info_is_the_live_row name info payload d d' :
  name <> "" -> one_live (hub_rows d) -> marshal_info info = Ok payload ->
  hubClusterInfo_handleEvent name (Ok info) d = (None, d') ->
  holds_info name (cluster_of info) payload (hub_rows d) (hub_rows d') /\ one_live (hub_rows d').
Proof.
  intros Hn Ho Hm E.
  enough (Hh : holds_info name (cluster_of info) payload (hub_rows d) (hub_rows d')) by eauto using holds_info_one_live.
  unfold hubClusterInfo_handleEvent in E. rewrite Hm in E. fold (cluster_of info) in E.
  destruct (leafhub_find d name) as [l|] eqn:Ef; [|done]. apply find_live in Ef; [|done].
  set (t := hub_rows d) in *. destruct (live_of_shape name t Ho) as [El|(c & p & El)]; rewrite El in Ef.
  - apply Permutation_nil_r in Ef as ->. apply hub_created in E. cbn in E. fold t in E. rewrite E. unfold holds_info.
    split; [by rewrite lookup_insert_eq|]. split.
    + intros c p'. rewrite lookup_insert_Some. intros [[[= <-] _]|[_ Hl]]; [done|]. by destruct (live_nil name t El c p').
    + intros c n Hne. rewrite lookup_insert_ne by congruence. done.
  - apply Permutation_singleton_r in Ef as ->. cbn in E. apply hub_updated in E; [|done]. fold t in E.
    unfold exec_updates in E. rewrite El in E. cbn in E.
    destruct (bool_decide _ || bool_decide _); [|done]. injection E as E. rewrite <- E. unfold holds_info.
    split; [by rewrite lookup_insert_eq|]. split.
    + intros c' p'. rewrite lookup_insert_Some, lookup_delete_Some. intros [[[= <-] _]|(_ & Hne & Hl)]; [done|].
      assert (Hx : (c', name, (p', false)) ∈ live_of name t) by (by apply elem_live). rewrite El in Hx. set_solver.
    + intros c' n Hne. rewrite lookup_insert_ne, lookup_delete_ne by congruence. done.
Qed.

(** The cluster ID of a deleted row cannot come back to its hub: when the hub has a live row with another cluster ID, its information with the ID of the deleted row is refused, and the table stays as it is, so it is refused again each time. *)
Theorem returning_cluster_id_is_refused name info payload d cluster p0 pd :
  name <> "" -> one_live (hub_rows d) -> marshal_info info = Ok payload -> (exists l, leafhub_find d name = Ok l) ->
  hub_rows d !! (cluster, name) = Some (p0, false) -> cluster <> cluster_of info ->
  hub_rows d !! (cluster_of info, name) = Some (pd, true) ->
  exists e d', hubClusterInfo_handleEvent name (Ok info) d = (Some e, d') /\ hub_rows d' = hub_rows d.
Proof.
  intros Hn Ho Hm [l Ef] Hl Hne Hd. unfold hubClusterInfo_handleEvent. rewrite Ef, Hm. fold (cluster_of info).
  apply find_live in Ef; [|done]. set (t := hub_rows d) in *.
  destruct (live_of_shape name t Ho) as [El|(c & p & El)].
  { by destruct (live_nil name t El cluster p0). }
  assert (Hx : (cluster, name, (p0, false)) ∈ live_of name t) by (by apply elem_live).
  rewrite El in Hx. apply list_elem_of_singleton in Hx as [= <- <-].
  rewrite El in Ef. apply Permutation_singleton_r in Ef as ->. cbn.
  destruct (leafhub_updates d name _) as [[e|] d'] eqn:E; [exists e, d'; split; [done|by eapply hub_not_updated]|].
  exfalso. apply hub_updated in E; [|done]. fold t in E. unfold exec_updates in E. rewrite El in E. cbn in E.
  rewrite Hd in E. rewrite !bool_decide_false in E by congruence. done.
Qed.
End HubInfo.

(** ** Minimal compliance *)
Section Aggregated.
Context {D : Type} `{AggregatedLaws D} `{OrdersLaws}.

Definition agg_entry (hub : string) (t : AggRows) (m : MinimalCompliance) : AggRows :=
  <[(mc_PolicyID m, hub) := (mc_AppliedClusters m, mc_NonCompliantClusters m)]> t.

Lemma minimal_entries_None hub data ids d ids' d' :
  minimal_entries hub data ids d = (None, ids', d') ->
  ids' = ids ∖ list_to_set (mc_PolicyID <$> data) /\ agg_rows d' = fold_left (agg_entry hub) data (agg_rows d).
Proof.
  revert ids d. induction data as [|m data IH]; intros ids d; simpl.
  - intros [= <- <-]. split; [set_solver|done].
  - destruct (agg_create d _) as [[e|] d1] eqn:E; [done|]. apply agg_created in E. simpl in E.
    intros [-> ->]%IH. rewrite E. split; [set_solver|done].
Qed.

Lemma remove_policies_None hub ids d d' :
  hub <> "" -> "" ∉ ids -> remove_policies hub ids d = (None, d') ->
  forall k, agg_rows d' !! k = if decide (k.1 ∈ ids /\ k.2 = hub) then None else agg_rows d !! k.
Proof.
  intros Hh. revert d. induction ids as [|p ids IH]; intros d Hne; cbn [remove_policies].
  - intros [= <-] k. rewrite decide_False by set_solver. done.
  - destruct (agg_delete d p hub) as [[e|] d1] eqn:E; [done|]. apply agg_removed in E.
    intros Hr k. rewrite (IH d1) by (done || set_solver). rewrite E. unfold agg_deleted.
    rewrite map_lookup_filter. destruct (agg_rows d !! k) as [v|] eqn:El; cbn [mbind option_bind]; [|by repeat case_decide].
    destruct k as [kp kh]. cbn [fst snd]. destruct (decide (kp = p /\ kh = hub)) as [[-> ->]|Hn].
    + rewrite (option_guard_False) by (simpl; tauto). repeat case_decide; try done; exfalso; set_solver.
    + rewrite option_guard_True; [cbn [mbind option_bind]|simpl; set_solver].
      repeat case_decide; try done; exfalso; set_solver.
Qed.

Lemma agg_entries_lookup hub data t k :
  fold_left (agg_entry hub) data t !! k =
    match last (filter (fun m => (mc_PolicyID m, hub) = k) data) with
    | Some m => Some (mc_AppliedClusters m, mc_NonCompliantClusters m)
    | None => t !! k
    end.
Proof.
  revert t. induction data as [|m data IH] using rev_ind; intros t; [done|].
  rewrite fold_left_app, filter_app. cbn [fold_left]. unfold agg_entry at 1.
  destruct (decide ((mc_PolicyID m, hub) = k)) as [<-|Hne].
  - rewrite filter_cons_True, last_app by done. simpl. by rewrite lookup_insert_eq.
  - rewrite filter_cons_False, app_nil_r, lookup_insert_ne by done. apply IH.
Qed.

Lemma entries_of_hub (hub : string) (data : list MinimalCompliance) (p h : string) :
  filter (fun m => (mc_PolicyID m, hub) = (p, h)) data =
    if decide (h = hub) then filter (fun m => mc_PolicyID m = p) data else [].
Proof.
  case_decide as E; [subst; apply list_filter_iff; intros m; naive_solver|].
  induction data as [|m data IH]; [done|]. by rewrite filter_cons_False by congruence.
Qed.

(** A bundle of minimal compliances handled without an error makes the rows of its hub exactly its entries, the last one of each policy, and leaves the rows of the other hubs as they were. *)
Theorem minimal_bundle_is_the_hub_state hub data d d' :
  hub <> "" -> agg_rows d !! ("", hub) = None ->
  policyMini_handleEvent hub (Ok data) d = (None, d') ->
  forall p h, agg_rows d' !! (p, h) =
    if decide (h = hub) then
      (fun m => (mc_AppliedClusters m, mc_NonCompliantClusters m)) <$> last (filter (fun m => mc_PolicyID m = p) data)
    else agg_rows d !! (p, h).
Proof.
  intros Hh Hempty. unfold policyMini_handleEvent. destruct (agg_ids d hub) as [ids|] eqn:Ei; [|done].
  destruct (minimal_entries hub data _ d) as [[[e|] ids'] d1] eqn:Em; [done|].
  apply minimal_entries_None in Em as [-> Hr]. intros Hd p h.
  assert (Hin : forall x, x ∈ ToSlice (list_to_set ids ∖ list_to_set (mc_PolicyID <$> data)) <->
    is_Some (agg_rows d !! (x, hub)) /\ x ∉ mc_PolicyID <$> data).
  { intros x. rewrite ToSlice_perm, elem_of_elements, elem_of_difference, !elem_of_list_to_set.
    by rewrite (agg_ids_rows d hub ids Ei). }
  eapply remove_policies_None in Hd; [|done|intros [[v Hv] _]%Hin; congruence].
  rewrite Hd. clear Hd. cbn [fst snd]. rewrite Hr, agg_entries_lookup.
  rewrite entries_of_hub. destruct (decide (h = hub)) as [->|Hne].
  - destruct (last (filter (fun m => mc_PolicyID m = p) data)) as [m|] eqn:El; cbn [fmap option_fmap option_map].
    + rewrite decide_False; [done|]. intros [[_ Hp]%Hin _]. destruct Hp.
      apply last_Some_elem_of, list_elem_of_filter in El as [<- El]. by apply list_elem_of_fmap_2.
    + case_decide as E; [done|]. destruct (agg_rows d !! (p, hub)) eqn:Ea; [|done]. destruct E. split; [|done].
      apply Hin. split; [by eexists|]. intros (m & Ep & Hm)%list_elem_of_fmap.
      apply last_None in El. assert (Hx : m ∈ filter (fun m0 => mc_PolicyID m0 = p) data)
        by (by apply list_elem_of_filter). rewrite El in Hx. set_solver.
  - cbn [last]. by case_decide as E; [destruct E|].
Qed.
End Aggregated.

(** ** Witnesses *)
Module Sample.
#[local] Instance infos : InfoCodec := {| marshal_info _ := Ok [] |}.

(** A hub that was reinstalled: its first row is deleted. *)
Definition reinstalled : HubRows := {[("id1", "hub1") := ([], true); ("id2", "hub1") := ([], false)]}.
Definition info (id : string) : HubClusterInfo := MkHubInfo "console" "grafana" id.

Lemma reinstalled_one_live : one_live reinstalled.
Proof.
  intros name c1 c2 p1 p2. unfold reinstalled.
  rewrite !lookup_insert_Some, !lookup_singleton_Some. naive_solver.
Qed.

Definition updated : HubRows := (hubClusterInfo_handleEvent "hub1" (Ok (info "")) reinstalled).2.

Lemma hub_info_is_the_live_row_witness : updated !! (DefaultClusterId, "hub1") = Some ([], false).
Proof.
  destruct (hub_info_is_the_live_row (D := HubRows) "hub1" (info "") [] reinstalled updated) as [[Hl _] _];
    [done|exact reinstalled_one_live|reflexivity|reflexivity|exact Hl].
Defined.

Lemma returning_cluster_id_is_refused_witness :
  exists e d', hubClusterInfo_handleEvent "hub1" (Ok (info "id1")) reinstalled = (Some e, d') /\ d' = reinstalled.
Proof.
  destruct (returning_cluster_id_is_refused (D := HubRows) "hub1" (info "id1") [] reinstalled "id2" [] [])
    as (e & d' & E & Hd);
    [done|exact reinstalled_one_live|reflexivity|eexists; reflexivity|reflexivity|done|reflexivity|].
  exists e, d'. split; [exact E|exact Hd].
Defined.

Definition rows : AggRows := {[("p1", "hub1") := (3, 1)%Z; ("p2", "hub1") := (5, 0)%Z; ("p2", "hub2") := (1, 1)%Z]}.
Definition handled : AggRows := (policyMini_handleEvent "hub1" (Ok [MkMinimal "p1" 2 4]) rows).2.

Lemma minimal_bundle_is_the_hub_state_witness :
  handled !! ("p1", "hub1") = Some (4, 2)%Z /\ handled !! ("p2", "hub1") = None /\
  handled !! ("p2", "hub2") = Some (1, 1)%Z.
Proof.
  pose proof (minimal_bundle_is_the_hub_state (D := AggRows) "hub1" [MkMinimal "p1" 2 4] rows handled) as Hm.
  split; [|split]; (eapply eq_trans; [apply Hm|]); reflexivity || done.
Defined.
End Sample.
