(* ===== verification/LabelTable.v ===== *)
(** * The labels of managed clusters in the manager

    The table [spec.managed_clusters_labels] and its three users: the REST
    handler that patches it ([restapis/managedclusters/patch.go]), the syncer
    that sends its rows to the hubs ([spec/syncers/managedcluster_labels_syncer.go])
    and the watcher that trims the deleted keys and fills in the names of hubs
    ([spec/syncers/managedcluster_labels_watcher.go]). Nothing makes the IDs of
    the rows unique, so the table is a list of rows. *)

From stdpp Require Import prelude gmap strings list.
From Stdlib Require Import ZArith Lia Strings.Byte.
From S2P Require Import Prelude.
From S2P Require Import GoLib.
From S2P Require Import CloudEvents.
From S2P Require Import Libraries.
From S2P Require Import SpecTransport.
From S2P Require Import ComplianceDB.

Local Open Scope string_scope.
Local Open Scope list_scope.

Record LabelRow := MkLabelRow {
  ml_ID : string;
  ml_LeafHubName : string;
  ml_ManagedClusterName : string;
  ml_Labels : bytes;
  ml_DeletedLabelKeys : bytes;
  ml_Version : Z;
  ml_UpdatedAt : Z;
}.

(** The conditions of an update and what it sets besides the time: a field that
    is absent is no condition, or not set. *)
Record label_cond := MkCond {
  lc_ID : option string;
  lc_Hub : option string;
  lc_Name : option string;
  lc_Version : option Z;
}.
Record label_set := MkSet {
  ls_Hub : option string;
  ls_Labels : option bytes;
  ls_Deleted : option bytes;
  ls_Version : Z;
}.

Inductive label_query :=
| ByID (id : string)
| UpdatedHubs (since : Z)   (** the rows of the hubs that have a row updated since, and have a name *)
| WithDeletedKeys           (** [deleted_label_keys <> '[]'], of the hubs that have a name *)
| WithoutHub.               (** [leaf_hub_name = ''] *)

(** [Lock] is the advisory lock, taken when backups are enabled only. *)
Class LabelDB (D : Type) := {
  Lock : D -> option goerror;
  cluster_by_id : D -> string -> result (string * string);      (** hub and name *)
  label_rows : D -> label_query -> result (list LabelRow);
  label_create : D -> LabelRow -> option goerror * D;
  label_update : D -> label_cond -> label_set -> option goerror * nat * D;  (** error and rows affected *)
  max_updated : D -> scanned Z;                                  (** [SELECT MAX(updated_at)] *)
  status_labels : D -> string -> string -> scanned bytes;        (** labels in the payload; NULL is empty *)
  hub_of_cluster : D -> string -> result string;
}.

(** [json.Marshal] and [json.Unmarshal] of the labels, of the keys and of a bundle. *)
Class LabelCodec := {
  marshal_labels : gmap string string -> result bytes;
  unmarshal_labels : bytes -> result (gmap string string);
  marshal_keys : list string -> result bytes;
  unmarshal_keys : bytes -> result (list string);
  marshal_label_bundle : ManagedClusterLabelsSpecBundle -> result bytes;
  unmarshal_label_bundle : bytes -> result ManagedClusterLabelsSpecBundle;
}.

(** ** [patch.go] *)
Definition onlyPatchOfLabelsIsImplemented : string := "only patch of labels is currently implemented".
Definition onlyAddOrRemoveAreImplemented : string := "only add or remove operations are currently implemented".
Definition noRowsAffectedByOptimisticConcurrencyUpdate : string :=
  "no rows were affected by an optimistic-concurrency update query".
Definition optimisticConcurrencyRetryAttempts : nat := 5.

Record patch := MkPatch { p_Op : string; p_Path : string; p_Value : string }.

(** [strings.TrimPrefix], and [strings.Replace] of the first occurrence. *)
Definition TrimPrefix (s p : string) : string :=
  if String.prefix p s then String.substring (String.length p) (String.length s - String.length p) s else s.
Fixpoint replace_first (old new s : string) : string :=
  if String.prefix old s
  then new +:+ String.substring (String.length old) (String.length s - String.length old) s
  else match s with
       | EmptyString => EmptyString
       | String c s' => String c (replace_first old new s')
       end.

(** The response written, or the labels to add and to remove. *)
Fixpoint getLabels (patches : list patch) (labelsToAdd : gmap string string) (labelsToRemove : gset string)
    : (Z * string) + (gmap string string * gset string) :=
  match patches with
  | [] => inr (labelsToAdd, labelsToRemove)
  | aPatch :: rest =>
      let rawLabel := TrimPrefix (p_Path aPatch) "/metadata/labels/" in
      if String.eqb rawLabel (p_Path aPatch) then inl (501%Z, onlyPatchOfLabelsIsImplemented)
      else
        let label := replace_first "~1" "/" rawLabel in
        if String.eqb (p_Op aPatch) "add"
        then getLabels rest (<[label := p_Value aPatch]> labelsToAdd) (labelsToRemove ∖ {[label]})
        else if String.eqb (p_Op aPatch) "remove"
        then getLabels rest (delete label labelsToAdd) ({[label]} ∪ labelsToRemove)
        else inl (501%Z, onlyAddOrRemoveAreImplemented)
  end.

(** A condition by example on a version: zero is no condition. *)
Definition version_cond (v : Z) : option Z := if (v =? 0)%Z then None else Some v.

Section Labels.
Context {D : Type} `{LabelDB D} `{LabelCodec} `{Orders}.

(** The labels a row is updated to. *)
Definition merge_labels (labelsToAdd existLabels : gmap string string) (labelsToRemove existRemove : gset string)
    : gmap string string * gset string :=
  (labelsToAdd ∪ filter (fun kv => kv.1 ∉ labelsToRemove) existLabels,
   filter (fun k => labelsToAdd !! k = None) existRemove ∪ labelsToRemove).

Definition updateRow (clusterID : string) (labelsToAdd existLabels : gmap string string)
    (labelsToRemove existRemove : gset string) (existVersion : Z) (d : D) : option goerror * D :=
  let '(newLabelsToAdd, newLabelsToRemove) := merge_labels labelsToAdd existLabels labelsToRemove existRemove in
  match marshal_labels newLabelsToAdd with
  | Err e => (Some e, d)
  | Ok newLabelsToAddPayload =>
      match marshal_keys (ToSlice newLabelsToRemove) with
      | Err e => (Some e, d)
      | Ok newKeysToRemovePayload =>
          match label_update d (MkCond (Some clusterID) None None (version_cond existVersion))
            (MkSet None (Some newLabelsToAddPayload) (Some newKeysToRemovePayload) (swrap64 (existVersion + 1))) with
          | (Some e, _, d') => (Some ("failed to update a row: " +:+ e), d')
          | (None, O, d') => (Some ("failed to update a row: " +:+ noRowsAffectedByOptimisticConcurrencyUpdate), d')
          | (None, S _, d') => (None, d')
          end
      end
  end.

(** What a row that was read is updated with. *)
Definition update_read_row (clusterID : string) (labelsToAdd : gmap string string) (labelsToRemove : gset string)
    (row : LabelRow) (d : D) : option goerror * D :=
  match unmarshal_labels (ml_Labels row) with
  | Err e => (Some ("failed to unmarshal currentLabels: " +:+ e), d)
  | Ok existLabels =>
      match unmarshal_keys (ml_DeletedLabelKeys row) with
      | Err e => (Some ("failed to unmarshal currentLabelToRemoveSlice: " +:+ e), d)
      | Ok existLabelsToRemoveSlice =>
          match updateRow clusterID labelsToAdd existLabels labelsToRemove (list_to_set existLabelsToRemoveSlice)
            (ml_Version row) d with
          | (Some e, d') => (Some ("failed to update managed_clusters_labels table: " +:+ e), d')
          | (None, d') => (None, d')
          end
      end
  end.

Definition updateLabels (clusterID leafHubName managedClusterName : string) (labelsToAdd : gmap string string)
    (labelsToRemove : gset string) (d : D) : option goerror * D :=
  if bool_decide (labelsToAdd = ∅) && bool_decide (labelsToRemove = ∅) then (None, d)
  else
    match Lock d with
    | Some e => (Some e, d)
    | None =>
        match label_rows d (ByID clusterID) with
        | Err e => (Some ("failed to read from managed_clusters_labels: " +:+ e), d)
        | Ok [] =>
            match marshal_labels labelsToAdd with
            | Err e => (Some e, d)
            | Ok labelToLoadPayload =>
                match marshal_keys (ToSlice labelsToRemove) with
                | Err e => (Some e, d)
                | Ok keysToRemovePayload =>
                    label_create d (MkLabelRow clusterID leafHubName managedClusterName labelToLoadPayload
                      keysToRemovePayload 0 0)
                end
            end
        | Ok (row :: _) => update_read_row clusterID labelsToAdd labelsToRemove row d
        end
    end.

(** The last error when the attempts are used up. *)
Fixpoint updateLabels_attempts (attempts : nat) (clusterID leafHubName managedClusterName : string)
    (labelsToAdd : gmap string string) (labelsToRemove : gset string) (last : option goerror) (d : D)
    : option goerror * D :=
  match attempts with
  | O => (last, d)
  | S n =>
      match updateLabels clusterID leafHubName managedClusterName labelsToAdd labelsToRemove d with
      | (None, d') => (None, d')
      | (Some e, d') =>
          updateLabels_attempts n clusterID leafHubName managedClusterName labelsToAdd labelsToRemove (Some e) d'
      end
  end.

(** The statuses and texts written, in order; the binding of the body, that
    writes its own error, is an argument. *)
Definition PatchManagedCluster (clusterID : string) (bound : (Z * string) + list patch) (d : D)
    : list (Z * string) * D :=
  match cluster_by_id d clusterID with
  | Err _ => ([], d)
  | Ok (leafHubName, managedClusterName) =>
      match bound with
      | inl response => ([response], d)
      | inr patches =>
          match getLabels patches ∅ ∅ with
          | inl response => ([response], d)
          | inr (labelsToAdd, labelsToRemove) =>
              let '(err, d') := updateLabels_attempts optimisticConcurrencyRetryAttempts clusterID leafHubName
                managedClusterName labelsToAdd labelsToRemove None d in
              ((match err with Some _ => [(500%Z, "internal error")] | None => [] end) ++
                 [(200%Z, "managed cluster label patched")], d')
          end
      end
  end.

(** ** [managedcluster_labels_syncer.go] *)
Definition ManagedClusterLabelsBundles : Type := gmap string ManagedClusterLabelsSpecBundle.

Fixpoint label_bundles (rows : list LabelRow) (acc : gmap string ManagedClusterLabelsSpecBundle)
    : result (gmap string ManagedClusterLabelsSpecBundle) :=
  match rows with
  | [] => Ok acc
  | row :: rest =>
      let b := default (MkLabelsBundle [] (ml_LeafHubName row)) (acc !! ml_LeafHubName row) in
      match unmarshal_labels (ml_Labels row) with
      | Err e => Err ("error to unmarshal labels - " +:+ e)
      | Ok labels =>
          match unmarshal_keys (ml_DeletedLabelKeys row) with
          | Err e => Err ("error to unmarshal deletedKeys - " +:+ e)
          | Ok deletedKeys =>
              let spec := MkLabelsSpec (ml_ManagedClusterName row) labels deletedKeys (ml_UpdatedAt row) (ml_Version row) in
              label_bundles rest
                (<[ml_LeafHubName row := MkLabelsBundle (mlb_Objects b ++ [spec]) (mlb_LeafHubName b)]> acc)
          end
      end
  end.

Definition getManagedClusterLabelBundleByRows (rows : list LabelRow)
    : result (gmap string ManagedClusterLabelsSpecBundle) := label_bundles rows ∅.

Definition getUpdatedManagedClusterLabelsBundles (timestamp : Z) (d : D)
    : result (gmap string ManagedClusterLabelsSpecBundle) :=
  let? rows := label_rows d (UpdatedHubs timestamp) in getManagedClusterLabelBundleByRows rows.

(** [GetLastUpdateTimestamp]: an error of [Scan] other than no row leaves the zero
    time. *)
Definition GetLastUpdateTimestamp (d : D) : result Z :=
  match max_updated d with
  | Scanned t => Ok t
  | ScanError _ => Ok 0%Z
  | NoRows => Err "no objects in the table"
  end.

Section Send.
Context {P Event : Type} `{EventSDK Event} `{Producer P Event}.

Definition label_event (leafHubName : string) (payload : bytes) : Event :=
  utils_ToCloudEvent ManagedClustersLabelsMsgKey CloudEventSourceGlobalHub leafHubName payload.

Fixpoint send_bundles (hubs : list string) (bundles : gmap string ManagedClusterLabelsSpecBundle) (pr : P)
    : option goerror * P :=
  match hubs with
  | [] => (None, pr)
  | hub :: rest =>
      match bundles !! hub with
      | None => send_bundles rest bundles pr
      | Some b =>
          match marshal_label_bundle b with
          | Err _ => (Some "failed to sync marshal bundle", pr)
          | Ok payloadBytes =>
              match SendEvent pr "" (label_event hub payloadBytes) with
              | (Some e, pr') => (Some ("failed to sync message - " +:+ e), pr')
              | (None, pr') => send_bundles rest bundles pr'
              end
          end
      end
  end.

(** Whether a bundle was sent, the error, and the time of the last sync. *)
Definition syncManagedClusterLabelsBundles (d : D) (lastSyncTimestamp : Z) (pr : P)
    : (bool * option goerror) * Z * P :=
  match GetLastUpdateTimestamp d with
  | Err e => ((false, Some ("unable to sync bundle - " +:+ e)), lastSyncTimestamp, pr)
  | Ok lastUpdateTimestamp =>
      if (lastUpdateTimestamp <=? lastSyncTimestamp)%Z then ((false, None), lastSyncTimestamp, pr)
      else
        match getUpdatedManagedClusterLabelsBundles lastSyncTimestamp d with
        | Err e => ((false, Some ("unable to sync bundle - " +:+ e)), lastSyncTimestamp, pr)
        | Ok bundles =>
            match send_bundles (range_keys bundles) bundles pr with
            | (Some e, pr') => ((false, Some e), lastSyncTimestamp, pr')
            | (None, pr') => ((true, None), lastUpdateTimestamp, pr')
            end
        end
  end.
End Send.

(** ** [managedcluster_labels_watcher.go] *)
Definition getLabelBundleWithDeletedKey (d : D) : result (gmap string ManagedClusterLabelsSpecBundle) :=
  let? rows := label_rows d WithDeletedKeys in getManagedClusterLabelBundleByRows rows.

Definition getLabelsFromManagedCluster (leafHubName managedClusterName : string) (d : D)
    : result (gmap string string) :=
  match status_labels d leafHubName managedClusterName with
  | NoRows => Ok ∅
  | ScanError e => Err ("error reading from table status.managed_clusters - " +:+ e)
  | Scanned labelsPayload => unmarshal_labels labelsPayload
  end.

(** The error of the statement is not the one that is wrapped. *)
Definition updateDeletedKeysToLabelTable (readVersion : Z) (leafHubName managedClusterName : string)
    (deletedLabelKeys : list string) (d : D) : option goerror * D :=
  match marshal_keys deletedLabelKeys with
  | Err e => (Some ("failed to marshal deleted labels - " +:+ e), d)
  | Ok deletedLabelsJSON =>
      match label_update d (MkCond None (Some leafHubName) (Some managedClusterName) (Some readVersion))
        (MkSet None None (Some deletedLabelsJSON) (swrap64 (readVersion + 1))) with
      | (Some _, _, d') => (Some "failed to update managed cluster labels row in spec.managed_clusters_labels - ", d')
      | (None, O, d') => (Some "failed to update managed cluster labels row in spec.managed_clusters_labels", d')
      | (None, S _, d') => (None, d')
      end
  end.

(** The deleted keys of a spec that its cluster still has. *)
Definition keys_still_in_status (spec : ManagedClusterLabelsSpec) (labelsStatus : gmap string string) : list string :=
  filter (fun k => is_Some (labelsStatus !! k)) (mls_DeletedLabelKeys spec).

Definition trim_spec (leafHubName : string) (spec : ManagedClusterLabelsSpec) (d : D) : bool * D :=
  match getLabelsFromManagedCluster leafHubName (mls_ClusterName spec) d with
  | Err _ => (false, d)
  | Ok labelsStatus =>
      let still := keys_still_in_status spec labelsStatus in
      if (length still =? length (mls_DeletedLabelKeys spec))%nat then (true, d)
      else
        match updateDeletedKeysToLabelTable (mls_Version spec) leafHubName (mls_ClusterName spec) still d with
        | (Some _, d') => (false, d')
        | (None, d') => (true, d')
        end
  end.

Fixpoint trim_specs (leafHubName : string) (specs : list ManagedClusterLabelsSpec) (result_ : bool) (d : D) : bool * D :=
  match specs with
  | [] => (result_, d)
  | spec :: rest => let '(ok, d') := trim_spec leafHubName spec d in trim_specs leafHubName rest (result_ && ok) d'
  end.

Fixpoint trim_hubs (hubs : list string) (bundles : gmap string ManagedClusterLabelsSpecBundle) (result_ : bool) (d : D)
    : bool * D :=
  match hubs with
  | [] => (result_, d)
  | hub :: rest =>
      match bundles !! hub with
      | None => trim_hubs rest bundles result_ d
      | Some b =>
          let '(r, d') := trim_specs (mlb_LeafHubName b) (mlb_Objects b) result_ d in trim_hubs rest bundles r d'
      end
  end.

Definition updateDeletedLabelsByManagedCluster (d : D) : bool * D :=
  match getLabelBundleWithDeletedKey d with
  | Err _ => (false, d)
  | Ok bundles =>
      match Lock d with
      | Some _ => (false, d)
      | None => trim_hubs (range_keys bundles) bundles true d
      end
  end.

Definition updateLeafHubNameByClusterName (readVersion : Z) (managedClusterName leafHubName : string) (d : D)
    : option goerror * D :=
  match Lock d with
  | Some e => (Some e, d)
  | None =>
      match label_update d (MkCond None None (Some managedClusterName) (Some readVersion))
        (MkSet (Some leafHubName) None None (swrap64 (readVersion + 1))) with
      | (Some e, _, d') => (Some ("failed to update managed cluster labels row - " +:+ e), d')
      | (None, O, d') => (Some "failed to update managed cluster labels row", d')
      | (None, S _, d') => (None, d')
      end
  end.

Fixpoint fill_hubs (entities : list (string * Z)) (d : D) : D :=
  match entities with
  | [] => d
  | (clusterName, version) :: rest =>
      match hub_of_cluster d clusterName with
      | Err _ => fill_hubs rest d
      | Ok leafHubName => fill_hubs rest (updateLeafHubNameByClusterName version clusterName leafHubName d).2
      end
  end.

Definition getLabelsWithoutLeafHubName (d : D) : result (list (string * Z)) :=
  let? rows := label_rows d WithoutHub in Ok ((fun r => (ml_ManagedClusterName r, ml_Version r)) <$> rows).

Definition fillMissingLeafHubNames (d : D) : D :=
  match getLabelsWithoutLeafHubName d with
  | Err _ => d
  | Ok entities => fill_hubs entities d
  end.
End Labels.

(** ** The meaning of the statements *)
Definition cond_holds {A} `{EqDecision A} (c : option A) (a : A) : bool :=
  match c with None => true | Some x => bool_decide (a = x) end.
Definition row_matches (c : label_cond) (r : LabelRow) : bool :=
  cond_holds (lc_ID c) (ml_ID r) && cond_holds (lc_Hub c) (ml_LeafHubName r) &&
  cond_holds (lc_Name c) (ml_ManagedClusterName r) && cond_holds (lc_Version c) (ml_Version r).
Definition row_set (s : label_set) (now : Z) (r : LabelRow) : LabelRow :=
  MkLabelRow (ml_ID r) (default (ml_LeafHubName r) (ls_Hub s)) (ml_ManagedClusterName r)
    (default (ml_Labels r) (ls_Labels s)) (default (ml_DeletedLabelKeys r) (ls_Deleted s)) (ls_Version s) now.
Definition rows_updated (c : label_cond) (s : label_set) (now : Z) (rows : list LabelRow) : list LabelRow :=
  (fun r => if row_matches c r then row_set s now r else r) <$> rows.
Definition row_created (r : LabelRow) (now : Z) : LabelRow :=
  MkLabelRow (ml_ID r) (ml_LeafHubName r) (ml_ManagedClusterName r) (ml_Labels r) (ml_DeletedLabelKeys r) (ml_Version r) now.

Definition query_holds (empty_keys : bytes) (rows : list LabelRow) (q : label_query) (r : LabelRow) : bool :=
  match q with
  | ByID id => String.eqb id "" || String.eqb (ml_ID r) id
  | UpdatedHubs since =>
      negb (String.eqb (ml_LeafHubName r) "") &&
      existsb (fun r' => String.eqb (ml_LeafHubName r') (ml_LeafHubName r) && (since <? ml_UpdatedAt r')%Z) rows
  | WithDeletedKeys => negb (bool_decide (ml_DeletedLabelKeys r = empty_keys)) && negb (String.eqb (ml_LeafHubName r) "")
  | WithoutHub => String.eqb (ml_LeafHubName r) ""
  end.

(** The rows, and the time at which the next statement writes. *)
Class LabelDBLaws (D : Type) `{LabelDB D, LabelCodec} := {
  lrows : D -> list LabelRow;
  rows_found d q l : label_rows d q = Ok l -> forall empty_keys, marshal_keys [] = Ok empty_keys ->
    l ≡ₚ filter (fun r => query_holds empty_keys (lrows d) q r = true) (lrows d);
  row_create d r d' : label_create d r = (None, d') -> exists now, lrows d' = lrows d ++ [row_created r now];
  row_not_created d r e d' : label_create d r = (Some e, d') -> lrows d' = lrows d;
  row_update d c s n d' : label_update d c s = (None, n, d') ->
    n = length (filter (fun r => row_matches c r = true) (lrows d)) /\
    exists now, lrows d' = rows_updated c s now (lrows d);
  row_not_updated d c s e n d' : label_update d c s = (Some e, n, d') -> lrows d' = lrows d;
  max_is_max d t : max_updated d = Scanned t -> forall r, r ∈ lrows d -> (ml_UpdatedAt r <= t)%Z;
  max_is_some d t : max_updated d = Scanned t -> exists r, r ∈ lrows d /\ ml_UpdatedAt r = t;
}.
Class LabelCodecLaws `{LabelCodec} : Prop := {
  labels_roundtrip l b : marshal_labels l = Ok b -> unmarshal_labels b = Ok l;
  keys_roundtrip l b : marshal_keys l = Ok b -> unmarshal_keys b = Ok l;
  bundle_roundtrip l b : marshal_label_bundle l = Ok b -> unmarshal_label_bundle b = Ok l;
  empty_labels : exists e, unmarshal_labels [] = Err e;
}.

(** ** Patches of labels

    The patches of a request, applied one after the other as RFC 6902 says, are
    what the row of the cluster stands for: the lemmas relate [getLabels],
    [merge_labels] and the statements on the table to this reference. *)

(** ** The reference *)
Definition label_of (p : patch) : string := replace_first "~1" "/" (TrimPrefix (p_Path p) "/metadata/labels/").

(** One operation on the labels; removing a label that is not there does nothing. *)
Definition apply_patch (m : gmap string string) (p : patch) : gmap string string :=
  if String.eqb (p_Op p) "add" then <[label_of p := p_Value p]> m else delete (label_of p) m.

(** What labels to add and keys to remove do to the labels of a cluster. *)
Definition overlay (w : gmap string string * gset string) (m : gmap string string) : gmap string string :=
  w.1 ∪ filter (fun kv => kv.1 ∉ w.2) m.
Definition label_pair_ok (w : gmap string string * gset string) : Prop := forall k, k ∈ w.2 -> w.1 !! k = None.

Lemma overlay_lookup w m k :
  overlay w m !! k = match w.1 !! k with Some v => Some v | None => if decide (k ∈ w.2) then None else m !! k end.
Proof.
  unfold overlay. rewrite lookup_union, map_lookup_filter. destruct (w.1 !! k) as [v|].
  - by destruct (_ ≫= _).
  - rewrite (left_id_L None _). destruct (m !! k) as [x|]; cbn [mbind option_bind]; [|by case_decide].
    case_decide as E; [by rewrite option_guard_False by tauto|by rewrite option_guard_True].
Qed.

(** One operation on what is to be added and removed. *)
Definition patch_pair (w : gmap string string * gset string) (p : patch) : gmap string string * gset string :=
  if String.eqb (p_Op p) "add" then (<[label_of p := p_Value p]> w.1, w.2 ∖ {[label_of p]})
  else (delete (label_of p) w.1, {[label_of p]} ∪ w.2).

Definition valid_patch (p : patch) : Prop :=
  TrimPrefix (p_Path p) "/metadata/labels/" <> p_Path p /\ (p_Op p = "add" \/ p_Op p = "remove").

Lemma getLabels_inr patches L R r :
  getLabels patches L R = inr r -> Forall valid_patch patches /\ r = fold_left patch_pair patches (L, R).
Proof.
  revert L R. induction patches as [|p patches IH]; intros L R; simpl; [intros [= <-]; by split|].
  destruct (String.eqb_spec (TrimPrefix (p_Path p) "/metadata/labels/") (p_Path p)) as [|Hp]; [done|].
  fold (label_of p). unfold patch_pair at 2. simpl.
  destruct (String.eqb_spec (p_Op p) "add") as [Ha|Ha]; [|destruct (String.eqb_spec (p_Op p) "remove") as [Hr|]; [|done]];
    intros [Hf ->]%IH; (split; [constructor; [split; auto|done]|done]).
Qed.

Lemma getLabels_inl patches L R r : getLabels patches L R = inl r -> r.1 = 501%Z.
Proof.
  revert L R. induction patches as [|p patches IH]; intros L R; simpl; [done|].
  destruct (String.eqb _ (p_Path p)); [by intros [= <-]|].
  destruct (String.eqb (p_Op p) "add"); [apply IH|]. destruct (String.eqb (p_Op p) "remove"); [apply IH|].
  by intros [= <-].
Qed.

Lemma patch_pair_ok w p : label_pair_ok w -> label_pair_ok (patch_pair w p).
Proof.
  intros Hw k. unfold patch_pair. destruct (String.eqb (p_Op p) "add"); simpl.
  - intros [Hk Hne]%elem_of_difference. rewrite lookup_insert_ne by set_solver. by apply Hw.
  - intros [Hk|Hk]%elem_of_union; destruct (decide (k = label_of p)) as [->|Hne]; try set_solver.
    + by rewrite lookup_delete_eq.
    + by rewrite lookup_delete_eq.
    + rewrite lookup_delete_ne by done. by apply Hw.
Qed.

Lemma patch_pair_overlay w p m : overlay (patch_pair w p) m = apply_patch (overlay w m) p.
Proof.
  apply map_eq. intros k. rewrite overlay_lookup. unfold patch_pair, apply_patch.
  destruct (String.eqb (p_Op p) "add"); cbn [fst snd]; destruct (decide (k = label_of p)) as [->|Hne].
  - by rewrite !lookup_insert_eq.
  - rewrite !lookup_insert_ne by done. rewrite overlay_lookup. destruct (w.1 !! k); [done|].
    repeat case_decide; try done; exfalso; set_solver.
  - rewrite !lookup_delete_eq. case_decide; [done|]. exfalso. set_solver.
  - rewrite !lookup_delete_ne by done. rewrite overlay_lookup. destruct (w.1 !! k); [done|].
    repeat case_decide; try done; exfalso; set_solver.
Qed.

Lemma patches_overlay patches w m :
  overlay (fold_left patch_pair patches w) m = fold_left apply_patch patches (overlay w m).
Proof. revert w. induction patches as [|p patches IH]; intros w; simpl; [done|]. by rewrite IH, patch_pair_overlay. Qed.

Lemma patches_pair_ok patches w : label_pair_ok w -> label_pair_ok (fold_left patch_pair patches w).
Proof. intros Hw. apply fold_left_invariant; [|done]. intros. by apply patch_pair_ok. Qed.

Lemma empty_overlay m : overlay (∅, ∅) m = m.
Proof. apply map_eq. intros k. rewrite overlay_lookup. simpl. rewrite lookup_empty. by case_decide; [set_solver|]. Qed.

(** Merging new labels into those of the row: the new ones over the old ones. *)
Lemma merge_lookup L0 R0 L R k :
  (merge_labels L L0 R R0).1 !! k = match L !! k with Some v => Some v | None => if decide (k ∈ R) then None else L0 !! k end.
Proof. exact (overlay_lookup (L, R) L0 k). Qed.

Lemma merge_ok L0 R0 L R : label_pair_ok (L0, R0) -> label_pair_ok (L, R) -> label_pair_ok (merge_labels L L0 R R0).
Proof.
  intros H0 H k. cbn [snd merge_labels]. intros Hk. rewrite merge_lookup.
  apply elem_of_union in Hk as [[Hn Hk]%elem_of_filter|Hk]; [rewrite Hn; case_decide; [done|by apply H0]|].
  specialize (H k Hk). simpl in H. rewrite H. by case_decide.
Qed.

Lemma merge_overlay L0 R0 L R m :
  label_pair_ok (L, R) -> overlay (merge_labels L L0 R R0) m = overlay (L, R) (overlay (L0, R0) m).
Proof.
  intros Hok. apply map_eq. intros k. rewrite !overlay_lookup, merge_lookup. cbn [fst snd merge_labels].
  destruct (L !! k) as [v|] eqn:EL; [done|].
  destruct (decide (k ∈ R)) as [HR|HR]; [|destruct (L0 !! k) as [v|]; [done|]];
    repeat case_decide; try done; exfalso; set_solver.
Qed.

(** ** The rows *)
Section Rows.
Context {D : Type} `{LabelDBLaws D} `{!LabelCodecLaws} `{OrdersLaws}.

(** A row and the labels it stands for. *)
Definition row_holds (r : LabelRow) (w : gmap string string * gset string) : Prop :=
  exists keys, unmarshal_labels (ml_Labels r) = Ok w.1 /\ unmarshal_keys (ml_DeletedLabelKeys r) = Ok keys /\
    list_to_set keys = w.2.

Definition rows_of_id (id : string) (d : D) : list LabelRow :=
  filter (fun r => ml_ID r = id) (lrows d).

Lemma row_holds_marshaled id hub name L R lb kb v now :
  marshal_labels L = Ok lb -> marshal_keys (ToSlice R) = Ok kb -> row_holds (MkLabelRow id hub name lb kb v now) (L, R).
Proof.
  intros Hl Hk. exists (ToSlice R). split; [by apply labels_roundtrip|]. split; [by apply keys_roundtrip|].
  simpl. rewrite ToSlice_perm. by rewrite list_to_set_elements_L.
Qed.

Lemma rows_found_id d id l :
  id <> "" -> label_rows d (ByID id) = Ok l -> (exists b, marshal_keys [] = Ok b) -> l ≡ₚ rows_of_id id d.
Proof.
  intros Hid Hl [b Hb]. eapply rows_found in Hl; [|exact Hb]. rewrite Hl. unfold rows_of_id, query_holds.
  erewrite list_filter_iff; [done|]. intros r. simpl. rewrite (proj2 (String.eqb_neq id "") Hid). simpl.
  apply String.eqb_eq.
Qed.

(** The rows that an update does not match stay. *)
Lemma rows_updated_none c s now rows :
  length (filter (fun r => row_matches c r = true) rows) = 0 -> rows_updated c s now rows = rows.
Proof.
  intros E. apply nil_length_inv in E. unfold rows_updated. induction rows as [|r rows IH]; [done|].
  rewrite filter_cons in E. case_decide as Hm; [done|]. rewrite fmap_cons, IH by done.
  by rewrite (not_true_is_false _ Hm).
Qed.

Lemma row_matches_id id v r :
  row_matches (MkCond (Some id) None None v) r = if decide (ml_ID r = id) then cond_holds v (ml_Version r) else false.
Proof.
  unfold row_matches. cbn [lc_ID lc_Hub lc_Name lc_Version cond_holds]. rewrite !andb_true_r.
  by case_bool_decide; case_decide.
Qed.

Lemma row_set_ID s now r : ml_ID (row_set s now r) = ml_ID r.
Proof. done. Qed.

Lemma filter_id_updated id v s now rows :
  filter (fun r => ml_ID r = id) (rows_updated (MkCond (Some id) None None v) s now rows) =
    (fun r => if cond_holds v (ml_Version r) then row_set s now r else r) <$> filter (fun r => ml_ID r = id) rows.
Proof.
  induction rows as [|r rows IH]; [done|]. unfold rows_updated in *. rewrite fmap_cons, !filter_cons, row_matches_id, IH.
  destruct (decide (ml_ID r = id)) as [E|Hne]; [|by rewrite decide_False].
  destruct (cond_holds v (ml_Version r)) eqn:Ec; rewrite decide_True by done; by rewrite fmap_cons, Ec.
Qed.

Lemma filter_other_updated id v s now rows :
  filter (fun r => ml_ID r <> id) (rows_updated (MkCond (Some id) None None v) s now rows) =
    filter (fun r => ml_ID r <> id) rows.
Proof.
  induction rows as [|r rows IH]; [done|]. unfold rows_updated in *. rewrite fmap_cons, !filter_cons, row_matches_id, IH.
  destruct (decide (ml_ID r = id)) as [E|Hne]; [|done].
  by destruct (cond_holds v (ml_Version r)); rewrite !decide_False by (simpl; tauto).
Qed.

(** What the table says about a cluster: nothing, or what its one row holds. *)
Definition stands_for (id : string) (d : D) (w : gmap string string * gset string) : Prop :=
  label_pair_ok w /\
  match rows_of_id id d with
  | [] => w = (∅, ∅)
  | [r] => row_holds r w
  | _ => False
  end.

Lemma merge_empty_old L R : merge_labels L ∅ R ∅ = (L, R).
Proof.
  unfold merge_labels. f_equal.
  - rewrite map_filter_empty. by rewrite (right_id_L ∅ (∪)).
  - set_solver.
Qed.

Lemma merge_empty_new w : merge_labels ∅ w.1 ∅ w.2 = w.
Proof.
  destruct w as [L R]. unfold merge_labels. f_equal.
  - rewrite (left_id_L ∅ (∪)). apply map_filter_id. intros k x _. set_solver.
  - apply set_eq. intros k. rewrite elem_of_union, elem_of_filter, lookup_empty. set_solver.
Qed.

Lemma stands_for_rows id d d' w : lrows d' = lrows d -> stands_for id d w -> stands_for id d' w.
Proof. intros E. unfold stands_for, rows_of_id. by rewrite E. Qed.

Lemma version_cond_self v : cond_holds (version_cond v) v = true.
Proof. unfold version_cond. destruct (v =? 0)%Z; [done|]. simpl. by apply bool_decide_true. Qed.

(** The update of a row that was read, on a table whose one row for the ID has
    the version [ver]. *)
Lemma update_read_row_None id L R row w d d' :
  row_holds row w -> update_read_row id L R row d = (None, d') ->
  exists lb kb now, marshal_labels (merge_labels L w.1 R w.2).1 = Ok lb /\
    marshal_keys (ToSlice (merge_labels L w.1 R w.2).2) = Ok kb /\
    lrows d' = rows_updated (MkCond (Some id) None None (version_cond (ml_Version row)))
      (MkSet None (Some lb) (Some kb) (swrap64 (ml_Version row + 1))) now (lrows d) /\
    filter (fun r => row_matches (MkCond (Some id) None None (version_cond (ml_Version row))) r = true) (lrows d) <> [].
Proof.
  intros (keys & Hl & Hk & Hw). unfold update_read_row. rewrite Hl, Hk, Hw. unfold updateRow.
  set (m := merge_labels L w.1 R w.2). destruct m as [L' R']. cbn [fst snd].
  destruct (marshal_labels L') as [lb|]; [|done]. destruct (marshal_keys (ToSlice R')) as [kb|]; [|done].
  destruct (label_update d _ _) as [[[e|] [|n]] d1] eqn:E; try done. intros [= ->].
  apply row_update in E as (Hn & now & Hr). exists lb, kb, now. split_and!; try done.
  intros E. rewrite E in Hn. done.
Qed.

Lemma update_read_row_Some id L R row d e d' :
  update_read_row id L R row d = (Some e, d') -> lrows d' = lrows d.
Proof.
  unfold update_read_row, updateRow. destruct (unmarshal_labels _); [|by intros [= _ <-]].
  destruct (unmarshal_keys _); [|by intros [= _ <-]]. destruct (merge_labels _ _ _ _) as [L' R'].
  destruct (marshal_labels L') as [lb|]; [|by intros [= _ <-]].
  destruct (marshal_keys (ToSlice R')) as [kb|]; [|by intros [= _ <-]].
  destruct (label_update d _ _) as [[[x|] [|n]] d1] eqn:E; intros [= _ <-];
    try (by eapply row_not_updated).
  apply row_update in E as (Hn & now & ->). by apply rows_updated_none.
Qed.

Lemma updateLabels_Some id hub name L R d e d' :
  updateLabels id hub name L R d = (Some e, d') -> lrows d' = lrows d.
Proof.
  unfold updateLabels. destruct (bool_decide _ && bool_decide _); [done|]. destruct (Lock d); [by intros [= _ <-]|].
  destruct (label_rows d (ByID id)) as [[|row rest]|]; [|by apply update_read_row_Some|by intros [= _ <-]].
  destruct (marshal_labels L); [|by intros [= _ <-]]. destruct (marshal_keys _); [|by intros [= _ <-]].
  apply row_not_created.
Qed.

Lemma updateLabels_None id hub name L R d d' w :
  id <> "" -> (exists b, marshal_keys [] = Ok b) -> label_pair_ok (L, R) -> stands_for id d w ->
  updateLabels id hub name L R d = (None, d') ->
  stands_for id d' (merge_labels L w.1 R w.2) /\
  filter (fun r => ml_ID r <> id) (lrows d') = filter (fun r => ml_ID r <> id) (lrows d).
Proof.
  intros Hid Hb Hok [Hw Hs]. unfold updateLabels.
  destruct (bool_decide _ && bool_decide _) eqn:Eb.
  { apply andb_true_iff in Eb as [->%bool_decide_eq_true ->%bool_decide_eq_true]. intros [= <-].
    by rewrite merge_empty_new. }
  clear Eb. destruct (Lock d); [done|]. destruct (label_rows d (ByID id)) as [rows|] eqn:Er; [|done].
  apply rows_found_id in Er; [|done..]. unfold stands_for. destruct (rows_of_id id d) as [|r [|]] eqn:Ei; try done.
  - apply Permutation_nil_r in Er as ->. subst w. cbn [fst snd]. rewrite merge_empty_old.
    destruct (marshal_labels L) as [lb|] eqn:El; [|done].
    destruct (marshal_keys (ToSlice R)) as [kb|] eqn:Ek; [|done]. intros [now E]%row_create. unfold rows_of_id in *. rewrite E, !filter_app, Ei.
    rewrite filter_cons_True, filter_cons_False by (simpl; auto). rewrite !filter_nil, app_nil_r. split; [|done].
    split; [done|]. simpl. by apply row_holds_marshaled.
  - apply Permutation_singleton_r in Er as ->. cbn beta iota. intros E.
    destruct (update_read_row_None id L R r w d d') as (lb & kb & now & El & Ek & Hr & _); [done..|].
    unfold rows_of_id in *. rewrite Hr, filter_id_updated, filter_other_updated, Ei. split; [|done].
    split; [apply merge_ok; [by destruct w|done]|].
    change (filter (fun r => ml_ID r = id) (lrows d)) with (rows_of_id id d). simpl. rewrite version_cond_self.
    pose proof (row_holds_marshaled (ml_ID r) (ml_LeafHubName r) (ml_ManagedClusterName r) _ _ lb kb
      (swrap64 (ml_Version r + 1)) now El Ek) as Hh.
    by destruct (merge_labels L w.1 R w.2).
Qed.

Lemma attempts_None n id hub name L R last d d' w :
  id <> "" -> (exists b, marshal_keys [] = Ok b) -> label_pair_ok (L, R) -> stands_for id d w -> last <> None ->
  updateLabels_attempts n id hub name L R last d = (None, d') ->
  stands_for id d' (merge_labels L w.1 R w.2) /\
  filter (fun r => ml_ID r <> id) (lrows d') = filter (fun r => ml_ID r <> id) (lrows d).
Proof.
  intros Hid Hb Hok. revert last d. induction n as [|n IH]; intros last d Hs Hl; simpl; [by intros [= -> <-]|].
  destruct (updateLabels id hub name L R d) as [[e|] d1] eqn:E.
  - apply updateLabels_Some in E. intros Hn. apply IH in Hn as [? ->]; [by rewrite E| |done].
    by eapply stands_for_rows.
  - intros [= <-]. by eapply updateLabels_None.
Qed.

(** The hub and the name of the rows of a cluster. *)
Definition placed (id hub name : string) (d : D) : Prop :=
  forall r, r ∈ rows_of_id id d -> ml_LeafHubName r = hub /\ ml_ManagedClusterName r = name.

Lemma updateLabels_placed id hub name L R d err d' :
  placed id hub name d -> updateLabels id hub name L R d = (err, d') -> placed id hub name d'.
Proof.
  intros Hp. destruct err as [e|].
  { intros E%updateLabels_Some. unfold placed, rows_of_id in *. by rewrite E. }
  unfold updateLabels. destruct (bool_decide _ && bool_decide _); [by intros [= <-]|]. destruct (Lock d); [done|].
  destruct (label_rows d (ByID id)) as [[|row rest]|]; [| |done].
  - destruct (marshal_labels L); [|done]. destruct (marshal_keys (ToSlice R)); [|done]. intros [now E]%row_create.
    unfold placed, rows_of_id in *. rewrite E. intros r. rewrite filter_app, elem_of_app.
    intros [Hr|[_ ->%list_elem_of_singleton]%list_elem_of_filter]; [by apply Hp|done].
  - intros E. assert (Hr : row_holds row (default ∅ (match unmarshal_labels (ml_Labels row) with Ok l => Some l | _ => None end),
        list_to_set (match unmarshal_keys (ml_DeletedLabelKeys row) with Ok k => k | _ => [] end))).
    { revert E. unfold update_read_row, row_holds. destruct (unmarshal_labels _); [|done].
      destruct (unmarshal_keys _) as [keys|]; [|done]. intros _. by exists keys. }
    eapply update_read_row_None in E as (lb & kb & now & _ & _ & E & _); [|exact Hr].
    unfold placed, rows_of_id in *. rewrite E, filter_id_updated. intros r (r0 & -> & Hr0)%list_elem_of_fmap.
    specialize (Hp r0 Hr0). by destruct (cond_holds _ _).
Qed.

Lemma attempts_placed n id hub name L R last d err d' :
  placed id hub name d -> updateLabels_attempts n id hub name L R last d = (err, d') -> placed id hub name d'.
Proof.
  revert last d. induction n as [|n IH]; intros last d Hp; simpl; [by intros [= _ <-]|].
  destruct (updateLabels id hub name L R d) as [[e|] d1] eqn:E; apply updateLabels_placed in E; try done.
  - by apply IH.
  - by intros [= _ <-].
Qed.

Lemma patch_placed id hub name bound d rs d' :
  cluster_by_id d id = Ok (hub, name) -> placed id hub name d -> PatchManagedCluster id bound d = (rs, d') ->
  placed id hub name d'.
Proof.
  intros Hc Hp. unfold PatchManagedCluster. rewrite Hc. destruct bound as [?|patches]; [by intros [= _ <-]|].
  destruct (getLabels patches ∅ ∅) as [?|[L R]]; [by intros [= _ <-]|].
  destruct (updateLabels_attempts _ id hub name L R None d) as [err d1] eqn:E. intros [= _ <-].
  by eapply attempts_placed.
Qed.

(** A request that is not empty leaves something to add or to remove. *)
Lemma patches_not_empty patches w : patches <> [] -> fold_left patch_pair patches w <> (∅, ∅).
Proof.
  intros Hne. destruct patches as [|p patches _] using rev_ind; [done|]. rewrite fold_left_app. simpl. unfold patch_pair.
  destruct (String.eqb (p_Op p) "add"); intros [= E1 E2].
  - by apply insert_non_empty in E1.
  - set_solver.
Qed.

Lemma merge_not_empty L0 R0 L R : (L, R) <> (∅, ∅) -> merge_labels L L0 R R0 <> (∅, ∅).
Proof.
  intros Hne [= E1 E2]. apply Hne. f_equal; [|set_solver]. apply map_eq. intros k. rewrite lookup_empty.
  apply (f_equal (fun m => m !! k)) in E1. rewrite lookup_empty, lookup_union_None in E1. tauto.
Qed.

Lemma patch_spec id patches d d' w :
  id <> "" -> (exists b, marshal_keys [] = Ok b) -> stands_for id d w ->
  PatchManagedCluster id (inr patches) d = ([(200%Z, "managed cluster label patched")], d') ->
  exists w', stands_for id d' w' /\
    (forall m, overlay w' m = fold_left apply_patch patches (overlay w m)) /\
    filter (fun r => ml_ID r <> id) (lrows d') = filter (fun r => ml_ID r <> id) (lrows d) /\
    (patches <> [] -> w' <> (∅, ∅)).
Proof.
  intros Hid Hb Hs. unfold PatchManagedCluster. destruct (cluster_by_id d id) as [[hub name]|]; [|done].
  destruct (getLabels patches ∅ ∅) as [r|[L R]] eqn:Eg;
    [intros [= -> _]; by apply getLabels_inl in Eg|].
  apply getLabels_inr in Eg as [_ Eg].
  assert (Hok : label_pair_ok (L, R)).
  { rewrite Eg. apply patches_pair_ok. intros k. simpl. set_solver. }
  destruct (updateLabels_attempts _ id hub name L R None d) as [[e|] d1] eqn:E; [done|]. intros [= <-].
  exists (merge_labels L w.1 R w.2).
  assert (Ha : stands_for id d1 (merge_labels L w.1 R w.2) /\
    filter (fun r => ml_ID r <> id) (lrows d1) = filter (fun r => ml_ID r <> id) (lrows d)).
  { revert E. unfold optimisticConcurrencyRetryAttempts. cbn [updateLabels_attempts].
    destruct (updateLabels id hub name L R d) as [[e|] d2] eqn:E.
    - intros Ha. apply updateLabels_Some in E. rewrite <- E.
      eapply (attempts_None 4 id hub name L R (Some e) d2); [..|exact Ha]; try done. by eapply stands_for_rows.
    - intros [= <-]. by eapply updateLabels_None. }
  destruct Ha as [Hs' Ho]. split; [done|]. split_and!; [|done|].
  - intros m. destruct w as [L0 R0]. rewrite merge_overlay by done. rewrite Eg, patches_overlay, empty_overlay. done.
  - intros Hne. apply merge_not_empty. rewrite Eg. by apply patches_not_empty.
Qed.

(** A request that is answered with success alone makes the row of its cluster stand for the patches applied one after the other (the reference semantics of a JSON patch) to what it stood for: the labels it adds and removes have no key in common, on every set of labels they do what the old row does followed by the patches, and the rows of the other clusters are unchanged. *)
Theorem patch_applies_in_sequence id patches d d' w :
  id <> "" -> (exists b, marshal_keys [] = Ok b) -> stands_for id d w ->
  PatchManagedCluster id (inr patches) d = ([(200%Z, "managed cluster label patched")], d') ->
  exists w', stands_for id d' w' /\
    (forall m, overlay w' m = fold_left apply_patch patches (overlay w m)) /\
    filter (fun r => ml_ID r <> id) (lrows d') = filter (fun r => ml_ID r <> id) (lrows d).
Proof.
  intros Hid Hb Hs E. destruct (patch_spec id patches d d' w Hid Hb Hs E) as (w' & ? & ? & ? & _). eauto.
Qed.

(** The optimistic concurrency of the labels does not cover the first version: an update prepared from a row that another request has updated meanwhile is refused without effect when the version that was read is not zero, but when it is zero the version is no condition, the update succeeds, and the row stands for the labels read and the new ones alone, so the other request's labels are lost. *)
Theorem stale_update_wins_at_version_zero id L R row w d now_row w_now :
  id <> "" -> label_pair_ok (L, R) -> row_holds row w -> label_pair_ok w -> rows_of_id id d = [now_row] ->
  ml_Version now_row <> ml_Version row -> row_holds now_row w_now ->
  (ml_Version row <> 0%Z -> exists e d', update_read_row id L R row d = (Some e, d') /\ lrows d' = lrows d) /\
  (ml_Version row = 0%Z -> forall d', update_read_row id L R row d = (None, d') ->
     stands_for id d' (merge_labels L w.1 R w.2)).
Proof.
  intros Hid Hok Hr Hw Hrows Hv Hnow. split; intros Hz.
  - destruct (update_read_row id L R row d) as [[e|] d'] eqn:E.
    { exists e, d'. split; [done|]. by eapply update_read_row_Some. }
    exfalso. eapply update_read_row_None in E as (lb & kb & now & _ & _ & _ & Hne); [|done]. apply Hne.
    apply elem_of_nil_inv. intros r [Hm Hin]%list_elem_of_filter. rewrite row_matches_id in Hm. case_decide as Ei; [|done].
    assert (Hx : r ∈ rows_of_id id d) by (by apply list_elem_of_filter). rewrite Hrows in Hx.
    apply list_elem_of_singleton in Hx as ->. unfold version_cond in Hm. rewrite (proj2 (Z.eqb_neq _ _) Hz) in Hm.
    simpl in Hm. by apply bool_decide_eq_true in Hm.
  - intros d' E. eapply update_read_row_None in E as (lb & kb & now & El & Ek & Hrw & _); [|done].
    split; [apply merge_ok; [by destruct w|done]|]. unfold rows_of_id in *. rewrite Hrw, filter_id_updated, Hrows.
    simpl. unfold version_cond. rewrite Hz. simpl.
    pose proof (row_holds_marshaled (ml_ID now_row) (ml_LeafHubName now_row) (ml_ManagedClusterName now_row) _ _ lb kb
      (swrap64 1) now El Ek) as Hh.
    by destruct (merge_labels L w.1 R w.2).
Qed.
End Rows.
