(* ===== verification/LabelFlow.v ===== *)
(** * From a patch of labels to the labels of a cluster

    The rows of the labels table are sent to the hub of the cluster
    ([LabelTable]), whose agent applies them ([SpecAgent]); the watcher trims
    the keys that the cluster does not report. *)

From stdpp Require Import prelude gmap strings list.
From Stdlib Require Import ZArith Lia.
From S2P Require Import Prelude.
From S2P Require Import GoLib.
From S2P Require Import CloudEvents.
From S2P Require Import Libraries.
From S2P Require Import SpecTransport.
From S2P Require Import KubeObjects.
From S2P Require Import ComplianceDB.
From S2P Require Import SpecAgent.
From S2P Require Import SpecAgentFacts.
From S2P Require Import LabelTable.
Local Open Scope string_scope.
Local Open Scope list_scope.

(** The agent sets the labels, then removes the keys: the two do not meet. *)
Lemma apply_is_overlay spec w m :
  label_pair_ok w -> mls_Labels spec = w.1 -> list_to_set (mls_DeletedLabelKeys spec) = w.2 ->
  apply_labels spec m = overlay w m.
Proof.
  intros Hok Hl Hk. apply map_eq. intros k. rewrite apply_labels_lookup, overlay_lookup, Hl.
  assert (Hin : k ∈ mls_DeletedLabelKeys spec <-> k ∈ w.2) by (rewrite <- Hk; by rewrite elem_of_list_to_set).
  destruct (w.1 !! k) as [v|] eqn:E.
  - rewrite decide_False; [done|]. intros Hd%Hin%Hok. congruence.
  - by repeat case_decide; tauto || done.
Qed.

Section Sync.
Context {D P Event : Type} `{LabelDBLaws D} `{!LabelCodecLaws} `{OrdersLaws}.
Context `{EventLaws Event} `{!Producer P Event} `{!ProducerLog P Event}.

(** The spec of a row whose columns decode. *)
Definition spec_of_row (r : LabelRow) : result ManagedClusterLabelsSpec :=
  let? labels := unmarshal_labels (ml_Labels r) in
  let? keys := unmarshal_keys (ml_DeletedLabelKeys r) in
  Ok (MkLabelsSpec (ml_ManagedClusterName r) labels keys (ml_UpdatedAt r) (ml_Version r)).

(** The bundles hold the specs of the rows of each hub, in order. *)
Definition bundles_hold (rows : list LabelRow) (m : gmap string ManagedClusterLabelsSpecBundle) : Prop :=
  forall hub,
    match m !! hub with
    | Some b => mlb_LeafHubName b = hub /\
        Forall2 (fun r spec => spec_of_row r = Ok spec) (filter (fun r => ml_LeafHubName r = hub) rows) (mlb_Objects b)
    | None => filter (fun r => ml_LeafHubName r = hub) rows = []
    end.

Lemma label_bundles_hold rows before acc m :
  bundles_hold before acc -> label_bundles rows acc = Ok m -> bundles_hold (before ++ rows) m.
Proof.
  revert before acc. induction rows as [|r rows IH]; intros before acc Hb; simpl.
  - intros [= <-]. by rewrite app_nil_r.
  - destruct (unmarshal_labels (ml_Labels r)) as [labels|] eqn:El; [|done].
    destruct (unmarshal_keys (ml_DeletedLabelKeys r)) as [keys|] eqn:Ek; [|done].
    intros Hm. replace (before ++ r :: rows) with ((before ++ [r]) ++ rows) by by rewrite <- app_assoc.
    eapply IH; [|exact Hm]. intros hub. specialize (Hb hub). rewrite filter_app.
    destruct (decide (ml_LeafHubName r = hub)) as [<-|Hne].
    + rewrite lookup_insert_eq, filter_cons_True by done. simpl.
      assert (Hs : spec_of_row r = Ok (MkLabelsSpec (ml_ManagedClusterName r) labels keys (ml_UpdatedAt r) (ml_Version r)))
        by (unfold spec_of_row; by rewrite El; simpl; rewrite Ek).
      destruct (acc !! ml_LeafHubName r) as [b|]; simpl.
      * destruct Hb as [-> Hb]. split; [done|]. apply Forall2_app; [done|]. by repeat constructor.
      * rewrite Hb. split; [done|]. by repeat constructor.
    + rewrite lookup_insert_ne, filter_cons_False by done. rewrite filter_nil, app_nil_r. exact Hb.
Qed.

Lemma send_bundles_None hubs m pr pr' :
  send_bundles hubs m pr = (None, pr') ->
  exists evs, sent_events pr' = sent_events pr ++ evs /\
    forall hub b, hub ∈ hubs -> m !! hub = Some b ->
      exists payload, marshal_label_bundle b = Ok payload /\ label_event (Event := Event) hub payload ∈ evs.
Proof.
  revert pr. induction hubs as [|hub hubs IH]; intros pr; simpl.
  - intros [= <-]. exists []. rewrite app_nil_r. split; [done|]. by intros ? ? ?%not_elem_of_nil.
  - destruct (m !! hub) as [b|] eqn:Eb.
    + destruct (marshal_label_bundle b) as [payload|] eqn:Ep; [|done].
      destruct (SendEvent pr "" _) as [[e|] pr1] eqn:Es; [done|]. intros Hs. apply IH in Hs as (evs & Hs & Hin).
      apply send_accepted in Es. exists (label_event hub payload :: evs). split; [by rewrite Hs, Es, <- app_assoc|].
      intros h b' [->|Hh]%elem_of_cons Hb'.
      * rewrite Eb in Hb'. injection Hb' as <-. exists payload. split; [done|]. by left.
      * destruct (Hin h b' Hh Hb') as (p & Hp & Hi). exists p. split; [done|]. by right.
    + intros Hs. apply IH in Hs as (evs & Hs & Hin). exists evs. split; [done|].
      intros h b' [->|Hh]%elem_of_cons Hb'; [congruence|eauto].
Qed.

(** What a sync that ends without an error sends. *)
Lemma sync_spec d last pr last' pr' :
  (exists b, marshal_keys [] = Ok b) -> (0 <= last)%Z ->
  syncManagedClusterLabelsBundles d last pr = ((true, None), last', pr') ->
  (forall r, r ∈ lrows d -> (ml_UpdatedAt r <= last')%Z) /\ (last < last')%Z /\
  exists evs, sent_events pr' = sent_events pr ++ evs /\
    forall r, r ∈ lrows d -> (last < ml_UpdatedAt r)%Z -> ml_LeafHubName r <> "" ->
      exists rows b payload, marshal_label_bundle b = Ok payload /\ label_event (Event := Event) (ml_LeafHubName r) payload ∈ evs /\
        rows ≡ₚ filter (fun r' => ml_LeafHubName r' = ml_LeafHubName r) (lrows d) /\
        Forall2 (fun r' spec => spec_of_row r' = Ok spec) rows (mlb_Objects b).
Proof.
  intros [kb Hkb] H0last. unfold syncManagedClusterLabelsBundles, GetLastUpdateTimestamp.
  destruct (max_updated d) as [t| |e] eqn:Em; [|done|].
  - destruct (t <=? last)%Z eqn:Ele; [done|]. apply Z.leb_gt in Ele.
    unfold getUpdatedManagedClusterLabelsBundles, getManagedClusterLabelBundleByRows.
    destruct (label_rows d (UpdatedHubs last)) as [rows|] eqn:Er; [|done]. simpl.
    destruct (label_bundles rows ∅) as [m|] eqn:Eb; [|done].
    destruct (send_bundles (range_keys m) m pr) as [[e|] pr1] eqn:Es; [done|]. intros [= <- <-].
    split; [exact (max_is_max d t Em)|]. split; [done|].
    apply send_bundles_None in Es as (evs & Hs & Hin). exists evs. split; [done|]. intros r Hr Hlt Hne.
    assert (Hh : bundles_hold rows m).
    { apply (label_bundles_hold rows [] ∅); [|done]. intros hub. by rewrite lookup_empty. }
    specialize (Hh (ml_LeafHubName r)). pose proof (rows_found _ _ _ Er kb Hkb) as Hp.
    assert (Hf : filter (fun r' => ml_LeafHubName r' = ml_LeafHubName r) rows ≡ₚ
      filter (fun r' => ml_LeafHubName r' = ml_LeafHubName r) (lrows d)).
    { rewrite Hp, list_filter_filter. erewrite list_filter_iff; [done|]. intros r'. simpl. split; [tauto|].
      intros E. split; [done|]. rewrite E, (proj2 (String.eqb_neq _ _) Hne). simpl. apply existsb_exists.
      exists r. split; [by apply list_elem_of_In|]. rewrite String.eqb_refl. simpl. by apply Z.ltb_lt. }
    destruct (m !! ml_LeafHubName r) as [b|] eqn:Eh.
    + destruct Hh as [_ Hh]. destruct (Hin (ml_LeafHubName r) b) as (payload & Hpl & Hev); [|done|].
      { rewrite range_keys_perm. apply list_elem_of_fmap. exists (ml_LeafHubName r, b). split; [done|].
        by apply elem_of_map_to_list. }
      eexists _, b, payload. split; [done|]. split; [done|]. split; [exact Hf|done].
    + rewrite Hh in Hf. apply Permutation_nil_l in Hf.
      assert (Hx : r ∈ filter (fun r' => ml_LeafHubName r' = ml_LeafHubName r) (lrows d)) by (by apply list_elem_of_filter).
      rewrite <- Hf in Hx. by apply not_elem_of_nil in Hx.
  - by rewrite (proj2 (Z.leb_le 0 last) H0last).
Qed.

(** A sync of the labels that ends without an error sends, for every row updated since the last sync, a bundle of its hub that holds the specs of all the rows of this hub and no other; it then holds the time of the latest row, so that no row is newer than it. *)
Theorem updated_labels_are_sent d last pr last' pr' :
  (exists b, marshal_keys [] = Ok b) -> (0 <= last)%Z ->
  syncManagedClusterLabelsBundles d last pr = ((true, None), last', pr') ->
  (forall r, r ∈ lrows d -> (ml_UpdatedAt r <= last')%Z) /\ (last < last')%Z /\
  exists evs, sent_events pr' = sent_events pr ++ evs /\
    forall r, r ∈ lrows d -> (last < ml_UpdatedAt r)%Z -> ml_LeafHubName r <> "" ->
      exists rows b payload, marshal_label_bundle b = Ok payload /\ label_event (Event := Event) (ml_LeafHubName r) payload ∈ evs /\
        rows ≡ₚ filter (fun r' => ml_LeafHubName r' = ml_LeafHubName r) (lrows d) /\
        Forall2 (fun r' spec => spec_of_row r' = Ok spec) rows (mlb_Objects b).
Proof. apply sync_spec. Qed.

(** ** On the hub of the cluster *)
Context {W : Type} `{LabelServer W} `{Impersonation} `{SchedulerLaws} `{RetrierLaws}.

(** The label syncer, on the pool and on the server with the processed updates. *)
Definition labels_syncer (payload : bytes) (s : WorkerPool * (W * Stamps))
    : outcome (option goerror * (WorkerPool * (W * Stamps))) :=
  let! (err, pool, s') := labels_Sync (unmarshal_label_bundle payload) s.1 s.2 in Ret (err, (pool, s')).

Lemma spec_of_row_holds r spec w :
  spec_of_row r = Ok spec -> row_holds r w ->
  mls_Labels spec = w.1 /\ list_to_set (mls_DeletedLabelKeys spec) = w.2 /\
  mls_ClusterName spec = ml_ManagedClusterName r /\ mls_UpdateTimestamp spec = ml_UpdatedAt r.
Proof. intros E (keys & Hl & Hk & Hw). unfold spec_of_row in E. rewrite Hl, Hk in E. by injection E as <-. Qed.

Lemma spec_names rows specs :
  Forall2 (fun r spec => spec_of_row r = Ok spec) rows specs -> mls_ClusterName <$> specs = ml_ManagedClusterName <$> rows.
Proof.
  induction 1 as [|r spec rows specs E _ IH]; [done|]. rewrite !fmap_cons, IH. f_equal.
  unfold spec_of_row in E. destruct (unmarshal_labels _); [|done]. destruct (unmarshal_keys _); [|done]. by injection E as <-.
Qed.

(** The row of the cluster in a bundle of its hub, applied by the agent. *)
Lemma bundle_reaches_cluster hub syncers pool (s : W * Stamps) b payload rows r w m :
  syncers !! ManagedClustersLabelsMsgKey = Some labels_syncer -> reliable (W := W) ->
  marshal_label_bundle b = Ok payload -> Forall2 (fun r' spec => spec_of_row r' = Ok spec) rows (mlb_Objects b) ->
  NoDup (ml_ManagedClusterName <$> rows) -> r ∈ rows -> row_holds r w -> label_pair_ok w ->
  (stamp_of s.2 (ml_ManagedClusterName r) < ml_UpdatedAt r)%Z ->
  cluster_labels s.1 !! ml_ManagedClusterName r = Some m ->
  exists s', dispatch hub syncers (Some (label_event (Event := Event) hub payload)) (pool, s) = Ret (pool, s') /\
    cluster_labels s'.1 !! ml_ManagedClusterName r = Some (overlay w m).
Proof.
  intros Hsy Hrel Hpl HF Hnd Hr Hh Hok Hst Hm.
  destruct (labels_Sync_spec b pool s) as (s' & Es & Hs'); [by rewrite (spec_names _ _ HF)|].
  exists s'. split.
  - destruct (utils_ToCloudEvent_spec (Event := Event) ManagedClustersLabelsMsgKey CloudEventSourceGlobalHub hub payload)
      as (Ht & _ & Hd & Hx).
    unfold label_event. eapply (dispatch_Ret hub syncers _ (pool, s) (pool, s') labels_syncer).
    + exists hub. auto.
    + unfold syncer_for. by rewrite Ht, Hsy.
    + rewrite Hd. unfold labels_syncer. rewrite (bundle_roundtrip _ _ Hpl). cbn [fst snd]. by rewrite Es.
  - specialize (Hs' (ml_ManagedClusterName r)).
    apply list_elem_of_lookup in Hr as [i Hi]. destruct (Forall2_lookup_l _ _ _ _ _ HF Hi) as (spec & Hsp & Esp).
    destruct (spec_of_row_holds _ _ _ Esp Hh) as (Hl & Hk & Hn & Hu).
    destruct (list_find _ (mlb_Objects b)) as [[j spec2]|] eqn:Ef.
    + apply list_find_Some in Ef as (Hj & (Hn2 & _) & _).
      assert (spec2 = spec) as ->.
      { eapply (NoDup_fmap_eq mls_ClusterName (mlb_Objects b)); [by rewrite (spec_names _ _ HF)|..|congruence];
          by eapply list_elem_of_lookup_2. }
      destruct Hs' as [[_ Hs']|[_ Hn']]; [|done]. unfold label_state in Hs'. cbn [fst snd] in Hs'. rewrite Hm in Hs'.
      destruct (cluster_labels s'.1 !! ml_ManagedClusterName r) as [m'|]; [|done]. f_equal. apply map_eq. intros k.
      rewrite Hs'. unfold label_after. rewrite <- apply_labels_lookup. by rewrite (apply_is_overlay spec w m).
    + rewrite list_find_None, Forall_forall in Ef. exfalso. eapply (Ef spec); [by eapply list_elem_of_lookup_2|].
      split; [done|]. unfold due_spec. rewrite Hn, Hu. by apply Z.ltb_lt.
Qed.

(** C3: a patch of labels reaches the managed cluster: when the request is answered with success, the next sync of the labels ends without an error and its events are dispatched by the agent of the hub, with a server that accepts the update, the labels of the cluster are those it had with the patches of the request applied one after the other, provided it had the labels its row stood for. *)
Theorem patch_reaches_the_cluster id hub name patches d d1 last pr last' pr' w syncers pool (s : W * Stamps) m :
  (** the request *)
  id <> "" -> hub <> "" -> patches <> [] -> (exists b, marshal_keys [] = Ok b) ->
  cluster_by_id d id = Ok (hub, name) -> placed id hub name d -> stands_for id d w ->
  PatchManagedCluster id (inr patches) d = ([(200%Z, "managed cluster label patched")], d1) ->
  (** the sync, after the clock of the database has advanced *)
  (0 <= last)%Z -> (forall r, r ∈ rows_of_id id d1 -> (last < ml_UpdatedAt r)%Z /\ (stamp_of s.2 name < ml_UpdatedAt r)%Z) ->
  NoDup (ml_ManagedClusterName <$> filter (fun r => ml_LeafHubName r = hub) (lrows d1)) ->
  syncManagedClusterLabelsBundles d1 last pr = ((true, None), last', pr') ->
  (** the agent *)
  syncers !! ManagedClustersLabelsMsgKey = Some labels_syncer -> reliable (W := W) ->
  cluster_labels s.1 !! name = Some m -> overlay w m = m ->
  exists (e : Event) s', e ∈ sent_events pr' /\ dispatch hub syncers (Some e) (pool, s) = Ret (pool, s') /\
    cluster_labels s'.1 !! name = Some (fold_left apply_patch patches m).
Proof.
  intros Hid Hhub Hne Hb Hc Hpl Hs E H0l Hclk Hnd Esync Hsy Hrel Hm Hov.
  pose proof (patch_placed id hub name (inr patches) d _ d1 Hc Hpl E) as Hpl1.
  destruct (patch_spec id patches d d1 w Hid Hb Hs E) as (w' & [Hok Hs'] & Hsem & _ & Hne').
  unfold placed in Hpl1. destruct (rows_of_id id d1) as [|r [|]] eqn:Er; [by destruct (Hne' Hne)| |done].
  destruct (Hpl1 r) as [Hrh Hrn]; [by left|]. destruct (Hclk r) as [Hlast Hst]; [by left|].
  assert (Hin : r ∈ lrows d1).
  { assert (Hx : r ∈ rows_of_id id d1) by (rewrite Er; by left). by apply list_elem_of_filter in Hx as [_ ?]. }
  destruct (sync_spec d1 last pr last' pr' Hb H0l Esync) as (_ & _ & evs & Hsent & Hev).
  destruct (Hev r Hin Hlast) as (rows & b & payload & Hpay & Hevin & Hperm & HF); [by rewrite Hrh|].
  rewrite Hrh in *. destruct (bundle_reaches_cluster hub syncers pool s b payload rows r w' m) as (s' & Ed & Hcl); try done.
  { by rewrite Hperm. }
  { rewrite Hperm. by apply list_elem_of_filter. }
  { by rewrite Hrn. }
  { by rewrite Hrn. }
  exists (label_event hub payload), s'. split; [rewrite Hsent; apply elem_of_app; by right|]. split; [done|].
  rewrite Hrn in Hcl. rewrite Hcl. by rewrite Hsem, Hov.
Qed.
End Sync.

(** ** Trimming *)
Section Trim.
Context {D : Type} `{LabelDBLaws D} `{!LabelCodecLaws} `{OrdersLaws}.

Definition rows_at (hub name : string) (d : D) : list LabelRow :=
  filter (fun r => ml_LeafHubName r = hub /\ ml_ManagedClusterName r = name) (lrows d).

Lemma filter_length_all {A} (p : A -> Prop) `{!forall a, Decision (p a)} (l : list A) :
  length (filter p l) = length l -> filter p l = l.
Proof.
  induction l as [|a l IH]; [done|]. rewrite filter_cons. case_decide; cbn [length].
  - intros E. f_equal. apply IH. lia.
  - intros E. pose proof (length_filter p l). lia.
Qed.

Lemma rows_at_updated hub name v s now rows :
  ls_Hub s = None ->
  filter (fun r => ml_LeafHubName r = hub /\ ml_ManagedClusterName r = name)
    (rows_updated (MkCond None (Some hub) (Some name) (Some v)) s now rows) =
  (fun r => if bool_decide (ml_Version r = v) then row_set s now r else r) <$>
    filter (fun r => ml_LeafHubName r = hub /\ ml_ManagedClusterName r = name) rows.
Proof.
  intros Hs. assert (Hset : forall r, ml_LeafHubName (row_set s now r) = ml_LeafHubName r) by (intros r; simpl; by rewrite Hs).
  assert (Hm : forall r, row_matches (MkCond None (Some hub) (Some name) (Some v)) r =
    if decide (ml_LeafHubName r = hub /\ ml_ManagedClusterName r = name) then bool_decide (ml_Version r = v) else false).
  { intros r. unfold row_matches. cbn [lc_ID lc_Hub lc_Name lc_Version cond_holds andb].
    repeat case_bool_decide; case_decide; simpl; tauto || done. }
  induction rows as [|r rows IH]; [done|]. unfold rows_updated in *. rewrite fmap_cons, !filter_cons, Hm, IH.
  destruct (decide (ml_LeafHubName r = hub /\ ml_ManagedClusterName r = name)) as [Ha|Ha]; [|by rewrite decide_False].
  case_bool_decide as Hv; rewrite decide_True by (rewrite ?Hset; done); rewrite fmap_cons.
  - by rewrite bool_decide_true.
  - by rewrite bool_decide_false.
Qed.

(** What is left of the keys to remove of a row. *)
Definition trimmed (w : gmap string string * gset string) (labels : gmap string string)
    : gmap string string * gset string := (w.1, filter (fun k => is_Some (labels !! k)) w.2).

Lemma trim_spec_true hub r spec w d d' labels :
  ml_LeafHubName r = hub -> rows_at hub (ml_ManagedClusterName r) d = [r] -> row_holds r w -> spec_of_row r = Ok spec ->
  getLabelsFromManagedCluster hub (ml_ManagedClusterName r) d = Ok labels -> trim_spec hub spec d = (true, d') ->
  exists r', rows_at hub (ml_ManagedClusterName r) d' = [r'] /\ row_holds r' (trimmed w labels).
Proof.
  intros Hh Hat (keys & Hl & Hk & Hw) Esp Hg. unfold spec_of_row in Esp. rewrite Hl, Hk in Esp. injection Esp as <-.
  unfold trim_spec. cbn [mls_ClusterName mls_DeletedLabelKeys mls_Version]. rewrite Hg. unfold keys_still_in_status.
  cbn [mls_DeletedLabelKeys]. set (still := filter _ keys).
  assert (Hstill : list_to_set still = (trimmed w labels).2).
  { unfold still, trimmed. simpl. rewrite <- Hw. apply set_eq. intros k.
    by rewrite elem_of_list_to_set, list_elem_of_filter, elem_of_filter, elem_of_list_to_set. }
  destruct (length still =? length keys)%nat eqn:El.
  - intros [= <-]. exists r. split; [done|]. exists keys. split; [done|]. split; [done|].
    apply Nat.eqb_eq, filter_length_all in El. rewrite <- Hstill. unfold still. by rewrite El.
  - unfold updateDeletedKeysToLabelTable. destruct (marshal_keys still) as [kb|] eqn:Ekb; [|done].
    destruct (label_update d _ _) as [[[e|] [|n]] d1] eqn:Eu; try done. intros [= <-].
    apply row_update in Eu as (_ & now & Er). unfold rows_at in *. rewrite Er, rows_at_updated, Hat by done.
    eexists. split; [done|]. simpl. rewrite bool_decide_true by done. exists still. cbn [row_set ml_Labels ml_DeletedLabelKeys].
    split; [done|]. split; [by apply keys_roundtrip|done].
Qed.

(** Trimming forgets the keys that the hub does not report: after it succeeds, the row of the cluster stands for the same labels and only for the removal of the keys reported; this changes nothing for a cluster whose labels are reported, but a label that the cluster got after its last report, and whose removal was requested, stays. *)
Theorem trimming_forgets_unreported_keys hub r spec w d d' labels :
  ml_LeafHubName r = hub -> rows_at hub (ml_ManagedClusterName r) d = [r] -> row_holds r w -> spec_of_row r = Ok spec ->
  getLabelsFromManagedCluster hub (ml_ManagedClusterName r) d = Ok labels -> trim_spec hub spec d = (true, d') ->
  exists r' w', rows_at hub (ml_ManagedClusterName r) d' = [r'] /\ row_holds r' w' /\
    (forall m, (forall k, k ∈ w.2 -> is_Some (m !! k) -> is_Some (labels !! k)) -> overlay w' m = overlay w m) /\
    (forall m k, k ∈ w.2 -> w.1 !! k = None -> labels !! k = None ->
       overlay w m !! k = None /\ overlay w' m !! k = m !! k).
Proof.
  intros A1 A2 A3 A4 A5 A6. destruct (trim_spec_true hub r spec w d d' labels A1 A2 A3 A4 A5 A6) as (r' & Hr' & Hh).
  exists r', (trimmed w labels). split; [done|]. split; [done|]. split.
  - intros m Hm. apply map_eq. intros k. rewrite !overlay_lookup. unfold trimmed. cbn [fst snd].
    destruct (w.1 !! k); [done|]. destruct (decide (k ∈ w.2)) as [Hk|Hk].
    + case_decide as Hf; [done|]. destruct (m !! k) as [v|] eqn:Em; [|done]. destruct Hf. apply elem_of_filter.
      split; [|done]. apply Hm; [done|]. rewrite Em. by eexists.
    + rewrite decide_False; [done|]. rewrite elem_of_filter. tauto.
  - intros m k Hk Hn Hl. rewrite !overlay_lookup. unfold trimmed. cbn [fst snd]. rewrite Hn, decide_True by done.
    split; [done|]. rewrite decide_False; [done|]. rewrite elem_of_filter, Hl. by intros [[? ?] _].
Qed.

(** The keys of a cluster that has no label at all are never trimmed: the NULL of
    its labels is read as an empty text, which is no JSON. *)
Lemma cluster_without_labels_is_not_trimmed hub spec d :
  status_labels d hub (mls_ClusterName spec) = Scanned [] -> trim_spec hub spec d = (false, d).
Proof.
  intros E. unfold trim_spec, getLabelsFromManagedCluster. rewrite E. destruct empty_labels as [e ->]. done.
Qed.
End Trim.

(** ** A concrete table *)
Module Sample.
(** The rows, the clock of the next statement, and the status tables. *)
Record Store := MkStore_ {
  st_rows : list LabelRow;
  st_clock : Z;
  st_ids : gmap string (string * string);
  st_status : gmap (string * string) bytes;
}.

#[local] Instance spec_eq_dec : EqDecision ManagedClusterLabelsSpec.
Proof. solve_decision. Defined.
#[local] Instance bundle_eq_dec : EqDecision ManagedClusterLabelsSpecBundle.
Proof. solve_decision. Defined.

Definition maps : list (gmap string string) := [∅; {["env" := "prod"]}; {["a" := "1"]}].
Definition key_lists : list (list string) := [[]; ["old"]; ["a"]].
Definition a_spec : ManagedClusterLabelsSpec := MkLabelsSpec "c1" {["env" := "prod"]} ["old"] 10 0.
Definition bundles : list ManagedClusterLabelsSpecBundle := [MkLabelsBundle [a_spec] "hub1"].

#[local] Instance codec : LabelCodec := {|
  marshal_labels := index_encode maps; unmarshal_labels := index_decode maps;
  marshal_keys := index_encode key_lists; unmarshal_keys := index_decode key_lists;
  marshal_label_bundle := index_encode bundles; unmarshal_label_bundle := index_decode bundles;
|}.
#[local] Instance codec_laws : LabelCodecLaws.
Proof. split; try apply index_roundtrip. by exists "unexpected end of JSON input". Qed.

Definition max_time (l : list LabelRow) : option Z :=
  foldr (fun r m => Some (match m with Some t => Z.max t (ml_UpdatedAt r) | None => ml_UpdatedAt r end)) None l.

#[local] Instance store_db : LabelDB Store := {|
  Lock _ := None;
  cluster_by_id s id := match st_ids s !! id with Some hn => Ok hn | None => Err "no rows in result set" end;
  label_rows s q := Ok (filter (fun r => query_holds [Byte.x00] (st_rows s) q r = true) (st_rows s));
  label_create s r := (None, MkStore_ (st_rows s ++ [row_created r (st_clock s)]) (st_clock s + 1) (st_ids s) (st_status s));
  label_update s c v :=
    (None, length (filter (fun r => row_matches c r = true) (st_rows s)),
     MkStore_ (rows_updated c v (st_clock s) (st_rows s)) (st_clock s + 1) (st_ids s) (st_status s));
  max_updated s := match max_time (st_rows s) with Some t => Scanned t | None => ScanError "NULL" end;
  status_labels s hub name := match st_status s !! (hub, name) with Some b => Scanned b | None => NoRows end;
  hub_of_cluster s name := Err "no rows in result set";
|}.

Lemma max_time_spec l t : max_time l = Some t ->
  (forall r, r ∈ l -> (ml_UpdatedAt r <= t)%Z) /\ exists r, r ∈ l /\ ml_UpdatedAt r = t.
Proof.
  revert t. induction l as [|r l IH]; intros t; simpl; [done|]. destruct (max_time l) as [u|] eqn:E.
  - intros [= <-]. destruct (IH u eq_refl) as [Hle (r0 & Hr0 & <-)]. split.
    + intros x [->|Hx]%elem_of_cons; [lia|]. specialize (Hle x Hx). lia.
    + destruct (Z.max_dec (ml_UpdatedAt r0) (ml_UpdatedAt r)) as [Hm|Hm]; rewrite Hm; [exists r0|exists r]; set_solver.
  - intros [= <-]. destruct l as [|r0 l]; [|simpl in E; by destruct (max_time l)].
    split; [by intros x ->%list_elem_of_singleton|]. exists r. set_solver.
Qed.

#[local] Program Instance store_laws : LabelDBLaws Store := {| lrows := st_rows |}.
Next Obligation. intros d q l [= <-] e [= <-]. done. Qed.
Next Obligation. intros d r d' [= <-]. by eexists. Qed.
Next Obligation. by intros. Qed.
Next Obligation. intros d c s n d' [= <- <-]. split; [done|]. by eexists. Qed.
Next Obligation. by intros. Qed.
Next Obligation.
  intros d t. simpl. destruct (max_time (st_rows d)) as [u|] eqn:E; [|done]. intros [= <-]. by apply (max_time_spec _ _ E).
Qed.
Next Obligation.
  intros d t. simpl. destruct (max_time (st_rows d)) as [u|] eqn:E; [|done]. intros [= <-]. by apply (max_time_spec _ _ E).
Qed.

Definition add_env : patch := MkPatch "add" "/metadata/labels/env" "prod".
Definition remove_old : patch := MkPatch "remove" "/metadata/labels/old" "".
Definition fresh_store : Store := MkStore_ [] 10 {["id1" := ("hub1", "c1")]} ∅.
Definition patched : Store := (PatchManagedCluster "id1" (inr [add_env; remove_old]) fresh_store).2.

Lemma fresh_stands : stands_for "id1" fresh_store (∅, ∅).
Proof. split; [|done]. intros k. simpl. set_solver. Qed.
Lemma keys_marshaled : exists b, marshal_keys [] = Ok b.
Proof. by exists [Byte.x00]. Qed.

Lemma patch_applies_in_sequence_witness :
  exists w', stands_for "id1" patched w' /\
    forall m, overlay w' m = delete "old" (<["env" := "prod"]> m).
Proof.
  destruct (patch_applies_in_sequence "id1" [add_env; remove_old] fresh_store patched (∅, ∅)) as (w' & Hs & Ho & _);
    [done|exact keys_marshaled|exact fresh_stands|reflexivity|].
  exists w'. split; [exact Hs|]. intros m. rewrite Ho, empty_overlay. reflexivity.
Defined.

(** Two requests read the row at version zero; the one that adds [env] writes
    first, then the one that adds [a]. *)
Definition created : Store := (PatchManagedCluster "id1" (inr [remove_old]) fresh_store).2.
Definition read_row : LabelRow := default (MkLabelRow "" "" "" [] [] 0 0) (head (st_rows created)).
Definition first_written : Store := (PatchManagedCluster "id1" (inr [add_env]) created).2.
Definition both_written : Store := (update_read_row "id1" {["a" := "1"]} ∅ read_row first_written).2.

Lemma stale_update_wins_at_version_zero_witness :
  exists r, st_rows both_written = [r] /\ row_holds r ({["a" := "1"]}, {["old"]}).
Proof.
  destruct (stale_update_wins_at_version_zero "id1" {["a" := "1"]} ∅ read_row (∅, {["old"]}) first_written
    (default read_row (head (st_rows first_written))) ({["env" := "prod"]}, {["old"]})) as [_ Hz].
  - done.
  - intros k. simpl. set_solver.
  - exists ["old"]. done.
  - intros k. simpl. intros _. apply lookup_empty.
  - reflexivity.
  - vm_compute. discriminate.
  - exists ["old"]. done.
  - destruct (Hz eq_refl both_written eq_refl) as [_ Hs]. eexists. split; [reflexivity|]. exact Hs.
Defined.

#[local] Existing Instances SpecAgentFacts.Sample.no_failure SpecAgentFacts.Sample.in_order
  SpecAgentFacts.Sample.in_order_laws SpecAgentFacts.Sample.retrier SpecAgentFacts.Sample.retrier_laws
  SpecAgentFacts.Sample.clusters_client SpecAgentFacts.Sample.clusters_server.

Definition synced : list PlainEvent := (syncManagedClusterLabelsBundles patched 5 []).2.

Definition patched_row : LabelRow := MkLabelRow "id1" "hub1" "c1" [Byte.x00; Byte.x00] [Byte.x00; Byte.x00] 0 10.
Lemma patched_row_in : patched_row ∈ lrows patched.
Proof. replace (lrows patched) with [patched_row] by reflexivity. left. Qed.

Lemma updated_labels_are_sent_witness : exists payload, label_event (Event := PlainEvent) "hub1" payload ∈ synced.
Proof.
  destruct (updated_labels_are_sent (Event := PlainEvent) patched 5 [] 10 synced keys_marshaled) as (_ & _ & evs & Hs & He);
    [done|reflexivity|].
  destruct (He patched_row patched_row_in) as (rows & b & payload & _ & Hin & _); [reflexivity|done|].
  exists payload. replace synced with evs by (symmetry; exact Hs). exact Hin.
Defined.

Definition clusters : gmap string Object :=
  {["c1" := SpecAgentFacts.Sample.cluster "c1" {["old" := "x"; "b" := "2"]}]}.
Definition registered : gmap string (bytes -> WorkerPool * (gmap string Object * Stamps) ->
    outcome (option goerror * (WorkerPool * (gmap string Object * Stamps)))) :=
  AddToManager true labels_syncer labels_syncer labels_syncer labels_syncer labels_syncer.

Lemma clusters_reliable : reliable (W := gmap string Object).
Proof. split; [|done]. intros w n e. simpl. destruct (w !! n); [|done]. by case_decide. Qed.

Lemma patch_reaches_the_cluster_witness :
  exists (e : PlainEvent) s', e ∈ synced /\
    dispatch "hub1" registered (Some e) (NewPool, (clusters, ∅)) = Ret (NewPool, s') /\
    cluster_labels s'.1 !! "c1" = Some {["b" := "2"; "env" := "prod"]}.
Proof.
  destruct (patch_reaches_the_cluster (Event := PlainEvent) "id1" "hub1" "c1" [add_env; remove_old] fresh_store patched 5 [] 10
    synced (∅, ∅) registered NewPool (clusters, ∅) {["old" := "x"; "b" := "2"]}) as (e & s' & Hin & Hd & Hl).
  - done.
  - done.
  - done.
  - exact keys_marshaled.
  - reflexivity.
  - intros r Hr. destruct (not_elem_of_nil _ Hr).
  - exact fresh_stands.
  - reflexivity.
  - done.
  - replace (rows_of_id "id1" patched) with [patched_row] by reflexivity. intros r ->%list_elem_of_singleton. done.
  - apply (bool_decide_unpack _). exact I.
  - reflexivity.
  - reflexivity.
  - exact clusters_reliable.
  - reflexivity.
  - apply empty_overlay.
  - exists e, s'. split; [exact Hin|]. split; [exact Hd|]. eapply eq_trans; [exact Hl|]. reflexivity.
Defined.

(** The status of the cluster does not have the label yet. *)
Definition reported : Store := MkStore_ (st_rows created) 20 (st_ids created) {[("hub1", "c1") := [Byte.x00]]}.
Definition trimmed_store : Store := (trim_spec "hub1" (MkLabelsSpec "c1" ∅ ["old"] 10 0) reported).2.

Lemma trimming_forgets_unreported_keys_witness :
  exists r' w', st_rows trimmed_store = [r'] /\ row_holds r' w' /\
    overlay w' {["old" := "x"]} !! "old" = Some "x".
Proof.
  destruct (trimming_forgets_unreported_keys "hub1" read_row (MkLabelsSpec "c1" ∅ ["old"] 10 0) (∅, {["old"]}) reported
    trimmed_store ∅) as (r' & w' & Hr & Hh & _ & Hk).
  - reflexivity.
  - reflexivity.
  - exists ["old"]. done.
  - reflexivity.
  - reflexivity.
  - reflexivity.
  - exists r', w'. split; [exact Hr|]. split; [exact Hh|].
    destruct (Hk {["old" := "x"]} "old") as [_ Ho]; [set_solver|reflexivity|reflexivity|].
    eapply eq_trans; [exact Ho|reflexivity].
Defined.
End Sample.
