(* ===== verification/KubeClient.v ===== *)
(** * A client of an API server

    The interface of the Kubernetes client as the operator and the controllers of
    the agent use it: a family of kinds with their objects, the calls that get,
    list, create, update and delete one, and what an API server does with them.
    A server of maps implements it. *)

From stdpp Require Import prelude gmap strings list.
From Stdlib Require Import ZArith Lia Eqdep_dec.
From S2P Require Import Prelude.
Local Open Scope string_scope.
Local Open Scope list_scope.

(** Namespace and name; a cluster-scoped object has no namespace. *)
Notation obj_key := (string * string)%type.

(** The kinds of a client. [obj_mark] is what a deletion makes of an object:
    [None] when it goes, otherwise the object with a deletion timestamp, for those
    with finalizers. [obj_keep] tells whether an object that is written stays: one
    that is being deleted goes with its last finalizer. [obj_admit] is what the
    server stores of an object that is written. *)
Class Kinds (K : Type) := {
  #[global] kind_dec :: EqDecision K;
  kobj : K -> Type;
  kname : forall k, kobj k -> obj_key;
  obj_mark : forall k, kobj k -> option (kobj k);
  obj_keep : forall k, kobj k -> bool;
  obj_admit : forall k, kobj k -> kobj k;
  obj_mark_name k o o' : obj_mark k o = Some o' -> kname k o' = kname k o;
  obj_admit_name k o : kname k (obj_admit k o) = kname k o;
}.

(** An object of which only the metadata count. *)
Record PlainObject := MkPlain {
  pl_Key : obj_key;
  pl_Labels : gmap string string;
  pl_Annotations : gmap string string;
  pl_Finalizers : list string;
  pl_Deleting : bool;
}.

Definition set_labels (o : PlainObject) (l : gmap string string) : PlainObject :=
  MkPlain (pl_Key o) l (pl_Annotations o) (pl_Finalizers o) (pl_Deleting o).
Definition set_pl_annotations (o : PlainObject) (a : gmap string string) : PlainObject :=
  MkPlain (pl_Key o) (pl_Labels o) a (pl_Finalizers o) (pl_Deleting o).
Definition set_finalizers (o : PlainObject) (f : list string) : PlainObject :=
  MkPlain (pl_Key o) (pl_Labels o) (pl_Annotations o) f (pl_Deleting o).

(** Objects with finalizers are marked by a deletion and go with the last of them. *)
Definition pl_mark (o : PlainObject) : option PlainObject :=
  match pl_Finalizers o with
  | [] => None
  | fs => Some (MkPlain (pl_Key o) (pl_Labels o) (pl_Annotations o) fs true)
  end.
Definition pl_keep (o : PlainObject) : bool := negb (pl_Deleting o && bool_decide (pl_Finalizers o = [])).
Lemma pl_mark_key o o' : pl_mark o = Some o' -> pl_Key o' = pl_Key o.
Proof. unfold pl_mark. destruct (pl_Finalizers o); [done|by intros [= <-]]. Qed.

Inductive fetched (A : Type) := Found (a : A) | Missing | Broken (e : goerror).
Arguments Found {A}. Arguments Missing {A}. Arguments Broken {A}.

(** The result of a call that writes: the code tells a missing object apart. *)
Inductive written := Done | Gone | Refused (e : goerror).
Definition written_err (r : written) : option goerror :=
  match r with Done => None | Gone => Some "not found" | Refused e => Some e end.

Class KubeClient (W K : Type) `{Kinds K} := {
  kget : W -> forall k, obj_key -> fetched (kobj k);
  klist : W -> forall k, result (list (kobj k));
  kcreate : W -> forall k, kobj k -> written * W;
  kupdate : W -> forall k, kobj k -> written * W;
  kdelete : W -> forall k : K, obj_key -> written * W;
}.

(** The object under a name after it is written or deleted. *)
Definition settled {K} `{Kinds K} (k : K) (o : kobj k) : option (kobj k) :=
  if obj_keep k o then Some (obj_admit k o) else None.

Class KubeServer (W K : Type) `{KubeClient W K} := {
  kobjects : W -> forall k, gmap obj_key (kobj k);
  kobjects_named w k n o : kobjects w k !! n = Some o -> kname k o = n;
  kget_Found w k n o : kget w k n = Found o -> kobjects w k !! n = Some o;
  kget_Missing w k n : kget w k n = Missing -> kobjects w k !! n = None;
  klist_Ok w k l : klist w k = Ok l -> l ≡ₚ (map_to_list (kobjects w k)).*2;
  kcreate_Done w k o w' : kcreate w k o = (Done, w') ->
    kobjects w k !! kname k o = None /\ kobjects w' k = <[kname k o := obj_admit k o]> (kobjects w k) /\
    forall k', k' <> k -> kobjects w' k' = kobjects w k';
  kupdate_Done w k o w' : kupdate w k o = (Done, w') ->
    is_Some (kobjects w k !! kname k o) /\
    kobjects w' k = partial_alter (fun _ => settled k o) (kname k o) (kobjects w k) /\
    forall k', k' <> k -> kobjects w' k' = kobjects w k';
  kdelete_Done w k n w' : kdelete w k n = (Done, w') ->
    (exists o, kobjects w k !! n = Some o /\ kobjects w' k = partial_alter (fun _ => obj_mark k o) n (kobjects w k)) /\
    forall k', k' <> k -> kobjects w' k' = kobjects w k';
  kdelete_Gone w k n w' : kdelete w k n = (Gone, w') -> kobjects w k !! n = None /\ w' = w;
  kcreate_refused w k o r w' : kcreate w k o = (r, w') -> r <> Done -> kobjects w' = kobjects w;
  kupdate_refused w k o r w' : kupdate w k o = (r, w') -> r <> Done -> kobjects w' = kobjects w;
  kdelete_refused w k n e w' : kdelete w k n = (Refused e, w') -> kobjects w' = kobjects w;
}.

(** A server that answers every call. *)
Definition responsive (W K : Type) `{KubeServer W K} : Prop :=
  (forall w k n e, kget w k n <> Broken e) /\
  (forall w k, exists l, klist w k = Ok l) /\
  (forall w k o, kobjects w k !! kname k o = None -> exists w', kcreate w k o = (Done, w')) /\
  (forall w k o, is_Some (kobjects w k !! kname k o) -> exists w', kupdate w k o = (Done, w')) /\
  (forall w (k : K) n e w', kdelete w k n <> (Refused e, w')).

(** ** Facts *)
Section Server.
Context {W K : Type} `{KubeServer W K}.

Lemma kget_present w k n o : responsive W K -> kobjects w k !! n = Some o -> kget w k n = Found o.
Proof.
  intros (Hget & _) E. destruct (kget w k n) as [o'| |e] eqn:G.
  - apply kget_Found in G. congruence.
  - apply kget_Missing in G. congruence.
  - by destruct (Hget w k n e).
Qed.

Lemma kget_absent w k n : responsive W K -> kobjects w k !! n = None -> kget w k n = Missing.
Proof.
  intros (Hget & _) E. destruct (kget w k n) as [o'| |e] eqn:G; [|done|].
  - apply kget_Found in G. congruence.
  - by destruct (Hget w k n e).
Qed.

Lemma kget_name w k n o : kget w k n = Found o -> kname k o = n.
Proof. intros E%kget_Found. by eapply kobjects_named. Qed.

Lemma kcreate_lookup w k o w' : kcreate w k o = (Done, w') -> kobjects w' k !! kname k o = Some (obj_admit k o).
Proof. intros (_ & -> & _)%kcreate_Done. apply lookup_insert_eq. Qed.

Lemma kupdate_lookup w k o w' : kupdate w k o = (Done, w') -> obj_keep k o = true -> kobjects w' k !! kname k o = Some (obj_admit k o).
Proof. intros (_ & -> & _)%kupdate_Done Hk. rewrite lookup_partial_alter_eq. unfold settled. by rewrite Hk. Qed.

Lemma kupdate_others w k o w' n : kupdate w k o = (Done, w') -> n <> kname k o -> kobjects w' k !! n = kobjects w k !! n.
Proof. intros (_ & -> & _)%kupdate_Done Hn. by rewrite lookup_partial_alter_ne. Qed.

Lemma kupdate_insert w k o w' n : kupdate w k o = (Done, w') -> kname k o = n -> obj_keep k o = true ->
  kobjects w' k = <[n := obj_admit k o]> (kobjects w k) /\ forall k', k' <> k -> kobjects w' k' = kobjects w k'.
Proof.
  intros (_ & -> & Ho)%kupdate_Done <- Hk. split; [|done]. apply map_eq. intros i. destruct (decide (i = kname k o)) as [->|Hi].
  - rewrite lookup_partial_alter_eq, lookup_insert_eq. unfold settled. by rewrite Hk.
  - by rewrite lookup_partial_alter_ne, lookup_insert_ne.
Qed.

Lemma kdelete_lookup w k n w' o : kdelete w k n = (Done, w') -> kobjects w k !! n = Some o ->
  kobjects w' k !! n = obj_mark k o.
Proof.
  intros [(o' & E & ->) _]%kdelete_Done E'. rewrite lookup_partial_alter_eq. rewrite E' in E. by injection E as <-.
Qed.

Lemma klist_elem w k l : klist w k = Ok l -> forall o, o ∈ l <-> kobjects w k !! kname k o = Some o.
Proof.
  intros E%klist_Ok o. rewrite E. rewrite list_elem_of_fmap. split.
  - intros ((n & o') & -> & Hin%elem_of_map_to_list). cbn. by rewrite (kobjects_named _ _ _ _ Hin).
  - intros Hl. exists (kname k o, o). split; [done|]. by apply elem_of_map_to_list.
Qed.

Lemma klist_keys w k l : klist w k = Ok l -> NoDup (kname k <$> l).
Proof.
  intros E%klist_Ok. rewrite E, <- list_fmap_compose.
  replace ((kname k ∘ snd) <$> map_to_list (kobjects w k)) with ((map_to_list (kobjects w k)).*1); [apply NoDup_fst_map_to_list|].
  apply list_fmap_ext. intros i [n o] Hi%list_elem_of_lookup_2. cbn. apply elem_of_map_to_list in Hi.
  symmetry. by eapply kobjects_named.
Qed.
End Server.

(** ** Deleting objects one after the other

    One that is gone already is no error. *)
Section DeleteEach.
Context {W K : Type} `{KubeServer W K}.

Fixpoint delete_each (k : K) (items : list obj_key) (w : W) : option goerror * W :=
  match items with
  | [] => (None, w)
  | item :: rest =>
      match kdelete w k item with
      | (Refused e, w') => (Some e, w')
      | (_, w') => delete_each k rest w'
      end
  end.

(** What a deletion leaves of an object. *)
Definition left_of (k : K) (o : option (kobj k)) : option (kobj k) := o ≫= obj_mark k.

Lemma kdelete_left w (k : K) n r w' : kdelete w k n = (r, w') -> (forall e, r <> Refused e) ->
  kobjects w' k !! n = left_of k (kobjects w k !! n) /\
  (forall k' n', k' <> k \/ n' <> n -> kobjects w' k' !! n' = kobjects w k' !! n').
Proof.
  intros Ed Hr. destruct r as [| |e]; [| |by destruct (Hr e)].
  - apply kdelete_Done in Ed as [(o & Ho & Hw) Hoth]. rewrite Hw, Ho, lookup_partial_alter_eq. split; [done|].
    intros k' n' Hne. destruct (decide (k' = k)) as [->|Hk]; [|by rewrite Hoth].
    rewrite Hw. destruct Hne as [Hne|Hne]; [done|]. by rewrite lookup_partial_alter_ne.
  - apply kdelete_Gone in Ed as [Hn ->]. by rewrite Hn.
Qed.

Lemma delete_each_left k items : NoDup items -> forall w w', delete_each k items w = (None, w') ->
  (forall n, n ∈ items -> kobjects w' k !! n = left_of k (kobjects w k !! n)) /\
  (forall k' n, k' <> k \/ n ∉ items -> kobjects w' k' !! n = kobjects w k' !! n).
Proof.
  induction 1 as [|i items Hi Hn IH]; intros w w'; cbn [delete_each].
  { intros [= <-]. split; [by intros n ?%not_elem_of_nil|done]. }
  destruct (kdelete w k i) as [r w1] eqn:Ed. intros Hd.
  assert (forall e, r <> Refused e) as Hr by (intros e ->; done).
  assert (delete_each k items w1 = (None, w')) as [Hg Ho]%IH by (by destruct r).
  destruct (kdelete_left _ _ _ _ _ Ed Hr) as [Hl Hoth]. split.
  - intros n [->|Hin]%elem_of_cons; [by rewrite Ho, Hl by (by right)|]. rewrite Hg by done. rewrite Hoth; [done|].
    right. intros ->. done.
  - intros k' n Hkn. rewrite not_elem_of_cons in Hkn. rewrite Ho by tauto. apply Hoth. tauto.
Qed.

Lemma delete_filtered k (P : kobj k -> Prop) `{!forall o, Decision (P o)} w w' l :
  klist w k = Ok l -> delete_each k (kname k <$> filter P l) w = (None, w') ->
  (forall n o, kobjects w k !! n = Some o -> kobjects w' k !! n = if decide (P o) then obj_mark k o else Some o) /\
  (forall k' n, k' <> k \/ kobjects w k !! n = None -> kobjects w' k' !! n = kobjects w k' !! n).
Proof.
  intros Hl. pose proof (klist_elem _ _ _ Hl) as Hin. intros [Hg Ho]%delete_each_left.
  - assert (forall n o, kobjects w k !! n = Some o -> n ∈ kname k <$> filter P l <-> P o) as Hn.
    { intros n o Hno. rewrite list_elem_of_fmap. split.
      - intros (o' & -> & [Hp Ho']%list_elem_of_filter). apply Hin in Ho'. congruence.
      - intros Hp. exists o. pose proof (kobjects_named _ _ _ _ Hno) as Hk. split; [done|]. apply list_elem_of_filter.
        split; [done|]. apply Hin. by rewrite Hk. }
    split.
    + intros n o Hno. destruct (decide (P o)) as [Hp|Hp]; [|rewrite Ho; [done|right; by rewrite (Hn n o Hno)]].
      rewrite Hg by (by apply (Hn n o Hno)). by rewrite Hno.
    + intros k' n [Hk|Hnone]; apply Ho; [by left|]. destruct (decide (k' = k)) as [->|Hk]; [right|by left].
      intros (o' & -> & [_ Ho']%list_elem_of_filter)%list_elem_of_fmap. apply Hin in Ho'. congruence.
  - eapply sublist_NoDup; [by eapply klist_keys|]. apply fmap_sublist, sublist_filter.
Qed.

Lemma delete_each_refused k items : forall w e w', delete_each k items w = (Some e, w') -> 
  exists i w1, i ∈ items /\ kdelete w1 k i = (Refused e, w').
Proof.
  induction items as [|i items IH]; intros w e w'; cbn [delete_each]; [done|].
  destruct (kdelete w k i) as [r w1] eqn:Ed. intros Hd. destruct r as [| |e'].
  - apply IH in Hd as (j & w2 & Hj & E). exists j, w2. split; [by right|done].
  - apply IH in Hd as (j & w2 & Hj & E). exists j, w2. split; [by right|done].
  - injection Hd as -> ->. exists i, w. split; [left|done].
Qed.
End DeleteEach.

Create HintDb kube.
#[export] Hint Resolve kget_Found kget_Missing : kube.

(** ** A server of maps

    Entries under another name do not count. *)
Section Store.
Context {K : Type} `{Kinds K}.

Definition kstore : Type := forall k : K, gmap obj_key (kobj k).

Definition kput (k : K) (m : gmap obj_key (kobj k)) (w : kstore) : kstore := fun k' =>
  match decide (k = k') with
  | left e => eq_rect k (fun k => gmap obj_key (kobj k)) m k' e
  | right _ => w k'
  end.

Lemma kput_same k m w : kput k m w k = m.
Proof.
  unfold kput. destruct (decide (k = k)) as [e|]; [|done].
  by rewrite (UIP_dec (fun x y => decide (x = y)) e eq_refl).
Qed.
Lemma kput_other k m w k' : k' <> k -> kput k m w k' = w k'.
Proof. intros Hne. unfold kput. by destruct (decide (k = k')). Qed.

Definition knamed (w : kstore) (k : K) : gmap obj_key (kobj k) := filter (fun kv => kname k kv.2 = kv.1) (w k).

Definition kalter (k : K) (n : obj_key) (o : option (kobj k)) (w : kstore) : kstore :=
  kput k (partial_alter (fun _ => o) n (w k)) w.

Lemma kalter_same k n o w : (forall x, o = Some x -> kname k x = n) ->
  knamed (kalter k n o w) k = partial_alter (fun _ => o) n (knamed w k).
Proof.
  intros Hn. unfold knamed, kalter. rewrite kput_same. apply map_eq. intros i.
  destruct (decide (i = n)) as [->|Hne].
  - rewrite lookup_partial_alter_eq, map_lookup_filter, lookup_partial_alter_eq.
    destruct o as [x|]; [|done]. cbn. rewrite option_guard_True by (by apply Hn). done.
  - rewrite lookup_partial_alter_ne, !map_lookup_filter, lookup_partial_alter_ne by done. done.
Qed.
Lemma kalter_other k n o w k' : k' <> k -> knamed (kalter k n o w) k' = knamed w k'.
Proof. intros Hne. unfold knamed, kalter. by rewrite kput_other. Qed.

#[export] Instance kstore_client : KubeClient kstore K := {|
  kget w k n := match knamed w k !! n with Some o => Found o | None => Missing end;
  klist w k := Ok (map_to_list (knamed w k)).*2;
  kcreate w k o :=
    match knamed w k !! kname k o with
    | Some _ => (Refused "already exists", w)
    | None => (Done, kalter k (kname k o) (Some (obj_admit k o)) w)
    end;
  kupdate w k o :=
    match knamed w k !! kname k o with
    | Some _ => (Done, kalter k (kname k o) (settled k o) w)
    | None => (Gone, w)
    end;
  kdelete w k n :=
    match knamed w k !! n with
    | Some o => (Done, kalter k n (obj_mark k o) w)
    | None => (Gone, w)
    end;
|}.

#[export] Program Instance kstore_server : KubeServer kstore K := {| kobjects := knamed |}.
Next Obligation. intros w k n o. cbn. unfold knamed. by intros [_ E]%map_lookup_filter_Some. Qed.
Next Obligation. intros w k n o. cbn. destruct (knamed w k !! n); [by intros [= ->]|done]. Qed.
Next Obligation. intros w k n. cbn. by destruct (knamed w k !! n). Qed.
Next Obligation. intros w k l [= <-]. done. Qed.
Next Obligation.
  intros w k o w'. cbn. destruct (knamed w k !! kname k o) eqn:E; [done|]. intros [= <-]. split; [done|]. split.
  - rewrite kalter_same by (intros x [= <-]; apply obj_admit_name). done.
  - intros. by apply kalter_other.
Qed.
Next Obligation.
  intros w k o w'. cbn. destruct (knamed w k !! kname k o) eqn:E; [|done]. intros [= <-]. split; [eauto|]. split.
  - apply kalter_same. unfold settled. destruct (obj_keep k o); [intros x [= <-]; apply obj_admit_name|done].
  - intros. by apply kalter_other.
Qed.
Next Obligation.
  intros w k n w'. cbn. destruct (knamed w k !! n) as [o|] eqn:E; [|done]. intros [= <-]. split.
  - exists o. split; [done|]. apply kalter_same. intros x Hx. rewrite (obj_mark_name _ _ _ Hx).
    unfold knamed in E. by apply map_lookup_filter_Some in E as [_ E].
  - intros. by apply kalter_other.
Qed.
Next Obligation. intros w k n w'. cbn. destruct (knamed w k !! n); [done|by intros [= <-]]. Qed.
Next Obligation. intros w k o r w'. cbn. destruct (knamed w k !! kname k o); by intros [= <- <-]. Qed.
Next Obligation. intros w k o r w'. cbn. destruct (knamed w k !! kname k o); by intros [= <- <-]. Qed.
Next Obligation. intros w k n e w'. cbn. by destruct (knamed w k !! n). Qed.

Lemma kstore_responsive : responsive kstore K.
Proof.
  unfold responsive. split_and!.
  - intros w k n e. cbn. by destruct (knamed w k !! n).
  - intros w k. cbn. eauto.
  - intros w k o E. cbn in *. rewrite E. eauto.
  - intros w k o [x E]. cbn in *. rewrite E. eauto.
  - intros w k n e w'. cbn. by destruct (knamed w k !! n).
Qed.
End Store.

(** ** Two servers side by side

    Definitions rather than instances: a development chooses which side serves a
    family of kinds. *)
Section Pair.
Context {W1 W2 K : Type} `{Kinds K}.

Definition left_client `{!KubeClient W1 K} : KubeClient (W1 * W2) K := {|
  kget w k n := kget w.1 k n;
  klist w k := klist w.1 k;
  kcreate w k o := let '(r, w1) := kcreate w.1 k o in (r, (w1, w.2));
  kupdate w k o := let '(r, w1) := kupdate w.1 k o in (r, (w1, w.2));
  kdelete w k n := let '(r, w1) := kdelete w.1 k n in (r, (w1, w.2));
|}.
Definition right_client `{!KubeClient W2 K} : KubeClient (W1 * W2) K := {|
  kget w k n := kget w.2 k n;
  klist w k := klist w.2 k;
  kcreate w k o := let '(r, w2) := kcreate w.2 k o in (r, (w.1, w2));
  kupdate w k o := let '(r, w2) := kupdate w.2 k o in (r, (w.1, w2));
  kdelete w k n := let '(r, w2) := kdelete w.2 k n in (r, (w.1, w2));
|}.

Program Definition left_server `{!KubeClient W1 K} `{!KubeServer W1 K} : @KubeServer (W1 * W2) K _ left_client :=
  {| kobjects w := kobjects w.1 |}.
Next Obligation. intros ?? [w1 w2] k n o. cbn. apply kobjects_named. Qed.
Next Obligation. intros ?? [w1 w2] k n o. cbn. apply kget_Found. Qed.
Next Obligation. intros ?? [w1 w2] k n. cbn. apply kget_Missing. Qed.
Next Obligation. intros ?? [w1 w2] k l. cbn. apply klist_Ok. Qed.
Next Obligation. intros ?? [w1 w2] k o [w1' w2']. cbn. destruct (kcreate w1 k o) as [r x] eqn:E. intros [= -> -> ->]. by apply kcreate_Done. Qed.
Next Obligation. intros ?? [w1 w2] k o [w1' w2']. cbn. destruct (kupdate w1 k o) as [r x] eqn:E. intros [= -> -> ->]. by apply kupdate_Done. Qed.
Next Obligation. intros ?? [w1 w2] k n [w1' w2']. cbn. destruct (kdelete w1 k n) as [r x] eqn:E. intros [= -> -> ->]. by apply kdelete_Done. Qed.
Next Obligation.
  intros ?? [w1 w2] k n [w1' w2']. cbn. destruct (kdelete w1 k n) as [r x] eqn:E. intros [= -> -> ->].
  apply kdelete_Gone in E as [? ->]. done.
Qed.
Next Obligation. intros ?? [w1 w2] k o r [w1' w2']. cbn. destruct (kcreate w1 k o) as [r' x] eqn:E. intros [= -> -> ->]. by apply (kcreate_refused _ _ _ _ _ E). Qed.
Next Obligation. intros ?? [w1 w2] k o r [w1' w2']. cbn. destruct (kupdate w1 k o) as [r' x] eqn:E. intros [= -> -> ->]. by apply (kupdate_refused _ _ _ _ _ E). Qed.
Next Obligation. intros ?? [w1 w2] k n e [w1' w2']. cbn. destruct (kdelete w1 k n) as [r' x] eqn:E. intros [= -> -> ->]. by apply (kdelete_refused _ _ _ _ _ E). Qed.

Lemma left_responsive `{!KubeClient W1 K} `{!KubeServer W1 K} : responsive W1 K ->
  @responsive (W1 * W2) K _ left_client left_server.
Proof.
  intros (Hg & Hl & Hc & Hu & Hd). unfold responsive. split_and!.
  - intros [w1 w2] k n e. apply Hg.
  - intros [w1 w2] k. apply Hl.
  - intros [w1 w2] k o Ho. destruct (Hc w1 k o Ho) as [w' E]. exists (w', w2). cbn. by rewrite E.
  - intros [w1 w2] k o Ho. destruct (Hu w1 k o Ho) as [w' E]. exists (w', w2). cbn. by rewrite E.
  - intros [w1 w2] k n e [w1' w2']. cbn. destruct (kdelete w1 k n) as [r x] eqn:E. intros [= -> -> _]. by destruct (Hd w1 k n e w1').
Qed.
End Pair.
