(* ===== verification/StackRox.v ===== *)
(** * Security alerts of a hub

    The agent asks the StackRox centrals of its hub for the counts of their alerts
    ([agent/pkg/status/syncers/security]): the client of a central
    ([clients/stackrox_client.go]), the message built from its answer
    ([stackrox_alert_count_summary.go]), the syncer ([stackrox_syncer.go]) and the
    controller that registers the centrals ([stackrox_controller.go]). *)

From stdpp Require Import prelude gmap strings list.
From Stdlib Require Import ZArith Lia Strings.Byte.
From S2P Require Import Prelude.
From S2P Require Import GoLib.
From S2P Require Import Version.
From S2P Require Import EventTypes.
From S2P Require Import CloudEvents.
From S2P Require Import Libraries.
From S2P Require Import InfoHandlers.
From S2P Require Import KubeClient.
Local Open Scope string_scope.
Local Open Scope list_scope.

(** ** Objects of the hub *)
Record Central := MkCentral {
  ce_Key : obj_key;
  ce_Annotations : gmap string string;
  ce_Deleting : bool;
}.
Record DetailsSecret := MkDetails { ds_Key : obj_key; ds_Data : gmap string bytes }.
Record Route := MkRoute { ro_Key : obj_key; ro_Host : string }.

Inductive rox_kind := KCentral | KDetails | KRoute.
#[export] Instance rox_kind_dec : EqDecision rox_kind.
Proof. solve_decision. Defined.

Definition rox_obj (k : rox_kind) : Type :=
  match k with KCentral => Central | KDetails => DetailsSecret | KRoute => Route end.
Definition rox_name (k : rox_kind) : rox_obj k -> obj_key :=
  match k with KCentral => ce_Key | KDetails => ds_Key | KRoute => ro_Key end.
#[export] Program Instance rox_kinds : Kinds rox_kind := {|
  kobj := rox_obj; kname := rox_name; obj_mark _ _ := None; obj_keep _ _ := true; obj_admit _ o := o;
|}.
Next Obligation. done. Qed.
Next Obligation. done. Qed.

(** ** [stackrox_alert_count_summary.go] *)
Record Count := MkCount { ct_Severity : string; ct_Count : string }.
Record Group := MkGroup { gr_Group : string; gr_Counts : list Count }.
Record AlertsSummeryCountsResponse := MkResponse { Groups : list Group }.

(** The values that the generator gets, by their Go type. *)
Inductive any := AnyResponse (r : AlertsSummeryCountsResponse) | AnyString (s : string) | AnyOther.

Definition convertSringToInt (s : string) : result Z :=
  match ParseInt s with (num, None) => Ok num | (_, Some e) => Err e end.

Definition set_count (severity : string) (n : Z) (a : SecurityAlertCounts) : SecurityAlertCounts :=
  if String.eqb severity "LOW_SEVERITY" then
    MkAlertCounts n (ac_Medium a) (ac_High a) (ac_Critical a) (ac_DetailURL a) (ac_Source a)
  else if String.eqb severity "MEDIUM_SEVERITY" then
    MkAlertCounts (ac_Low a) n (ac_High a) (ac_Critical a) (ac_DetailURL a) (ac_Source a)
  else if String.eqb severity "HIGH_SEVERITY" then
    MkAlertCounts (ac_Low a) (ac_Medium a) n (ac_Critical a) (ac_DetailURL a) (ac_Source a)
  else if String.eqb severity "CRITICAL_SEVERITY" then
    MkAlertCounts (ac_Low a) (ac_Medium a) (ac_High a) n (ac_DetailURL a) (ac_Source a)
  else a.

Fixpoint add_counts (counts : list Count) (alertCount : SecurityAlertCounts) : result SecurityAlertCounts :=
  match counts with
  | [] => Ok alertCount
  | count :: rest =>
      match convertSringToInt (ct_Count count) with
      | Err e => Err ("failed to convert " +:+ ct_Count count +:+ " to integer: " +:+ e)
      | Ok countInt => add_counts rest (set_count (ct_Severity count) countInt alertCount)
      end
  end.

Definition GenerateFromCache (values : list any) : result SecurityAlertCounts :=
  match values with
  | [v0; v1; v2; v3] =>
      match v0 with
      | AnyResponse alertCountSummeryResponse =>
          match Groups alertCountSummeryResponse with
          | [g] =>
              match v1, v2, v3 with
              | AnyString acsCentralExternalHostPort, AnyString acsCentralNamespace, AnyString acsCentralName =>
                  add_counts (gr_Counts g)
                    (MkAlertCounts 0 0 0 0 (acsCentralExternalHostPort +:+ "/main/violations")
                       (acsCentralNamespace +:+ "/" +:+ acsCentralName))
              | AnyString _, AnyString _, _ => Err "ACS Central name was not provided"
              | AnyString _, _, _ => Err "ACS Central namespace was not provided"
              | _, _, _ => Err "ACS external URL is not valid"
              end
          | _ => Err "no result groups returned from ACS"
          end
      | _ => Err "alert summery count cache struct is not of the right type"
      end
  | _ => Err "alert summery count cache struct or ACS base URL were not provided"
  end.

(** The request, whose cache is one variable of the package ([stackrox_requests.go]). *)
Record stackRoxRequest := MkRequest { rq_Method : string; rq_Path : string; rq_Body : string }.
Definition AlertsSummeryCountsRequest : stackRoxRequest := MkRequest "GET" "/v1/alerts/summary/counts" "".
Definition stackRoxRequests : list stackRoxRequest := [AlertsSummeryCountsRequest].

(** JSON of the answers, decoded into a struct that holds the previous one, and of
    the message. *)
Class RoxCodec := {
  unmarshal_counts : bytes -> AlertsSummeryCountsResponse -> option goerror * AlertsSummeryCountsResponse;
  marshal_counts : SecurityAlertCounts -> result bytes;
}.

(** ** [clients/stackrox_client.go] *)
Record HttpRequest (Pool : Type) := MkHttp {
  ht_Method : string;
  ht_Endpoint : string;
  ht_Body : string;
  ht_Authorization : string;
  ht_Accept : string;
  ht_RootCAs : option Pool;
}.
Arguments MkHttp {Pool}. Arguments ht_Authorization {Pool}. Arguments ht_Endpoint {Pool}. Arguments ht_RootCAs {Pool}.

(** [http.NewRequest], and [Client.Do] followed by the reading of the body. *)
Class Http (X Pool : Type) := {
  http_check : string -> string -> option goerror;
  http_do : X -> HttpRequest Pool -> result (Z * result bytes) * X;
}.
(** [AppendCertsFromPEM] on a new pool; [None] when there is no certificate. *)
Class CertPool (Pool : Type) := { certs_from_pem : bytes -> option Pool }.

Section Client.
Context {X Pool : Type} `{Http X Pool}.

Record StackRoxClient := MkClient { cl_url : string; cl_token : string; cl_ca : option Pool }.

Definition StackRoxClient_Build (url token : string) (ca : option Pool) : result StackRoxClient :=
  if String.eqb url "" then Err "URL is mandatory"
  else if String.eqb token "" then Err "token is mandatory"
  else Ok (MkClient url token ca).

Definition DoRequest (c : StackRoxClient) (method path body : string) (x : X) : result (bytes * Z) * X :=
  let endpoint := cl_url c +:+ path in
  match http_check method endpoint with
  | Some e => (Err ("failed to create request: " +:+ e), x)
  | None =>
      match http_do x (MkHttp method endpoint body ("Bearer " +:+ cl_token c) "application/json" (cl_ca c)) with
      | (Err e, x') => (Err ("failed to make request: " +:+ e), x')
      | (Ok (_, Err e), x') => (Err ("failed to read response: " +:+ e), x')
      | (Ok (status, Ok respBody), x') => (Ok (respBody, status), x')
      end
  end.
End Client.
Arguments StackRoxClient : clear implicits.

(** ** [stackrox_syncer.go] *)
Definition stacRoxDetailsAnnotation : string := "global-hub.open-cluster-management.io/with-stackrox-credentials-secret".

Section Syncer.
Context {W X P Event Pool : Type}.
Context `{!KubeClient W rox_kind} `{Http X Pool} `{CertPool Pool} `{EventSDK Event} `{Producer P Event} `{RoxCodec}.
Context (LeafHubName : string).

(** What is known of a registered central; its key is the one of the map. *)
Record stackRoxData := MkData { apiClient : option (StackRoxClient Pool); consoleURL : string }.

(** The cache belongs to the package and is shared by all centrals. *)
Record StackRoxSyncer := MkSyncer {
  sx_topic : string;
  sx_pollInterval : Z;
  dataMap : gmap obj_key stackRoxData;
  sx_cache : AlertsSummeryCountsResponse;
  sx_currentVersion : Version;
  lastSentData : option SecurityAlertCounts;
}.

Definition set_dataMap (s : StackRoxSyncer) (m : gmap obj_key stackRoxData) : StackRoxSyncer :=
  MkSyncer (sx_topic s) (sx_pollInterval s) m (sx_cache s) (sx_currentVersion s) (lastSentData s).
Definition set_cache (s : StackRoxSyncer) (c : AlertsSummeryCountsResponse) : StackRoxSyncer :=
  MkSyncer (sx_topic s) (sx_pollInterval s) (dataMap s) c (sx_currentVersion s) (lastSentData s).
Definition set_version_rox (s : StackRoxSyncer) (v : Version) : StackRoxSyncer :=
  MkSyncer (sx_topic s) (sx_pollInterval s) (dataMap s) (sx_cache s) v (lastSentData s).
Definition set_lastSent (s : StackRoxSyncer) (m : SecurityAlertCounts) : StackRoxSyncer :=
  MkSyncer (sx_topic s) (sx_pollInterval s) (dataMap s) (sx_cache s) (sx_currentVersion s) (Some m).

Definition StackRoxSyncer_Build (hasLogger : bool) (topic : string) (hasProducer hasClient : bool) (pollInterval : Z)
    : result StackRoxSyncer :=
  if negb hasLogger then Err "logger is mandatory"
  else if String.eqb topic "" then Err "topic is mandatory"
  else if negb hasProducer then Err "producer is mandatory"
  else if negb hasClient then Err "client is mandatory"
  else if (pollInterval <=? 0)%Z then Err "poll interval must be greater than zero"
  else Ok (MkSyncer topic pollInterval ∅ (MkResponse []) NewVersion None).

(** [Register] and [Unregister] of the syncer, which never fail. *)
Definition Register_central (key : obj_key) (s : StackRoxSyncer) : StackRoxSyncer :=
  match dataMap s !! key with
  | Some _ => s
  | None => set_dataMap s (<[key := MkData None ""]> (dataMap s))
  end.
Definition Unregister_central (key : obj_key) (s : StackRoxSyncer) : StackRoxSyncer :=
  match dataMap s !! key with
  | Some _ => set_dataMap s (delete key (dataMap s))
  | None => s
  end.

Record stackRoxConnDetails := MkConn { apiURL : string; apiToken : string; caPool : option Pool }.

Definition fetchConnDetails (w : W) (centralKey : obj_key) : result stackRoxConnDetails :=
  match kget w KCentral centralKey with
  | Missing => Err "central not found"
  | Broken e => Err e
  | Found centralObject =>
      let value := default "" (ce_Annotations centralObject !! stacRoxDetailsAnnotation) in
      if String.eqb value "" then Err "central doesn't have the annotation"
      else
        match split_char (Ascii.ascii_of_nat 47) value with
        | [ns; name] =>
            match kget w KDetails (ns, name) with
            | Missing => Err "secret not found"
            | Broken e => Err e
            | Found secretObject =>
                let url := match ds_Data secretObject !! "url" with
                           | Some b => TrimSpace (String.string_of_list_byte b)
                           | None => "https://central." +:+ centralKey.1 +:+ ".svc"
                           end in
                match ds_Data secretObject !! "token" with
                | None => Err "connection details secret doesn't contain the mandatory 'token' key"
                | Some b =>
                    let token := TrimSpace (String.string_of_list_byte b) in
                    match ds_Data secretObject !! "ca" with
                    | None => Ok (MkConn url token None)
                    | Some pem =>
                        match certs_from_pem pem with
                        | None => Err "key 'ca' of connection details secret doesn't contain any CA certificate"
                        | Some pool => Ok (MkConn url token (Some pool))
                        end
                    end
                end
            end
        | _ => Err "value of annotation is not valid"
        end
  end.

Definition fetchConsoleURL (w : W) (centralKey : obj_key) : result string :=
  match kget w KRoute (centralKey.1, "central") with
  | Missing => Err "route not found"
  | Broken e => Err e
  | Found routeObject =>
      if String.eqb (ro_Host routeObject) "" then Err "route doesn't have a host"
      else Ok ("https://" +:+ ro_Host routeObject)
  end.

(** The data of a central after it is refreshed. *)
Definition refresh (w : W) (key : obj_key) : result stackRoxData :=
  let? connDetails := fetchConnDetails w key in
  let? client := StackRoxClient_Build (apiURL connDetails) (apiToken connDetails) (caPool connDetails) in
  let? url := fetchConsoleURL w key in
  Ok (MkData (Some client) url).

Definition unauthorized (status : Z) : bool := (status =? 401)%Z || (status =? 403)%Z.

(** The answer to a request, with the data of the central after it. *)
Definition poll_response (w : W) (key : obj_key) (data : stackRoxData) (request : stackRoxRequest) (x : X)
    : outcome (result bytes * stackRoxData * X) :=
  let ask (data : stackRoxData) (x : X) :=
    match apiClient data with
    | None => Panic
    | Some c => Ret (DoRequest c (rq_Method request) (rq_Path request) (rq_Body request) x)
    end in
  let! r := ask data x in
  match r with
  | (Err e, x1) => Ret (Err e, data, x1)
  | (Ok (response, status), x1) =>
      if unauthorized status then
        match refresh w key with
        | Err e => Ret (Err e, data, x1)
        | Ok data' =>
            let! r' := ask data' x1 in
            match r' with
            | (Err e, x2) => Ret (Err e, data', x2)
            | (Ok (response', status'), x2) =>
                if negb (status' =? 200)%Z then Ret (Err "request failed with status code", data', x2)
                else Ret (Ok response', data', x2)
            end
        end
      else Ret (Ok response, data, x1)
  end.

(** The pointer to the data of a central is the one of the map, if it is there. *)
Definition set_data (key : obj_key) (data : stackRoxData) (s : StackRoxSyncer) : StackRoxSyncer :=
  set_dataMap s (alter (fun _ => data) key (dataMap s)).

Definition poll_central (w : W) (key : obj_key) (data : stackRoxData) (request : stackRoxRequest)
    (s : StackRoxSyncer) (x : X) : outcome (option goerror * stackRoxData * StackRoxSyncer * X) :=
  let! (r, data', x') := poll_response w key data request x in
  let s' := set_data key data' s in
  match r with
  | Err e => Ret (Some e, data', s', x')
  | Ok response =>
      let '(err, cache) := unmarshal_counts response (sx_cache s') in
      Ret (match err with Some e => Some ("failed to unmarshal response: " +:+ e) | None => None end,
           data', set_cache s' cache, x')
  end.

(** The version goes under the name of the version of a dependency. *)
Definition rox_ToEvent (source eventType currentVersion : string) : Event :=
  SetExtension ExtDependencyVersion (ExtString currentVersion) (SetType eventType (SetSource source NewEvent)).

Definition produce (messageStruct : SecurityAlertCounts) (s : StackRoxSyncer) (pr : P)
    : option goerror * StackRoxSyncer * P :=
  let evt := rox_ToEvent LeafHubName SecurityAlertCountsType (Version_String (sx_currentVersion s)) in
  match rbind (marshal_counts messageStruct) (fun b => SetData b evt) with
  | Err e => (Some ("failed to get CloudEvent instance from event: " +:+ e), s, pr)
  | Ok evt =>
      match SendEvent pr (sx_topic s) evt with
      | (Some e, pr') => (Some ("failed to send event: " +:+ e), s, pr')
      | (None, pr') => (None, set_version_rox s (Next (sx_currentVersion s)), pr')
      end
  end.

(** The second half of a request: the message of the cache. *)
Definition publish (key : obj_key) (data : stackRoxData) (s : StackRoxSyncer) (pr : P)
    : option goerror * StackRoxSyncer * P :=
  match GenerateFromCache [AnyResponse (sx_cache s); AnyString (consoleURL data); AnyString key.1; AnyString key.2] with
  | Err e => (Some ("failed to generate struct for kafka message: " +:+ e), s, pr)
  | Ok messageStruct =>
      match produce messageStruct (set_version_rox s (Incr (sx_currentVersion s))) pr with
      | (Some e, s', pr') => (Some ("failed to produce a message to kafka: " +:+ e), s', pr')
      | (None, s', pr') => (None, set_lastSent s' messageStruct, pr')
      end
  end.

Fixpoint sync_central (requests : list stackRoxRequest) (w : W) (key : obj_key) (data : stackRoxData)
    (s : StackRoxSyncer) (x : X) (pr : P) : outcome (option goerror * StackRoxSyncer * X * P) :=
  match requests with
  | [] => Ret (None, s, x, pr)
  | request :: rest =>
      let! (err, data', s', x') := poll_central w key data request s x in
      match err with
      | Some e => Ret (Some ("failed to make a request to central: " +:+ e), s', x', pr)
      | None =>
          match publish key data' s' pr with
          | (Some e, s'', pr') => Ret (Some e, s'', x', pr')
          | (None, s'', pr') => sync_central rest w key data' s'' x' pr'
          end
      end
  end.

Definition Sync_central (w : W) (key : obj_key) (s : StackRoxSyncer) (x : X) (pr : P)
    : outcome (option goerror * StackRoxSyncer * X * P) :=
  match dataMap s !! key with
  | None => Ret (Some "central isn't registered", s, x, pr)
  | Some data =>
      match apiClient data with
      | Some _ => sync_central stackRoxRequests w key data s x pr
      | None =>
          match refresh w key with
          | Err e => Ret (Some e, s, x, pr)
          | Ok data' => sync_central stackRoxRequests w key data' (set_data key data' s) x pr
          end
      end
  end.

(** A tick syncs every central, each on its own; their errors are logged. This is
    the run in which they take turns. *)
Fixpoint tick (keys : list obj_key) (w : W) (s : StackRoxSyncer) (x : X) (pr : P) : outcome (StackRoxSyncer * X * P) :=
  match keys with
  | [] => Ret (s, x, pr)
  | key :: rest =>
      let! (_, s', x', pr') := Sync_central w key s x pr in
      tick rest w s' x' pr'
  end.

(** ** [stackrox_controller.go] *)
Definition rox_Reconcile (w : W) (key : obj_key) (s : StackRoxSyncer) : option goerror * StackRoxSyncer :=
  match kget w KCentral key with
  | Missing => (None, Unregister_central key s)
  | Broken e => (Some e, s)
  | Found centralObject =>
      let s1 := if ce_Deleting centralObject then Unregister_central key s else s in
      match ce_Annotations centralObject !! stacRoxDetailsAnnotation with
      | Some _ => (None, Register_central key s1)
      | None => (None, s1)
      end
  end.
End Syncer.
