(* ===== verification/StackRoxFacts.v ===== *)
(** * Properties of the security alerts

    What a sync sends for a central, what the manager does with it, and which
    centrals are synced; the last part runs a hub with two centrals. *)

From Stdlib Require Import Strings.Ascii Strings.String.
From stdpp Require Import prelude gmap strings list.
From Stdlib Require Import ZArith Lia Strings.Byte.
From S2P Require Import Prelude.
From S2P Require Import GoLib.
From S2P Require Import Version.
From S2P Require Import EventTypes.
From S2P Require Import CloudEvents.
From S2P Require Import Libraries.
From S2P Require Import Metadata.
From S2P Require Import Conflation.
From S2P Require Import InfoHandlers.
From S2P Require Import KubeClient.
From S2P Require Import StackRox.
Local Open Scope string_scope.
Local Open Scope list_scope.

(** ** The counts of a group

    The last count of a severity, nothing being zero. *)
Definition number_of (c : Count) : Z := match convertSringToInt (ct_Count c) with Ok n => n | Err _ => 0%Z end.
Definition severity_count (severity : string) (counts : list Count) (n0 : Z) : Z :=
  default n0 (last (number_of <$> filter (fun c => ct_Severity c = severity) counts)).
Definition numeric (c : Count) : Prop := exists n, convertSringToInt (ct_Count c) = Ok n.

Lemma severity_count_cons sev c cs n0 :
  severity_count sev (c :: cs) n0 = severity_count sev cs (if decide (ct_Severity c = sev) then number_of c else n0).
Proof.
  unfold severity_count. rewrite filter_cons. case_decide; [|done]. rewrite fmap_cons, last_cons.
  by destruct (last _).
Qed.

Lemma add_counts_spec counts : forall a, Forall numeric counts ->
  add_counts counts a = Ok (MkAlertCounts (severity_count "LOW_SEVERITY" counts (ac_Low a))
    (severity_count "MEDIUM_SEVERITY" counts (ac_Medium a)) (severity_count "HIGH_SEVERITY" counts (ac_High a))
    (severity_count "CRITICAL_SEVERITY" counts (ac_Critical a)) (ac_DetailURL a) (ac_Source a)).
Proof.
  induction counts as [|c cs IH]; intros a Hn; [by destruct a|].
  apply Forall_cons in Hn as [[n Hc] Hn]. cbn [add_counts]. rewrite Hc, (IH _ Hn). rewrite !severity_count_cons.
  assert (number_of c = n) as -> by (unfold number_of; by rewrite Hc).
  destruct a. unfold set_count. generalize (ct_Severity c). intros sev.
  repeat match goal with |- context [String.eqb sev ?y] => destruct (String.eqb_spec sev y) end;
    repeat case_decide; subst; try done; discriminate.
Qed.

(** The message for a central with the counts of a group. *)
Definition message (counts : list Count) (url : string) (key : obj_key) : SecurityAlertCounts :=
  MkAlertCounts (severity_count "LOW_SEVERITY" counts 0) (severity_count "MEDIUM_SEVERITY" counts 0)
    (severity_count "HIGH_SEVERITY" counts 0) (severity_count "CRITICAL_SEVERITY" counts 0)
    (url +:+ "/main/violations") (key.1 +:+ "/" +:+ key.2).

Lemma GenerateFromCache_one g url key : Forall numeric (gr_Counts g) ->
  GenerateFromCache [AnyResponse (MkResponse [g]); AnyString url; AnyString key.1; AnyString key.2] =
  Ok (message (gr_Counts g) url key).
Proof. intros Hn. cbn. by rewrite add_counts_spec. Qed.

Section Facts.
Context {W X P Event Pool : Type}.
Context `{!KubeClient W rox_kind} `{!KubeServer W rox_kind} `{Http X Pool} `{CertPool Pool} `{EventLaws Event}.
Context `{!Producer P Event} `{!ProducerLog P Event} `{RoxCodec}.
Context (LeafHubName : string).
Implicit Types (s : StackRoxSyncer (Pool := Pool)) (x : X) (pr : P) (key : obj_key).

(** ** What is sent *)
Definition is_alert (e : Event) : Prop :=
  Type_ e = SecurityAlertCountsType /\ Source e = LeafHubName /\
  forall k, k <> ExtDependencyVersion -> Extensions e !! k = Extensions (NewEvent : Event) !! k.

Lemma rox_ToEvent_is_alert v b (e : Event) :
  SetData b (rox_ToEvent LeafHubName SecurityAlertCountsType v) = Ok e -> Data e = b /\ is_alert e.
Proof.
  intros (Hd & _ & Ht & Hs & Hx)%SetData_Ok. unfold rox_ToEvent in *. split; [done|]. split_and!.
  - by rewrite Ht, Type_SetExtension, Type_SetType.
  - by rewrite Hs, Source_SetExtension, Source_SetType, Source_SetSource.
  - intros k Hk. by rewrite Hx, Extensions_SetExtension_ne, Extensions_SetType, Extensions_SetSource by done.
Qed.

Lemma produce_sends m s pr r s' pr' : produce (Event := Event) LeafHubName m s pr = (r, s', pr') ->
  exists evs, sent_events pr' = sent_events pr ++ evs /\ Forall is_alert evs.
Proof.
  unfold produce, rbind. destruct (marshal_counts m) as [b|e]; [|intros [= _ _ <-]; exists []; by rewrite app_nil_r].
  destruct (SetData b _) as [evt|e] eqn:Ed; [|intros [= _ _ <-]; exists []; by rewrite app_nil_r].
  apply rox_ToEvent_is_alert in Ed as [_ Ha].
  destruct (SendEvent pr (sx_topic s) evt) as [[e|] pr1] eqn:Es; intros [= _ _ <-].
  - apply send_refused in Es. exists []. by rewrite app_nil_r.
  - apply send_accepted in Es. exists [evt]. split; [done|]. by apply Forall_singleton.
Qed.

Lemma publish_sends key data s pr r s' pr' : publish (Event := Event) LeafHubName key data s pr = (r, s', pr') ->
  exists evs, sent_events pr' = sent_events pr ++ evs /\ Forall is_alert evs.
Proof.
  unfold publish. destruct (GenerateFromCache _) as [m|e]; [|intros [= _ _ <-]; exists []; by rewrite app_nil_r].
  destruct (produce _ m _ pr) as [[[e|] s1] pr1] eqn:E; intros [= _ _ <-]; by apply produce_sends in E.
Qed.

Lemma sync_central_sends reqs w key : forall data s x pr r s' x' pr',
  sync_central (Event := Event) LeafHubName reqs w key data s x pr = Ret (r, s', x', pr') ->
  exists evs, sent_events pr' = sent_events pr ++ evs /\ Forall is_alert evs.
Proof.
  induction reqs as [|req reqs IH]; intros data s x pr r s' x' pr' E; cbn [sync_central] in E.
  - injection E as _ _ _ <-. exists []. by rewrite app_nil_r.
  - destruct (poll_central w key data req s x) as [[[[err data1] s1] x1]| | |]; try discriminate E. cbn [obind] in E.
    destruct err as [e|]; [injection E as _ _ _ <-; exists []; by rewrite app_nil_r|].
    destruct (publish LeafHubName key data1 s1 pr) as [[[e|] s2] pr2] eqn:Ep; apply publish_sends in Ep as (evs & Es & Ha).
    + injection E as _ _ _ <-. eauto.
    + apply IH in E as (evs' & Es' & Ha'). exists (evs ++ evs'). rewrite Es', Es, app_assoc.
      split; [done|]. by apply Forall_app.
Qed.

Lemma Sync_central_sends w key s x pr r s' x' pr' :
  Sync_central (Event := Event) LeafHubName w key s x pr = Ret (r, s', x', pr') ->
  exists evs, sent_events pr' = sent_events pr ++ evs /\ Forall is_alert evs.
Proof.
  unfold Sync_central. destruct (dataMap s !! key) as [data|]; [|intros [= _ _ _ <-]; exists []; by rewrite app_nil_r].
  destruct (apiClient data); [apply sync_central_sends|].
  destruct (refresh w key) as [data'|e]; [apply sync_central_sends|intros [= _ _ _ <-]; exists []; by rewrite app_nil_r].
Qed.

(** No security alert ever reaches the tables of the manager: every event that
    a sync sends for a central carries its version under the name of the version
    of a dependency and none under its own, so that the manager, whatever handlers
    it has and whatever state it is in, leaves the event out without a trace. *)
Theorem security_alerts_never_reach_the_table {Handler : Type} w key s x pr r s' x' pr'
    (Hnew : Extensions (NewEvent : Event) !! ExtVersion = None)
    (Hrun : Sync_central (Event := Event) LeafHubName w key s x pr = Ret (r, s', x', pr')) :
  forall e got : Event, e ∈ drop (length (sent_events pr)) (sent_events pr') ->
  Extensions got !! ExtVersion = Extensions e !! ExtVersion ->
  forall (cm : ConflationManager Event Handler) rq h, Insert cm got rq h = Ret (cm, rq, h).
Proof.
  apply Sync_central_sends in Hrun as (evs & -> & Ha). rewrite drop_app_length. intros e got He Hgot cm rq h.
  rewrite Forall_forall in Ha. destruct (Ha e He) as (_ & _ & Hx). rewrite (Hx ExtVersion) in Hgot by done.
  unfold Insert. destruct (registrations cm !! Type_ got); [|done].
  unfold NewThresholdMetadata, getVersionFromEvent. by rewrite Hgot, Hnew.
Qed.

(** ** The answer of a central *)
Lemma poll_response_authorized w key data c request x body status x' :
  apiClient data = Some c -> unauthorized status = false ->
  DoRequest c (rq_Method request) (rq_Path request) (rq_Body request) x = (Ok (body, status), x') ->
  poll_response w key data request x = Ret (Ok body, data, x').
Proof. intros Hc Hs Hask. unfold poll_response. rewrite Hc. cbn [obind]. by rewrite Hask, Hs. Qed.

Definition accepts_events : Prop := forall (p : P) t (e : Event), exists p', SendEvent p t e = (None, p').
Definition encodes : Prop := forall m, exists b, marshal_counts m = Ok b.

Lemma publish_message key data s pr g : sx_cache s = MkResponse [g] -> Forall numeric (gr_Counts g) ->
  accepts_events -> encodes ->
  exists s' pr' (e : Event), publish LeafHubName key data s pr = (None, s', pr') /\
    sent_events pr' = sent_events pr ++ [e] /\ is_alert e /\
    marshal_counts (message (gr_Counts g) (consoleURL data) key) = Ok (Data e) /\
    lastSentData s' = Some (message (gr_Counts g) (consoleURL data) key) /\
    dataMap s' = dataMap s /\ sx_currentVersion s' = Next (Incr (sx_currentVersion s)).
Proof.
  intros Hg Hn Hacc Henc. unfold publish. rewrite Hg, GenerateFromCache_one by done.
  unfold produce, rbind. destruct (Henc (message (gr_Counts g) (consoleURL data) key)) as [b Eb]. rewrite Eb.
  cbn [sx_currentVersion set_version_rox sx_topic].
  destruct (SetData_total b (rox_ToEvent LeafHubName SecurityAlertCountsType
    (Version_String (Incr (sx_currentVersion s))))) as [e Ee]. rewrite Ee.
  apply rox_ToEvent_is_alert in Ee as [Hd Ha].
  destruct (Hacc pr (sx_topic s) e) as [pr' Es]. rewrite Es. apply send_accepted in Es.
  eexists _, pr', e. split; [reflexivity|]. by rewrite Hd.
Qed.

(** A sync of a central that answers sends its counts: when the answer, with
    any status but those of a refused token, decodes to one group of numbers, the
    sync ends without an error and sends one event, whose data encodes for each
    severity the last count of the answer, with the address and the name of the
    central. The status is not looked at otherwise, so that an answer that leaves
    the cache as it is, such as an error, sends the counts of an earlier one. *)
Theorem answered_counts_are_sent w key s x pr data c body status x' g
    (Hdata : dataMap s !! key = Some data) (Hc : apiClient data = Some c)
    (Hask : DoRequest c "GET" "/v1/alerts/summary/counts" "" x = (Ok (body, status), x'))
    (Hstatus : unauthorized status = false)
    (Hdec : unmarshal_counts body (sx_cache s) = (None, MkResponse [g])) (Hnum : Forall numeric (gr_Counts g))
    (Haccept : accepts_events) (Hencode : encodes) :
  exists s' pr' (e : Event), Sync_central LeafHubName w key s x pr = Ret (None, s', x', pr') /\
    sent_events pr' = sent_events pr ++ [e] /\ is_alert e /\
    marshal_counts (message (gr_Counts g) (consoleURL data) key) = Ok (Data e) /\
    dataMap s' = dataMap s /\ sx_currentVersion s' = Next (Incr (sx_currentVersion s)).
Proof.
  unfold Sync_central. rewrite Hdata, Hc. cbn [sync_central stackRoxRequests]. unfold poll_central.
  rewrite (poll_response_authorized w key data c AlertsSummeryCountsRequest x body status x' Hc Hstatus Hask).
  cbn [obind]. cbn [sx_cache set_data set_dataMap]. rewrite Hdec. cbn [obind].
  set (s1 := set_cache _ _).
  destruct (publish_message key data s1 pr g) as (s' & pr' & e & Ep & Hs & Ha & Hm & _ & Hdm & Hv); [done..|].
  rewrite Ep. exists s', pr', e. split; [done|]. split; [done|]. split; [done|]. split; [done|]. split; [|done].
  rewrite Hdm. subst s1. cbn. rewrite <- (alter_id (fun _ => data) (dataMap s) key) at 2; [done|].
  intros d Hd. rewrite Hdata in Hd. by injection Hd as ->.
Qed.

(** The centrals of a hub share the memory of their last answer: when two of
    them are polled before the first one's message is built, as their two
    goroutines may do, the message of the first central has the counts of the
    second. *)
Theorem polled_central_replaces_the_counts_of_others w a b da db req s x da' s1 x1 db' x2 body g pr
    (Ha : poll_central w a da req s x = Ret (None, da', s1, x1))
    (Hb : poll_response w b db req x1 = Ret (Ok body, db', x2))
    (Hdec : unmarshal_counts body (sx_cache s1) = (None, MkResponse [g])) (Hnum : Forall numeric (gr_Counts g))
    (Haccept : accepts_events) (Hencode : encodes) :
  exists s2, poll_central w b db req s1 x1 = Ret (None, db', s2, x2) /\
  exists s3 pr' (e : Event), publish LeafHubName a da' s2 pr = (None, s3, pr') /\
    sent_events pr' = sent_events pr ++ [e] /\
    marshal_counts (message (gr_Counts g) (consoleURL da') a) = Ok (Data e).
Proof.
  unfold poll_central at 1. rewrite Hb. cbn [obind]. cbn [sx_cache set_data set_dataMap]. rewrite Hdec.
  eexists. split; [reflexivity|]. set (s2 := set_cache _ _).
  destruct (publish_message a da' s2 pr g) as (s' & pr' & e & Ep & Hs & _ & Hm & _); [done..|].
  by exists s', pr', e.
Qed.

(** A refused token is read again from the secret of the central, once: when
    the hub holds the central with its annotation, the secret with a token and the
    route, and the central answers to the new token, the sync goes on with the
    answer and the new client is kept for the next ones. *)
Theorem refused_token_is_replaced w key s x pr data c body0 status0 x1 central ns name secret token host body x2 g
    (Hdata : dataMap s !! key = Some data) (Hc : apiClient data = Some c)
    (Hask : DoRequest c "GET" "/v1/alerts/summary/counts" "" x = (Ok (body0, status0), x1))
    (Hstatus : unauthorized status0 = true) (Hserver : responsive W rox_kind)
    (Hcentral : kobjects w KCentral !! key = Some central)
    (Hannot : ce_Annotations central !! stacRoxDetailsAnnotation = Some (ns +:+ "/" +:+ name))
    (Hns : no_char (ascii_of_nat 47) ns = true) (Hname : no_char (ascii_of_nat 47) name = true)
    (Hsecret : kobjects w KDetails !! (ns, name) = Some secret)
    (Htoken : ds_Data secret !! "token" = Some token) (Hnonempty : TrimSpace (string_of_list_byte token) <> "")
    (Hurl : ds_Data secret !! "url" = None) (Hca : ds_Data secret !! "ca" = None)
    (Hroute : kobjects w KRoute !! (key.1, "central") = Some (MkRoute (key.1, "central") host)) (Hhost : host <> "") :
  let c' := MkClient ("https://central." +:+ key.1 +:+ ".svc") (TrimSpace (string_of_list_byte token)) None in
  forall (Hagain : DoRequest c' "GET" "/v1/alerts/summary/counts" "" x1 = (Ok (body, 200%Z), x2))
    (Hdec : unmarshal_counts body (sx_cache s) = (None, MkResponse [g])) (Hnum : Forall numeric (gr_Counts g))
    (Haccept : accepts_events) (Hencode : encodes),
  exists s' pr' (e : Event), Sync_central LeafHubName w key s x pr = Ret (None, s', x2, pr') /\
    sent_events pr' = sent_events pr ++ [e] /\
    marshal_counts (message (gr_Counts g) ("https://" +:+ host) key) = Ok (Data e) /\
    dataMap s' !! key = Some (MkData (Some c') ("https://" +:+ host)).
Proof.
  intros c' Hagain Hdec Hnum Haccept Hencode.
  assert (refresh w key = Ok (MkData (Some c') ("https://" +:+ host))) as Hr.
  { unfold refresh, fetchConnDetails. rewrite (kget_present w KCentral key central Hserver Hcentral), Hannot.
    cbn [from_option id]. destruct (String.eqb_spec (ns +:+ "/" +:+ name) "") as [E|_]; [by destruct ns|].
    assert (split_char (ascii_of_nat 47) (ns +:+ "/" +:+ name) = [ns; name]) as ->.
    { refine (eq_trans (split_char_app (ascii_of_nat 47) ns name Hns) _). by rewrite split_char_none. }
    rewrite (kget_present w KDetails (ns, name) secret Hserver Hsecret), Htoken, Hurl, Hca. cbn [rbind apiURL apiToken caPool].
    unfold StackRoxClient_Build. cbn [String.append]. rewrite (proj2 (String.eqb_neq _ _) Hnonempty).
    change (String.eqb (String _ _) "") with false. cbn [rbind].
    unfold fetchConsoleURL. rewrite (kget_present w KRoute (key.1, "central") _ Hserver Hroute).
    cbn [ro_Host]. by rewrite (proj2 (String.eqb_neq _ _) Hhost). }
  unfold Sync_central. rewrite Hdata, Hc. cbn [sync_central stackRoxRequests]. unfold poll_central, poll_response.
  cbn [rq_Method rq_Path rq_Body AlertsSummeryCountsRequest]. rewrite Hc. cbn [obind]. rewrite Hask, Hstatus, Hr.
  cbn [apiClient obind]. rewrite Hagain. cbn [Z.eqb Pos.eqb negb obind]. cbn [sx_cache set_data set_dataMap].
  rewrite Hdec. cbn [obind]. set (s1 := set_cache _ _).
  destruct (publish_message key (MkData (Some c') ("https://" +:+ host)) s1 pr g)
    as (s' & pr' & e & Ep & Hs & _ & Hm & _ & Hdm & _); [done..|].
  rewrite Ep. exists s', pr', e. split_and!; [done..|]. rewrite Hdm. subst s1. cbn.
  rewrite lookup_alter_eq, Hdata. done.
Qed.

(** ** The centrals that are synced *)

(** After a reconciliation without an error a central is registered exactly
    when it is on the hub and has the annotation, or is without it, not being
    deleted, and was registered before; so a central that is being deleted is
    registered again, and one that loses its annotation stays. No other central
    is touched. *)
Theorem annotated_centrals_are_registered w key s s' (Hrun : rox_Reconcile w key s = (None, s')) :
  (is_Some (dataMap s' !! key) <-> exists c, kobjects w KCentral !! key = Some (c : kobj KCentral) /\
     (is_Some (ce_Annotations c !! stacRoxDetailsAnnotation) \/
      (ce_Deleting c = false /\ is_Some (dataMap s !! key)))) /\
  forall k, k <> key -> dataMap s' !! k = dataMap s !! k.
Proof.
  assert (forall s, dataMap (Unregister_central key s) = delete key (dataMap s)) as Hun.
  { intros s0. unfold Unregister_central. destruct (dataMap s0 !! key) eqn:E; [done|]. symmetry. by apply delete_id. }
  assert (forall s, is_Some (dataMap (Register_central key s) !! key) /\
    forall k, k <> key -> dataMap (Register_central key s) !! k = dataMap s !! k) as Hre.
  { intros s0. unfold Register_central. destruct (dataMap s0 !! key) eqn:E; [eauto|]. cbn. split.
    - rewrite lookup_insert_eq. eauto.
    - intros k Hk. by rewrite lookup_insert_ne. }
  unfold rox_Reconcile in Hrun. destruct (kget w KCentral key) as [c| |e] eqn:E; [| |done].
  - apply kget_Found in E. set (s1 := if ce_Deleting c then _ else s) in *.
    assert (forall k, k <> key -> dataMap s1 !! k = dataMap s !! k) as Hs1.
    { intros k Hk. subst s1. destruct (ce_Deleting c); [|done]. by rewrite Hun, lookup_delete_ne. }
    destruct (ce_Annotations c !! stacRoxDetailsAnnotation) eqn:Ea; injection Hrun as <-.
    + destruct (Hre s1) as [Hs Ho]. split; [|intros k Hk; by rewrite Ho, Hs1]. split; [|done].
      intros _. exists c. split; [done|]. left. rewrite Ea. eauto.
    + split; [|done]. split.
      * intros Hs. exists c. split; [done|]. right. subst s1. destruct (ce_Deleting c); [|done].
        rewrite Hun, lookup_delete_eq in Hs. by destruct Hs.
      * intros (c' & Hc' & Hor). rewrite E in Hc'. injection Hc' as <-. destruct Hor as [Hs|[Hd Hs]].
        -- rewrite Ea in Hs. by destruct Hs.
        -- subst s1. by rewrite Hd.
  - apply kget_Missing in E. injection Hrun as <-. rewrite Hun. split.
    + rewrite lookup_delete_eq. split; [by intros []|]. intros (c & Hc & _). rewrite E in Hc. done.
    + intros k Hk. by rewrite lookup_delete_ne.
Qed.
End Facts.

(** ** A hub with two centrals *)
Module Sample.
Definition group_a : Group := MkGroup "" [MkCount "LOW_SEVERITY" "3"; MkCount "HIGH_SEVERITY" "1"].
Definition group_b : Group := MkGroup "" [MkCount "LOW_SEVERITY" "7"; MkCount "CRITICAL_SEVERITY" "2"].
Definition key_a : obj_key := ("rhacs-a", "central").
Definition key_b : obj_key := ("rhacs-b", "central").

#[local] Instance answers_of_centrals : Http unit unit := {|
  http_check _ _ := None;
  http_do _ r :=
    (Ok (if String.eqb (ht_Authorization r) "Bearer old" then (401%Z, Ok [])
         else if String.prefix "https://central.rhacs-a" (ht_Endpoint r) then (200%Z, Ok [Byte.x00]) else (200%Z, Ok [Byte.x01])),
     tt);
|}.
#[local] Instance no_certificates : CertPool unit := {| certs_from_pem _ := None |}.
#[local] Instance rox_codec : RoxCodec := {|
  unmarshal_counts b cache :=
    match b with
    | [Byte.x00] => (None, MkResponse [group_a])
    | [Byte.x01] => (None, MkResponse [group_b])
    | _ => (Some "unexpected end of JSON input", cache)
    end;
  marshal_counts m := Ok (list_byte_of_string
    (FormatInt (ac_Low m) +:+ " " +:+ FormatInt (ac_High m) +:+ " " +:+ FormatInt (ac_Critical m) +:+ " " +:+ ac_Source m));
|}.

Definition client_of (ns token : string) : StackRoxClient unit := MkClient ("https://central." +:+ ns +:+ ".svc") token None.
Definition syncer (token : string) : StackRoxSyncer (Pool := unit) :=
  MkSyncer "status" 1800
    {[key_a := MkData (Some (client_of "rhacs-a" token)) "https://a"; key_b := MkData (Some (client_of "rhacs-b" token)) "https://b"]}
    (MkResponse []) NewVersion None.
Definition central_a (deleting : bool) : Central :=
  MkCentral key_a {[stacRoxDetailsAnnotation := "rhacs-a/details"]} deleting.
Definition hub (deleting : bool) : kstore (K := rox_kind) := fun k =>
  match k with
  | KCentral => {[key_a := central_a deleting]}
  | KDetails => {[("rhacs-a", "details") := MkDetails ("rhacs-a", "details") {["token" := list_byte_of_string " new"]}]}
  | KRoute => {[("rhacs-a", "central") := MkRoute ("rhacs-a", "central") "a"]}
  end.

Lemma numeric_a : Forall numeric (gr_Counts group_a).
Proof. repeat constructor; eexists; vm_compute; reflexivity. Qed.
Lemma numeric_b : Forall numeric (gr_Counts group_b).
Proof. repeat constructor; eexists; vm_compute; reflexivity. Qed.
Lemma accepted : accepts_events (P := list PlainEvent) (Event := PlainEvent).
Proof. intros p t e. eexists. reflexivity. Qed.
Lemma encoded : encodes.
Proof. intros m. eexists. reflexivity. Qed.

Lemma answered_counts_are_sent_witness :
  exists s' pr' (e : PlainEvent), Sync_central "hub1" (hub false) key_a (syncer "token") tt [] = Ret (None, s', tt, pr') /\
    pr' = [e] /\ Data e = list_byte_of_string "3 1 0 rhacs-a/central".
Proof.
  assert (dataMap (syncer "token") !! key_a = Some (MkData (Some (client_of "rhacs-a" "token")) "https://a")) as Hd
    by reflexivity.
  assert (DoRequest (client_of "rhacs-a" "token") "GET" "/v1/alerts/summary/counts" "" tt = (Ok ([Byte.x00], 200%Z), tt)) as Ha
    by (vm_compute; reflexivity).
  assert (unmarshal_counts [Byte.x00] (sx_cache (syncer "token")) = (None, MkResponse [group_a])) as Hu by reflexivity.
  destruct (answered_counts_are_sent (P := list PlainEvent) (Event := PlainEvent) "hub1" (hub false) key_a (syncer "token") tt []
    _ (client_of "rhacs-a" "token") [Byte.x00] 200 tt group_a Hd eq_refl Ha eq_refl Hu numeric_a accepted encoded)
    as (s' & pr' & e & Hrun & Hs & _ & Hm & _).
  exists s', pr', e. split; [exact Hrun|]. split; [exact Hs|]. vm_compute in Hm. by injection Hm.
Defined.

Definition cm : ConflationManager PlainEvent unit :=
  Register (MkManager ∅ ∅) (NewConflationRegistration 10 CompleteStateMode SecurityAlertCountsType tt).

Lemma security_alerts_never_reach_the_table_witness :
  exists s' (e : PlainEvent), Sync_central "hub1" (hub false) key_a (syncer "token") tt [] = Ret (None, s', tt, [e]) /\
    Type_ e = SecurityAlertCountsType /\
    Insert cm e NewConflationReadyQueue empty_heap = Ret (cm, NewConflationReadyQueue, empty_heap).
Proof.
  assert (exists s' e, Sync_central (Event := PlainEvent) (P := list PlainEvent) "hub1" (hub false) key_a (syncer "token") tt [] =
    Ret (None, s', tt, [e]) /\ Type_ e = SecurityAlertCountsType) as (s' & e & Hrun & Ht)
    by (eexists _, _; split; vm_compute; reflexivity).
  exists s', e. split; [exact Hrun|]. split; [exact Ht|].
  assert (Extensions (NewEvent : PlainEvent) !! ExtVersion = None) as Hn by reflexivity.
  apply (security_alerts_never_reach_the_table (P := list PlainEvent) (Handler := unit) "hub1" (hub false) key_a
    (syncer "token") tt [] None s' tt [e] Hn Hrun e e); [by left|reflexivity].
Defined.

Lemma polled_central_replaces_the_counts_of_others_witness :
  exists s1 s2 s3 pr' (e : PlainEvent),
    poll_central (hub false) key_a (MkData (Some (client_of "rhacs-a" "token")) "https://a") AlertsSummeryCountsRequest
      (syncer "token") tt = Ret (None, MkData (Some (client_of "rhacs-a" "token")) "https://a", s1, tt) /\
    poll_central (hub false) key_b (MkData (Some (client_of "rhacs-b" "token")) "https://b") AlertsSummeryCountsRequest
      s1 tt = Ret (None, MkData (Some (client_of "rhacs-b" "token")) "https://b", s2, tt) /\
    publish "hub1" key_a (MkData (Some (client_of "rhacs-a" "token")) "https://a") s2 [] = (None, s3, pr') /\
    pr' = [e] /\ Data e = list_byte_of_string "7 0 2 rhacs-a/central".
Proof.
  set (da := MkData (Some (client_of "rhacs-a" "token")) "https://a").
  set (db := MkData (Some (client_of "rhacs-b" "token")) "https://b").
  set (s1 := set_cache (set_data key_a da (syncer "token")) (MkResponse [group_a])).
  assert (poll_central (hub false) key_a da AlertsSummeryCountsRequest (syncer "token") tt = Ret (None, da, s1, tt)) as Ha
    by reflexivity.
  assert (poll_response (hub false) key_b db AlertsSummeryCountsRequest tt = Ret (Ok [Byte.x01], db, tt)) as Hb by reflexivity.
  assert (unmarshal_counts [Byte.x01] (sx_cache s1) = (None, MkResponse [group_b])) as Hu by reflexivity.
  destruct (polled_central_replaces_the_counts_of_others (P := list PlainEvent) (Event := PlainEvent) "hub1" (hub false)
    key_a key_b da db AlertsSummeryCountsRequest (syncer "token") tt da s1 tt db tt [Byte.x01] group_b [] Ha Hb Hu
    numeric_b accepted encoded) as (s2 & E2 & s3 & pr' & e & E3 & Hs & Hm).
  exists s1, s2, s3, pr', e. split; [exact Ha|]. split; [exact E2|]. split; [exact E3|]. split; [exact Hs|].
  vm_compute in Hm. by injection Hm.
Defined.

Lemma refused_token_is_replaced_witness :
  exists s' pr' (e : PlainEvent), Sync_central "hub1" (hub false) key_a (syncer "old") tt [] = Ret (None, s', tt, pr') /\
    pr' = [e] /\ dataMap s' !! key_a = Some (MkData (Some (client_of "rhacs-a" "new")) "https://a").
Proof.
  assert (kobjects (hub false) KCentral !! key_a = Some (central_a false)) as Hc by reflexivity.
  assert (kobjects (hub false) KDetails !! ("rhacs-a", "details") =
    Some (MkDetails ("rhacs-a", "details") {["token" := list_byte_of_string " new"]})) as Hs by reflexivity.
  assert (kobjects (hub false) KRoute !! ("rhacs-a", "central") = Some (MkRoute ("rhacs-a", "central") "a")) as Hr by reflexivity.
  assert (TrimSpace (string_of_list_byte (list_byte_of_string " new")) <> "") as Ht by (vm_compute; discriminate).
  assert (("a" : string) <> "") as Hh by discriminate.
  assert (DoRequest (client_of "rhacs-a" "old") "GET" "/v1/alerts/summary/counts" "" tt = (Ok ([], 401%Z), tt)) as Ha
    by (vm_compute; reflexivity).
  assert (DoRequest (client_of "rhacs-a" "new") "GET" "/v1/alerts/summary/counts" "" tt = (Ok ([Byte.x00], 200%Z), tt)) as Hb
    by (vm_compute; reflexivity).
  assert (unmarshal_counts [Byte.x00] (sx_cache (syncer "old")) = (None, MkResponse [group_a])) as Hu by reflexivity.
  destruct (refused_token_is_replaced (P := list PlainEvent) (Event := PlainEvent) "hub1" (hub false) key_a (syncer "old") tt []
    (MkData (Some (client_of "rhacs-a" "old")) "https://a") (client_of "rhacs-a" "old") [] 401 tt (central_a false)
    "rhacs-a" "details" _ (list_byte_of_string " new") "a" [Byte.x00] tt group_a
    eq_refl eq_refl Ha eq_refl kstore_responsive Hc eq_refl eq_refl eq_refl Hs eq_refl Ht eq_refl eq_refl Hr Hh
    Hb Hu numeric_a accepted encoded) as (s' & pr' & e & E & Hp & _ & Hd).
  exists s', pr', e. split; [exact E|]. split; [exact Hp|exact Hd].
Defined.

Lemma annotated_centrals_are_registered_witness :
  exists s', rox_Reconcile (hub true) key_a (syncer "token") = (None, s') /\ is_Some (dataMap s' !! key_a) /\
    dataMap s' !! key_b = dataMap (syncer "token") !! key_b.
Proof.
  set (s' := Register_central key_a (Unregister_central key_a (syncer "token"))).
  assert (rox_Reconcile (hub true) key_a (syncer "token") = (None, s')) as E by reflexivity.
  destruct (annotated_centrals_are_registered (hub true) key_a (syncer "token") s' E) as [Hreg Hother].
  exists s'. split; [exact E|]. split; [|apply Hother; discriminate].
  apply Hreg. exists (central_a true). split; [reflexivity|]. left. exists "rhacs-a/details". reflexivity.
Defined.
End Sample.
