(* ===== verification/KafkaAccess.v ===== *)
(** * Topics and users of the hubs

    The objects that the operator keeps on the global hub for the agents, the
    names of the Kafka topics ([operator/pkg/config/transport_config.go]), and the
    user and topics of each hub, made by the transporter that owns its Kafka
    cluster ([transporter/protocol/strimzi_transporter.go]) or by the one that is
    given a cluster ([byo_transporter.go]). *)

From stdpp Require Import prelude gmap strings list.
From Stdlib Require Import ZArith Lia Ascii.
From S2P Require Import Prelude.
From S2P Require Import GoLib.
From S2P Require Import KubeClient.
Local Open Scope string_scope.
Local Open Scope list_scope.

(** ** Objects

    The fields that the code reads or writes. *)
Record GlobalHub := MkGlobalHub {
  gh_Key : obj_key;
  gh_Annotations : gmap string string;
  gh_Deleting : bool;
  gh_InstallAgentOnLocal : bool;
  gh_SpecTopic : string;
  gh_StatusTopic : string;
}.
Record HubCluster := MkHubCluster {
  hc_Name : string;
  hc_Labels : gmap string string;
  hc_Annotations : gmap string string;
  hc_Deleting : bool;
}.
Record AddOn := MkAddOn {
  ad_Key : obj_key;
  ad_Labels : gmap string string;
  ad_Annotations : gmap string string;
  ad_InstallNamespace : string;
  ad_Owners : list (string * string);     (** name and UID *)
  ad_Finalizers : list string;
  ad_Deleting : bool;
}.
Record AddOnConfig := MkAddOnConfig { ag_Group : string; ag_Resource : string; ag_Key : obj_key }.
Record PlacementStrategy := MkStrategy { ps_Ref : obj_key; ps_Configs : list AddOnConfig }.
Record ManagementAddOn := MkManagementAddOn {
  ma_Name : string;
  ma_UID : string;
  ma_Placements : list PlacementStrategy;
  ma_Finalizers : list string;
  ma_Deleting : bool;
}.
Record DeploymentConfig := MkDeploymentConfig { dc_Key : obj_key }.
Record TransportSecret := MkTransportSecret { ts_Key : obj_key }.
Record Acl := MkAcl {
  acl_Host : string;
  acl_Type : string;
  acl_Name : string;
  acl_PatternType : string;
  acl_Operations : list string;
}.
Record KafkaUser := MkKafkaUser {
  ku_Key : obj_key;
  ku_Labels : gmap string string;
  ku_Authentication : string;
  ku_Authorization : string;
  ku_Acls : list Acl;
}.
Record KafkaTopic := MkKafkaTopic {
  kt_Key : obj_key;
  kt_Labels : gmap string string;
  kt_Partitions : option Z;
  kt_Replicas : option Z;
  kt_Config : string;
}.

Inductive op_kind :=
| KGlobalHub | KHubCluster | KAddOn | KManagementAddOn | KDeploymentConfig | KTransportSecret | KUser | KTopic.
#[export] Instance op_kind_dec : EqDecision op_kind.
Proof. solve_decision. Defined.

Definition op_obj (k : op_kind) : Type :=
  match k with
  | KGlobalHub => GlobalHub
  | KHubCluster => HubCluster
  | KAddOn => AddOn
  | KManagementAddOn => ManagementAddOn
  | KDeploymentConfig => DeploymentConfig
  | KTransportSecret => TransportSecret
  | KUser => KafkaUser
  | KTopic => KafkaTopic
  end.
Definition op_name (k : op_kind) : op_obj k -> obj_key :=
  match k with
  | KGlobalHub => gh_Key
  | KHubCluster => fun o => ("", hc_Name o)
  | KAddOn => ad_Key
  | KManagementAddOn => fun o => ("", ma_Name o)
  | KDeploymentConfig => dc_Key
  | KTransportSecret => ts_Key
  | KUser => ku_Key
  | KTopic => kt_Key
  end.

(** Add-ons with finalizers are marked by a deletion and go with the last of them. *)
Definition ad_mark (o : AddOn) : option AddOn :=
  match ad_Finalizers o with
  | [] => None
  | fs => Some (MkAddOn (ad_Key o) (ad_Labels o) (ad_Annotations o) (ad_InstallNamespace o) (ad_Owners o) fs true)
  end.
Definition ma_mark (o : ManagementAddOn) : option ManagementAddOn :=
  match ma_Finalizers o with
  | [] => None
  | fs => Some (MkManagementAddOn (ma_Name o) (ma_UID o) (ma_Placements o) fs true)
  end.
Definition op_mark (k : op_kind) : op_obj k -> option (op_obj k) :=
  match k with
  | KAddOn => ad_mark
  | KManagementAddOn => ma_mark
  | _ => fun _ => None
  end.
Definition op_keep (k : op_kind) : op_obj k -> bool :=
  match k with
  | KAddOn => fun o => negb (ad_Deleting o && bool_decide (ad_Finalizers o = []))
  | KManagementAddOn => fun o => negb (ma_Deleting o && bool_decide (ma_Finalizers o = []))
  | _ => fun _ => true
  end.
#[export] Program Instance op_kinds : Kinds op_kind := {|
  kobj := op_obj; kname := op_name; obj_mark := op_mark; obj_keep := op_keep; obj_admit _ o := o;
|}.
Next Obligation.
  intros [] o o'; cbn; try done.
  - unfold ad_mark. destruct (ad_Finalizers o); [done|by intros [= <-]].
  - unfold ma_mark. destruct (ma_Finalizers o); [done|by intros [= <-]].
Qed.
Next Obligation. done. Qed.

(** ** Names ([transport_config.go]) *)
Definition star : ascii := ascii_of_nat 42.

(** [strings.Replace(s, "*", new, -1)] and [strings.Contains(s, "*")] *)
Fixpoint replace_star (new s : string) : string :=
  match s with
  | EmptyString => ""
  | String c s' => if Ascii.eqb c star then new +:+ replace_star new s' else String c (replace_star new s')
  end.
Definition contains_star (s : string) : bool := negb (no_char star s).

(** [^[a-zA-Z0-9._-]+( * )?$] (without the spaces); [some] tells whether a character was read. *)
Definition topic_char (c : ascii) : bool :=
  let n := nat_of_ascii c in
  (((48 <=? n) && (n <=? 57)) || ((65 <=? n) && (n <=? 90)) || ((97 <=? n) && (n <=? 122)) ||
   (n =? 46) || (n =? 95) || (n =? 45))%nat.
Fixpoint topic_syntax (some : bool) (s : string) : bool :=
  match s with
  | EmptyString => some
  | String c s' => if topic_char c then topic_syntax true s' else some && Ascii.eqb c star && String.eqb s' ""
  end.
Definition isValidKafkaTopicName (name : string) : bool :=
  if (String.length name <? 1)%nat || (255 <=? String.length name)%nat then false
  else if String.eqb name "." || String.eqb name ".." then false
  else topic_syntax false name.

Inductive TransportProtocol := StrimziTransporter | SecretTransporter.

(** The variables of the package. *)
Record TransportConfig := MkTransportConfig {
  transporterProtocol : TransportProtocol;
  isBYOKafka : bool;
  enableInventory : bool;
  specTopic : string;
  statusTopic : string;
}.

Definition GetStatusTopic (c : TransportConfig) (clusterName : string) : string := replace_star clusterName (statusTopic c).
Definition ManagerStatusTopic (c : TransportConfig) : string :=
  if contains_star (statusTopic c) then "^" +:+ statusTopic c else statusTopic c.
Definition GetKafkaUserName (clusterName : string) : string := clusterName +:+ "-kafka-user".
Definition GetTransportConfigClientName (c : TransportConfig) (clusterName : string) : string :=
  if enableInventory c then clusterName
  else match transporterProtocol c with StrimziTransporter => GetKafkaUserName clusterName | SecretTransporter => "" end.

Definition DEFAULT_STATUS_TOPIC : string := "gh-status.*".
Definition DEFAULT_SHARED_STATUS_TOPIC : string := "gh-status".

Definition set_status_topic_gh (m : GlobalHub) (t : string) : GlobalHub :=
  MkGlobalHub (gh_Key m) (gh_Annotations m) (gh_Deleting m) (gh_InstallAgentOnLocal m) (gh_SpecTopic m) t.

Section Config.
Context {W : Type} `{!KubeClient W op_kind}.

Definition SetKafkaType (namespace : string) (c : TransportConfig) (w : W) : option goerror * TransportConfig :=
  match kget w KTransportSecret (namespace, "multicluster-global-hub-transport") with
  | Missing => (None, MkTransportConfig StrimziTransporter false (enableInventory c) (specTopic c) (statusTopic c))
  | Broken e => (Some e, c)
  | Found _ => (None, MkTransportConfig SecretTransporter true (enableInventory c) (specTopic c) (statusTopic c))
  end.

Definition SetTransportConfig (mgh : GlobalHub) (c : TransportConfig) (w : W) : option goerror * TransportConfig * W :=
  match SetKafkaType (gh_Key mgh).1 c w with
  | (Some e, c1) => (Some e, c1, w)
  | (None, c1) =>
      let inventory := bool_decide (is_Some (gh_Annotations mgh !! "global-hub.open-cluster-management.io/with-inventory")) in
      let c2 := MkTransportConfig (transporterProtocol c1) (isBYOKafka c1) inventory (gh_SpecTopic mgh) (gh_StatusTopic mgh) in
      if negb (isValidKafkaTopicName (specTopic c2)) then (Some "the specTopic is invalid", c2, w)
      else if negb (isValidKafkaTopicName (statusTopic c2)) then (Some "the specTopic is invalid", c2, w)
      else if isBYOKafka c2 then
        if String.eqb (statusTopic c2) DEFAULT_STATUS_TOPIC then
          let c3 := MkTransportConfig (transporterProtocol c2) true inventory (specTopic c2) DEFAULT_SHARED_STATUS_TOPIC in
          match kupdate w KGlobalHub (set_status_topic_gh mgh DEFAULT_SHARED_STATUS_TOPIC) with
          | (Done, w') =>
              if contains_star (statusTopic c3) then (Some "status topic must not contain '*'", c3, w') else (None, c3, w')
          | (r, w') => (Some ("failed to update the topic: " +:+ default "" (written_err r)), c3, w')
          end
        else if contains_star (statusTopic c2) then (Some "status topic must not contain '*'", c2, w)
        else (None, c2, w)
      else (None, c2, w)
  end.
End Config.

(** ** Users and topics ([strimzi_transporter.go]) *)
Definition WriteTopicACL (topicName : string) : Acl := MkAcl "*" "topic" topicName "literal" ["Write"].
Definition ReadTopicACL (topicName : string) (prefixParttern : bool) : Acl :=
  MkAcl "*" "topic" topicName (if prefixParttern then "prefix" else "literal") ["Describe"; "Read"].
Definition ConsumeGroupReadACL : Acl := MkAcl "*" "group" "*" "literal" ["Read"].

Definition KafkaClusterName : string := "kafka".
Definition DefaultPartition : Z := 1.
Definition GlobalHubOwnerLabelKey : string := "global-hub.open-cluster-management.io/managed-by".

Record strimziTransporter := MkStrimzi {
  kafkaClusterName : string;
  kafkaClusterNamespace : string;
  topicPartitionReplicas : Z;
}.

(** [MergeObjects] (a JSON merge patch) and [DeepDerivative] of the specs. *)
Class ObjectMerge := {
  merge_users : KafkaUser -> KafkaUser -> result KafkaUser;
  merge_topics : KafkaTopic -> KafkaTopic -> result KafkaTopic;
  user_derivative : KafkaUser -> KafkaUser -> bool;
  topic_derivative : KafkaTopic -> KafkaTopic -> bool;
}.

Record ClusterTopic := MkClusterTopic { ct_SpecTopic : string; ct_StatusTopic : string }.

(** What the controllers of the agents use of a transporter. *)
Class Transporter (W : Type) := {
  EnsureUser : string -> W -> result string * W;
  EnsureTopic : string -> W -> result ClusterTopic * W;
  Prune : string -> W -> option goerror * W;
}.

Section Strimzi.
Context {W : Type} `{!KubeClient W op_kind} `{ObjectMerge}.
Context (k : strimziTransporter) (c : TransportConfig).

Definition strimzi_labels : gmap string string :=
  <["strimzi.io/cluster" := kafkaClusterName k]> {[GlobalHubOwnerLabelKey := "global-hub"]}.

Definition newKafkaTopic (topicName : string) : KafkaTopic :=
  MkKafkaTopic (kafkaClusterNamespace k, topicName) strimzi_labels (Some DefaultPartition)
    (Some (topicPartitionReplicas k)) "cleanup.policy: compact".

Definition newKafkaUser (userName authnType : string) (simpleACLs : list Acl) : KafkaUser :=
  MkKafkaUser (kafkaClusterNamespace k, userName) strimzi_labels authnType "simple" simpleACLs.

Definition getClusterTopic (clusterName : string) : ClusterTopic :=
  MkClusterTopic (specTopic c) (GetStatusTopic c clusterName).

Definition hub_acls (clusterName : string) : list Acl :=
  let clusterTopic := getClusterTopic clusterName in
  [ConsumeGroupReadACL; ReadTopicACL (ct_SpecTopic clusterTopic) false; WriteTopicACL (ct_StatusTopic clusterTopic)].

Definition strimzi_EnsureUser (clusterName : string) (w : W) : result string * W :=
  let userName := GetKafkaUserName clusterName in
  let desiredKafkaUser := newKafkaUser userName "tls-external" (hub_acls clusterName) in
  match kget w KUser (kafkaClusterNamespace k, userName) with
  | Missing =>
      match kcreate w KUser desiredKafkaUser with
      | (Done, w') => (Ok userName, w')
      | (r, w') => (Err (default "" (written_err r)), w')
      end
  | Broken e => (Err e, w)
  | Found kafkaUser =>
      match merge_users kafkaUser desiredKafkaUser with
      | Err e => (Err e, w)
      | Ok updatedKafkaUser =>
          if negb (user_derivative updatedKafkaUser kafkaUser) then
            match kupdate w KUser updatedKafkaUser with
            | (Done, w') => (Ok userName, w')
            | (r, w') => (Err (default "" (written_err r)), w')
            end
          else (Ok userName, w)
      end
  end.

Definition set_replicas (t : KafkaTopic) (r : option Z) : KafkaTopic :=
  MkKafkaTopic (kt_Key t) (kt_Labels t) (kt_Partitions t) r (kt_Config t).

Definition ensure_topic (topicName : string) (w : W) : option goerror * W :=
  match kget w KTopic (kafkaClusterNamespace k, topicName) with
  | Missing => let '(r, w') := kcreate w KTopic (newKafkaTopic topicName) in (written_err r, w')
  | Broken e => (Some e, w)
  | Found kafkaTopic =>
      match merge_topics kafkaTopic (newKafkaTopic topicName) with
      | Err e => (Some e, w)
      | Ok updatedTopic =>
          let updatedTopic := set_replicas updatedTopic (kt_Replicas kafkaTopic) in
          if negb (topic_derivative updatedTopic kafkaTopic) then
            let '(r, w') := kupdate w KTopic updatedTopic in (written_err r, w')
          else (None, w)
      end
  end.

Fixpoint ensure_topics (topicNames : list string) (w : W) : option goerror * W :=
  match topicNames with
  | [] => (None, w)
  | topicName :: rest =>
      match ensure_topic topicName w with
      | (Some e, w') => (Some e, w')
      | (None, w') => ensure_topics rest w'
      end
  end.

Definition strimzi_EnsureTopic (clusterName : string) (w : W) : result ClusterTopic * W :=
  let clusterTopic := getClusterTopic clusterName in
  match ensure_topics [ct_SpecTopic clusterTopic; ct_StatusTopic clusterTopic] w with
  | (Some e, w') => (Err e, w')
  | (None, w') => (Ok clusterTopic, w')
  end.

(** The topics stay. *)
Definition strimzi_Prune (clusterName : string) (w : W) : option goerror * W :=
  let key := (kafkaClusterNamespace k, GetKafkaUserName clusterName) in
  match kget w KUser key with
  | Found _ => let '(r, w') := kdelete w KUser key in (written_err r, w')
  | Missing => (None, w)
  | Broken e => (Some e, w)
  end.

Definition strimzi_transporter : Transporter W := {|
  EnsureUser := strimzi_EnsureUser; EnsureTopic := strimzi_EnsureTopic; Prune := strimzi_Prune;
|}.

(** The replicas of the topic that stands for the global hub; nil is a panic. *)
Definition getCurrentReplicas (mgh : GlobalHub) (w : W) : outcome (result Z) :=
  let statusTopic := remove_all ".*" 0 (gh_StatusTopic mgh) in
  match kget w KTopic ((gh_Key mgh).1, statusTopic +:+ ".global-hub") with
  | Missing => Ret (Ok (topicPartitionReplicas k))
  | Broken e => Ret (Err e)
  | Found t => match kt_Replicas t with Some r => Ret (Ok r) | None => Panic end
  end.
End Strimzi.

(** A Kafka cluster that is given: nothing is made. *)
Definition byo_transporter {W : Type} (c : TransportConfig) : Transporter W := {|
  EnsureUser _ w := (Ok "", w);
  EnsureTopic clusterName w := (Ok (MkClusterTopic (specTopic c) (GetStatusTopic c clusterName)), w);
  Prune _ w := (None, w);
|}.
