(* ===== verification/KafkaAccessFacts.v ===== *)
(** * Properties of the topics and users of the hubs

    Which names are accepted, what a hub may write, what the transporter keeps of
    objects that exist, and the interface that the controllers of the agents rely
    on, with its two implementations. *)

From stdpp Require Import prelude gmap strings list.
From Stdlib Require Import ZArith Lia Ascii.
From S2P Require Import Prelude.
From S2P Require Import GoLib.
From S2P Require Import KubeClient.
From S2P Require Import KafkaAccess.
Local Open Scope string_scope.
Local Open Scope list_scope.

(** ** Names *)
Definition topic_text (s : string) : bool := forallb topic_char (String.list_ascii_of_string s).

(** A name that is accepted is a non-empty text, with at most a star after it. *)
Definition topic_pattern (s : string) : Prop :=
  exists p, p <> "" /\ topic_text p = true /\ (s = p \/ s = p +:+ "*").

Lemma topic_syntax_spec s : forall some, topic_syntax some s = true ->
  exists p, topic_text p = true /\ (some = true \/ p <> "") /\ (s = p \/ s = p +:+ "*").
Proof.
  induction s as [|a s IH]; intros some E; cbn [topic_syntax] in E.
  - exists "". split; [done|]. by split; [left|left].
  - destruct (topic_char a) eqn:Ea.
    + apply IH in E as (p & Hp & _ & Hs). exists (String a p). split; [unfold topic_text; cbn; by rewrite Ea|].
      split; [by right|]. destruct Hs as [->| ->]; [by left|by right].
    + apply andb_true_iff in E as [E Es]. apply andb_true_iff in E as [-> Ec].
      apply Ascii.eqb_eq in Ec as ->. apply String.eqb_eq in Es as ->. exists "". split; [done|]. split; [by left|by right].
Qed.

Lemma valid_topic_pattern s : isValidKafkaTopicName s = true -> topic_pattern s.
Proof.
  unfold isValidKafkaTopicName. destruct (_ || _); [done|]. destruct (_ || _); [done|].
  intros (p & Hp & [?|Hne] & Hs)%topic_syntax_spec; [done|]. by exists p.
Qed.

Lemma topic_char_star c : topic_char c = true -> Ascii.eqb c star = false.
Proof. intros Hc. destruct (Ascii.eqb_spec c star) as [->|]; [|done]. by vm_compute in Hc. Qed.

Lemma replace_star_text new p : topic_text p = true -> forall s, replace_star new (p +:+ s) = p +:+ replace_star new s.
Proof.
  unfold topic_text. induction p as [|a p IH]; intros Hp s; [done|]. cbn in Hp. apply andb_true_iff in Hp as [Ha Hp].
  change (String a p +:+ s) with (String a (p +:+ s)). cbn [replace_star]. rewrite (topic_char_star a Ha). rewrite IH by done. done.
Qed.

Lemma string_append_nil (s : string) : s +:+ "" = s.
Proof. induction s as [|a s IH]; [done|]. change (String a (s +:+ "") = String a s). by rewrite IH. Qed.

Lemma string_append_inj (p a b : string) : p +:+ a = p +:+ b -> a = b.
Proof. induction p as [|x p IH]; [done|]. intros [= E]. by apply IH. Qed.

Lemma string_length_append (u v : string) : String.length (u +:+ v) = String.length u + String.length v.
Proof.
  induction u as [|z u IH]; [done|]. change (S (String.length (u +:+ v)) = S (String.length u + String.length v)).
  by rewrite IH.
Qed.

Lemma string_append_inj_r (s a b : string) : a +:+ s = b +:+ s -> a = b.
Proof.
  revert b. induction a as [|x a IH]; intros [|y b] E; [done| | |].
  - apply (f_equal String.length) in E. rewrite !string_length_append in E. cbn in E. lia.
  - apply (f_equal String.length) in E. rewrite !string_length_append in E. cbn in E. lia.
  - injection E as -> E. f_equal. by apply IH.
Qed.

Lemma status_topic_cases c cluster : topic_pattern (statusTopic c) ->
  exists p, p <> "" /\ topic_text p = true /\
    ((statusTopic c = p /\ GetStatusTopic c cluster = p) \/
     (statusTopic c = p +:+ "*" /\ GetStatusTopic c cluster = p +:+ cluster)).
Proof.
  intros (p & Hne & Hp & Hs). exists p. split; [done|]. split; [done|]. unfold GetStatusTopic.
  destruct Hs as [-> | ->]; [left|right]; (split; [done|]).
  - rewrite <- (string_append_nil p) at 1. rewrite replace_star_text by done. apply string_append_nil.
  - rewrite replace_star_text by done. cbn. by rewrite string_append_nil.
Qed.

Lemma contains_star_text p : topic_text p = true -> contains_star p = false.
Proof.
  unfold topic_text, contains_star. induction p as [|a p IH]; [done|]. cbn [String.list_ascii_of_string forallb]. intros [Ha Hp]%andb_true_iff.
  cbn [no_char]. rewrite (topic_char_star a Ha). cbn. by apply IH.
Qed.

Lemma no_star_topic c cluster : topic_pattern (statusTopic c) -> GetStatusTopic c cluster <> "*".
Proof.
  intros (p & Hne & Hp & Hs)%(status_topic_cases c cluster). destruct p as [|a p]; [done|].
  unfold topic_text in Hp. cbn in Hp. apply andb_true_iff in Hp as [Ha _]. apply topic_char_star in Ha.
  destruct Hs as [[_ ->]|[_ ->]]; intros [= -> _]; by vm_compute in Ha.
Qed.

Lemma status_topic_inj c a b : topic_pattern (statusTopic c) -> contains_star (statusTopic c) = true ->
  GetStatusTopic c a = GetStatusTopic c b -> a = b.
Proof.
  intros Hp Hstar. destruct (status_topic_cases c a Hp) as (p & _ & Ht & [[E _]|[E Ea]]).
  { rewrite E, contains_star_text in Hstar by done. done. }
  destruct (status_topic_cases c b Hp) as (q & _ & Hq & [[E' _]|[E' Eb]]).
  { rewrite E', contains_star_text in Hstar by done. done. }
  rewrite E in E'. apply string_append_inj_r in E' as <-. rewrite Ea, Eb. apply string_append_inj.
Qed.

Lemma user_name_inj a b : GetKafkaUserName a = GetKafkaUserName b -> a = b.
Proof. apply string_append_inj_r. Qed.

(** ** Merges and comparisons

    A merge patch sets the fields of the second object, arrays as a whole. A
    derivative compares the fields and the elements that the first object has. *)
Definition acl_extended (a b : Acl) : Prop :=
  acl_Host b = acl_Host a /\ acl_Type b = acl_Type a /\ acl_Name b = acl_Name a /\
  acl_PatternType b = acl_PatternType a /\ acl_Operations a `prefix_of` acl_Operations b.
Definition acls_extended (a b : list Acl) : Prop := exists b1 b2, b = b1 ++ b2 /\ Forall2 acl_extended a b1.
Definition acl_complete (a : Acl) : Prop :=
  acl_Host a <> "" /\ acl_Type a <> "" /\ acl_Name a <> "" /\ acl_PatternType a <> "".

Class ObjectMergeLaws `{ObjectMerge} : Prop := {
  merge_users_total old new : exists u, merge_users old new = Ok u;
  merge_users_Ok old new u : merge_users old new = Ok u -> ku_Acls new <> [] ->
    ku_Key u = ku_Key new /\ ku_Acls u = ku_Acls new /\ ku_Authentication u = ku_Authentication new /\
    ku_Authorization u = ku_Authorization new /\ ku_Labels u = ku_Labels new ∪ ku_Labels old;
  merge_topics_Ok old new t : merge_topics old new = Ok t ->
    kt_Key t = kt_Key new /\ kt_Config t = kt_Config new /\ kt_Labels t = kt_Labels new ∪ kt_Labels old /\
    forall n, kt_Partitions new = Some n -> kt_Partitions t = Some n;
  user_derivative_spec a b : Forall acl_complete (ku_Acls a) -> ku_Authentication a <> "" -> ku_Authorization a <> "" ->
    user_derivative a b = true <-> acls_extended (ku_Acls a) (ku_Acls b) /\
      ku_Authentication b = ku_Authentication a /\ ku_Authorization b = ku_Authorization a;
  topic_derivative_spec a b : is_Some (kt_Partitions a) -> kt_Config a <> "" ->
    topic_derivative a b = true <-> kt_Partitions b = kt_Partitions a /\ kt_Config b = kt_Config a /\
      (is_Some (kt_Replicas a) -> kt_Replicas b = kt_Replicas a);
}.

(** ** Rights

    Kafka allows an operation on a topic that an entry covers: a literal name, any
    topic for the literal star, the topics that begin with a prefix. *)
Definition covers (a : Acl) (topic : string) : Prop :=
  acl_Type a = "topic" /\
  ((acl_PatternType a = "literal" /\ (acl_Name a = topic \/ acl_Name a = "*")) \/
   (acl_PatternType a = "prefix" /\ exists rest, topic = acl_Name a +:+ rest)).
Definition allowed (acls : list Acl) (operation topic : string) : Prop :=
  exists a, a ∈ acls /\ operation ∈ acl_Operations a /\ covers a topic.

Section Users.
Context {W : Type} `{!KubeClient W op_kind} `{!KubeServer W op_kind} `{ObjectMergeLaws}.
Context (k : strimziTransporter) (c : TransportConfig).

Lemma hub_acls_write cluster topic : topic_pattern (statusTopic c) ->
  allowed (hub_acls c cluster) "Write" topic <-> topic = GetStatusTopic c cluster.
Proof.
  intros Hp. unfold allowed, hub_acls. split.
  - intros (a & Ha & Hop & _ & Hcov). cbn in Ha, Hop.
    apply list_elem_of_In in Ha as [<-|[<-|[<-|[]]]]; cbn in Hop, Hcov.
    + apply list_elem_of_In in Hop as [E|[]]. discriminate E.
    + apply list_elem_of_In in Hop as [E|[E|[]]]; discriminate E.
    + destruct Hcov as [[_ [E|E]]|[E _]]; [by rewrite E| |discriminate E]. by destruct (no_star_topic c cluster Hp).
  - intros ->. exists (WriteTopicACL (GetStatusTopic c cluster)). split; [|split].
    + right. right. by left.
    + by left.
    + split; [done|]. left. split; [done|]. by left.
Qed.

Lemma hub_acls_complete cluster : isValidKafkaTopicName (specTopic c) = true -> topic_pattern (statusTopic c) ->
  Forall acl_complete (hub_acls c cluster).
Proof.
  intros (p & Hne & _ & Hs)%valid_topic_pattern Hst. unfold hub_acls.
  destruct (status_topic_cases c cluster Hst) as (q & Hq & _ & Hs').
  assert (forall u v : string, u <> "" -> u +:+ v <> "") as Happ by (by intros [] v).
  assert (specTopic c <> "") by (destruct Hs as [-> | ->]; auto).
  assert (GetStatusTopic c cluster <> "") by (destruct Hs' as [[_ ->]|[_ ->]]; auto).
  repeat constructor; cbn; done.
Qed.

Lemma acl_extended_refl a : acl_extended a a.
Proof. unfold acl_extended. by split_and!. Qed.
Lemma acls_extended_refl l : acls_extended l l.
Proof.
  exists l, []. rewrite app_nil_r. split; [done|]. induction l; constructor; [apply acl_extended_refl|done].
Qed.
Lemma acls_extended_allowed a b operation topic : acls_extended a b -> allowed a operation topic -> allowed b operation topic.
Proof.
  intros (b1 & b2 & -> & Hf) (x & Hx & Hop & Hcov). apply list_elem_of_lookup in Hx as [i Hi].
  destruct (Forall2_lookup_l _ _ _ _ _ Hf Hi) as (y & Hy & Eh & Et & En & Ep & Hpre). exists y. split_and!.
  - apply elem_of_app. left. by eapply list_elem_of_lookup_2.
  - destruct Hpre as [l ->]. apply elem_of_app. by left.
  - unfold covers in *. by rewrite Et, En, Ep.
Qed.

Context (Hspec : isValidKafkaTopicName (specTopic c) = true) (Hstatus : topic_pattern (statusTopic c)).

Lemma desired_derivative cluster old u : merge_users old (newKafkaUser k (GetKafkaUserName cluster) "tls-external" (hub_acls c cluster)) = Ok u ->
  user_derivative u old = true <-> acls_extended (hub_acls c cluster) (ku_Acls old) /\
    ku_Authentication old = "tls-external" /\ ku_Authorization old = "simple".
Proof.
  intros (_ & Ha & Hn & Hz & _)%merge_users_Ok; [|done]. cbn in Ha, Hn, Hz. rewrite user_derivative_spec.
  - by rewrite Ha, Hn, Hz.
  - rewrite Ha. by apply hub_acls_complete.
  - by rewrite Hn.
  - by rewrite Hz.
Qed.

(** What is there after a user was ensured. *)
Lemma EnsureUser_spec cluster w w' n : strimzi_EnsureUser k c cluster w = (Ok n, w') ->
  let key := (kafkaClusterNamespace k, GetKafkaUserName cluster) in
  (exists u : kobj KUser, kobjects w' KUser !! key = Some u /\ acls_extended (hub_acls c cluster) (ku_Acls u) /\
     forall old : kobj KUser, kobjects w KUser !! key = Some old ->
       acls_extended (hub_acls c cluster) (ku_Acls old) \/ ku_Acls u = hub_acls c cluster) /\
  (kobjects w KUser !! key = None -> exists u : kobj KUser, kobjects w' KUser !! key = Some u /\ ku_Acls u = hub_acls c cluster) /\
  (forall key', key' <> key -> kobjects w' KUser !! key' = kobjects w KUser !! key') /\
  forall k', k' <> KUser -> kobjects w' k' = kobjects w k'.
Proof.
  intros E key. unfold strimzi_EnsureUser in E. fold key in E.
  set (d := newKafkaUser k _ _ _) in E. assert (kname KUser d = key) as Hd by done.
  destruct (kget w KUser key) as [old| |e] eqn:G; [| |done].
  - pose proof (kget_name _ _ _ _ G) as Hold. apply kget_Found in G.
    destruct (merge_users old d) as [u|e] eqn:M; [|done].
    pose proof (desired_derivative _ _ _ M) as Hder. apply merge_users_Ok in M as (Hk & Ha & _); [|done]. cbn in Ha.
    destruct (user_derivative u old) eqn:D; cbn [negb] in E.
    + injection E as _ <-. destruct (proj1 Hder eq_refl) as [Hext _]. split; [|by rewrite G]. exists old.
      split; [done|]. split; [done|]. intros o Ho. rewrite G in Ho. injection Ho as <-. by left.
    + destruct (kupdate w KUser _) as [[| |e] w1] eqn:U; try discriminate E. injection E as _ ->.
      assert (kname KUser u = key) as Hku by (change (ku_Key u = key); rewrite Hk; exact Hd).
      pose proof (kupdate_lookup _ _ _ _ U eq_refl) as L. rewrite Hku in L.
      split; [exists u; split; [done|]; rewrite Ha; split; [apply acls_extended_refl|by right]|].
      split; [by rewrite G|]. split.
      * intros key' Hne. eapply kupdate_others; [exact U|by rewrite Hku].
      * by apply kupdate_Done in U as (_ & _ & K).
  - apply kget_Missing in G. destruct (kcreate w KUser _) as [[| |e] w1] eqn:C; try discriminate E. injection E as _ ->.
    pose proof (kcreate_lookup _ _ _ _ C) as L. rewrite Hd in L. split.
    + exists d. split; [done|]. split; [apply acls_extended_refl|]. intros o Ho. rewrite G in Ho. done.
    + split; [intros _; by exists d|]. apply kcreate_Done in C as (_ & Ek & K). split; [|done].
      intros key' Hne. rewrite Ek, Hd, lookup_insert_ne; done.
Qed.

(** C11: a hub can write to its own status topic only: the user that is made for a
    new hub may write to a topic exactly when it is the one of the hub, which with
    a pattern of topics is not the one of any other hub, and the users of the
    others stay as they are. *)
Theorem hub_writes_its_own_topic_only cluster w w' n
    (Hnew : kobjects w KUser !! (kafkaClusterNamespace k, GetKafkaUserName cluster) = None)
    (Hrun : strimzi_EnsureUser k c cluster w = (Ok n, w')) :
  exists u : kobj KUser, kobjects w' KUser !! (kafkaClusterNamespace k, GetKafkaUserName cluster) = Some u /\
    (forall topic, allowed (ku_Acls u) "Write" topic <-> topic = GetStatusTopic c cluster) /\
    forall other, other <> cluster ->
      (contains_star (statusTopic c) = true -> ~ allowed (ku_Acls u) "Write" (GetStatusTopic c other)) /\
      kobjects w' KUser !! (kafkaClusterNamespace k, GetKafkaUserName other) =
      kobjects w KUser !! (kafkaClusterNamespace k, GetKafkaUserName other).
Proof.
  apply EnsureUser_spec in Hrun as (_ & Hu & Hothers & _). destruct (Hu Hnew) as (u & Lu & Ea). exists u.
  split; [done|]. rewrite Ea. split; [intros topic; by apply hub_acls_write|]. intros other Hne. split.
  - intros Hstar. rewrite hub_acls_write by done. intros E. apply Hne. by eapply status_topic_inj.
  - apply Hothers. intros [= E]. by apply Hne, user_name_inj.
Qed.

(** Rights that a user has beyond those of its hub are never taken away: when
    the entries of a user extend the ones it should have, ensuring it succeeds
    without a change, so that every operation it was allowed before it still is. *)
Theorem extra_rights_are_kept cluster w (u : KafkaUser)
    (Hserver : responsive W op_kind)
    (Hu : kobjects w KUser !! (kafkaClusterNamespace k, GetKafkaUserName cluster) = Some (u : kobj KUser))
    (Hext : acls_extended (hub_acls c cluster) (ku_Acls u))
    (Hauth : ku_Authentication u = "tls-external" /\ ku_Authorization u = "simple") :
  strimzi_EnsureUser k c cluster w = (Ok (GetKafkaUserName cluster), w).
Proof.
  unfold strimzi_EnsureUser. rewrite (kget_present w KUser _ _ Hserver Hu).
  set (d := newKafkaUser k _ _ _). destruct (merge_users_total u d) as [u' M]. rewrite M.
  apply desired_derivative in M. by rewrite (proj2 M (conj Hext Hauth)).
Qed.

(** A managed hub with the name global-hub takes the user of the manager: the
    user of such a hub has the name of the one that the manager authenticates
    with, and once it is ensured the entries of the manager are replaced, so that
    it may not read the status topic of any hub. *)
Theorem hub_named_global_hub_takes_the_managers_user w w' n (manager : KafkaUser)
    (Hmanager : kobjects w KUser !! (kafkaClusterNamespace k, "global-hub-kafka-user") = Some (manager : kobj KUser))
    (Hacls : ~ acls_extended (hub_acls c "global-hub") (ku_Acls manager))
    (Hrun : strimzi_EnsureUser k c "global-hub" w = (Ok n, w')) :
  exists u : kobj KUser, kobjects w' KUser !! (kafkaClusterNamespace k, "global-hub-kafka-user") = Some u /\
    forall topic, topic <> specTopic c -> ~ allowed (ku_Acls u) "Read" topic.
Proof.
  apply EnsureUser_spec in Hrun as ((u & Lu & _ & Hold) & _). exists u. split; [exact Lu|].
  destruct (Hold manager Hmanager) as [?|Ea]; [done|]. rewrite Ea. intros topic Hne (a & Ha & Hop & Hty & Hcov).
  apply list_elem_of_In in Ha as [<-|[<-|[<-|[]]]]; cbn in Hop, Hcov, Hty.
  - discriminate Hty.
  - destruct Hcov as [[_ [E|E]]|[E _]]; [by subst| |discriminate E].
    apply valid_topic_pattern in Hspec as ([|a p] & Hp & Ht & Hs); [done|]. cbn in Ht.
    apply andb_true_iff in Ht as [Hc _]. apply topic_char_star in Hc.
    destruct Hs as [Es|Es]; rewrite Es in E; injection E as -> _; by vm_compute in Hc.
  - apply list_elem_of_In in Hop as [E|[]]. discriminate E.
Qed.

(** ** Topics *)
Definition kept_replicas (w : W) (name : string) (t : KafkaTopic) : Prop :=
  (forall old : kobj KTopic, kobjects w KTopic !! (kafkaClusterNamespace k, name) = Some old -> kt_Replicas t = kt_Replicas old) /\
  (kobjects w KTopic !! (kafkaClusterNamespace k, name) = None -> kt_Replicas t = Some (topicPartitionReplicas k)).

Lemma ensure_topic_spec name w w' : ensure_topic k name w = (None, w') ->
  (exists t : kobj KTopic, kobjects w' KTopic !! (kafkaClusterNamespace k, name) = Some t /\
     kt_Partitions t = Some DefaultPartition /\
     kept_replicas w name t) /\
  (forall key, key <> (kafkaClusterNamespace k, name) -> kobjects w' KTopic !! key = kobjects w KTopic !! key) /\
  forall k', k' <> KTopic -> kobjects w' k' = kobjects w k'.
Proof.
  unfold ensure_topic. set (d := newKafkaTopic k name).
  destruct (kget w KTopic _) as [old| |e] eqn:G; [| |done].
  - pose proof (kget_name _ _ _ _ G) as Hold. apply kget_Found in G.
    assert (forall t : KafkaTopic, kt_Replicas t = kt_Replicas old -> kept_replicas w name t) as Hkept.
    { intros t Ht. split; intros; congruence. }
    destruct (merge_topics old d) as [t|e] eqn:M; [|done]. apply merge_topics_Ok in M as (Hk & Hc & _ & Hp).
    specialize (Hp DefaultPartition eq_refl). set (t' := set_replicas t (kt_Replicas old)).
    destruct (topic_derivative t' old) eqn:D; cbn [negb].
    + intros [= <-]. apply topic_derivative_spec in D as (Hpart & _); [|subst t'; cbn; rewrite Hp; eauto|by subst t'; cbn; rewrite Hc].
      split; [|done]. exists old. split; [done|]. split; [by rewrite Hpart|by apply Hkept].
    + destruct (kupdate w KTopic _) as [[| |e] w1] eqn:U; try discriminate. intros [= <-].
      assert (kname KTopic t' = (kafkaClusterNamespace k, name)) as Hku by (change (kt_Key t = (kafkaClusterNamespace k, name)); by rewrite Hk).
      pose proof (kupdate_lookup _ _ _ _ U eq_refl) as L. rewrite Hku in L. split; [exists t'; split; [done|]; split; [done|by apply Hkept]|]. split.
      * intros key Hne. eapply kupdate_others; [exact U|by rewrite Hku].
      * by apply kupdate_Done in U as (_ & _ & K).
  - apply kget_Missing in G. destruct (kcreate w KTopic _) as [[| |e] w1] eqn:C; try discriminate. intros [= <-].
    pose proof (kcreate_lookup _ _ _ _ C) as L. split.
    { exists d. split; [done|]. split; [done|]. split; [intros old Ho; congruence|done]. }
    apply kcreate_Done in C as (_ & Ek & K). split; [|done]. intros key Hne. rewrite Ek. by rewrite lookup_insert_ne.
Qed.

(** A hub whose topics are ensured has both of them, each with the partitions
    that are asked for; a topic that existed keeps its replicas, a new one gets
    those of the cluster; all other objects stay as they are. *)
Theorem topics_are_there_with_their_replicas cluster w w' t
    (Hdiff : specTopic c <> GetStatusTopic c cluster) (Hrun : strimzi_EnsureTopic k c cluster w = (Ok t, w')) :
  t = MkClusterTopic (specTopic c) (GetStatusTopic c cluster) /\
  (forall name, name = specTopic c \/ name = GetStatusTopic c cluster ->
     exists o : kobj KTopic, kobjects w' KTopic !! (kafkaClusterNamespace k, name) = Some o /\
       kt_Partitions o = Some 1%Z /\ kept_replicas w name o) /\
  (forall key, key <> (kafkaClusterNamespace k, specTopic c) -> key <> (kafkaClusterNamespace k, GetStatusTopic c cluster) ->
     kobjects w' KTopic !! key = kobjects w KTopic !! key) /\
  forall k', k' <> KTopic -> kobjects w' k' = kobjects w k'.
Proof.
  unfold strimzi_EnsureTopic in Hrun. cbn [ensure_topics getClusterTopic ct_SpecTopic ct_StatusTopic] in Hrun.
  destruct (ensure_topic k (specTopic c) w) as [[e|] w1] eqn:E1; [done|].
  destruct (ensure_topic k (GetStatusTopic c cluster) w1) as [[e|] w2] eqn:E2; [done|]. injection Hrun as <- <-.
  apply ensure_topic_spec in E1 as ((o1 & L1 & P1 & R1) & O1 & K1).
  apply ensure_topic_spec in E2 as ((o2 & L2 & P2 & R2) & O2 & K2).
  assert ((kafkaClusterNamespace k, GetStatusTopic c cluster) <> (kafkaClusterNamespace k, specTopic c)) as Hne by congruence.
  split; [done|]. split; [|split].
  - intros name [-> | ->].
    + exists o1. rewrite O2 by congruence. by split_and!.
    + exists o2. split; [done|]. split; [done|]. unfold kept_replicas in *. by rewrite (O1 _ Hne) in R2.
  - intros key H1' H2'. by rewrite O2, O1.
  - intros k' Hk. by rewrite K2, K1.
Qed.
End Users.

(** ** The configuration *)
Section Config.
Context {W : Type} `{!KubeClient W op_kind} `{!KubeServer W op_kind}.

Lemma shared_topic c cluster : topic_pattern (statusTopic c) -> contains_star (statusTopic c) = false ->
  GetStatusTopic c cluster = statusTopic c.
Proof.
  intros Hp Hs. destruct (status_topic_cases c cluster Hp) as (p & _ & Ht & [[-> ->]|[E _]]); [done|].
  exfalso. rewrite E in Hs. clear -Hs Ht. unfold contains_star in Hs. apply negb_false_iff in Hs.
  induction p as [|a p IH]; [by vm_compute in Hs|]. unfold topic_text in Ht. cbn in Ht. apply andb_true_iff in Ht as [_ Ht].
  change (String a p +:+ "*") with (String a (p +:+ "*")) in Hs. cbn [no_char] in Hs. apply andb_true_iff in Hs as [_ Hs].
  by apply IH.
Qed.

(** A configuration of the transport that is accepted is well formed: both
    names are texts that Kafka takes, with at most a star at the end, and the
    protocol is the one of a given cluster exactly when there is one; with a given
    cluster the status topic is one that all hubs share, and the default pattern
    was replaced by the shared default on the server. *)
Theorem accepted_config_is_well_formed mgh c w c' w'
    (Hrun : SetTransportConfig mgh c w = (None, c', w')) :
  topic_pattern (specTopic c') /\ topic_pattern (statusTopic c') /\
  (isBYOKafka c' = true <-> transporterProtocol c' = SecretTransporter) /\
  (isBYOKafka c' = true <-> exists s : kobj KTransportSecret,
     kobjects w KTransportSecret !! ((gh_Key mgh).1, "multicluster-global-hub-transport") = Some s) /\
  if isBYOKafka c' then
    (forall cluster, GetStatusTopic c' cluster = statusTopic c') /\
    (gh_StatusTopic mgh = DEFAULT_STATUS_TOPIC -> exists m : kobj KGlobalHub, kobjects w' KGlobalHub !! gh_Key mgh = Some m /\
       gh_StatusTopic m = DEFAULT_SHARED_STATUS_TOPIC)
  else w' = w /\ statusTopic c' = gh_StatusTopic mgh.
Proof.
  unfold SetTransportConfig, SetKafkaType in Hrun.
  assert (forall s, negb (isValidKafkaTopicName s) = false -> topic_pattern s) as Hval.
  { intros s Hs%negb_false_iff. by apply valid_topic_pattern. }
  destruct (kget w KTransportSecret _) as [s| |e] eqn:G; [| |done].
  - apply kget_Found in G. cbn [isBYOKafka transporterProtocol specTopic statusTopic] in Hrun.
    destruct (negb _) eqn:V1 in Hrun; [done|]. destruct (negb _) eqn:V2 in Hrun; [done|].
    destruct (String.eqb_spec (gh_StatusTopic mgh) DEFAULT_STATUS_TOPIC) as [Ed|Ed].
    + destruct (kupdate w KGlobalHub _) as [[| |e] w1] eqn:U; [|done..].
      change (contains_star DEFAULT_SHARED_STATUS_TOPIC) with false in Hrun. injection Hrun as <- <-. cbn.
      split; [by apply Hval|]. split; [by apply valid_topic_pattern|]. split; [done|]. split; [split; eauto|].
      split; [done|]. intros _. eexists. split; [exact (kupdate_lookup _ _ _ _ U eq_refl)|done].
    + destruct (contains_star (gh_StatusTopic mgh)) eqn:Es; [done|]. injection Hrun as <- <-. cbn.
      split; [by apply Hval|]. split; [by apply Hval|]. split; [done|]. split; [split; eauto|]. split; [|done].
      intros cluster. apply (shared_topic (MkTransportConfig SecretTransporter true false "" (gh_StatusTopic mgh))); [by apply Hval|done].
  - apply kget_Missing in G. cbn [isBYOKafka transporterProtocol specTopic statusTopic] in Hrun.
    destruct (negb _) eqn:V1 in Hrun; [done|]. destruct (negb _) eqn:V2 in Hrun; [done|]. injection Hrun as <- <-. cbn.
    split; [by apply Hval|]. split; [by apply Hval|]. split; [done|]. split; [|done].
    split; [done|]. intros (s & Hs). discriminate (eq_trans (eq_sym Hs) G).
Qed.
End Config.

(** ** The interface of the controllers of the agents *)
Class TransporterLaws (W : Type) `{!KubeClient W op_kind} `{!KubeServer W op_kind} (T : Transporter W) := {
  granted : W -> string -> Prop;
  revoked : W -> string -> Prop;
  EnsureUser_granted c w n w' : EnsureUser c w = (Ok n, w') -> granted w' c;
  EnsureTopic_granted c c' w t w' : EnsureTopic c w = (t, w') -> granted w c' -> granted w' c';
  Prune_revoked c w w' : Prune c w = (None, w') -> revoked w' c;
  EnsureUser_others c c' w r w' : EnsureUser c w = (r, w') -> c' <> c ->
    (granted w c' -> granted w' c') /\ (revoked w c' -> revoked w' c');
  Prune_others c c' w r w' : Prune c w = (r, w') -> c' <> c ->
    (granted w c' -> granted w' c') /\ (revoked w c' -> revoked w' c');
  granted_frame w w' c : kobjects w' KUser = kobjects w KUser -> granted w c -> granted w' c;
  revoked_frame w w' c : kobjects w' KUser = kobjects w KUser -> revoked w c -> revoked w' c;
  EnsureUser_frame c w r w' k : EnsureUser c w = (r, w') -> k <> KUser -> k <> KTopic -> kobjects w' k = kobjects w k;
  EnsureTopic_frame c w r w' k : EnsureTopic c w = (r, w') -> k <> KUser -> k <> KTopic -> kobjects w' k = kobjects w k;
  Prune_frame c w r w' k : Prune c w = (r, w') -> k <> KUser -> k <> KTopic -> kobjects w' k = kobjects w k;
}.

Section Laws.
Context {W : Type} `{!KubeClient W op_kind} `{!KubeServer W op_kind} `{ObjectMergeLaws}.
Context (k : strimziTransporter) (c : TransportConfig).
Context (Hspec : isValidKafkaTopicName (specTopic c) = true) (Hstatus : topic_pattern (statusTopic c)).

Definition user_key (cluster : string) : obj_key := (kafkaClusterNamespace k, GetKafkaUserName cluster).
Definition has_user (w : W) (cluster : string) : Prop :=
  exists u : kobj KUser, kobjects w KUser !! user_key cluster = Some u /\ acls_extended (hub_acls c cluster) (ku_Acls u).
Definition has_no_user (w : W) (cluster : string) : Prop := kobjects w KUser !! user_key cluster = None.

Lemma user_key_inj a b : user_key a = user_key b -> a = b.
Proof. intros [= E]. by apply user_name_inj. Qed.

(** Whatever the result, only the user of the hub changes. *)
Lemma strimzi_EnsureUser_frame cluster w r w' : strimzi_EnsureUser k c cluster w = (r, w') ->
  (forall key, key <> user_key cluster -> kobjects w' KUser !! key = kobjects w KUser !! key) /\
  forall k', k' <> KUser -> kobjects w' k' = kobjects w k'.
Proof.
  destruct r as [n|e]; [by intros (_ & _ & Ho & K)%EnsureUser_spec|]. unfold strimzi_EnsureUser.
  destruct (kget w KUser _) as [old| |e'] eqn:G; [| |by intros [= _ <-]].
  - destruct (merge_users _ _); [|by intros [= _ <-]]. destruct (negb _); [|done].
    destruct (kupdate w KUser _) as [[| |e'] w1] eqn:U; [done| |]; intros [= _ <-];
      apply kupdate_refused in U; (done || by rewrite U).
  - destruct (kcreate w KUser _) as [[| |e'] w1] eqn:U; [done| |]; intros [= _ <-];
      apply kcreate_refused in U; (done || by rewrite U).
Qed.

Lemma ensure_topic_frame name w r w' : ensure_topic k name w = (r, w') -> forall k', k' <> KTopic -> kobjects w' k' = kobjects w k'.
Proof.
  destruct r as [e|]; [|by intros (_ & _ & K)%ensure_topic_spec]. unfold ensure_topic.
  destruct (kget w KTopic _) as [old| |e'] eqn:G; [| |by intros [= _ <-]].
  - destruct (merge_topics _ _); [|by intros [= _ <-]]. destruct (negb _); [|done].
    destruct (kupdate w KTopic _) as [[| |e'] w1] eqn:U; [done| |]; intros [= _ <-];
      apply kupdate_refused in U; (done || by rewrite U).
  - destruct (kcreate w KTopic _) as [[| |e'] w1] eqn:U; [done| |]; intros [= _ <-];
      apply kcreate_refused in U; (done || by rewrite U).
Qed.

Lemma strimzi_EnsureTopic_frame cluster w r w' : strimzi_EnsureTopic k c cluster w = (r, w') ->
  forall k', k' <> KTopic -> kobjects w' k' = kobjects w k'.
Proof.
  unfold strimzi_EnsureTopic. cbn [ensure_topics getClusterTopic ct_SpecTopic ct_StatusTopic].
  destruct (ensure_topic k (specTopic c) w) as [[e|] w1] eqn:E1; pose proof (ensure_topic_frame _ _ _ _ E1) as K1.
  - by intros [= _ <-].
  - destruct (ensure_topic k (GetStatusTopic c cluster) w1) as [[e|] w2] eqn:E2; pose proof (ensure_topic_frame _ _ _ _ E2) as K2;
      intros [= _ <-] k' Hk; by rewrite K2, K1.
Qed.

Lemma strimzi_Prune_spec cluster w r w' : strimzi_Prune k cluster w = (r, w') ->
  (r = None -> has_no_user w' cluster) /\
  (forall key, key <> user_key cluster -> kobjects w' KUser !! key = kobjects w KUser !! key) /\
  forall k', k' <> KUser -> kobjects w' k' = kobjects w k'.
Proof.
  unfold strimzi_Prune. fold (user_key cluster). destruct (kget w KUser _) as [old| |e] eqn:G.
  - apply kget_Found in G. destruct (kdelete w KUser _) as [d w1] eqn:D. intros [= <- <-].
    destruct d as [| |e].
    + apply kdelete_Done in D as [(o & Ho & Ek) K]. split; [|split; [|done]].
      * intros _. unfold has_no_user. rewrite Ek. by rewrite lookup_partial_alter_eq.
      * intros key Hne. by rewrite Ek, lookup_partial_alter_ne.
    + apply kdelete_Gone in D as [D ->]. rewrite G in D. done.
    + apply kdelete_refused in D. split; [done|]. by rewrite D.
  - apply kget_Missing in G. by intros [= <- <-].
  - by intros [= <- <-].
Qed.

Lemma has_user_frame w w' cluster : (kobjects w' KUser !! user_key cluster = kobjects w KUser !! user_key cluster) ->
  (has_user w cluster -> has_user w' cluster) /\ (has_no_user w cluster -> has_no_user w' cluster).
Proof. intros E. unfold has_user, has_no_user. by rewrite E. Qed.

#[export] Program Instance strimzi_laws : TransporterLaws W (strimzi_transporter k c) := {|
  granted := has_user; revoked := has_no_user;
|}.
Next Obligation. intros cluster w n w' ((u & L & Ha & _) & _)%EnsureUser_spec; [by exists u|done..]. Qed.
Next Obligation. intros a b w t w' E. apply has_user_frame. by rewrite (strimzi_EnsureTopic_frame _ _ _ _ E). Qed.
Next Obligation. intros cluster w w' (Hn & _)%strimzi_Prune_spec. by apply Hn. Qed.
Next Obligation.
  intros a b w r w' E Hne. apply has_user_frame, (strimzi_EnsureUser_frame _ _ _ _ E). intros ?%user_key_inj. done.
Qed.
Next Obligation.
  intros a b w r w' (_ & Ho & _)%strimzi_Prune_spec Hne. apply has_user_frame, Ho. intros ?%user_key_inj. done.
Qed.
Next Obligation. intros w w' cluster E. apply has_user_frame. by rewrite E. Qed.
Next Obligation. intros w w' cluster E. apply has_user_frame. by rewrite E. Qed.
Next Obligation. intros cluster w r w' k' E Hu Ht. by apply (strimzi_EnsureUser_frame _ _ _ _ E). Qed.
Next Obligation. intros cluster w r w' k' E Hu Ht. by apply (strimzi_EnsureTopic_frame _ _ _ _ E). Qed.
Next Obligation. intros cluster w r w' k' (_ & _ & K)%strimzi_Prune_spec Hu Ht. by apply K. Qed.

#[export] Program Instance byo_laws : TransporterLaws W (byo_transporter c) := {|
  granted _ _ := True; revoked _ _ := True;
|}.
Solve Obligations with (cbn; intros; by repeat match goal with E : (_, _) = (_, _) |- _ => injection E as <- end; simplify_eq).
End Laws.

(** ** A cluster of the operator with two hubs

    Patches and comparisons as the libraries document them, on the fields of the
    model; the user of the second hub has one right more than the operator gives. *)
Module Sample.
#[local] Instance acl_dec : EqDecision Acl.
Proof. solve_decision. Defined.

Fixpoint acls_derived (a b : list Acl) : bool :=
  match a, b with
  | [], _ => true
  | x :: a', y :: b' =>
      bool_decide (acl_Host y = acl_Host x /\ acl_Type y = acl_Type x /\ acl_Name y = acl_Name x /\
                   acl_PatternType y = acl_PatternType x /\ acl_Operations x `prefix_of` acl_Operations y) && acls_derived a' b'
  | _ :: _, [] => false
  end.
Lemma acls_derived_spec a b : acls_derived a b = true <-> acls_extended a b.
Proof.
  split.
  - revert b. induction a as [|x a IH]; intros b E; [exists [], b; by split; [|constructor]|].
    destruct b as [|y b]; [done|]. cbn [acls_derived] in E. apply andb_true_iff in E as [E1%bool_decide_eq_true_1 E2].
    destruct (IH b E2) as (b1 & b2 & -> & Hf). exists (y :: b1), b2. split; [done|]. by constructor.
  - intros (b1 & b2 & -> & Hf). induction Hf as [|x y a b1 Hx Hf IH]; [done|]. cbn [app acls_derived].
    rewrite bool_decide_eq_true_2 by exact Hx. exact IH.
Qed.

#[export] Instance patches : ObjectMerge := {|
  merge_users old new := Ok (MkKafkaUser (ku_Key new) (ku_Labels new ∪ ku_Labels old) (ku_Authentication new)
    (ku_Authorization new) (match ku_Acls new with [] => ku_Acls old | l => l end));
  merge_topics old new := Ok (MkKafkaTopic (kt_Key new) (kt_Labels new ∪ kt_Labels old)
    (match kt_Partitions new with None => kt_Partitions old | p => p end)
    (match kt_Replicas new with None => kt_Replicas old | p => p end) (kt_Config new));
  user_derivative a b := acls_derived (ku_Acls a) (ku_Acls b) &&
    bool_decide (ku_Authentication b = ku_Authentication a /\ ku_Authorization b = ku_Authorization a);
  topic_derivative a b := bool_decide (kt_Partitions b = kt_Partitions a /\ kt_Config b = kt_Config a) &&
    match kt_Replicas a with None => true | r => bool_decide (kt_Replicas b = r) end;
|}.
#[export] Instance patches_laws : ObjectMergeLaws.
Proof.
  split.
  - intros old new. eexists. reflexivity.
  - intros old new u [= <-] Hne. cbn. by destruct (ku_Acls new).
  - intros old new t [= <-]. cbn. split_and!; try done. by intros n ->.
  - intros a b _ _ _. cbn. by rewrite andb_true_iff, acls_derived_spec, bool_decide_eq_true.
  - intros a b _ _. cbn. rewrite andb_true_iff, bool_decide_eq_true. destruct (kt_Replicas a) as [r|].
    + rewrite bool_decide_eq_true. split; [intros [[??] ?]; by split_and!|intros (? & ? & Hr); split; [done|]; eauto].
    + split; [intros [[??] _]; split_and!; try done; by intros []|by intros (? & ? & _)].
Qed.

Definition kafka : strimziTransporter := MkStrimzi KafkaClusterName "mgh" 3.
Definition conf : TransportConfig := MkTransportConfig StrimziTransporter false false "gh-spec" "gh-status.*".
Definition operand : GlobalHub := MkGlobalHub ("mgh", "multiclusterglobalhub") ∅ false false "gh-spec" "gh-status.*".
Definition hub2_user : KafkaUser :=
  newKafkaUser kafka (GetKafkaUserName "hub2") "tls-external" (hub_acls conf "hub2" ++ [WriteTopicACL "gh-status.hub1"]).
Definition server : kstore (K := op_kind) := fun k =>
  match k with
  | KGlobalHub => {[gh_Key operand := operand]}
  | KUser => {[ku_Key hub2_user := hub2_user]}
  | KTopic => {[("mgh", "gh-spec") := set_replicas (newKafkaTopic kafka "gh-spec") (Some 2%Z)]}
  | _ => ∅
  end.

Lemma spec_valid : isValidKafkaTopicName (specTopic conf) = true.
Proof. reflexivity. Qed.
Lemma status_pattern : topic_pattern (statusTopic conf).
Proof. by apply valid_topic_pattern. Qed.

Lemma hub_writes_its_own_topic_only_witness :
  exists w', strimzi_EnsureUser kafka conf "hub1" server = (Ok "hub1-kafka-user", w') /\
  exists u : KafkaUser, ~ allowed (ku_Acls u) "Write" "gh-status.hub2".
Proof.
  assert (kobjects server KUser !! (kafkaClusterNamespace kafka, GetKafkaUserName "hub1") = None) as Hnew by (vm_compute; reflexivity).
  destruct (strimzi_EnsureUser kafka conf "hub1" server) as [r w'] eqn:E.
  assert (r = Ok "hub1-kafka-user") as -> by (change r with (r, w').1; rewrite <- E; vm_compute; reflexivity).
  exists w'. split; [reflexivity|].
  destruct (hub_writes_its_own_topic_only kafka conf spec_valid status_pattern "hub1" server w' _ Hnew E) as (u & _ & _ & Ho).
  exists u. destruct (Ho "hub2" ltac:(discriminate)) as [Hstar _]. exact (Hstar eq_refl).
Defined.

Lemma extra_rights_are_kept_witness :
  strimzi_EnsureUser kafka conf "hub2" server = (Ok "hub2-kafka-user", server) /\
  allowed (ku_Acls hub2_user) "Write" "gh-status.hub1".
Proof.
  split.
  - assert (kobjects server KUser !! (kafkaClusterNamespace kafka, GetKafkaUserName "hub2") = Some (hub2_user : kobj KUser)) as Hu by (vm_compute; reflexivity).
    assert (acls_extended (hub_acls conf "hub2") (ku_Acls hub2_user)) as Hext by by (exists (hub_acls conf "hub2"), [WriteTopicACL "gh-status.hub1"]; split;
      [reflexivity|repeat (constructor; [apply acl_extended_refl|]); constructor]).
    exact (extra_rights_are_kept kafka conf spec_valid status_pattern "hub2" server hub2_user kstore_responsive Hu Hext
      (conj eq_refl eq_refl)).
  - exists (WriteTopicACL "gh-status.hub1"). split; [|split].
    + unfold hub2_user. cbn. repeat first [by left | right].
    + by left.
    + split; [done|]. left. split; [done|]. by left.
Defined.

Definition manager_user : KafkaUser := newKafkaUser kafka (GetKafkaUserName "global-hub") "tls-external"
  [ConsumeGroupReadACL; WriteTopicACL "gh-spec"; ReadTopicACL "gh-status." true].
Definition managed : kstore (K := op_kind) := fun k =>
  match k with KUser => {[ku_Key manager_user := manager_user]} | _ => ∅ end.

Lemma hub_named_global_hub_takes_the_managers_user_witness :
  allowed (ku_Acls manager_user) "Read" "gh-status.hub1" /\
  exists w' (u : KafkaUser), strimzi_EnsureUser kafka conf "global-hub" managed = (Ok "global-hub-kafka-user", w') /\
    ~ allowed (ku_Acls u) "Read" "gh-status.hub1".
Proof.
  split.
  { exists (ReadTopicACL "gh-status." true). split; [right; right; by left|]. split; [right; by left|].
    split; [reflexivity|]. right. split; [reflexivity|]. by exists "hub1". }
  assert (kobjects managed KUser !! (kafkaClusterNamespace kafka, "global-hub-kafka-user") = Some (manager_user : kobj KUser)) as Hm by (vm_compute; reflexivity).
  assert (~ acls_extended (hub_acls conf "global-hub") (ku_Acls manager_user)) as Hacls.
  { intros (b1 & b2 & E & Hf). apply Forall2_cons_inv_l in Hf as (x1 & l1 & _ & Hf & ->).
    apply Forall2_cons_inv_l in Hf as (x2 & l2 & Hx & _ & ->). cbn in E. injection E as <- <- _.
    destruct Hx as (_ & _ & _ & _ & Hpre). destruct Hpre as [l Hl]. discriminate Hl. }
  destruct (strimzi_EnsureUser kafka conf "global-hub" managed) as [r w'] eqn:E.
  assert (r = Ok "global-hub-kafka-user") as -> by (change r with (r, w').1; rewrite <- E; vm_compute; reflexivity).
  destruct (hub_named_global_hub_takes_the_managers_user kafka conf spec_valid status_pattern managed w' _ manager_user Hm Hacls E)
    as (u & _ & Hu).
  exists w', u. split; [reflexivity|]. apply Hu. discriminate.
Defined.

Lemma topics_are_there_with_their_replicas_witness :
  exists w' (s t : KafkaTopic), strimzi_EnsureTopic kafka conf "hub1" server = (Ok (MkClusterTopic "gh-spec" "gh-status.hub1"), w') /\
    kt_Replicas s = Some 2%Z /\ kt_Replicas t = Some 3%Z.
Proof.
  assert (specTopic conf <> GetStatusTopic conf "hub1") as Hdiff by discriminate.
  assert (kobjects server KTopic !! (kafkaClusterNamespace kafka, "gh-spec") = Some (set_replicas (newKafkaTopic kafka "gh-spec") (Some 2%Z) : kobj KTopic)) as Hs
    by (vm_compute; reflexivity).
  assert (kobjects server KTopic !! (kafkaClusterNamespace kafka, "gh-status.hub1") = None) as Hn by (vm_compute; reflexivity).
  destruct (strimzi_EnsureTopic kafka conf "hub1" server) as [r w'] eqn:E.
  assert (r = Ok (MkClusterTopic "gh-spec" "gh-status.hub1")) as -> by (change r with (r, w').1; rewrite <- E; vm_compute; reflexivity).
  destruct (topics_are_there_with_their_replicas kafka conf "hub1" server w' _ Hdiff E) as (_ & Ht & _).
  destruct (Ht "gh-spec" (or_introl eq_refl)) as (s & _ & _ & Hks & _).
  destruct (Ht "gh-status.hub1" (or_intror eq_refl)) as (t & _ & _ & _ & Hkt).
  exists w', s, t. split; [reflexivity|]. split; [exact (Hks _ Hs)|exact (Hkt Hn)].
Defined.

Definition given : kstore (K := op_kind) := fun k =>
  match k with
  | KGlobalHub => {[gh_Key operand := operand]}
  | KTransportSecret => {[("mgh", "multicluster-global-hub-transport") := MkTransportSecret ("mgh", "multicluster-global-hub-transport")]}
  | _ => ∅
  end.

Lemma accepted_config_is_well_formed_witness :
  exists c' w', SetTransportConfig operand conf given = (None, c', w') /\ GetStatusTopic c' "hub1" = "gh-status" /\
  exists m : kobj KGlobalHub, kobjects w' KGlobalHub !! gh_Key operand = Some m /\ gh_StatusTopic m = "gh-status".
Proof.
  destruct (SetTransportConfig operand conf given) as [[err c'] w'] eqn:E.
  assert ((err, c') = (None, MkTransportConfig SecretTransporter true false "gh-spec" "gh-status")) as [= -> ->]
    by (change (err, c') with (err, c', w').1; rewrite <- E; vm_compute; reflexivity).
  destruct (accepted_config_is_well_formed operand conf given _ w' E) as (_ & _ & _ & _ & Hs & Hm).
  eexists _, w'. split; [reflexivity|]. split; [exact (Hs "hub1")|]. exact (Hm eq_refl).
Defined.
End Sample.
