(* ===== verification/AgentAddon.v ===== *)
(** * The agents on the managed hubs

    Where the operator installs the agent of the global hub
    ([operator/pkg/controllers/agent/default_agent_controller.go]), and the
    configuration of the add-ons that hubs imported in hosted mode use
    ([hosted_agent_controller.go]). *)

From stdpp Require Import prelude gmap strings list.
From Stdlib Require Import ZArith Lia Ascii.
From S2P Require Import Prelude.
From S2P Require Import GoLib.
From S2P Require Import KubeClient.
From S2P Require Import KafkaAccess.
From S2P Require Import KafkaAccessFacts.

Local Open Scope string_scope.
Local Open Scope list_scope.

#[export] Instance addon_config_entry_dec : EqDecision AddOnConfig.
Proof. solve_decision. Defined.
#[export] Instance placement_dec : EqDecision PlacementStrategy.
Proof. solve_decision. Defined.

(** ** Names *)
Definition GHManagedClusterAddonName : string := "multicluster-global-hub-controller".
Definition GHClusterManagementAddonName : string := "multicluster-global-hub-controller".
Definition GHAgentNamespace : string := "multicluster-global-hub-agent".
Definition GHOperatorOwnerLabelVal : string := "global-hub-operator".
Definition GHAgentDeployModeLabelKey : string := "global-hub.open-cluster-management.io/agent-deploy-mode".
Definition AnnotationClusterHostingClusterName : string := "import.open-cluster-management.io/hosting-cluster-name".
Definition AnnotationAddonHostingClusterName : string := "addon.open-cluster-management.io/hosting-cluster-name".
Definition LocalClusterName : string := "local-cluster".

(** [strings.EqualFold(s, "true")]: no other letter folds to one of [true]. *)
Definition lower (c : ascii) : ascii :=
  let n := nat_of_ascii c in if ((65 <=? n) && (n <=? 90))%nat then ascii_of_nat (n + 32) else c.
Fixpoint EqualFold (s t : string) : bool :=
  match s, t with
  | EmptyString, EmptyString => true
  | String a s', String b t' => Ascii.eqb (lower a) (lower b) && EqualFold s' t'
  | _, _ => false
  end.

Definition IsPaused (mgh : GlobalHub) : bool :=
  let isPausedVal := default "" (gh_Annotations mgh !! "mgh-pause") in
  negb (String.eqb isPausedVal "") && EqualFold isPausedVal "true".

Definition filterManagedCluster (labels : gmap string string) : bool :=
  negb (String.eqb (default "" (labels !! "vendor")) "OpenShift") ||
  String.eqb (default "" (labels !! "openshiftVersion")) "3".

(** ** The add-on of a cluster *)
Definition deploy_mode (cluster : HubCluster) : string := default "" (hc_Labels cluster !! GHAgentDeployModeLabelKey).
Definition is_local (cluster : HubCluster) : bool :=
  String.eqb (hc_Name cluster) LocalClusterName ||
  String.eqb (default "" (hc_Labels cluster !! LocalClusterName)) "true".
Definition ClusterImageRegistriesAnnotation : string := "open-cluster-management.io/image-registries".

Definition expectedManagedClusterAddon (cluster : HubCluster) (cma : ManagementAddOn) : result AddOn :=
  let addon annotations namespace :=
    MkAddOn (hc_Name cluster, GHManagedClusterAddonName) {[GlobalHubOwnerLabelKey := GHOperatorOwnerLabelVal]}
      annotations namespace [(ma_Name cma, ma_UID cma)] [] false in
  let with_registries (annotations : gmap string string) :=
    match hc_Annotations cluster !! ClusterImageRegistriesAnnotation with
    | Some val => <[ClusterImageRegistriesAnnotation := val]> annotations
    | None => annotations
    end in
  if String.eqb (deploy_mode cluster) "Hosted" then
    let hostingCluster := default "" (hc_Annotations cluster !! AnnotationClusterHostingClusterName) in
    if negb (String.eqb hostingCluster "") then
      Ok (addon (with_registries {[AnnotationAddonHostingClusterName := hostingCluster]}) ("klusterlet-" +:+ hc_Name cluster))
    else Err "failed to get the hosting cluster when the addon is installed in hosted mode"
  else Ok (addon (with_registries ∅) GHAgentNamespace).

Definition set_addon (o : AddOn) (annotations : gmap string string) (namespace : string) : AddOn :=
  MkAddOn (ad_Key o) (ad_Labels o) annotations namespace (ad_Owners o) (ad_Finalizers o) (ad_Deleting o).

Section Default.
Context {W : Type} `{!KubeClient W op_kind}.
(** [config.GetTransporter()], which may be nil. *)
Context (trans : option (Transporter W)).

Definition GetMulticlusterGlobalHub (w : W) : result (option GlobalHub) :=
  match klist w KGlobalHub with
  | Err e => Err e
  | Ok [mgh] => Ok (Some mgh)
  | Ok _ => Ok None
  end.

Definition ensureTransportResource (clusterName : string) (w : W) : option goerror * W :=
  match trans with
  | None => (Some "failed to get the transporter", w)
  | Some t =>
      match EnsureUser clusterName w with
      | (Err e, w1) => (Some e, w1)
      | (Ok _, w1) =>
          match EnsureTopic clusterName w1 with
          | (Err e, w2) => (Some e, w2)
          | (Ok _, w2) => (None, w2)
          end
      end
  end.

Definition addon_key (cluster : HubCluster) : obj_key := (hc_Name cluster, GHManagedClusterAddonName).

Definition removeResourcesAndAddon (cluster : HubCluster) (w : W) : option goerror * W :=
  let prune (w : W) :=
    match trans with
    | None => (Some "failed to get the transporter", w)
    | Some t => Prune (hc_Name cluster) w
    end in
  match kget w KAddOn (addon_key cluster) with
  | Found _ =>
      match kdelete w KAddOn (addon_key cluster) with
      | (Done, w1) => prune w1
      | (r, w1) => (Some ("failed to delete the managedclusteraddon " +:+ default "" (written_err r)), w1)
      end
  | Missing => prune w
  | Broken e => (Some ("failed go get the managedclusteraddon " +:+ e), w)
  end.

Definition reconcileAddonAndResources (cluster : HubCluster) (cma : ManagementAddOn) (w : W) : option goerror * W :=
  match expectedManagedClusterAddon cluster cma with
  | Err e => (Some e, w)
  | Ok expectedAddon =>
      match kget w KAddOn (addon_key cluster) with
      | Missing =>
          match kcreate w KAddOn expectedAddon with
          | (Done, w1) => ensureTransportResource (hc_Name cluster) w1
          | (r, w1) => (written_err r, w1)
          end
      | Broken e => (Some ("failed to get the addon: " +:+ e), w)
      | Found existingAddon =>
          if ad_Deleting existingAddon then removeResourcesAndAddon cluster w
          else if negb (bool_decide (ad_Annotations expectedAddon = ad_Annotations existingAddon)) ||
                  negb (String.eqb (ad_InstallNamespace existingAddon) (ad_InstallNamespace expectedAddon)) then
            match kupdate w KAddOn (set_addon existingAddon (ad_Annotations expectedAddon) (ad_InstallNamespace expectedAddon)) with
            | (Done, w1) => ensureTransportResource (hc_Name cluster) w1
            | (r, w1) => (written_err r, w1)
            end
          else ensureTransportResource (hc_Name cluster) w
      end
  end.

Definition deleteClusterManagementAddon (w : W) : option goerror * W :=
  match kdelete w KManagementAddOn ("", GHClusterManagementAddonName) with
  | (Done, w') | (Gone, w') => (None, w')
  | (Refused e, w') => (Some e, w')
  end.

(** A reconciliation: the seconds after which it is repeated, its error, whether
    the agents are known to be removed ([GlobalhubAgentRemoved]), and the server. *)
Definition reconciliation : Type := (nat * option goerror) * (bool * W).

Definition owned_addons (l : list AddOn) : list AddOn :=
  filter (fun a => ad_Labels a !! GlobalHubOwnerLabelKey = Some GHOperatorOwnerLabelVal) l.

(** Whether the agents are removed, before anything is reconciled
    ([addon_config.go]). *)
Definition initialGlobalhubAgentRemoved : bool := true.

Definition uninstall_agents (removed : bool) (w : W) : reconciliation :=
  match deleteClusterManagementAddon w with
  | (Some e, w1) => ((0, Some ("failed to delete ClusterManagementAddon: " +:+ e)), (removed, w1))
  | (None, w1) =>
      match klist w1 KAddOn with
      | Err e => ((0, Some e), (removed, w1))
      | Ok addons =>
          match owned_addons addons with
          | [] => ((0, None), (true, w1))
          | _ => ((5, None), (removed, w1))
          end
      end
  end.

Definition reconcile_cluster (mgh : GlobalHub) (cma : ManagementAddOn) (cluster : HubCluster) (w : W) : option goerror * W :=
  if hc_Deleting cluster || String.eqb (deploy_mode cluster) "None" then
    match removeResourcesAndAddon cluster w with
    | (Some e, w') => (Some ("failed to remove resources and addon: " +:+ e), w')
    | (None, w') => (None, w')
    end
  else if gh_InstallAgentOnLocal mgh then
    if is_local cluster || String.eqb (deploy_mode cluster) "Default" || String.eqb (deploy_mode cluster) "Hosted"
    then reconcileAddonAndResources cluster cma w
    else (None, w)
  else if is_local cluster then (None, w)
  else reconcileAddonAndResources cluster cma w.

Definition default_Reconcile (name : string) (removed : bool) (w : W) : reconciliation :=
  match GetMulticlusterGlobalHub w with
  | Err _ => ((5, None), (removed, w))
  | Ok None => ((0, None), (removed, w))
  | Ok (Some mgh) =>
      if IsPaused mgh then ((0, None), (removed, w))
      else if gh_Deleting mgh then uninstall_agents removed w
      else
        match trans with
        | None => ((5, None), (false, w))
        | Some _ =>
            match kget w KManagementAddOn ("", GHClusterManagementAddonName) with
            | Missing => ((5, None), (false, w))
            | Broken e => ((0, Some e), (false, w))
            | Found cma =>
                if ma_Deleting cma then ((0, None), (false, w))
                else
                  match kget w KHubCluster ("", name) with
                  | Missing => ((0, None), (false, w))
                  | Broken e => ((0, Some e), (false, w))
                  | Found cluster =>
                      let '(err, w') := reconcile_cluster mgh cma cluster w in ((0, err), (false, w'))
                  end
            end
        end
  end.

(** The requests of a change that concerns every hub. *)
Definition GetAllManagedHubNames (w : W) : result (list string) :=
  match klist w KHubCluster with
  | Err e => Err e
  | Ok items => Ok (hc_Name <$> filter (fun c => filterManagedCluster (hc_Labels c) = false) (items : list HubCluster))
  end.
Definition renderAllManifestsHandler (w : W) : list string :=
  match GetAllManagedHubNames w with Ok names => names | Err _ => [] end.
End Default.

(** ** [hosted_agent_controller.go] *)
Definition HostedAddonList : list string := ["work-manager"; "cluster-proxy"; "managed-serviceaccount"].

Section Hosted.
Context (defaultNamespace : string).

(** [GlobalHubHostedAddonPlacementStrategy] of the configuration package. *)
Definition HostedStrategy : PlacementStrategy :=
  MkStrategy (defaultNamespace, "non-local-cluster")
    [MkAddOnConfig "addon.open-cluster-management.io" "addondeploymentconfigs" (defaultNamespace, "global-hub")].

(** The loop over the placements: whether it returned, and what. *)
Fixpoint add_to_placements (placements : list PlacementStrategy) : option (bool * list PlacementStrategy) :=
  match placements with
  | [] => None
  | pl :: rest =>
      if negb (bool_decide (ps_Ref pl = ps_Ref HostedStrategy)) then
        match add_to_placements rest with
        | Some (changed, rest') => Some (changed, pl :: rest')
        | None => None
        end
      else if bool_decide (ps_Configs pl = ps_Configs HostedStrategy) then Some (false, pl :: rest)
      else Some (true, MkStrategy (ps_Ref pl) (ps_Configs pl ++ ps_Configs HostedStrategy) :: rest)
  end.

Definition addAddonConfig (placements : list PlacementStrategy) : bool * list PlacementStrategy :=
  match placements with
  | [] => (true, [HostedStrategy])
  | _ =>
      match add_to_placements placements with
      | Some r => r
      | None => (true, placements ++ [HostedStrategy])
      end
  end.

Definition set_placements (m : ManagementAddOn) (p : list PlacementStrategy) : ManagementAddOn :=
  MkManagementAddOn (ma_Name m) (ma_UID m) p (ma_Finalizers m) (ma_Deleting m).

Definition remove_strategy (placements : list PlacementStrategy) : list PlacementStrategy :=
  filter (fun pl => ps_Ref pl <> ps_Ref HostedStrategy) placements.

Context {W : Type} `{!KubeClient W op_kind}.
Context (importClusterInHosted : bool).

Definition removeGlobalhubConfig (cma : ManagementAddOn) (w : W) : option goerror * W :=
  match ma_Placements cma with
  | [] => (None, w)
  | placements =>
      if existsb (fun pl => bool_decide (ps_Ref pl = ps_Ref HostedStrategy)) placements then
        let '(r, w') := kupdate w KManagementAddOn (set_placements cma (remove_strategy placements)) in (written_err r, w')
      else (None, w)
  end.

Fixpoint revert_each (cmas : list ManagementAddOn) (w : W) : option goerror * W :=
  match cmas with
  | [] => (None, w)
  | cma :: rest =>
      if negb (existsb (String.eqb (ma_Name cma)) HostedAddonList) then revert_each rest w
      else
        match removeGlobalhubConfig cma w with
        | (Some e, w') => (Some e, w')
        | (None, w') => revert_each rest w'
        end
  end.

Definition revertClusterManagementAddon (w : W) : option goerror * W :=
  match klist w KManagementAddOn with
  | Err e => (Some e, w)
  | Ok items => revert_each items w
  end.

Definition pruneHostedResources (w : W) : option goerror * W :=
  match kget w KDeploymentConfig (defaultNamespace, "global-hub") with
  | Missing => (None, w)
  | Broken e => (Some e, w)
  | Found _ => let '(r, w') := kdelete w KDeploymentConfig (defaultNamespace, "global-hub") in (written_err r, w')
  end.

Definition hasManagedHub (w : W) : result bool :=
  match klist w KAddOn with
  | Err e => Err e
  | Ok items => Ok (existsb (fun a => String.eqb (ad_Key a).2 GHManagedClusterAddonName) (items : list AddOn))
  end.

Definition remove_hosted (removed : bool) (w : W) : (nat * option goerror) * (bool * W) :=
  match revertClusterManagementAddon w with
  | (Some e, w1) => ((0, Some e), (removed, w1))
  | (None, w1) =>
      match pruneHostedResources w1 with
      | (Some e, w2) => ((0, Some e), (removed, w2))
      | (None, w2) => ((0, None), (true, w2))
      end
  end.

Definition hosted_Reconcile (name : string) (removed : bool) (w : W) : (nat * option goerror) * (bool * W) :=
  match GetMulticlusterGlobalHub w with
  | Err _ => ((5, None), (removed, w))
  | Ok None => ((0, None), (removed, w))
  | Ok (Some mgh) =>
      if IsPaused mgh then ((0, None), (removed, w))
      else if gh_Deleting mgh || negb importClusterInHosted then
        if importClusterInHosted then
          match hasManagedHub w with
          | Err e => ((0, Some e), (removed, w))
          | Ok true => ((10, None), (removed, w))
          | Ok false => remove_hosted removed w
          end
        else remove_hosted removed w
      else
        match kget w KManagementAddOn ("", name) with
        | Missing => ((0, Some "not found"), (false, w))
        | Broken e => ((0, Some e), (false, w))
        | Found cma =>
            let '(needUpdate, placements) := addAddonConfig (ma_Placements cma) in
            if negb needUpdate then ((0, None), (false, w))
            else let '(r, w') := kupdate w KManagementAddOn (set_placements cma placements) in
                 ((0, written_err r), (false, w'))
        end
  end.
End Hosted.

(** ** Properties of the agents on the managed hubs

    What a hub has after it is reconciled, against any transporter; when the
    agents count as removed; and what the hosted mode leaves in the placements of
    an add-on. The last part runs an operator with two hubs. *)

(** ** Where an agent belongs *)
Inductive decision := Install | Remove | Leave.
Definition decide_agent (mgh : GlobalHub) (cluster : HubCluster) : decision :=
  if hc_Deleting cluster || String.eqb (deploy_mode cluster) "None" then Remove
  else if is_local cluster then (if gh_InstallAgentOnLocal mgh then Install else Leave)
  else if gh_InstallAgentOnLocal mgh
       then (if String.eqb (deploy_mode cluster) "Default" || String.eqb (deploy_mode cluster) "Hosted" then Install else Leave)
       else Install.

Section Agents.
Context {W : Type} `{!KubeClient W op_kind} `{!KubeServer W op_kind} (T : Transporter W) `{!TransporterLaws W T}.

Lemma ensureTransportResource_spec name w w' : ensureTransportResource (Some T) name w = (None, w') ->
  granted w' name /\ (forall k, k <> KUser -> k <> KTopic -> kobjects w' k = kobjects w k) /\
  forall other, other <> name -> granted w other -> granted w' other.
Proof.
  unfold ensureTransportResource. destruct (EnsureUser name w) as [[n|e] w1] eqn:E1; [|done].
  destruct (EnsureTopic name w1) as [[t|e] w2] eqn:E2; [|done]. intros [= <-]. split; [|split].
  - eapply EnsureTopic_granted; [exact E2|]. by eapply EnsureUser_granted.
  - intros k Hu Ht. rewrite (EnsureTopic_frame _ _ _ _ k E2), (EnsureUser_frame _ _ _ _ k E1) by done. done.
  - intros other Hne Hg. eapply EnsureTopic_granted; [exact E2|]. by eapply EnsureUser_others.
Qed.

(** A call on the add-ons does not concern the users. *)
Lemma addons_keep_rights w w' other : (forall k, k <> KAddOn -> kobjects w' k = kobjects w k) ->
  (granted w other -> granted w' other) /\ (revoked w other -> revoked w' other).
Proof. intros K. split; [apply granted_frame|apply revoked_frame]; by apply K. Qed.

Definition gone_or_marked (w : W) (key : obj_key) : Prop :=
  forall a : kobj KAddOn, kobjects w KAddOn !! key = Some a -> ad_Deleting a = true.

(** Nothing changes for the other clusters. *)
Definition others_kept (name : string) (w w' : W) : Prop := forall other, other <> name ->
  kobjects w' KAddOn !! (other, GHManagedClusterAddonName) = kobjects w KAddOn !! (other, GHManagedClusterAddonName) /\
  (granted w other -> granted w' other).

Lemma remove_spec cluster w w' : removeResourcesAndAddon (Some T) cluster w = (None, w') ->
  gone_or_marked w' (addon_key cluster) /\ revoked w' (hc_Name cluster) /\ others_kept (hc_Name cluster) w w'.
Proof.
  unfold removeResourcesAndAddon. destruct (kget w KAddOn _) as [a| |e] eqn:G; [| |done].
  - apply kget_Found in G. destruct (kdelete w KAddOn _) as [[| |e] w1] eqn:D; try done. intros P.
    pose proof (kdelete_lookup _ _ _ _ _ D G) as L. apply kdelete_Done in D as [(o & _ & Ek) K].
    pose proof (Prune_frame _ _ _ _ KAddOn P ltac:(done) ltac:(done)) as F. split; [|split].
    + intros b Hb. rewrite F, L in Hb. change (ad_mark a = Some b) in Hb. unfold ad_mark in Hb.
      destruct (ad_Finalizers a); [done|]. by injection Hb as <-.
    + by eapply Prune_revoked.
    + intros other Hne. rewrite F, Ek. split.
      * rewrite lookup_partial_alter_ne; [done|]. intros [= E]. by apply Hne.
      * intros Hg. eapply Prune_others; [exact P|done|]. by eapply (addons_keep_rights w w1).
  - apply kget_Missing in G. intros P. pose proof (Prune_frame _ _ _ _ KAddOn P ltac:(done) ltac:(done)) as F.
    split; [|split].
    + intros b Hb. rewrite F in Hb. discriminate (eq_trans (eq_sym G) Hb).
    + by eapply Prune_revoked.
    + intros other Hne. rewrite F. split; [done|]. intros Hg. by eapply Prune_others.
Qed.

Definition installed (w : W) (cluster : HubCluster) (cma : ManagementAddOn) : Prop :=
  exists (a : kobj KAddOn) (e : AddOn), expectedManagedClusterAddon cluster cma = Ok e /\
    kobjects w KAddOn !! addon_key cluster = Some a /\ ad_Annotations a = ad_Annotations e /\
    ad_InstallNamespace a = ad_InstallNamespace e /\ granted w (hc_Name cluster).

Lemma expected_key cluster cma e : expectedManagedClusterAddon cluster cma = Ok e -> ad_Key e = addon_key cluster.
Proof. unfold expectedManagedClusterAddon. destruct (String.eqb _ _); [destruct (negb _)|]; try done; by intros [= <-]. Qed.

(** The last step of an installation: the add-on is there, the rest follows. *)
Lemma ensured_after cluster cma e (a : kobj KAddOn) w w1 w' :
  expectedManagedClusterAddon cluster cma = Ok e -> kobjects w1 KAddOn !! addon_key cluster = Some a ->
  ad_Annotations a = ad_Annotations e -> ad_InstallNamespace a = ad_InstallNamespace e ->
  (forall key, key <> addon_key cluster -> kobjects w1 KAddOn !! key = kobjects w KAddOn !! key) ->
  (forall k, k <> KAddOn -> kobjects w1 k = kobjects w k) ->
  ensureTransportResource (Some T) (hc_Name cluster) w1 = (None, w') ->
  installed w' cluster cma /\ others_kept (hc_Name cluster) w w'.
Proof.
  intros He La Ha Hn Ho K Et. apply ensureTransportResource_spec in Et as (Hg & F & Hoth).
  specialize (F KAddOn ltac:(done) ltac:(done)). split.
  - exists a, e. rewrite F. done.
  - intros other Hne. rewrite F. split; [apply Ho; intros [= E]; by apply Hne|].
    intros Hw. apply Hoth; [done|]. by eapply (addons_keep_rights w w1).
Qed.

Lemma install_spec cluster cma w w' : reconcileAddonAndResources (Some T) cluster cma w = (None, w') ->
  others_kept (hc_Name cluster) w w' /\
  (installed w' cluster cma \/
   ((exists old : kobj KAddOn, kobjects w KAddOn !! addon_key cluster = Some old /\ ad_Deleting old = true) /\
    gone_or_marked w' (addon_key cluster) /\ revoked w' (hc_Name cluster))).
Proof.
  unfold reconcileAddonAndResources. destruct (expectedManagedClusterAddon cluster cma) as [e|] eqn:He; [|done].
  destruct (kget w KAddOn _) as [old| |err] eqn:G; [| |done].
  - pose proof (kget_name _ _ _ _ G) as Hkey. apply kget_Found in G. destruct (ad_Deleting old) eqn:Hd.
    + intros (Hm & Hr & Hk)%remove_spec. split; [done|]. right. split; [by exists old|done].
    + destruct (_ || _) eqn:Hc.
      * destruct (kupdate w KAddOn _) as [[| |err] w1] eqn:U; try done. intros Et.
        set (new := set_addon old _ _) in U. assert (kname KAddOn new = addon_key cluster) as Hn by exact Hkey.
        assert (obj_keep KAddOn new = true) as Hkeep by (cbn; by rewrite Hd).
        pose proof (kupdate_lookup _ _ _ _ U Hkeep) as L. rewrite Hn in L.
        destruct (ensured_after cluster cma e new w w1 w' He L) as [Hi Hk]; [done|done| | |exact Et|by split; [|left]].
        -- intros key Hne. eapply kupdate_others; [exact U|by rewrite Hn].
        -- by apply kupdate_Done in U as (_ & _ & K).
      * apply orb_false_iff in Hc as [H1 H2]. apply negb_false_iff, bool_decide_eq_true_1 in H1.
        apply negb_false_iff, String.eqb_eq in H2. intros Et.
        destruct (ensured_after cluster cma e old w w w' He G) as [Hi Hk]; [done..|]. by split; [|left].
  - apply kget_Missing in G. destruct (kcreate w KAddOn _) as [[| |err] w1] eqn:C; try done. intros Et.
    assert (kname KAddOn e = addon_key cluster) as Hn by (by eapply expected_key).
    pose proof (kcreate_lookup _ _ _ _ C) as L. rewrite Hn in L. apply kcreate_Done in C as (_ & Ek & K).
    destruct (ensured_after cluster cma e e w w1 w' He L) as [Hi Hk]; [done|done| |done|exact Et|by split; [|left]].
    intros key Hne. rewrite Ek, Hn. by rewrite lookup_insert_ne.
Qed.

(** C10: a managed cluster that is reconciled without an error has what belongs
    there: with an agent its add-on is as it should be and its transport is
    granted, unless the add-on is just being deleted; without one its add-on is
    gone or marked and the transport is revoked; otherwise nothing happens. The
    decision is a function of the cluster and of the operand, and the add-ons and
    the transport of the other clusters are kept, whatever the transporter. *)
Theorem reconciled_cluster_has_what_belongs_there name mgh (cma : kobj KManagementAddOn) (cluster : kobj KHubCluster)
    removed removed' w w'
    (Hmgh : klist w KGlobalHub = Ok [mgh]) (Hactive : IsPaused mgh = false) (Hlive : gh_Deleting mgh = false)
    (Hcma : kobjects w KManagementAddOn !! ("", GHClusterManagementAddonName) = Some cma)
    (Hcma_live : ma_Deleting cma = false) (Hcluster : kobjects w KHubCluster !! ("", name) = Some cluster)
    (Hserver : responsive W op_kind)
    (Hrun : default_Reconcile (Some T) name removed w = ((0, None), (removed', w'))) :
  removed' = false /\ others_kept name w w' /\
  match decide_agent mgh cluster with
  | Install => installed w' cluster cma \/
      ((exists old : kobj KAddOn, kobjects w KAddOn !! addon_key cluster = Some old /\ ad_Deleting old = true) /\
       gone_or_marked w' (addon_key cluster) /\ revoked w' name)
  | Remove => gone_or_marked w' (addon_key cluster) /\ revoked w' name
  | Leave => w' = w
  end.
Proof.
  pose proof (kobjects_named _ _ _ _ Hcluster) as Hname. change (("", hc_Name cluster) = ("", name)) in Hname.
  injection Hname as Hname. unfold default_Reconcile, GetMulticlusterGlobalHub in Hrun.
  rewrite Hmgh, Hactive, Hlive, (kget_present w KManagementAddOn _ _ Hserver Hcma), Hcma_live,
    (kget_present w KHubCluster _ _ Hserver Hcluster) in Hrun.
  destruct (reconcile_cluster (Some T) mgh cma cluster w) as [err w1] eqn:E. injection Hrun as -> <- <-.
  split; [done|]. unfold reconcile_cluster in E. unfold decide_agent. rewrite <- Hname.
  destruct (hc_Deleting cluster || _).
  { destruct (removeResourcesAndAddon (Some T) cluster w) as [[e|] w2] eqn:R; [done|]. injection E as ->.
    apply remove_spec in R as (? & ? & ?). done. }
  assert (others_kept (hc_Name cluster) w w) as Hsame by done.
  destruct (gh_InstallAgentOnLocal mgh), (is_local cluster); cbn [orb] in E;
    try (apply install_spec in E as [? ?]; done); try (injection E as <-; done).
  destruct (_ || _); [by apply install_spec in E|by injection E as <-].
Qed.

(** A reconciliation while the operand is being deleted: the flag is set when no
    add-on of the operator is left, and otherwise stays as it was. *)
Lemma uninstalling trans name mgh removed seconds removed' w w'
    (Hmgh : klist w KGlobalHub = Ok [mgh]) (Hactive : IsPaused mgh = false) (Hdeleting : gh_Deleting mgh = true)
    (Hrun : default_Reconcile trans name removed w = ((seconds, None), (removed', w'))) :
  (forall m : kobj KManagementAddOn, kobjects w' KManagementAddOn !! ("", GHClusterManagementAddonName) = Some m ->
     ma_Deleting m = true) /\
  ((seconds = 0 /\ removed' = true /\
    forall (a : kobj KAddOn) key, kobjects w' KAddOn !! key = Some a ->
      ad_Labels a !! GlobalHubOwnerLabelKey <> Some GHOperatorOwnerLabelVal) \/
   (seconds = 5 /\ removed' = removed /\
    exists (a : kobj KAddOn) key, kobjects w' KAddOn !! key = Some a /\
      ad_Labels a !! GlobalHubOwnerLabelKey = Some GHOperatorOwnerLabelVal)).
Proof.
  unfold default_Reconcile, GetMulticlusterGlobalHub in Hrun. rewrite Hmgh, Hactive, Hdeleting in Hrun.
  unfold uninstall_agents in Hrun. destruct (deleteClusterManagementAddon w) as [[e|] w1] eqn:D; [done|].
  destruct (klist w1 KAddOn) as [addons|e] eqn:L; [|done].
  assert (w' = w1) as -> by (destruct (owned_addons addons); by injection Hrun). split.
  - intros m Hm. unfold deleteClusterManagementAddon in D. destruct (kdelete w KManagementAddOn _) as [[| |e] w2] eqn:K; [| |done].
    + injection D as ->. apply kdelete_Done in K as [(o & _ & Ek) _]. rewrite Ek, lookup_partial_alter_eq in Hm.
      change (ma_mark o = Some m) in Hm. unfold ma_mark in Hm. destruct (ma_Finalizers o); [done|]. by injection Hm as <-.
    + injection D as ->. apply kdelete_Gone in K as [K ->]. discriminate (eq_trans (eq_sym K) Hm).
  - destruct (owned_addons addons) as [|a l] eqn:O; injection Hrun as <- <-; [left|right]; (split; [done|]); (split; [done|]).
    + intros a key Ha Howned. assert (a ∈ owned_addons addons) as Hin; [|rewrite O in Hin; by apply elem_of_nil in Hin].
      apply list_elem_of_filter. split; [done|]. apply (klist_elem _ _ _ L). by rewrite (kobjects_named _ _ _ _ Ha).
    + assert (a ∈ owned_addons addons) as [Ha Hin]%list_elem_of_filter by (rewrite O; by left).
      exists a, (ad_Key a). split; [|done]. by apply (klist_elem _ _ _ L).
Qed.

(** The flag is false after any reconciliation of an operand that lives. *)
Lemma live_operand_clears_the_flag trans name mgh removed r removed' w w' :
  klist w KGlobalHub = Ok [mgh] -> IsPaused mgh = false -> gh_Deleting mgh = false ->
  default_Reconcile trans name removed w = (r, (removed', w')) -> removed' = false.
Proof.
  intros Hmgh Hactive Hlive. unfold default_Reconcile, GetMulticlusterGlobalHub. rewrite Hmgh, Hactive, Hlive.
  destruct trans as [tr|]; [|by intros [= _ <- _]]. destruct (kget w KManagementAddOn _) as [cma| |e]; [|by intros [= _ <- _]..].
  destruct (ma_Deleting cma); [by intros [= _ <- _]|]. destruct (kget w KHubCluster _) as [cluster| |e]; [|by intros [= _ <- _]..].
  destruct (reconcile_cluster _ _ _ _) as [err w1]. by intros [= _ <- _].
Qed.

(** C31: once the operator has reconciled a live operand, a reconciliation without an error while the operand is being deleted has deleted the management add-on, or marked it, and says that the agents are removed exactly when no add-on of the operator is left; otherwise it comes back after five seconds. *)
Theorem agents_are_removed_before_it_is_said trans name name0 mgh mgh0 removed0 removed r0 seconds removed' w0 w0' w w'
    (Hmgh0 : klist w0 KGlobalHub = Ok [mgh0]) (Hactive0 : IsPaused mgh0 = false) (Hlive : gh_Deleting mgh0 = false)
    (Hbefore : default_Reconcile trans name0 removed0 w0 = (r0, (removed, w0')))
    (Hmgh : klist w KGlobalHub = Ok [mgh]) (Hactive : IsPaused mgh = false) (Hdeleting : gh_Deleting mgh = true)
    (Hrun : default_Reconcile trans name removed w = ((seconds, None), (removed', w'))) :
  (forall m : kobj KManagementAddOn, kobjects w' KManagementAddOn !! ("", GHClusterManagementAddonName) = Some m ->
     ma_Deleting m = true) /\
  (removed' = true <->
   forall (a : kobj KAddOn) key, kobjects w' KAddOn !! key = Some a ->
     ad_Labels a !! GlobalHubOwnerLabelKey <> Some GHOperatorOwnerLabelVal) /\
  seconds = if removed' then 0 else 5.
Proof.
  assert (removed = false) as -> by (by eapply (live_operand_clears_the_flag _ _ _ _ _ _ _ _ Hmgh0)).
  destruct (uninstalling _ _ _ _ _ _ _ _ Hmgh Hactive Hdeleting Hrun) as [Hm [(-> & -> & Hnone)|(-> & -> & a & key & Ha & Hown)]];
    (split; [exact Hm|]; split; [|done]; split; [done|]); [done|]. intros Hnone. by destruct (Hnone a key Ha).
Qed.

(** The flag starts true: an operator that starts while the operand is being
    deleted says at once that the agents are removed. *)
Lemma restarted_operator_says_removed trans name mgh seconds removed' w w' :
  klist w KGlobalHub = Ok [mgh] -> IsPaused mgh = false -> gh_Deleting mgh = true ->
  default_Reconcile trans name initialGlobalhubAgentRemoved w = ((seconds, None), (removed', w')) -> removed' = true.
Proof. intros H1 H2 H3 Hrun. by destruct (uninstalling _ _ _ _ _ _ _ _ H1 H2 H3 Hrun) as [_ [(_ & -> & _)|(_ & -> & _)]]. Qed.
End Agents.

(** ** The hosted mode *)
Section Hosted.
Context (ns : string).
Notation ours := (ps_Ref (HostedStrategy ns)).
Notation config := (ps_Configs (HostedStrategy ns)).

Lemma add_to_placements_none l : Forall (fun pl => ps_Ref pl <> ours) l -> add_to_placements ns l = None.
Proof. induction 1 as [|pl l Hpl Hl IH]; [done|]. cbn [add_to_placements]. rewrite bool_decide_eq_false_2 by done. cbn [negb]. by rewrite IH. Qed.

Lemma add_to_placements_at pre cfgs post : Forall (fun pl => ps_Ref pl <> ours) pre ->
  add_to_placements ns (pre ++ MkStrategy ours cfgs :: post) =
  Some (negb (bool_decide (cfgs = config)),
        pre ++ MkStrategy ours (if bool_decide (cfgs = config) then cfgs else cfgs ++ config) :: post).
Proof.
  induction 1 as [|pl l Hpl Hl IH]; cbn [app add_to_placements].
  - rewrite bool_decide_eq_true_2 by done. cbn [negb ps_Configs ps_Ref]. by case_bool_decide.
  - rewrite bool_decide_eq_false_2 by done. cbn [negb]. by rewrite IH.
Qed.

(** The hosted mode can be taken back: for an add-on without a placement of
    the global hub, adding the configuration of the hosted mode and removing it
    gives the placements that were there, and adding it twice changes nothing
    after the first time. *)
Theorem hosted_mode_can_be_taken_back placements (Hours : Forall (fun pl => ps_Ref pl <> ours) placements) :
  let '(changed, added) := addAddonConfig ns placements in
  changed = true /\ remove_strategy ns added = placements /\ addAddonConfig ns added = (false, added).
Proof.
  assert (addAddonConfig ns placements = (true, placements ++ [HostedStrategy ns])) as ->.
  { unfold addAddonConfig. destruct placements; [done|]. by rewrite add_to_placements_none. }
  split; [done|]. split.
  - unfold remove_strategy. rewrite filter_app. cbn. rewrite decide_False by (intros Hne; by apply Hne). rewrite app_nil_r.
    clear -Hours. induction Hours as [|pl l Hpl Hl IH]; [done|]. rewrite filter_cons_True by done. by rewrite IH.
  - unfold addAddonConfig. destruct (placements ++ [HostedStrategy ns]) eqn:E; [by destruct placements|]. rewrite <- E.
    change (HostedStrategy ns) with (MkStrategy ours config). rewrite add_to_placements_at by done.
    by rewrite bool_decide_eq_true_2.
Qed.

(** A placement of the global hub that has another configuration grows with
    every reconciliation: the configuration of the hosted mode is appended each
    time, since the whole list is compared with it, so after any number of rounds
    it is there as many times, and every round writes the add-on. *)
Theorem hosted_config_grows_for_ever pre cfgs post n (Hpre : Forall (fun pl => ps_Ref pl <> ours) pre)
    (Hother : cfgs <> []) (Hdiff : cfgs <> config) :
  Nat.iter n (fun p => (addAddonConfig ns p).2) (pre ++ MkStrategy ours cfgs :: post) =
    pre ++ MkStrategy ours (cfgs ++ concat (replicate n config)) :: post /\
  (addAddonConfig ns (Nat.iter n (fun p => (addAddonConfig ns p).2) (pre ++ MkStrategy ours cfgs :: post))).1 = true.
Proof.
  assert (forall l, cfgs ++ concat (replicate l config) <> config) as Hne.
  { intros [|l]; [by rewrite app_nil_r|]. intros E. apply (f_equal length) in E.
    rewrite length_app in E. cbn in E. destruct cfgs; [done|]. cbn in E. lia. }
  assert (forall l, addAddonConfig ns (pre ++ MkStrategy ours (cfgs ++ concat (replicate l config)) :: post) =
    (true, pre ++ MkStrategy ours (cfgs ++ concat (replicate (S l) config)) :: post)) as Hstep.
  { intros l. unfold addAddonConfig. destruct (pre ++ _) eqn:E; [by destruct pre|]. rewrite <- E.
    rewrite add_to_placements_at, bool_decide_eq_false_2 by done. cbn [negb].
    rewrite replicate_S_end, concat_app. cbn [concat]. by rewrite app_nil_r, app_assoc. }
  assert (Nat.iter n (fun p => (addAddonConfig ns p).2) (pre ++ MkStrategy ours cfgs :: post) =
    pre ++ MkStrategy ours (cfgs ++ concat (replicate n config)) :: post) as E.
  { induction n as [|n IH]; [by rewrite app_nil_r|]. rewrite Nat.iter_succ, IH, Hstep. done. }
  split; [exact E|]. by rewrite E, Hstep.
Qed.
End Hosted.

(** ** An operator with two hubs

    The first hub is new; the second keeps an add-on that was made before. *)
Module Sample.
Import KafkaAccessFacts.Sample.

Definition cluster1 : HubCluster := MkHubCluster "hub1" {["vendor" := "OpenShift"]} ∅ false.
Definition cluster2 : HubCluster := MkHubCluster "hub2" {[GHAgentDeployModeLabelKey := "None"]} ∅ false.
Definition addons : ManagementAddOn := MkManagementAddOn GHClusterManagementAddonName "uid" [] [] false.
Definition addon2 : AddOn :=
  MkAddOn ("hub2", GHManagedClusterAddonName) {[GlobalHubOwnerLabelKey := GHOperatorOwnerLabelVal]} ∅ GHAgentNamespace
    [(GHClusterManagementAddonName, "uid")] ["pre-delete"] false.
Definition operator (deleting : bool) : kstore (K := op_kind) := fun k =>
  match k with
  | KGlobalHub => {[gh_Key operand := MkGlobalHub (gh_Key operand) ∅ deleting false "gh-spec" "gh-status.*"]}
  | KHubCluster => {[("", "hub1") := cluster1; ("", "hub2") := cluster2]}
  | KManagementAddOn => {[("", GHClusterManagementAddonName) := addons]}
  | KAddOn => {[ad_Key addon2 := addon2]}
  | KUser => {[ku_Key hub2_user := hub2_user]}
  | _ => ∅
  end.
Definition the_hub (deleting : bool) : GlobalHub := MkGlobalHub (gh_Key operand) ∅ deleting false "gh-spec" "gh-status.*".
Definition strimzi : Transporter (kstore (K := op_kind)) := strimzi_transporter kafka conf.
Definition laws : TransporterLaws _ strimzi := strimzi_laws kafka conf spec_valid status_pattern.

Lemma reconciled_cluster_has_what_belongs_there_witness :
  exists removed' w', default_Reconcile (Some strimzi) "hub1" true (operator false) = ((0, None), (removed', w')) /\
    installed strimzi (TransporterLaws0 := laws) w' cluster1 addons.
Proof.
  assert (klist (operator false) KGlobalHub = Ok [the_hub false : kobj KGlobalHub]) as Hm by (vm_compute; reflexivity).
  assert (kobjects (operator false) KManagementAddOn !! ("", GHClusterManagementAddonName) = Some (addons : kobj KManagementAddOn)) as Ha
    by (vm_compute; reflexivity).
  assert (kobjects (operator false) KHubCluster !! ("", "hub1") = Some (cluster1 : kobj KHubCluster)) as Hc by (vm_compute; reflexivity).
  destruct (default_Reconcile (Some strimzi) "hub1" true (operator false)) as [[secs err] [removed' w']] eqn:E.
  assert ((secs, err) = (0, None)) as [= -> ->] by (change (secs, err) with (secs, err, (removed', w')).1; rewrite <- E; vm_compute; reflexivity).
  destruct (reconciled_cluster_has_what_belongs_there strimzi (TransporterLaws0 := laws) "hub1" (the_hub false) addons cluster1
    true removed' (operator false) w' Hm eq_refl eq_refl Ha eq_refl Hc kstore_responsive E) as (_ & _ & H).
  exists removed', w'. split; [reflexivity|]. change (decide_agent (the_hub false) cluster1) with Install in H.
  destruct H as [H|[(old & Hold & _) _]]; [exact H|]. exfalso. vm_compute in Hold. discriminate Hold.
Defined.

Lemma agents_are_removed_before_it_is_said_witness :
  exists w', default_Reconcile (Some strimzi) "hub2" false (operator true) = ((5, None), (false, w')) /\
    forall m : kobj KManagementAddOn, kobjects w' KManagementAddOn !! ("", GHClusterManagementAddonName) = Some m -> ma_Deleting m = true.
Proof.
  assert (forall d, klist (operator d) KGlobalHub = Ok [the_hub d : kobj KGlobalHub]) as Hm by (intros []; vm_compute; reflexivity).
  destruct (default_Reconcile (Some strimzi) "hub2" initialGlobalhubAgentRemoved (operator false)) as [r0 [removed w0']] eqn:E0.
  assert (removed = false) as -> by (by eapply (live_operand_clears_the_flag _ _ _ _ _ _ _ _ (Hm false))).
  destruct (default_Reconcile (Some strimzi) "hub2" false (operator true)) as [[secs err] [removed' w']] eqn:E.
  assert ((secs, err, removed') = (5, None, false)) as [= -> -> ->].
  { change (secs, err, removed') with ((fun x => (x.1, x.2.1)) (secs, err, (removed', w'))). rewrite <- E. vm_compute. reflexivity. }
  destruct (agents_are_removed_before_it_is_said (Some strimzi) "hub2" "hub2" (the_hub true) (the_hub false) initialGlobalhubAgentRemoved
    false r0 _ _ (operator false) w0' (operator true) w' (Hm false) eq_refl eq_refl E0 (Hm true) eq_refl eq_refl E) as [H _].
  exists w'. split; [reflexivity|exact H].
Defined.

Definition elsewhere : PlacementStrategy := MkStrategy ("default", "all") [].

Lemma hosted_mode_can_be_taken_back_witness :
  remove_strategy "mgh" (addAddonConfig "mgh" [elsewhere]).2 = [elsewhere].
Proof.
  assert (Forall (fun pl => ps_Ref pl <> ps_Ref (HostedStrategy "mgh")) [elsewhere]) as Ho by (repeat constructor; discriminate).
  pose proof (hosted_mode_can_be_taken_back "mgh" [elsewhere] Ho) as H.
  destruct (addAddonConfig "mgh" [elsewhere]) as [changed added]. destruct H as (_ & H & _). exact H.
Defined.

Definition custom : AddOnConfig := MkAddOnConfig "addon.open-cluster-management.io" "addondeploymentconfigs" ("mgh", "mine").

Lemma hosted_config_grows_for_ever_witness :
  (addAddonConfig "mgh" (Nat.iter 3 (fun p => (addAddonConfig "mgh" p).2)
     [MkStrategy (ps_Ref (HostedStrategy "mgh")) [custom]])).1 = true.
Proof.
  refine (proj2 (hosted_config_grows_for_ever "mgh" [] [custom] [] 3 (List.Forall_nil _) _ _)); discriminate.
Defined.
End Sample.
