(* ===== verification/Migration.v ===== *)
(** * Migration of managed clusters: objects and the manager

    The objects of a migration, the client of the API servers that hold them, the
    controller of the migrations ([manager/pkg/controllers/migration_controller.go])
    and the handler that keeps the add-on configuration of a migrating cluster
    ([manager/pkg/status/handlers/managedcluster/klusterlet_addon_config_handler.go]). *)

From stdpp Require Import prelude gmap strings list.
From Stdlib Require Import ZArith Lia.
From S2P Require Import Prelude.
From S2P Require Import GoLib.
From S2P Require Import EventTypes.
From S2P Require Import Version.
From S2P Require Import CloudEvents.
From S2P Require Import Libraries.
From S2P Require Import SpecTransport.

Local Open Scope string_scope.
Local Open Scope list_scope.

(** ** Objects

    The fields that the code reads or writes; the rest of an object is its JSON. *)
Record ManagedClusterMigration := MkMigration {
  mg_Namespace : string;
  mg_Name : string;
  mg_Annotations : gmap string string;
  mg_Finalizers : list string;
  mg_Deleting : bool;
  mg_From : string;
  mg_To : string;
  mg_IncludedManagedClusters : list string;
}.
Record ManagedServiceAccount := MkMSA {
  msa_Namespace : string;
  msa_Name : string;
  msa_Labels : gmap string string;
  msa_Finalizers : list string;
  msa_Deleting : bool;
}.
Record Secret := MkSecret { se_Namespace : string; se_Name : string; se_Data : gmap string bytes }.
Record KlusterletConfig := MkKlusterletConfig { kc_Name : string; kc_Type : string; kc_KubeConfigSecrets : list string }.
Record ManagedCluster := MkCluster {
  mc_Name : string;
  mc_Annotations : gmap string string;
  mc_HubAcceptsClient : bool;
  mc_ClientURLs : list string;
  mc_Finalizers : list string;
  mc_Deleting : bool;
}.
Record KlusterletAddonConfig := MkAddonConfig {
  ac_Namespace : string;
  ac_Name : string;
  ac_ManagedFields : list string;
  ac_Finalizers : list string;
  ac_OwnerReferences : list string;
  ac_SelfLink : string;
  ac_ResourceVersion : string;
  ac_Generation : Z;
  ac_Status : string;
  ac_Rest : string;
}.
Record RegistrationHubConfiguration := MkRegistration {
  FeatureGates : list (string * string);   (** feature and mode *)
  AutoApproveUsers : list string;
}.
Record ClusterManager := MkManager { cm_Name : string; RegistrationConfiguration : option RegistrationHubConfiguration; cm_Rest : string }.
Record ClusterRole := MkRole { cr_Name : string; cr_Rules : list (list string * list string * list string) }.
Record ClusterRoleBinding := MkBinding {
  crb_Name : string;
  crb_Subjects : list (string * string * string);   (** kind, name, namespace *)
  crb_RoleRef : string * string * string;            (** kind, name, API group *)
}.

Inductive kind :=
| KMigration | KServiceAccount | KSecret | KKlusterletConfig | KCluster | KAddonConfig | KClusterManager | KRole | KBinding.
#[export] Instance kind_eq_dec : EqDecision kind.
Proof. solve_decision. Defined.

Definition obj (k : kind) : Type :=
  match k with
  | KMigration => ManagedClusterMigration
  | KServiceAccount => ManagedServiceAccount
  | KSecret => Secret
  | KKlusterletConfig => KlusterletConfig
  | KCluster => ManagedCluster
  | KAddonConfig => KlusterletAddonConfig
  | KClusterManager => ClusterManager
  | KRole => ClusterRole
  | KBinding => ClusterRoleBinding
  end.

(** Namespace and name; the cluster-scoped kinds have no namespace. *)
Definition obj_name (k : kind) : obj k -> string * string :=
  match k with
  | KMigration => fun o => (mg_Namespace o, mg_Name o)
  | KServiceAccount => fun o => (msa_Namespace o, msa_Name o)
  | KSecret => fun o => (se_Namespace o, se_Name o)
  | KKlusterletConfig => fun o => ("", kc_Name o)
  | KCluster => fun o => ("", mc_Name o)
  | KAddonConfig => fun o => (ac_Namespace o, ac_Name o)
  | KClusterManager => fun o => ("", cm_Name o)
  | KRole => fun o => ("", cr_Name o)
  | KBinding => fun o => ("", crb_Name o)
  end.

(** ** The client of an API server *)
Inductive got (A : Type) := Got (a : A) | GotNotFound | GotError (e : goerror).
Arguments Got {A}. Arguments GotNotFound {A}. Arguments GotError {A}.

Class ObjectClient (W : Type) := {
  oget : W -> forall k, string -> string -> got (obj k);
  ocreate : W -> forall k, obj k -> option goerror * W;
  oupdate : W -> forall k, obj k -> option goerror * W;
  odelete : W -> forall k, obj k -> option goerror * W;
  olist_migrations : W -> string -> result (list ManagedClusterMigration);
}.

(** The events, and the JSON of what they and the annotation hold. *)
Record MigrationFromEvent := MkFromEvent {
  mf_ManagedClusters : list string;
  mf_BootstrapSecret : option Secret;
  mf_KlusterletConfig : option KlusterletConfig;
}.
Record MigrationToEvent := MkToEvent {
  mt_ServiceAccountName : string;
  mt_InstallNamespace : string;
  mt_KlusterletAddonConfig : option KlusterletAddonConfig;
}.

(** The kubeconfig of one cluster and one user. *)
Record KubeConfig := MkKubeConfig { kube_Cluster : string; kube_Server : string; kube_CA : bytes; kube_Token : bytes }.

(** [string] of a byte slice and back are a change of type in Go. *)
Class MigrationCodec := {
  marshal_from : MigrationFromEvent -> result bytes;
  unmarshal_from : bytes -> result MigrationFromEvent;
  marshal_to : MigrationToEvent -> result bytes;
  unmarshal_to : bytes -> result MigrationToEvent;
  marshal_addon : KlusterletAddonConfig -> result bytes;
  unmarshal_addon : bytes -> result KlusterletAddonConfig;
  string_of : bytes -> string;
  bytes_of : string -> bytes;
  write_kubeconfig : KubeConfig -> result bytes;       (** [clientcmd.Write] *)
}.

(** The rows of the managed clusters, each scanned on its own. *)
Class ClusterRows (D : Type) := { cluster_rows : D -> list string -> result (list (result (string * string))) }.

(** The order in which a map of hubs is ranged over. *)
Class RangeHubs := { range_hubs : gmap string (list string) -> list (string * list string) }.
Class RangeHubsLaws `{RangeHubs} : Prop := { range_hubs_all m : range_hubs m ≡ₚ map_to_list m }.

Definition KlusterletAddonConfigAnnotation : string := "global-hub.open-cluster-management.io/klusterlet-addon-config".
Definition ManagedClusterMigrationFinalizer : string := "global-hub.open-cluster-management.io/migration-cleanup".
Definition ManagedClusterMigrating : string := "global-hub.open-cluster-management.io/migrating".
Definition klusterletConfigAnnotation : string := "agent.open-cluster-management.io/klusterlet-config".
Definition msaInstallNamespaceAnnotation : string :=
  "global-hub.open-cluster-management.io/managed-serviceaccount-install-namespace".
Definition klusterletConfigNamePrefix : string := "migration-".
Definition bootstrapSecretNamePrefix : string := "bootstrap-".

(** [strings.ToLower(constants.ManagedClusterMigrationKind)] *)
Definition migration_owner : string := "managedclustermigration".

Definition set_finalizers_mg (m : ManagedClusterMigration) (fs : list string) : ManagedClusterMigration :=
  MkMigration (mg_Namespace m) (mg_Name m) (mg_Annotations m) fs (mg_Deleting m) (mg_From m) (mg_To m)
    (mg_IncludedManagedClusters m).
Definition set_annotations_mg (m : ManagedClusterMigration) (a : gmap string string) : ManagedClusterMigration :=
  MkMigration (mg_Namespace m) (mg_Name m) a (mg_Finalizers m) (mg_Deleting m) (mg_From m) (mg_To m)
    (mg_IncludedManagedClusters m).

(** ** [migration_controller.go] *)
Section Controller.
Context {W D P Event : Type} `{ObjectClient W} `{ClusterRows D} `{EventSDK Event} `{Producer P Event}.
Context `{MigrationCodec} `{RangeHubs}.

(** The default namespace, and the mode of the import of clusters. *)
Context (defaultNamespace : string) (importClusterInHosted : bool).

Definition generateKlusterletConfig (reqNamespace : string) : KlusterletConfig :=
  MkKlusterletConfig (klusterletConfigNamePrefix +:+ reqNamespace) "LocalSecrets"
    [bootstrapSecretNamePrefix +:+ reqNamespace].

Definition generateBootstrapSecret (kubeconfig : KubeConfig) (reqNamespace : string) : result Secret :=
  let? kubeconfigBytes := write_kubeconfig kubeconfig in
  Ok (MkSecret "multicluster-engine" (bootstrapSecretNamePrefix +:+ reqNamespace) {["kubeconfig" := kubeconfigBytes]}).

(** The first URL of a cluster without any is out of range. *)
Definition generateKubeconfig (reqNamespace reqName : string) (w : W) : outcome (result KubeConfig) :=
  match oget w KSecret reqNamespace reqName with
  | GotNotFound => Ret (Err "secret not found")
  | GotError e => Ret (Err e)
  | Got desiredSecret =>
      match oget w KCluster "" reqNamespace with
      | GotNotFound => Ret (Err "managed cluster not found")
      | GotError e => Ret (Err e)
      | Got managedcluster =>
          let! url := slice_get (mc_ClientURLs managedcluster) 0 in
          Ret (Ok (MkKubeConfig reqNamespace url (default [] (se_Data desiredSecret !! "ca.crt"))
                     (default [] (se_Data desiredSecret !! "token"))))
      end
  end.

Definition ensureManagedServiceAccount (m : ManagedClusterMigration) (w : W) : option goerror * W :=
  match oget w KServiceAccount (mg_To m) (mg_Name m) with
  | GotNotFound => ocreate w KServiceAccount (MkMSA (mg_To m) (mg_Name m) {["owner" := migration_owner]} [] false)
  | GotError e => (Some e, w)
  | Got _ => (None, w)
  end.

Definition deleteManagedServiceAccount (m : ManagedClusterMigration) (w : W) : option goerror * W :=
  match oget w KServiceAccount (mg_To m) (mg_Name m) with
  | GotNotFound => (None, w)
  | GotError e => (Some e, w)
  | Got msa => odelete w KServiceAccount msa
  end.

Definition syncMigrationFrom (BootstrapSecret : option Secret) (fromHub : string) (managedClusters : list string)
    (klusterletConfig : KlusterletConfig) (pr : P) : option goerror * P :=
  match marshal_from (MkFromEvent managedClusters BootstrapSecret (Some klusterletConfig)) with
  | Err e => (Some ("failed to marshal managed cluster migration from event - " +:+ e), pr)
  | Ok payloadBytes =>
      match SendEvent pr "" (utils_ToCloudEvent (Event := Event) CloudEventTypeMigrationFrom CloudEventSourceGlobalHub
                               fromHub payloadBytes) with
      | (Some e, pr') => (Some ("failed to sync managedclustermigration event - " +:+ e), pr')
      | (None, pr') => (None, pr')
      end
  end.

Definition msa_namespace (m : ManagedClusterMigration) : string :=
  match mg_Annotations m !! msaInstallNamespaceAnnotation with
  | Some v => v
  | None => if importClusterInHosted then "open-cluster-management-global-hub-agent-addon"
            else "open-cluster-management-agent-addon"
  end.

Definition syncMigrationTo (m : ManagedClusterMigration) (pr : P) : option goerror * P :=
  let addon := match mg_Annotations m !! KlusterletAddonConfigAnnotation with
               | None => Ok None
               | Some s => let? c := unmarshal_addon (bytes_of s) in Ok (Some c)
               end in
  match addon with
  | Err e => (Some e, pr)
  | Ok klusterletAddonConfig =>
      match marshal_to (MkToEvent (mg_Name m) (msa_namespace m) klusterletAddonConfig) with
      | Err e => (Some ("failed to marshal managed cluster migration to event - " +:+ e), pr)
      | Ok payloadToBytes =>
          match SendEvent pr "" (utils_ToCloudEvent (Event := Event) CloudEventTypeMigrationTo CloudEventSourceGlobalHub
                                   (mg_To m) payloadToBytes) with
          | (Some e, pr') => (Some ("failed to sync managedclustermigration event - " +:+ e), pr')
          | (None, pr') => (None, pr')
          end
      end
  end.

(** The clusters of each hub, in the order of the rows. *)
Fixpoint group_clusters (rows : list (result (string * string))) (acc : gmap string (list string))
    : result (gmap string (list string)) :=
  match rows with
  | [] => Ok acc
  | Err e :: _ => Err ("failed to scan leaf hub name and managed cluster name - " +:+ e)
  | Ok (leafHubName, managedClusterName) :: rest =>
      group_clusters rest (<[leafHubName := default [] (acc !! leafHubName) ++ [managedClusterName]]> acc)
  end.

Fixpoint sync_from_hubs (secret : option Secret) (config : KlusterletConfig) (hubs : list (string * list string))
    (pr : P) : option goerror * P :=
  match hubs with
  | [] => (None, pr)
  | (leafHubName, managedClusters) :: rest =>
      match syncMigrationFrom secret leafHubName managedClusters config pr with
      | (Some e, pr') => (Some e, pr')
      | (None, pr') => sync_from_hubs secret config rest pr'
      end
  end.

Definition syncMigration (secret : option Secret) (m : ManagedClusterMigration) (config : KlusterletConfig) (d : D)
    (pr : P) : option goerror * P :=
  let '(err, pr1) :=
    if negb (String.eqb (mg_From m) "")
    then syncMigrationFrom secret (mg_From m) (mg_IncludedManagedClusters m) config pr
    else
      match cluster_rows d (mg_IncludedManagedClusters m) with
      | Err e => (Some ("failed to get leaf hub name and managed clusters - " +:+ e), pr)
      | Ok rows =>
          match group_clusters rows ∅ with
          | Err e => (Some e, pr)
          | Ok managedClusterMap => sync_from_hubs secret config (range_hubs managedClusterMap) pr
          end
      end in
  match err with
  | Some e => (Some e, pr1)
  | None => syncMigrationTo m pr1
  end.

(** What the controller keeps: its bootstrap secret. The result of a
    reconciliation is whether to requeue and the error. *)
Definition reconciled : Type := (bool * option goerror) * (option Secret * W * P).

(** A request in the default namespace is a migration. *)
Definition reconcile_migration (name : string) (secret : option Secret) (w : W) (pr : P) : reconciled :=
  match oget w KMigration defaultNamespace name with
  | GotNotFound => ((false, None), (secret, w, pr))
  | GotError e => ((false, Some e), (secret, w, pr))
  | Got m =>
      let has_finalizer := existsb (String.eqb ManagedClusterMigrationFinalizer) (mg_Finalizers m) in
      if negb (mg_Deleting m) then
        if negb has_finalizer then
          let '(err, w') := oupdate w KMigration
            (set_finalizers_mg m (mg_Finalizers m ++ [ManagedClusterMigrationFinalizer])) in
          ((false, err), (secret, w', pr))
        else
          match ensureManagedServiceAccount m w with
          | (Some e, w') => ((false, Some e), (secret, w', pr))
          | (None, w') => let '(err, pr') := syncMigrationTo m pr in ((false, err), (secret, w', pr'))
          end
      else if has_finalizer then
        match deleteManagedServiceAccount m w with
        | (Some e, w') => ((false, Some e), (secret, w', pr))
        | (None, w') =>
            let '(err, w'') := oupdate w' KMigration
              (set_finalizers_mg m (filter (fun f => f <> ManagedClusterMigrationFinalizer) (mg_Finalizers m))) in
            ((false, err), (secret, w'', pr))
        end
      else ((false, None), (secret, w, pr))
  end.

(** A request in the namespace of a hub is the service account of a migration,
    or its secret. *)
Definition reconcile_secret (ns name : string) (secret : option Secret) (d : D) (w : W) (pr : P) : outcome reconciled :=
  match oget w KServiceAccount ns name with
  | GotNotFound => Ret ((false, None), (secret, w, pr))
  | GotError e => Ret ((false, Some e), (secret, w, pr))
  | Got msa =>
      if negb (String.eqb (default "" (msa_Labels msa !! "owner")) migration_owner) then
        Ret ((false, None), (secret, w, pr))
      else
        match oget w KSecret ns name with
        | GotNotFound => Ret ((true, None), (secret, w, pr))
        | GotError e => Ret ((false, Some e), (secret, w, pr))
        | Got _ =>
            let! kubeconfig := generateKubeconfig ns name w in
            match kubeconfig with
            | Err e => Ret ((false, Some e), (secret, w, pr))
            | Ok kubeconfig =>
                match generateBootstrapSecret kubeconfig ns with
                | Err e => Ret ((false, Some e), (None, w, pr))
                | Ok s =>
                    match oget w KMigration defaultNamespace name with
                    | GotNotFound => Ret ((false, Some "migration not found"), (Some s, w, pr))
                    | GotError e => Ret ((false, Some e), (Some s, w, pr))
                    | Got m =>
                        let '(err, pr') := syncMigration (Some s) m (generateKlusterletConfig ns) d pr in
                        Ret ((false, err), (Some s, w, pr'))
                    end
                end
            end
        end
  end.

Definition mg_Reconcile (ns name : string) (secret : option Secret) (d : D) (w : W) (pr : P) : outcome reconciled :=
  if String.eqb ns defaultNamespace then Ret (reconcile_migration name secret w pr)
  else reconcile_secret ns name secret d w pr.

(** *** The watches

    Every migration is a request; a service account is one for the migration of its
    name, when it goes; a secret is one under its own name. *)
Definition msa_request (msa : ManagedServiceAccount) : string * string := (defaultNamespace, msa_Name msa).
Definition msa_deletion_passes (msa : ManagedServiceAccount) (DeleteStateUnknown : bool) : bool :=
  match msa_Labels msa !! "owner" with
  | Some value => if String.eqb value migration_owner then negb DeleteStateUnknown else false
  | None => false
  end.
Definition secret_creation_passes (labels : gmap string string) : bool :=
  String.eqb (default "" (labels !! "authentication.open-cluster-management.io/is-managed-serviceaccount")) "true".
Definition secret_update_passes (oldVersion newVersion : string) (labels : gmap string string) : bool :=
  if String.eqb (default "" (labels !! "authentication.open-cluster-management.io/is-managed-serviceaccount")) "true"
  then negb (String.eqb oldVersion newVersion) else false.

(** ** [klusterlet_addon_config_handler.go] *)
Definition handleKlusterletAddonConfigEvent (evt : Event) (w : W) : option goerror * W :=
  match unmarshal_addon (Data evt) with
  | Err e => (Some e, w)
  | Ok klusterletAddonConfig =>
      match marshal_addon klusterletAddonConfig with
      | Err e => (Some e, w)
      | Ok data =>
          match olist_migrations w defaultNamespace with
          | Err e => (Some e, w)
          | Ok [] => (None, w)
          | Ok (m :: _) =>
              oupdate w KMigration (set_annotations_mg m
                (<[KlusterletAddonConfigAnnotation := string_of data]> (mg_Annotations m)))
          end
      end
  end.
End Controller.

(** ** Migration of managed clusters: the agents

    The syncers of the hub that clusters leave
    ([agent/pkg/spec/syncers/migration_from_syncer.go]) and of the hub they go to
    ([agent/pkg/spec/syncers/migration_to_syncer.go]). *)

Definition set_annotations_mc (c : ManagedCluster) (a : gmap string string) : ManagedCluster :=
  MkCluster (mc_Name c) a (mc_HubAcceptsClient c) (mc_ClientURLs c) (mc_Finalizers c) (mc_Deleting c).
Definition set_accepts (c : ManagedCluster) (b : bool) : ManagedCluster :=
  MkCluster (mc_Name c) (mc_Annotations c) b (mc_ClientURLs c) (mc_Finalizers c) (mc_Deleting c).

(** ** [migration_from_syncer.go] *)
Section From.
Context {W P Event : Type} `{ObjectClient W} `{EventSDK Event} `{Producer P Event} `{MigrationCodec}.

(** Whether there is a client of the transport, and what happens to the server
    while the syncer sleeps. *)
Context (hasTransport : bool) (sleep : W -> W).

(** The cleanup before the configuration is sent. *)
Definition clean_addon (c : KlusterletAddonConfig) : KlusterletAddonConfig :=
  MkAddonConfig (ac_Namespace c) (ac_Name c) [] [] [] "" "" 0 "" (ac_Rest c).

Definition addon_event (payloadBytes : bytes) : Event :=
  let e := SetExtension ExtVersion (ExtString (Version_String (Incr NewVersion)))
             (SetSource CloudEventSourceGlobalHub (SetType KlusterletAddonConfigType NewEvent)) in
  match SetData payloadBytes e with Ok e' => e' | Err _ => e end.

Definition sendKlusterletAddonConfig (managedCluster : string) (w : W) (pr : P) : option goerror * P :=
  match oget w KAddonConfig managedCluster managedCluster with
  | GotNotFound => (None, pr)
  | GotError e => (Some e, pr)
  | Got config =>
      match marshal_addon (clean_addon config) with
      | Err e => (Some ("failed to marshal klusterletAddonConfig - " +:+ e), pr)
      | Ok payloadBytes =>
          if hasTransport then
            match SendEvent pr "" (addon_event payloadBytes) with
            | (Some e, pr') => (Some ("failed to send klusterletAddonConfig back to the global hub, due to " +:+ e), pr')
            | (None, pr') => (None, pr')
            end
          else (None, pr)
      end
  end.

Fixpoint send_configs (managedClusters : list string) (w : W) (pr : P) : option goerror * P :=
  match managedClusters with
  | [] => (None, pr)
  | c :: rest =>
      match sendKlusterletAddonConfig c w pr with
      | (Some e, pr') => (Some e, pr')
      | (None, pr') => send_configs rest w pr'
      end
  end.

Definition apply_secret (s : Secret) (w : W) : option goerror * W :=
  match oget w KSecret (se_Namespace s) (se_Name s) with
  | GotNotFound => ocreate w KSecret s
  | GotError e => (Some e, w)
  | Got _ => oupdate w KSecret s
  end.

Definition apply_config (c : KlusterletConfig) (w : W) : option goerror * W :=
  match oget w KKlusterletConfig "" (kc_Name c) with
  | GotNotFound => ocreate w KKlusterletConfig c
  | GotError e => (Some e, w)
  | Got _ => (None, w)
  end.

(** One cluster of the first loop. *)
Definition annotate_cluster (configName c : string) (w : W) : option goerror * W :=
  match oget w KCluster "" c with
  | GotNotFound => (Some ("managed cluster not found: " +:+ c), w)
  | GotError e => (Some e, w)
  | Got mc =>
      let annotations := mc_Annotations mc in
      let migrating := bool_decide (is_Some (annotations !! ManagedClusterMigrating)) in
      if migrating && String.eqb (default "" (annotations !! klusterletConfigAnnotation)) configName then (None, w)
      else oupdate w KCluster (set_annotations_mc mc
             (<[ManagedClusterMigrating := ""]> (<[klusterletConfigAnnotation := configName]> annotations)))
  end.

(** One cluster of the second loop. *)
Definition refuse_cluster (c : string) (w : W) : option goerror * W :=
  match oget w KCluster "" c with
  | GotNotFound => (Some ("managed cluster not found: " +:+ c), w)
  | GotError e => (Some e, w)
  | Got mc => oupdate w KCluster (set_accepts mc false)
  end.

(** One cluster of [detachManagedClusters]. *)
Definition detach_cluster (c : string) (w : W) : option goerror * W :=
  match oget w KCluster "" c with
  | GotNotFound => (None, w)
  | GotError e => (Some e, w)
  | Got mc => if negb (mc_HubAcceptsClient mc) then odelete w KCluster mc else (None, w)
  end.

Fixpoint each_cluster (step : string -> W -> option goerror * W) (managedClusters : list string) (w : W)
    : option goerror * W :=
  match managedClusters with
  | [] => (None, w)
  | c :: rest =>
      match step c w with
      | (Some e, w') => (Some e, w')
      | (None, w') => each_cluster step rest w'
      end
  end.

Definition detachManagedClusters (managedClusters : list string) (w : W) : option goerror * W :=
  each_cluster detach_cluster managedClusters w.

(** A missing secret or configuration is a nil pointer. *)
Definition mf_Sync (payload : bytes) (w : W) (pr : P) : outcome (option goerror * W * P) :=
  match unmarshal_from payload with
  | Err e => Ret (Some e, w, pr)
  | Ok evt =>
      match mf_BootstrapSecret evt, mf_KlusterletConfig evt with
      | Some bootstrapSecret, kc =>
          match apply_secret bootstrapSecret w with
          | (Some e, w1) => Ret (Some e, w1, pr)
          | (None, w1) =>
              match kc with
              | None => Panic
              | Some kc =>
                  let klusterletConfig := MkKlusterletConfig (kc_Name kc) (kc_Type kc) [se_Name bootstrapSecret] in
                  match apply_config klusterletConfig w1 with
                  | (Some e, w2) => Ret (Some e, w2, pr)
                  | (None, w2) =>
                      let managedClusters := mf_ManagedClusters evt in
                      match each_cluster (annotate_cluster (kc_Name klusterletConfig)) managedClusters w2 with
                      | (Some e, w3) => Ret (Some e, w3, pr)
                      | (None, w3) =>
                          match send_configs managedClusters w3 pr with
                          | (Some e, pr1) => Ret (Some e, w3, pr1)
                          | (None, pr1) =>
                              match each_cluster refuse_cluster managedClusters (sleep w3) with
                              | (Some e, w4) => Ret (Some e, w4, pr1)
                              | (None, w4) =>
                                  let '(err, w5) := detachManagedClusters managedClusters (sleep w4) in
                                  Ret (err, w5, pr1)
                              end
                          end
                      end
                  end
              end
          end
      | None, _ => Panic
      end
  end.
End From.

(** ** [migration_to_syncer.go] *)
Section To.
Context {W : Type} `{ObjectClient W} `{MigrationCodec} `{Retrier} `{Poller}.

(** [DeepDerivative] of the roles and of the bindings: the fields that are set in
    the first object. *)
Context (role_covered : ClusterRole -> ClusterRole -> bool) (binding_covered : ClusterRoleBinding -> ClusterRoleBinding -> bool).

Definition AutoApproval : string := "ManagedClusterAutoApproval".
Definition FeatureGateEnable : string := "Enable".

(** The loop over the feature gates, which stops at the feature: whether it is
    there, whether its mode was changed, and the gates. *)
Fixpoint enable_feature (gates : list (string * string)) : bool * bool * list (string * string) :=
  match gates with
  | [] => (false, false, [])
  | (feature, mode) :: rest =>
      if String.eqb feature AutoApproval then
        if String.eqb mode FeatureGateEnable then (true, false, gates)
        else (true, true, (feature, FeatureGateEnable) :: rest)
      else let '(found, changed, rest') := enable_feature rest in (found, changed, (feature, mode) :: rest')
  end.

(** The registration that approves the user, and whether it changed. *)
Definition approve (user : string) (r : option RegistrationHubConfiguration) : bool * RegistrationHubConfiguration :=
  match r with
  | Some r =>
      let '(found, changed, gates) := enable_feature (FeatureGates r) in
      let gates' := if found then gates else gates ++ [(AutoApproval, FeatureGateEnable)] in
      let added := existsb (String.eqb user) (AutoApproveUsers r) in
      let users := if added then AutoApproveUsers r else AutoApproveUsers r ++ [user] in
      (changed || negb found || negb added, MkRegistration gates' users)
  | None => (true, MkRegistration [(AutoApproval, FeatureGateEnable)] [user])
  end.

Definition autoApproveUser (msaName msaNamespace : string) : string :=
  "system:serviceaccount:" +:+ msaNamespace +:+ ":" +:+ msaName.

(** The error of the update is only logged. *)
Definition ensureClusterManager (msaName msaNamespace : string) (w : W) : option goerror * W :=
  match oget w KClusterManager "" "cluster-manager" with
  | GotNotFound => (Some "cluster-manager not found", w)
  | GotError e => (Some e, w)
  | Got found =>
      let '(changed, r) := approve (autoApproveUser msaName msaNamespace) (RegistrationConfiguration found) in
      if changed then
        let '(_, w') := retry_on_conflict
          (fun w => oupdate w KClusterManager (MkManager (cm_Name found) (Some r) (cm_Rest found))) w in
        (None, w')
      else (None, w)
  end.

(** The common part of the three functions that follow: create the object, or
    update it when it differs; the error of the update is only logged. *)
Definition ensure_object (k : kind) (covered : obj k -> obj k -> bool) (o : obj k) (w : W) : option goerror * W :=
  let '(ns, name) := obj_name k o in
  match oget w k ns name with
  | GotNotFound => ocreate w k o
  | GotError e => (Some e, w)
  | Got found =>
      if negb (covered o found) then
        let '(_, w') := retry_on_conflict (fun w => oupdate w k o) w in (None, w')
      else (None, w)
  end.

Definition migration_role (msaName : string) : ClusterRole :=
  MkRole ("multicluster-global-hub-migration:" +:+ msaName)
    [(["authorization.k8s.io"], ["subjectaccessreviews"], ["create"])].
Definition registration_binding (msaName msaNamespace : string) : ClusterRoleBinding :=
  MkBinding ("agent-registration-clusterrolebinding:" +:+ msaName) [("ServiceAccount", msaName, msaNamespace)]
    ("ClusterRole", "open-cluster-management:managedcluster:bootstrap:agent-registration", "rbac.authorization.k8s.io").
Definition sar_binding (msaName msaNamespace : string) : ClusterRoleBinding :=
  MkBinding (msaName +:+ "-subjectaccessreviews-clusterrolebinding") [("ServiceAccount", msaName, msaNamespace)]
    ("ClusterRole", "multicluster-global-hub-migration:" +:+ msaName, "rbac.authorization.k8s.io").

Definition ensureMigrationClusterRole (msaName : string) (w : W) : option goerror * W :=
  ensure_object KRole role_covered (migration_role msaName) w.
Definition ensureRegistrationClusterRoleBinding (msaName msaNamespace : string) (w : W) : option goerror * W :=
  ensure_object KBinding binding_covered (registration_binding msaName msaNamespace) w.
Definition ensureSARClusterRoleBinding (msaName msaNamespace : string) (w : W) : option goerror * W :=
  ensure_object KBinding binding_covered (sar_binding msaName msaNamespace) w.

Definition create_attempt (c : KlusterletAddonConfig) (w : W) : bool * option goerror * W :=
  match ocreate w KAddonConfig c with
  | (Some _, w') => (false, None, w')
  | (None, w') => (true, None, w')
  end.

Definition mt_Sync (payload : bytes) (w : W) : option goerror * W :=
  match unmarshal_to payload with
  | Err e => (Some e, w)
  | Ok evt =>
      let msaName := mt_ServiceAccountName evt in
      let msaNamespace := mt_InstallNamespace evt in
      match ensureClusterManager msaName msaNamespace w with
      | (Some e, w1) => (Some e, w1)
      | (None, w1) =>
          match ensureMigrationClusterRole msaName w1 with
          | (Some e, w2) => (Some e, w2)
          | (None, w2) =>
              match ensureRegistrationClusterRoleBinding msaName msaNamespace w2 with
              | (Some e, w3) => (Some e, w3)
              | (None, w3) =>
                  match ensureSARClusterRoleBinding msaName msaNamespace w3 with
                  | (Some e, w4) => (Some e, w4)
                  | (None, w4) =>
                      match mt_KlusterletAddonConfig evt with
                      | None => (None, w4)
                      | Some c => poll (create_attempt c) w4
                      end
                  end
              end
          end
      end
  end.
End To.
