(* ===== verification/MigrationFacts.v ===== *)
(** * Properties of the migration

    What the hub that clusters leave and the hub they go to hold after the events
    of a migration, and the way of the add-on configuration of a cluster from one
    to the other through the manager. *)

From stdpp Require Import prelude gmap strings list.
From Stdlib Require Import ZArith Lia.
From S2P Require Import Prelude.
From S2P Require Import GoLib.
From S2P Require Import Version.
From S2P Require Import EventTypes.
From S2P Require Import CloudEvents.
From S2P Require Import Libraries.
From S2P Require Import SpecTransport.
From S2P Require Import Migration.
Local Open Scope string_scope.
Local Open Scope list_scope.

(** ** The server

    It sets some metadata of what is written. A deletion that is accepted removes
    an object without finalizers; one with finalizers is marked as being deleted
    and stays until they are taken away. *)
Definition obj_sim (k : kind) : obj k -> obj k -> Prop :=
  match k with
  | KAddonConfig => fun o o' =>
      ac_Namespace o' = ac_Namespace o /\ ac_Name o' = ac_Name o /\ ac_Rest o' = ac_Rest o
  | _ => eq
  end.

(** What an accepted deletion leaves of an object of a kind that the code deletes. *)
Definition deleted_kind (k : kind) : Prop := k = KCluster \/ k = KServiceAccount.
Definition left_marked (k : kind) : obj k -> option (obj k) :=
  match k with
  | KCluster => fun o => match mc_Finalizers o with
      | [] => None
      | _ => Some (MkCluster (mc_Name o) (mc_Annotations o) (mc_HubAcceptsClient o) (mc_ClientURLs o) (mc_Finalizers o) true)
      end
  | KServiceAccount => fun o => match msa_Finalizers o with
      | [] => None
      | _ => Some (MkMSA (msa_Namespace o) (msa_Name o) (msa_Labels o) (msa_Finalizers o) true)
      end
  | _ => fun _ => None
  end.

Class ObjectServer (W : Type) `{ObjectClient W} := {
  objects : W -> forall k, gmap (string * string) (obj k);
  oget_Got w k ns n o : oget w k ns n = Got o -> objects w k !! (ns, n) = Some o;
  oget_NotFound w k ns n : oget w k ns n = GotNotFound -> objects w k !! (ns, n) = None;
  ocreate_Ok w k o w' : ocreate w k o = (None, w') ->
    (exists o', obj_sim k o o' /\ objects w' k = <[obj_name k o := o']> (objects w k)) /\
    forall k', k' <> k -> objects w' k' = objects w k';
  oupdate_Ok w k o w' : oupdate w k o = (None, w') ->
    (exists o', obj_sim k o o' /\ objects w' k = <[obj_name k o := o']> (objects w k)) /\
    forall k', k' <> k -> objects w' k' = objects w k';
  odelete_Ok w k o w' : deleted_kind k -> odelete w k o = (None, w') ->
    objects w' k = partial_alter (fun x => x ≫= left_marked k) (obj_name k o) (objects w k) /\ forall k', k' <> k -> objects w' k' = objects w k';
  ocreate_Err w k o e w' : ocreate w k o = (Some e, w') -> forall k', objects w' k' = objects w k';
  oupdate_Err w k o e w' : oupdate w k o = (Some e, w') -> forall k', objects w' k' = objects w k';
  odelete_Err w k o e w' : odelete w k o = (Some e, w') -> forall k', objects w' k' = objects w k';
  ocreate_exists w k o : is_Some (objects w k !! obj_name k o) -> exists e, ocreate w k o = (Some e, w);
  olist_spec w ns l : olist_migrations w ns = Ok l ->
    forall m, m ∈ l <-> exists n, objects w KMigration !! (ns, n) = Some m;
  (** an object is stored under its own name *)
  objects_named w k ns n o : objects w k !! (ns, n) = Some o -> obj_name k o = (ns, n);
}.

(** A server that answers every call. *)
Definition answers (W : Type) `{ObjectServer W} : Prop :=
  (forall w k ns n e, oget w k ns n <> GotError e) /\
  (forall w k o, objects w k !! obj_name k o = None -> exists w', ocreate w k o = (None, w')) /\
  (forall w k o, is_Some (objects w k !! obj_name k o) -> exists w', oupdate w k o = (None, w')) /\
  (forall w k o, is_Some (objects w k !! obj_name k o) -> exists w', odelete w k o = (None, w')).

Class MigrationCodecLaws `{MigrationCodec} : Prop := {
  from_roundtrip e b : marshal_from e = Ok b -> unmarshal_from b = Ok e;
  to_roundtrip e b : marshal_to e = Ok b -> unmarshal_to b = Ok e;
  addon_roundtrip c b : marshal_addon c = Ok b -> unmarshal_addon b = Ok c;
  string_roundtrip b : bytes_of (string_of b) = b;
}.

Section From.
Context {W P Event : Type} `{ObjectServer W} `{EventLaws Event} `{!Producer P Event} `{!ProducerLog P Event} `{MigrationCodec}.
Context (hasTransport : bool) (sleep : W -> W).

Definition clusters (w : W) : gmap (string * string) ManagedCluster := objects w KCluster.

(** What a call does to the clusters. *)
Lemma update_cluster w c c' w' : oupdate w KCluster c' = (None, w') -> mc_Name c' = c ->
  clusters w' = <[("", c) := c']> (clusters w).
Proof. intros U <-. apply oupdate_Ok in U as [(o' & S & E) _]. cbn in S. subst o'. exact E. Qed.

Lemma annotate_cluster_done name c w w' : annotate_cluster name c w = (None, w') ->
  exists mc, clusters w !! ("", c) = Some mc /\
    exists mc', clusters w' = <[("", c) := mc']> (clusters w) /\ mc_HubAcceptsClient mc' = mc_HubAcceptsClient mc /\
      is_Some (mc_Annotations mc' !! ManagedClusterMigrating).
Proof.
  unfold annotate_cluster. destruct (oget w KCluster "" c) as [mc| |e] eqn:E; [|done..].
  apply oget_Got in E. pose proof (objects_named _ _ _ _ _ E) as [= En].
  case_bool_decide as Hm; cbn [andb].
  - destruct (String.eqb _ name).
    + intros [= <-]. exists mc. split; [done|]. exists mc. split; [|done]. symmetry. by apply insert_id.
    + intros U. exists mc. split; [done|]. eexists. split; [by eapply update_cluster|]. cbn.
      split; [done|]. rewrite lookup_insert_eq. eauto.
  - intros U. exists mc. split; [done|]. eexists. split; [by eapply update_cluster|]. cbn.
    split; [done|]. rewrite lookup_insert_eq. eauto.
Qed.

Lemma refuse_cluster_done c w w' : refuse_cluster c w = (None, w') ->
  exists mc', mc_HubAcceptsClient mc' = false /\ clusters w' = <[("", c) := mc']> (clusters w).
Proof.
  unfold refuse_cluster. destruct (oget w KCluster "" c) as [mc| |e] eqn:E; [|done..].
  apply oget_Got in E. pose proof (objects_named _ _ _ _ _ E) as [= En].
  intros U. exists (set_accepts mc false). split; [done|]. by eapply update_cluster.
Qed.

(** What a detached cluster is: it goes, or is being deleted until its finalizers
    are taken away. *)
Definition detached (mc : ManagedCluster) : option ManagedCluster := left_marked KCluster mc.
Lemma detached_again mc mc' : detached mc = Some mc' -> detached mc' = Some mc' /\ mc_Deleting mc' = true /\
  mc_HubAcceptsClient mc' = mc_HubAcceptsClient mc.
Proof. unfold detached. cbn. destruct (mc_Finalizers mc) as [|f fs] eqn:E; [done|]. intros [= <-]. cbn. done. Qed.

Lemma detach_cluster_done c w w' : detach_cluster c w = (None, w') ->
  (forall mc, clusters w !! ("", c) = Some mc -> mc_HubAcceptsClient mc = false) ->
  clusters w' = partial_alter (fun x => x ≫= detached) ("", c) (clusters w).
Proof.
  unfold detach_cluster. intros E Hr. destruct (oget w KCluster "" c) as [mc| |e] eqn:Eg; [| |done].
  - apply oget_Got in Eg. pose proof (objects_named _ _ _ _ _ Eg) as [= En].
    rewrite (Hr mc Eg) in E. cbn [negb] in E. apply odelete_Ok in E as [E _]; [|by left]. unfold clusters. rewrite E.
    cbn [obj_name]. by rewrite En.
  - injection E as <-. apply oget_NotFound in Eg. assert (clusters w !! ("", c) = None) as Ec by exact Eg. apply map_eq. intros x. destruct (decide (("", c) = x)) as [<-|Hne].
    + by rewrite lookup_partial_alter_eq, Ec.
    + by rewrite lookup_partial_alter_ne.
Qed.

(** A loop of steps that change the listed clusters only. *)
Lemma each_cluster_others step cs w w' x :
  (forall c w w', step c w = (None, w') -> forall x, x <> ("", c) -> clusters w' !! x = clusters w !! x) ->
  each_cluster step cs w = (None, w') -> (forall c, c ∈ cs -> x <> ("", c)) -> clusters w' !! x = clusters w !! x.
Proof.
  intros Hstep. revert w. induction cs as [|c cs IH]; intros w E Hx; cbn [each_cluster] in E; [by injection E as <-|].
  destruct (step c w) as [[e|] w1] eqn:E1; [done|]. rewrite (IH w1) by (done || set_solver).
  apply (Hstep c w w1); [done|]. apply Hx. by left.
Qed.

Lemma refuse_all cs : forall w w', each_cluster refuse_cluster cs w = (None, w') ->
  forall x mc, x ∈ cs -> clusters w' !! ("", x) = Some mc -> mc_HubAcceptsClient mc = false.
Proof.
  induction cs as [|c cs IH]; intros w w' E x mc Hx Hl; cbn [each_cluster] in E; [set_solver|].
  destruct (refuse_cluster c w) as [[e|] w1] eqn:E1; [done|].
  destruct (decide (x ∈ cs)) as [Hin|Hout]; [by eapply (IH w1)|].
  apply elem_of_cons in Hx as [->|]; [|done].
  rewrite (each_cluster_others refuse_cluster cs w1 w' ("", c)) in Hl.
  - apply refuse_cluster_done in E1 as (mc' & Hr & E1). rewrite E1, lookup_insert_eq in Hl. by injection Hl as <-.
  - intros c1 a b (mc' & _ & ->)%refuse_cluster_done y Hy. by rewrite lookup_insert_ne.
  - done.
  - intros c1 Hc1 [= ->]. done.
Qed.

Lemma detach_all cs : forall w w', each_cluster detach_cluster cs w = (None, w') ->
  (forall x mc, x ∈ cs -> clusters w !! ("", x) = Some mc -> mc_HubAcceptsClient mc = false) ->
  forall x, clusters w' !! x = if bool_decide (x ∈ pair "" <$> cs) then clusters w !! x ≫= detached else clusters w !! x.
Proof.
  induction cs as [|c cs IH]; intros w w' E Hr x; cbn [each_cluster] in E.
  - injection E as <-. done.
  - destruct (detach_cluster c w) as [[e|] w1] eqn:E1; [done|].
    apply detach_cluster_done in E1; [|intros mc; apply Hr; by left].
    rewrite (IH w1 w'); [|done|].
    + rewrite E1. cbn [fmap list_fmap]. destruct (decide (x = ("", c))) as [->|Hne].
      * rewrite lookup_partial_alter_eq, (bool_decide_eq_true_2 (_ ∈ _ :: _)) by by left.
        case_bool_decide; [|done].
        destruct (clusters w !! ("", c)) as [mc|]; [|reflexivity]. change (detached mc ≫= detached = detached mc).
        destruct (detached mc) as [mc'|] eqn:Ed; [|reflexivity]. cbn [mbind option_bind].
        by apply detached_again in Ed as [-> _].
      * rewrite lookup_partial_alter_ne by done.
        by rewrite (bool_decide_ext (x ∈ ("", c) :: (pair "" <$> cs)) (x ∈ pair "" <$> cs)) by set_solver.
    + intros y mc Hy. rewrite E1. destruct (decide (("", c) = ("", y))) as [[= ->]|Hne].
      * rewrite lookup_partial_alter_eq. intros (mc0 & Hl & Hd)%bind_Some. apply detached_again in Hd as (_ & _ & ->).
        by apply (Hr y); [left|].
      * rewrite lookup_partial_alter_ne by done. intros Hl. eapply Hr; [by right|done].
Qed.
(** The events of the configurations of some clusters. *)
Definition addons (w : W) : gmap (string * string) KlusterletAddonConfig := objects w KAddonConfig.

Lemma addons_Got w ns n (cfg : KlusterletAddonConfig) : oget w KAddonConfig ns n = Got cfg -> addons w !! (ns, n) = Some cfg.
Proof. exact (oget_Got w KAddonConfig ns n cfg). Qed.
Lemma addons_NotFound w ns n : oget w KAddonConfig ns n = GotNotFound -> addons w !! (ns, n) = None.
Proof. exact (oget_NotFound w KAddonConfig ns n). Qed.

Definition config_event (w : W) (c : string) : list Event :=
  match addons w !! (c, c) with
  | Some cfg => match marshal_addon (clean_addon cfg) with Ok b => [addon_event b] | Err _ => [] end
  | None => []
  end.

Lemma send_config_done c w pr pr' : sendKlusterletAddonConfig true c w pr = (None, pr') ->
  sent_events pr' = sent_events pr ++ config_event w c.
Proof.
  unfold sendKlusterletAddonConfig, config_event. destruct (oget w KAddonConfig c c) as [cfg| |e] eqn:E; [| |done].
  - rewrite (addons_Got _ _ _ _ E). destruct (marshal_addon (clean_addon cfg)) as [b|e]; [|done].
    destruct (SendEvent pr "" (addon_event b)) as [[e|] pr1] eqn:Es; [done|]. intros [= <-].
    by apply send_accepted in Es.
  - rewrite (addons_NotFound _ _ _ E). intros [= <-]. by rewrite app_nil_r.
Qed.

Lemma send_configs_done cs w : forall pr pr', send_configs true cs w pr = (None, pr') ->
  sent_events pr' = sent_events pr ++ (cs ≫= config_event w).
Proof.
  induction cs as [|c cs IH]; intros pr pr' E; cbn [send_configs] in E.
  - injection E as <-. by rewrite app_nil_r.
  - destruct (sendKlusterletAddonConfig true c w pr) as [[e|] pr1] eqn:E1; [done|].
    apply send_config_done in E1. rewrite (IH pr1 pr' E), E1, <- app_assoc. done.
Qed.

Lemma apply_secret_done s w w' : apply_secret s w = (None, w') ->
  objects w' KSecret !! obj_name KSecret s = Some s /\ forall k, k <> KSecret -> objects w' k = objects w k.
Proof.
  unfold apply_secret. destruct (oget w KSecret _ _); [intros U; apply oupdate_Ok in U|intros U; apply ocreate_Ok in U|done];
    destruct U as [(o & S & E) K]; cbn in S; subst o; (split; [|done]); rewrite E; apply lookup_insert_eq.
Qed.

Lemma apply_config_done c w w' : apply_config c w = (None, w') ->
  is_Some (objects w' KKlusterletConfig !! ("", kc_Name c)) /\
  forall k, k <> KKlusterletConfig -> objects w' k = objects w k.
Proof.
  unfold apply_config. destruct (oget w KKlusterletConfig _ _) as [c0| |e] eqn:E; [| |done].
  - intros [= <-]. apply oget_Got in E. split; [eauto|done].
  - intros U. apply ocreate_Ok in U as [(o & S & U) K]. cbn in S. subst o. split; [|done]. rewrite U.
    cbn [obj_name]. rewrite lookup_insert_eq. eauto.
Qed.

(** A step on a cluster keeps the other kinds. *)
Lemma annotate_cluster_kinds name c w w' k : annotate_cluster name c w = (None, w') -> k <> KCluster ->
  objects w' k = objects w k.
Proof.
  unfold annotate_cluster. destruct (oget w KCluster "" c); [|done..].
  destruct (_ && _); [by intros [= <-]|]. intros U Hk. apply oupdate_Ok in U as [_ K]. by apply K.
Qed.

Lemma annotate_all_kinds name cs k : k <> KCluster -> forall w w',
  each_cluster (annotate_cluster name) cs w = (None, w') -> objects w' k = objects w k.
Proof.
  intros Hk. induction cs as [|c cs IH]; intros w w' E; cbn [each_cluster] in E; [by injection E as <-|].
  destruct (annotate_cluster name c w) as [[e|] w1] eqn:E1; [done|].
  rewrite (IH w1 w' E). by eapply annotate_cluster_kinds.
Qed.

(** C30: when the event of a migration is handled without an error on the hub that
    the clusters leave, and nobody else changes clusters while the handler sleeps,
    each cluster of the event is gone or, when it has finalizers, refused and being
    deleted; every other cluster is as it was, the bootstrap secret was applied
    before, and the configurations that the clusters had were sent, cleaned, in the
    order of the event. *)
Theorem migration_detaches_the_clusters payload cs s kc w w' pr pr'
    (Hevt : unmarshal_from payload = Ok (MkFromEvent cs (Some s) (Some kc)))
    (Hsleep : forall w, clusters (sleep w) = clusters w)
    (Hrun : mf_Sync true sleep payload w pr = Ret (None, w', pr')) :
  (forall c, c ∈ cs -> clusters w' !! ("", c) = None \/
     exists mc, clusters w' !! ("", c) = Some mc /\ mc_Finalizers mc <> [] /\ mc_Deleting mc = true /\ mc_HubAcceptsClient mc = false) /\
  (forall c, c ∉ cs -> clusters w' !! ("", c) = clusters w !! ("", c)) /\
  sent_events pr' = sent_events pr ++ (cs ≫= config_event w) /\
  exists w1, apply_secret s w = (None, w1) /\ objects w1 KSecret !! obj_name KSecret s = Some s.
Proof.
  unfold mf_Sync in Hrun. rewrite Hevt in Hrun. cbn [mf_BootstrapSecret mf_KlusterletConfig mf_ManagedClusters] in Hrun.
  destruct (apply_secret s w) as [[e|] w1] eqn:E1; [done|]. pose proof (apply_secret_done _ _ _ E1) as [S1 K1].
  destruct (apply_config _ w1) as [[e|] w2] eqn:E2; [done|]. apply apply_config_done in E2 as [_ K2].
  destruct (each_cluster (annotate_cluster _) cs w2) as [[e|] w3] eqn:E3; [done|].
  destruct (send_configs true cs w3 pr) as [[e|] pr1] eqn:E4; [done|].
  destruct (each_cluster refuse_cluster cs (sleep w3)) as [[e|] w4] eqn:E5; [done|].
  destruct (detachManagedClusters cs (sleep w4)) as [[e|] w5] eqn:E6; [done|]. injection Hrun as <- <-.
  apply send_configs_done in E4.
  assert (addons w3 = addons w) as Ha.
  { unfold addons. rewrite (annotate_all_kinds _ cs KAddonConfig ltac:(done) _ _ E3), K2, K1 by done. done. }
  assert (forall x mc, x ∈ cs -> clusters (sleep w4) !! ("", x) = Some mc -> mc_HubAcceptsClient mc = false) as Hrefused.
  { intros x mc Hx. rewrite Hsleep. by eapply refuse_all. }
  assert (forall c, ("", c) ∈ pair "" <$> cs <-> c ∈ cs) as Hin.
  { intros c. rewrite list_elem_of_fmap. split; [by intros (y & [= ->] & Hy)|intros Hc; by exists c]. }
  split; [|split; [|split; [rewrite E4; unfold config_event; by rewrite Ha|eauto]]].
  { intros c Hc. rewrite (detach_all cs _ _ E6 Hrefused), bool_decide_eq_true_2 by (by apply Hin).
    destruct (clusters (sleep w4) !! ("", c)) as [mc|] eqn:Em; [|by left]. cbn.
    destruct (detached mc) as [mc'|] eqn:Ed; [|by left]. right. exists mc'. split; [done|].
    pose proof (detached_again _ _ Ed) as (Hd & ? & ->). split_and!; [|done|by eapply Hrefused].
    unfold detached in Hd. cbn in Hd. intros Ef. by rewrite Ef in Hd. }
  intros c Hc. rewrite (detach_all cs _ _ E6 Hrefused), bool_decide_eq_false_2 by (by rewrite Hin).
  rewrite Hsleep.
  rewrite (each_cluster_others refuse_cluster cs (sleep w3) w4 ("", c)); [| |exact E5|by intros y Hy [= ->]]; cycle 1.
  { intros y a b (mc' & _ & ->)%refuse_cluster_done x Hx. by rewrite lookup_insert_ne. }
  rewrite Hsleep.
  refine (eq_trans (each_cluster_others _ cs w2 w3 ("", c) _ E3 _) _).
  { intros y a b (mc & _ & mc' & -> & _)%annotate_cluster_done x Hx. by rewrite lookup_insert_ne. }
  { by intros y Hy [= ->]. }
  unfold clusters. by rewrite K2, K1.
Qed.

(** *** A cluster that is not there *)
Lemma annotate_cluster_total name c w : answers W -> is_Some (clusters w !! ("", c)) ->
  exists w', annotate_cluster name c w = (None, w').
Proof.
  intros (Aget & _ & Aupd & _) Hc. unfold annotate_cluster. destruct (oget w KCluster "" c) as [mc| |e] eqn:E.
  - destruct (_ && _); [eauto|]. apply Aupd. cbn. apply oget_Got in E. pose proof (objects_named _ _ _ _ _ E) as [= En].
    unfold clusters in Hc. by rewrite En.
  - apply oget_NotFound in E. unfold clusters in Hc. destruct Hc as [mc Hc]. exfalso.
    assert ((Some mc : option ManagedCluster) = None) as [=] by (rewrite <- Hc; exact E).
  - by destruct (Aget w KCluster "" c e).
Qed.

Lemma annotate_cluster_missing name c w : answers W -> clusters w !! ("", c) = None ->
  exists e, annotate_cluster name c w = (Some e, w).
Proof.
  intros (Aget & _) Hc. unfold annotate_cluster. destruct (oget w KCluster "" c) as [mc| |e] eqn:E; [|eauto..].
  apply oget_Got in E. assert ((Some mc : option ManagedCluster) = None) as [=] by (rewrite <- Hc; symmetry; exact E).
Qed.

(** What the first loop keeps of a cluster: only its annotations change. *)
Definition same_cluster (a b : option ManagedCluster) : Prop := mc_HubAcceptsClient <$> a = mc_HubAcceptsClient <$> b.
Definition marked (w : W) (c : string) : Prop :=
  exists mc, clusters w !! ("", c) = Some mc /\ is_Some (mc_Annotations mc !! ManagedClusterMigrating).

Lemma annotate_cluster_effect name c w w' : annotate_cluster name c w = (None, w') ->
  (forall x, same_cluster (clusters w' !! x) (clusters w !! x)) /\ marked w' c /\ forall x, marked w x -> marked w' x.
Proof.
  intros (mc & Hmc & mc' & E1 & Ha & Hm)%annotate_cluster_done.
  assert (marked w' c) as Hc by (exists mc'; by rewrite E1, lookup_insert_eq).
  split; [|split; [done|]].
  - intros x. unfold same_cluster. rewrite E1. destruct (decide (x = ("", c))) as [->|Hne].
    + rewrite lookup_insert_eq, Hmc. cbn. by rewrite Ha.
    + by rewrite lookup_insert_ne.
  - intros x Hx. destruct (decide (x = c)) as [->|Hne]; [done|]. unfold marked in *. rewrite E1.
    by rewrite lookup_insert_ne by congruence.
Qed.

Lemma same_cluster_is_Some a b : same_cluster a b -> is_Some b -> is_Some a.
Proof. unfold same_cluster. destruct a, b; intros E [x Hx]; try done; eauto. Qed.

Lemma annotate_stops name pre c post : answers W -> forall w,
  (forall x, x ∈ pre -> is_Some (clusters w !! ("", x))) -> clusters w !! ("", c) = None ->
  exists e w', each_cluster (annotate_cluster name) (pre ++ c :: post) w = (Some e, w') /\
    (forall x, same_cluster (clusters w' !! x) (clusters w !! x)) /\
    forall x, x ∈ pre \/ marked w x -> marked w' x.
Proof.
  intros HA. induction pre as [|p pre IH]; intros w Hpre Hc; cbn [app each_cluster].
  - destruct (annotate_cluster_missing name c w HA Hc) as [e ->]. exists e, w. split; [done|]. split; [done|]. set_solver.
  - destruct (annotate_cluster_total name p w HA) as [w1 E1]; [apply Hpre; by left|]. rewrite E1.
    apply annotate_cluster_effect in E1 as (Hsame1 & Hp & Hkeep).
    destruct (IH w1) as (e & w' & E & Hsame & Hmarked).
    + intros x Hx. eapply same_cluster_is_Some; [apply Hsame1|]. apply Hpre. by right.
    + specialize (Hsame1 ("", c)). rewrite Hc in Hsame1. unfold same_cluster in Hsame1. cbn in Hsame1.
      by destruct (clusters w1 !! ("", c)).
    + exists e, w'. split; [done|]. split; [intros x; etransitivity; [apply Hsame|apply Hsame1]|].
      intros x Hx. apply Hmarked. set_solver.
Qed.

Lemma apply_secret_total s w : answers W -> exists w', apply_secret s w = (None, w').
Proof.
  intros (Aget & Acr & Aupd & _). unfold apply_secret. destruct (oget w KSecret _ _) as [o| |e] eqn:E.
  - apply Aupd. apply oget_Got in E. cbn [obj_name]. rewrite E. eauto.
  - apply Acr. by apply oget_NotFound in E.
  - by destruct (Aget w KSecret (se_Namespace s) (se_Name s) e).
Qed.

Lemma apply_config_total c w : answers W -> exists w', apply_config c w = (None, w').
Proof.
  intros (Aget & Acr & _). unfold apply_config. destruct (oget w KKlusterletConfig _ _) as [o| |e] eqn:E; [eauto| |].
  - apply Acr. by apply oget_NotFound in E.
  - by destruct (Aget w KKlusterletConfig "" (kc_Name c) e).
Qed.

(** A cluster of the event that the hub does not have stops the migration of
    all the others: even on a server that answers every call the handling ends
    with an error, nothing is sent, no cluster is refused or detached, and the
    clusters listed before it stay marked as migrating. *)
Theorem unknown_cluster_stops_the_migration payload pre c post s kc w pr
    (Hevt : unmarshal_from payload = Ok (MkFromEvent (pre ++ c :: post) (Some s) (Some kc)))
    (Hanswers : answers W) (Hpre : forall x, x ∈ pre -> is_Some (clusters w !! ("", x)))
    (Hc : clusters w !! ("", c) = None) :
  exists e w', mf_Sync true sleep payload w pr = Ret (Some e, w', pr) /\
    (forall x, mc_HubAcceptsClient <$> clusters w' !! x = mc_HubAcceptsClient <$> clusters w !! x) /\
    forall x, x ∈ pre -> exists mc, clusters w' !! ("", x) = Some mc /\ is_Some (mc_Annotations mc !! ManagedClusterMigrating).
Proof.
  unfold mf_Sync. rewrite Hevt. cbn [mf_BootstrapSecret mf_KlusterletConfig mf_ManagedClusters].
  destruct (apply_secret_total s w Hanswers) as [w1 E1]. rewrite E1. apply apply_secret_done in E1 as [_ K1].
  match goal with |- context [apply_config ?k w1] => destruct (apply_config_total k w1 Hanswers) as [w2 E2]; rewrite E2 end.
  apply apply_config_done in E2 as [_ K2].
  assert (clusters w2 = clusters w) as K by (unfold clusters; by rewrite K2, K1).
  match goal with |- context [annotate_cluster ?n] =>
    destruct (annotate_stops n pre c post Hanswers w2) as (e & w3 & E3 & Hsame & Hmarked) end.
  - intros x Hx. rewrite K. by apply Hpre.
  - by rewrite K.
  - rewrite E3. exists e, w3. split; [done|]. rewrite <- K. split; [exact Hsame|]. intros x Hx. apply Hmarked. by left.
Qed.
End From.

(** ** The hub that clusters go to *)

(** The gate of the feature, after which others of the same name do not count. *)
Definition approves (r : RegistrationHubConfiguration) (user : string) : Prop :=
  (exists pre post, FeatureGates r = pre ++ (AutoApproval, FeatureGateEnable) :: post /\
     Forall (fun g => g.1 <> AutoApproval) pre) /\ user ∈ AutoApproveUsers r.

Lemma enable_feature_spec gates : let '(found, changed, gates') := enable_feature gates in
  if (found : bool)
  then (exists pre mode post, gates = pre ++ (AutoApproval, mode) :: post /\
          gates' = pre ++ (AutoApproval, FeatureGateEnable) :: post /\ Forall (fun g => g.1 <> AutoApproval) pre /\
          changed = negb (String.eqb mode FeatureGateEnable))
  else gates' = gates /\ changed = false /\ Forall (fun g => g.1 <> AutoApproval) gates.
Proof.
  induction gates as [|[f m] l IH]; cbn [enable_feature]; [done|].
  destruct (String.eqb_spec f AutoApproval) as [->|Hne].
  - destruct (String.eqb_spec m FeatureGateEnable) as [->|Hm].
    + exists [], FeatureGateEnable, l. done.
    + exists [], m, l. split_and!; [done..|]. by destruct (String.eqb_spec m FeatureGateEnable).
  - destruct (enable_feature l) as [[found changed] l']. destruct found.
    + destruct IH as (pre & mode & post & -> & -> & Hp & ->). exists ((f, m) :: pre), mode, post.
      split_and!; [done..|by constructor|done].
    + destruct IH as (-> & -> & Hl). split_and!; [done..|by constructor].
Qed.

Lemma existsb_eqb user l : existsb (String.eqb user) l = bool_decide (user ∈ l).
Proof.
  induction l as [|x l IH]; cbn [existsb]; [done|]. rewrite IH.
  destruct (String.eqb_spec user x) as [->|Hne]; cbn [orb].
  - symmetry. apply bool_decide_eq_true_2. by left.
  - apply bool_decide_ext. set_solver.
Qed.

(** Approving a user again changes nothing, and the other gates and users stay. *)
Lemma approve_spec user r : let '(changed, r') := approve user r in
  approves r' user /\ approve user (Some r') = (false, r') /\
  (changed = false -> r = Some r') /\
  (forall u, u ∈ default [] (AutoApproveUsers <$> r) -> u ∈ AutoApproveUsers r') /\
  filter (fun g => g.1 <> AutoApproval) (FeatureGates r') =
    filter (fun g => g.1 <> AutoApproval) (default [] (FeatureGates <$> r)).
Proof.
  assert (forall pre post users, Forall (fun g : string * string => g.1 <> AutoApproval) pre -> user ∈ users ->
    approve user (Some (MkRegistration (pre ++ (AutoApproval, FeatureGateEnable) :: post) users)) =
    (false, MkRegistration (pre ++ (AutoApproval, FeatureGateEnable) :: post) users)) as Again.
  { intros pre post users Hpre Hu. unfold approve. cbn [FeatureGates AutoApproveUsers].
    pose proof (enable_feature_spec (pre ++ (AutoApproval, FeatureGateEnable) :: post)) as S.
    assert (enable_feature (pre ++ (AutoApproval, FeatureGateEnable) :: post) =
            (true, false, pre ++ (AutoApproval, FeatureGateEnable) :: post)) as ->.
    { clear S. induction Hpre as [|[f m] l Hf _ IH]; [done|]. cbn [app enable_feature].
      destruct (String.eqb_spec f AutoApproval); [done|]. by rewrite IH. }
    rewrite existsb_eqb, bool_decide_eq_true_2 by done. done. }
  destruct r as [r|]; unfold approve at 1; cbv beta iota.
  - pose proof (enable_feature_spec (FeatureGates r)) as S.
    destruct (enable_feature (FeatureGates r)) as [[found changed] gates]. rewrite existsb_eqb.
    set (users := if bool_decide (user ∈ AutoApproveUsers r) then _ else _).
    assert (user ∈ users /\ forall u, u ∈ AutoApproveUsers r -> u ∈ users) as [Hu Hus]
      by (subst users; case_bool_decide; set_solver).
    destruct found.
    + destruct S as (pre & mode & post & Eg & -> & Hpre & ->). cbn [negb orb]. rewrite orb_false_r.
      split; [split; [by exists pre, post|done]|]. split; [by apply Again|].
      split; [|split; [done|]].
      * intros Hc. apply orb_false_iff in Hc as [Hm Ha]. subst users. destruct (bool_decide _); [|done].
        destruct (String.eqb_spec mode FeatureGateEnable) as [->|]; [|done]. by destruct r; cbn in *; subst.
      * cbn [FeatureGates fmap option_fmap option_map default from_option id].
        rewrite Eg, !filter_app, !filter_cons_False by (cbn; tauto). done.
    + destruct S as (-> & -> & Hall). cbn [negb orb].
      split; [split; [by exists (FeatureGates r), []|done]|]. split; [by apply Again|].
      split; [done|]. split; [done|]. cbn [FeatureGates].
      rewrite filter_app, filter_cons_False, filter_nil, app_nil_r by (cbn; tauto). done.
  - split; [split; [by exists [], []|by left]|]. split; [apply (Again [] []); [done|by left]|].
    split; [done|]. split; [cbn; set_solver|]. cbn [FeatureGates]. by rewrite filter_cons_False by (cbn; tauto).
Qed.

Section To.
Context {W : Type} `{ObjectServer W} `{MigrationCodec} `{RetrierLaws} `{PollerLaws}.
Context (role_covered : ClusterRole -> ClusterRole -> bool) (binding_covered : ClusterRoleBinding -> ClusterRoleBinding -> bool).

(** Retried updates of an object keep the other kinds, and write it when the last
    one succeeds. *)
Lemma retried_update k o w r w' : retried is_conflict (fun w => oupdate w k o) w r w' ->
  (forall k', k' <> k -> objects w' k' = objects w k') /\
  match r with
  | None => exists o', obj_sim k o o' /\ objects w' k = <[obj_name k o := o']> (objects w k)
  | Some _ => objects w' k = objects w k
  end.
Proof.
  induction 1 as [w r w' E|w e w1 r w2 E _ _ IH].
  - destruct r as [e|]; [|by apply oupdate_Ok in E as [E K]].
    split; [intros k' _; by eapply oupdate_Err|by eapply oupdate_Err].
  - destruct IH as [K R]. split; [intros k' Hk; rewrite K by done; by eapply oupdate_Err|].
    destruct r as [e'|]; [rewrite R; by eapply oupdate_Err|].
    destruct R as (o' & S & R). exists o'. split; [done|]. rewrite R. f_equal. by eapply oupdate_Err.
Qed.

Lemma ensure_object_kinds k covered o w err w' : ensure_object k covered o w = (err, w') ->
  (forall k', k' <> k -> objects w' k' = objects w k') /\
  (err = None -> is_Some (objects w' k !! obj_name k o)) /\
  forall key, is_Some (objects w k !! key) -> is_Some (objects w' k !! key).
Proof.
  unfold ensure_object. destruct (obj_name k o) as [ns name] eqn:En. destruct (oget w k ns name) as [f| |e] eqn:E.
  - apply oget_Got in E. destruct (negb _).
    + pose proof (retry_spec (fun w => oupdate w k o) w) as R.
      destruct (retry_on_conflict _ w) as [r w1]. cbn [fst snd] in R. intros [= <- <-].
      apply retried_update in R as [K R]. split; [done|]. destruct r as [e|].
      * rewrite R, E. split; [eauto|done].
      * destruct R as (o' & _ & R). rewrite R, En. split; [intros _; rewrite lookup_insert_eq; eauto|].
        intros key Hkey. destruct (decide (key = (ns, name))) as [->|]; [rewrite lookup_insert_eq; eauto|].
        by rewrite lookup_insert_ne.
    + intros [= <- <-]. split; [done|]. rewrite E. split; [eauto|done].
  - intros U. destruct err as [e|].
    + pose proof (ocreate_Err _ _ _ _ _ U) as K. split; [done|]. split; [done|]. by rewrite K.
    + apply ocreate_Ok in U as [(o' & _ & U) K]. split; [done|]. rewrite U, En.
      split; [intros _; rewrite lookup_insert_eq; eauto|].
      intros key Hkey. destruct (decide (key = (ns, name))) as [->|]; [rewrite lookup_insert_eq; eauto|].
      by rewrite lookup_insert_ne.
  - intros [= <- <-]. done.
Qed.

Definition managers (w : W) : gmap (string * string) ClusterManager := objects w KClusterManager.

Lemma ensureClusterManager_kinds msaName msaNamespace w err w' k : k <> KClusterManager ->
  ensureClusterManager msaName msaNamespace w = (err, w') -> objects w' k = objects w k.
Proof.
  intros Hk. unfold ensureClusterManager. destruct (oget w KClusterManager "" _) as [f| |e]; [|by intros [= _ <-]..].
  destruct (approve _ _) as [changed r]. destruct changed; [|by intros [= _ <-]].
  set (g := fun w => oupdate w KClusterManager _). pose proof (retry_spec g w) as R.
  destruct (retry_on_conflict g w) as [x w1]. cbn [fst snd] in R. intros [= _ <-].
  apply retried_update in R as [K _]. by apply K.
Qed.

(** On a server that answers, no update is a conflict. *)
Lemma retried_answers k o w r w' : answers W -> is_Some (objects w k !! obj_name k o) ->
  retried is_conflict (fun w => oupdate w k o) w r w' -> r = None.
Proof.
  intros (_ & _ & Aupd & _) Hi R. destruct R as [w r w' E|w e w1 r w2 E _ _]; destruct (Aupd w k o Hi) as [w3 E3];
    rewrite E3 in E; congruence.
Qed.

Lemma ensureClusterManager_done msaName msaNamespace w w' : answers W ->
  ensureClusterManager msaName msaNamespace w = (None, w') ->
  exists cm r, managers w' !! ("", "cluster-manager") = Some cm /\ RegistrationConfiguration cm = Some r /\
    approves r (autoApproveUser msaName msaNamespace).
Proof.
  intros HA. unfold ensureClusterManager. destruct (oget w KClusterManager "" _) as [f| |e] eqn:E; [|done..].
  pose proof (approve_spec (autoApproveUser msaName msaNamespace) (RegistrationConfiguration f)) as S.
  destruct (approve _ _) as [changed r]. destruct S as (S1 & _ & S3 & _).
  apply oget_Got in E. pose proof (objects_named _ _ _ _ _ E) as [= En]. destruct changed.
  - set (o := MkManager (cm_Name f) (Some r) (cm_Rest f)).
    pose proof (retry_spec (fun w => oupdate w KClusterManager o) w) as R.
    destruct (retry_on_conflict _ w) as [x w1]. cbn [fst snd] in R. intros [= <-].
    assert (obj_name KClusterManager o = ("", "cluster-manager")) as Eo by (subst o; cbn; congruence).
    pose proof (retried_answers KClusterManager o _ _ _ HA ltac:(rewrite Eo, E; eauto) R) as ->.
    apply retried_update in R as [_ (o' & <- & R)]. exists o, r. split; [|done]. unfold managers. rewrite R, Eo.
    apply lookup_insert_eq.
  - intros [= <-]. exists f, r. split; [exact E|]. split; [by apply S3|done].
Qed.

Definition to_payload (payload : bytes) (evt : MigrationToEvent) : Prop := unmarshal_to payload = Ok evt.

(** What a handling without an error goes through. *)
Lemma mt_Sync_done payload evt w w' : to_payload payload evt ->
  mt_Sync role_covered binding_covered payload w = (None, w') ->
  let name := mt_ServiceAccountName evt in let ns := mt_InstallNamespace evt in
  exists w1 w4, ensureClusterManager name ns w = (None, w1) /\
    (forall k, k <> KRole -> k <> KBinding -> objects w4 k = objects w1 k) /\
    is_Some (objects w4 KRole !! obj_name KRole (migration_role name)) /\
    is_Some (objects w4 KBinding !! obj_name KBinding (registration_binding name ns)) /\
    is_Some (objects w4 KBinding !! obj_name KBinding (sar_binding name ns)) /\
    match mt_KlusterletAddonConfig evt with
    | None => w' = w4
    | Some c => polled (create_attempt c) w4 None w'
    end.
Proof.
  intros Hevt. unfold mt_Sync. rewrite Hevt. cbn zeta.
  destruct (ensureClusterManager _ _ w) as [[e|] w1] eqn:E1; [done|].
  destruct (ensureMigrationClusterRole _ _ w1) as [[e|] w2] eqn:E2; [done|].
  destruct (ensureRegistrationClusterRoleBinding _ _ _ w2) as [[e|] w3] eqn:E3; [done|].
  destruct (ensureSARClusterRoleBinding _ _ _ w3) as [[e|] w4] eqn:E4; [done|].
  apply ensure_object_kinds in E2 as (K2 & N2 & _), E3 as (K3 & N3 & _), E4 as (K4 & N4 & Keep4).
  intros E. exists w1, w4. split; [done|].
  split; [intros k Hr Hb; by rewrite K4, K3, K2|]. split; [rewrite K4, K3 by done; by apply N2|].
  split; [by apply Keep4, N3|]. split; [by apply N4|].
  destruct (mt_KlusterletAddonConfig evt) as [c|]; [|by injection E as <-].
  pose proof (poll_spec (create_attempt c) w4) as P. rewrite E in P. exact P.
Qed.

(** The creation of a configuration, polled until it succeeds. *)
Lemma create_polled c w w' : polled (create_attempt c) w None w' ->
  addons w !! (ac_Namespace c, ac_Name c) = None /\
  (exists c', addons w' !! (ac_Namespace c, ac_Name c) = Some c' /\ ac_Rest c' = ac_Rest c) /\
  forall k, k <> KAddonConfig -> objects w' k = objects w k.
Proof.
  intros P. apply (polled_None _ (fun s => forall k, objects s k = objects w k)) in P as (s & I & E); [| |done].
  - unfold create_attempt in E. destruct (ocreate s KAddonConfig c) as [[e|] s'] eqn:Ec; [done|]. injection E as <-.
    assert (objects s KAddonConfig !! obj_name KAddonConfig c = None) as Hn.
    { destruct (objects s KAddonConfig !! obj_name KAddonConfig c) eqn:El; [|done].
      destruct (ocreate_exists s KAddonConfig c) as [e Ee]; [by rewrite El|]. congruence. }
    rewrite I in Hn. split; [exact Hn|]. apply ocreate_Ok in Ec as [(c' & (_ & _ & S) & Ec) K].
    split; [|intros k Hk; by rewrite K, I]. exists c'. split; [|done]. unfold addons. rewrite Ec. apply lookup_insert_eq.
  - intros s b e s' I Ec Hb k. unfold create_attempt in Ec.
    destruct (ocreate s KAddonConfig c) as [[x|] s1] eqn:Eo; [|congruence]. injection Ec as _ _ <-.
    by rewrite (ocreate_Err _ _ _ _ _ Eo).
Qed.

(** When the event of a migration is handled without an error on the hub that
    the clusters go to, on a server that answers every call, the cluster manager
    approves the service account of the migration by itself, the role and both
    bindings of the account exist, and the configuration of the event, if it has
    one, was created; but handling the same event again never succeeds when it
    has a configuration, since the creation is refused until the time is out. *)
Theorem target_hub_is_prepared payload evt w w' (Hevt : to_payload payload evt) (Hanswers : answers W)
    (Hrun : mt_Sync role_covered binding_covered payload w = (None, w')) :
  let name := mt_ServiceAccountName evt in let ns := mt_InstallNamespace evt in
  (exists cm r, managers w' !! ("", "cluster-manager") = Some cm /\ RegistrationConfiguration cm = Some r /\
     approves r (autoApproveUser name ns)) /\
  is_Some (objects w' KRole !! obj_name KRole (migration_role name)) /\
  is_Some (objects w' KBinding !! obj_name KBinding (registration_binding name ns)) /\
  is_Some (objects w' KBinding !! obj_name KBinding (sar_binding name ns)) /\
  match mt_KlusterletAddonConfig evt with
  | None => addons w' = addons w
  | Some c =>
      (exists c', addons w' !! (ac_Namespace c, ac_Name c) = Some c' /\ ac_Rest c' = ac_Rest c) /\
      forall w'', mt_Sync role_covered binding_covered payload w' <> (None, w'')
  end.
Proof.
  cbn zeta. destruct (mt_Sync_done _ _ _ _ Hevt Hrun) as (w1 & w4 & E1 & K4 & R & B1 & B2 & Hc).
  pose proof (ensureClusterManager_done _ _ _ _ Hanswers E1) as (cm & r & Hcm & Hr & Ha).
  assert (forall k, k <> KAddonConfig -> objects w' k = objects w4 k) as K'.
  { destruct (mt_KlusterletAddonConfig evt); [|by subst]. by apply create_polled in Hc as (_ & _ & K). }
  split; [exists cm, r; split; [|done]; unfold managers; by rewrite K', K4|].
  rewrite !K' by done. split; [done|]. split; [done|]. split; [done|].
  destruct (mt_KlusterletAddonConfig evt) as [c|] eqn:Ec.
  - apply create_polled in Hc as (_ & (c' & Hc & Hrest) & _). split; [by exists c'|].
    intros w'' Hrun2. destruct (mt_Sync_done _ _ _ _ Hevt Hrun2) as (v1 & v4 & V1 & V4 & _ & _ & _ & Hc2).
    rewrite Ec in Hc2. apply create_polled in Hc2 as (Hn & _).
    assert (addons v4 = addons w') as Hv.
    { unfold addons. rewrite V4 by done. exact (ensureClusterManager_kinds _ _ _ _ _ KAddonConfig ltac:(done) V1). }
    rewrite Hv in Hn. congruence.
  - subst w'. unfold addons. rewrite K4 by done. exact (ensureClusterManager_kinds _ _ _ _ _ KAddonConfig ltac:(done) E1).
Qed.
End To.

(** ** From one hub to the other *)
Section Flow.
Context {W D P Event : Type} `{ObjectServer W} `{ClusterRows D} `{EventLaws Event} `{!Producer P Event} `{!ProducerLog P Event}.
Context `{MigrationCodecLaws} `{RangeHubs} `{RetrierLaws} `{PollerLaws}.
Context (role_covered : ClusterRole -> ClusterRole -> bool) (binding_covered : ClusterRoleBinding -> ClusterRoleBinding -> bool).
Context (defaultNamespace : string) (importClusterInHosted : bool).

Lemma addon_event_Data b : Data (addon_event (Event := Event) b) = b.
Proof.
  unfold addon_event. match goal with |- context [SetData b ?e] => destruct (SetData_total b e) as [e' E]; rewrite E end.
  by apply SetData_Ok in E as [-> _].
Qed.

Lemma syncMigrationTo_done (m : ManagedClusterMigration) pr pr' s c :
  mg_Annotations m !! KlusterletAddonConfigAnnotation = Some s -> unmarshal_addon (bytes_of s) = Ok c ->
  syncMigrationTo (Event := Event) importClusterInHosted m pr = (None, pr') ->
  exists b, marshal_to (MkToEvent (mg_Name m) (msa_namespace importClusterInHosted m) (Some c)) = Ok b /\
    sent_events pr' = sent_events pr ++
      [utils_ToCloudEvent CloudEventTypeMigrationTo CloudEventSourceGlobalHub (mg_To m) b].
Proof.
  intros Hs Hc. unfold syncMigrationTo. rewrite Hs, Hc. cbn [rbind].
  destruct (marshal_to _) as [b|e]; [|done].
  destruct (SendEvent pr "" _) as [[e|] pr1] eqn:Es; [done|]. intros [= <-]. exists b. split; [done|].
  by apply send_accepted in Es.
Qed.

(** The service account of a migration follows it: a reconciliation of a
    migration with the finalizer that ends without an error leaves the account in
    the namespace of the target hub while the migration lives, and when it is
    being deleted the account is gone, or is being deleted too, and nothing is sent; the deletion of an
    account that the controller owns asks for the migration of its name, so that
    an account somebody deletes is created again. *)
Theorem service_account_follows_the_migration (m : ManagedClusterMigration) (msa : ManagedServiceAccount) (w w' : W)
    (pr pr' : P) (d : D) secret secret'
    (Hm : objects w KMigration !! (defaultNamespace, mg_Name m) = Some (m : obj KMigration))
    (Hmsa : msa_Name msa = mg_Name m) (Howner : msa_Labels msa !! "owner" = Some migration_owner)
    (Hfin : ManagedClusterMigrationFinalizer ∈ mg_Finalizers m)
    (Hrun : mg_Reconcile (Event := Event) defaultNamespace importClusterInHosted
              (msa_request defaultNamespace msa).1 (msa_request defaultNamespace msa).2 secret d w pr =
              Ret ((false, None), (secret', w', pr'))) :
  msa_deletion_passes msa false = true /\
  if mg_Deleting m then
    (forall a : obj KServiceAccount, objects w' KServiceAccount !! (mg_To m, mg_Name m) = Some a -> msa_Deleting a = true) /\ pr' = pr
  else exists a : obj KServiceAccount, objects w' KServiceAccount !! (mg_To m, mg_Name m) = Some a /\
         (objects w KServiceAccount !! (mg_To m, mg_Name m) = None -> msa_deletion_passes a false = true).
Proof.
  split. { unfold msa_deletion_passes. rewrite Howner. done. }
  cbn [msa_request fst snd] in Hrun. unfold mg_Reconcile in Hrun. rewrite String.eqb_refl, Hmsa in Hrun.
  unfold reconcile_migration in Hrun.
  destruct (oget w KMigration defaultNamespace (mg_Name m)) as [m1| |e] eqn:Eg; [| |done].
  2:{ apply oget_NotFound in Eg. rewrite Hm in Eg. done. }
  apply oget_Got in Eg. rewrite Hm in Eg. injection Eg as <-.
  replace (existsb _ (mg_Finalizers m)) with true in Hrun by (symmetry; rewrite existsb_eqb; by apply bool_decide_eq_true_2).
  destruct (mg_Deleting m); cbn [negb] in Hrun.
  - destruct (deleteManagedServiceAccount m w) as [[e|] w1] eqn:Ed; [done|].
    destruct (oupdate w1 KMigration _) as [[e|] w2] eqn:Eu; [done|]. injection Hrun as <- <- <-. split; [|done].
    apply oupdate_Ok in Eu as [_ K]. rewrite K by done. unfold deleteManagedServiceAccount in Ed.
    destruct (oget w KServiceAccount _ _) as [a| |e] eqn:Ea; [| |done].
    + apply oget_Got in Ea. pose proof (objects_named _ _ _ _ _ Ea) as En. apply odelete_Ok in Ed as [-> _]; [|by right].
      rewrite En, lookup_partial_alter_eq, Ea. cbn. intros b. destruct (msa_Finalizers a); [done|]. by intros [= <-].
    + injection Ed as <-. apply oget_NotFound in Ea. intros b. by rewrite Ea.
  - destruct (ensureManagedServiceAccount m w) as [[e|] w1] eqn:Ed; [done|].
    destruct (syncMigrationTo _ m pr) as [err pr1]. injection Hrun as -> <- <- <-.
    unfold ensureManagedServiceAccount in Ed. destruct (oget w KServiceAccount _ _) as [a| |e] eqn:Ea; [| |done].
    + injection Ed as <-. apply oget_Got in Ea. exists a. split; [done|]. intros E. rewrite Ea in E. done.
    + apply ocreate_Ok in Ed as [(a & Sa & Ed) _]. cbn in Sa. subst a. eexists. split.
      * rewrite Ed. cbn [obj_name msa_Namespace msa_Name]. apply lookup_insert_eq.
      * intros _. reflexivity.
Qed.

(** C29: the configuration of a migrating cluster reaches the hub that the first
    migration goes to: the event that the agent of the hub it leaves sends for it,
    handled by the manager, makes the next reconciliation of the first migration
    that the manager lists, whatever its clusters and those of the others are, send
    an event to its target hub, and the agent there, when it handles that event
    without an error, has created the configuration with its contents. With one
    migration this is the hub that the cluster goes to. *)
Theorem addon_config_reaches_the_target (wf wm wm1 wm2 wt wt' : W) (pr0 pr1 prm prm' : P) (d : D) secret secret' c
    (cfg : KlusterletAddonConfig) (m : ManagedClusterMigration) (ms : list ManagedClusterMigration)
    (Hcfg : addons wf !! (c, c) = Some cfg)
    (Hsend : sendKlusterletAddonConfig (Event := Event) true c wf pr0 = (None, pr1))
    (Hm : olist_migrations wm defaultNamespace = Ok (m :: ms))
    (Hlive : mg_Deleting m = false) (Hfin : ManagedClusterMigrationFinalizer ∈ mg_Finalizers m)
    (Hhandle : Forall (fun e : Event => handleKlusterletAddonConfigEvent defaultNamespace e wm = (None, wm1))
                 (drop (length (sent_events pr0)) (sent_events pr1)))
    (Hrec : mg_Reconcile (Event := Event) defaultNamespace importClusterInHosted defaultNamespace (mg_Name m) secret d wm1 prm =
              Ret ((false, None), (secret', wm2, prm')))
    (Htarget : Forall (fun e : Event => mt_Sync role_covered binding_covered (Data e) wt = (None, wt'))
                 (drop (length (sent_events prm)) (sent_events prm'))) :
  (exists e : Event, sent_events prm' = sent_events prm ++ [e] /\ Type_ e = CloudEventTypeMigrationTo /\
     Extensions e !! CloudEventExtensionKeyClusterName = Some (ExtString (mg_To m))) /\
  exists cfg', addons wt' !! (ac_Namespace cfg, ac_Name cfg) = Some cfg' /\ ac_Rest cfg' = ac_Rest cfg.
Proof.
  assert (mg_Namespace m = defaultNamespace) as Hns.
  { destruct (proj1 (olist_spec _ _ _ Hm m) ltac:(by left)) as [n Hn]. pose proof (objects_named wm KMigration _ _ m Hn) as En.
    cbn in En. congruence. }
  unfold sendKlusterletAddonConfig in Hsend. destruct (oget wf KAddonConfig c c) as [cfg0| |e] eqn:Eg; [| |done].
  2:{ apply addons_NotFound in Eg. congruence. }
  apply addons_Got in Eg. rewrite Hcfg in Eg. injection Eg as <-.
  destruct (marshal_addon (clean_addon cfg)) as [b|e] eqn:Eb; [|done].
  destruct (SendEvent pr0 "" _) as [[e|] pr2] eqn:Es; [done|]. injection Hsend as <-. apply send_accepted in Es.
  rewrite Es, drop_app_length in Hhandle. rewrite Forall_singleton in Hhandle. cbv beta in Hhandle.
  unfold handleKlusterletAddonConfigEvent in Hhandle.
  rewrite addon_event_Data, (addon_roundtrip _ _ Eb), Eb, Hm in Hhandle.
  set (m' := set_annotations_mg m _) in Hhandle.
  apply oupdate_Ok in Hhandle as [(m0 & Sm & Em) _]. cbn in Sm. subst m0.
  assert (objects wm1 KMigration !! (defaultNamespace, mg_Name m) = Some (m' : obj KMigration)) as Hm1.
  { rewrite Em. replace (obj_name KMigration m') with (defaultNamespace, mg_Name m) by (cbn; by rewrite Hns).
    apply lookup_insert_eq. }
  clear Em. unfold mg_Reconcile in Hrec. rewrite String.eqb_refl in Hrec. unfold reconcile_migration in Hrec.
  destruct (oget wm1 KMigration defaultNamespace (mg_Name m)) as [m1| |e] eqn:Eg; [| |done].
  2:{ apply oget_NotFound in Eg. rewrite Hm1 in Eg. done. }
  apply oget_Got in Eg. rewrite Hm1 in Eg. injection Eg as <-.
  replace (mg_Deleting m') with false in Hrec by done.
  replace (existsb _ (mg_Finalizers m')) with true in Hrec by (symmetry; rewrite existsb_eqb; by apply bool_decide_eq_true_2).
  cbn [negb] in Hrec. destruct (ensureManagedServiceAccount m' wm1) as [[e|] wm3]; [done|].
  destruct (syncMigrationTo _ m' prm) as [err prm2] eqn:Et. injection Hrec as -> _ _ ->.
  apply (syncMigrationTo_done m' prm prm' (string_of b) (clean_addon cfg)) in Et as (b2 & Eb2 & Es2).
  2:{ subst m'. cbn. apply lookup_insert_eq. }
  2:{ rewrite string_roundtrip. by apply addon_roundtrip. }
  rewrite Es2, drop_app_length in Htarget. rewrite Forall_singleton in Htarget. cbv beta in Htarget.
  destruct (utils_ToCloudEvent_spec (Event := Event) CloudEventTypeMigrationTo CloudEventSourceGlobalHub (mg_To m') b2)
    as (T & _ & Dt & X).
  split; [eexists; split; [exact Es2|]; by rewrite T, X|].
  rewrite Dt in Htarget. apply to_roundtrip in Eb2.
  destruct (mt_Sync_done role_covered binding_covered _ _ _ _ Eb2 Htarget) as (w1 & w4 & _ & _ & _ & _ & _ & P4).
  cbn in P4. apply create_polled in P4 as (_ & (c' & Hc & Hr) & _). by exists c'.
Qed.
End Flow.
