(* ===== verification/MigrationFlow.v ===== *)
(** * A migration, run

    A server of maps, on which the properties of [MigrationFacts] are
    instantiated: two clusters leave a hub for another, one of them with an
    add-on configuration. *)

From Stdlib Require Import Strings.Ascii Strings.String.
From stdpp Require Import prelude gmap strings list.
From Stdlib Require Import ZArith Lia Eqdep_dec Strings.Byte.
From S2P Require Import Prelude.
From S2P Require Import GoLib.
From S2P Require Import Version.
From S2P Require Import EventTypes.
From S2P Require Import CloudEvents.
From S2P Require Import Libraries.
From S2P Require Import SpecTransport.
From S2P Require Import Migration.
From S2P Require Import MigrationFacts.
Local Open Scope string_scope.
Local Open Scope list_scope.

(** ** A server: a map for each kind; entries under another name do not count. *)
Definition store : Type := forall k : kind, gmap (string * string) (obj k).

Definition put (k : kind) (m : gmap (string * string) (obj k)) (w : store) : store := fun k' =>
  match decide (k = k') with
  | left e => eq_rect k (fun k => gmap (string * string) (obj k)) m k' e
  | right _ => w k'
  end.

Lemma put_same k m w : put k m w k = m.
Proof.
  unfold put. destruct (decide (k = k)) as [e|]; [|done].
  by rewrite (UIP_dec (fun x y => decide (x = y)) e eq_refl).
Qed.
Lemma put_other k m w k' : k' <> k -> put k m w k' = w k'.
Proof. intros Hne. unfold put. by destruct (decide (k = k')). Qed.

Definition named (w : store) (k : kind) : gmap (string * string) (obj k) :=
  filter (fun kv => obj_name k kv.2 = kv.1) (w k).

Lemma named_put k m w : named (put k m w) k = filter (fun kv => obj_name k kv.2 = kv.1) m.
Proof. unfold named. by rewrite put_same. Qed.
Lemma named_other k m w k' : k' <> k -> named (put k m w) k' = named w k'.
Proof. intros Hne. unfold named. by rewrite put_other. Qed.
Lemma named_insert k o w : named (put k (<[obj_name k o := o]> (w k)) w) k = <[obj_name k o := o]> (named w k).
Proof. rewrite named_put. unfold named. by rewrite map_filter_insert_True. Qed.
Lemma left_marked_name k o o' : left_marked k o = Some o' -> obj_name k o' = obj_name k o.
Proof. destruct k; cbn; try done; [destruct (msa_Finalizers o)|destruct (mc_Finalizers o)]; try done; by intros [= <-]. Qed.
Lemma named_lookup w k n o : named w k !! n = Some o <-> w k !! n = Some o /\ obj_name k o = n.
Proof. unfold named. apply map_lookup_filter_Some. Qed.
Lemma named_delete k n w :
  named (put k (partial_alter (fun x => x ≫= left_marked k) n (w k)) w) k = partial_alter (fun x => x ≫= left_marked k) n (named w k).
Proof.
  rewrite named_put. apply map_eq. intros i. apply option_eq. intros o. rewrite map_lookup_filter_Some. cbn.
  destruct (decide (n = i)) as [<-|Hne].
  - rewrite !lookup_partial_alter_eq, !bind_Some. split.
    + intros [(o0 & Ho & Hm) Hn]. exists o0. split; [|done]. apply named_lookup. split; [done|].
      by rewrite <- (left_marked_name _ _ _ Hm).
    + intros (o0 & [Ho Hn]%named_lookup & Hm). split; [by exists o0|]. by rewrite (left_marked_name _ _ _ Hm).
  - rewrite !lookup_partial_alter_ne by done. by rewrite named_lookup.
Qed.

Lemma obj_sim_refl k o : obj_sim k o o.
Proof. by destruct k. Qed.

#[export] Instance store_client : ObjectClient store := {|
  oget w k ns n := match named w k !! (ns, n) with Some o => Got o | None => GotNotFound end;
  ocreate w k o :=
    match named w k !! obj_name k o with
    | Some _ => (Some "already exists", w)
    | None => (None, put k (<[obj_name k o := o]> (w k)) w)
    end;
  oupdate w k o :=
    match named w k !! obj_name k o with
    | Some _ => (None, put k (<[obj_name k o := o]> (w k)) w)
    | None => (Some "not found", w)
    end;
  odelete w k o :=
    match named w k !! obj_name k o with
    | Some _ => (None, put k (partial_alter (fun x => x ≫= left_marked k) (obj_name k o) (w k)) w)
    | None => (Some "not found", w)
    end;
  olist_migrations w ns :=
    Ok (omap (fun kv : (string * string) * obj KMigration => if String.eqb kv.1.1 ns then Some (kv.2 : ManagedClusterMigration) else None)
          (map_to_list (named w KMigration)));
|}.

#[export] Program Instance store_server : ObjectServer store := {| objects := named |}.
Next Obligation. intros w k ns n o. cbn. destruct (named w k !! (ns, n)); [by intros [= ->]|done]. Qed.
Next Obligation. intros w k ns n. cbn. by destruct (named w k !! (ns, n)). Qed.
Next Obligation.
  intros w k o w'. cbn. destruct (named w k !! obj_name k o); [done|]. intros [= <-]. split.
  - exists o. split; [apply obj_sim_refl|apply named_insert].
  - intros. by apply named_other.
Qed.
Next Obligation.
  intros w k o w'. cbn. destruct (named w k !! obj_name k o); [|done]. intros [= <-]. split.
  - exists o. split; [apply obj_sim_refl|apply named_insert].
  - intros. by apply named_other.
Qed.
Next Obligation.
  intros w k o w' _. cbn. destruct (named w k !! obj_name k o); [|done]. intros [= <-].
  split; [apply named_delete|]. intros. by apply named_other.
Qed.
Next Obligation. intros w k o e w'. cbn. destruct (named w k !! obj_name k o); [by intros [= _ <-]|done]. Qed.
Next Obligation. intros w k o e w'. cbn. destruct (named w k !! obj_name k o); [done|by intros [= _ <-]]. Qed.
Next Obligation. intros w k o e w'. cbn. destruct (named w k !! obj_name k o); [done|by intros [= _ <-]]. Qed.
Next Obligation. intros w k o [x E]. cbn. rewrite E. eauto. Qed.
Next Obligation.
  intros w ns l [= <-] m. rewrite list_elem_of_omap. split.
  - intros ([[a n] o] & Hin & E). cbn in E. destruct (String.eqb_spec a ns) as [->|]; [|done]. injection E as <-.
    exists n. by apply elem_of_map_to_list in Hin.
  - intros [n Hn]. exists ((ns, n), m). split; [by apply elem_of_map_to_list|]. cbn. by rewrite String.eqb_refl.
Qed.
Next Obligation. intros w k ns n o. cbn. unfold named. by intros [_ E]%map_lookup_filter_Some. Qed.

Lemma store_answers : answers store.
Proof.
  unfold answers. split_and!.
  - intros w k ns n e. cbn. by destruct (named w k !! (ns, n)).
  - intros w k o E. cbn in *. rewrite E. eauto.
  - intros w k o [x E]. cbn in *. rewrite E. eauto.
  - intros w k o [x E]. cbn in *. rewrite E. eauto.
Qed.

(** ** The objects *)
#[export] Instance secret_eq_dec : EqDecision Secret.
Proof. solve_decision. Defined.
#[export] Instance klusterlet_config_eq_dec : EqDecision KlusterletConfig.
Proof. solve_decision. Defined.
#[export] Instance addon_config_eq_dec : EqDecision KlusterletAddonConfig.
Proof. solve_decision. Defined.
#[export] Instance from_event_eq_dec : EqDecision MigrationFromEvent.
Proof. solve_decision. Defined.
#[export] Instance to_event_eq_dec : EqDecision MigrationToEvent.
Proof. solve_decision. Defined.

Module Sample.
Definition config : KlusterletAddonConfig :=
  MkAddonConfig "c1" "c1" ["kubectl"] ["agent.finalizer"] [] "" "42" 3 "ready" "applicationManager: enabled".
Definition secret : Secret := MkSecret "multicluster-engine" "bootstrap-hub2" ∅.
Definition from_event (cs : list string) : MigrationFromEvent :=
  MkFromEvent cs (Some secret) (Some (MkKlusterletConfig "migration-hub2" "LocalSecrets" ["bootstrap-hub2"])).
Definition to_event : MigrationToEvent :=
  MkToEvent "m1" "open-cluster-management-agent-addon" (Some (clean_addon config)).

Definition plain_event : MigrationToEvent := MkToEvent "m1" "open-cluster-management-agent-addon" None.

#[local] Instance codec : MigrationCodec := {|
  marshal_from := index_encode [from_event ["c1"; "c2"]; from_event ["c1"; "lost"; "c2"]];
  unmarshal_from := index_decode [from_event ["c1"; "c2"]; from_event ["c1"; "lost"; "c2"]];
  marshal_to := index_encode [to_event; plain_event];
  unmarshal_to := index_decode [to_event; plain_event];
  marshal_addon := index_encode [clean_addon config];
  unmarshal_addon := index_decode [clean_addon config];
  string_of b := string_of_list_byte b;
  bytes_of s := list_byte_of_string s;
  write_kubeconfig _ := Ok [];
|}.
#[local] Instance codec_laws : MigrationCodecLaws.
Proof.
  split; cbn; intros; [by apply index_roundtrip..|]. apply list_byte_of_string_of_list_byte.
Qed.
#[local] Instance two_calls : Poller := poller_of 1.
#[local] Instance two_calls_laws : PollerLaws := poller_of_laws 1.
#[local] Instance two_updates : Retrier := retrier_of 1 (fun _ => false).
#[local] Instance two_updates_laws : RetrierLaws := retrier_of_laws 1 (fun _ => false).
#[local] Instance no_rows : ClusterRows unit := {| cluster_rows _ _ := Ok [] |}.
#[local] Instance by_key : RangeHubs := {| range_hubs := map_to_list |}.

Definition empty : store := fun k => ∅.
Definition from_hub : store :=
  put KAddonConfig {[("c1", "c1") := config]}
    (put KCluster {[("", "c1") := MkCluster "c1" ∅ true [] ["cluster.open-cluster-management.io/api-resource-cleanup"] false;
                    ("", "c2") := MkCluster "c2" ∅ true [] [] false;
                    ("", "c3") := MkCluster "c3" ∅ true [] [] false]} empty).
Definition to_hub : store :=
  put KClusterManager {[("", "cluster-manager") := MkManager "cluster-manager" None ""]} empty.
Definition migration : ManagedClusterMigration :=
  MkMigration "multicluster-global-hub" "m1" ∅ [ManagedClusterMigrationFinalizer] false "hub1" "hub2" ["c1"; "c2"].
(** Another migration, listed after the first. *)
Definition later : ManagedClusterMigration :=
  MkMigration "multicluster-global-hub" "m2" ∅ [ManagedClusterMigrationFinalizer] false "hub1" "hub3" ["c4"].
Definition global_hub : store :=
  put KServiceAccount {[("hub2", "m1") := MkMSA "hub2" "m1" ∅ [] false]} (put KMigration {[("multicluster-global-hub", "m1") := migration; ("multicluster-global-hub", "m2") := later]} empty).

Definition from_run : outcome (option goerror * store * list PlainEvent) :=
  mf_Sync (P := list PlainEvent) (Event := PlainEvent) true id [Byte.x00] from_hub [].
Definition done_run (o : outcome (option goerror * store * list PlainEvent)) : bool :=
  match o with Ret (None, _, _) => true | _ => false end.

(** The cluster with a finalizer is being deleted, the other one is gone. *)
Lemma migration_detaches_the_clusters_witness :
  exists w' pr', from_run = Ret (None, w', pr') /\
    mc_Deleting <$> clusters w' !! ("", "c1") = Some true /\ clusters w' !! ("", "c2") = None /\
    clusters w' !! ("", "c3") = Some (MkCluster "c3" ∅ true [] [] false) /\ pr' = [addon_event [Byte.x00]].
Proof.
  assert (match from_run with
          | Ret (None, w, _) => bool_decide (mc_Deleting <$> clusters w !! ("", "c1") = Some true) &&
              match clusters w !! ("", "c2") with None => true | _ => false end
          | _ => false end = true) as B by (vm_compute; reflexivity).
  destruct from_run as [[[[e|] w'] pr']| | |] eqn:E; try discriminate B. exists w', pr'.
  apply andb_true_iff in B as [B1%bool_decide_eq_true B2]. destruct (clusters w' !! ("", "c2")) eqn:E2; [discriminate B2|].
  unfold from_run in E.
  assert (unmarshal_from [Byte.x00] = Ok (from_event ["c1"; "c2"])) as U by (vm_compute; reflexivity).
  assert (forall w : store, clusters (id w) = clusters w) as Hid by done.
  destruct (migration_detaches_the_clusters id [Byte.x00] ["c1"; "c2"] secret _ from_hub w' [] pr' U Hid E) as (_ & C & S & _).
  clear E. split; [reflexivity|].
  assert (clusters from_hub !! ("", "c3") = Some (MkCluster "c3" ∅ true [] [] false)) as C3 by (vm_compute; reflexivity).
  assert (["c1"; "c2"] ≫= config_event (Event := PlainEvent) from_hub = [addon_event [Byte.x00]]) as Ev by (vm_compute; reflexivity).
  split; [exact B1|]. split; [reflexivity|].
  split; [exact (eq_trans (C "c3" ltac:(apply (bool_decide_unpack _); vm_compute; reflexivity)) C3)|exact (eq_trans S Ev)].
Defined.

Lemma unknown_cluster_stops_the_migration_witness :
  exists e w', mf_Sync (P := list PlainEvent) (Event := PlainEvent) true id [Byte.x00; Byte.x00] from_hub [] = Ret (Some e, w', []) /\
    is_Some (clusters w' !! ("", "c2")).
Proof.
  assert (unmarshal_from [Byte.x00; Byte.x00] = Ok (from_event (["c1"] ++ "lost" :: ["c2"]))) as U
    by (vm_compute; reflexivity).
  assert (forall x, x ∈ ["c1"] -> is_Some (clusters from_hub !! ("", x))) as Hpre.
  { intros x ->%list_elem_of_singleton. apply (bool_decide_unpack _). vm_compute. exact I. }
  assert (clusters from_hub !! ("", "lost") = None) as Hc by (vm_compute; reflexivity).
  destruct (unknown_cluster_stops_the_migration (P := list PlainEvent) (Event := PlainEvent) id [Byte.x00; Byte.x00]
              ["c1"] "lost" ["c2"] secret _ from_hub [] U store_answers Hpre Hc) as (e & w' & E & Same & _).
  exists e, w'. split; [exact E|]. specialize (Same ("", "c2")).
  destruct (clusters w' !! ("", "c2")); [eauto|]. vm_compute in Same. discriminate.
Defined.

Definition same_role (a b : ClusterRole) : bool := String.eqb (cr_Name a) (cr_Name b).
Definition same_binding (a b : ClusterRoleBinding) : bool := String.eqb (crb_Name a) (crb_Name b).
Definition prepared : option goerror * store := mt_Sync same_role same_binding [Byte.x00] to_hub.

Lemma target_hub_is_prepared_witness :
  (exists cm r, managers prepared.2 !! ("", "cluster-manager") = Some cm /\ RegistrationConfiguration cm = Some r /\
     approves r "system:serviceaccount:open-cluster-management-agent-addon:m1") /\
  mt_Sync same_role same_binding [Byte.x00] prepared.2 <> (None, prepared.2).
Proof.
  assert (to_payload [Byte.x00] to_event) as U by (vm_compute; reflexivity).
  assert (mt_Sync same_role same_binding [Byte.x00] to_hub = (None, prepared.2)) as E.
  { fold prepared. rewrite (surjective_pairing prepared) at 1. f_equal; vm_compute; reflexivity. }
  destruct (target_hub_is_prepared same_role same_binding [Byte.x00] to_event to_hub prepared.2 U store_answers E)
    as (A & _ & _ & _ & _ & Again).
  split; [exact A|]. apply Again.
Defined.

Definition sent : option goerror * list PlainEvent := sendKlusterletAddonConfig true "c1" from_hub [].
Definition annotated : option goerror * store :=
  handleKlusterletAddonConfigEvent (Event := PlainEvent) "multicluster-global-hub" (addon_event [Byte.x00]) global_hub.
Definition reconciliation : outcome (reconciled (W := store) (P := list PlainEvent)) :=
  mg_Reconcile (Event := PlainEvent) "multicluster-global-hub" false "multicluster-global-hub" "m1" None tt annotated.2 [].
Definition result_of (o : outcome (reconciled (W := store) (P := list PlainEvent)))
    : option ((bool * option goerror) * (option Secret * list PlainEvent)) :=
  match o with Ret (r, (secret, _, pr)) => Some (r, (secret, pr)) | _ => None end.
Lemma result_of_Ret o r s pr : result_of o = Some (r, (s, pr)) -> exists w, o = Ret (r, (s, w, pr)).
Proof. destruct o as [[r0 [[s0 w0] pr0]]| | |]; cbn; [|done..]. intros [= -> -> ->]. eauto. Qed.

Lemma addon_config_reaches_the_target_witness :
  exists cfg', addons prepared.2 !! ("c1", "c1") = Some cfg' /\ ac_Rest cfg' = "applicationManager: enabled".
Proof.
  assert (addons from_hub !! ("c1", "c1") = Some config) as Hcfg by (vm_compute; reflexivity).
  assert (sendKlusterletAddonConfig (P := list PlainEvent) (Event := PlainEvent) true "c1" from_hub [] =
            (None, [addon_event [Byte.x00]])) as Hsend by (vm_compute; reflexivity).
  assert (olist_migrations global_hub "multicluster-global-hub" = Ok [migration; later]) as Hm by (vm_compute; reflexivity).
  assert (ManagedClusterMigrationFinalizer ∈ mg_Finalizers migration) as Hfin by by left.
  assert (handleKlusterletAddonConfigEvent (Event := PlainEvent) "multicluster-global-hub" (addon_event [Byte.x00])
            global_hub = (None, annotated.2)) as Hh.
  { fold annotated. rewrite (surjective_pairing annotated) at 1. f_equal; vm_compute; reflexivity. }
  set (e2 := utils_ToCloudEvent (Event := PlainEvent) CloudEventTypeMigrationTo CloudEventSourceGlobalHub "hub2" [Byte.x00]).
  assert (exists w2, mg_Reconcile (Event := PlainEvent) "multicluster-global-hub" false "multicluster-global-hub" "m1"
            (None : option Secret) tt annotated.2 [] = Ret ((false, None), (None, w2, [e2]))) as [w2 Hrec]
    by (apply result_of_Ret; vm_compute; reflexivity).
  assert (mt_Sync same_role same_binding [Byte.x00] to_hub = (None, prepared.2)) as Hto.
  { fold prepared. rewrite (surjective_pairing prepared) at 1. f_equal; vm_compute; reflexivity. }
  assert (Forall (fun e : PlainEvent => handleKlusterletAddonConfigEvent "multicluster-global-hub" e global_hub = (None, annotated.2))
            (drop (length (sent_events (P := list PlainEvent) [])) (sent_events [addon_event [Byte.x00]]))) as Fh
    by (apply Forall_singleton; exact Hh).
  assert (Data e2 = [Byte.x00]) as De by reflexivity.
  assert (Forall (fun e : PlainEvent => mt_Sync same_role same_binding (Data e) to_hub = (None, prepared.2))
            (drop (length (sent_events (P := list PlainEvent) [])) (sent_events [e2]))) as Ft
    by (apply Forall_singleton; rewrite De; exact Hto).
  clearbody e2.
  pose proof (addon_config_reaches_the_target (P := list PlainEvent) (Event := PlainEvent) same_role same_binding
    "multicluster-global-hub" false from_hub global_hub annotated.2 w2 to_hub prepared.2 [] [addon_event [Byte.x00]]
    [] [e2] tt None None "c1" config migration [later] Hcfg Hsend Hm eq_refl Hfin Fh) as R.
  destruct (R Hrec Ft) as [_ R']. exact R'.
Defined.
Definition deleted : ManagedServiceAccount := MkMSA "hub2" "m1" {["owner" := migration_owner]} [] false.
Definition alone : store := put KServiceAccount ∅ global_hub.
Definition recreation : outcome (reconciled (W := store) (P := list PlainEvent)) :=
  mg_Reconcile (Event := PlainEvent) "multicluster-global-hub" false "multicluster-global-hub" "m1" None tt alone [].

Lemma service_account_follows_the_migration_witness :
  exists w' pr', recreation = Ret ((false, None), (None, w', pr')) /\
    is_Some (objects w' KServiceAccount !! ("hub2", "m1")).
Proof.
  assert (match result_of recreation with Some (r, (s, _)) => bool_decide (r = (false, None) /\ s = None) | None => false end = true)
    as B by (vm_compute; reflexivity).
  destruct (result_of recreation) as [[r [s pr']]|] eqn:E; [|discriminate B].
  apply bool_decide_eq_true_1 in B as [-> ->]. destruct (result_of_Ret _ _ _ _ E) as [w' Hrun].
  clear E. exists w', pr'. split; [exact Hrun|].
  assert (objects alone KMigration !! ("multicluster-global-hub", mg_Name migration) = Some migration) as Hm
    by (vm_compute; reflexivity).
  assert (ManagedClusterMigrationFinalizer ∈ mg_Finalizers migration) as Hfin by by left.
  destruct (service_account_follows_the_migration (Event := PlainEvent) "multicluster-global-hub" false migration deleted
    alone w' [] pr' tt None None Hm eq_refl eq_refl Hfin Hrun) as [_ (a & Ha & _)].
  exists a. exact Ha.
Defined.
End Sample.
