(* ===== verification/Retention.v ===== *)
(** * The retention of the data

    The text of the operand that says how many months of data are kept
    ([ParseRetentionMonth], [pkg/utils/time.go]), and the number of months that
    the operator hands to the manager ([operator/pkg/controllers/manager]) and
    reports ([operator/pkg/controllers/storage]). *)

From Stdlib Require Import ZArith Ascii String Lia Numbers.DecimalString Numbers.DecimalN.
From stdpp Require Import prelude strings list gmap.
From S2P Require Import Prelude.
From S2P Require Import GoLib.
From S2P Require Import Regex.
From S2P Require Import HubManagement.

Local Open Scope string_scope.
Local Open Scope list_scope.

(** ** Regular expressions *)
Definition digit (c : ascii) : bool := let n := nat_of_ascii c in ((48 <=? n) && (n <=? 57))%nat.

(** The rest of [^[0-9][0-9my]*[m|y]$] after its first character; the last class
    holds the bar as well. *)
Fixpoint retention_tail (s : string) : bool :=
  match s with
  | EmptyString => false
  | String c EmptyString => Ascii.eqb c "m" || Ascii.eqb c "|" || Ascii.eqb c "y"
  | String c s' => (digit c || Ascii.eqb c "m" || Ascii.eqb c "y") && retention_tail s'
  end.
Definition validateRegex (s : string) : bool :=
  match s with EmptyString => false | String c s' => digit c && retention_tail s' end.

(** A match of a captured, possibly empty, run of digits that [u] follows, at the
    start of [s], the run greedy; [acc] is what is already captured. *)
Fixpoint digits_then (u : ascii) (acc s : string) : option string :=
  let stop := match s with String c _ => if Ascii.eqb c u then Some acc else None | EmptyString => None end in
  match s with
  | EmptyString => stop
  | String c s' =>
      if digit c then
        match digits_then u (acc +:+ String c "") s' with Some r => Some r | None => stop end
      else stop
  end.

(** The leftmost match. *)
Fixpoint find_number (u : ascii) (s : string) : option string :=
  match digits_then u "" s with
  | Some r => Some r
  | None => match s with EmptyString => None | String _ s' => find_number u s' end
  end.

(** [strconv.Atoi] *)
Definition Atoi (s : string) : result Z :=
  match ParseInt s with (z, None) => Ok z | (_, Some e) => Err e end.

(** ** [ParseRetentionMonth] *)
Definition ParseRetentionMonth (s : string) : result Z :=
  if negb (validateRegex s) then Err ("invalid retention " +:+ s)
  else
    let? years :=
      match find_number "y" s with
      | None => Ok 0%Z
      | Some n => if String.eqb n "" then Err ("unable to parse year from " +:+ s) else Atoi n
      end in
    let? months :=
      match find_number "m" s with
      | None => Ok 0%Z
      | Some n => if String.eqb n "" then Err ("unable to parse month from " +:+ s) else Atoi n
      end in
    Ok (swrap64 (swrap64 (years * 12) + months)).

(** What the operator passes to the manager as [--data-retention]. *)
Definition RetentionMonth (retention : string) : result Z :=
  match ParseRetentionMonth retention with
  | Err e => Err ("failed to parse month retention: " +:+ e)
  | Ok months => Ok (if (months <? 1)%Z then 1%Z else months)
  end.

(** The condition that the operator reports: whether it holds, its reason and its
    message. *)
Definition getRetentionConditions (retention : string) : bool * string * string :=
  match ParseRetentionMonth retention with
  | Err e => (false, "DataRetentionParsedFailed", "failed to parse the retention month, err:" +:+ e)
  | Ok months =>
      let months := if (months <? 1)%Z then 1%Z else months in
      (true, "DataRetentionParsed", "The data will be kept in the database for " +:+ FormatInt months +:+ " months.")
  end.

(** ** Facts *)
Definition digits (s : string) : bool := forallb digit (String.list_ascii_of_string s).

Lemma digits_then_stop u w c r acc : digits w = true -> digit c = false ->
  digits_then u acc (w +:+ String c r) = (if Ascii.eqb c u then Some (acc +:+ w) else None) \/ digit u = true.
Proof.
  intros Hw Hc. destruct (digit u) eqn:Hu; [by right|left]. revert acc Hw.
  induction w as [|x w IH]; intros acc Hw.
  - app_simpl. rewrite Hc. destruct (Ascii.eqb c u); [|done]. by rewrite string_app_nil.
  - unfold digits in Hw. cbn [String.list_ascii_of_string forallb] in Hw. apply andb_true_iff in Hw as [Hx Hw].
    app_simpl. rewrite Hx, IH by done. destruct (Ascii.eqb_spec c u) as [->|Hne].
    + by rewrite string_app_assoc.
    + destruct (Ascii.eqb_spec x u) as [->|]; [congruence|done].
Qed.

Lemma find_number_skip u w c r : digits w = true -> digit c = false -> digit u = false -> c <> u ->
  find_number u (w +:+ String c r) = find_number u r.
Proof.
  intros Hw Hc Hu Hne. induction w as [|x w IH].
  - app_simpl. rewrite Hc. destruct (Ascii.eqb_spec c u); [done|]. reflexivity.
  - pose proof (digits_then_stop u (String x w) c r "" Hw Hc) as [E|]; [|congruence].
    destruct (Ascii.eqb_spec c u); [done|].
    unfold digits in Hw. cbn [String.list_ascii_of_string forallb] in Hw. apply andb_true_iff in Hw as [Hx Hw].
    rewrite append_cons in E |- *. cbn [find_number]. rewrite E. by apply IH.
Qed.

Lemma find_number_here u w r : digits w = true -> digit u = false -> find_number u (w +:+ String u r) = Some w.
Proof.
  intros Hw Hu. pose proof (digits_then_stop u w u r "" Hw Hu) as [E|]; [|congruence].
  rewrite Ascii.eqb_refl, append_nil in E. destruct (w +:+ String u r); cbn [find_number]; by rewrite E.
Qed.

Lemma find_number_none u : find_number u "" = None.
Proof. done. Qed.

Lemma digits_of_uint d : digits (NilEmpty.string_of_uint d) = true.
Proof. induction d as [|d IH|d IH|d IH|d IH|d IH|d IH|d IH|d IH|d IH|d IH]; [done|exact IH..]. Qed.

Lemma NilZero_of_uint d : d <> Decimal.Nil -> NilZero.string_of_uint d = NilEmpty.string_of_uint d.
Proof. by destruct d. Qed.

Lemma FormatUint_digits z : digits (FormatUint z) = true.
Proof. unfold FormatUint. rewrite NilZero_of_uint by apply N_to_uint_nonnil. apply digits_of_uint. Qed.

Lemma FormatUint_cons z : exists c w, FormatUint z = String c w /\ digit c = true.
Proof.
  pose proof (FormatUint_digits z) as Hd. unfold FormatUint in *.
  rewrite NilZero_of_uint in * by apply N_to_uint_nonnil. pose proof (N_to_uint_nonnil (Z.to_N z)) as Hn.
  destruct (N.to_uint (Z.to_N z)); [done|..]; cbn [NilEmpty.string_of_uint] in *; eexists _, _; (split; [reflexivity|done]).
Qed.

Lemma Atoi_FormatUint z : (0 <= z < two63)%Z -> Atoi (FormatUint z) = Ok z.
Proof.
  intros [H0 H1]. unfold Atoi, ParseInt. destruct (FormatUint_cons z) as (c & w & E & Hc).
  assert (NilZero.uint_of_string (FormatUint z) = Some (N.to_uint (Z.to_N z))) as Eu.
  { unfold FormatUint. apply NilZero.usu, N_to_uint_nonnil. }
  rewrite E in *. clear E. destruct c as [[] [] [] [] [] [] [] []]; try done; rewrite Eu;
    rewrite DecimalN.Unsigned.of_to, Z2N.id by done; by rewrite (proj2 (Z.ltb_lt _ _) H1).
Qed.

Definition unit_char (c : ascii) : bool := Ascii.eqb c "m" || Ascii.eqb c "y".

Lemma retention_tail_digits w r : digits w = true -> r <> "" -> retention_tail (w +:+ r) = retention_tail r.
Proof.
  intros Hw Hr. induction w as [|x w IH]; [done|].
  unfold digits in Hw. cbn [String.list_ascii_of_string forallb] in Hw. apply andb_true_iff in Hw as [Hx Hw].
  rewrite append_cons. cbn [retention_tail]. destruct (w +:+ r) eqn:E.
  - destruct w; [by rewrite append_nil in E|done].
  - rewrite Hx. cbn [orb andb]. by apply IH.
Qed.

Lemma retention_tail_unit u c r : unit_char u = true -> retention_tail (String u (String c r)) = retention_tail (String c r).
Proof.
  unfold unit_char. intros Hu. cbn [retention_tail].
  destruct (Ascii.eqb u "m"), (Ascii.eqb u "y"); [..|done]; by rewrite ?orb_true_r, ?andb_true_l.
Qed.

(** A text of one number, or of two, with their units. *)
Lemma validate_one n u : unit_char u = true -> validateRegex (FormatUint n +:+ String u "") = true.
Proof.
  intros Hu. pose proof (FormatUint_digits n) as Hd. destruct (FormatUint_cons n) as (c & w & E & Hc).
  rewrite E in *. unfold digits in Hd. cbn [String.list_ascii_of_string forallb] in Hd.
  apply andb_true_iff in Hd as [_ Hw]. rewrite append_cons. cbn [validateRegex]. rewrite Hc.
  rewrite (retention_tail_digits w (String u "")) by done. cbn [retention_tail andb]. unfold unit_char in Hu.
  destruct (Ascii.eqb u "m"), (Ascii.eqb u "y"); try done; by rewrite orb_true_r.
Qed.

Lemma validate_two n u n' u' : unit_char u = true -> unit_char u' = true ->
  validateRegex (FormatUint n +:+ String u (FormatUint n' +:+ String u' "")) = true.
Proof.
  intros Hu Hu'. pose proof (FormatUint_digits n) as Hd. destruct (FormatUint_cons n) as (c & w & E & Hc).
  rewrite E in *. unfold digits in Hd. cbn [String.list_ascii_of_string forallb] in Hd.
  apply andb_true_iff in Hd as [_ Hw]. rewrite append_cons. cbn [validateRegex]. rewrite Hc.
  rewrite retention_tail_digits by done. pose proof (validate_one n' u' Hu') as V.
  destruct (FormatUint_cons n') as (c' & w' & E' & Hc'). rewrite E' in *. rewrite append_cons in *.
  rewrite retention_tail_unit by done. cbn [validateRegex] in V. apply andb_true_iff in V as [_ V].
  cbn [retention_tail]. destruct (w' +:+ String u' "") eqn:Ew; [by destruct w'|]. by rewrite Hc', V.
Qed.

Lemma not_empty n : String.eqb (FormatUint n) "" = false.
Proof. by destruct (FormatUint_cons n) as (c & w & -> & _). Qed.

Definition year_text (y : Z) : string := FormatUint y +:+ "y".
Definition month_text (m : Z) : string := FormatUint m +:+ "m".

Lemma parse_two_units (y m : Z) : (0 <= y < two63)%Z -> (0 <= m < two63)%Z ->
  let months := Ok (swrap64 (swrap64 (y * 12) + m)) in
  ParseRetentionMonth (year_text y +:+ month_text m) = months /\
  ParseRetentionMonth (month_text m +:+ year_text y) = months.
Proof.
  intros Hy Hm. unfold year_text, month_text, ParseRetentionMonth. rewrite !string_app_assoc.
  split.
  - change ("y" +:+ (FormatUint m +:+ "m")) with (String "y" (FormatUint m +:+ String "m" "")).
    rewrite validate_two by done. cbn [negb]. rewrite find_number_here by (done || apply FormatUint_digits).
    rewrite not_empty, Atoi_FormatUint by done. cbn [rbind].
    rewrite find_number_skip by (done || apply FormatUint_digits).
    rewrite find_number_here by (done || apply FormatUint_digits). by rewrite not_empty, Atoi_FormatUint.
  - change ("m" +:+ (FormatUint y +:+ "y")) with (String "m" (FormatUint y +:+ String "y" "")).
    rewrite validate_two by done. cbn [negb]. rewrite find_number_skip by (done || apply FormatUint_digits).
    rewrite find_number_here by (done || apply FormatUint_digits).
    rewrite not_empty, Atoi_FormatUint by done. cbn [rbind].
    rewrite find_number_here by (done || apply FormatUint_digits). by rewrite not_empty, Atoi_FormatUint.
Qed.

Lemma parse_one_unit (n : Z) : (0 <= n < two63)%Z ->
  ParseRetentionMonth (year_text n) = Ok (swrap64 (swrap64 (n * 12) + 0)) /\
  ParseRetentionMonth (month_text n) = Ok (swrap64 (swrap64 (0 * 12) + n)).
Proof.
  intros Hn. unfold year_text, month_text, ParseRetentionMonth. split.
  - rewrite (validate_one n "y") by done. cbn [negb]. rewrite find_number_here by (done || apply FormatUint_digits).
    rewrite not_empty, Atoi_FormatUint by done. cbn [rbind].
    by rewrite find_number_skip by (done || apply FormatUint_digits).
  - rewrite (validate_one n "m") by done. cbn [negb].
    rewrite find_number_skip by (done || apply FormatUint_digits).
    rewrite find_number_none. cbn [rbind]. rewrite find_number_here by (done || apply FormatUint_digits).
    by rewrite not_empty, Atoi_FormatUint.
Qed.

Lemma swrap64_range z : i64_ok (swrap64 z).
Proof. unfold i64_ok, swrap64, two63, two64. pose proof (Z.mod_pos_bound (z + 2 ^ 63) (2 ^ 64) eq_refl). lia. Qed.

(** A retention of years and months, in either order or with one of them,
    parses to its number of months as long as that fits in an integer. *)
Theorem retention_text_round_trip (y m : Z) (Hy : (0 <= y)%Z) (Hm : (0 <= m)%Z) (Hfit : (12 * y + m < two63)%Z) :
  ParseRetentionMonth (year_text y +:+ month_text m) = Ok (12 * y + m)%Z /\
  ParseRetentionMonth (month_text m +:+ year_text y) = Ok (12 * y + m)%Z /\
  ParseRetentionMonth (year_text y) = Ok (12 * y)%Z /\ ParseRetentionMonth (month_text m) = Ok m.
Proof.
  assert (forall z, (0 <= z < two63)%Z -> swrap64 z = z) as W.
  { intros z Hz. apply swrap64_small. unfold i64_ok, two63 in *. lia. }
  destruct (parse_two_units y m) as [-> ->]; [unfold two63 in *; lia..|].
  destruct (parse_one_unit y) as [-> _]; [unfold two63 in *; lia|].
  destruct (parse_one_unit m) as [_ ->]; [unfold two63 in *; lia|].
  rewrite (W (y * 12)%Z), (W (0 * 12)%Z), (W (y * 12 + m)%Z), (W (y * 12 + 0)%Z), (W (0 * 12 + m)%Z)
    by (unfold two63 in *; lia).
  repeat split; f_equal; lia.
Qed.

(** C34: the operator always hands over at least one month and a number that fits
    in an integer; but a number of years whose months do not fit wraps around
    and silently becomes a shorter retention. *)
Theorem retention_is_bounded_and_wraps :
  (forall s months, RetentionMonth s = Ok months -> (1 <= months < two63)%Z) /\
  (forall y, (0 <= y < two63)%Z ->
     RetentionMonth (year_text y) = Ok (Z.max 1 (swrap64 (12 * y))) /\
     ((two63 <= 12 * y)%Z -> (Z.max 1 (swrap64 (12 * y)) < 12 * y)%Z)).
Proof.
  split.
  - intros s months. unfold RetentionMonth. destruct (ParseRetentionMonth s) as [n|e] eqn:E; [|done]. intros [= <-].
    assert (i64_ok n) as [_ Hn].
    { unfold ParseRetentionMonth in E. destruct (negb _); [done|].
      destruct (match find_number "y" s with None => Ok 0%Z | Some _ => _ end) as [ys|]; [|done]. cbn [rbind] in E.
      destruct (match find_number "m" s with None => Ok 0%Z | Some _ => _ end) as [ms|]; [|done]. cbn [rbind] in E.
      injection E as <-. apply swrap64_range. }
    destruct (Z.ltb_spec n 1); [done|]. lia.
  - intros y Hy. unfold RetentionMonth. destruct (parse_one_unit y Hy) as [-> _].
    rewrite Z.add_0_r, (swrap64_small (swrap64 _)) by apply swrap64_range. rewrite (Z.mul_comm y 12).
    split; [f_equal; destruct (Z.ltb_spec (swrap64 (12 * y)) 1); lia|].
    intros Hbig. pose proof (swrap64_range (12 * y)) as [_ Hs]. unfold two63 in *. lia.
Qed.

Module Sample.
Lemma retention_text_round_trip_witness :
  ParseRetentionMonth "2y3m" = Ok 27%Z /\ ParseRetentionMonth "3m2y" = Ok 27%Z /\
  ParseRetentionMonth "2y" = Ok 24%Z /\ ParseRetentionMonth "3m" = Ok 3%Z.
Proof. exact (retention_text_round_trip 2 3 ltac:(lia) ltac:(lia) eq_refl). Defined.

Lemma retention_is_bounded_and_wraps_witness :
  RetentionMonth "1537228672809129302y" = Ok 8%Z /\ (8 < 12 * 1537228672809129302)%Z.
Proof.
  destruct retention_is_bounded_and_wraps as [_ W].
  destruct (W 1537228672809129302%Z) as [E L]; [split; [discriminate|reflexivity]|].
  split; [exact E|]. exact (L ltac:(discriminate)).
Defined.

(** The bar is accepted as a unit, and an unknown text is refused. *)
Example bar_is_accepted : RetentionMonth "18|" = Ok 1%Z.
Proof. reflexivity. Qed.
Example other_texts_are_refused :
  map ParseRetentionMonth ["-1y4m"; "-y"; "2+m"; "5my"] =
  [Err "invalid retention -1y4m"; Err "invalid retention -y"; Err "invalid retention 2+m";
   Err "unable to parse year from 5my"].
Proof. reflexivity. Qed.
End Sample.

(** ** The retention job of the manager

    The monthly job that creates the partitions of the coming month, drops those
    that the retention no longer covers and deletes the expired records
    ([manager/pkg/processes/cronjob/task/data_retention.go]). A month is counted
    from the year 0; the first instant of a month is the time the code computes
    from it. *)

(** [time.Date] on the first of a month, and [AddDate] from it. *)
Definition month_of (year month : Z) : Z := (12 * year + (month - 1))%Z.
Definition AddMonths (m n : Z) : Z := (m + n)%Z.

(** [Format] with the layouts of the year and of the month, zeros to the left. *)
Fixpoint zeros (n : nat) : string := match n with O => "" | S n' => String "0" (zeros n') end.
Definition pad (width : nat) (z : Z) : string :=
  let s := FormatUint z in zeros (width - String.length s) +:+ s.
Definition FormatPartitionDate (m : Z) : string := pad 4 (m / 12) +:+ "_" +:+ pad 2 (m mod 12 + 1).

Definition RetentionTaskName : string := "data-retention".
Definition RetentionTables : list string := ["status.managed_clusters"; "status.leaf_hubs"; "local_spec.policies"].
Definition PartitionTables : list string :=
  ["event.local_policies"; "event.local_root_policies"; "history.local_compliance"; "event.managed_clusters"].

(** [fmt.Sprintf] of a table and the month of its partition. *)
Definition partition_name (tableName : string) (m : Z) : string := tableName +:+ "_" +:+ FormatPartitionDate m.

(** The statements of the job. *)
Inductive retention_stmt :=
| CreatePartition (name parent : string) (from to : Z)   (** [IF NOT EXISTS] *)
| DropTable (name : string)                              (** [IF EXISTS] *)
| DeleteSoftDeleted (table : string) (before : Z)        (** [deleted_at < ] the first instant *)
| DeleteBeats (before : Z) (status : string).            (** [last_timestamp < ? AND status = ?] *)

(** The model without [EndAt], which is the clock. *)
Record DataRetentionJobLog := MkRetentionLog {
  dl_Name : string;
  dl_StartAt : Z;
  dl_MinPartition : string;
  dl_MaxPartition : string;
  dl_MinDeletion : option Z;
  dl_Error : string;
}.

Class RetentionStore (D : Type) := {
  rt_lock : D -> option goerror;
  rt_exec : D -> retention_stmt -> option goerror * D;
  rt_partitions : D -> string -> string -> result (list string);   (** of a schema and a table, ascending *)
  rt_min_deleted : D -> string -> result (option Z);               (** [None] is the zero time *)
  rt_log : D -> DataRetentionJobLog -> option goerror * D;
}.

Section Job.
Context {D : Type} `{RetentionStore D}.

Definition updatePartitionTables (tableName : string) (createTime deleteTime : Z) (d : D) : option goerror * D :=
  let startTime := createTime in
  let endTime := AddMonths startTime 1 in
  match rt_exec d (CreatePartition (partition_name tableName startTime) tableName startTime endTime) with
  | (Some e, d1) => (Some ("failed to create partition table " +:+ tableName +:+ ": " +:+ e), d1)
  | (None, d1) =>
      match rt_exec d1 (DropTable (partition_name tableName deleteTime)) with
      | (Some e, d2) => (Some ("failed to delete partition table " +:+ tableName +:+ ": " +:+ e), d2)
      | (None, d2) => (None, d2)
      end
  end.

Definition deleteExpiredRecords (tableName : string) (minDate : Z) (d : D) : option goerror * D :=
  match rt_exec d (DeleteSoftDeleted tableName minDate) with
  | (Some e, d1) => (Some ("failed to delete records from " +:+ tableName +:+ ": " +:+ e), d1)
  | (None, d1) => (None, d1)
  end.

Definition getMinMaxPartitions (tableName : string) (d : D) : result (string * string) :=
  match split_char "." tableName with
  | [schema; table] =>
      match rt_partitions d schema table with
      | Err e => Err ("failed to get min/max partition table: " +:+ e)
      | Ok [] => Ok ("", "")
      | Ok (t :: ts) => Ok (t, List.last ts t)
      end
  | _ => Err ("invalid table name: " +:+ tableName)
  end.

Definition getMinDeletionTime (tableName : string) (d : D) : result (option Z) :=
  match rt_min_deleted d tableName with
  | Err e => Err ("failed to get min deletion time: " +:+ e)
  | Ok t => Ok t
  end.

Definition traceDataRetentionLog (tableName : string) (startTime : Z) (err : option goerror) (partition : bool)
    (d : D) : option goerror * D :=
  let error := default "none" err in
  if partition then
    match getMinMaxPartitions tableName d with
    | Err e => (Some e, d)
    | Ok (minPartition, maxPartition) =>
        rt_log d (MkRetentionLog tableName startTime minPartition maxPartition None error)
    end
  else
    let minDeletion := match getMinDeletionTime tableName d with Ok t => t | Err _ => None end in
    rt_log d (MkRetentionLog tableName startTime "" "" minDeletion error).

(** The loop over tables: an error of the work stops it, one of the trace does
    not. *)
Fixpoint retention_loop (work : string -> D -> option goerror * D) (partition : bool) (currentMonth : Z)
    (tables : list string) (d : D) : option goerror * D :=
  match tables with
  | [] => (None, d)
  | tableName :: rest =>
      let '(err, d1) := work tableName d in
      let '(_, d2) := traceDataRetentionLog tableName currentMonth err partition d1 in
      match err with
      | Some e => (Some e, d2)
      | None => retention_loop work partition currentMonth rest d2
      end
  end.

(** The value that the gauge of the job is set to, if it is. *)
Definition DataRetention (currentMonth retentionMonth : Z) (d : D) : option Z * D :=
  match rt_lock d with
  | Some _ => (None, d)
  | None =>
      let gauge (err : option goerror) := match err with Some _ => Some 1%Z | None => Some 0%Z end in
      let createMonth := AddMonths currentMonth 1 in
      let deleteMonth := AddMonths currentMonth (- (retentionMonth + 1)) in
      let '(err, d1) := retention_loop (fun t => updatePartitionTables t createMonth deleteMonth) true
                          currentMonth PartitionTables d in
      match err with
      | Some _ => (gauge err, d1)
      | None =>
          let minTime := AddMonths currentMonth (- retentionMonth) in
          let '(err, d2) := retention_loop (fun t => deleteExpiredRecords t minTime) false
                              currentMonth RetentionTables d1 in
          match err with
          | Some _ => (gauge err, d2)
          | None =>
              let '(err, d3) := rt_exec d2 (DeleteBeats minTime HubInactive) in
              (gauge err, d3)
          end
      end
  end.

(** The runs of the job in some months, with the gauge after each. *)
Fixpoint retention_runs (retentionMonth : Z) (months : list Z) (d : D) : list (option Z) * D :=
  match months with
  | [] => ([], d)
  | c :: cs =>
      let '(g, d1) := DataRetention c retentionMonth d in
      let '(gs, d2) := retention_runs retentionMonth cs d1 in
      (g :: gs, d2)
  end.
End Job.
