(* ===== verification/RetentionFacts.v ===== *)
(** * What the retention job keeps

    The partitions of a table form a window of months that moves with the job,
    and the expired records go, as long as the job runs every month; a month
    without a run leaves a hole and a leftover for ever. *)

From Stdlib Require Import ZArith Ascii String Lia.
From stdpp Require Import prelude gmap strings list sorting.
From Stdlib Require Import Numbers.DecimalString.
From S2P Require Import Prelude.
From S2P Require Import GoLib.
From S2P Require Import Regex.
From S2P Require Import HubManagement.
From S2P Require Import Retention.
Local Open Scope string_scope.
Local Open Scope list_scope.

(** ** The meaning of the statements *)

(** The partitions by name, with their table and range; the rows that can be
    marked as deleted, by table and key; the heartbeats by hub. *)
Record RetentionDB := MkRetDB {
  rd_parts : gmap string (string * (Z * Z));
  rd_soft : gmap (string * string) (option Z);
  rd_beats : gmap string (string * Z);
}.

(** The first instant of a month in the time zone of the manager. *)
Class Calendar := {
  month_start : Z -> Z;
  month_start_mono a b : (a < b)%Z -> (month_start a < month_start b)%Z;
}.

Section Semantics.
Context `{Calendar}.

Definition overlaps (parent : string) (from to : Z) (kv : string * (string * (Z * Z))) : bool :=
  String.eqb kv.2.1 parent && (from <? kv.2.2.2)%Z && (kv.2.2.1 <? to)%Z.

Definition expired_row (table : string) (before : Z) (kv : (string * string) * option Z) : Prop :=
  kv.1.1 = table /\ match kv.2 with Some t => (t < month_start before)%Z | None => False end.
#[export] Instance expired_row_dec table before kv : Decision (expired_row table before kv).
Proof. unfold expired_row. destruct (kv.2); apply _. Defined.

Definition expired_beat (before : Z) (status : string) (kv : string * (string * Z)) : Prop :=
  (kv.2.2 < month_start before)%Z /\ kv.2.1 = status.
#[export] Instance expired_beat_dec before status kv : Decision (expired_beat before status kv).
Proof. unfold expired_beat. apply _. Defined.

Definition exec_retention (s : retention_stmt) (t : RetentionDB) : result RetentionDB :=
  match s with
  | CreatePartition name parent from to =>
      match rd_parts t !! name with
      | Some _ => Ok t
      | None =>
          if existsb (overlaps parent from to) (map_to_list (rd_parts t)) then Err "would overlap"
          else Ok (MkRetDB (<[name := (parent, (from, to))]> (rd_parts t)) (rd_soft t) (rd_beats t))
      end
  | DropTable name => Ok (MkRetDB (delete name (rd_parts t)) (rd_soft t) (rd_beats t))
  | DeleteSoftDeleted table before =>
      Ok (MkRetDB (rd_parts t) (filter (fun kv => ~ expired_row table before kv) (rd_soft t)) (rd_beats t))
  | DeleteBeats before status =>
      Ok (MkRetDB (rd_parts t) (rd_soft t) (filter (fun kv => ~ expired_beat before status kv) (rd_beats t)))
  end.

Class RetentionLaws (D : Type) `{RetentionStore D} := {
  rdb : D -> RetentionDB;
  rt_done d s d' : rt_exec d s = (None, d') -> exec_retention s (rdb d) = Ok (rdb d');
  rt_failed d s e d' : rt_exec d s = (Some e, d') -> rdb d' = rdb d;
  rt_logged d l : rdb (rt_log d l).2 = rdb d;
}.
End Semantics.

(** A store without failures that keeps the log. *)
#[export] Instance log_store `{Calendar} : RetentionStore (RetentionDB * list DataRetentionJobLog) := {|
  rt_lock _ := None;
  rt_exec d s := match exec_retention s d.1 with Ok t => (None, (t, d.2)) | Err e => (Some e, d) end;
  rt_partitions d schema table :=
    Ok (merge_sort String.le (omap (fun kv : string * (string * (Z * Z)) =>
          if String.eqb kv.2.1 (schema +:+ "." +:+ table) then Some kv.1 else None) (map_to_list (rd_parts d.1))));
  rt_min_deleted _ _ := Ok None;
  rt_log d l := (None, (d.1, d.2 ++ [l]));
|}.
#[export] Program Instance log_store_laws `{Calendar} : RetentionLaws (RetentionDB * list DataRetentionJobLog) :=
  {| rdb := fst |}.
Next Obligation. intros C [t l] s [t' l']. cbn. destruct (exec_retention s t); [|done]. by intros [= <- _]. Qed.
Next Obligation. intros C [t l] s e [t' l']. cbn. destruct (exec_retention s t); [done|]. by intros [= _ <- _]. Qed.
Next Obligation. done. Qed.

(** ** The names of the partitions *)
Lemma last_separator c x y : no_char c x = true -> no_char c y = true -> forall a b,
  a +:+ String c x = b +:+ String c y -> a = b /\ x = y.
Proof.
  intros Hx Hy.
  assert (forall z w, no_char c z = true -> z <> w +:+ String c y /\ z <> w +:+ String c x) as N.
  { intros z w Hz. split; intros ->; rewrite no_char_app in Hz; cbn [no_char] in Hz;
      rewrite Ascii.eqb_refl in Hz; by rewrite andb_false_r in Hz. }
  induction a as [|u a IH]; intros [|v b] E.
  - rewrite !append_nil in E. by injection E as ->.
  - rewrite append_nil, append_cons in E. injection E as -> E. by destruct (N x b Hx) as [[] _].
  - rewrite append_nil, append_cons in E. injection E as -> E. by destruct (N y a Hy) as [_ []].
  - rewrite !append_cons in E. injection E as -> E. by destruct (IH b E) as [-> ->].
Qed.

Lemma digits_no_char c s : digit c = false -> digits s = true -> no_char c s = true.
Proof.
  intros Hc. unfold digits. induction s as [|x s IH]; [done|]. cbn [String.list_ascii_of_string forallb no_char].
  intros [Hx Hs]%andb_true_iff. rewrite IH by done. destruct (Ascii.eqb_spec x c); [congruence|done].
Qed.

Lemma zeros_digits n s : digits s = true -> digits (zeros n +:+ s) = true.
Proof. intros Hs. induction n as [|n IH]; [done|]. cbn [zeros]. rewrite append_cons. exact IH. Qed.

Lemma pad_digits w z : digits (pad w z) = true.
Proof. apply zeros_digits, FormatUint_digits. Qed.

(** The number that a text of digits denotes. *)
Definition number (s : string) : option N := N.of_uint <$> NilEmpty.uint_of_string s.

Lemma number_zeros n s : number (zeros n +:+ s) = number s.
Proof.
  induction n as [|n IH]; [done|]. cbn [zeros]. rewrite append_cons, <- IH. unfold number.
  cbn [NilEmpty.uint_of_string uint_of_char]. destruct (NilEmpty.uint_of_string (zeros n +:+ s)); done.
Qed.

Lemma number_pad w z : number (pad w z) = Some (Z.to_N z).
Proof.
  unfold pad. rewrite number_zeros. unfold number, FormatUint.
  rewrite NilZero_of_uint by apply N_to_uint_nonnil. rewrite NilEmpty.usu. cbn. f_equal.
  apply DecimalN.Unsigned.of_to.
Qed.

Lemma pad_inj w z z' : (0 <= z)%Z -> (0 <= z')%Z -> pad w z = pad w z' -> z = z'.
Proof.
  intros Hz Hz' E. assert (Some (Z.to_N z) = Some (Z.to_N z')) as [= E'] by (rewrite <- !(number_pad w); congruence).
  lia.
Qed.

(** Different tables or months have different partitions. *)
Lemma partition_name_inj t m t' m' : (0 <= m)%Z -> (0 <= m')%Z ->
  partition_name t m = partition_name t' m' -> t = t' /\ m = m'.
Proof.
  unfold partition_name, FormatPartitionDate. intros Hm Hm' E.
  assert (forall a b c : string, a +:+ "_" +:+ b +:+ "_" +:+ c = (a +:+ String "_" b) +:+ String "_" c) as U.
  { intros. by rewrite string_app_assoc. }
  rewrite !U in E.
  apply last_separator in E as [E E2]; [|apply digits_no_char; [done|apply pad_digits]..].
  apply last_separator in E as [-> E1]; [|apply digits_no_char; [done|apply pad_digits]..].
  apply pad_inj in E1; [|apply Z.div_pos; lia..]. apply pad_inj in E2; [|pose proof (Z.mod_pos_bound m 12 eq_refl);
    pose proof (Z.mod_pos_bound m' 12 eq_refl); lia..].
  split; [done|]. rewrite (Z.div_mod m 12), (Z.div_mod m' 12) by done. lia.
Qed.

(** ** The effect of the job *)
Definition has (t : RetentionDB) (table : string) (m : Z) : Prop :=
  rd_parts t !! partition_name table m = Some (table, (m, (m + 1)%Z)).

(** Every name that a partition of the job can have belongs to that partition. *)
Definition parts_ok (t : RetentionDB) : Prop := forall table m v,
  table ∈ PartitionTables -> (0 <= m)%Z -> rd_parts t !! partition_name table m = Some v -> v = (table, (m, (m + 1)%Z)).

Definition created (m : Z) (t : RetentionDB) (table : string) : RetentionDB :=
  match rd_parts t !! partition_name table m with
  | Some _ => t
  | None => MkRetDB (<[partition_name table m := (table, (m, (m + 1)%Z))]> (rd_parts t)) (rd_soft t) (rd_beats t)
  end.
Definition dropped (m : Z) (t : RetentionDB) (table : string) : RetentionDB :=
  MkRetDB (delete (partition_name table m) (rd_parts t)) (rd_soft t) (rd_beats t).
Definition moved (new old : Z) (t : RetentionDB) (table : string) : RetentionDB :=
  dropped old (created new t table) table.

Section Facts.
Context `{Calendar} {D : Type} `{!RetentionStore D} `{!RetentionLaws D}.

Definition purged (before : Z) (t : RetentionDB) (table : string) : RetentionDB :=
  MkRetDB (rd_parts t) (filter (fun kv => ~ expired_row table before kv) (rd_soft t)) (rd_beats t).
Definition forgotten (before : Z) (t : RetentionDB) : RetentionDB :=
  MkRetDB (rd_parts t) (rd_soft t) (filter (fun kv => ~ expired_beat before HubInactive kv) (rd_beats t)).

Lemma update_partition_done table new old d d' :
  updatePartitionTables table new old d = (None, d') -> rdb d' = moved new old (rdb d) table.
Proof.
  unfold updatePartitionTables. destruct (rt_exec d _) as [[e|] d1] eqn:E1; [done|].
  destruct (rt_exec d1 _) as [[e|] d2] eqn:E2; [done|]. intros [= <-].
  apply rt_done in E1, E2. cbn [exec_retention] in *. injection E2 as <-.
  unfold moved, created. destruct (rd_parts (rdb d) !! _); [by injection E1 as ->|].
  destruct (existsb _ _); [done|]. by injection E1 as <-.
Qed.

Lemma delete_expired_done table before d d' :
  deleteExpiredRecords table before d = (None, d') -> rdb d' = purged before (rdb d) table.
Proof.
  unfold deleteExpiredRecords. destruct (rt_exec d _) as [[e|] d1] eqn:E1; [done|]. intros [= <-].
  apply rt_done in E1. by injection E1 as <-.
Qed.

Lemma trace_keeps table c err partition d : rdb (traceDataRetentionLog table c err partition d).2 = rdb d.
Proof.
  unfold traceDataRetentionLog. destruct partition; [|apply rt_logged].
  destruct (getMinMaxPartitions table d) as [[a b]|]; [apply rt_logged|done].
Qed.

Lemma retention_loop_done work step partition c tables :
  (forall t d d', work t d = (None, d') -> rdb d' = step (rdb d) t) -> forall d d',
  retention_loop work partition c tables d = (None, d') -> rdb d' = foldl step (rdb d) tables.
Proof.
  intros Hw. induction tables as [|t ts IH]; intros d d'; cbn [retention_loop foldl]; [by intros [= <-]|].
  destruct (work t d) as [err d1] eqn:E. pose proof (trace_keeps t c err partition d1) as T.
  destruct (traceDataRetentionLog _ _ _ _ d1) as [x d2]. cbn [snd] in T. destruct err as [e|]; [done|].
  intros E'%IH. rewrite E', T. f_equal. by apply Hw.
Qed.

(** What a run without an error does to the store. *)
Definition retained (c R : Z) (t : RetentionDB) : RetentionDB :=
  forgotten (c - R) (foldl (purged (c - R)) (foldl (moved (c + 1) (c - R - 1)) t PartitionTables) RetentionTables).

Lemma DataRetention_done c R d d' : DataRetention c R d = (Some 0%Z, d') -> rdb d' = retained c R (rdb d).
Proof.
  unfold DataRetention, retained. destruct (rt_lock d); [done|].
  destruct (retention_loop _ true _ _ d) as [err d1] eqn:E1. destruct err; [done|].
  destruct (retention_loop _ false _ _ d1) as [err d2] eqn:E2. destruct err; [done|].
  destruct (rt_exec d2 _) as [err d3] eqn:E3. destruct err; [done|]. intros [= <-].
  eapply (retention_loop_done _ (moved (c + 1) (c - R - 1))) in E1; cycle 1.
  { intros t x x' E. apply update_partition_done in E. rewrite E. unfold AddMonths. f_equal; lia. }
  eapply (retention_loop_done _ (purged (c - R))) in E2; cycle 1.
  { intros t x x' E. apply delete_expired_done in E. rewrite E. unfold AddMonths. f_equal; lia. }
  apply rt_done in E3. cbn [exec_retention] in E3. injection E3 as <-. unfold forgotten. rewrite <- E1, <- E2.
  unfold AddMonths. f_equal.
Qed.

(** *** Partitions *)
Lemma purge_parts R t tables : rd_parts (foldl (purged R) t tables) = rd_parts t.
Proof. revert t. by induction tables as [|x l IH]; intros t; [|cbn [foldl]; rewrite IH]. Qed.

Lemma moved_lookup new old t table table' m : (0 <= m)%Z -> (0 <= new)%Z -> (0 <= old)%Z ->
  rd_parts (moved new old t table) !! partition_name table' m =
  if bool_decide (table' = table /\ m = old) then None
  else if bool_decide (table' = table /\ m = new)
       then Some (default (table, (new, (new + 1)%Z)) (rd_parts t !! partition_name table' m))
       else rd_parts t !! partition_name table' m.
Proof.
  intros Hm Hn Ho. unfold moved, dropped. cbn [rd_parts].
  assert (forall x, (0 <= x)%Z -> partition_name table' m = partition_name table x <-> table' = table /\ m = x) as Inj.
  { intros x Hx. split; [by apply partition_name_inj|by intros [-> ->]]. }
  case_bool_decide as C1; [destruct C1 as [-> ->]; by rewrite lookup_delete_eq|].
  rewrite lookup_delete_ne by (intros E; symmetry in E; by apply Inj in E). unfold created.
  case_bool_decide as C2; [destruct C2 as [-> ->]|].
  - destruct (rd_parts t !! partition_name table new) as [v|] eqn:E; [by rewrite E|]. cbn [rd_parts].
    by rewrite lookup_insert_eq.
  - destruct (rd_parts t !! partition_name table new) as [v|] eqn:E; [done|]. cbn [rd_parts].
    apply lookup_insert_ne. intros E'. symmetry in E'. by apply Inj in E'.
Qed.

Lemma foldl_moved_lookup new old tables : (0 <= new)%Z -> (0 <= old)%Z -> new <> old -> NoDup tables ->
  forall t table m, (0 <= m)%Z ->
  rd_parts (foldl (moved new old) t tables) !! partition_name table m =
  if bool_decide (table ∈ tables /\ m = old) then None
  else if bool_decide (table ∈ tables /\ m = new)
       then Some (default (table, (new, (new + 1)%Z)) (rd_parts t !! partition_name table m))
       else rd_parts t !! partition_name table m.
Proof.
  intros Hn Ho Hne. induction 1 as [|x l Hx Hl IH]; intros t table m Hm; cbn [foldl].
  - rewrite !bool_decide_eq_false_2; [done|set_solver..].
  - rewrite IH by done. rewrite (moved_lookup new old t x table m) by done.
    destruct (decide (table = x)) as [->|Ht].
    + rewrite (bool_decide_eq_false_2 (x ∈ l /\ m = old)) by tauto.
      rewrite (bool_decide_eq_false_2 (x ∈ l /\ m = new)) by tauto.
      repeat case_bool_decide; set_solver.
    + rewrite (bool_decide_eq_false_2 (table = x /\ m = old)) by tauto.
      rewrite (bool_decide_eq_false_2 (table = x /\ m = new)) by tauto.
      rewrite (bool_decide_ext (table ∈ x :: l /\ m = old) (table ∈ l /\ m = old)) by set_solver.
      by rewrite (bool_decide_ext (table ∈ x :: l /\ m = new) (table ∈ l /\ m = new)) by set_solver.
Qed.

Lemma PartitionTables_NoDup : NoDup PartitionTables.
Proof. apply (bool_decide_unpack _). vm_compute. exact I. Qed.

Lemma retained_has c R t table m : parts_ok t -> table ∈ PartitionTables -> (0 <= R)%Z -> (0 <= c - R - 1)%Z -> (0 <= m)%Z ->
  has (retained c R t) table m <-> (has t table m \/ m = (c + 1)%Z) /\ m <> (c - R - 1)%Z.
Proof.
  intros Hok Ht HR Hc Hm. unfold has, retained, forgotten. cbn [rd_parts]. rewrite purge_parts.
  rewrite foldl_moved_lookup by (apply PartitionTables_NoDup || lia).
  case_bool_decide as C1; [destruct C1 as [_ ->]; intuition congruence|].
  case_bool_decide as C2; [destruct C2 as [_ ->]|intuition].
  destruct (rd_parts t !! _) as [v|] eqn:E; cbn [default].
  - rewrite (Hok _ _ _ Ht Hm E). intuition.
  - intuition congruence.
Qed.

Lemma retained_ok c R t : (0 <= R)%Z -> (0 <= c - R - 1)%Z -> parts_ok t -> parts_ok (retained c R t).
Proof.
  intros HR Hc Hok table m v Ht Hm. unfold retained, forgotten. cbn [rd_parts]. rewrite purge_parts.
  rewrite foldl_moved_lookup by (apply PartitionTables_NoDup || lia).
  case_bool_decide as C1; [done|]. case_bool_decide as C2; [destruct C2 as [_ ->]|by apply Hok].
  intros [= <-]. destruct (rd_parts t !! _) as [v|] eqn:E; [by apply Hok|done].
Qed.

Lemma last_cons {A} (l : list A) : forall x d, List.last (x :: l) d = List.last l x.
Proof.
  induction l as [|y l IH]; intros x d; [done|].
  change (List.last (x :: y :: l) d) with (List.last (y :: l) d). by rewrite (IH y d), (IH y x).
Qed.

(** The months of some runs follow each other: each is the one before or the next. *)
Fixpoint steady (c : Z) (months : list Z) : Prop :=
  match months with
  | [] => True
  | c' :: cs => (c' = c \/ c' = (c + 1)%Z) /\ steady c' cs
  end.

Lemma steady_le months : forall c, steady c months -> (c <= List.last months c)%Z.
Proof.
  induction months as [|x l IH]; intros c Hs; [cbn; lia|]. destruct Hs as [Hx Hs]. apply IH in Hs.
  rewrite last_cons. lia.
Qed.

Definition windowed (t : RetentionDB) (lo hi : Z) : Prop := forall table m,
  table ∈ PartitionTables -> (0 <= m)%Z -> has t table m <-> (lo <= m <= hi)%Z.

Lemma run_window c R lo hi d d' : (0 <= R)%Z -> (R < c)%Z -> parts_ok (rdb d) -> windowed (rdb d) lo hi ->
  (c - R - 1 <= lo <= c + 1)%Z -> (c <= hi <= c + 1)%Z -> DataRetention c R d = (Some 0%Z, d') ->
  parts_ok (rdb d') /\ windowed (rdb d') (Z.max lo (c - R)) (c + 1).
Proof.
  intros HR Hc Hok Hw Hlo Hhi ->%DataRetention_done. split; [by apply retained_ok; try lia|].
  intros table m Ht Hm. rewrite retained_has by (done || lia). rewrite (Hw table m Ht Hm). lia.
Qed.

Lemma runs_window R months : (0 <= R)%Z -> forall c lo hi d gs d',
  (R < c)%Z -> parts_ok (rdb d) -> windowed (rdb d) lo hi ->
  (c - R - 1 <= lo <= c + 1)%Z -> (c <= hi <= c + 1)%Z -> steady c months ->
  retention_runs R (c :: months) d = (gs, d') -> Forall (eq (Some 0%Z)) gs ->
  parts_ok (rdb d') /\ windowed (rdb d') (Z.max lo (List.last months c - R)) (List.last months c + 1).
Proof.
  intros HR. induction months as [|c' cs IH]; intros c lo hi d gs d' Hc Hok Hw Hlo Hhi Hs E Hg; cbn [retention_runs] in E.
  - destruct (DataRetention c R d) as [g d1] eqn:E1. injection E as <- <-. apply Forall_cons in Hg as [<- _].
    by eapply (run_window c R lo hi).
  - destruct (DataRetention c R d) as [g d1] eqn:E1.
    destruct (retention_runs R (c' :: cs) d1) as [gs1 d2] eqn:E2. cbn [retention_runs] in E2.
    rewrite E2 in E. injection E as <- <-.
    apply Forall_cons in Hg as [<- Hg]. destruct Hs as [Hc' Hs].
    destruct (run_window c R lo hi d d1) as [Hok1 Hw1]; [done..|].
    assert (steady c' cs) as Hs1 by done.
    destruct (IH c' (Z.max lo (c - R)) (c + 1)%Z d1 gs1 d2) as [Hok2 Hw2]; try done; try lia.
    split; [done|]. rewrite last_cons. pose proof (steady_le cs c' Hs) as Hl.
    intros table m Ht Hm. rewrite (Hw2 table m Ht Hm). lia.
Qed.

(** *** Rows *)
Lemma moved_soft new old t tables :
  rd_soft (foldl (moved new old) t tables) = rd_soft t /\ rd_beats (foldl (moved new old) t tables) = rd_beats t.
Proof.
  revert t. induction tables as [|x l IH]; intros t; [done|]. cbn [foldl].
  destruct (IH (moved new old t x)) as [-> ->]. unfold moved, dropped, created. cbn.
  by destruct (rd_parts t !! _).
Qed.

Lemma purged_soft before t tables k v :
  rd_soft (foldl (purged before) t tables) !! k = Some v <->
  rd_soft t !! k = Some v /\ ~ (k.1 ∈ tables /\ expired_row k.1 before (k, v)).
Proof.
  revert t. induction tables as [|x l IH]; intros t; cbn [foldl]; [set_solver|].
  rewrite IH. unfold purged. cbn [rd_soft]. rewrite map_lookup_filter_Some.
  assert (k.1 ∈ x :: l /\ expired_row k.1 before (k, v) <->
          expired_row x before (k, v) \/ (k.1 ∈ l /\ expired_row k.1 before (k, v))) as ->; [|tauto].
  unfold expired_row. cbn. set_solver.
Qed.

Lemma purged_beats before t tables : rd_beats (foldl (purged before) t tables) = rd_beats t.
Proof. revert t. by induction tables as [|x l IH]; intros t; [|cbn [foldl]; rewrite IH]. Qed.

(** C22: as long as the job runs at least once every month without an error, each
    partitioned table has exactly the partitions of the months from the retention
    before the current month to the month after it, among those it ever had. *)
Theorem retention_keeps_a_window (R c lo hi : Z) (months : list Z) (d d' : D) (gs : list (option Z))
    (HR : (0 <= R)%Z) (Hc : (R < c)%Z) (Hok : parts_ok (rdb d)) (Hw : windowed (rdb d) lo hi)
    (Hlo : (c - R - 1 <= lo <= c + 1)%Z) (Hhi : (c <= hi <= c + 1)%Z) (Hs : steady c months)
    (Hrun : retention_runs R (c :: months) d = (gs, d')) (Hg : Forall (eq (Some 0%Z)) gs) :
  let now := List.last months c in
  forall table m, table ∈ PartitionTables -> (0 <= m)%Z ->
    (has (rdb d') table m <-> (Z.max lo (now - R) <= m <= now + 1)%Z).
Proof. intros now. by apply (runs_window R months HR c lo hi d gs d'). Qed.

(** A run without an error deletes the rows that were marked as deleted
    before the retention and the inactive hubs that were last seen before it,
    and no other row. *)
Theorem retention_deletes_the_expired (R c : Z) (d d' : D) (Hrun : DataRetention c R d = (Some 0%Z, d')) :
  let before := month_start (c - R) in
  (forall k v, rd_soft (rdb d') !! k = Some v <->
     rd_soft (rdb d) !! k = Some v /\
     ~ (k.1 ∈ RetentionTables /\ exists t, v = Some t /\ (t < before)%Z)) /\
  (forall hub status t, rd_beats (rdb d') !! hub = Some (status, t) <->
     rd_beats (rdb d) !! hub = Some (status, t) /\ ~ (status = HubInactive /\ (t < before)%Z)).
Proof.
  rewrite (DataRetention_done _ _ _ _ Hrun). unfold retained, forgotten. cbn [rd_soft rd_beats].
  destruct (moved_soft (c + 1) (c - R - 1) (rdb d) PartitionTables) as [M1 M2]. split.
  - intros k v. rewrite purged_soft, M1. apply and_iff_compat_l. unfold expired_row. cbn.
    assert ((exists t, v = Some t /\ (t < month_start (c - R))%Z) <->
            match v with Some t => (t < month_start (c - R))%Z | None => False end) as ->; [|tauto].
    destruct v as [t|]; [split; [by intros (? & [= <-] & ?)|by exists t]|split; [by intros (? & ? & _)|done]].
  - intros hub status t. rewrite map_lookup_filter_Some, purged_beats, M2. unfold expired_beat. cbn. tauto.
Qed.

Lemma runs_preserve R months (I : RetentionDB -> Prop) : (0 <= R)%Z ->
  Forall (fun c => R < c /\ forall t, parts_ok t -> I t -> I (retained c R t))%Z months -> forall d gs d',
  parts_ok (rdb d) -> I (rdb d) -> retention_runs R months d = (gs, d') -> Forall (eq (Some 0%Z)) gs -> I (rdb d').
Proof.
  intros HR Hc. induction Hc as [|c cs [Hc Hkeep] _ IH]; intros d gs d' Hok HI E Hg; cbn [retention_runs] in E.
  - by injection E as <- <-.
  - destruct (DataRetention c R d) as [g d1] eqn:E1. destruct (retention_runs R cs d1) as [gs1 d2] eqn:E2.
    injection E as <- <-. apply Forall_cons in Hg as [<- Hg]. apply DataRetention_done in E1.
    apply (IH d1 gs1 d2); [rewrite E1; apply retained_ok; done || lia|rewrite E1; by apply Hkeep|done..].
Qed.

(** When a month passes without a run, the month after it never gets a
    partition and the oldest month of the window keeps its partition, however
    often the job runs afterwards. *)
Theorem missed_month_is_never_repaired (R c lo : Z) (months : list Z) (d d' : D) (gs : list (option Z))
    (HR : (0 <= R)%Z) (Hc : (R < c)%Z) (Hok : parts_ok (rdb d)) (Hw : windowed (rdb d) lo (c + 1))
    (Hlo : (lo <= c - R)%Z) (Hlater : Forall (fun c' => c + 2 <= c')%Z months)
    (Hrun : retention_runs R months d = (gs, d')) (Hg : Forall (eq (Some 0%Z)) gs) :
  forall table, table ∈ PartitionTables ->
    ~ has (rdb d') table (c + 2) /\ has (rdb d') table (c - R).
Proof.
  intros table Ht.
  assert (Forall (fun c' => R < c' /\ forall t, parts_ok t -> (~ has t table (c + 2) /\ has t table (c - R)) ->
            ~ has (retained c' R t) table (c + 2) /\ has (retained c' R t) table (c - R))%Z months) as K.
  { eapply Forall_impl; [exact Hlater|]. cbn. intros c' Hc'. split; [lia|]. intros t Ht' [K1 K2].
    rewrite !retained_has by (done || lia). split; [intros [[]]; done || lia|]. split; [by left|lia]. }
  apply (runs_preserve R months _ HR K d gs d'); [done| |done..].
  rewrite !(Hw table _ Ht) by lia. lia.
Qed.
End Facts.

(** ** A store *)
Module Sample.
(** Months of thirty days. *)
#[local] Program Instance months30 : Calendar := {| month_start m := (m * 30 * 86400)%Z |}.
Next Obligation. intros. cbn. lia. Qed.

Definition store (lo hi : Z) : RetentionDB := {|
  rd_parts := list_to_map
    (table ← PartitionTables; m ← seqZ lo (hi - lo + 1); [(partition_name table m, (table, (m, (m + 1)%Z)))]);
  rd_soft := list_to_map [(("status.leaf_hubs", "h1"), Some (100 * 30 * 86400 - 1)%Z);
                          (("status.leaf_hubs", "h2"), Some (100 * 30 * 86400)%Z);
                          (("status.leaf_hubs", "h3"), None)];
  rd_beats := list_to_map [("h1", (HubInactive, 5%Z)); ("h2", (HubActive, 5%Z))];
|}.

(** A decidable form of the hypotheses on the partitions. *)
Lemma store_partitions lo hi table m : (0 <= lo)%Z -> table ∈ PartitionTables -> (0 <= m)%Z ->
  rd_parts (store lo hi) !! partition_name table m =
  if bool_decide (lo <= m <= hi)%Z then Some (table, (m, (m + 1)%Z)) else None.
Proof.
  intros Hlo Ht Hm. unfold store. cbn [rd_parts]. case_bool_decide as C.
  - apply elem_of_list_to_map_1'.
    + intros v Hv. apply list_elem_of_bind in Hv as (t & Hv & _). apply list_elem_of_bind in Hv as (k & Hv & Hk).
      apply elem_of_seqZ in Hk. apply list_elem_of_singleton in Hv as [= E ->].
      apply partition_name_inj in E as [-> ->]; [done|lia..].
    + apply list_elem_of_bind. exists table. split; [|done]. apply list_elem_of_bind. exists m.
      split; [by apply list_elem_of_singleton|]. apply elem_of_seqZ. lia.
  - apply not_elem_of_list_to_map_1. intros ([n v] & E & Hv)%list_elem_of_fmap. cbn in E. subst n.
    apply list_elem_of_bind in Hv as (t & Hv & _). apply list_elem_of_bind in Hv as (k & Hv & Hk).
    apply elem_of_seqZ in Hk. apply list_elem_of_singleton in Hv as [= E _].
    apply partition_name_inj in E as [-> ->]; lia.
Qed.

Lemma store_ok lo hi : (0 <= lo)%Z -> parts_ok (store lo hi) /\ windowed (store lo hi) lo hi.
Proof.
  intros Hlo. split.
  - intros table m v Ht Hm. rewrite store_partitions by done. case_bool_decide; [|done]. by intros [= <-].
  - intros table m Ht Hm. unfold has. rewrite store_partitions by done. case_bool_decide; intuition congruence.
Qed.

Definition start : RetentionDB * list DataRetentionJobLog := (store 101 103, []).

Lemma retention_keeps_a_window_witness :
  let d' := (retention_runs 2 [103; 103; 104; 105]%Z start).2 in
  has (rdb d') "event.local_policies" 103 /\ has (rdb d') "event.local_policies" 106 /\
  ~ has (rdb d') "event.local_policies" 102.
Proof.
  intros d'.
  assert (Forall (eq (Some 0%Z)) (retention_runs 2 [103; 103; 104; 105]%Z start).1) as G
    by (apply (bool_decide_unpack _); vm_compute; exact I).
  assert (retention_runs 2 [103; 103; 104; 105]%Z start = ((retention_runs 2 [103; 103; 104; 105]%Z start).1, d'))
    as E by apply surjective_pairing. clearbody d'.
  destruct (store_ok 101 103) as [Hok Hw]; [lia|].
  change (store 101 103) with (rdb start) in Hok, Hw.
  pose proof (retention_keeps_a_window 2 103 101 103 [103; 104; 105]%Z start d' _ ltac:(lia) ltac:(lia) Hok Hw
                ltac:(lia) ltac:(lia) ltac:(cbn; lia) E G) as W.
  assert ("event.local_policies" ∈ PartitionTables) as Ht by by left.
  split; [|split]; [apply W; [done|lia|cbn; lia]..|]. intros Hhas. apply W in Hhas; [|done|lia]. cbn in Hhas. lia.
Defined.

Lemma retention_deletes_the_expired_witness :
  let d' := (DataRetention 103 3 start).2 in
  rd_soft (rdb d') !! ("status.leaf_hubs", "h1") = None /\
  rd_soft (rdb d') !! ("status.leaf_hubs", "h2") = Some (Some (100 * 30 * 86400)%Z) /\
  ~ rd_beats (rdb d') !! "h1" = Some (HubInactive, 5%Z).
Proof.
  intros d'.
  assert ((DataRetention 103 3 start).1 = Some 0%Z) as G by (vm_compute; reflexivity).
  assert (DataRetention 103 3 start = (Some 0%Z, d')) as E by (rewrite <- G; apply surjective_pairing).
  pose proof (retention_deletes_the_expired 3 103 start d' E) as [S B].
  split; [vm_compute; reflexivity|]. split.
  - apply S. split; [vm_compute; reflexivity|]. intros [_ (t & [= <-] & Hlt)]. cbn in Hlt. lia.
  - intros [_ N]%B. apply N. split; [reflexivity|]. cbn. lia.
Defined.

Lemma missed_month_is_never_repaired_witness :
  let d' := (retention_runs 2 [105; 106]%Z (store 101 104, [])).2 in
  ~ has (rdb d') "event.managed_clusters" 105 /\ has (rdb d') "event.managed_clusters" 101.
Proof.
  intros d'.
  assert (Forall (eq (Some 0%Z)) (retention_runs 2 [105; 106]%Z (store 101 104, [])).1) as G
    by (apply (bool_decide_unpack _); vm_compute; exact I).
  assert (retention_runs 2 [105; 106]%Z (store 101 104, []) =
          ((retention_runs 2 [105; 106]%Z (store 101 104, [])).1, d')) as E by apply surjective_pairing. clearbody d'.
  destruct (store_ok 101 104) as [Hok Hw]; [lia|].
  change (store 101 104) with (rdb (store 101 104, @nil DataRetentionJobLog)) in Hok, Hw.
  refine (missed_month_is_never_repaired 2 103 101 [105; 106]%Z (store 101 104, []) d' _ ltac:(lia) ltac:(lia) Hok Hw
            ltac:(lia) ltac:(repeat constructor; lia) E G "event.managed_clusters" _).
  apply (bool_decide_unpack _). vm_compute. exact I.
Defined.
End Sample.
