(* ===== verification/HistoryJob.v ===== *)
(** * The history job of the manager and the scheduler

    The daily job that copies the compliance of the day into the history, page by
    page ([manager/pkg/processes/cronjob/task/local_compliance_history.go]), and
    the scheduler of the two jobs ([cronjob/scheduler.go]). *)

From stdpp Require Import prelude gmap strings list sorting.
From Stdlib Require Import ZArith Ascii Lia.
From S2P Require Import Prelude.
From S2P Require Import GoLib.
From S2P Require Import Libraries.
From S2P Require Import Retention.

Local Open Scope string_scope.
Local Open Scope list_scope.

Definition LocalComplianceTaskName : string := "local-compliance-history".
Definition batchSize : Z := 1000.

(** The model without [EndAt], which is the clock. *)
Record LocalComplianceJobLog := MkHistoryLog {
  hl_Name : string;
  hl_StartAt : Z;
  hl_Total : Z;
  hl_Inserted : Z;
  hl_Offsets : Z;
  hl_Error : string;
}.

Class HistoryStore (D : Type) := {
  hs_count : D -> result Z;                       (** of the rows of [local_status.compliance] *)
  hs_insert_page : D -> Z -> Z -> result Z * D;   (** by limit and offset: the affected rows *)
  hs_log : D -> LocalComplianceJobLog -> option goerror * D;
}.

Section Job.
Context {D : Type} `{HistoryStore D} `{Poller}.

Definition traceComplianceHistoryLog (name : string) (total offset inserted start : Z) (err : option goerror) (d : D)
    : option goerror * D :=
  hs_log d (MkHistoryLog name start total inserted offset (default "none" err)).

(** One call of the condition that [batchSync] polls, on the rows inserted. *)
Definition batch_attempt (offset : Z) (s : Z * D) : bool * option goerror * (Z * D) :=
  match hs_insert_page s.2 batchSize offset with
  | (Err _, d') => (false, None, (s.1, d'))
  | (Ok n, d') => (true, None, (n, d'))
  end.

Definition batchSync (startTime totalCount offset : Z) (d : D) : (Z * option goerror) * D :=
  let '(err, (batchInsert, d1)) := poll (batch_attempt offset) (0%Z, d) in
  let '(_, d2) := traceComplianceHistoryLog LocalComplianceTaskName totalCount offset (offset + batchInsert)
                    startTime err d1 in
  ((batchInsert, err), d2).

(** The loop, for at most [fuel] pages. *)
Fixpoint snapshot_loop (fuel : nat) (startTime totalCount offset : Z) (d : D) : option goerror * D :=
  match fuel with
  | O => (None, d)
  | S fuel' =>
      if (offset <? totalCount)%Z then
        match batchSync startTime totalCount offset d with
        | ((_, Some e), d1) => (Some e, d1)
        | ((_, None), d1) => snapshot_loop fuel' startTime totalCount (offset + batchSize) d1
        end
      else (None, d)
  end.
Definition pages (totalCount : Z) : nat := Z.to_nat ((totalCount + batchSize - 1) / batchSize).

Definition snapshotLocalComplianceToHistory (startTime : Z) (d : D) : option goerror * D :=
  match hs_count d with
  | Err e => (Some e, d)
  | Ok totalCount => snapshot_loop (S (pages totalCount)) startTime totalCount 0 d
  end.

(** The value that the gauge of the job is set to. *)
Definition LocalComplianceHistory (startTime : Z) (d : D) : Z * D :=
  let '(err, d') := snapshotLocalComplianceToHistory startTime d in
  (match err with Some _ => 1%Z | None => 0%Z end, d').
End Job.

(** ** The scheduler *)
Inductive schedule :=
| EveryMonthOn (day : Z) | EveryWeekly | EveryHourly | EveryMinutely | EverySecondly | EveryDayAt (t : string)
| EveryMonthOnDays (days : list Z) (t : string).

(** The schedules of the two jobs, with their tags. *)
Definition AddSchedulerToManager (SchedulerInterval : string) : list (string * schedule) :=
  let s :=
    if String.eqb SchedulerInterval "month" then EveryMonthOn 1
    else if String.eqb SchedulerInterval "week" then EveryWeekly
    else if String.eqb SchedulerInterval "hour" then EveryHourly
    else if String.eqb SchedulerInterval "minute" then EveryMinutely
    else if String.eqb SchedulerInterval "second" then EverySecondly
    else EveryDayAt "00:00" in
  [(LocalComplianceTaskName, s); (RetentionTaskName, EveryMonthOnDays [1; 15; 28]%Z "00:00")].

(** The jobs to launch, of their names between commas. *)
Definition launchJobs (LaunchJobNames : string) : list string := split_char ","%char LaunchJobNames.

(** [ExecJobs]: the tags that are run at once, of a scheduler that runs a tag. *)
Section ExecJobs.
Context {D : Type} (RunByTag : string -> D -> option goerror * D).

Fixpoint ExecJobs (jobs : list string) (d : D) : option goerror * D :=
  match jobs with
  | [] => (None, d)
  | job :: rest =>
      if String.eqb job RetentionTaskName then
        match RunByTag job d with
        | (Some e, d') => (Some e, d')
        | (None, d') => ExecJobs rest d'
        end
      else ExecJobs rest d
  end.
End ExecJobs.

(** ** The meaning of the statements *)
Record ComplianceRow := MkCompRow {
  cr_policy : string;
  cr_cluster : option string;
  cr_hub : string;
  cr_compliance : string;
}.

(** The compliance, the history with its dates, and the date of the database. *)
Record HistoryDB := MkHistDB {
  hdb_rows : list ComplianceRow;
  hdb_history : list (ComplianceRow * Z);
  hdb_today : Z;
}.

(** [ORDER BY policy_id, cluster_id]: the clusters that are not known come last. *)
Definition cluster_le (a b : option string) : Prop :=
  match a, b with
  | Some x, Some y => String.le x y
  | _, None => True
  | None, Some _ => False
  end.
Definition row_le (a b : ComplianceRow) : Prop :=
  String.le (cr_policy a) (cr_policy b) /\ (cr_policy a = cr_policy b -> cluster_le (cr_cluster a) (cr_cluster b)).
Definition row_key (r : ComplianceRow) : string * option string := (cr_policy r, cr_cluster r).

#[export] Instance cluster_le_dec : RelDecision cluster_le.
Proof. intros [x|] [y|]; cbn; apply _. Defined.
#[export] Instance row_le_dec : RelDecision row_le.
Proof. intros a b. unfold row_le. apply _. Defined.
#[export] Instance row_le_total : Total row_le.
Proof.
  intros a b. unfold row_le. destruct (decide (cr_policy a = cr_policy b)) as [E|N].
  - rewrite E. destruct (cr_cluster a) as [x|], (cr_cluster b) as [y|]; cbn; auto.
    destruct (total String.le x y); [left|right]; auto.
  - destruct (total String.le (cr_policy a) (cr_policy b)); [left|right]; split; [done| |done|]; intros E; congruence.
Qed.
#[export] Instance row_le_trans : Transitive row_le.
Proof.
  intros a b c [P1 C1] [P2 C2]. split; [by etransitivity|]. intros E.
  assert (cr_policy a = cr_policy b) as E1 by (apply (anti_symm String.le); [done|by rewrite E]).
  specialize (C1 E1). rewrite E1 in E. specialize (C2 E).
  destruct (cr_cluster a), (cr_cluster b), (cr_cluster c); cbn in *; try done. by etransitivity.
Qed.

(** The unique key of the history; unknown clusters are never equal. *)
Definition same_key (today : Z) (r : ComplianceRow) (h : ComplianceRow * Z) : bool :=
  String.eqb (cr_hub h.1) (cr_hub r) && String.eqb (cr_policy h.1) (cr_policy r) && (h.2 =? today)%Z &&
  match cr_cluster h.1, cr_cluster r with Some a, Some b => String.eqb a b | _, _ => false end.

(** [INSERT ... ON CONFLICT DO NOTHING] of some rows. *)
Definition insert_row (today : Z) (h : list (ComplianceRow * Z)) (r : ComplianceRow) : list (ComplianceRow * Z) :=
  if existsb (same_key today r) h then h else h ++ [(r, today)].
Definition insert_rows (today : Z) (rows : list ComplianceRow) (h : list (ComplianceRow * Z)) : list (ComplianceRow * Z) :=
  foldl (insert_row today) h rows.

Definition page (limit offset : Z) (l : list ComplianceRow) : list ComplianceRow :=
  take (Z.to_nat limit) (drop (Z.to_nat offset) l).

Class HistoryLaws (D : Type) `{HistoryStore D} := {
  hview : D -> HistoryDB;
  hs_counted d n : hs_count d = Ok n -> n = Z.of_nat (length (hdb_rows (hview d)));
  (** rows of equal keys come in any order *)
  hs_inserted d limit offset n d' : hs_insert_page d limit offset = (Ok n, d') ->
    exists l, l ≡ₚ hdb_rows (hview d) /\ StronglySorted row_le l /\
      hview d' = MkHistDB (hdb_rows (hview d))
        (insert_rows (hdb_today (hview d)) (page limit offset l) (hdb_history (hview d))) (hdb_today (hview d));
  hs_refused d limit offset e d' : hs_insert_page d limit offset = (Err e, d') -> hview d' = hview d;
  hs_logged d l : hview (hs_log d l).2 = hview d;
}.

#[export] Instance history_store : HistoryStore (HistoryDB * list LocalComplianceJobLog) := {|
  hs_count d := Ok (Z.of_nat (length (hdb_rows d.1)));
  hs_insert_page d limit offset :=
    let t := d.1 in
    let h := insert_rows (hdb_today t) (page limit offset (merge_sort row_le (hdb_rows t))) (hdb_history t) in
    (Ok (Z.of_nat (length h - length (hdb_history t))), (MkHistDB (hdb_rows t) h (hdb_today t), d.2));
  hs_log d l := (None, (d.1, d.2 ++ [l]));
|}.
#[export] Program Instance history_store_laws : HistoryLaws (HistoryDB * list LocalComplianceJobLog) := {| hview := fst |}.
Next Obligation. by intros [t l] n [= <-]. Qed.
Next Obligation.
  intros [t l] limit offset n d' [= _ <-]. exists (merge_sort row_le (hdb_rows t)).
  split; [apply merge_sort_Permutation|]. split; [apply StronglySorted_merge_sort; apply _|done].
Qed.
Next Obligation. done. Qed.
Next Obligation. done. Qed.

(** ** What the history job writes

    Page by page the job does what a single insertion of all the rows would do,
    a second run on the same day changes nothing, and a failing page stops it. *)

(** ** Insertions *)
Lemma insert_rows_app today l l' h : insert_rows today (l ++ l') h = insert_rows today l' (insert_rows today l h).
Proof. apply foldl_app. Qed.

Lemma insert_row_keeps today h r x : x ∈ h -> x ∈ insert_row today h r.
Proof. unfold insert_row. intros Hx. destruct (existsb _ h); [done|]. set_solver. Qed.

Lemma insert_rows_keep today l : forall h x, x ∈ h -> x ∈ insert_rows today l h.
Proof. induction l as [|r l IH]; intros h x Hx; [done|]. apply IH. by apply insert_row_keeps. Qed.

Definition recorded (today : Z) (h : list (ComplianceRow * Z)) (r : ComplianceRow) : Prop :=
  existsb (same_key today r) h = true.

Lemma recorded_spec today h r : recorded today h r <-> exists x, x ∈ h /\ same_key today r x = true.
Proof. unfold recorded. rewrite existsb_exists. by setoid_rewrite list_elem_of_In. Qed.

Lemma insert_row_same today r c : cr_cluster r = Some c -> same_key today r (r, today) = true.
Proof. intros E. unfold same_key. cbn. by rewrite !String.eqb_refl, Z.eqb_refl, E, String.eqb_refl. Qed.

Lemma insert_rows_recorded today l : forall h r c, r ∈ l -> cr_cluster r = Some c -> recorded today (insert_rows today l h) r.
Proof.
  induction l as [|x l IH]; intros h r c Hr Hc; [set_solver|]. apply elem_of_cons in Hr as [<-|Hr]; [|by eapply IH].
  cbn [insert_rows foldl]. fold (insert_rows today l (insert_row today h r)). unfold insert_row at 1.
  destruct (existsb (same_key today r) h) eqn:E.
  - apply recorded_spec in E as (y & Hy & Es). apply recorded_spec. exists y. split; [|done]. by apply insert_rows_keep.
  - apply recorded_spec. exists (r, today). split; [|by eapply insert_row_same]. apply insert_rows_keep. set_solver.
Qed.

Lemma insert_rows_idle today l : forall h, Forall (recorded today h) l -> insert_rows today l h = h.
Proof.
  induction l as [|r l IH]; intros h Hl; [done|]. apply Forall_cons in Hl as [Hr Hl].
  cbn [insert_rows foldl]. unfold insert_row. unfold recorded in Hr. rewrite Hr. by apply IH.
Qed.

(** ** Pages *)
Lemma page_next (l : list ComplianceRow) (o n : nat) : take o l ++ page (Z.of_nat n) (Z.of_nat o) l = take (o + n) l.
Proof. unfold page. rewrite !Nat2Z.id. apply take_take_drop. Qed.

(** Rows with different keys have a single sorted order. *)
Lemma sorted_unique l rows : NoDup (row_key <$> rows) -> l ≡ₚ rows -> StronglySorted row_le l -> l = merge_sort row_le rows.
Proof.
  intros Hk Hp Hs. apply (StronglySorted_unique_strong row_le); [|done| |].
  - intros a b Ha Hb [P1 C1] [P2 C2]. apply (NoDup_fmap_eq row_key rows); [done|by rewrite <- Hp| |].
    + by rewrite <- (merge_sort_Permutation row_le rows).
    + unfold row_key. assert (cr_policy a = cr_policy b) as E by by apply (anti_symm String.le). rewrite E.
      specialize (C1 E). specialize (C2 (eq_sym E)). f_equal.
      destruct (cr_cluster a), (cr_cluster b); cbn in *; try done. f_equal. by apply (anti_symm String.le).
  - apply StronglySorted_merge_sort; apply _.
  - by rewrite Hp, merge_sort_Permutation.
Qed.

Section Facts.
Context {D : Type} `{HistoryLaws D} `{PollerLaws}.

Lemma batchSync_done start total o d n d' : NoDup (row_key <$> hdb_rows (hview d)) -> (0 <= o)%Z ->
  batchSync start total o d = ((n, None), d') ->
  hview d' = MkHistDB (hdb_rows (hview d))
    (insert_rows (hdb_today (hview d)) (page batchSize o (merge_sort row_le (hdb_rows (hview d)))) (hdb_history (hview d)))
    (hdb_today (hview d)).
Proof.
  intros Hk Ho. unfold batchSync. pose proof (poll_spec (batch_attempt (D := D) o) (0%Z, d)) as P.
  destruct (poll (batch_attempt o) (0%Z, d)) as [err [bi d1]]. cbn [fst snd] in P.
  unfold traceComplianceHistoryLog.
  match goal with |- context [hs_log d1 ?l] => pose proof (hs_logged d1 l) as L; destruct (hs_log d1 l) as [x d2] end.
  cbn [snd] in L. intros [= -> -> <-].
  apply (polled_None _ (fun s => hview s.2 = hview d)) in P; cycle 1.
  - intros [b d0] [] e [b' d0'] I E ?; [done|]. cbn [snd] in *. unfold batch_attempt in E. cbn [fst snd] in E.
    destruct (hs_insert_page d0 batchSize o) as [[k|e'] d''] eqn:Ei; [done|]. injection E as _ _ <-.
    rewrite <- I. by eapply hs_refused.
  - done.
  - destruct P as ([b d0] & I & E). cbn [snd] in I. unfold batch_attempt in E. cbn [fst snd] in E.
    destruct (hs_insert_page d0 batchSize o) as [[k|e'] d''] eqn:Ei; [|done]. injection E as _ <-.
    apply hs_inserted in Ei as (l & Hp & Hs & E). rewrite I in *. rewrite L, E.
    by rewrite (sorted_unique l (hdb_rows (hview d))).
Qed.

Lemma snapshot_loop_done start t0 total fuel : NoDup (row_key <$> hdb_rows t0) ->
  let l := merge_sort row_le (hdb_rows t0) in
  total = Z.of_nat (length l) -> forall (o : nat) d d',
  hview d = MkHistDB (hdb_rows t0) (insert_rows (hdb_today t0) (take o l) (hdb_history t0)) (hdb_today t0) ->
  (total - Z.of_nat o < Z.of_nat fuel * batchSize)%Z ->
  snapshot_loop fuel start total (Z.of_nat o) d = (None, d') ->
  hview d' = MkHistDB (hdb_rows t0) (insert_rows (hdb_today t0) l (hdb_history t0)) (hdb_today t0).
Proof.
  intros Hk l Ht. assert (forall o, (total <= Z.of_nat o)%Z -> take o l = l) as Hall.
  { intros o Ho. apply take_ge. lia. }
  induction fuel as [|fuel IH]; intros o d d' Hd Hf E; cbn [snapshot_loop] in E.
  - injection E as <-. rewrite Hd, Hall by lia. done.
  - destruct (Z.ltb_spec (Z.of_nat o) total) as [L|L]; [|injection E as <-; by rewrite Hd, Hall].
    destruct (batchSync start total (Z.of_nat o) d) as [[n [e|]] d1] eqn:Eb; [done|].
    apply batchSync_done in Eb; [|by rewrite Hd|lia]. rewrite Hd in Eb. cbn [hdb_rows hdb_history hdb_today] in Eb.
    rewrite <- insert_rows_app in Eb. fold l in Eb. change batchSize with (Z.of_nat 1000) in Eb, E.
    rewrite page_next in Eb. rewrite <- Nat2Z.inj_add in E.
    apply (IH (o + 1000)%nat d1); [done| |done]. unfold batchSize in *. lia.
Qed.

Lemma snapshot_done start d d' : NoDup (row_key <$> hdb_rows (hview d)) ->
  snapshotLocalComplianceToHistory start d = (None, d') ->
  hview d' = MkHistDB (hdb_rows (hview d))
    (insert_rows (hdb_today (hview d)) (merge_sort row_le (hdb_rows (hview d))) (hdb_history (hview d)))
    (hdb_today (hview d)).
Proof.
  intros Hk. unfold snapshotLocalComplianceToHistory. destruct (hs_count d) as [n|e] eqn:Ec; [|done].
  apply hs_counted in Ec.
  assert (length (merge_sort row_le (hdb_rows (hview d))) = length (hdb_rows (hview d))) as El
    by (by rewrite merge_sort_Permutation).
  intros E. refine (snapshot_loop_done start (hview d) n _ Hk _ 0 d d' _ _ E).
  - by rewrite El.
  - cbn [take]. by destruct (hview d).
  - rewrite Nat2Z.inj_succ. unfold pages, batchSize. pose proof (Z.div_mod (n + 1000 - 1) 1000 ltac:(done)) as Q.
    pose proof (Z.mod_pos_bound (n + 1000 - 1) 1000 eq_refl) as B.
    rewrite Z2Nat.id by (apply Z.div_pos; lia). lia.
Qed.

(** C21: a run without an error copies the compliance page by page exactly as one
    insertion of all the rows in their order would, while nobody else writes and no
    two rows are of the same policy and cluster: rows that the history already has
    for the day are left as they are, every row of a known cluster is in the
    history, and a second run on the same day changes nothing when every row names
    its cluster ([unknown_clusters_are_repeated]). *)
Theorem snapshot_is_one_insertion (start start' : Z) (d d' : D)
    (Hk : NoDup (row_key <$> hdb_rows (hview d))) (Hrun : LocalComplianceHistory start d = (0%Z, d')) :
  let t := hview d in
  hdb_history (hview d') = insert_rows (hdb_today t) (merge_sort row_le (hdb_rows t)) (hdb_history t) /\
  (forall x, x ∈ hdb_history t -> x ∈ hdb_history (hview d')) /\
  (forall r c, r ∈ hdb_rows t -> cr_cluster r = Some c -> recorded (hdb_today t) (hdb_history (hview d')) r) /\
  (Forall (fun r => is_Some (cr_cluster r)) (hdb_rows t) -> forall d'',
     LocalComplianceHistory start' d' = (0%Z, d'') -> hview d'' = hview d').
Proof.
  assert (forall s a b, LocalComplianceHistory s a = (0%Z, b) -> snapshotLocalComplianceToHistory s a = (None, b)) as G.
  { intros s a b. unfold LocalComplianceHistory. destruct (snapshotLocalComplianceToHistory s a) as [[e|] x]; [done|].
    by intros [= ->]. }
  apply G in Hrun. pose proof (snapshot_done _ _ _ Hk Hrun) as E. cbn zeta. rewrite E. cbn [hdb_rows hdb_history hdb_today].
  assert (forall r, r ∈ hdb_rows (hview d) -> r ∈ merge_sort row_le (hdb_rows (hview d))) as Hin
    by (intros r; by rewrite merge_sort_Permutation).
  split; [done|]. split; [intros x; apply insert_rows_keep|].
  split; [intros r c Hr Hc; eapply insert_rows_recorded; eauto|].
  intros Hsome d'' E2%G. apply snapshot_done in E2; [|by rewrite E]. rewrite E2, E. cbn [hdb_rows hdb_history hdb_today].
  f_equal. apply insert_rows_idle. apply Forall_forall. intros r Hr. rewrite merge_sort_Permutation in Hr.
  rewrite Forall_forall in Hsome. destruct (Hsome r Hr) as [c Hc]. eapply insert_rows_recorded; eauto.
Qed.
End Facts.

(** ** A store *)
Module Sample.
#[local] Instance three_calls : Poller := poller_of 2.
#[local] Instance three_calls_laws : PollerLaws := poller_of_laws 2.

Definition rows : list ComplianceRow :=
  [MkCompRow "p2" (Some "c1") "hub1" "compliant"; MkCompRow "p1" (Some "c2") "hub1" "pending";
   MkCompRow "p1" (Some "c1") "hub1" "non_compliant"].
Definition start_ : HistoryDB * list LocalComplianceJobLog :=
  (MkHistDB rows [(MkCompRow "p1" (Some "c1") "hub1" "compliant", 7%Z)] 7, []).

Lemma snapshot_is_one_insertion_witness :
  let d' := (LocalComplianceHistory 0 start_).2 in
  hdb_history (hview d') =
    [(MkCompRow "p1" (Some "c1") "hub1" "compliant", 7%Z); (MkCompRow "p1" (Some "c2") "hub1" "pending", 7%Z);
     (MkCompRow "p2" (Some "c1") "hub1" "compliant", 7%Z)] /\
  hview (LocalComplianceHistory 1 d').2 = hview d'.
Proof.
  intros d'.
  assert (NoDup (row_key <$> hdb_rows (hview start_))) as Hk by (apply (bool_decide_unpack _); vm_compute; exact I).
  assert (LocalComplianceHistory 0 start_ = (0%Z, d')) as R by reflexivity.
  assert (LocalComplianceHistory 1 d' = (0%Z, (LocalComplianceHistory 1 d').2)) as R' by reflexivity.
  destruct (snapshot_is_one_insertion 0 1 start_ d' Hk R) as (E & _ & _ & Again).
  split; [rewrite E; reflexivity|].
  refine (Again _ _ R'). repeat constructor; eauto.
Defined.

(** The row of an unknown cluster is inserted again by every run. *)
Example unknown_clusters_are_repeated :
  let d : HistoryDB * list LocalComplianceJobLog := (MkHistDB [MkCompRow "p1" None "hub1" "pending"] [] 7, []) in
  length (hdb_history (LocalComplianceHistory 1 (LocalComplianceHistory 0 d).2).2.1) = 2.
Proof. reflexivity. Qed.

(** The names of both jobs may be given, but only one is ever launched. *)
Example history_job_is_not_launched {D : Type} (RunByTag : string -> D -> option goerror * D) (d d' : D) :
  RunByTag RetentionTaskName d = (None, d') ->
  ExecJobs RunByTag (launchJobs "data-retention,local-compliance-history") d = (None, d').
Proof. intros E. cbn. unfold RetentionTaskName in *. by rewrite E. Qed.
End Sample.
