(* ===== verification/SyncInterval.v ===== *)
(** * The interval of the syncers of the manager

    The policy that stretches the interval while a syncer has something to send
    and resets it otherwise ([manager/pkg/spec/syncers/interval]), and its use by
    the loop of a syncer ([periodicSync], [syncers/generic_syncer.go]). *)

From stdpp Require Import prelude list.
From Stdlib Require Import ZArith Lia.
From S2P Require Import Prelude.
Local Open Scope list_scope.
Local Open Scope Z_scope.

(** The back-off of the library, created by its initial interval with no
    randomization, doubling up to the given maximum. *)
Class Backoff (B : Type) := {
  new_backoff : Z -> Z -> B;
  NextBackOff : B -> Z * B;
  backoff_reset : B -> B;
}.

Definition maxInterval : Z := 60 * 1000000000.
Definition consecutiveEvaluationsBeforeNextBackoff : Z := 3.

Section Interval.
Context {B : Type} `{Backoff B}.

Record exponentialBackoffPolicy := MkPolicy_ {
  exponentialBackoff : B;
  interval : Z;
  consecutiveEvaluationsCount : Z;
}.

Definition NewExponentialBackoffPolicy (initial : Z) : exponentialBackoffPolicy :=
  let '(i, b) := NextBackOff (backoff_reset (new_backoff initial maxInterval)) in MkPolicy_ b i 0.

Definition Evaluate (p : exponentialBackoffPolicy) : exponentialBackoffPolicy :=
  let n := consecutiveEvaluationsCount p + 1 in
  if n =? consecutiveEvaluationsBeforeNextBackoff
  then let '(i, b) := NextBackOff (exponentialBackoff p) in MkPolicy_ b i 0
  else MkPolicy_ (exponentialBackoff p) (interval p) n.

Definition Reset_policy (p : exponentialBackoffPolicy) : exponentialBackoffPolicy :=
  let '(i, b) := NextBackOff (backoff_reset (exponentialBackoff p)) in MkPolicy_ b i 0.

(** One round of the loop: the policy after it, and the interval to which the
    ticker is reset, if it is. *)
Definition periodicSync_tick (synced : bool) (p : exponentialBackoffPolicy) : exponentialBackoffPolicy * option Z :=
  let p' := if synced then Evaluate p else Reset_policy p in
  (p', if interval p =? interval p' then None else Some (interval p')).

(** The loop on the outcomes of the rounds: the policy, and the interval at
    which the ticker fires. *)
Fixpoint periodicSync (outcomes : list bool) (p : exponentialBackoffPolicy) (ticker : Z) :
    exponentialBackoffPolicy * Z :=
  match outcomes with
  | [] => (p, ticker)
  | o :: os => let '(p', r) := periodicSync_tick o p in periodicSync os p' (default ticker r)
  end.

(** What a syncer does from its start. *)
Definition run_syncer (initial : Z) (outcomes : list bool) : exponentialBackoffPolicy * Z :=
  let p := NewExponentialBackoffPolicy initial in periodicSync outcomes p (interval p).
End Interval.
Arguments exponentialBackoffPolicy : clear implicits.

(** ** The back-off of the library

    The documented behaviour: an interval is returned as it stands and then
    doubled, up to the maximum; a reset brings back the initial one. *)
Class BackoffLaws (B : Type) `{Backoff B} := {
  bo_initial : B -> Z;
  bo_max : B -> Z;
  bo_current : B -> Z;
  bo_new i m : bo_initial (new_backoff i m) = i /\ bo_max (new_backoff i m) = m;
  bo_reset b : bo_initial (backoff_reset b) = bo_initial b /\ bo_max (backoff_reset b) = bo_max b /\
    bo_current (backoff_reset b) = bo_initial b;
  bo_next b : (NextBackOff b).1 = bo_current b /\
    bo_initial (NextBackOff b).2 = bo_initial b /\ bo_max (NextBackOff b).2 = bo_max b;
  bo_double b : bo_current (NextBackOff b).2 = Z.min (2 * bo_current b) (bo_max b);
}.

(** The synced rounds at the end of a run. *)
Definition synced_rounds (outcomes : list bool) (before : nat) : nat :=
  foldl (fun n o => if (o : bool) then S n else 0%nat) before outcomes.

(** The interval after [k] doublings. *)
Definition stretched (initial : Z) (k : nat) : Z :=
  match k with O => initial | S _ => Z.min (initial * 2 ^ Z.of_nat k) maxInterval end.

Section Facts.
Context {B : Type} `{BackoffLaws B}.

Lemma stretched_S initial k : 0 < initial -> stretched initial (S k) = Z.min (2 * stretched initial k) maxInterval.
Proof.
  intros P. destruct k as [|k]; cbn [stretched].
  - f_equal. change (Z.of_nat 1) with 1. lia.
  - rewrite (Nat2Z.inj_succ (S k)), Z.pow_succ_r by lia. unfold maxInterval. lia.
Qed.

Lemma stretched_bounds initial k : 0 < initial ->
  Z.min initial maxInterval <= stretched initial k <= Z.max initial maxInterval.
Proof.
  intros P. induction k as [|k IH]; [cbn; lia|]. rewrite stretched_S by done. unfold maxInterval in *. lia.
Qed.

(** The policy after [n] synced rounds in a row. *)
Definition after_rounds (initial : Z) (n : nat) (p : exponentialBackoffPolicy B) : Prop :=
  bo_initial (exponentialBackoff p) = initial /\ bo_max (exponentialBackoff p) = maxInterval /\
  bo_current (exponentialBackoff p) = stretched initial (S (n / 3)) /\
  interval p = stretched initial (n / 3) /\ consecutiveEvaluationsCount p = Z.of_nat (n mod 3).

Lemma first_next initial b : bo_initial b = initial -> bo_max b = maxInterval -> 0 < initial ->
  after_rounds initial 0 (let '(i, b) := NextBackOff (backoff_reset b) in MkPolicy_ b i 0).
Proof.
  intros I M P. destruct (bo_reset b) as (r1 & r2 & r3). destruct (bo_next (backoff_reset b)) as (n1 & n2 & n3).
  pose proof (bo_double (backoff_reset b)) as d. destruct (NextBackOff (backoff_reset b)) as [i b'].
  cbn [fst snd] in *. unfold after_rounds. cbn [exponentialBackoff interval consecutiveEvaluationsCount].
  rewrite n2, n3, r1, r2, d, r3, r2, n1, r3. change (0 / 3)%nat with 0%nat. change (0 mod 3)%nat with 0%nat.
  rewrite stretched_S by done. rewrite I, M. cbn [stretched]. done.
Qed.

Lemma Evaluate_round initial n p : 0 < initial -> after_rounds initial n p -> after_rounds initial (S n) (Evaluate p).
Proof.
  intros P (I & M & C & V & K). unfold Evaluate, consecutiveEvaluationsBeforeNextBackoff. rewrite K.
  pose proof (Nat.div_mod_eq n 3) as D. pose proof (Nat.mod_upper_bound n 3 ltac:(lia)) as L.
  destruct (Z.eqb_spec (Z.of_nat (n mod 3) + 1) 3) as [e|e].
  - destruct (bo_next (exponentialBackoff p)) as (n1 & n2 & n3). pose proof (bo_double (exponentialBackoff p)) as d.
    destruct (NextBackOff (exponentialBackoff p)) as [i b']. cbn [fst snd] in *. unfold after_rounds.
    cbn [exponentialBackoff interval consecutiveEvaluationsCount].
    assert (S n / 3 = S (n / 3))%nat as -> by (symmetry; apply (Nat.div_unique _ _ _ 0); lia).
    assert (S n mod 3 = 0)%nat as -> by (symmetry; apply (Nat.mod_unique _ _ (S (n / 3))); lia).
    rewrite n2, n3, d, M, C, n1, C. rewrite <- stretched_S by done. done.
  - unfold after_rounds. cbn [exponentialBackoff interval consecutiveEvaluationsCount].
    assert (S n / 3 = n / 3)%nat as -> by (symmetry; apply (Nat.div_unique _ _ _ (S (n mod 3))); lia).
    assert (S n mod 3 = S (n mod 3))%nat as -> by (symmetry; apply (Nat.mod_unique _ _ (n / 3)); lia).
    repeat split; [done..|lia].
Qed.

Lemma periodicSync_rounds initial outcomes : 0 < initial -> forall n p ticker,
  after_rounds initial n p -> ticker = interval p ->
  let r := periodicSync outcomes p ticker in
  after_rounds initial (synced_rounds outcomes n) r.1 /\ r.2 = interval r.1.
Proof.
  intros P. induction outcomes as [|o os IH]; intros n p ticker A T; [done|]. cbn [periodicSync].
  unfold periodicSync_tick. set (p' := if o then Evaluate p else Reset_policy p).
  assert (after_rounds initial (if o then S n else 0%nat) p') as A'.
  { subst p'. destruct o; [by apply Evaluate_round|]. destruct A as (I & M & _). by apply first_next. }
  apply (IH _ p'); [done|]. destruct (Z.eqb_spec (interval p) (interval p')) as [e|e]; cbn; congruence.
Qed.

(** C33: after any outcomes of its rounds the syncer waits the initial interval,
    doubled once for every three rounds since the last round without anything to
    send and cut at a minute; the ticker always runs at the interval of the
    policy, which therefore never leaves the range between the initial interval
    and a minute. *)
Theorem interval_doubles_up_to_a_minute (initial : Z) (outcomes : list bool) (Hi : 0 < initial) :
  let '(p, ticker) := run_syncer (B := B) initial outcomes in
  ticker = interval p /\ ticker = stretched initial (synced_rounds outcomes 0 / 3) /\
  Z.min initial maxInterval <= ticker <= Z.max initial maxInterval.
Proof.
  unfold run_syncer. destruct (bo_new initial maxInterval) as [n1 n2].
  pose proof (first_next initial _ n1 n2 Hi) as A. fold (NewExponentialBackoffPolicy (B := B) initial) in A.
  destruct (periodicSync_rounds initial outcomes Hi _ _ _ A eq_refl) as [(_ & _ & _ & V & _) T].
  destruct (periodicSync _ _ _) as [p ticker]. cbn [fst snd] in *. rewrite T, V.
  split; [done|]. split; [done|]. by apply stretched_bounds.
Qed.
End Facts.

(** ** A back-off *)
Module Sample.
Record backoff := MkBackoff { initial_ : Z; max_ : Z; current : Z }.
#[local] Instance doubling : Backoff backoff := {
  new_backoff i m := MkBackoff i m i;
  NextBackOff b := (current b, MkBackoff (initial_ b) (max_ b) (Z.min (2 * current b) (max_ b)));
  backoff_reset b := MkBackoff (initial_ b) (max_ b) (initial_ b);
}.
#[local] Instance doubling_laws : BackoffLaws backoff.
Proof. refine {| bo_initial := initial_; bo_max := max_; bo_current := current |}; done. Defined.

Lemma interval_doubles_up_to_a_minute_witness :
  let '(p, ticker) := run_syncer (B := backoff) 5000000000 (replicate 2 false ++ replicate 7 true) in
  ticker = interval p /\ ticker = 20000000000 /\
  Z.min 5000000000 maxInterval <= ticker <= Z.max 5000000000 maxInterval.
Proof.
  exact (interval_doubles_up_to_a_minute 5000000000 (replicate 2 false ++ replicate 7 true) (eq_refl : 0 < 5000000000)).
Defined.
End Sample.
