(* ===== verification/SpecDB.v ===== *)
(** * Global objects in the manager

    The controllers that copy the global objects of the hub into the tables of
    the schema [spec] ([manager/pkg/spec/controllers/generic.go] and the
    controllers of the kinds), the tables ([manager/pkg/spec/specdb/gorm]) with
    their trigger, and the syncers that send the content of a table to all the
    hubs ([manager/pkg/spec/syncers/generic_syncer.go], the bundles of
    [controllers/bundle]). *)

From stdpp Require Import prelude gmap strings list.
From Stdlib Require Import ZArith Lia.
From S2P Require Import Prelude.
From S2P Require Import GoLib.
From S2P Require Import CloudEvents.
From S2P Require Import Libraries.
From S2P Require Import SpecTransport.
From S2P Require Import KubeObjects.

Local Open Scope string_scope.
Local Open Scope list_scope.

(** ** Objects

    The metadata, the JSON of each field of the specification that is set, and
    the status. *)
Record spec_object := MkSpec {
  sp_meta : Object;
  sp_fields : gmap string string;
  sp_status : string;
}.
Definition set_sp_meta (o : spec_object) (m : Object) : spec_object := MkSpec m (sp_fields o) (sp_status o).

(** The kinds of global objects, each with its controller. *)
Inductive spec_kind :=
| KPolicy | KPlacementRule | KPlacementBinding | KApplication | KSubscription | KChannel
| KManagedClusterSet | KManagedClusterSetBinding | KPlacement.
#[export] Instance spec_kind_eq_dec : EqDecision spec_kind.
Proof. solve_decision. Defined.

(** The name of an annotation of the placement library. *)
Class PlacementAPI := { PlacementDisableAnnotation : string }.

Definition set_annotations (o : Object) (a : gmap string string) : Object :=
  MkObject (UID o) (Namespace o) (Name o) (Generation_ o) (ResourceVersion o) (CreationTimestamp o)
    (DeletionTimestamp o) (Labels o) a (Finalizers o) (OwnerReferences o) (ManagedFields o)
    (SelfLink o) (obj_body o).
Definition set_uid (o : Object) (uid : string) : Object :=
  MkObject uid (Namespace o) (Name o) (Generation_ o) (ResourceVersion o) (CreationTimestamp o)
    (DeletionTimestamp o) (Labels o) (Annotations o) (Finalizers o) (OwnerReferences o) (ManagedFields o)
    (SelfLink o) (obj_body o).

Definition MultiClusterHubKind : string := "MultiClusterHub".

(** [GlobalResourcePredicate] *)
Definition GlobalResourcePredicate (o : Object) : bool := HasLabel o GlobalHubGlobalResourceLabel.

Section Kinds.
Context `{PlacementAPI}.

(** The [cleanObject] of each controller. *)
Definition cleanPolicyStatus (o : spec_object) : spec_object := MkSpec (sp_meta o) (sp_fields o) "".
Definition cleanPlacementRuleObject (o : spec_object) : spec_object :=
  MkSpec (sp_meta o) (delete "schedulerName" (sp_fields o)) "".
Definition cleanPlacementBindingStatus (o : spec_object) : spec_object := MkSpec (sp_meta o) (sp_fields o) "".
Definition cleanApplicationStatus (o : spec_object) : spec_object := MkSpec (sp_meta o) (sp_fields o) "".
Definition cleanSubscriptionStatus (o : spec_object) : spec_object := MkSpec (sp_meta o) (sp_fields o) "".
Definition cleanChannelStatus (o : spec_object) : spec_object := MkSpec (sp_meta o) (sp_fields o) "".
Definition cleanManagedClusterSetStatus (o : spec_object) : spec_object := MkSpec (sp_meta o) (sp_fields o) "".
Definition cleanManagedClusterSetBindingsStatus (o : spec_object) : spec_object := o.
Definition cleanPlacementObject (o : spec_object) : spec_object :=
  MkSpec (set_annotations (sp_meta o) (delete PlacementDisableAnnotation (Annotations (sp_meta o)))) (sp_fields o) "".

Definition clean_object (k : spec_kind) : spec_object -> spec_object :=
  match k with
  | KPolicy => cleanPolicyStatus
  | KPlacementRule => cleanPlacementRuleObject
  | KPlacementBinding => cleanPlacementBindingStatus
  | KApplication => cleanApplicationStatus
  | KSubscription => cleanSubscriptionStatus
  | KChannel => cleanChannelStatus
  | KManagedClusterSet => cleanManagedClusterSetStatus
  | KManagedClusterSetBinding => cleanManagedClusterSetBindingsStatus
  | KPlacement => cleanPlacementObject
  end.

Definition LastAppliedAnnotation : string := "kubectl.kubernetes.io/last-applied-configuration".

Definition cleanInstance (k : spec_kind) (o : spec_object) : spec_object :=
  let m := sp_meta o in
  clean_object k (MkSpec (MkObject (UID m) (Namespace m) (Name m) 0 "" (CreationTimestamp m) (DeletionTimestamp m)
    (Labels m) (delete LastAppliedAnnotation (Annotations m)) [] [] [] (SelfLink m) (obj_body m)) (sp_fields o) (sp_status o)).

(** [DeepEqual] of the labels, the annotations and a part of the fields. *)
Definition equal_on (part : gmap string string -> gmap string string) (o1 o2 : spec_object) : bool :=
  bool_decide (part (sp_fields o1) = part (sp_fields o2)) &&
  bool_decide (Annotations (sp_meta o1) = Annotations (sp_meta o2)) &&
  bool_decide (Labels (sp_meta o1) = Labels (sp_meta o2)).

(** The [areEqual] of each controller. *)
Definition arePoliciesEqual : spec_object -> spec_object -> bool := equal_on (delete "policy-templates").
Definition arePlacementRulesEqual : spec_object -> spec_object -> bool := equal_on id.
Definition arePlacementBindingsEqual : spec_object -> spec_object -> bool :=
  equal_on (filter (fun kv => kv.1 = "placementRef" \/ kv.1 = "subjects")).
Definition areApplicationsEqual : spec_object -> spec_object -> bool := equal_on id.
Definition areSubscriptionsEqual : spec_object -> spec_object -> bool := equal_on id.
Definition areChannelsEqual : spec_object -> spec_object -> bool := equal_on id.
Definition areManagedClusterSetsEqual : spec_object -> spec_object -> bool := equal_on id.
Definition areManagedClusterSetBindingsEqual : spec_object -> spec_object -> bool := equal_on id.
Definition arePlacementsEqual : spec_object -> spec_object -> bool := equal_on id.

Definition areEqual (k : spec_kind) : spec_object -> spec_object -> bool :=
  match k with
  | KPolicy => arePoliciesEqual
  | KPlacementRule => arePlacementRulesEqual
  | KPlacementBinding => arePlacementBindingsEqual
  | KApplication => areApplicationsEqual
  | KSubscription => areSubscriptionsEqual
  | KChannel => areChannelsEqual
  | KManagedClusterSet => areManagedClusterSetsEqual
  | KManagedClusterSetBinding => areManagedClusterSetBindingsEqual
  | KPlacement => arePlacementsEqual
  end.
End Kinds.

(** [json.Marshal] and [json.Unmarshal] of an object, and the texts that SQL
    reads in the payload; an empty namespace is omitted. *)
Class SpecCodec := {
  marshal_spec : spec_object -> result bytes;
  unmarshal_spec : bytes -> result spec_object;
  payload_key : bytes -> option string * option string;     (** namespace and name *)
  payload_global : bytes -> bool;                            (** the label of global resources *)
}.
Definition namespace_text (ns : string) : option string := if String.eqb ns "" then None else Some ns.

(** ** [specdb/gorm/spec.go] *)
Class SpecTables (D : Type) := {
  spec_lock : D -> option goerror;
  spec_query : D -> string -> string -> scanned bytes;                    (** payload by ID *)
  spec_insert : D -> string -> string -> bytes -> option goerror * D;
  spec_update : D -> string -> string -> bytes -> option goerror * D;
  spec_mark_deleted : D -> string -> string -> string -> option goerror * D;  (** name and namespace *)
  spec_max_updated : D -> string -> bool -> scanned Z;                    (** of the global resources only *)
  spec_select : D -> string -> result (list (string * bytes * bool));     (** the global resources *)
}.

(** The error of [sql.ErrNoRows]. *)
Inductive query_error := QNoRows | QError (e : goerror).

Section Gorm.
Context {D : Type} `{SpecTables D} `{SpecCodec}.

(** An error of [Scan] other than no row leaves the zero time. *)
Definition spec_GetLastUpdateTimestamp (tableName : string) (filterLocalResources : bool) (d : D) : result Z :=
  match spec_max_updated d tableName filterLocalResources with
  | Scanned t => Ok t
  | ScanError _ => Ok 0%Z
  | NoRows => Err ("no objects in the table spec." +:+ tableName)
  end.

Definition QuerySpecObject (tableName objUID : string) (d : D) : query_error + spec_object :=
  match spec_query d tableName objUID with
  | NoRows => inl QNoRows
  | ScanError e => inl (QError e)
  | Scanned payload => match unmarshal_spec payload with Ok o => inr o | Err e => inl (QError e) end
  end.

Definition InsertSpecObject (tableName objUID : string) (object : spec_object) (d : D) : option goerror * D :=
  match spec_lock d with
  | Some e => (Some e, d)
  | None =>
      match marshal_spec object with
      | Err e => (Some e, d)
      | Ok payload => spec_insert d tableName objUID payload
      end
  end.

Definition UpdateSpecObject (tableName objUID : string) (object : spec_object) (d : D) : option goerror * D :=
  match spec_lock d with
  | Some e => (Some e, d)
  | None =>
      match marshal_spec object with
      | Err e => (Some e, d)
      | Ok payload => spec_update d tableName objUID payload
      end
  end.

Definition DeleteSpecObject (tableName name namespace : string) (d : D) : option goerror * D :=
  match spec_lock d with
  | Some e => (Some e, d)
  | None => spec_mark_deleted d tableName name namespace
  end.

(** ** [controllers/bundle/base_objects_bundle.go] *)
Record baseObjectsBundle := MkBundle { bo_Objects : list spec_object; bo_DeletedObjects : list spec_object }.
Definition NewBaseObjectsBundle : baseObjectsBundle := MkBundle [] [].

Definition setMetaDataAnnotation (o : spec_object) (key value : string) : spec_object :=
  set_sp_meta o (set_annotations (sp_meta o) (<[key := value]> (Annotations (sp_meta o)))).
Definition AddObject (b : baseObjectsBundle) (o : spec_object) (objectUID : string) : baseObjectsBundle :=
  MkBundle (bo_Objects b ++ [setMetaDataAnnotation o OriginOwnerReferenceAnnotation objectUID]) (bo_DeletedObjects b).
Definition AddDeletedObject (b : baseObjectsBundle) (o : spec_object) : baseObjectsBundle :=
  MkBundle (bo_Objects b) (bo_DeletedObjects b ++ [o]).

Fixpoint fill_bundle (tableName : string) (rows : list (string * bytes * bool)) (b : baseObjectsBundle)
    : result baseObjectsBundle :=
  match rows with
  | [] => Ok b
  | (objID, payload, deleted) :: rest =>
      match unmarshal_spec payload with
      | Err e => Err ("error reading unmarshal payload from table spec." +:+ tableName +:+ " - " +:+ e)
      | Ok object =>
          fill_bundle tableName rest
            (if deleted then AddDeletedObject b object
             else AddObject b (set_sp_meta object (set_uid (sp_meta object) "")) objID)
      end
  end.

Definition GetObjectsBundle (tableName : string) (intoBundle : baseObjectsBundle) (d : D)
    : result (Z * baseObjectsBundle) :=
  let? timestamp := spec_GetLastUpdateTimestamp tableName true d in
  match spec_select d tableName with
  | Err e => Err ("failed to query table spec." +:+ tableName +:+ " - " +:+ e)
  | Ok rows => let? b := fill_bundle tableName rows intoBundle in Ok (timestamp, b)
  end.
End Gorm.

(** ** [controllers/generic.go] *)
Inductive sget_result := SFound (o : spec_object) | SNotFound | SError (e : goerror).

(** The client of the API server: an update returns the object as it is stored. *)
Class GlobalClient (W : Type) := {
  sget : W -> spec_kind -> string -> string -> sget_result;              (** namespace and name *)
  supdate : W -> spec_kind -> spec_object -> option goerror * spec_object * W;
}.

Section Reconcile.
Context {W D : Type} `{GlobalClient W} `{SpecTables D} `{SpecCodec} `{PlacementAPI}.
Variables (kind : spec_kind) (tableName : string).

Definition has_finalizer (o : spec_object) : bool := ContainsString (Finalizers (sp_meta o)) GlobalHubCleanupFinalizer.
Definition with_finalizers (o : spec_object) (fs : list string) : spec_object :=
  set_sp_meta o (set_finalizers (sp_meta o) fs).

Definition removeFinalizerAndDelete (o : spec_object) (w : W) (d : D) : option goerror * spec_object * W * D :=
  if negb (has_finalizer o) then (None, o, w, d)
  else
    match DeleteSpecObject tableName (Name (sp_meta o)) (Namespace (sp_meta o)) d with
    | (Some e, d') => (Some ("failed to delete an instance from the database: " +:+ e), o, w, d')
    | (None, d') =>
        match supdate w kind (with_finalizers o (filter (fun f => f <> GlobalHubCleanupFinalizer) (Finalizers (sp_meta o)))) with
        | (Some e, o', w') => (Some ("failed to remove a finalizer: " +:+ e), o', w', d')
        | (None, o', w') => (None, o', w', d')
        end
    end.

Definition spec_addFinalizer (o : spec_object) (w : W) : option goerror * spec_object * W :=
  if has_finalizer o then (None, o, w)
  else
    match supdate w kind (with_finalizers o (Finalizers (sp_meta o) ++ [GlobalHubCleanupFinalizer])) with
    | (Some e, o', w') => (Some ("failed to add a finalizer: " +:+ e), o', w')
    | (None, o', w') => (None, o', w')
    end.

Definition insertInstanceToDatabase (o : spec_object) (instanceUID : string) (d : D) : result spec_object * D :=
  match QuerySpecObject tableName instanceUID d with
  | inl QNoRows =>
      match InsertSpecObject tableName instanceUID o d with
      | (Some e, d') => (Err e, d')
      | (None, d') => (Ok o, d')
      end
  | inl (QError e) => (Err e, d)
  | inr inDatabase => (Ok inDatabase, d)
  end.

(** From the addition of the finalizer on. *)
Definition update_instance (o : spec_object) (w : W) (d : D) : (bool * option goerror) * W * D :=
  match spec_addFinalizer o w with
  | (Some e, _, w') => ((true, Some ("failed to add finalzier: " +:+ e)), w', d)
  | (None, o1, w') =>
      let instance := cleanInstance kind o1 in
      match insertInstanceToDatabase instance (UID (sp_meta instance)) d with
      | (Err e, d') => ((true, Some e), w', d')
      | (Ok inDatabase, d') =>
          if areEqual kind instance inDatabase then ((false, None), w', d')
          else
            match UpdateSpecObject tableName (UID (sp_meta instance)) instance d' with
            | (Some e, d2) => ((false, Some e), w', d2)
            | (None, d2) => ((false, None), w', d2)
            end
      end
  end.

(** Whether to requeue after five seconds, and the error. *)
Definition spec_Reconcile (namespace name : string) (w : W) (d : D) : (bool * option goerror) * W * D :=
  match sget w kind namespace name with
  | SNotFound =>
      match DeleteSpecObject tableName name namespace d with
      | (Some e, d') => ((true, Some e), w, d')
      | (None, d') => ((false, None), w, d')
      end
  | SError e => ((true, Some ("failed to get the instance: " +:+ e)), w, d)
  | SFound instance =>
      match DeletionTimestamp (sp_meta instance) with
      | Some _ =>
          match removeFinalizerAndDelete instance w d with
          | (Some e, _, w', d') => ((true, Some e), w', d')
          | (None, instance', w', d') => update_instance instance' w' d'
          end
      | None => update_instance instance w d
      end
  end.
End Reconcile.

(** ** [syncers/generic_syncer.go] *)
Class SpecBundleCodec := { marshal_bundle : baseObjectsBundle -> result bytes }.

Section Sync.
Context {D P Event : Type} `{SpecTables D} `{SpecCodec} `{SpecBundleCodec} `{EventSDK Event} `{Producer P Event}.

(** Whether a bundle was sent, the error, and the time of the last sync. *)
Definition syncObjectsBundle (eventType dbTableName : string) (lastSyncTimestamp : Z) (d : D) (pr : P)
    : (bool * option goerror) * Z * P :=
  match spec_GetLastUpdateTimestamp dbTableName true d with
  | Err e => ((false, Some ("unable to sync bundle - " +:+ e)), lastSyncTimestamp, pr)
  | Ok lastUpdateTimestamp =>
      if (lastUpdateTimestamp <=? lastSyncTimestamp)%Z then ((false, None), lastSyncTimestamp, pr)
      else
        match GetObjectsBundle dbTableName NewBaseObjectsBundle d with
        | Err e => ((false, Some ("unable to sync bundle - " +:+ e)), lastSyncTimestamp, pr)
        | Ok (timestamp, bundleResult) =>
            match marshal_bundle bundleResult with
            | Err _ => ((false, Some ("failed to sync marshal bundle(" +:+ eventType +:+ ")")), lastSyncTimestamp, pr)
            | Ok payloadBytes =>
                match SendEvent pr "" (utils_ToCloudEvent eventType CloudEventSourceGlobalHub Broadcast payloadBytes) with
                | (Some e, pr') => ((false, Some ("failed to sync message - " +:+ e)), lastSyncTimestamp, pr')
                | (None, pr') => ((true, None), timestamp, pr')
                end
            end
        end
  end.
End Sync.

(** ** The controllers and the syncers that are registered

    A controller is its kind, its table and the objects whose events reach it, a syncer the type of its events and
    its table. *)
Record spec_controller := MkController {
  sc_kind : spec_kind;
  tableName : string;
  watches : Object -> bool;
}.

Section Controllers.
(** The field [Kind] of an owner reference. *)
Context (owner_kind : string -> string).

(** The second event filter of the controllers of channels and subscriptions. *)
Definition not_owned_by_hub (o : Object) : bool :=
  forallb (fun r => negb (owner_kind r =? MultiClusterHubKind)) (OwnerReferences o).

Definition AddPolicyController : spec_controller := MkController KPolicy "policies" GlobalResourcePredicate.
Definition AddPlacementRuleController : spec_controller :=
  MkController KPlacementRule "placementrules" GlobalResourcePredicate.
Definition AddPlacementBindingController : spec_controller :=
  MkController KPlacementBinding "placementbindings" GlobalResourcePredicate.
Definition AddApplicationController : spec_controller :=
  MkController KApplication "applications" GlobalResourcePredicate.
Definition AddSubscriptionController : spec_controller :=
  MkController KSubscription "subscriptions" (fun o =>
    GlobalResourcePredicate o &&
    (not_owned_by_hub o && negb (Name o =? "hive-clusterimagesets-subscription-fast-0"))).
Definition AddChannelController : spec_controller :=
  MkController KChannel "channels" (fun o => GlobalResourcePredicate o && not_owned_by_hub o).
Definition AddManagedClusterSetController : spec_controller :=
  MkController KManagedClusterSet "managedclustersets" GlobalResourcePredicate.
Definition AddManagedClusterSetBindingController : spec_controller :=
  MkController KManagedClusterSetBinding "managedclustersetbindings" GlobalResourcePredicate.
Definition AddPlacementController : spec_controller :=
  MkController KPlacement "placements" GlobalResourcePredicate.

Definition AddDBControllers : list spec_controller :=
  [AddPolicyController; AddPlacementRuleController; AddPlacementBindingController; AddApplicationController;
   AddSubscriptionController; AddChannelController; AddManagedClusterSetController;
   AddManagedClusterSetBindingController; AddPlacementController].
End Controllers.

Definition AddPoliciesDBToTransportSyncer : string * string := ("Policies", "policies").
Definition AddPlacementRulesDBToTransportSyncer : string * string := ("PlacementRules", "placementrules").
Definition AddPlacementBindingsDBToTransportSyncer : string * string := ("PlacementBindings", "placementbindings").
Definition AddApplicationsDBToTransportSyncer : string * string := ("Applications", "applications").
Definition AddSubscriptionsDBToTransportSyncer : string * string := ("Subscriptions", "subscriptions").
Definition AddChannelsDBToTransportSyncer : string * string := ("Channels", "channels").
Definition AddManagedClusterLabelsDBToTransportSyncer : string * string :=
  (ManagedClustersLabelsMsgKey, "managed_clusters_labels").
Definition AddPlacementsDBToTransportSyncer : string * string := ("Placements", "placements").
Definition AddManagedClusterSetsDBToTransportSyncer : string * string := ("ManagedClusterSets", "managedclustersets").
Definition AddManagedClusterSetBindingsDBToTransportSyncer : string * string :=
  ("ManagedClusterSetBindings", "managedclustersetbindings").

Definition AddDatabaseSyncers : list (string * string) :=
  [AddPoliciesDBToTransportSyncer; AddPlacementRulesDBToTransportSyncer; AddPlacementBindingsDBToTransportSyncer;
   AddApplicationsDBToTransportSyncer; AddSubscriptionsDBToTransportSyncer; AddChannelsDBToTransportSyncer;
   AddManagedClusterLabelsDBToTransportSyncer; AddPlacementsDBToTransportSyncer;
   AddManagedClusterSetsDBToTransportSyncer; AddManagedClusterSetBindingsDBToTransportSyncer].

(** ** The tables of the global objects

    The effect of the statements on the rows, with the trigger
    [move_<table>_to_history] that removes the rows of the same name before an
    insertion, and what the controllers keep of the tables: a name has one row. *)

Class SpecCodecLaws `{SpecCodec} : Prop := {
  spec_roundtrip o b : marshal_spec o = Ok b -> unmarshal_spec b = Ok o;
  spec_key o b : marshal_spec o = Ok b ->
    payload_key b = (namespace_text (Namespace (sp_meta o)), Some (Name (sp_meta o)));
  spec_global o b : marshal_spec o = Ok b -> payload_global b = GlobalResourcePredicate (sp_meta o);
}.

(** Payload, whether the row is deleted, and the time of the last update, by ID. *)
Record spec_row := MkSpecRow { sr_payload : bytes; sr_deleted : bool; sr_updated : Z }.
Notation SpecRows := (gmap string spec_row).

(** [payload -> 'metadata' ->> 'name' = ...], with the same namespace or none. *)
Definition same_key (k1 k2 : option string * option string) : Prop :=
  k1.1 = k2.1 /\ k1.2 = k2.2 /\ k1.2 <> None.
#[export] Instance same_key_dec k1 k2 : Decision (same_key k1 k2).
Proof. unfold same_key. apply _. Defined.

Section Statements.
Context `{SpecCodec}.

(** The trigger before an insertion, and the insertion. *)
Definition move_to_history (payload : bytes) (t : SpecRows) : SpecRows :=
  filter (fun kv => ~ same_key (payload_key (sr_payload kv.2)) (payload_key payload)) t.
Definition inserted_row (id : string) (payload : bytes) (now : Z) (t : SpecRows) : SpecRows :=
  <[id := MkSpecRow payload false now]> (move_to_history payload t).
Definition updated_row (id : string) (payload : bytes) (now : Z) (t : SpecRows) : SpecRows :=
  alter (fun r => MkSpecRow payload (sr_deleted r) now) id t.
Definition marked_row (name namespace : string) (now : Z) (r : spec_row) : spec_row :=
  if negb (sr_deleted r) && bool_decide (payload_key (sr_payload r) = (namespace_text namespace, Some name))
  then MkSpecRow (sr_payload r) true now else r.
End Statements.

Class SpecTablesLaws (D : Type) `{SpecTables D, SpecCodec} := {
  srows : D -> string -> SpecRows;
  spec_found d tbl id b : spec_query d tbl id = Scanned b -> exists r, srows d tbl !! id = Some r /\ sr_payload r = b;
  spec_not_found d tbl id : spec_query d tbl id = NoRows -> srows d tbl !! id = None;
  spec_inserted d tbl id b d' : spec_insert d tbl id b = (None, d') -> exists now,
    srows d' tbl = inserted_row id b now (srows d tbl);
  spec_updated d tbl id b d' : spec_update d tbl id b = (None, d') -> exists now,
    srows d' tbl = updated_row id b now (srows d tbl);
  spec_marked d tbl name ns d' : spec_mark_deleted d tbl name ns = (None, d') -> exists now,
    srows d' tbl = marked_row name ns now <$> srows d tbl;
  spec_insert_refused d tbl id b e d' : spec_insert d tbl id b = (Some e, d') -> srows d' = srows d;
  spec_update_refused d tbl id b e d' : spec_update d tbl id b = (Some e, d') -> srows d' = srows d;
  spec_mark_refused d tbl name ns e d' : spec_mark_deleted d tbl name ns = (Some e, d') -> srows d' = srows d;
  spec_selected d tbl l : spec_select d tbl = Ok l ->
    l ≡ₚ (fun kv => (kv.1, sr_payload kv.2, sr_deleted kv.2)) <$>
      filter (fun kv => payload_global (sr_payload kv.2) = true) (map_to_list (srows d tbl));
}.

(** A UID stands for one object for ever; an update returns the object with the
    same identity. A server adds no finalizer to an object that is being deleted. *)
Class GlobalServer (W : Type) `{GlobalClient W} := {
  key_of_uid : string -> string * string;
  sget_key w k ns n o : sget w k ns n = SFound o ->
    Namespace (sp_meta o) = ns /\ Name (sp_meta o) = n /\ key_of_uid (UID (sp_meta o)) = (ns, n);
  supdate_identity w k o o' w' : supdate w k o = (None, o', w') ->
    UID (sp_meta o') = UID (sp_meta o) /\ Namespace (sp_meta o') = Namespace (sp_meta o) /\
    Name (sp_meta o') = Name (sp_meta o) /\ Finalizers (sp_meta o') = Finalizers (sp_meta o) /\
    DeletionTimestamp (sp_meta o') = DeletionTimestamp (sp_meta o);
  supdate_stored w k o o' w' ns n : supdate w k o = (None, o', w') ->
    ns = Namespace (sp_meta o) -> n = Name (sp_meta o) ->
    sget w' k ns n = SNotFound \/ exists o2, sget w' k ns n = SFound o2 /\ Finalizers (sp_meta o2) = Finalizers (sp_meta o);
  no_new_finalizers w k o ns n f : ns = Namespace (sp_meta o) -> n = Name (sp_meta o) ->
    DeletionTimestamp (sp_meta o) <> None -> f ∈ Finalizers (sp_meta o) ->
    (sget w k ns n = SNotFound \/ exists o1, sget w k ns n = SFound o1 /\ f ∉ Finalizers (sp_meta o1)) ->
    exists e o' w', supdate w k o = (Some e, o', w');
}.

Section Invariant.
Context `{SpecCodecLaws} (key : string -> string * string).

(** Every row holds an object with its ID, and a name has one row. *)
Definition rows_ok (t : SpecRows) : Prop :=
  (forall id r, t !! id = Some r -> exists o, marshal_spec o = Ok (sr_payload r) /\
     UID (sp_meta o) = id /\ (Namespace (sp_meta o), Name (sp_meta o)) = key id) /\
  (forall id1 id2 r1 r2, t !! id1 = Some r1 -> t !! id2 = Some r2 -> key id1 = key id2 -> id1 = id2).

Lemma namespace_text_inj a b : namespace_text a = namespace_text b -> a = b.
Proof. unfold namespace_text. destruct (String.eqb_spec a ""), (String.eqb_spec b ""); congruence. Qed.

Lemma inserted_ok t o b now :
  rows_ok t -> marshal_spec o = Ok b -> key (UID (sp_meta o)) = (Namespace (sp_meta o), Name (sp_meta o)) ->
  rows_ok (inserted_row (UID (sp_meta o)) b now t).
Proof.
  intros [Hrow Huniq] Hm Hk. unfold inserted_row, move_to_history.
  assert (Hold : forall id r, (filter (fun kv => ~ same_key (payload_key (sr_payload kv.2)) (payload_key b)) t : SpecRows) !! id = Some r ->
    t !! id = Some r /\ key id <> key (UID (sp_meta o))).
  { intros id r [Hl Hn]%map_lookup_filter_Some. split; [done|]. simpl in Hn. intros E. apply Hn.
    destruct (Hrow id r Hl) as (o1 & Hm1 & _ & Hk1). rewrite (spec_key _ _ Hm1), (spec_key _ _ Hm).
    rewrite <- Hk1, Hk in E. injection E as -> ->. unfold same_key. done. }
  split.
  - intros id r. rewrite lookup_insert_Some. intros [[<- <-]|[_ Hl]]; [by exists o|].
    apply Hold in Hl as [Hl _]. by apply Hrow.
  - intros id1 id2 r1 r2. rewrite !lookup_insert_Some.
    intros [[<- _]|[_ Hl1]] [[<- _]|[_ Hl2]] E; try done.
    + apply Hold in Hl2 as [_ Hne]. congruence.
    + apply Hold in Hl1 as [_ Hne]. congruence.
    + apply Hold in Hl1 as [Hl1 _]. apply Hold in Hl2 as [Hl2 _]. by eapply Huniq.
Qed.

Lemma updated_ok t o b now :
  rows_ok t -> marshal_spec o = Ok b -> key (UID (sp_meta o)) = (Namespace (sp_meta o), Name (sp_meta o)) ->
  rows_ok (updated_row (UID (sp_meta o)) b now t).
Proof.
  intros [Hrow Huniq] Hm Hk. unfold updated_row.
  assert (Hold : forall id r, alter (fun r => MkSpecRow b (sr_deleted r) now) (UID (sp_meta o)) t !! id = Some r ->
    exists r0, t !! id = Some r0 /\ (id = UID (sp_meta o) /\ sr_payload r = b \/ r = r0)).
  { intros id r. destruct (decide (id = UID (sp_meta o))) as [->|Hne].
    - rewrite lookup_alter_eq. intros (r0 & Hl & ->)%fmap_Some. exists r0. split; [done|by left].
    - rewrite lookup_alter_ne by done. eauto. }
  split.
  - intros id r (r0 & Hl & [[-> Hp]| ->])%Hold; [|by apply Hrow]. exists o. by rewrite Hp.
  - intros id1 id2 r1 r2 (r3 & Hl1 & _)%Hold (r4 & Hl2 & _)%Hold. by eapply Huniq.
Qed.

Lemma marked_ok t name ns now : rows_ok t -> rows_ok (marked_row name ns now <$> t).
Proof.
  intros [Hrow Huniq]. split.
  - intros id r. rewrite lookup_fmap. intros (r0 & Hl & ->)%fmap_Some.
    destruct (Hrow id r0 Hl) as (o & Ho). exists o. unfold marked_row.
    by destruct (negb (sr_deleted r0) && _).
  - intros id1 id2 r1 r2. rewrite !lookup_fmap. intros (r3 & Hl1 & _)%fmap_Some (r4 & Hl2 & _)%fmap_Some.
    by eapply Huniq.
Qed.
End Invariant.

Section Reconcile.
Context {W D : Type} `{GlobalServer W} `{SpecTablesLaws D} `{!SpecCodecLaws} `{PlacementAPI}.
Variables (kind : spec_kind) (tbl : string).

Notation ok d := (rows_ok key_of_uid (srows d tbl)).

Lemma DeleteSpecObject_rows name ns d r d' :
  DeleteSpecObject tbl name ns d = (r, d') ->
  match r with
  | None => exists now, srows d' tbl = marked_row name ns now <$> srows d tbl
  | Some _ => srows d' = srows d
  end.
Proof.
  unfold DeleteSpecObject. destruct (spec_lock d); [by intros [= <- <-]|].
  destruct r; [apply spec_mark_refused|apply spec_marked].
Qed.

Lemma DeleteSpecObject_ok name ns d r d' : DeleteSpecObject tbl name ns d = (r, d') -> ok d -> ok d'.
Proof.
  intros E%DeleteSpecObject_rows. destruct r; [by rewrite E|]. destruct E as [now ->]. apply marked_ok.
Qed.

Lemma clean_identity o :
  UID (sp_meta (cleanInstance kind o)) = UID (sp_meta o) /\
  Namespace (sp_meta (cleanInstance kind o)) = Namespace (sp_meta o) /\
  Name (sp_meta (cleanInstance kind o)) = Name (sp_meta o).
Proof. by destruct kind. Qed.

Lemma UpdateSpecObject_rows id o d r d' :
  UpdateSpecObject tbl id o d = (r, d') ->
  match r with
  | None => exists b now, marshal_spec o = Ok b /\ srows d' tbl = updated_row id b now (srows d tbl)
  | Some _ => srows d' = srows d
  end.
Proof.
  unfold UpdateSpecObject. destruct (spec_lock d); [by intros [= <- <-]|].
  destruct (marshal_spec o) as [b|]; [|by intros [= <- <-]]. intros E. destruct r.
  - by eapply spec_update_refused.
  - apply spec_updated in E as [now E]. eauto.
Qed.

Lemma InsertSpecObject_rows id o d r d' :
  InsertSpecObject tbl id o d = (r, d') ->
  match r with
  | None => exists b now, marshal_spec o = Ok b /\ srows d' tbl = inserted_row id b now (srows d tbl)
  | Some _ => srows d' = srows d
  end.
Proof.
  unfold InsertSpecObject. destruct (spec_lock d); [by intros [= <- <-]|].
  destruct (marshal_spec o) as [b|]; [|by intros [= <- <-]]. intros E. destruct r.
  - by eapply spec_insert_refused.
  - apply spec_inserted in E as [now E]. eauto.
Qed.

(** The object that is stored, from the one the server returned. *)
Definition keyed (o : spec_object) : Prop :=
  key_of_uid (UID (sp_meta o)) = (Namespace (sp_meta o), Name (sp_meta o)).

Lemma insertInstance_cases o d r d' :
  insertInstanceToDatabase tbl o (UID (sp_meta o)) d = (r, d') ->
  match r with
  | Ok o' =>
      (d' = d /\ exists row, srows d tbl !! UID (sp_meta o) = Some row /\ unmarshal_spec (sr_payload row) = Ok o') \/
      (o' = o /\ exists b now, marshal_spec o = Ok b /\ srows d' tbl = inserted_row (UID (sp_meta o)) b now (srows d tbl))
  | Err _ => srows d' = srows d
  end.
Proof.
  unfold insertInstanceToDatabase, QuerySpecObject. destruct (spec_query d tbl _) as [b| |e] eqn:Eq.
  - apply spec_found in Eq as (row & Hr & <-). destruct (unmarshal_spec (sr_payload row)) eqn:E; intros [= <- <-]; [|done].
    left. eauto.
  - destruct (InsertSpecObject tbl _ o d) as [[e|] d1] eqn:Ei; apply InsertSpecObject_rows in Ei; intros [= <- <-]; auto.
  - by intros [= <- <-].
Qed.

Lemma update_instance_ok o w d res w' d' :
  keyed o -> update_instance kind tbl o w d = (res, w', d') -> ok d -> ok d'.
Proof.
  intros Hk. unfold update_instance, spec_addFinalizer.
  assert (Hgo : forall o1, keyed o1 -> forall w1,
    (let instance := cleanInstance kind o1 in
     match insertInstanceToDatabase tbl instance (UID (sp_meta instance)) d with
     | (Err e, d') => ((true, Some e), w1, d')
     | (Ok inDatabase, d') =>
         if areEqual kind instance inDatabase then ((false, None), w1, d')
         else match UpdateSpecObject tbl (UID (sp_meta instance)) instance d' with
              | (Some e, d2) => ((false, Some e), w1, d2)
              | (None, d2) => ((false, None), w1, d2)
              end
     end) = (res, w', d') -> ok d -> ok d').
  { intros o1 Hk1 w1. simpl. destruct (clean_identity o1) as (Hu & Hns & Hn).
    set (i := cleanInstance kind o1) in *. assert (Hki : keyed i) by (unfold keyed; by rewrite Hu, Hns, Hn).
    destruct (insertInstanceToDatabase tbl i (UID (sp_meta i)) d) as [r d1] eqn:Ei.
    apply insertInstance_cases in Ei. intros Hr Hok.
    assert (Hok1 : ok d1).
    { destruct r; [destruct Ei as [[-> _]|(_ & b & now & Hm & ->)]; [done|by apply inserted_ok]|by rewrite Ei]. }
    destruct r as [inDB|e]; [|by injection Hr as _ _ <-]. destruct (areEqual kind i inDB); [by injection Hr as _ _ <-|].
    destruct (UpdateSpecObject tbl (UID (sp_meta i)) i d1) as [r d2] eqn:Eu. apply UpdateSpecObject_rows in Eu.
    destruct r; injection Hr as _ _ <-; [by rewrite Eu|]. destruct Eu as (b & now & Hm & ->). by apply updated_ok. }
  destruct (has_finalizer o); [by apply Hgo|].
  destruct (supdate w kind _) as [[[e|] o1] w1] eqn:Es; [by intros [= _ _ <-]|].
  apply supdate_identity in Es as (Hu & Hns & Hn & _). apply Hgo. unfold keyed in *. by rewrite Hu, Hns, Hn.
Qed.

(** C18: whatever happens to the global objects, their table keeps one row for each name: a reconciliation, with or without an error, keeps the invariant that every row holds an object with its ID and that two rows have different names, since the row of a deleted object leaves the table before its name is inserted again. *)
Theorem names_stay_unique ns name w d res w' d' :
  spec_Reconcile kind tbl ns name w d = (res, w', d') -> ok d -> ok d'.
Proof.
  unfold spec_Reconcile. destruct (sget w kind ns name) as [o| |e] eqn:Eg; [| |by intros [= _ _ <-]].
  - apply sget_key in Eg as (Hns & Hn & Hk). assert (Hko : keyed o) by (unfold keyed; by rewrite Hns, Hn).
    destruct (DeletionTimestamp (sp_meta o)); [|by apply update_instance_ok].
    unfold removeFinalizerAndDelete. destruct (has_finalizer o); simpl; [|by apply update_instance_ok].
    destruct (DeleteSpecObject tbl _ _ d) as [r d1] eqn:Ed. pose proof (DeleteSpecObject_ok _ _ _ _ _ Ed) as Hok1.
    destruct r as [e|]; [by intros [= _ _ <-]|].
    destruct (supdate w kind _) as [[[e|] o1] w1] eqn:Es; [by intros [= _ _ <-]|].
    apply supdate_identity in Es as (Hu & Hns1 & Hn1 & _). intros E Hok. eapply update_instance_ok; [|exact E|by auto].
    unfold keyed in *. simpl in *. by rewrite Hu, Hns1, Hn1.
  - destruct (DeleteSpecObject tbl name ns d) as [[e|] d1] eqn:Ed; intros [= _ _ <-]; by eapply DeleteSpecObject_ok.
Qed.

Lemma equal_on_refl part o : equal_on part o o = true.
Proof. unfold equal_on. by rewrite !bool_decide_true. Qed.

Lemma areEqual_refl o : areEqual kind o o = true.
Proof. destruct kind; apply equal_on_refl. Qed.

(** The row of an object agrees with it on what the controller compares. *)
Definition stored_as (o : spec_object) (t : SpecRows) : Prop :=
  exists row o2, t !! UID (sp_meta o) = Some row /\ unmarshal_spec (sr_payload row) = Ok o2 /\
    areEqual kind (cleanInstance kind o) o2 = true.

Lemma update_instance_stored o w d rq w' d' :
  update_instance kind tbl o w d = ((rq, None), w', d') ->
  exists o1, UID (sp_meta o1) = UID (sp_meta o) /\ (has_finalizer o = true -> o1 = o) /\ stored_as o1 (srows d' tbl).
Proof.
  unfold update_instance, spec_addFinalizer.
  assert (Hgo : forall o1, UID (sp_meta o1) = UID (sp_meta o) -> forall w1,
    (let instance := cleanInstance kind o1 in
     match insertInstanceToDatabase tbl instance (UID (sp_meta instance)) d with
     | (Err e, d') => ((true, Some e), w1, d')
     | (Ok inDatabase, d') =>
         if areEqual kind instance inDatabase then ((false, None), w1, d')
         else match UpdateSpecObject tbl (UID (sp_meta instance)) instance d' with
              | (Some e, d2) => ((false, Some e), w1, d2)
              | (None, d2) => ((false, None), w1, d2)
              end
     end) = ((rq, None), w', d') -> stored_as o1 (srows d' tbl)).
  { intros o1 Hu w1. simpl. destruct (clean_identity o1) as (Hu1 & _). unfold stored_as.
    set (i := cleanInstance kind o1) in *. rewrite <- Hu1.
    destruct (insertInstanceToDatabase tbl i (UID (sp_meta i)) d) as [r d1] eqn:Ei.
    apply insertInstance_cases in Ei. intros Hr. destruct r as [inDB|e]; [|done].
    destruct (areEqual kind i inDB) eqn:Ea.
    - injection Hr as _ _ <-. destruct Ei as [[-> (row & Hl & Hd)]|(-> & b & now & Hm & ->)]; [by exists row, inDB|].
      eexists _, i. unfold inserted_row. rewrite lookup_insert_eq. split; [done|].
      split; [by apply spec_roundtrip|apply areEqual_refl].
    - destruct (UpdateSpecObject tbl (UID (sp_meta i)) i d1) as [r d2] eqn:Eu. apply UpdateSpecObject_rows in Eu.
      destruct r; [done|]. injection Hr as _ _ <-. destruct Eu as (b & now & Hm & ->).
      destruct Ei as [[-> (row & Hl & Hd)]|(-> & _)]; [|by rewrite areEqual_refl in Ea].
      eexists _, i. unfold updated_row. rewrite lookup_alter_eq, Hl. split; [done|]. simpl.
      split; [by apply spec_roundtrip|apply areEqual_refl]. }
  destruct (has_finalizer o); [intros E; exists o; eauto|].
  destruct (supdate w kind _) as [[[e|] o1] w1] eqn:Es; [done|].
  apply supdate_identity in Es as (Hu & _). intros E. exists o1. split; [done|]. split; [done|]. by eapply Hgo.
Qed.

(** A reconciliation of a global object that is not being deleted and that ends without an error leaves in the table a row with its UID whose payload has the labels, the annotations and the compared fields of the cleaned object, the one that was read when it already has the finalizer. *)
Theorem reconciled_object_is_stored ns name w d rq w' d' o :
  sget w kind ns name = SFound o -> DeletionTimestamp (sp_meta o) = None ->
  spec_Reconcile kind tbl ns name w d = ((rq, None), w', d') ->
  exists o1, UID (sp_meta o1) = UID (sp_meta o) /\ (has_finalizer o = true -> o1 = o) /\ stored_as o1 (srows d' tbl).
Proof. unfold spec_Reconcile. intros -> ->. apply update_instance_stored. Qed.

(** The reconciliation of an object that is stored as compared writes nothing. *)
Lemma unchanged_object_is_not_written ns name w d o payload o2 :
  sget w kind ns name = SFound o -> DeletionTimestamp (sp_meta o) = None -> has_finalizer o = true ->
  spec_query d tbl (UID (sp_meta o)) = Scanned payload -> unmarshal_spec payload = Ok o2 ->
  areEqual kind (cleanInstance kind o) o2 = true ->
  spec_Reconcile kind tbl ns name w d = ((false, None), w, d).
Proof.
  unfold spec_Reconcile, update_instance, spec_addFinalizer, insertInstanceToDatabase, QuerySpecObject.
  intros -> -> -> Hq Hu Ha. simpl. destruct (clean_identity o) as (-> & _). by rewrite Hq, Hu, Ha.
Qed.

(** The reconciliation of a global object that is being deleted never succeeds while the object is there: after the rows of its name are marked as deleted and the finalizer is removed, the controller goes on to add the finalizer again, which the server refuses, so the request is queued again with an error. *)
Theorem deletion_is_always_queued_again ns name w d o rq err w' d' :
  sget w kind ns name = SFound o -> DeletionTimestamp (sp_meta o) <> None ->
  spec_Reconcile kind tbl ns name w d = ((rq, err), w', d') ->
  rq = true /\ exists e, err = Some e.
Proof.
  intros Hg Hdel. unfold spec_Reconcile. rewrite Hg. destruct (DeletionTimestamp (sp_meta o)) as [t|] eqn:Ed; [clear Hdel|done].
  apply sget_key in Hg as Hk. destruct Hk as (Hns & Hn & _).
  assert (Hadd : forall o1 w1 d1, Namespace (sp_meta o1) = ns -> Name (sp_meta o1) = name ->
    DeletionTimestamp (sp_meta o1) <> None -> has_finalizer o1 = false ->
    (sget w1 kind ns name = SNotFound \/ exists o2, sget w1 kind ns name = SFound o2 /\
       GlobalHubCleanupFinalizer ∉ Finalizers (sp_meta o2)) ->
    exists e, update_instance kind tbl o1 w1 d1 = ((true, Some e), (supdate w1 kind (with_finalizers o1
      (Finalizers (sp_meta o1) ++ [GlobalHubCleanupFinalizer]))).2, d1)).
  { intros o1 w1 d1 Hns1 Hn1 Hd1 Hf1 Hs1. unfold update_instance, spec_addFinalizer. rewrite Hf1.
    destruct (no_new_finalizers w1 kind (with_finalizers o1 (Finalizers (sp_meta o1) ++ [GlobalHubCleanupFinalizer]))
      ns name GlobalHubCleanupFinalizer) as (e & o2 & w2 & ->); simpl; try done.
    - apply elem_of_app. right. by left.
    - by eexists. }
  unfold removeFinalizerAndDelete. destruct (has_finalizer o) eqn:Ef; simpl.
  - destruct (DeleteSpecObject tbl _ _ d) as [[e|] d1]; [intros [= <- <- _ _]; eauto|].
    destruct (supdate w kind _) as [[[e|] o1] w1] eqn:Es; [intros [= <- <- _ _]; eauto|].
    pose proof (supdate_stored _ _ _ _ _ ns name Es (eq_sym Hns) (eq_sym Hn)) as Hst.
    apply supdate_identity in Es as (_ & Hns1 & Hn1 & Hf1 & Hd1). simpl in *.
    destruct (Hadd o1 w1 d1) as (e & ->).
    + congruence.
    + congruence.
    + by rewrite Hd1, Ed.
    + unfold has_finalizer. rewrite Hf1. apply not_true_is_false. intros Hc. apply ContainsString_spec in Hc.
      apply list_elem_of_filter in Hc as [Hc _]. done.
    + destruct Hst as [Hst|(o2 & Hst & Hf2)]; [by left|right]. exists o2. split; [done|]. rewrite Hf2.
      intros [Hc _]%list_elem_of_filter. done.
    + intros [= <- <- _ _]. eauto.
  - destruct (Hadd o w d) as (e & ->); [done|done|by rewrite Ed|done| |intros [= <- <- _ _]; eauto].
    right. exists o. split; [done|]. intros Hc. apply ContainsString_spec in Hc. unfold has_finalizer in Ef. congruence.
Qed.
End Reconcile.

(** A change of the templates of a policy alone never reaches the database: when the row of the policy has its labels, its annotations and all its other fields, the reconciliation succeeds and writes nothing, whatever the templates of the two are. *)
Theorem template_changes_are_not_stored {W D : Type} `{GlobalServer W} `{SpecTablesLaws D} `{!SpecCodecLaws} `{PlacementAPI}
    tbl ns name w d o payload o2 :
  sget w KPolicy ns name = SFound o -> DeletionTimestamp (sp_meta o) = None -> has_finalizer o = true ->
  spec_query d tbl (UID (sp_meta o)) = Scanned payload -> unmarshal_spec payload = Ok o2 ->
  Labels (sp_meta o2) = Labels (sp_meta o) -> Annotations (sp_meta o2) = delete LastAppliedAnnotation (Annotations (sp_meta o)) ->
  (forall f, f <> "policy-templates" -> sp_fields o2 !! f = sp_fields o !! f) ->
  spec_Reconcile KPolicy tbl ns name w d = ((false, None), w, d).
Proof.
  intros Hg Hd Hf Hq Hu Hl Ha Hfields. eapply unchanged_object_is_not_written; try done.
  unfold areEqual, arePoliciesEqual, equal_on. simpl. rewrite Hl, Ha, !bool_decide_true; try done. apply map_eq. intros f.
  destruct (decide (f = "policy-templates")) as [->|Hne]; [by rewrite !lookup_delete_eq|].
  rewrite !lookup_delete_ne by done. by rewrite Hfields.
Qed.
