(* ===== verification/SpecFlow.v ===== *)
(** * From the tables of the global objects to the hubs

    A sync sends the rows of a table ([SpecDB]) to all the hubs, whose agents
    apply the live ones and delete the others ([SpecAgent]). That a name has one
    row ([SpecDBFacts]) is what makes the order of the jobs irrelevant. *)

From stdpp Require Import prelude gmap strings list.
From Stdlib Require Import ZArith Lia Ascii Strings.Byte.
From S2P Require Import Prelude.
From S2P Require Import GoLib.
From S2P Require Import CloudEvents.
From S2P Require Import Libraries.
From S2P Require Import SpecTransport.
From S2P Require Import KubeObjects.
From S2P Require Import SpecAgent.
From S2P Require Import SpecAgentFacts.
From S2P Require Import SpecDB.
Local Open Scope string_scope.
Local Open Scope list_scope.

(** ** Lists of rows *)
Section Lists.
Context {A B K : Type}.

Lemma omap_split (f g : A -> option B) (l : list A) :
  (forall a, f a = None \/ g a = None) ->
  omap f l ++ omap g l ≡ₚ omap (fun a => match f a with Some b => Some b | None => g a end) l.
Proof.
  intros Hfg. induction l as [|a l IH]; [done|]. simpl. destruct (Hfg a) as [E|E]; rewrite E.
  - destruct (g a) as [b|]; [|done]. rewrite <- IH. by rewrite Permutation_middle.
  - destruct (f a) as [b|]; [|done]. simpl. by rewrite IH.
Qed.

(** Distinct rows give objects with distinct keys. *)
Lemma omap_NoDup (f : A -> option B) (key : B -> K) (l : list A) :
  NoDup l -> (forall a1 a2 b1 b2, a1 ∈ l -> a2 ∈ l -> f a1 = Some b1 -> f a2 = Some b2 -> key b1 = key b2 -> a1 = a2) ->
  NoDup (key <$> omap f l).
Proof.
  induction l as [|a l IH]; intros Hnd Hinj; simpl; [constructor|]. apply NoDup_cons in Hnd as [Ha Hnd].
  assert (Hrec : NoDup (key <$> omap f l)).
  { apply IH; [done|]. intros a1 a2 b1 b2 H1 H2. apply Hinj; by right. }
  destruct (f a) as [b|] eqn:E; [|done]. rewrite fmap_cons, NoDup_cons. split; [|done].
  intros (b2 & Ek & (a2 & Hin & E2)%list_elem_of_omap)%list_elem_of_fmap. apply Ha.
  by rewrite (Hinj a a2 b b2 (list_elem_of_here a l) (list_elem_of_further _ _ _ Hin) E E2 Ek).
Qed.
End Lists.

(** ** What a bundle holds *)
Section Bundle.
Context `{SpecCodec}.

(** A row of the selection, as it is sent. *)
Definition sent_live (r : string * bytes * bool) : option spec_object :=
  match r with
  | (id, payload, false) =>
      match unmarshal_spec payload with
      | Ok o => Some (setMetaDataAnnotation (set_sp_meta o (set_uid (sp_meta o) "")) OriginOwnerReferenceAnnotation id)
      | Err _ => None
      end
  | _ => None
  end.
Definition sent_deleted (r : string * bytes * bool) : option spec_object :=
  match r with
  | (_, payload, true) => match unmarshal_spec payload with Ok o => Some o | Err _ => None end
  | _ => None
  end.

Lemma fill_bundle_Ok tbl rows b b' :
  fill_bundle tbl rows b = Ok b' ->
  bo_Objects b' = bo_Objects b ++ omap sent_live rows /\
  bo_DeletedObjects b' = bo_DeletedObjects b ++ omap sent_deleted rows.
Proof.
  revert b. induction rows as [|[[id payload] deleted] rows IH]; intros b; simpl.
  - intros [= <-]. by rewrite !app_nil_r.
  - destruct (unmarshal_spec payload) as [o|]; [|done]. intros [-> ->]%IH. destruct deleted; simpl; by rewrite <- app_assoc.
Qed.
End Bundle.

(** The bundle of the manager, read by the agent as unstructured objects. *)
Class BundleView `{SpecBundleCodec, BundleCodec} := {
  view : spec_object -> unstructured;
  view_namespace o : u_namespace (view o) = Namespace (sp_meta o);
  view_name o : u_name (view o) = Name (sp_meta o);
  view_decoded b payload : marshal_bundle b = Ok payload ->
    unmarshal_bundle payload = Ok (view <$> bo_Objects b, view <$> bo_DeletedObjects b);
}.

Section Flow.
Context {D P Event W : Type} `{SpecTablesLaws D} `{!SpecCodecLaws} `{BundleView}.
Context `{EventLaws Event} `{!Producer P Event} `{!ProducerLog P Event}.
Context `{SpecServer W} `{Impersonation} `{SchedulerLaws} `{RetrierLaws}.

(** The objects of a sync that ends without an error. *)
Lemma sync_objects tbl eventType last d pr last' pr' :
  syncObjectsBundle (Event := Event) eventType tbl last d pr = ((true, None), last', pr') ->
  exists rows b payload, spec_select d tbl = Ok rows /\ marshal_bundle b = Ok payload /\
    bo_Objects b = omap sent_live rows /\ bo_DeletedObjects b = omap sent_deleted rows /\
    sent_events pr' = sent_events pr ++ [utils_ToCloudEvent (Event := Event) eventType CloudEventSourceGlobalHub Broadcast payload].
Proof.
  unfold syncObjectsBundle. destruct (spec_GetLastUpdateTimestamp tbl true d) as [t|] eqn:Et; [|done].
  destruct (t <=? last)%Z; [done|]. unfold GetObjectsBundle. rewrite Et. simpl.
  destruct (spec_select d tbl) as [rows|]; [|done]. destruct (fill_bundle tbl rows _) as [b|] eqn:Ef; [|done]. simpl.
  destruct (marshal_bundle b) as [payload|] eqn:Em; [|done].
  destruct (SendEvent pr "" _) as [[e|] pr1] eqn:Es; [done|]. intros [= _ <-].
  apply fill_bundle_Ok in Ef as [Ho Hd]. apply send_accepted in Es. exists rows, b, payload. by split_and!.
Qed.

(** The row that a selected row comes from. *)
Lemma selected_row tbl d rows id payload deleted :
  spec_select d tbl = Ok rows ->
  (id, payload, deleted) ∈ rows <-> exists r, srows d tbl !! id = Some r /\ sr_payload r = payload /\ sr_deleted r = deleted /\
    payload_global payload = true.
Proof.
  intros ->%spec_selected. rewrite list_elem_of_fmap. split.
  - intros ([i r] & [= -> -> ->] & [Hg Hin%elem_of_map_to_list]%list_elem_of_filter). eauto.
  - intros (r & Hr & <- & <- & Hg). exists (id, r). split; [done|]. by rewrite list_elem_of_filter, elem_of_map_to_list.
Qed.

Lemma selected_NoDup tbl d rows : spec_select d tbl = Ok rows -> NoDup rows.
Proof.
  intros ->%spec_selected. apply NoDup_fmap_2_strong; [|apply NoDup_filter, NoDup_map_to_list].
  intros [i1 r1] [i2 r2] [_ M1%elem_of_map_to_list]%list_elem_of_filter [_ M2%elem_of_map_to_list]%list_elem_of_filter [= -> _ _].
  congruence.
Qed.

Notation key_of o := (Namespace (sp_meta o), Name (sp_meta o)).

(** The decoded object of a row. *)
Definition sent_any (r : string * bytes * bool) : option spec_object :=
  match sent_live r with Some o => Some o | None => sent_deleted r end.

Lemma sent_any_key tbl d rows (key : string -> string * string) r o :
  rows_ok key (srows d tbl) -> spec_select d tbl = Ok rows -> r ∈ rows -> sent_any r = Some o -> key_of o = key r.1.1.
Proof.
  intros [Hrow _] Hs Hr. destruct r as [[id payload] deleted]. apply (selected_row _ _ _ _ _ _ Hs) in Hr as (row & Hl & <- & _).
  destruct (Hrow id row Hl) as (o1 & Hm & _ & Hk). apply spec_roundtrip in Hm. unfold sent_any, sent_live, sent_deleted.
  rewrite Hm. by destruct deleted; intros [= <-].
Qed.

Lemma sent_keys_NoDup tbl d rows (key : string -> string * string) :
  rows_ok key (srows d tbl) -> spec_select d tbl = Ok rows ->
  NoDup (object_key <$> (view <$> omap sent_live rows) ++ (view <$> omap sent_deleted rows)).
Proof.
  intros Hok Hs. rewrite <- fmap_app, <- list_fmap_compose.
  assert (Hp : omap sent_live rows ++ omap sent_deleted rows ≡ₚ omap sent_any rows).
  { apply omap_split. intros [[id payload] []]; simpl; auto. }
  rewrite Hp. apply (omap_NoDup sent_any (object_key ∘ view)); [by eapply selected_NoDup|].
  intros r1 r2 o1 o2 M1 M2 E1 E2 Ek. unfold object_key in Ek. simpl in Ek. rewrite !view_namespace, !view_name in Ek.
  injection Ek as _ Ens En.
  pose proof (sent_any_key tbl d rows key r1 o1 Hok Hs M1 E1) as K1.
  pose proof (sent_any_key tbl d rows key r2 o2 Hok Hs M2 E2) as K2.
  destruct r1 as [[id1 p1] b1], r2 as [[id2 p2] b2]. simpl in K1, K2.
  apply (selected_row _ _ _ _ _ _ Hs) in M1 as (x1 & Hx1 & <- & <- & _).
  apply (selected_row _ _ _ _ _ _ Hs) in M2 as (x2 & Hx2 & <- & <- & _).
  assert (id1 = id2) as -> by (eapply (proj2 Hok); [exact Hx1|exact Hx2|congruence]). congruence.
Qed.

(** C6: the rows of a table of global objects become the objects of every hub: when a sync ends without an error on a table where a name has one row, the event it sends is processed to its end by every agent that has a generic syncer that does not enforce the RBAC of the hub of hubs, which is its default, and none for the type of the event; on a server that accepts the calls, the object of each live row is applied with the annotation of its origin, the object of each deleted row is gone or, when it has finalizers, being deleted, and every other object is as it was. *)
Theorem global_objects_reach_every_hub tbl eventType last d pr last' pr' (key : string -> string * string) hub syncers pool (w : W) :
  rows_ok key (srows d tbl) ->
  (forall id r o, srows d tbl !! id = Some r -> unmarshal_spec (sr_payload r) = Ok o ->
     forall a, spec_is_map (view (set_sp_meta o a))) ->
  syncObjectsBundle (Event := Event) eventType tbl last d pr = ((true, None), last', pr') ->
  syncers !! eventType = None -> syncers !! GenericSpecMsgKey = Some (generic_syncer false) ->
  exists (e : Event) w', sent_events pr' = sent_events pr ++ [e] /\
    dispatch hub syncers (Some e) (pool, w) = Ret (pool, w') /\
    (reliable_server (W := W) -> forall id r o, srows d tbl !! id = Some r -> payload_global (sr_payload r) = true ->
       unmarshal_spec (sr_payload r) = Ok o ->
       if sr_deleted r then spec_objects w' !! object_key (view o) = spec_objects w !! object_key (view o) ≫= marked_object
       else let o' := view (setMetaDataAnnotation (set_sp_meta o (set_uid (sp_meta o) "")) OriginOwnerReferenceAnnotation id) in
            spec_objects w' !! object_key o' = Some (applied (spec_objects w !! object_key o') (sent_object o'))) /\
    forall k ns n, (forall id, is_Some (srows d tbl !! id) -> key id <> (ns, n)) ->
      spec_objects w' !! (k, ns, n) = spec_objects w !! (k, ns, n).
Proof.
  intros Hok Hmap Hsync Hns Hg. apply sync_objects in Hsync as (rows & b & payload & Hsel & Hm & Hbo & Hbd & Hsent).
  pose proof (sent_keys_NoDup tbl d rows key Hok Hsel) as Hnd. rewrite <- Hbo, <- Hbd in Hnd.
  assert (Hany : forall o, o ∈ bo_Objects b ++ bo_DeletedObjects b -> exists r, r ∈ rows /\ sent_any r = Some o).
  { intros o. rewrite Hbo, Hbd. assert (Hp : omap sent_live rows ++ omap sent_deleted rows ≡ₚ omap sent_any rows).
    { apply omap_split. intros [[id p] []]; simpl; auto. }
    rewrite Hp. apply list_elem_of_omap. }
  destruct (generic_Sync_spec (view <$> bo_Objects b) (view <$> bo_DeletedObjects b) pool w Hnd) as (w' & Es & Hother & Heff).
  { rewrite <- fmap_app, Forall_fmap, Forall_forall. intros o (r & Hr & Ho)%Hany. simpl.
    destruct r as [[id p] del]. apply (selected_row _ _ _ _ _ _ Hsel) in Hr as (row & Hl & <- & _).
    unfold sent_any, sent_live, sent_deleted in Ho. destruct (unmarshal_spec (sr_payload row)) as [o0|] eqn:Eu; [|by destruct del].
    destruct del; injection Ho as <-.
    - replace o0 with (set_sp_meta o0 (sp_meta o0)) by by destruct o0. by eapply Hmap.
    - by eapply (Hmap id row o0). }
  destruct (utils_ToCloudEvent_spec (Event := Event) eventType CloudEventSourceGlobalHub Broadcast payload) as (Ht & _ & Hd & Hx).
  eexists _, w'. split; [exact Hsent|]. split; [|split].
  - eapply (dispatch_Ret hub syncers _ (pool, w) (pool, w') (generic_syncer false)).
    + exists Broadcast. auto.
    + unfold syncer_for. by rewrite Ht, Hns.
    + rewrite Hd. unfold generic_syncer. rewrite (view_decoded _ _ Hm). cbn [fst snd]. by rewrite Es.
  - intros Hrel id r o Hl Hglob Hu. destruct (Heff Hrel) as [Hobj Hdel].
    assert (Hin : (id, sr_payload r, sr_deleted r) ∈ rows) by (apply (selected_row _ _ _ _ _ _ Hsel); eauto).
    destruct (sr_deleted r) eqn:Edel.
    + apply Hdel, list_elem_of_fmap_2. rewrite Hbd. apply list_elem_of_omap. eexists. split; [exact Hin|]. simpl. by rewrite Hu.
    + apply Hobj, list_elem_of_fmap_2. rewrite Hbo. apply list_elem_of_omap. eexists. split; [exact Hin|]. simpl. by rewrite Hu.
  - intros k ns n Hk. apply Hother. rewrite <- fmap_app, <- list_fmap_compose.
    intros (o & Ek & (r & Hr & Ho)%Hany)%list_elem_of_fmap. unfold object_key in Ek. simpl in Ek.
    rewrite view_namespace, view_name in Ek. injection Ek as _ -> ->.
    pose proof (sent_any_key tbl d rows key r o Hok Hsel Hr Ho) as Hko. destruct r as [[id p] del].
    apply (selected_row _ _ _ _ _ _ Hsel) in Hr as (row & Hl & _). by apply (Hk id); [eexists|].
Qed.
End Flow.

(** ** A concrete hub, its database and a managed hub *)
Module Sample.
#[local] Instance annotation : PlacementAPI := {| PlacementDisableAnnotation := "disable-scheduling" |}.

Definition meta (uid ns name : string) (finalizers : list string) (deleted : option Z) : Object :=
  MkObject uid ns name 0 "" 0 deleted {[GlobalHubGlobalResourceLabel := ""]} ∅ finalizers [] [] "" BOther.
Definition policy (templates : string) (finalizers : list string) : spec_object :=
  MkSpec (meta "ns/p" "ns" "p" finalizers None) {["policy-templates" := templates]} "".
Definition old_policy : spec_object := MkSpec (meta "ns/old" "ns" "old" [] None) ∅ "".

#[local] Instance cluster_status_eq_dec : EqDecision CompliancePerClusterStatus.
Proof. solve_decision. Defined.
#[local] Instance history_eq_dec : EqDecision ComplianceHistory.
Proof. solve_decision. Defined.
#[local] Instance detail_eq_dec : EqDecision DetailsPerTemplate.
Proof. solve_decision. Defined.
#[local] Instance policy_status_eq_dec : EqDecision PolicyStatus.
Proof. solve_decision. Defined.
#[local] Instance series_eq_dec : EqDecision EventSeries.
Proof. solve_decision. Defined.
#[local] Instance core_event_eq_dec : EqDecision CoreEvent.
Proof. solve_decision. Defined.
#[local] Instance body_eq_dec : EqDecision body.
Proof. solve_decision. Defined.
#[local] Instance meta_eq_dec : EqDecision Object.
Proof. solve_decision. Defined.
#[local] Instance object_eq_dec : EqDecision spec_object.
Proof. solve_decision. Defined.
#[local] Instance bundle_eq_dec : EqDecision baseObjectsBundle.
Proof. solve_decision. Defined.

Definition known : list spec_object := [policy "[1]" []; policy "[2]" []; old_policy].
Definition sent_policy : spec_object :=
  setMetaDataAnnotation (set_sp_meta (policy "[1]" []) (set_uid (sp_meta (policy "[1]" [])) "")) OriginOwnerReferenceAnnotation "ns/p".
Definition known_bundles : list baseObjectsBundle := [MkBundle [sent_policy] [old_policy]].

#[local] Instance codec : SpecCodec := {|
  marshal_spec := index_encode known;
  unmarshal_spec := index_decode known;
  payload_key b := match index_decode known b with
                   | Ok o => (namespace_text (Namespace (sp_meta o)), Some (Name (sp_meta o)))
                   | Err _ => (None, None)
                   end;
  payload_global b := match index_decode known b with Ok o => GlobalResourcePredicate (sp_meta o) | Err _ => false end;
|}.
#[local] Instance codec_laws : SpecCodecLaws.
Proof. split; simpl; intros o b E%index_roundtrip; by rewrite E. Qed.

(** The tables, without errors. *)
Notation Tables := (gmap string SpecRows).
Definition table (d : Tables) (tbl : string) : SpecRows := default ∅ (d !! tbl).
#[local] Instance tables_db : SpecTables Tables := {|
  spec_lock _ := None;
  spec_query d tbl id := match table d tbl !! id with Some r => Scanned (sr_payload r) | None => NoRows end;
  spec_insert d tbl id b := (None, <[tbl := inserted_row id b 1 (table d tbl)]> d);
  spec_update d tbl id b := (None, <[tbl := updated_row id b 1 (table d tbl)]> d);
  spec_mark_deleted d tbl name ns := (None, <[tbl := marked_row name ns 1 <$> table d tbl]> d);
  spec_max_updated d tbl _ := Scanned 1%Z;
  spec_select d tbl := Ok ((fun kv => (kv.1, sr_payload kv.2, sr_deleted kv.2)) <$>
      filter (fun kv => payload_global (sr_payload kv.2) = true) (map_to_list (table d tbl)));
|}.
#[local] Program Instance tables_laws : SpecTablesLaws Tables := {| srows := table |}.
Next Obligation. intros d tbl id b. simpl. destruct (table d tbl !! id) as [r|]; [|done]. intros [= <-]. eauto. Qed.
Next Obligation. intros d tbl id. simpl. by destruct (table d tbl !! id). Qed.
Next Obligation. intros d tbl id b d' [= <-]. exists 1%Z. unfold table at 1. by rewrite lookup_insert_eq. Qed.
Next Obligation. intros d tbl id b d' [= <-]. exists 1%Z. unfold table at 1. by rewrite lookup_insert_eq. Qed.
Next Obligation. intros d tbl name ns d' [= <-]. exists 1%Z. unfold table at 1. by rewrite lookup_insert_eq. Qed.
Next Obligation. by intros. Qed.
Next Obligation. by intros. Qed.
Next Obligation. by intros. Qed.
Next Obligation. by intros d tbl l [= <-]. Qed.

(** The server of the hub: a UID is the namespace and the name. *)
Definition uid_key (uid : string) : string * string :=
  match split_char "/"%char uid with [ns; n] => (ns, n) | _ => ("", "") end.
Notation Hub := (gmap (string * string) spec_object).
Definition hub_get (w : Hub) (ns n : string) : sget_result :=
  match w !! (ns, n) with
  | Some o => if decide (Namespace (sp_meta o) = ns /\ Name (sp_meta o) = n /\ uid_key (UID (sp_meta o)) = (ns, n))
              then SFound o else SNotFound
  | None => SNotFound
  end.
#[local] Instance hub_client : GlobalClient Hub := {|
  sget w _ ns n := hub_get w ns n;
  supdate w _ o :=
    match hub_get w (Namespace (sp_meta o)) (Name (sp_meta o)) with
    | SFound cur =>
        if decide (DeletionTimestamp (sp_meta o) <> None /\
                   Exists (fun f => f ∉ Finalizers (sp_meta cur)) (Finalizers (sp_meta o)))
        then (Some "no new finalizers can be added if the object is being deleted", o, w)
        else (None, o, <[(Namespace (sp_meta o), Name (sp_meta o)) := o]> w)
    | _ => (Some "not found", o, w)
    end;
|}.
#[local] Program Instance hub_server : GlobalServer Hub := {| key_of_uid := uid_key |}.
Next Obligation.
  intros w k ns n o. simpl. unfold hub_get. destruct (w !! (ns, n)) as [x|]; [|done]. case_decide as Hc; [|done].
  by intros [= <-].
Qed.
Next Obligation.
  intros w k o o' w'. simpl. destruct (hub_get w _ _); [|done|done]. case_decide; [done|]. by intros [= <- _].
Qed.
Next Obligation.
  intros w k o o' w' ns n. simpl. destruct (hub_get w _ _); [|done|done]. case_decide; [done|]. intros [= <- <-] -> ->.
  unfold hub_get. rewrite lookup_insert_eq. case_decide; [right; eauto|by left].
Qed.
Next Obligation.
  intros w k o ns n f -> -> Hd Hf Hs. simpl in *. destruct Hs as [->|(o1 & -> & Hn)]; [by eauto|].
  rewrite decide_True; [by eauto|]. split; [done|]. apply Exists_exists. eauto.
Qed.

Definition hub_with (o : spec_object) : Hub := {[("ns", "p") := o]}.
Definition the_policy : spec_object := policy "[1]" [GlobalHubCleanupFinalizer].
Definition old_row : spec_row := MkSpecRow (replicate 3 Byte.x00) true 0.
Definition before : Tables := {["policies" := {["ns/old" := old_row]}]}.
Definition reconciled : (bool * option goerror) * Hub * Tables :=
  spec_Reconcile KPolicy "policies" "ns" "p" (hub_with the_policy) before.
Definition after : Tables := reconciled.2.

Lemma before_ok : rows_ok uid_key (srows before "policies").
Proof.
  split.
  - intros id r. replace (srows before "policies") with ({["ns/old" := old_row]} : SpecRows) by reflexivity.
    rewrite lookup_singleton_Some. intros [<- <-]. exists old_policy. split; [reflexivity|]. done.
  - intros id1 id2 r1 r2. replace (srows before "policies") with ({["ns/old" := old_row]} : SpecRows) by reflexivity.
    rewrite !lookup_singleton_Some. by intros [<- _] [<- _].
Qed.

Lemma after_rows id r : srows after "policies" !! id = Some r ->
  id = "ns/p" /\ r = MkSpecRow [Byte.x00] false 1 \/ id = "ns/old" /\ r = old_row.
Proof.
  replace (srows after "policies") with ({["ns/p" := MkSpecRow [Byte.x00] false 1; "ns/old" := old_row]} : SpecRows)
    by reflexivity.
  rewrite lookup_insert_Some, lookup_singleton_Some. intros [[<- <-]|(_ & <- & <-)]; auto.
Qed.

Lemma after_ok : rows_ok uid_key (srows after "policies").
Proof.
  split.
  - intros id r [[-> ->]|[-> ->]]%after_rows; [exists (policy "[1]" [])|exists old_policy]; (split; [reflexivity|done]).
  - intros id1 id2 r1 r2 [[-> _]|[-> _]]%after_rows [[-> _]|[-> _]]%after_rows; done.
Qed.

Lemma names_stay_unique_witness : rows_ok uid_key (srows after "policies").
Proof.
  pose proof (names_stay_unique (W := Hub) (D := Tables) KPolicy "policies" "ns" "p" (hub_with the_policy) before
    reconciled.1.1 reconciled.1.2 after) as Hn.
  exact (Hn eq_refl before_ok).
Defined.

Lemma reconciled_object_is_stored_witness : stored_as KPolicy the_policy (srows after "policies").
Proof.
  destruct (reconciled_object_is_stored KPolicy "policies" "ns" "p" (hub_with the_policy) before false reconciled.1.2 after
    the_policy) as (o1 & _ & Ho & Hs); [reflexivity|reflexivity|reflexivity|].
  replace the_policy with o1 by (by apply Ho). exact Hs.
Defined.

Lemma template_changes_are_not_stored_witness :
  spec_Reconcile KPolicy "policies" "ns" "p" (hub_with (policy "[2]" [GlobalHubCleanupFinalizer])) after =
    ((false, None), hub_with (policy "[2]" [GlobalHubCleanupFinalizer]), after).
Proof.
  apply (template_changes_are_not_stored "policies" "ns" "p" _ after (policy "[2]" [GlobalHubCleanupFinalizer]) [Byte.x00]
    (policy "[1]" [])); try reflexivity.
  intros f Hf. simpl. by rewrite !lookup_singleton_ne.
Defined.

Definition deleting : spec_object := MkSpec (meta "ns/p" "ns" "p" [GlobalHubCleanupFinalizer] (Some 9%Z)) ∅ "".

Lemma deletion_is_always_queued_again_witness :
  exists e, (spec_Reconcile KPolicy "policies" "ns" "p" (hub_with deleting) after).1.1 = (true, Some e).
Proof.
  destruct (spec_Reconcile KPolicy "policies" "ns" "p" (hub_with deleting) after) as [[[rq err] w'] d'] eqn:E.
  destruct (deletion_is_always_queued_again KPolicy "policies" "ns" "p" (hub_with deleting) after deleting rq err w' d')
    as [Hq [e He]]; [reflexivity|discriminate|exact E|].
  exists e. simpl. by rewrite Hq, He.
Defined.

(** The agent of a managed hub. *)
#[local] Existing Instances SpecAgentFacts.Sample.no_failure SpecAgentFacts.Sample.in_order
  SpecAgentFacts.Sample.in_order_laws SpecAgentFacts.Sample.retrier SpecAgentFacts.Sample.retrier_laws
  SpecAgentFacts.Sample.map_client SpecAgentFacts.Sample.map_server.

Definition as_policy (o : spec_object) : unstructured :=
  MkUnstructured "Policy" (Namespace (sp_meta o)) (Name (sp_meta o)) (UID (sp_meta o)) (Labels (sp_meta o))
    (Annotations (sp_meta o)) (Finalizers (sp_meta o)) (bool_decide (is_Some (DeletionTimestamp (sp_meta o)))) {["spec" := FMap (sp_fields o)]}.
#[local] Instance bundle_codec : SpecBundleCodec := {| marshal_bundle := index_encode known_bundles |}.
#[local] Instance agent_codec : BundleCodec := {|
  unmarshal_bundle payload :=
    let? b := index_decode known_bundles payload in Ok (as_policy <$> bo_Objects b, as_policy <$> bo_DeletedObjects b);
|}.
#[local] Program Instance views : BundleView := {| view := as_policy |}.
Next Obligation. done. Qed.
Next Obligation. done. Qed.
Next Obligation. intros b payload E%index_roundtrip. simpl. by rewrite E. Qed.

Notation HubObjects := (gmap (string * string * string) unstructured).
Definition registered : gmap string (bytes -> WorkerPool * HubObjects -> outcome (option goerror * (WorkerPool * HubObjects))) :=
  AddToManager true (generic_syncer false) (generic_syncer false) (generic_syncer false) (generic_syncer false)
    (generic_syncer false).
Definition old_objects : HubObjects := {[("Policy", "ns", "old") := as_policy old_policy]}.
Definition synced : list PlainEvent := (syncObjectsBundle "Policies" "policies" 0 after []).2.
Definition policy_row : spec_row := MkSpecRow [Byte.x00] false 1.

Lemma fields_are_maps id r o : srows after "policies" !! id = Some r -> unmarshal_spec (sr_payload r) = Ok o ->
  forall a, spec_is_map (view (set_sp_meta o a)).
Proof. intros _ _ a. done. Qed.

Lemma global_objects_reach_every_hub_witness :
  exists e w', synced = [e] /\ dispatch "hub1" registered (Some e) (NewPool, old_objects) = Ret (NewPool, w') /\
    is_Some (w' !! ("Policy", "ns", "p")) /\ w' !! ("Policy", "ns", "old") = None.
Proof.
  destruct (global_objects_reach_every_hub (Event := PlainEvent) (W := HubObjects) "policies" "Policies" 0 after [] 1 synced
    uid_key "hub1" registered NewPool old_objects after_ok fields_are_maps) as (e & w' & Hs & Hd & Hrel & _);
    [reflexivity|reflexivity|reflexivity|].
  exists e, w'. split; [exact Hs|]. split; [exact Hd|].
  specialize (Hrel SpecAgentFacts.Sample.map_server_reliable). split.
  - eexists. exact (Hrel "ns/p" policy_row (policy "[1]" []) eq_refl eq_refl eq_refl).
  - exact (eq_trans (Hrel "ns/old" old_row old_policy eq_refl eq_refl eq_refl) eq_refl).
Defined.
End Sample.
