(* ===== verification/Operand.v ===== *)
(** * The operand of the operator

    What the operator keeps in the status of its operand
    ([operator/pkg/config/status.go]): conditions, components and the phase. The
    objects are those that the controllers of the operand, its backup and its
    deletion read and write. *)

From stdpp Require Import prelude gmap strings list.
From Stdlib Require Import ZArith Lia.
From S2P Require Import Prelude.
From S2P Require Import GoLib.
From S2P Require Import Libraries.
From S2P Require Import KubeClient.
From S2P Require Import SpecDB.

Local Open Scope string_scope.
Local Open Scope list_scope.

(** ** Objects *)
(** The operand without its status, which is a subresource. *)
Record Operand := MkOperand {
  mg_Meta : PlainObject;
  mg_EnableMetrics : bool;
}.
(** The components of the overrides of a [MultiClusterHub], nil when there are no overrides. *)
Record AcmHub := MkAcmHub { ah_Key : obj_key; ah_Overrides : option (list (string * bool)) }.
Record Workload := MkWorkload { wl_Key : obj_key; wl_Replicas : option Z; wl_AvailableReplicas : Z }.

Inductive hub_kind :=
| KOperand | KOperandAgent | KSecret | KConfigMap | KVolume | KAcmHub | KRole | KRoleBinding
| KDeployment | KStatefulSet | KCluster | KGlobal (k : spec_kind).
#[export] Instance hub_kind_dec : EqDecision hub_kind.
Proof. solve_decision. Defined.

Definition hub_obj (k : hub_kind) : Type :=
  match k with
  | KOperand => Operand
  | KAcmHub => AcmHub
  | KDeployment | KStatefulSet => Workload
  | _ => PlainObject
  end.
Definition hub_name (k : hub_kind) : hub_obj k -> obj_key :=
  match k with
  | KOperand => fun o => pl_Key (mg_Meta o)
  | KAcmHub => ah_Key
  | KDeployment | KStatefulSet => wl_Key
  | _ => pl_Key
  end.

Definition hub_mark (k : hub_kind) : hub_obj k -> option (hub_obj k) :=
  match k with
  | KOperand => fun o => (fun m => MkOperand m (mg_EnableMetrics o)) <$> pl_mark (mg_Meta o)
  | KAcmHub | KDeployment | KStatefulSet => fun _ => None
  | _ => pl_mark
  end.
Definition hub_keep (k : hub_kind) : hub_obj k -> bool :=
  match k with
  | KOperand => fun o => pl_keep (mg_Meta o)
  | KAcmHub | KDeployment | KStatefulSet => fun _ => true
  | _ => pl_keep
  end.
#[export] Program Instance hub_kinds : Kinds hub_kind := {|
  kobj := hub_obj; kname := hub_name; obj_mark := hub_mark; obj_keep := hub_keep; obj_admit _ o := o;
|}.
Next Obligation.
  intros [] o o'; cbn; try done; try apply pl_mark_key.
  destruct (pl_mark (mg_Meta o)) eqn:E; [|done]. intros [= <-]. cbn. by apply pl_mark_key.
Qed.
Next Obligation. done. Qed.

(** ** Status *)
Record Condition := MkCondition {
  c_Type : string;
  c_Status : string;
  c_Reason : string;
  c_Message : string;
  c_LastTransitionTime : Z;
}.
Record StatusCondition := MkStatusCondition {
  sc_Name : string;
  sc_Kind : string;
  sc_Type : string;
  sc_Status : string;
  sc_LastTransitionTime : Z;
  sc_Reason : string;
  sc_Message : string;
}.
#[export] Instance status_condition_dec : EqDecision StatusCondition.
Proof. solve_decision. Defined.
(** The components are nil until the first one is reported. *)
Record Status := MkStatus {
  st_Conditions : list Condition;
  st_Components : option (gmap string StatusCondition);
  st_Phase : string;
}.

Definition GlobalHubRunning : string := "Running".
Definition GlobalHubProgressing : string := "Progressing".
Definition GlobalHubUninstalling : string := "Uninstalling".
Definition GlobalHubError : string := "Error".

(** The status subresource: reading an object reads its status, an update of the
    object leaves it alone. *)
Class StatusClient (W : Type) `{KubeClient W hub_kind} := {
  status_of : W -> obj_key -> Status;
  put_status : W -> obj_key -> Status -> written * W;
}.
Class StatusServer (W : Type) `{StatusClient W} `{!KubeServer W hub_kind} := {
  put_status_Done w n s w' : put_status w n s = (Done, w') ->
    is_Some (kobjects w KOperand !! n) /\ kobjects w' = kobjects w /\ status_of w' n = s /\
    forall n', n' <> n -> status_of w' n' = status_of w n';
  put_status_refused w n s r w' : put_status w n s = (r, w') -> r <> Done ->
    kobjects w' = kobjects w /\ status_of w' = status_of w;
  kupdate_status w k o r w' : kupdate w k o = (r, w') -> status_of w' = status_of w;
  kdelete_status w (k : hub_kind) n r w' : k <> KOperand -> kdelete w k n = (r, w') -> status_of w' = status_of w;
}.

(** ** [status.go] *)
Definition CONDITION_STATUS_TRUE : string := "True".
Definition CONDITION_STATUS_FALSE : string := "False".
Definition COMPONENTS_AVAILABLE : string := "Available".
Definition COMPONENTS_NOT_READY : string := "ComponentsNotReady".
Definition RECONCILE_ERROR : string := "ReconcileError".
Definition MINIMUM_REPLICAS_AVAILABLE : string := "MinimumReplicasAvailable".
Definition MINIMUM_REPLICAS_UNAVAILABLE : string := "MinimumReplicasUnavailable".

Definition ContainsCondition (conditions : list Condition) (typeName : string) : bool :=
  existsb (fun c => String.eqb (c_Type c) typeName) conditions.
Definition ContainConditionStatus (conditions : list Condition) (typeName status : string) : bool :=
  existsb (fun c => String.eqb (c_Type c) typeName && String.eqb (c_Status c) status) conditions.

Definition set_time (c : Condition) (t : Z) : Condition := MkCondition (c_Type c) (c_Status c) (c_Reason c) (c_Message c) t.

(** The loop over the conditions: whether the type exists, and then whether it
    has to change, and the conditions after. *)
Fixpoint replace_condition (conditions : list Condition) (cond : Condition) : option (bool * list Condition) :=
  match conditions with
  | [] => None
  | curCon :: rest =>
      if String.eqb (c_Type curCon) (c_Type cond) then
        if String.eqb (c_Status curCon) (c_Status cond) && String.eqb (c_Reason curCon) (c_Reason cond) &&
           String.eqb (c_Message curCon) (c_Message cond)
        then Some (false, curCon :: rest)
        else Some (true, cond :: rest)
      else
        match replace_condition rest cond with
        | Some (b, rest') => Some (b, curCon :: rest')
        | None => None
        end
  end.
Definition NeedUpdateConditions (now : Z) (conditions : list Condition) (cond : Condition) : bool * list Condition :=
  let cond := set_time cond now in
  match replace_condition conditions cond with
  | Some r => r
  | None => (true, conditions ++ [cond])
  end.

Section Updates.
Context {W : Type} `{!KubeClient W hub_kind} `{!StatusClient W} `{Retrier}.
Context (now : Z).

Definition UpdateCondition (key : obj_key) (cond : Condition) (phase : string) (w : W) : option goerror * W :=
  retry_on_conflict (fun w =>
    match kget w KOperand key with
    | Missing => (Some "not found", w)
    | Broken e => (Some e, w)
    | Found _ =>
        let cur := status_of w key in
        let '(conditionUpdated, desiredConditions) := NeedUpdateConditions now (st_Conditions cur) cond in
        let conditions := if conditionUpdated then desiredConditions else st_Conditions cur in
        let phaseUpdated := negb (String.eqb phase "") && negb (String.eqb phase (st_Phase cur)) in
        let phase' := if phaseUpdated then phase else st_Phase cur in
        if negb phaseUpdated && negb conditionUpdated then (None, w)
        else
          let '(r, w') := put_status w key (MkStatus conditions (st_Components cur) phase') in (written_err r, w')
    end) w.

(** The error of the update is only logged. *)
Definition UpdateConditionWithErr (err : option goerror) (key : obj_key) (conditionType conditionReason conditionMessage : string)
    (w : W) : W :=
  match err with
  | Some e => (UpdateCondition key (MkCondition conditionType CONDITION_STATUS_FALSE conditionReason e 0) GlobalHubError w).2
  | None => (UpdateCondition key (MkCondition conditionType CONDITION_STATUS_TRUE conditionReason conditionMessage 0) "" w).2
  end.

Definition no_component : StatusCondition := MkStatusCondition "" "" "" "" 0 "" "".
Definition set_sc_time (c : StatusCondition) (t : Z) : StatusCondition :=
  MkStatusCondition (sc_Name c) (sc_Kind c) (sc_Type c) (sc_Status c) t (sc_Reason c) (sc_Message c).

Definition UpdateMGHComponent (key : obj_key) (desiredComponent : StatusCondition) (forceUpdate : bool) (w : W) : option goerror * W :=
  let desired := set_sc_time desiredComponent now in
  retry_on_conflict (fun w =>
    match kget w KOperand key with
    | Missing => (Some "not found", w)
    | Broken e => (Some e, w)
    | Found _ =>
        let cur := status_of w key in
        let put (m : gmap string StatusCondition) :=
          let '(r, w') := put_status w key (MkStatus (st_Conditions cur) (Some (<[sc_Name desired := desired]> m)) (st_Phase cur)) in
          (written_err r, w') in
        match st_Components cur with
        | None => put ∅
        | Some m =>
            let originComponent := set_sc_time (default no_component (m !! sc_Name desired)) now in
            if negb forceUpdate && bool_decide (desired = originComponent) then (None, w) else put m
        end
    end) w.

(** A workload without replicas is a nil pointer. *)
Definition workload_status (kind lower_kind name : string) (r : fetched Workload) : outcome StatusCondition :=
  let status s reason message := MkStatusCondition name kind COMPONENTS_AVAILABLE s 0 reason message in
  match r with
  | Missing => Ret (status CONDITION_STATUS_FALSE COMPONENTS_NOT_READY ("waiting " +:+ lower_kind +:+ " " +:+ name +:+ " created"))
  | Broken e => Ret (status CONDITION_STATUS_FALSE COMPONENTS_NOT_READY ("failed to get " +:+ lower_kind +:+ ", err: " +:+ e))
  | Found o =>
      match wl_Replicas o with
      | None => Panic
      | Some replicas =>
          if (wl_AvailableReplicas o =? replicas)%Z
          then Ret (status CONDITION_STATUS_TRUE MINIMUM_REPLICAS_AVAILABLE ("Component " +:+ name +:+ " has been deployed"))
          else Ret (status CONDITION_STATUS_FALSE MINIMUM_REPLICAS_UNAVAILABLE
                      ("Component " +:+ name +:+ " has been deployed but is not ready"))
      end
  end.
Definition GetStatefulSetComponentStatus (namespace name : string) (w : W) : outcome StatusCondition :=
  workload_status "StatefulSet" "statefulset" name (kget w KStatefulSet (namespace, name)).
Definition GetDeploymentComponentStatus (namespace name : string) (w : W) : outcome StatusCondition :=
  workload_status "Deployment" "deployment" name (kget w KDeployment (namespace, name)).
Definition GetComponentStatusWithReconcileError (namespace name : string) (reconcileErr : option goerror) (w : W) : outcome StatusCondition :=
  match reconcileErr with
  | Some e => Ret (MkStatusCondition name "Deployment" COMPONENTS_AVAILABLE CONDITION_STATUS_FALSE 0 RECONCILE_ERROR e)
  | None => GetDeploymentComponentStatus namespace name w
  end.
End Updates.

(** ** A server of maps with statuses *)
Definition hub_store : Type := (kstore (K := hub_kind) * (obj_key -> Status))%type.

#[export] Instance hub_client : KubeClient hub_store hub_kind := {|
  kget w := kget w.1;
  klist w := klist w.1;
  kcreate w k o := let '(r, w1) := kcreate w.1 k o in (r, (w1, w.2));
  kupdate w k o := let '(r, w1) := kupdate w.1 k o in (r, (w1, w.2));
  kdelete w k n := let '(r, w1) := kdelete w.1 k n in (r, (w1, w.2));
|}.
Lemma hub_kcreate (w : hub_store) k o : kcreate w k o = ((kcreate w.1 k o).1, ((kcreate w.1 k o).2, w.2)).
Proof. change (kcreate w k o) with (let '(r, w1) := kcreate w.1 k o in (r, (w1, w.2))). by destruct (kcreate w.1 k o). Qed.
Lemma hub_kupdate (w : hub_store) k o : kupdate w k o = ((kupdate w.1 k o).1, ((kupdate w.1 k o).2, w.2)).
Proof. change (kupdate w k o) with (let '(r, w1) := kupdate w.1 k o in (r, (w1, w.2))). by destruct (kupdate w.1 k o). Qed.
Lemma hub_kdelete (w : hub_store) (k : hub_kind) n : kdelete w k n = ((kdelete w.1 k n).1, ((kdelete w.1 k n).2, w.2)).
Proof. change (kdelete w k n) with (let '(r, w1) := kdelete w.1 k n in (r, (w1, w.2))). by destruct (kdelete w.1 k n). Qed.

#[export] Program Instance hub_server : KubeServer hub_store hub_kind := {| kobjects w := kobjects w.1 |}.
Next Obligation. intros w k n o. apply (kobjects_named w.1). Qed.
Next Obligation. intros w k n o. apply (kget_Found w.1). Qed.
Next Obligation. intros w k n. apply (kget_Missing w.1). Qed.
Next Obligation. intros w k l. apply (klist_Ok w.1). Qed.
Next Obligation.
  intros w k o w' E. rewrite hub_kcreate in E.
  destruct (kcreate w.1 k o) as [r w1] eqn:C. injection E as -> <-. by apply kcreate_Done.
Qed.
Next Obligation.
  intros w k o w' E. rewrite hub_kupdate in E.
  destruct (kupdate w.1 k o) as [r w1] eqn:C. injection E as -> <-. by apply kupdate_Done.
Qed.
Next Obligation.
  intros w k n w' E. rewrite hub_kdelete in E.
  destruct (kdelete w.1 k n) as [r w1] eqn:C. injection E as -> <-. by apply kdelete_Done.
Qed.
Next Obligation.
  intros [w s] k n w' E. rewrite hub_kdelete in E. cbn [fst snd] in E.
  destruct (kdelete w k n) as [r w1] eqn:C. injection E as -> <-. apply kdelete_Gone in C as [? ->]. done.
Qed.
Next Obligation.
  intros w k o r w' E Hr. rewrite hub_kcreate in E.
  destruct (kcreate w.1 k o) as [r1 w1] eqn:C. injection E as -> <-. by eapply kcreate_refused.
Qed.
Next Obligation.
  intros w k o r w' E Hr. rewrite hub_kupdate in E.
  destruct (kupdate w.1 k o) as [r1 w1] eqn:C. injection E as -> <-. by eapply kupdate_refused.
Qed.
Next Obligation.
  intros w k n e w' E. rewrite hub_kdelete in E.
  destruct (kdelete w.1 k n) as [r1 w1] eqn:C. injection E as -> <-. by eapply kdelete_refused.
Qed.

#[export] Instance hub_status_client : StatusClient hub_store := {|
  status_of w n := w.2 n;
  put_status w n s :=
    match kobjects w KOperand !! n with
    | Some _ => (Done, (w.1, fun n' => if decide (n' = n) then s else w.2 n'))
    | None => (Gone, w)
    end;
|}.
Lemma hub_put_status (w : hub_store) n s : put_status w n s =
  match kobjects w KOperand !! n with
  | Some _ => (Done, (w.1, fun n' => if decide (n' = n) then s else w.2 n'))
  | None => (Gone, w)
  end.
Proof. done. Qed.

#[export] Program Instance hub_status_server : StatusServer hub_store.
Next Obligation.
  intros w n s w'. rewrite hub_put_status.
  destruct (kobjects w KOperand !! n); [|done]. intros [= <-]. split; [eauto|]. split; [done|]. cbn. split.
  - by rewrite decide_True.
  - intros n' Hn. by rewrite decide_False.
Qed.
Next Obligation.
  intros w n s r w'. rewrite hub_put_status.
  destruct (kobjects w KOperand !! n); by intros [= <- <-].
Qed.
Next Obligation.
  intros w k o r w' E. rewrite hub_kupdate in E.
  destruct (kupdate w.1 k o) as [r1 w1]. by injection E as _ <-.
Qed.
Next Obligation.
  intros w k n r w' _ E. rewrite hub_kdelete in E.
  destruct (kdelete w.1 k n) as [r1 w1]. by injection E as _ <-.
Qed.

(** A server that also takes every status of an operand that is there. *)
Definition status_responsive (W : Type) `{StatusServer W} : Prop :=
  forall w n s, is_Some (kobjects w KOperand !! n) -> exists w', put_status w n s = (Done, w').

Lemma hub_responsive : responsive hub_store hub_kind.
Proof.
  destruct (kstore_responsive (K := hub_kind)) as (Hg & Hl & Hc & Hu & Hd). unfold responsive. split_and!.
  - intros w. apply Hg.
  - intros w. apply Hl.
  - intros w k o E. destruct (Hc w.1 k o E) as [w' Ew]. exists (w', w.2).
    by rewrite hub_kcreate, Ew.
  - intros w k o E. destruct (Hu w.1 k o E) as [w' Ew]. exists (w', w.2).
    by rewrite hub_kupdate, Ew.
  - intros w k n e w' E. rewrite hub_kdelete in E.
    destruct (kdelete w.1 k n) as [r1 w1] eqn:C. injection E as -> _. by apply Hd in C.
Qed.
Lemma hub_status_responsive : status_responsive hub_store.
Proof.
  intros w n s [x E]. eexists. rewrite hub_put_status.
  by rewrite E.
Qed.

(** ** Properties of the status of the operand

    The conditions keep one entry for each type, and what an update of a
    condition or of a component leaves on the server. *)

(** ** Conditions *)
Definition condition_of (t : string) (l : list Condition) : option Condition :=
  snd <$> list_find (fun c => c_Type c = t) l.
Definition says (c : Condition) (cond : Condition) : Prop :=
  c_Type c = c_Type cond /\ c_Status c = c_Status cond /\ c_Reason c = c_Reason cond /\ c_Message c = c_Message cond.

Lemma condition_of_cons t c l : condition_of t (c :: l) = if decide (c_Type c = t) then Some c else condition_of t l.
Proof.
  unfold condition_of. cbn. case_decide; [done|]. by destruct (list_find _ l) as [[i x]|].
Qed.
Lemma condition_of_None t l : condition_of t l = None <-> t ∉ (c_Type <$> l).
Proof.
  induction l as [|c l IH]; [split; [intros _; apply not_elem_of_nil|done]|].
  rewrite condition_of_cons, fmap_cons, not_elem_of_cons. case_decide; [naive_solver|]. rewrite IH. naive_solver.
Qed.

Lemma replace_condition_None l cond : replace_condition l cond = None <-> condition_of (c_Type cond) l = None.
Proof.
  induction l as [|c l IH]; [done|]. rewrite condition_of_cons. cbn [replace_condition].
  destruct (String.eqb_spec (c_Type c) (c_Type cond)) as [E|E].
  - rewrite decide_True by done. by destruct (_ && _).
  - rewrite decide_False by done. rewrite <- IH. by destruct (replace_condition l cond) as [[b l']|].
Qed.

Lemma replace_condition_Some l cond b l' : replace_condition l cond = Some (b, l') ->
  c_Type <$> l' = c_Type <$> l /\
  (forall t, t <> c_Type cond -> condition_of t l' = condition_of t l) /\
  (exists c, condition_of (c_Type cond) l' = Some c /\ says c cond) /\
  if b then condition_of (c_Type cond) l' = Some cond else l' = l.
Proof.
  revert l'. induction l as [|c l IH]; intros l' E; [done|]. cbn [replace_condition] in E.
  destruct (String.eqb_spec (c_Type c) (c_Type cond)) as [Et|Et].
  - destruct (_ && _) eqn:Es; injection E as <- <-.
    + apply andb_true_iff in Es as [[E1 E2]%andb_true_iff E3]. apply String.eqb_eq in E1, E2, E3.
      split; [done|]. split; [done|]. split; [|done]. exists c. rewrite condition_of_cons, decide_True by done. done.
    + split; [by rewrite !fmap_cons, Et|]. split.
      * intros t Ht. rewrite !condition_of_cons, !decide_False by congruence. done.
      * split; [exists cond|]; rewrite condition_of_cons, decide_True by done; done.
  - destruct (replace_condition l cond) as [[b' l1]|] eqn:R; [|done]. injection E as -> <-.
    destruct (IH _ eq_refl) as (Htypes & Ho & (c1 & Hc & Hs) & Hb). split; [by rewrite !fmap_cons, Htypes|]. split.
    + intros t Ht. rewrite !condition_of_cons. case_decide; [done|by apply Ho].
    + split.
      * exists c1. rewrite condition_of_cons, decide_False by done. done.
      * destruct b; [by rewrite condition_of_cons, decide_False|by rewrite Hb].
Qed.

Lemma condition_of_app t l c : condition_of t (l ++ [c]) =
  match condition_of t l with Some x => Some x | None => if decide (c_Type c = t) then Some c else None end.
Proof.
  induction l as [|x l IH]; cbn [app]; [apply condition_of_cons|]. rewrite !condition_of_cons.
  destruct (decide (c_Type x = t)); [done|apply IH].
Qed.

Lemma replace_condition_says l cond c : condition_of (c_Type cond) l = Some c -> says c cond ->
  replace_condition l cond = Some (false, l).
Proof.
  induction l as [|x l IH]; [done|]. rewrite condition_of_cons. cbn [replace_condition].
  destruct (String.eqb_spec (c_Type x) (c_Type cond)) as [E|E].
  - rewrite decide_True by done. intros [= ->] (_ & -> & -> & ->). by rewrite !String.eqb_refl.
  - rewrite decide_False by done. intros Hc Hs. by rewrite (IH Hc Hs).
Qed.

Lemma NeedUpdateConditions_settled now l cond c : condition_of (c_Type cond) l = Some c -> says c cond ->
  NeedUpdateConditions now l cond = (false, l).
Proof. intros Hc Hs. unfold NeedUpdateConditions. by rewrite (replace_condition_says l (set_time cond now) c). Qed.

Lemma NeedUpdateConditions_spec now l cond changed l' : NeedUpdateConditions now l cond = (changed, l') ->
  (exists c, condition_of (c_Type cond) l' = Some c /\ says c cond) /\
  (forall t, t <> c_Type cond -> condition_of t l' = condition_of t l) /\
  (NoDup (c_Type <$> l) -> NoDup (c_Type <$> l')) /\
  (forall c, c ∈ l' -> c_Type c = c_Type cond \/ c ∈ l) /\
  if changed then condition_of (c_Type cond) l' = Some (set_time cond now) else l' = l.
Proof.
  unfold NeedUpdateConditions. destruct (replace_condition l (set_time cond now)) as [[b l1]|] eqn:R.
  - intros [= <- <-]. assert (forall c, c ∈ l1 -> c_Type c = c_Type cond \/ c ∈ l) as Hin.
    { clear -R. revert l1 R. induction l as [|x l IH]; intros l1 R c Hc; [done|]. cbn [replace_condition] in R.
      destruct (String.eqb _ _) eqn:E.
      - apply String.eqb_eq in E. destruct (_ && _); injection R as _ <-; [by right|].
        apply elem_of_cons in Hc as [->|Hc]; [by left|right; by right].
      - destruct (replace_condition l _) as [[b1 l2]|]; [|done]. injection R as -> <-.
        apply elem_of_cons in Hc as [->|Hc]; [right; by left|]. destruct (IH _ eq_refl c Hc); [by left|right; by right]. }
    apply replace_condition_Some in R as (Htypes & Ho & Hc & Hb). rewrite Htypes. by split_and!.
  - intros [= <- <-]. apply replace_condition_None in R. change (c_Type (set_time cond now)) with (c_Type cond) in R.
    rewrite condition_of_app, R, decide_True by done. split; [by eexists|]. split; [|split; [|split; [|done]]].
    + intros t Ht. rewrite condition_of_app, decide_False by (intros E; by apply Ht). by destruct (condition_of t l).
    + intros Hnd. rewrite fmap_app. apply NoDup_app. split; [done|]. split; [|apply NoDup_singleton].
      intros t Ht Ht'. apply list_elem_of_singleton in Ht' as ->. by apply condition_of_None in R.
    + intros c [Hc|Hc%list_elem_of_singleton]%elem_of_app; [by right|left; by subst].
Qed.

(** The conditions of the operand keep one entry for each type: whatever a
    controller asks for, a list without repeated types has none after the update,
    the condition that was asked for is there with its status, reason and message,
    those of the other types are as before, and asking again changes nothing. *)
Theorem conditions_stay_one_of_each_type now now' l cond (Hunique : NoDup (c_Type <$> l)) :
  let '(changed, l') := NeedUpdateConditions now l cond in
  NoDup (c_Type <$> l') /\
  (exists c, condition_of (c_Type cond) l' = Some c /\ says c cond) /\
  (forall t, t <> c_Type cond -> condition_of t l' = condition_of t l) /\
  (changed = false <-> exists c, condition_of (c_Type cond) l = Some c /\ says c cond) /\
  NeedUpdateConditions now' l' cond = (false, l').
Proof.
  destruct (NeedUpdateConditions now l cond) as [changed l'] eqn:E.
  pose proof (NeedUpdateConditions_spec _ _ _ _ _ E) as (Hc & Ho & Hnd & _ & Hb).
  split; [by apply Hnd|]. split; [done|]. split; [done|]. split.
  - split.
    + intros ->. by rewrite <- Hb.
    + intros (c & Hl & Hs). rewrite (NeedUpdateConditions_settled _ _ _ _ Hl Hs) in E. by injection E.
  - destruct Hc as (c & Hl & Hs). by eapply NeedUpdateConditions_settled.
Qed.

(** ** Updates on the server *)
Section Updates.
Context {W : Type} `{!KubeClient W hub_kind} `{!StatusClient W} `{!KubeServer W hub_kind} `{!StatusServer W} `{RetrierLaws}.
Context (now : Z).

(** A retried call whose failed attempts do not change what is seen of the state
    ends as its last attempt from a state that looks the same. *)
Lemma retried_last_attempt {S : Type} (f : S -> option goerror * S) (same : S -> S -> Prop) s r s' :
  (forall a, same a a) -> (forall a b c, same a b -> same b c -> same a c) ->
  (forall a e a', f a = (Some e, a') -> same a a') ->
  retry_on_conflict f s = (r, s') -> exists a, same s a /\ f a = (r, s').
Proof.
  intros Hrefl Htrans Hfail E. pose proof (retry_spec f s) as R. rewrite E in R. cbn in R. clear E.
  induction R as [s r s' E|s e s1 r s2 E Hc R IH]; [by exists s|]. destruct IH as (a & Ha & Ef). exists a. split; [|done].
  eapply Htrans; [by eapply Hfail|done].
Qed.

Definition same_objects (a b : W) : Prop := kobjects b = kobjects a /\ status_of b = status_of a.
Lemma same_objects_refl a : same_objects a a.
Proof. done. Qed.
Lemma same_objects_trans a b c : same_objects a b -> same_objects b c -> same_objects a c.
Proof. intros [E1 E2] [E3 E4]. split; congruence. Qed.

Lemma written_err_None r : written_err r = None <-> r = Done.
Proof. by destruct r. Qed.

(** Whatever its result, an update of a condition writes no object and no other status. *)
Lemma UpdateCondition_spec key cond phase w r w' : UpdateCondition now key cond phase w = (r, w') ->
  kobjects w' = kobjects w /\ (forall n, n <> key -> status_of w' n = status_of w n) /\
  match r with
  | None => st_Conditions (status_of w' key) = (NeedUpdateConditions now (st_Conditions (status_of w key)) cond).2 /\
      st_Components (status_of w' key) = st_Components (status_of w key) /\
      st_Phase (status_of w' key) = (if String.eqb phase "" then st_Phase (status_of w key) else phase)
  | Some _ => status_of w' = status_of w
  end.
Proof.
  unfold UpdateCondition. set (f := fun w : W => _). intros E.
  assert (forall a e a', f a = (Some e, a') -> same_objects a a') as Hfail.
  { intros a e a' Ef. subst f. cbn beta in Ef. destruct (kget a KOperand key) as [o| |e']; [|by injection Ef as _ <-..].
    destruct (NeedUpdateConditions _ _ _) as [b l]. destruct (negb _ && negb _); [done|].
    destruct (put_status a key _) as [r1 a1] eqn:P. injection Ef as Er <-. apply put_status_refused in P as [??]; [done|].
    by intros ->. }
  apply (retried_last_attempt f same_objects) in E as (a & [Ek Es] & Ef);
    [|apply same_objects_refl|apply same_objects_trans|exact Hfail].
  destruct r as [e|].
  { apply Hfail in Ef as [Ek' Es']. rewrite Ek', Es', Es. by split_and!. }
  subst f. cbn beta in Ef. destruct (kget a KOperand key) as [o| |e']; [|done..].
  destruct (NeedUpdateConditions now (st_Conditions (status_of a key)) cond) as [b l] eqn:N.
  pose proof (NeedUpdateConditions_spec _ _ _ _ _ N) as (_ & _ & _ & _ & Hb). rewrite <- Es, N. cbn [snd].
  set (phase' := if negb _ && negb _ then phase else _) in Ef.
  assert (phase' = if String.eqb phase "" then st_Phase (status_of a key) else phase) as Hphase.
  { subst phase'. destruct (String.eqb phase ""); [done|]. cbn. by destruct (String.eqb_spec phase (st_Phase (status_of a key))). }
  destruct (negb _ && negb b) eqn:Hskip.
  - injection Ef as <-. apply andb_true_iff in Hskip as [Hp Hb'%negb_true_iff]. subst b.
    rewrite <- Hb, Ek. split; [done|]. split; [done|]. split; [by rewrite Hb|]. split; [done|]. rewrite <- Hphase.
    subst phase'. apply negb_true_iff in Hp. by rewrite Hp.
  - destruct (put_status a key _) as [r1 a1] eqn:P. injection Ef as Er <-. apply written_err_None in Er as ->.
    apply put_status_Done in P as (_ & Ek1 & Hst & Ho). rewrite Ek1, Hst. cbn. split; [done|]. split; [done|].
    split; [by destruct b; rewrite ?Hb|]. by split.
Qed.
Lemma retry_first {S : Type} (f : S -> option goerror * S) s s' : f s = (None, s') -> retry_on_conflict f s = (None, s').
Proof.
  intros E. pose proof (retry_spec f s) as R. destruct (retry_on_conflict f s) as [r s1]. cbn in R.
  inversion R as [? ? ? E'|? ? ? ? ? E']; congruence.
Qed.

(** An update that is retried changes one kind, and no status. *)
Lemma retried_update_frame k (o : kobj k) w r w' :
  retry_on_conflict (fun w => let '(r, w') := kupdate w k o in (written_err r, w')) w = (r, w') ->
  (forall k', k' <> k -> kobjects w' k' = kobjects w k') /\ status_of w' = status_of w /\
  match r with
  | None => is_Some (kobjects w k !! kname k o) /\
      kobjects w' k = partial_alter (fun _ => settled k o) (kname k o) (kobjects w k)
  | Some _ => kobjects w' k = kobjects w k
  end.
Proof.
  set (f := fun w : W => _). intros E.
  assert (forall a e a', f a = (Some e, a') -> same_objects a a') as Hfail.
  { intros a e a'. subst f. cbn. destruct (kupdate a k o) as [r1 a1] eqn:U. intros [= Er <-].
    split; [|by eapply kupdate_status]. eapply kupdate_refused; [exact U|]. by intros ->. }
  apply (retried_last_attempt f same_objects) in E as (a & [Ek Es] & Ef);
    [|apply same_objects_refl|apply same_objects_trans|exact Hfail].
  destruct r as [e|].
  - apply Hfail in Ef as [Ek' Es']. rewrite Ek', Es', Ek, Es. done.
  - subst f. cbn in Ef. destruct (kupdate a k o) as [r1 a1] eqn:U. injection Ef as Er <-. apply written_err_None in Er as ->.
    pose proof (kupdate_status _ _ _ _ _ U) as Hs. apply kupdate_Done in U as (Hp & Eu & Ho).
    rewrite Ek in Hp, Eu. rewrite Hs, Es. split; [|done]. intros k' Hk. by rewrite Ho, Ek.
Qed.

Lemma UpdateCondition_answers key cond phase (w : W) : responsive W hub_kind -> status_responsive W ->
  is_Some (kobjects w KOperand !! key) -> exists w', UpdateCondition now key cond phase w = (None, w').
Proof.
  intros Hserver Hst Hp. unfold UpdateCondition. match goal with |- context [retry_on_conflict ?g w] => set (f := g) end.
  assert (exists w', f w = (None, w')) as [w' E]; [|exists w'; by apply retry_first].
  subst f. cbn beta. destruct Hp as [o Ho]. rewrite (kget_present w KOperand key o Hserver Ho).
  destruct (NeedUpdateConditions _ _ _) as [b l]. destruct (negb _ && negb b); [by exists w|].
  match goal with |- context [put_status w key ?s] => destruct (Hst w key s) as [w' ->]; [by exists o|by exists w'] end.
Qed.

End Updates.
