(* ===== verification/MetaController.v ===== *)
(** * The controller of the operand

    Start of the other controllers, the phase and the readiness of the operand,
    and its deletion ([operator/pkg/controllers/meta.go], [pkg/jobs]). The start
    functions of the other controllers, the configuration of the images and the
    stand-alone agent are arguments; the variables of the configuration package
    are read from the state. *)

From stdpp Require Import prelude gmap strings list.
From Stdlib Require Import ZArith Lia.
From S2P Require Import Prelude.
From S2P Require Import GoLib.
From S2P Require Import Libraries.
From S2P Require Import KubeClient.
From S2P Require Import KafkaAccess.
From S2P Require Import AgentAddon.
From S2P Require Import SpecDB.
From S2P Require Import Operand.

Local Open Scope string_scope.
Local Open Scope list_scope.

Definition GlobalHubCleanupFinalizer : string := "global-hub.open-cluster-management.io/resource-cleanup".
Definition GlobalHubFinalizerRemovingDeadline : string := "global-hub.open-cluster-management.io/finalizer-removing-deadline".
Definition CONDITION_TYPE_GLOBALHUB_READY : string := "Ready".
Definition COMPONENTS_KAFKA_NAME : string := "kafka".
Definition COMPONENTS_POSTGRES_NAME : string := "multicluster-global-hub-postgresql".
Definition COMPONENTS_MANAGER_NAME : string := "multicluster-global-hub-manager".
Definition COMPONENTS_GRAFANA_NAME : string := "multicluster-global-hub-grafana".
Definition COMPONENTS_INVENTORY_API_NAME : string := "inventory-api".
Definition old_postgres_name : string := "multicluster-global-hub-postgres".

Definition mg_Annotations (m : Operand) : gmap string string := pl_Annotations (mg_Meta m).
Definition mg_Key (m : Operand) : obj_key := pl_Key (mg_Meta m).
Definition getAnnotation (a : gmap string string) (key : string) : string := default "" (a !! key).
Definition operand_paused (m : Operand) : bool :=
  let isPausedVal := getAnnotation (mg_Annotations m) "mgh-pause" in
  negb (String.eqb isPausedVal "") && EqualFold isPausedVal "true".
Definition WithInventory (a : gmap string string) : bool :=
  bool_decide (is_Some (a !! "global-hub.open-cluster-management.io/with-inventory")).

(** ** Phase and readiness *)
Definition CheckDesiredComponent (acmReady : bool) (annotations : gmap string string) : gset string :=
  let base : gset string := {[COMPONENTS_MANAGER_NAME; COMPONENTS_POSTGRES_NAME; COMPONENTS_KAFKA_NAME]} in
  let base := if acmReady then {[COMPONENTS_GRAFANA_NAME]} ∪ base else base in
  if WithInventory annotations then {[COMPONENTS_INVENTORY_API_NAME]} ∪ base else base.

(** One iteration over the components: the phase, and whether the new database was seen. *)
Definition check_component (s : string * bool) (dcs : StatusCondition) : string * bool :=
  let '(phase, newPgInstance) := s in
  if String.eqb (sc_Name dcs) old_postgres_name then s
  else
    let newPgInstance := newPgInstance || String.eqb (sc_Name dcs) COMPONENTS_POSTGRES_NAME in
    if String.eqb (sc_Type dcs) COMPONENTS_AVAILABLE then
      let phase := if String.eqb (sc_Status dcs) RECONCILE_ERROR then GlobalHubError else phase in
      let phase := if negb (String.eqb (sc_Status dcs) CONDITION_STATUS_TRUE) then GlobalHubProgressing else phase in
      (phase, newPgInstance)
    else (phase, newPgInstance).

(** The phase for the components in the order of the map. *)
Definition components_phase (desired : nat) (components : list StatusCondition) : string :=
  if (length components <? desired)%nat then GlobalHubProgressing
  else
    let '(phase, newPgInstance) := foldl check_component (GlobalHubRunning, false) components in
    if negb newPgInstance && negb (String.eqb phase GlobalHubError) then GlobalHubProgressing else phase.

Definition needUpdatePhase (acmReady : bool) (annotations : gmap string string) (st : Status) : bool * string :=
  let phase := components_phase (size (CheckDesiredComponent acmReady annotations))
                 (map_to_list (default ∅ (st_Components st))).*2 in
  (negb (String.eqb phase (st_Phase st)), phase).

Definition updateReadyConditions (now : Z) (conds : list Condition) (phase : string) : bool * list Condition :=
  if String.eqb phase GlobalHubRunning then
    NeedUpdateConditions now conds (MkCondition CONDITION_TYPE_GLOBALHUB_READY CONDITION_STATUS_TRUE
      "MulticlusterGlobalHubReady" "The multicluster global hub is ready, and all the components are available" 0)
  else
    NeedUpdateConditions now conds (MkCondition CONDITION_TYPE_GLOBALHUB_READY CONDITION_STATUS_FALSE
      "MulticlusterGlobalHubNotReady"
      "The multicluster global hub is not ready, waiting for all the components to be available" 0).

(** The variables of the configuration package. *)
Record Variables := MkVariables {
  acmResourceReady : bool;
  addonManager : bool;            (** whether it is set *)
  byoKafka : bool;
  byoPostgres : bool;
}.

Inductive requeue := NoRequeue | Requeue | RequeueAfter (seconds : nat).

Section Meta.
Context {W : Type} `{!KubeClient W hub_kind} `{!StatusClient W} `{Retrier}.
Context (now : Z) (variables : W -> Variables).

(** [conds] are the conditions of the operand that the controller holds; a
    condition that is there is replaced in place. *)
Definition updateMGHReadyStatus (key : obj_key) (conds : list Condition) (reconcileErr : option goerror) (w : W) : option goerror * W :=
  match reconcileErr with
  | Some e =>
      UpdateCondition now key (MkCondition CONDITION_TYPE_GLOBALHUB_READY CONDITION_STATUS_FALSE
        "MulticlusterGlobalHubNotReady" e 0) GlobalHubError w
  | None =>
      let '(r, (_, w')) := retry_on_conflict (fun s : list Condition * W =>
        let '(conds, w) := s in
        match kget w KOperand key with
        | Missing => (Some "not found", (conds, w))
        | Broken e => (Some e, (conds, w))
        | Found curmgh =>
            let cur := status_of w key in
            let '(updatedPhase, desiredPhase) := needUpdatePhase (acmResourceReady (variables w)) (mg_Annotations curmgh) cur in
            let '(updatedReadyCond, desiredConds) := updateReadyConditions now conds desiredPhase in
            let conds' := if ContainsCondition conds CONDITION_TYPE_GLOBALHUB_READY then desiredConds else conds in
            if negb updatedPhase && negb updatedReadyCond then (None, (conds', w))
            else
              let '(r, w') := put_status w key (MkStatus desiredConds (st_Components cur) desiredPhase) in
              (written_err r, (conds', w'))
        end) (conds, w) in
      (r, w')
  end.

(** ** Deletion *)
Definition owned (l : list PlainObject) : list PlainObject :=
  filter (fun o => pl_Labels o !! GlobalHubOwnerLabelKey = Some GHOperatorOwnerLabelVal) l.

Fixpoint delete_each (k : hub_kind) (keys : list obj_key) (w : W) : option goerror * W :=
  match keys with
  | [] => (None, w)
  | key :: rest =>
      match kdelete w k key with
      | (Refused e, w') => (Some e, w')
      | (_, w') => delete_each k rest w'
      end
  end.

Definition pruneGlobalResources (w : W) : option goerror * W :=
  match klist w KRole with
  | Err e => (Some e, w)
  | Ok roles =>
      match delete_each KRole (pl_Key <$> owned roles) w with
      | (Some e, w1) => (Some e, w1)
      | (None, w1) =>
          match klist w1 KRoleBinding with
          | Err e => (Some e, w1)
          | Ok bindings => delete_each KRoleBinding (pl_Key <$> owned bindings) w1
          end
      end
  end.

Definition without_finalizer (o : PlainObject) : PlainObject :=
  set_finalizers o (filter (fun f => f <> GlobalHubCleanupFinalizer) (pl_Finalizers o)).

(** The deadline is a minute from now. *)
Definition pruned (o : PlainObject) : PlainObject :=
  set_labels (without_finalizer o)
    (<[GlobalHubFinalizerRemovingDeadline := FormatInt (now / 1000000000 + 60)]> (pl_Labels o)).

Definition pruneFinalizer (k : spec_kind) (object : PlainObject) (w : W) : option goerror * W :=
  if bool_decide (GlobalHubCleanupFinalizer ∈ pl_Finalizers object) then
    retry_on_conflict (fun w => let '(r, w') := kupdate w (KGlobal k) (pruned object) in (written_err r, w')) w
  else (None, w).

Fixpoint prune_each (k : spec_kind) (objects : list PlainObject) (w : W) : option goerror * W :=
  match objects with
  | [] => (None, w)
  | object :: rest =>
      match pruneFinalizer k object w with
      | (Some e, w') => (Some e, w')
      | (None, w') => prune_each k rest w'
      end
  end.

(** A list that fails is logged, and counts as empty. *)
Definition prune_kind (k : spec_kind) (w : W) : option goerror * W :=
  prune_each k (match klist w (KGlobal k) with Ok items => items | Err _ => [] end) w.

Fixpoint prune_kinds (ks : list spec_kind) (w : W) : option goerror * W :=
  match ks with
  | [] => (None, w)
  | k :: rest =>
      match prune_kind k w with
      | (Some e, w') => (Some e, w')
      | (None, w') => prune_kinds rest w'
      end
  end.

Definition prunePlacementResources : W -> option goerror * W :=
  prune_kinds [KPlacement; KManagedClusterSet; KManagedClusterSetBinding; KPlacementRule; KPlacementBinding].
Definition pruneApplication : W -> option goerror * W := prune_kinds [KApplication; KSubscription; KChannel].
Definition prunePolicy : W -> option goerror * W := prune_kinds [KPolicy].

Definition PruneFinalizer_Run (w : W) : option goerror * W :=
  match prunePlacementResources w with
  | (Some e, w1) => (Some e, w1)
  | (None, w1) =>
      match pruneApplication w1 with
      | (Some e, w2) => (Some e, w2)
      | (None, w2) => prunePolicy w2
      end
  end.

Definition pruneGlobalHubResources (w : W) : option goerror * W :=
  match pruneGlobalResources w with
  | (Some e, w1) => (Some e, w1)
  | (None, w1) => if acmResourceReady (variables w1) then PruneFinalizer_Run w1 else (None, w1)
  end.

Definition UpdateObject (m : Operand) (w : W) : option goerror * W :=
  retry_on_conflict (fun w => let '(r, w') := kupdate w KOperand m in (written_err r, w')) w.

Definition set_operand_finalizers (m : Operand) (f : list string) : Operand :=
  MkOperand (set_finalizers (mg_Meta m) f) (mg_EnableMetrics m).
Definition Remove (l : list string) (s : string) : list string := filter (fun v => v <> s) l.

(** The controllers that were started, and whether one of them has removed its resources. *)
Context (IsResourceRemoved : W -> string -> bool).

Definition delete_operand (started : gset string) (mgh : Operand) (w : W) : (requeue * option goerror) * W :=
  match UpdateCondition now (mg_Key mgh) (MkCondition CONDITION_TYPE_GLOBALHUB_READY CONDITION_STATUS_FALSE
          "MulticlusterGlobalUninstalling" "The multicluster global hub is uninstalling" 0) GlobalHubUninstalling w with
  | (Some e, w1) => ((NoRequeue, Some e), w1)
  | (None, w1) =>
      match pruneGlobalHubResources w1 with
      | (Some e, w2) => ((NoRequeue, Some e), w2)
      | (None, w2) =>
          if existsb (fun name => negb (IsResourceRemoved w2 name)) (elements started) then ((RequeueAfter 5, None), w2)
          else
            let '(err, w3) := UpdateObject
              (set_operand_finalizers mgh (Remove (pl_Finalizers (mg_Meta mgh)) GlobalHubCleanupFinalizer)) w2 in
            ((NoRequeue, err), w3)
      end
  end.

(** ** Reconciliation

    The operand as the controller holds it, with its conditions; an update of it
    reads them again. *)
Definition memory : Type := (Operand * list Condition)%type.
Definition Func : Type := memory -> W -> result bool * memory * W.

(** The start of every controller in the order of the map: a controller, nothing
    yet, or an error; the error of the last one stays. *)
Fixpoint start_controllers (order : list (string * Func)) (reconcileErr : option goerror) (started : gset string) (m : memory) (w : W)
    : option goerror * gset string * memory * W :=
  match order with
  | [] => (reconcileErr, started, m, w)
  | (controllerName, startController) :: rest =>
      let '(r, m', w') := startController m w in
      match r with
      | Ok true => start_controllers rest None ({[controllerName]} ∪ started) m' w'
      | Ok false => start_controllers rest None started m' w'
      | Err e => start_controllers rest (Some e) started m' w'
      end
  end.

Definition FilterManagedCluster (o : PlainObject) : bool :=
  negb (String.eqb (default "" (pl_Labels o !! "vendor")) "OpenShift") ||
  String.eqb (default "" (pl_Labels o !! "openshiftVersion")) "3" ||
  String.eqb (pl_Key o).2 LocalClusterName.
(** The clusters whose add-on is triggered. *)
Definition TriggerManagedHubAddons (w : W) : result (list string) :=
  match klist w KCluster with
  | Err e => Err e
  | Ok clusters => Ok ((fun o => (pl_Key o).2) <$> filter (fun o => FilterManagedCluster o = false) (clusters : list PlainObject))
  end.

Context (controllerStartFuncMap : list (string * Func)).
Context (SetMulticlusterGlobalHubConfig : Operand -> W -> option goerror * W).
Context (StartStandaloneAgentController : W -> option goerror * W).

Definition AddFinalizer (m : Operand) : bool * Operand :=
  if bool_decide (GlobalHubCleanupFinalizer ∈ pl_Finalizers (mg_Meta m)) then (false, m)
  else (true, set_operand_finalizers m (pl_Finalizers (mg_Meta m) ++ [GlobalHubCleanupFinalizer])).

(** What an update of the operand that succeeds leaves in memory. *)
Definition reread (m : Operand) (w : W) : memory := (m, st_Conditions (status_of w (mg_Key m))).

(** The last step: metrics are off when both services are given. *)
Definition disable_metrics (m : memory) (w : W) : (requeue * option goerror) * memory * W :=
  let v := variables w in
  if byoKafka v && byoPostgres v && mg_EnableMetrics m.1 then
    let mgh' := MkOperand (mg_Meta m.1) false in
    match kupdate w KOperand mgh' with
    | (Done, w') => ((NoRequeue, None), reread mgh' w', w')
    | (r, w') => ((if is_conflict (default "" (written_err r)) then Requeue else NoRequeue, None), (mgh', m.2), w')
    end
  else ((NoRequeue, None), m, w).

(** The result, the error that the deferred call sees, and the state before it. *)
Definition live_operand (started : gset string) (m : memory) (w : W)
    : (requeue * option goerror) * option goerror * gset string * memory * W :=
  match SetMulticlusterGlobalHubConfig m.1 w with
  | (Some e, w1) => ((NoRequeue, Some e), Some e, started, m, w1)
  | (None, w1) =>
      let '(added, mgh1) := AddFinalizer m.1 in
      let '(conflict, m1, w2) :=
        if added then
          match kupdate w1 KOperand mgh1 with
          | (Done, w2) => (false, reread mgh1 w2, w2)
          | (r, w2) => (is_conflict (default "" (written_err r)), (mgh1, m.2), w2)
          end
        else (false, m, w1) in
      if conflict then ((Requeue, None), None, started, m1, w2)
      else
        let '(reconcileErr, started', m2, w3) := start_controllers controllerStartFuncMap None started m1 w2 in
        match reconcileErr with
        | Some e => ((NoRequeue, None), Some e, started', m2, w3)
        | None =>
            let v := variables w3 in
            match (if acmResourceReady v && addonManager v then TriggerManagedHubAddons w3 else Ok []) with
            | Err e => ((NoRequeue, Some e), Some e, started', m2, w3)
            | Ok _ => let '(r, m3, w4) := disable_metrics m2 w3 in (r, None, started', m3, w4)
            end
        end
  end.

Definition meta_Reconcile (started : gset string) (w : W) : (requeue * option goerror) * (gset string * W) :=
  match klist w KOperand with
  | Err e => ((NoRequeue, Some e), (started, w))
  | Ok operands =>
      match klist w KOperandAgent with
      | Err e => ((NoRequeue, Some e), (started, w))
      | Ok [_] => let '(err, w') := StartStandaloneAgentController w in ((NoRequeue, err), (started, w'))
      | Ok _ =>
          match (operands : list Operand) with
          | [mgh] =>
              if operand_paused mgh then ((NoRequeue, None), (started, w))
              else if pl_Deleting (mg_Meta mgh) then
                let '(r, w') := delete_operand started mgh w in (r, (started, w'))
              else
                let '(r, reconcileErr, started', m, w1) := live_operand started (mgh, st_Conditions (status_of w (mg_Key mgh))) w in
                let '(_, w2) := updateMGHReadyStatus (mg_Key mgh) m.2 reconcileErr w1 in
                (r, (started', w2))
          | _ => ((NoRequeue, None), (started, w))
          end
      end
  end.
End Meta.

(** ** Properties of the controller of the operand

    When the operand counts as running, what its readiness overwrites, which
    failures are seen, and what its deletion waits for. The last part runs an
    operator with its operand. *)

(** ** Phase *)

(** A component that is not available holds the phase back, but for the old database. *)
Definition holds_back (c : StatusCondition) : Prop :=
  sc_Name c <> old_postgres_name /\ sc_Type c = COMPONENTS_AVAILABLE /\ sc_Status c <> CONDITION_STATUS_TRUE.
Definition new_database (c : StatusCondition) : Prop := sc_Name c = COMPONENTS_POSTGRES_NAME.

Lemma check_component_spec phase seen c : phase = GlobalHubRunning \/ phase = GlobalHubProgressing ->
  let '(phase', seen') := check_component (phase, seen) c in
  (phase' = GlobalHubRunning \/ phase' = GlobalHubProgressing) /\
  (phase' = GlobalHubRunning <-> phase = GlobalHubRunning /\ ~ holds_back c) /\
  (seen' = true <-> seen = true \/ new_database c).
Proof.
  intros Hp. unfold check_component, holds_back, new_database.
  destruct (String.eqb_spec (sc_Name c) old_postgres_name) as [E|E].
  { split; [done|]. split; [naive_solver|]. split; [by left|]. intros [?|E']; [done|]. rewrite E in E'. discriminate E'. }
  assert (forall b, b || String.eqb (sc_Name c) COMPONENTS_POSTGRES_NAME = true <-> b = true \/ sc_Name c = COMPONENTS_POSTGRES_NAME) as Hs.
  { intros b. by rewrite orb_true_iff, String.eqb_eq. }
  destruct (String.eqb_spec (sc_Type c) COMPONENTS_AVAILABLE) as [Et|Et]; [|split; [done|]; split; [naive_solver|apply Hs]].
  destruct (String.eqb_spec (sc_Status c) CONDITION_STATUS_TRUE) as [Es|Es]; cbn [negb].
  - rewrite Es. change (String.eqb CONDITION_STATUS_TRUE RECONCILE_ERROR) with false. cbv iota.
    split; [done|]. split; [naive_solver|apply Hs].
  - split; [by right|]. split; [|apply Hs]. split; [done|]. intros [_ Hn]. by destruct Hn.
Qed.

Lemma fold_components l phase seen : phase = GlobalHubRunning \/ phase = GlobalHubProgressing ->
  let '(phase', seen') := foldl check_component (phase, seen) l in
  (phase' = GlobalHubRunning \/ phase' = GlobalHubProgressing) /\
  (phase' = GlobalHubRunning <-> phase = GlobalHubRunning /\ Forall (fun c => ~ holds_back c) l) /\
  (seen' = true <-> seen = true \/ Exists new_database l).
Proof.
  revert phase seen. induction l as [|c l IH]; intros phase seen Hp; cbn [foldl].
  - split; [done|]. rewrite Exists_nil. naive_solver.
  - pose proof (check_component_spec phase seen c Hp) as Hc. destruct (check_component (phase, seen) c) as [p1 s1].
    destruct Hc as (Hp1 & Hr & Hs). specialize (IH p1 s1 Hp1). destruct (foldl check_component (p1, s1) l) as [p2 s2].
    destruct IH as (H2 & Hr2 & Hs2). split; [done|]. rewrite Hr2, Hs2, Hr, Hs, Forall_cons, Exists_cons. naive_solver.
Qed.

(** The operand is running exactly when there are at least as many components
    as desired ones, the new database is one of them, and every component but the
    old database is available; otherwise it is progressing, and never in the phase
    of an error. Neither the order of the components nor, beyond the database,
    their names count. *)
Theorem phase_counts_components desired l :
  (components_phase desired l = GlobalHubRunning <->
     desired <= length l /\ Exists new_database l /\ Forall (fun c => ~ holds_back c) l) /\
  (components_phase desired l = GlobalHubRunning \/ components_phase desired l = GlobalHubProgressing).
Proof.
  unfold components_phase. destruct (Nat.ltb_spec (length l) desired) as [Hl|Hl].
  { split; [|by right]. split; [done|]. intros [? _]. lia. }
  pose proof (fold_components l GlobalHubRunning false (or_introl eq_refl)) as Hf.
  destruct (foldl _ _ l) as [phase seen]. destruct Hf as (Hp & Hr & Hs).
  assert (String.eqb phase GlobalHubError = false) as -> by (by destruct Hp as [-> | ->]).
  destruct seen; cbn [negb andb].
  - split; [|done]. rewrite Hr. assert (false = true \/ Exists new_database l) as [?|Hx] by (by apply Hs); [done|]. naive_solver.
  - split; [|by right]. split; [done|]. intros (_ & Hx & _). assert (false = true) by (apply Hs; by right). done.
Qed.

Definition pruned_kinds : list spec_kind :=
  [KPlacement; KManagedClusterSet; KManagedClusterSetBinding; KPlacementRule; KPlacementBinding;
   KApplication; KSubscription; KChannel; KPolicy].

Lemma pruned_kinds_NoDup : NoDup pruned_kinds.
Proof. apply (bool_decide_unpack _). by vm_compute. Qed.
Lemma pruned_kinds_all k : k ∈ pruned_kinds.
Proof. destruct k; apply (bool_decide_unpack _); by vm_compute. Qed.

Section Meta.
Context {W : Type} `{!KubeClient W hub_kind} `{!StatusClient W} `{!KubeServer W hub_kind} `{!StatusServer W} `{RetrierLaws}.
Context (now : Z) (variables : W -> Variables).

(** ** Readiness *)

(** The readiness of an operand overwrites the conditions that other controllers
    have set since the operand was read: when the phase changes, the conditions
    written are those that the controller holds with its own one, so any other
    condition that is on the server by then is gone. *)
Theorem conditions_set_meanwhile_are_lost key conds w w' c
    (Hphase : forall (cur : kobj KOperand) acmReady, kobjects w KOperand !! key = Some cur ->
       (needUpdatePhase acmReady (mg_Annotations cur) (status_of w key)).1 = true)
    (Hc : c ∈ st_Conditions (status_of w key)) (Hother : c_Type c <> CONDITION_TYPE_GLOBALHUB_READY) (Hnew : c ∉ conds)
    (Hrun : updateMGHReadyStatus now variables key conds None w = (None, w')) :
  c ∉ st_Conditions (status_of w' key).
Proof.
  unfold updateMGHReadyStatus in Hrun. set (f := fun s : list Condition * W => _) in Hrun.
  destruct (retry_on_conflict f (conds, w)) as [r [conds' w1]] eqn:E. injection Hrun as -> <-.
  assert (forall l phase b l', updateReadyConditions now l phase = (b, l') -> forall x, x ∈ l' ->
    c_Type x = CONDITION_TYPE_GLOBALHUB_READY \/ x ∈ l) as Hupd.
  { intros l phase b l' U x Hx. unfold updateReadyConditions in U.
    destruct (String.eqb phase GlobalHubRunning); apply NeedUpdateConditions_spec in U as (_ & _ & _ & Hin & _); by apply Hin. }
  set (same := fun a b : list Condition * W => same_objects a.2 b.2 /\ (c ∉ a.1 -> c ∉ b.1)).
  assert (forall a e a', f a = (Some e, a') -> same a a') as Hfail.
  { intros [l a] e [l' a'] Ef. subst f. cbn beta iota in Ef. destruct (kget a KOperand key) as [o| |e']; [|by injection Ef as _ <- <-..].
    destruct (needUpdatePhase _ _ _) as [b phase]. destruct (updateReadyConditions now l phase) as [b' l1] eqn:U.
    destruct (negb b && negb b'); [done|]. destruct (put_status a key _) as [r1 a1] eqn:P. injection Ef as Er <- <-.
    apply put_status_refused in P as [??]; [|by intros ->]. split; [done|]. cbn. intros Hl.
    destruct (ContainsCondition l _); [|done]. intros Hx. by destruct (Hupd _ _ _ _ U c Hx). }
  apply (retried_last_attempt f same) in E as ([l a] & [[Ek Es] Hl] & Ef); [| |
    |exact Hfail].
  2: { intros b. split; [apply same_objects_refl|done]. }
  2: { intros x y z [??] [??]. split; [by eapply same_objects_trans|auto]. }
  cbn in Ek, Es, Hl. specialize (Hl Hnew). subst f. cbn beta iota in Ef.
  destruct (kget a KOperand key) as [o| |e'] eqn:G; [|done..]. apply kget_Found in G. rewrite Ek in G.
  specialize (Hphase o (acmResourceReady (variables a)) G). rewrite Es in Ef.
  destruct (needUpdatePhase _ _ _) as [b phase]. cbn in Hphase. subst b.
  destruct (updateReadyConditions now l phase) as [b' l1] eqn:U. cbn [negb andb] in Ef.
  destruct (put_status a key _) as [r1 a1] eqn:P. injection Ef as Er <- <-. apply written_err_None in Er as ->.
  apply put_status_Done in P as (_ & _ & -> & _). cbn. intros Hx. by destruct (Hupd _ _ _ _ U c Hx).
Qed.

(** ** Finalizers *)
Definition as_global (k : spec_kind) (o : PlainObject) : kobj (KGlobal k) := o.

Definition pruned_object (o : PlainObject) : option PlainObject :=
  if bool_decide (GlobalHubCleanupFinalizer ∈ pl_Finalizers o)
  then (if pl_keep (pruned now o) then Some (pruned now o) else None) else Some o.

Lemma pruneFinalizer_frame k o w r w' : pruneFinalizer now k o w = (r, w') ->
  (forall k', k' <> KGlobal k -> kobjects w' k' = kobjects w k') /\ status_of w' = status_of w.
Proof.
  unfold pruneFinalizer. case_bool_decide; [|by intros [= _ <-]].
  intros (? & ? & _)%(retried_update_frame (KGlobal k)). done.
Qed.
Lemma prune_each_frame k l w r w' : prune_each now k l w = (r, w') ->
  (forall k', k' <> KGlobal k -> kobjects w' k' = kobjects w k') /\ status_of w' = status_of w.
Proof.
  revert w. induction l as [|o l IH]; intros w; cbn [prune_each]; [by intros [= _ <-]|].
  destruct (pruneFinalizer now k o w) as [[e|] w1] eqn:P; apply pruneFinalizer_frame in P as [P1 P2].
  - by intros [= _ <-].
  - intros [I1 I2]%IH. split; [|congruence]. intros k' Hk. by rewrite I1, P1.
Qed.
Lemma prune_kinds_frame ks w r w' : prune_kinds now ks w = (r, w') ->
  (forall k', (forall k, k' <> KGlobal k) -> kobjects w' k' = kobjects w k') /\ status_of w' = status_of w.
Proof.
  revert w. induction ks as [|k ks IH]; intros w; cbn [prune_kinds]; [by intros [= _ <-]|].
  destruct (prune_kind now k w) as [[e|] w1] eqn:P; apply prune_each_frame in P as [P1 P2].
  - intros [= _ <-]. split; [|done]. intros k' Hk. by apply P1.
  - intros [I1 I2]%IH. split; [|congruence]. intros k' Hk. rewrite I1 by done. by apply P1.
Qed.

Lemma prune_kinds_app a b w : prune_kinds now (a ++ b) w =
  match prune_kinds now a w with (Some e, w1) => (Some e, w1) | (None, w1) => prune_kinds now b w1 end.
Proof.
  revert w. induction a as [|k a IH]; intros w; [done|]. cbn [app prune_kinds].
  destruct (prune_kind now k w) as [[e|] w1]; [done|apply IH].
Qed.
Lemma PruneFinalizer_Run_kinds w : PruneFinalizer_Run now w = prune_kinds now pruned_kinds w.
Proof.
  unfold PruneFinalizer_Run, prunePlacementResources, pruneApplication, prunePolicy.
  change pruned_kinds with ([KPlacement; KManagedClusterSet; KManagedClusterSetBinding; KPlacementRule; KPlacementBinding] ++
    [KApplication; KSubscription; KChannel] ++ [KPolicy]).
  rewrite (prune_kinds_app [_; _; _; _; _]). destruct (prune_kinds now _ w) as [[e|] w1]; [done|].
  by rewrite (prune_kinds_app [_; _; _]).
Qed.

Section Responsive.
Context (Hserver : responsive W hub_kind).

Lemma prune_each_spec k l w : NoDup (pl_Key <$> l) ->
  (forall o : PlainObject, o ∈ l -> kobjects w (KGlobal k) !! pl_Key o = Some (o : kobj (KGlobal k))) ->
  exists w', prune_each now k l w = (None, w') /\
    (forall key, key ∉ (pl_Key <$> l) -> kobjects w' (KGlobal k) !! key = kobjects w (KGlobal k) !! key) /\
    (forall o, o ∈ l -> kobjects w' (KGlobal k) !! pl_Key o = (pruned_object o : option (kobj (KGlobal k)))).
Proof.
  revert w. induction l as [|o l IH]; intros w Hnd Hin; cbn [prune_each].
  { exists w. split; [done|]. split; [done|]. by intros o ?%elem_of_nil. }
  rewrite fmap_cons in Hnd. apply NoDup_cons in Hnd as [Ho Hnd].
  assert (exists w1, pruneFinalizer now k o w = (None, w1) /\
    (forall key, key <> pl_Key o -> kobjects w1 (KGlobal k) !! key = kobjects w (KGlobal k) !! key) /\
    kobjects w1 (KGlobal k) !! pl_Key o = (pruned_object o : option (kobj (KGlobal k)))) as (w1 & E1 & Hk & Hp).
  { unfold pruneFinalizer, pruned_object. case_bool_decide as Hf; [|exists w; split; [done|]; split; [done|]; apply Hin; by left].
    destruct Hserver as (_ & _ & _ & Hu & _).
    destruct (Hu w (KGlobal k) (as_global k (pruned now o))) as [w1 U].
    { exists (as_global k o). change (kobjects w (KGlobal k) !! pl_Key o = Some (as_global k o)). apply (Hin o). by left. }
    exists w1. split.
    { apply retry_first. change ((let '(r, w') := kupdate w (KGlobal k) (as_global k (pruned now o)) in (written_err r, w')) = (None, w1)).
      by rewrite U. }
    split.
    - intros key Hne. eapply kupdate_others; [exact U|done].
    - apply kupdate_Done in U as (_ & -> & _). change (kname (KGlobal k) (as_global k (pruned now o))) with (pl_Key o).
      by rewrite lookup_partial_alter_eq. }
  rewrite E1. destruct (IH w1 Hnd) as (w' & E & Hk' & Hp').
  { intros x Hx. rewrite Hk; [apply Hin; by right|]. intros Ex. apply Ho. rewrite <- Ex. by apply list_elem_of_fmap_2. }
  exists w'. split; [done|]. split.
  - intros key Hne. rewrite fmap_cons, not_elem_of_cons in Hne. destruct Hne as [? ?]. by rewrite Hk', Hk.
  - intros x [->|Hx]%elem_of_cons; [|by apply Hp']. by rewrite Hk'.
Qed.

Lemma prune_kind_spec k (w : W) : exists w', prune_kind now k w = (None, w') /\
  forall key, kobjects w' (KGlobal k) !! key = kobjects w (KGlobal k) !! key ≫= (pruned_object : kobj (KGlobal k) -> option (kobj (KGlobal k))).
Proof.
  destruct Hserver as (_ & Hl & _). destruct (Hl w (KGlobal k)) as [l L]. unfold prune_kind. rewrite L.
  pose proof (klist_elem _ _ _ L) as Hin. destruct (prune_each_spec k l w) as (w' & E & Hk & Hp).
  { exact (klist_keys _ _ _ L). }
  { intros o Ho. by apply (Hin o). }
  exists w'. split; [done|]. intros key. destruct (kobjects w (KGlobal k) !! key) as [o|] eqn:Eo.
  - pose proof (kobjects_named _ _ _ _ Eo) as Hn. cbn. rewrite <- Hn. apply Hp. apply (Hin o). by rewrite Hn.
  - cbn. rewrite Hk; [done|]. intros (o & -> & Ho)%list_elem_of_fmap. apply (Hin o) in Ho.
    discriminate (eq_trans (eq_sym Eo) Ho).
Qed.

Lemma prune_kinds_spec ks (w : W) : NoDup ks -> exists w', prune_kinds now ks w = (None, w') /\
  forall k key, kobjects w' (KGlobal k) !! key =
    if decide (k ∈ ks) then kobjects w (KGlobal k) !! key ≫= (pruned_object : kobj (KGlobal k) -> option (kobj (KGlobal k)))
    else kobjects w (KGlobal k) !! key.
Proof.
  revert w. induction ks as [|k0 ks IH]; intros w Hnd; cbn [prune_kinds].
  { exists w. split; [done|]. intros k key. by rewrite decide_False by apply not_elem_of_nil. }
  apply NoDup_cons in Hnd as [Hk0 Hnd]. destruct (prune_kind_spec k0 w) as (w1 & E1 & H1). rewrite E1.
  destruct (IH w1 Hnd) as (w' & E & Hp). exists w'. split; [done|]. intros k key. rewrite Hp.
  apply prune_each_frame in E1 as [F _]. destruct (decide (k = k0)) as [->|Hne].
  - rewrite decide_False by done. rewrite decide_True by (by left). apply H1.
  - rewrite F by congruence. destruct (decide (k ∈ ks)); [rewrite decide_True by (by right)|rewrite decide_False]; [done..|].
    by intros [?|?]%elem_of_cons.
Qed.

(** When the operand is deleted every global object loses the finalizer of the
    global hub: on a server that answers, each object of the nine kinds that has
    it is written without it, with the other finalizers and a deadline of a minute
    in its labels, or goes, when it was being deleted and this was the last one;
    all other objects stay as they are. *)
Theorem pruned_objects_lose_the_finalizer (w : W) :
  exists w', PruneFinalizer_Run now w = (None, w') /\
  (forall k key, kobjects w' (KGlobal k) !! key =
     kobjects w (KGlobal k) !! key ≫= (pruned_object : kobj (KGlobal k) -> option (kobj (KGlobal k)))) /\
  (forall k key (o : kobj (KGlobal k)), kobjects w' (KGlobal k) !! key = Some o ->
     GlobalHubCleanupFinalizer ∉ pl_Finalizers o) /\
  (forall k', (forall k, k' <> KGlobal k) -> kobjects w' k' = kobjects w k').
Proof.
  rewrite PruneFinalizer_Run_kinds. destruct (prune_kinds_spec pruned_kinds w) as (w' & E & Hp).
  { apply pruned_kinds_NoDup. }
  exists w'. split; [done|]. assert (forall k key, kobjects w' (KGlobal k) !! key =
     kobjects w (KGlobal k) !! key ≫= (pruned_object : kobj (KGlobal k) -> option (kobj (KGlobal k)))) as Hk.
  { intros k key. rewrite Hp, decide_True by apply pruned_kinds_all. done. }
  split; [exact Hk|]. split; [|by eapply prune_kinds_frame].
  intros k key o. rewrite Hk. destruct (kobjects w (KGlobal k) !! key) as [x|]; [|done]. cbn. unfold pruned_object.
  case_bool_decide; [|by intros [= <-]]. destruct (pl_keep _); [|done]. intros [= <-]. cbn.
  intros [Hne _]%list_elem_of_filter. by apply Hne.
Qed.
End Responsive.

(** ** Deletion *)
Lemma delete_each_spec k keys (w : W) w' : k <> KOperand -> delete_each k keys w = (None, w') ->
  (forall key, key ∈ keys -> forall o : kobj k, kobjects w' k !! key = Some o -> exists o0, obj_mark k o0 = Some o) /\
  (forall key, key ∉ keys -> kobjects w' k !! key = kobjects w k !! key) /\
  (forall k', k' <> k -> kobjects w' k' = kobjects w k') /\ status_of w' = status_of w.
Proof.
  intros Hk. set (marked := fun (w : W) key => forall o : kobj k, kobjects w k !! key = Some o -> exists o0, obj_mark k o0 = Some o).
  cut (forall done_ : list obj_key, (forall key, key ∈ done_ -> marked w key) -> delete_each k keys w = (None, w') ->
    (forall key, key ∈ done_ \/ key ∈ keys -> marked w' key) /\
    (forall key, key ∉ keys -> kobjects w' k !! key = kobjects w k !! key) /\
    (forall k', k' <> k -> kobjects w' k' = kobjects w k') /\ status_of w' = status_of w).
  { intros Hcut E. destruct (Hcut [] ltac:(by intros key ?%elem_of_nil) E) as (H1' & H2' & H3' & H4').
    split_and!; try done. intros key Hin. apply H1'. by right. }
  revert w. induction keys as [|key keys IH]; intros w done_ Hdone E; cbn [delete_each] in E.
  { injection E as <-. split_and!; try done. intros key [?|?%elem_of_nil]; [by apply Hdone|done]. }
  destruct (kdelete w k key) as [d w1] eqn:D. pose proof (kdelete_status _ _ _ _ _ Hk D) as Hs.
  assert (delete_each k keys w1 = (None, w') /\ marked w1 key /\
    (forall n, n <> key -> kobjects w1 k !! n = kobjects w k !! n) /\ (forall k', k' <> k -> kobjects w1 k' = kobjects w k'))
    as (E1 & Hm & Hn & Ho).
  { destruct d as [| |e]; [| |done]; (split; [done|]).
    - apply kdelete_Done in D as [(o & _ & Ek) Ho]. split; [|split; [|done]].
      + intros x Hx. rewrite Ek, lookup_partial_alter_eq in Hx. by exists o.
      + intros n Hne. by rewrite Ek, lookup_partial_alter_ne.
    - apply kdelete_Gone in D as [Hg ->]. split; [|done]. intros x Hx. discriminate (eq_trans (eq_sym Hg) Hx). }
  destruct (IH w1 (key :: done_)) as (I1 & I2 & I3 & I4); [|done|].
  { intros n [->|Hin]%elem_of_cons; [done|]. destruct (decide (n = key)) as [->|Hne]; [done|].
    intros o Hx. rewrite Hn in Hx by done. by eapply Hdone. }
  split_and!.
  - intros n [Hin|[->|Hin]%elem_of_cons]; apply I1; [left; by right|left; by left|by right].
  - intros n Hnin. apply not_elem_of_cons in Hnin as [? ?]. by rewrite I2, Hn.
  - intros k' Hk'. by rewrite I3, Ho.
  - congruence.
Qed.

Definition owned_marked (m : gmap obj_key PlainObject) : Prop := forall key o, m !! key = Some o ->
  pl_Labels o !! GlobalHubOwnerLabelKey = Some GHOperatorOwnerLabelVal -> pl_Deleting o = true.

Lemma pl_mark_Deleting o o' : pl_mark o = Some o' -> pl_Deleting o' = true.
Proof. unfold pl_mark. destruct (pl_Finalizers o); [done|by intros [= <-]]. Qed.

Lemma owned_keys_marked (l : list PlainObject) (m m' : gmap obj_key PlainObject) :
  (forall o, o ∈ l <-> m !! pl_Key o = Some o) -> (forall key o, m !! key = Some o -> pl_Key o = key) ->
  (forall key, key ∈ (pl_Key <$> owned l) -> forall o, m' !! key = Some o -> exists o0, pl_mark o0 = Some o) ->
  (forall key, key ∉ (pl_Key <$> owned l) -> m' !! key = m !! key) -> owned_marked m'.
Proof.
  intros Hl Hn Hin Hout key o Ho Hown. destruct (decide (key ∈ (pl_Key <$> owned l))) as [Hk|Hk].
  - destruct (Hin key Hk o Ho) as [o0 E]. by eapply pl_mark_Deleting.
  - exfalso. rewrite (Hout key Hk) in Ho. pose proof (Hn _ _ Ho) as <-. apply Hk. apply list_elem_of_fmap_2.
    apply list_elem_of_filter. split; [done|]. by apply Hl.
Qed.

Lemma pruneGlobalResources_spec (w : W) w' : pruneGlobalResources w = (None, w') ->
  owned_marked (kobjects w' KRole) /\ owned_marked (kobjects w' KRoleBinding) /\
  (forall k, k <> KRole -> k <> KRoleBinding -> kobjects w' k = kobjects w k) /\ status_of w' = status_of w.
Proof.
  unfold pruneGlobalResources. destruct (klist w KRole) as [roles|e] eqn:L1; [|done].
  destruct (delete_each KRole _ w) as [[e|] w1] eqn:D1; [done|].
  destruct (klist w1 KRoleBinding) as [bindings|e] eqn:L2; [|done]. intros D2.
  apply delete_each_spec in D1 as (M1 & O1 & K1 & S1); [|done]. apply delete_each_spec in D2 as (M2 & O2 & K2 & S2); [|done].
  split; [|split; [|split; [|congruence]]].
  - rewrite (K2 KRole) by done.
    exact (owned_keys_marked roles _ _ (klist_elem _ _ _ L1) (kobjects_named w KRole) M1 O1).
  - exact (owned_keys_marked bindings _ _ (klist_elem _ _ _ L2) (kobjects_named w1 KRoleBinding) M2 O2).
  - intros k H1' H2'. by rewrite K2, K1.
Qed.

Context (IsResourceRemoved : W -> string -> bool).

(** C14: the operand is let go only when every controller says so: a deletion that
    ends without an error and is not repeated has seen each started controller
    report that its resources are removed, has then written the operand without
    the finalizer of the global hub, and leaves no role or binding of the operator
    that is not being deleted. *)
Theorem operand_goes_when_the_controllers_agree started mgh (w : W) w'
    (Hrun : delete_operand now variables IsResourceRemoved started mgh w = ((NoRequeue, None), w')) :
  (exists w2, (forall name, name ∈ started -> IsResourceRemoved w2 name = true) /\
     is_Some (kobjects w2 KOperand !! mg_Key mgh) /\
     kobjects w' KOperand = partial_alter (fun _ => settled KOperand (set_operand_finalizers mgh
       (Remove (pl_Finalizers (mg_Meta mgh)) GlobalHubCleanupFinalizer))) (mg_Key mgh) (kobjects w2 KOperand)) /\
  owned_marked (kobjects w' KRole) /\ owned_marked (kobjects w' KRoleBinding).
Proof.
  unfold delete_operand in Hrun. destruct (UpdateCondition now _ _ _ w) as [[e|] w1] eqn:U; [done|].
  destruct (pruneGlobalHubResources now variables w1) as [[e|] w2] eqn:P; [done|].
  destruct (existsb _ (elements started)) eqn:Ex; [done|]. destruct (UpdateObject _ w2) as [err w3] eqn:O. injection Hrun as -> <-.
  assert (owned_marked (kobjects w2 KRole) /\ owned_marked (kobjects w2 KRoleBinding)) as [HR HB].
  { unfold pruneGlobalHubResources in P. destruct (pruneGlobalResources w1) as [[e|] w1'] eqn:G; [done|].
    apply pruneGlobalResources_spec in G as (HR & HB & _). destruct (acmResourceReady _); [|by injection P as <-].
    rewrite PruneFinalizer_Run_kinds in P. apply prune_kinds_frame in P as [F _]. by rewrite !F by done. }
  unfold UpdateObject in O. apply (retried_update_frame KOperand) in O as (F & _ & Hp & Eu).
  split; [|by rewrite !F]. exists w2. split; [|by split].
  intros name Hname. destruct (IsResourceRemoved w2 name) eqn:Er; [done|]. exfalso.
  assert (existsb (fun n => negb (IsResourceRemoved w2 n)) (elements started) = true) as Ht; [|congruence].
  apply existsb_exists. exists name. split; [by apply list_elem_of_In, elem_of_elements|by rewrite Er].
Qed.

Lemma delete_each_answers k keys (w : W) : responsive W hub_kind -> exists w', delete_each k keys w = (None, w').
Proof.
  intros (_ & _ & _ & _ & Hd). revert w. induction keys as [|key keys IH]; intros w; cbn [delete_each]; [by exists w|].
  destruct (kdelete w k key) as [[| |e] w1] eqn:D; [apply IH..|]. by apply Hd in D.
Qed.

(** An operator that was restarted lets its operand go without waiting for
    anybody: the controllers that it would ask are those that it has started, and
    none is started while the operand is being deleted, so that on a server that
    answers, and has no conflict, the first reconciliation removes the operand,
    whatever the controllers would say. *)
Theorem restarted_operator_waits_for_nobody order config standalone mgh (w : W)
    (Hserver : responsive W hub_kind) (Hstatus : status_responsive W)
    (Hoperand : klist w KOperand = Ok [mgh : kobj KOperand]) (Hagent : klist w KOperandAgent = Ok [])
    (Hactive : operand_paused mgh = false) (Hdeleting : pl_Deleting (mg_Meta mgh) = true)
    (Hfinalizers : pl_Finalizers (mg_Meta mgh) = [GlobalHubCleanupFinalizer]) :
  exists w', meta_Reconcile now variables IsResourceRemoved order config standalone ∅ w = ((NoRequeue, None), (∅, w')) /\
    kobjects w' KOperand !! mg_Key mgh = None.
Proof.
  unfold meta_Reconcile. rewrite Hoperand, Hagent, Hactive, Hdeleting. unfold delete_operand.
  assert (kobjects w KOperand !! mg_Key mgh = Some (mgh : kobj KOperand)) as Hm.
  { apply (klist_elem _ _ _ Hoperand mgh). by left. }
  destruct (UpdateCondition_answers now (mg_Key mgh) (MkCondition CONDITION_TYPE_GLOBALHUB_READY CONDITION_STATUS_FALSE
    "MulticlusterGlobalUninstalling" "The multicluster global hub is uninstalling" 0) GlobalHubUninstalling w Hserver Hstatus)
    as [w1 U]; [by eexists|].
  rewrite U. apply UpdateCondition_spec in U as (Ek & _ & _).
  assert (exists w2, pruneGlobalHubResources now variables w1 = (None, w2) /\ kobjects w2 KOperand = kobjects w1 KOperand)
    as (w2 & P & F).
  { assert (exists w1', pruneGlobalResources w1 = (None, w1')) as [w1' G].
    { unfold pruneGlobalResources. destruct Hserver as (Hg & Hl & Hrest). destruct (Hl w1 KRole) as [l1 ->].
      destruct (delete_each_answers KRole (pl_Key <$> owned l1) w1 ltac:(by split)) as [w1' ->].
      destruct (Hl w1' KRoleBinding) as [l2 ->]. apply delete_each_answers. by split. }
    unfold pruneGlobalHubResources. rewrite G. apply pruneGlobalResources_spec in G as (_ & _ & F & _).
    destruct (acmResourceReady _); [|exists w1'; split; [done|by apply F]].
    rewrite PruneFinalizer_Run_kinds. destruct (prune_kinds_spec Hserver pruned_kinds w1') as (w2 & P & _).
    { apply pruned_kinds_NoDup. }
    exists w2. split; [done|]. apply prune_kinds_frame in P as [F' _]. rewrite F' by done. by apply F. }
  rewrite P. change (elements ∅) with (@nil string). cbn [existsb]. unfold UpdateObject.
  rewrite Hfinalizers. change (Remove [GlobalHubCleanupFinalizer] GlobalHubCleanupFinalizer) with (@nil string).
  destruct Hserver as (_ & _ & _ & Hu & _).
  destruct (Hu w2 KOperand (set_operand_finalizers mgh [])) as [w3 E].
  { rewrite F, Ek. by eexists. }
  rewrite (retry_first _ w2 w3) by (cbn; by rewrite E). exists w3. split; [done|].
  apply kupdate_Done in E as (_ & Eu & _). rewrite Eu. refine (eq_trans (lookup_partial_alter_eq _ _ _) _). unfold settled. cbn. unfold pl_keep. cbn. rewrite Hdeleting. done.
Qed.

(** ** Starting the controllers *)
Lemma start_controllers_app a b err started m (w : W) : start_controllers (a ++ b) err started m w =
  let '(err1, started1, m1, w1) := start_controllers a err started m w in start_controllers b err1 started1 m1 w1.
Proof.
  revert err started m w. induction a as [|[n f] a IH]; intros err started m w; [done|]. cbn [app start_controllers].
  destruct (f m w) as [[[[]|e] m1] w1]; apply IH.
Qed.

(** A controller that fails to start is not tried again by the reconciliation:
    the failure of the last one in the order of the map ends it with no error and
    no repetition, and the failure of any other is forgotten when the last one
    starts, so that not even the readiness of the operand shows it. *)
Theorem failed_controllers_are_not_retried pre n (f : Func) config started m (w w1 : W)
    (Hconfig : config m.1 w = (None, w1)) (Hfinalizer : GlobalHubCleanupFinalizer ∈ pl_Finalizers (mg_Meta m.1)) :
  let '(err_pre, started_pre, m_pre, w_pre) := start_controllers pre None started m w1 in
  match (f m_pre w_pre).1.1 with
  | Err e => exists started' m' w',
      live_operand variables (pre ++ [(n, f)]) config started m w = ((NoRequeue, None), Some e, started', m', w')
  | Ok _ => (start_controllers (pre ++ [(n, f)]) None started m w1).1.1.1 = None
  end.
Proof.
  destruct (start_controllers pre None started m w1) as [[[err_pre started_pre] m_pre] w_pre] eqn:S.
  assert (forall r m' w', f m_pre w_pre = (r, m', w') ->
    start_controllers (pre ++ [(n, f)]) None started m w1 =
    (match r with Ok _ => None | Err e => Some e end,
     match r with Ok true => {[n]} ∪ started_pre | _ => started_pre end, m', w')) as Hall.
  { intros r m' w' E. rewrite start_controllers_app, S. cbn [start_controllers]. rewrite E. by destruct r as [[]|]. }
  destruct (f m_pre w_pre) as [[r m'] w'] eqn:E. specialize (Hall _ _ _ eq_refl). cbn [fst].
  destruct r as [b|e]; [by rewrite Hall|]. exists started_pre, m', w'. unfold live_operand, AddFinalizer.
  by rewrite Hconfig, bool_decide_eq_true_2, Hall by done.
Qed.
End Meta.

(** ** An operator with its operand *)
Module Sample.
#[export] Instance retrier : Retrier := retrier_of 5 (String.eqb "conflict").
#[export] Instance retrier_laws : RetrierLaws := retrier_of_laws 5 (String.eqb "conflict").

Definition hub_operand (deleting : bool) : Operand :=
  MkOperand (MkPlain ("mgh", "hub") ∅ ∅ [GlobalHubCleanupFinalizer] deleting) true.
Definition a_policy : PlainObject := MkPlain ("ns", "policy") ∅ ∅ [GlobalHubCleanupFinalizer; "other"] false.
Definition a_role (name : string) : PlainObject :=
  MkPlain ("", name) {[GlobalHubOwnerLabelKey := GHOperatorOwnerLabelVal]} ∅ [] false.
Definition objects (deleting : bool) : kstore (K := hub_kind) := fun k =>
  match k with
  | KOperand => {[("mgh", "hub") := hub_operand deleting]}
  | KRole => {[("", "role") := a_role "role"]}
  | KGlobal KPolicy => {[("ns", "policy") := a_policy]}
  | _ => ∅
  end.
Definition backup_condition : Condition := MkCondition "BackupLabelAdded" "True" "BackupLabelAdded" "" 1.
Definition hub (deleting : bool) : hub_store := (objects deleting, fun _ => MkStatus [backup_condition] None "").
Definition no_variables (w : hub_store) : Variables := MkVariables true false false false.
Definition refuses (w : hub_store) (name : string) : bool := false.

(** The manager is missing, but the old database is counted for it. *)
Definition component (name : string) : StatusCondition := MkStatusCondition name "Deployment" COMPONENTS_AVAILABLE "True" 0 "" "".
Example running_without_the_manager :
  components_phase (size (CheckDesiredComponent false ∅)) (component <$> [old_postgres_name; COMPONENTS_POSTGRES_NAME; COMPONENTS_KAFKA_NAME]) =
  GlobalHubRunning.
Proof. reflexivity. Qed.

Lemma conditions_set_meanwhile_are_lost_witness :
  exists w', updateMGHReadyStatus 5 no_variables ("mgh", "hub") [] None (hub false) = (None, w') /\
    backup_condition ∉ st_Conditions (status_of w' ("mgh", "hub")).
Proof.
  destruct (updateMGHReadyStatus 5 no_variables ("mgh", "hub") [] None (hub false)) as [r w'] eqn:E.
  assert (r = None) as -> by (change r with (r, w').1; rewrite <- E; vm_compute; reflexivity).
  exists w'. split; [reflexivity|].
  refine (conditions_set_meanwhile_are_lost 5 no_variables ("mgh", "hub") [] (hub false) w' backup_condition _ _ _ _ E).
  - intros cur acm _. unfold needUpdatePhase, CheckDesiredComponent. by destruct acm, (WithInventory _).
  - by left.
  - discriminate.
  - apply not_elem_of_nil.
Defined.

Lemma operand_goes_when_the_controllers_agree_witness :
  exists w', delete_operand 5 no_variables (fun _ _ => true) {["storage"]} (hub_operand true) (hub true) = ((NoRequeue, None), w') /\
    owned_marked (kobjects w' KRole).
Proof.
  destruct (delete_operand 5 no_variables (fun _ _ => true) {["storage"]} (hub_operand true) (hub true)) as [[q r] w'] eqn:E.
  assert ((q, r) = (NoRequeue, None)) as [= -> ->] by (change (q, r) with ((q, r), w').1; rewrite <- E; vm_compute; reflexivity).
  exists w'. split; [reflexivity|].
  exact (proj1 (proj2 (operand_goes_when_the_controllers_agree 5 no_variables (fun _ _ => true) {["storage"]} (hub_operand true)
    (hub true) w' E))).
Defined.

Lemma restarted_operator_waits_for_nobody_witness :
  exists w', meta_Reconcile 5 no_variables refuses [] (fun _ w => (None, w)) (fun w => (None, w)) ∅ (hub true) =
      ((NoRequeue, None), (∅, w')) /\ kobjects w' KOperand !! ("mgh", "hub") = None.
Proof.
  assert (klist (hub true) KOperand = Ok [hub_operand true : kobj KOperand]) as Ho by (vm_compute; reflexivity).
  assert (klist (hub true) KOperandAgent = Ok []) as Ha by (vm_compute; reflexivity).
  exact (restarted_operator_waits_for_nobody 5 no_variables refuses [] (fun _ w => (None, w)) (fun w => (None, w)) (hub_operand true)
    (hub true) hub_responsive hub_status_responsive Ho Ha eq_refl eq_refl eq_refl).
Defined.

Definition fails : Func (W := hub_store) := fun m w => (Err "no kafka", m, w).
Definition starts : Func (W := hub_store) := fun m w => (Ok true, m, w).

Lemma failed_controllers_are_not_retried_witness :
  (start_controllers [("transporter", fails); ("storage", starts)] None ∅ (hub_operand false, []) (hub false)).1.1.1 = None.
Proof.
  assert ((fun _ w => (None, w) : option goerror * hub_store) (hub_operand false) (hub false) = (None, hub false)) as Hc by reflexivity.
  assert (GlobalHubCleanupFinalizer ∈ pl_Finalizers (mg_Meta (hub_operand false))) as Hf by (by left).
  exact (failed_controllers_are_not_retried no_variables [("transporter", fails)] "storage" starts (fun _ w => (None, w)) ∅
    (hub_operand false, []) (hub false) (hub false) Hc Hf).
Defined.

Lemma pruned_objects_lose_the_finalizer_witness :
  exists w', PruneFinalizer_Run 5 (hub true) = (None, w') /\
    forall (o : kobj (KGlobal KPolicy)), kobjects w' (KGlobal KPolicy) !! ("ns", "policy") = Some o ->
      GlobalHubCleanupFinalizer ∉ pl_Finalizers o.
Proof.
  destruct (pruned_objects_lose_the_finalizer 5 hub_responsive (hub true)) as (w' & E & _ & Hf & _).
  exists w'. split; [exact E|]. intros o. apply Hf.
Defined.

Lemma conditions_stay_one_of_each_type_witness :
  NoDup (c_Type <$> (NeedUpdateConditions 7 [backup_condition] (MkCondition CONDITION_TYPE_GLOBALHUB_READY "False" "" "" 0)).2).
Proof.
  assert (NoDup (c_Type <$> [backup_condition])) as Hn by apply NoDup_singleton.
  exact (proj1 (conditions_stay_one_of_each_type 7 8 [backup_condition] (MkCondition CONDITION_TYPE_GLOBALHUB_READY "False" "" "" 0) Hn)).
Defined.
End Sample.
