(* ===== verification/Backup.v ===== *)
(** * Backup of the global hub

    The labels that a backup of the hub selects, which the operator adds to its
    resources and takes away again ([operator/pkg/controllers/backup]), and the
    copy of the database volume that the manager triggers
    ([manager/pkg/controllers/backup_controller.go]). The database lock of the
    latter is in the file [DatabaseLock]. *)

From stdpp Require Import prelude gmap strings list.
From Stdlib Require Import ZArith Lia.
From S2P Require Import Prelude.
From S2P Require Import GoLib.
From S2P Require Import Libraries.
From S2P Require Import KubeClient.
From S2P Require Import Operand.
Local Open Scope string_scope.
Local Open Scope list_scope.

Definition BackupKey : string := "cluster.open-cluster-management.io/backup".
Definition BackupVolumnKey : string := "cluster.open-cluster-management.io/backup-hub-pvc".
Definition BackupActivationValue : string := "cluster-activation".
Definition BackupGlobalHubValue : string := "globalhub".
Definition PostgresPvcLabelKey : string := "component".
Definition PostgresPvcLabelValue : string := "multicluster-global-hub-operator".
Definition BackupPvcCopyTrigger : string := "volsync.backube/copy-trigger".
Definition BackupPvcUserCopyTrigger : string := "volsync.backube/use-copy-trigger".
Definition BackupPvcLatestCopyStatus : string := "volsync.backube/latest-copy-status".
Definition BackupPvcWaitingForTrigger : string := "WaitingForTrigger".
Definition BackupPvcCompletedTrigger : string := "Completed".
Definition BackupPvcLatestCopyTrigger : string := "volsync.backube/latest-copy-trigger".
Definition CONDITION_TYPE_BACKUP : string := "BackupLabelAdded".

(** ** Labels and annotations of an object ([pkg/utils/meta.go]) *)
Definition HasItem (labels : gmap string string) (key value : string) : bool := bool_decide (labels !! key = Some value).

(** The kinds of resources, by the name of their type. *)
Inductive backup_type := secretType | configmapType | mghType | pvcType.
#[export] Instance backup_type_dec : EqDecision backup_type.
Proof. solve_decision. Defined.
Definition kind_of (t : backup_type) : hub_kind :=
  match t with secretType => KSecret | configmapType => KConfigMap | mghType => KOperand | pvcType => KVolume end.
Definition type_name (t : backup_type) : string :=
  match t with
  | secretType => "Secret" | configmapType => "ConfigMap"
  | mghType => "MulticlusterGlobalHub" | pvcType => "PersistentVolumeClaim"
  end.
Definition meta_of (t : backup_type) : hub_obj (kind_of t) -> PlainObject :=
  match t with mghType => mg_Meta | secretType | configmapType | pvcType => fun o => o end.
Definition with_meta (t : backup_type) : hub_obj (kind_of t) -> PlainObject -> hub_obj (kind_of t) :=
  match t with
  | mghType => fun o m => MkOperand m (mg_EnableMetrics o)
  | secretType | configmapType | pvcType => fun _ m => m
  end.

Section Objects.
Context {W : Type} `{!KubeClient W hub_kind} `{Retrier}.

(** The object is read, and written unless it is as it should be. *)
Definition modify (t : backup_type) (namespace name : string) (skip : PlainObject -> bool) (f : PlainObject -> PlainObject) (w : W)
    : option goerror * W :=
  retry_on_conflict (fun w =>
    match kget w (kind_of t) (namespace, name) with
    | Missing => (None, w)
    | Broken e => (Some e, w)
    | Found obj =>
        if skip (meta_of t obj) then (None, w)
        else let '(r, w') := kupdate w (kind_of t) (with_meta t obj (f (meta_of t obj))) in (written_err r, w')
    end) w.

Definition AddAnnotation (t : backup_type) (namespace name key value : string) : W -> option goerror * W :=
  modify t namespace name (fun o => HasItem (pl_Annotations o) key value)
    (fun o => set_pl_annotations o (<[key := value]> (pl_Annotations o))).
Definition DeleteAnnotation (t : backup_type) (namespace name key : string) : W -> option goerror * W :=
  modify t namespace name (fun o => negb (bool_decide (is_Some (pl_Annotations o !! key))))
    (fun o => set_pl_annotations o (delete key (pl_Annotations o))).
Definition AddLabel (t : backup_type) (namespace name labelKey labelValue : string) : W -> option goerror * W :=
  modify t namespace name (fun o => HasItem (pl_Labels o) labelKey labelValue)
    (fun o => set_labels o (<[labelKey := labelValue]> (pl_Labels o))).
Definition DeleteLabel (t : backup_type) (namespace name labelKey : string) : W -> option goerror * W :=
  modify t namespace name (fun o => negb (bool_decide (is_Some (pl_Labels o !! labelKey))))
    (fun o => set_labels o (delete labelKey (pl_Labels o))).

(** One object after the other, until one fails. *)
Fixpoint each {A : Type} (f : A -> W -> option goerror * W) (l : list A) (w : W) : option goerror * W :=
  match l with
  | [] => (None, w)
  | x :: rest => match f x w with (Some e, w') => (Some e, w') | (None, w') => each f rest w' end
  end.
End Objects.

(** ** Resources of the operator ([operator/pkg/controllers/backup]) *)
Definition secretList : list string :=
  ["multicluster-global-hub-custom-grafana-config"; "multicluster-global-hub-transport"; "multicluster-global-hub-storage"].
Definition configmapList : list string := ["multicluster-global-hub-custom-alerting"].
Definition labelKey (t : backup_type) : string := match t with pvcType => BackupVolumnKey | _ => BackupKey end.
Definition labelValue (t : backup_type) : string := match t with mghType => BackupActivationValue | _ => BackupGlobalHubValue end.

Definition in_namespace (namespace : string) (l : list PlainObject) : list PlainObject :=
  filter (fun o => (pl_Key o).1 = namespace) l.

(** Errors of several calls in one ([NewAggregate] of the libraries). *)
Class Aggregate := { NewAggregate : list goerror -> option goerror }.
Class AggregateLaws `{Aggregate} : Prop := { NewAggregate_None l : NewAggregate l = None <-> l = [] }.

Section Operator.
Context {W : Type} `{!KubeClient W hub_kind} `{!StatusClient W} `{Retrier} `{Aggregate}.
(** The names of the secrets and the types in the order of their maps, and the
    errors that tell that the kind of the hubs is not there. *)
Context (secretOrder : list string) (typeOrder : list backup_type) (no_kind : goerror -> bool) (now : Z).

Definition ListMCH (w : W) : result (option AcmHub) :=
  match klist w KAcmHub with
  | Err e => if no_kind e then Ok None else Err e
  | Ok l => Ok (head (l : list AcmHub))
  end.
Definition IsBackupEnabled (w : W) : result bool :=
  match ListMCH w with
  | Err e => Err e
  | Ok None => Ok false
  | Ok (Some mch) =>
      match ah_Overrides mch with
      | None => Ok false
      | Some components => Ok (existsb (fun c => String.eqb c.1 "cluster-backup" && c.2) components)
      end
  end.

Definition mgh_AddLabelToAllObjs (namespace : string) (w : W) : option goerror * W :=
  match klist w KOperand with
  | Err e => (Some e, w)
  | Ok items =>
      each (W := W) (fun o => AddLabel mghType namespace (pl_Key o).2 (labelKey mghType) (labelValue mghType))
        (filter (fun o => HasItem (pl_Labels o) (labelKey mghType) (labelValue mghType) = false)
           (in_namespace namespace (mg_Meta <$> (items : list Operand)))) w
  end.
Definition mgh_DeleteLabelOfAllObjs (namespace : string) (w : W) : option goerror * W :=
  match klist w KOperand with
  | Err e => (Some e, w)
  | Ok items =>
      each (W := W) (fun o => DeleteLabel mghType namespace (pl_Key o).2 (labelKey mghType))
        (filter (fun o => HasItem (pl_Labels o) (labelKey mghType) (labelValue mghType) = true)
           (in_namespace namespace (mg_Meta <$> (items : list Operand)))) w
  end.

(** The annotation is looked for among the labels. *)
Definition pvc_add (namespace : string) (obj : PlainObject) (w : W) : option goerror * W :=
  let '(err, w1) :=
    if negb (HasItem (pl_Labels obj) BackupPvcUserCopyTrigger (labelValue pvcType))
    then AddAnnotation pvcType namespace (pl_Key obj).2 BackupPvcUserCopyTrigger (labelValue pvcType) w
    else (None, w) in
  match err with
  | Some e => (Some e, w1)
  | None =>
      if negb (HasItem (pl_Labels obj) (labelKey pvcType) (labelValue pvcType))
      then AddLabel pvcType namespace (pl_Key obj).2 (labelKey pvcType) (labelValue pvcType) w1
      else (None, w1)
  end.
Definition pvc_AddLabelToAllObjs (namespace : string) (w : W) : option goerror * W :=
  match klist w KVolume with
  | Err e => (Some e, w)
  | Ok items =>
      each (W := W) (pvc_add namespace)
        (filter (fun o => pl_Labels o !! PostgresPvcLabelKey = Some PostgresPvcLabelValue)
           (in_namespace namespace (items : list PlainObject))) w
  end.
Definition pvc_delete (namespace : string) (obj : PlainObject) (w : W) : option goerror * W :=
  let '(err, w1) :=
    if bool_decide (is_Some (pl_Labels obj !! BackupPvcUserCopyTrigger))
    then DeleteAnnotation pvcType namespace (pl_Key obj).2 BackupPvcUserCopyTrigger w
    else (None, w) in
  match err with
  | Some e => (Some e, w1)
  | None =>
      if HasItem (pl_Labels obj) (labelKey pvcType) (labelValue pvcType)
      then DeleteLabel pvcType namespace (pl_Key obj).2 (labelKey pvcType) w1
      else (None, w1)
  end.
Definition pvc_DeleteLabelOfAllObjs (namespace : string) (w : W) : option goerror * W :=
  match klist w KVolume with
  | Err e => (Some e, w)
  | Ok items =>
      each (W := W) (pvc_delete namespace)
        (filter (fun o => pl_Labels o !! PostgresPvcLabelKey = Some PostgresPvcLabelValue /\
                          pl_Labels o !! labelKey pvcType = Some (labelValue pvcType))
           (in_namespace namespace (items : list PlainObject))) w
  end.

(** The interface of the resources, with its four implementations. *)
Definition AddLabelToAllObjs (t : backup_type) (namespace : string) : W -> option goerror * W :=
  match t with
  | secretType => each (W := W) (fun name => AddLabel secretType namespace name (labelKey secretType) (labelValue secretType)) secretOrder
  | configmapType => each (W := W) (fun name => AddLabel configmapType namespace name (labelKey configmapType) (labelValue configmapType)) configmapList
  | mghType => mgh_AddLabelToAllObjs namespace
  | pvcType => pvc_AddLabelToAllObjs namespace
  end.
Definition DeleteLabelOfAllObjs (t : backup_type) (namespace : string) : W -> option goerror * W :=
  match t with
  | secretType => each (W := W) (fun name => DeleteLabel secretType namespace name (labelKey secretType)) secretOrder
  | configmapType => each (W := W) (fun name => DeleteLabel configmapType namespace name (labelKey configmapType)) configmapList
  | mghType => mgh_DeleteLabelOfAllObjs namespace
  | pvcType => pvc_DeleteLabelOfAllObjs namespace
  end.
Definition AddLabelToOneObj (t : backup_type) (namespace name : string) (w : W) : option goerror * W :=
  match t with
  | pvcType =>
      match kget w KVolume (namespace, name) with
      | Missing => (Some "not found", w)
      | Broken e => (Some e, w)
      | Found obj =>
          let '(err, w1) :=
            if negb (HasItem (pl_Annotations obj) BackupPvcUserCopyTrigger (labelValue pvcType))
            then AddAnnotation pvcType namespace name BackupPvcUserCopyTrigger (labelValue pvcType) w
            else (None, w) in
          match err with
          | Some e => (Some e, w1)
          | None => AddLabel pvcType namespace name (labelKey pvcType) (labelValue pvcType) w1
          end
      end
  | _ => AddLabel t namespace name (labelKey t) (labelValue t) w
  end.

(** Every type is tried, and the errors are collected. *)
Fixpoint all_types (f : backup_type -> W -> option goerror * W) (types : list backup_type) (w : W) : list goerror * W :=
  match types with
  | [] => ([], w)
  | t :: rest =>
      let '(err, w1) := f t w in
      let '(errs, w2) := all_types f rest w1 in
      (match err with Some e => e :: errs | None => errs end, w2)
  end.
Definition addLableToAllResources (namespace : string) (w : W) : option goerror * W :=
  let '(errs, w') := all_types (fun t => AddLabelToAllObjs t namespace) typeOrder w in (NewAggregate errs, w').
Definition deleteLableOfAllResources (namespace : string) (w : W) : option goerror * W :=
  let '(errs, w') := all_types (fun t => DeleteLabelOfAllObjs t namespace) typeOrder w in (NewAggregate errs, w').

Definition addDisableCondition (key : obj_key) (err : option goerror) : W -> option goerror * W :=
  UpdateCondition now key (MkCondition CONDITION_TYPE_BACKUP CONDITION_STATUS_FALSE "BackupDisabled"
    (match err with None => "Backup is disabled in RHACM" | Some e => "Backup is diabled with error: " +:+ e +:+ "." end) 0) "".
Definition addBackupCondition (key : obj_key) (err : option goerror) : W -> option goerror * W :=
  UpdateCondition now key (MkCondition CONDITION_TYPE_BACKUP CONDITION_STATUS_TRUE "BackupLabelAdded"
    (match err with
     | None => "Added backup label to the global hub resources"
     | Some e => "Added backup labels with error: " +:+ e +:+ "."
     end) 0) "".

Fixpoint IsStatusConditionTrue (conditions : list Condition) (conditionType : string) : bool :=
  match conditions with
  | [] => false
  | c :: rest =>
      if String.eqb (c_Type c) conditionType then String.eqb (c_Status c) CONDITION_STATUS_TRUE
      else IsStatusConditionTrue rest conditionType
  end.

Definition type_of_request (s : string) : option backup_type :=
  find (fun t => String.eqb (type_name t) s) [secretType; configmapType; mghType; pvcType].

(** [mghNamespacedName] is the operand as the configuration package knows it; the
    namespace of a request is the type of the resource. *)
Definition backup_Reconcile (mghNamespacedName req : obj_key) (w : W) : option goerror * W :=
  match klist w KOperand with
  | Err e => (Some e, w)
  | Ok [] => (None, w)
  | Ok (mgh :: _) =>
      let key := hub_name KOperand mgh in
      let backuped := IsStatusConditionTrue (st_Conditions (status_of w key)) CONDITION_TYPE_BACKUP in
      match IsBackupEnabled w with
      | Err e => (Some e, w)
      | Ok false =>
          if negb backuped then addDisableCondition key None w
          else let '(err, w1) := deleteLableOfAllResources mghNamespacedName.1 w in addDisableCondition key err w1
      | Ok true =>
          if negb backuped then
            let '(err, w1) := addLableToAllResources mghNamespacedName.1 w in addBackupCondition key err w1
          else
            match type_of_request req.1 with
            | None => (None, w)
            | Some t => let '(err, w1) := AddLabelToOneObj t mghNamespacedName.1 req.2 w in addBackupCondition key err w1
            end
      end
  end.

(** ** Watches *)
Definition label_passes (names : list string) (o : PlainObject) : bool :=
  existsb (String.eqb (pl_Key o).2) names && negb (HasItem (pl_Labels o) BackupKey BackupActivationValue).
(** Whether a creation or an update of a resource is handled. *)
Definition backup_passes (t : backup_type) (o : PlainObject) : bool :=
  match t with
  | secretType => label_passes secretList o
  | configmapType => label_passes configmapList o
  | mghType => negb (HasItem (pl_Labels o) BackupKey BackupActivationValue)
  | pvcType => HasItem (pl_Labels o) PostgresPvcLabelKey PostgresPvcLabelValue
  end.
(** The request of a resource; the operand is enqueued under its own namespace. *)
Definition backup_request (mghNamespacedName : obj_key) (t : backup_type) (o : PlainObject) : list obj_key :=
  match t with
  | mghType => [pl_Key o]
  | _ =>
      if negb (String.eqb (pl_Key o).1 "") && negb (String.eqb (pl_Key o).1 mghNamespacedName.1) then []
      else [(type_name t, (pl_Key o).2)]
  end.
End Operator.

(** ** The copy of a volume ([manager/pkg/controllers/backup_controller.go]) *)
Definition IfPvcNeedBackup (pvc : PlainObject) : bool :=
  if negb (HasItem (pl_Labels pvc) BackupVolumnKey BackupGlobalHubValue) then false
  else if negb (HasItem (pl_Annotations pvc) BackupPvcLatestCopyStatus BackupPvcWaitingForTrigger) then false
  else if bool_decide (is_Some (pl_Annotations pvc !! BackupPvcLatestCopyTrigger)) then
    String.eqb (default "" (pl_Annotations pvc !! BackupPvcLatestCopyTrigger)) (default "" (pl_Annotations pvc !! BackupPvcCopyTrigger))
  else true.

(** [strings.ReplaceAll(s, ":", ".")] *)
Fixpoint dots (s : string) : string :=
  match s with
  | EmptyString => ""
  | String c s' => String (if Ascii.eqb c (Ascii.ascii_of_nat 58) then Ascii.ascii_of_nat 46 else c) (dots s')
  end.

(** The flag and the lock of the database. *)
Class DatabaseLocks (W : Type) := {
  set_backup_enabled : bool -> W -> W;
  db_lock : W -> option goerror * W;
  db_unlock : W -> W;
}.

Section Manager.
Context {W : Type} `{!KubeClient W hub_kind} `{!StatusClient W} `{Retrier} `{Poller} `{!DatabaseLocks W}.
(** What happens on the server between two looks at it. *)
Context (no_kind : goerror -> bool) (meanwhile : W -> W).

Definition copy_done (req : obj_key) (formatTriggerTime : string) (w : W) : bool * option goerror * W :=
  let w := meanwhile w in
  match kget w KVolume req with
  | Found pvc =>
      (HasItem (pl_Annotations pvc) BackupPvcLatestCopyStatus BackupPvcCompletedTrigger &&
       HasItem (pl_Annotations pvc) BackupPvcLatestCopyTrigger formatTriggerTime, None, w)
  | _ => (false, None, w)
  end.

(** What runs between the lock and the unlock. *)
Definition trigger_copy (req : obj_key) (triggerTime : string) (w : W) : option goerror * W :=
  let formatTriggerTime := dots triggerTime in
  match kget w KVolume req with
  | Missing => (Some "not found", w)
  | Broken e => (Some e, w)
  | Found pvc =>
      match AddAnnotation pvcType (hub_name KVolume pvc).1 (hub_name KVolume pvc).2 BackupPvcCopyTrigger formatTriggerTime w with
      | (Some e, w1) => (Some e, w1)
      | (None, w1) => poll (copy_done req formatTriggerTime) w1
      end
  end.

Definition volume_Reconcile (req : obj_key) (triggerTime : string) (w : W) : option goerror * W :=
  match IsBackupEnabled no_kind w with
  | Err e => (Some e, w)
  | Ok isBackupEnabled =>
      let w1 := set_backup_enabled isBackupEnabled w in
      if negb isBackupEnabled then (None, w1)
      else
        match db_lock w1 with
        | (Some e, w2) => (Some e, w2)
        | (None, w2) => let '(err, w3) := trigger_copy req triggerTime w2 in (err, db_unlock w3)
        end
  end.
End Manager.
