(* ===== verification/BackupFacts.v ===== *)
(** * Properties of the backup

    What the labels of a backup are added to and taken from, what a failure
    leaves, and when a volume has been copied. The last part runs an operator and
    a manager with a volume. *)

From stdpp Require Import prelude gmap strings list.
From Stdlib Require Import ZArith Lia.
From S2P Require Import Prelude.
From S2P Require Import GoLib.
From S2P Require Import Libraries.
From S2P Require Import KubeClient.
From S2P Require Import Operand.
From S2P Require Import Backup.
Local Open Scope string_scope.
Local Open Scope list_scope.

(** ** Rewriting of objects *)
Definition same_life (o o' : PlainObject) : Prop :=
  pl_Key o' = pl_Key o /\ pl_Finalizers o' = pl_Finalizers o /\ pl_Deleting o' = pl_Deleting o.
Definition rewriting : Type := backup_type -> obj_key -> PlainObject -> PlainObject.
Definition harmless (g : rewriting) : Prop := forall t key o, same_life o (g t key o).

(** One function on the objects of a type under some names. *)
Definition at_keys (t0 : backup_type) (keys : list obj_key) (h : PlainObject -> PlainObject) : rewriting :=
  fun t key o => if decide (t = t0 /\ key ∈ keys) then h o else o.

Lemma meta_with_meta t o m : meta_of t (with_meta t o m) = m.
Proof. by destruct t. Qed.
Lemma with_meta_twice t o m m' : with_meta t (with_meta t o m) m' = with_meta t o m'.
Proof. by destruct t. Qed.
Lemma with_meta_same t o : with_meta t o (meta_of t o) = o.
Proof. destruct t; try done. by destruct o. Qed.
Lemma name_of_meta t (o : hub_obj (kind_of t)) : hub_name (kind_of t) o = pl_Key (meta_of t o).
Proof. by destruct t. Qed.
Lemma keep_of_meta t (o : hub_obj (kind_of t)) : hub_keep (kind_of t) o = pl_keep (meta_of t o).
Proof. by destruct t. Qed.
Lemma kind_of_inj t t' : kind_of t = kind_of t' -> t = t'.
Proof. by destruct t, t'. Qed.

Section Facts.
Context {W : Type} `{!KubeClient W hub_kind} `{!StatusClient W} `{!KubeServer W hub_kind} `{!StatusServer W} `{RetrierLaws}.

Definition objects_of (w : W) (t : backup_type) : gmap obj_key (hub_obj (kind_of t)) := kobjects w (kind_of t).

Definition rewrites (w w' : W) (g : rewriting) : Prop :=
  (forall t key, objects_of w' t !! key = (fun o => with_meta t o (g t key (meta_of t o))) <$> objects_of w t !! key) /\
  (forall k, (forall t, k <> kind_of t) -> kobjects w' k = kobjects w k) /\ status_of w' = status_of w.

(** No object is being deleted without a finalizer: the server has removed it. *)
Definition kept (w : W) : Prop := forall t key o, objects_of w t !! key = Some o -> pl_keep (meta_of t o) = true.

Lemma rewrites_ext w w' g g' :
  (forall t key o, objects_of w t !! key = Some o -> g t key (meta_of t o) = g' t key (meta_of t o)) ->
  rewrites w w' g -> rewrites w w' g'.
Proof.
  intros He (Ho & K & S). split; [|by split]. intros t key. rewrite Ho. destruct (objects_of w t !! key) as [o|] eqn:E; [|done].
  cbn. by rewrite (He t key o E).
Qed.
Lemma rewrites_refl w : rewrites w w (fun _ _ o => o).
Proof.
  split; [|done]. intros t key. destruct (objects_of w t !! key) as [o|]; [|done]. cbn. by rewrite with_meta_same.
Qed.
Lemma rewrites_trans w w1 w2 g1 g2 : rewrites w w1 g1 -> rewrites w1 w2 g2 ->
  rewrites w w2 (fun t key o => g2 t key (g1 t key o)).
Proof.
  intros (O1 & K1 & S1) (O2 & K2 & S2). split; [|split; [intros k Hk; by rewrite K2, K1|congruence]].
  intros t key. rewrite O2, O1. destruct (objects_of w t !! key); [|done]. cbn. by rewrite meta_with_meta, with_meta_twice.
Qed.
Lemma kept_rewrites w w' g : harmless g -> rewrites w w' g -> kept w -> kept w'.
Proof.
  intros Hg (O & _) Hk t key o. rewrite O. destruct (objects_of w t !! key) as [o'|] eqn:E; [|done]. intros [= <-].
  rewrite meta_with_meta. destruct (Hg t key (meta_of t o')) as (_ & Ef & Ed). unfold pl_keep. rewrite Ef, Ed. by apply (Hk t key).
Qed.
Lemma harmless_at t0 keys h : (forall o, same_life o (h o)) -> harmless (at_keys t0 keys h).
Proof. intros Hh t key o. unfold at_keys. case_decide; [apply Hh|done]. Qed.

Context (Hserver : responsive W hub_kind).

Lemma at_keys_out t0 keys h t key o : ~ (t = t0 /\ key ∈ keys) -> at_keys t0 keys h t key o = o.
Proof. intros Hn. unfold at_keys. by rewrite decide_False. Qed.
Lemma at_keys_in t0 keys h key o : key ∈ keys -> at_keys t0 keys h t0 key o = h o.
Proof. intros Hk. unfold at_keys. by rewrite decide_True. Qed.

Lemma modify_spec t ns name skip f w : (forall o, same_life o (f o)) -> (forall o, skip o = true -> f o = o) -> kept w ->
  exists w', modify t ns name skip f w = (None, w') /\ rewrites w w' (at_keys t [(ns, name)] f).
Proof.
  intros Hlife Hskip Hkept.
  assert (rewrites w w (at_keys t [(ns, name)] f) -> exists w', (None : option goerror, w) = (None, w') /\ rewrites w w' (at_keys t [(ns, name)] f)) as Hsame.
  { intros Hr. by exists w. }
  unfold modify. match goal with |- context [retry_on_conflict ?g w] => set (F := g) end.
  cut (exists w', F w = (None, w') /\ rewrites w w' (at_keys t [(ns, name)] f)).
  { intros (w' & E & Hr). exists w'. split; [by apply retry_first|done]. }
  subst F. cbn beta. destruct (kobjects w (kind_of t) !! (ns, name)) as [o|] eqn:E.
  - rewrite (kget_present _ _ _ _ Hserver E). destruct (skip (meta_of t o)) eqn:Hs.
    { apply Hsame. eapply rewrites_ext, rewrites_refl. intros t' key o' Ho. cbn.
      destruct (decide (t' = t /\ key ∈ [(ns, name)])) as [[-> ->%list_elem_of_singleton]|Hn]; [|by rewrite at_keys_out].
      rewrite at_keys_in by (by left). pose proof (eq_trans (eq_sym Ho) E) as Eo. injection Eo as ->. by rewrite Hskip. }
    set (new := with_meta t o (f (meta_of t o))). pose proof (kobjects_named _ _ _ _ E) as Hn.
    assert (hub_name (kind_of t) new = (ns, name)) as Hnew.
    { rewrite name_of_meta. subst new. rewrite meta_with_meta. destruct (Hlife (meta_of t o)) as [-> _]. by rewrite <- name_of_meta. }
    assert (hub_keep (kind_of t) new = true) as Hkeep.
    { rewrite keep_of_meta. subst new. rewrite meta_with_meta. destruct (Hlife (meta_of t o)) as (_ & Ef & Ed).
      unfold pl_keep. rewrite Ef, Ed. by apply (Hkept t (ns, name)). }
    destruct Hserver as (_ & _ & _ & Hu & _). destruct (Hu w (kind_of t) new) as [w' U].
    { exists o. change (kobjects w (kind_of t) !! hub_name (kind_of t) new = Some o). by rewrite Hnew. }
    exists w'. rewrite U. split; [done|]. pose proof (kupdate_status _ _ _ _ _ U) as Hst.
    apply (kupdate_insert _ _ _ _ (ns, name)) in U as [Eu K]; [|exact Hnew|exact Hkeep].
    assert (objects_of w' t = <[(ns, name) := new]> (objects_of w t)) as Eo by exact Eu.
    assert (lookup (A := hub_obj (kind_of t)) (ns, name) (objects_of w t) = Some o) as E0 by exact E.
    split; [|split; [intros k Hk; by apply K|done]]. intros t' key. destruct (decide (t' = t)) as [->|Hne].
    + rewrite Eo. destruct (decide (key = (ns, name))) as [->|Hk].
      * rewrite lookup_insert_eq, E0. cbn. by rewrite at_keys_in by (by left).
      * rewrite lookup_insert_ne by done. destruct (objects_of w t !! key); [|done]. cbn.
        rewrite at_keys_out, with_meta_same; [done|]. by intros [_ ?%list_elem_of_singleton].
    + assert (objects_of w' t' = objects_of w t') as -> by (apply K; intros Ek; by apply Hne, kind_of_inj).
      destruct (objects_of w t' !! key); [|done]. cbn. rewrite at_keys_out, with_meta_same by (by intros [? _]). done.
  - rewrite (kget_absent _ _ _ Hserver E). apply Hsame. eapply rewrites_ext, rewrites_refl. intros t' key o' Ho. cbn.
    rewrite at_keys_out; [done|]. intros [-> ->%list_elem_of_singleton]. discriminate (eq_trans (eq_sym Ho) E).
Qed.

(** One call after the other, on objects with different names. *)
Lemma each_spec {A : Type} t (F : A -> W -> option goerror * W) (key : A -> obj_key) h l w :
  NoDup (key <$> l) -> (forall o, same_life o (h o)) -> kept w ->
  (forall x w1, x ∈ l -> kept w1 -> objects_of w1 t !! key x = objects_of w t !! key x ->
     exists w', F x w1 = (None, w') /\ rewrites w1 w' (at_keys t [key x] h)) ->
  exists w', each F l w = (None, w') /\ rewrites w w' (at_keys t (key <$> l) h).
Proof.
  intros Hnd Hlife Hkept HF.
  cut (forall w1, kept w1 -> (forall x, x ∈ l -> objects_of w1 t !! key x = objects_of w t !! key x) ->
    exists w', each F l w1 = (None, w') /\ rewrites w1 w' (at_keys t (key <$> l) h)).
  { intros Hcut. by apply Hcut. }
  induction l as [|x l IH]; intros w1 Hk Hsame; cbn [each fmap list_fmap].
  { exists w1. split; [done|]. eapply rewrites_ext, rewrites_refl. intros t' k o _. cbn. rewrite at_keys_out; [done|].
    by intros [_ ?%elem_of_nil]. }
  rewrite fmap_cons in Hnd. apply NoDup_cons in Hnd as [Hx Hnd].
  destruct (HF x w1) as (w2 & -> & R1); [by left|done|apply Hsame; by left|].
  destruct (IH Hnd ltac:(intros y w3 Hy; apply HF; by right) w2) as (w' & E & R2).
  { eapply kept_rewrites; [|exact R1|done]. by apply harmless_at. }
  { intros y Hy. rewrite <- (Hsame y) by (by right). destruct R1 as (O1 & _). rewrite O1.
    destruct (objects_of w1 t !! key y); [|done]. cbn. rewrite at_keys_out, with_meta_same; [done|].
    intros [_ Ey%list_elem_of_singleton]. apply Hx. rewrite <- Ey. by apply list_elem_of_fmap_2. }
  exists w'. split; [done|]. eapply rewrites_ext, (rewrites_trans _ _ _ _ _ R1 R2). intros t' k o _. cbn.
  destruct (decide (t' = t)) as [->|Hne]; [|by rewrite !at_keys_out by (by intros [? _])].
  destruct (decide (k = key x)) as [->|Hne].
  - rewrite (at_keys_in t [key x]) by (by left). rewrite at_keys_out by (by intros [_ ?]). by rewrite at_keys_in by (by left).
  - rewrite (at_keys_out t [key x]) by (by intros [_ ?%list_elem_of_singleton]).
    destruct (decide (k ∈ key <$> l)) as [Hin|Hin].
    + rewrite !at_keys_in; [done|by right|done].
    + rewrite !at_keys_out; [done|intros [_ [?|?]%elem_of_cons]; done|by intros [_ ?]].
Qed.

(** ** Labels *)
Definition add_label (k v : string) (o : PlainObject) : PlainObject := set_labels o (<[k := v]> (pl_Labels o)).
Definition delete_label (k : string) (o : PlainObject) : PlainObject := set_labels o (delete k (pl_Labels o)).
Definition add_annotation (k v : string) (o : PlainObject) : PlainObject := set_pl_annotations o (<[k := v]> (pl_Annotations o)).

Lemma set_labels_same o l : l = pl_Labels o -> set_labels o l = o.
Proof. intros ->. by destruct o. Qed.
Lemma add_label_same k v o : HasItem (pl_Labels o) k v = true -> add_label k v o = o.
Proof. intros E%bool_decide_eq_true_1. apply set_labels_same. by rewrite insert_id. Qed.
Lemma delete_label_same k o : pl_Labels o !! k = None -> delete_label k o = o.
Proof. intros E. apply set_labels_same. by rewrite delete_id. Qed.
Lemma add_annotation_same k v o : HasItem (pl_Annotations o) k v = true -> add_annotation k v o = o.
Proof. intros E%bool_decide_eq_true_1. unfold add_annotation. rewrite insert_id by done. by destruct o. Qed.

Lemma AddLabel_spec t ns name k v w : kept w ->
  exists w', AddLabel t ns name k v w = (None, w') /\ rewrites w w' (at_keys t [(ns, name)] (add_label k v)).
Proof. intros Hk. apply modify_spec; [done|apply add_label_same|done]. Qed.
Lemma DeleteLabel_spec t ns name k w : kept w ->
  exists w', DeleteLabel t ns name k w = (None, w') /\ rewrites w w' (at_keys t [(ns, name)] (delete_label k)).
Proof.
  intros Hk. apply modify_spec; [done| |done]. intros o Ho%negb_true_iff%bool_decide_eq_false. apply delete_label_same.
  destruct (pl_Labels o !! k) eqn:E; [|done]. by destruct Ho.
Qed.
Lemma AddAnnotation_spec t ns name k v w : kept w ->
  exists w', AddAnnotation t ns name k v w = (None, w') /\ rewrites w w' (at_keys t [(ns, name)] (add_annotation k v)).
Proof. intros Hk. apply modify_spec; [done|apply add_annotation_same|done]. Qed.
Lemma DeleteAnnotation_spec t ns name k w : kept w ->
  exists w', DeleteAnnotation t ns name k w = (None, w') /\
    rewrites w w' (at_keys t [(ns, name)] (fun o => set_pl_annotations o (delete k (pl_Annotations o)))).
Proof.
  intros Hk. apply modify_spec; [done| |done]. intros o Ho%negb_true_iff%bool_decide_eq_false.
  rewrite delete_id by (destruct (pl_Annotations o !! k) eqn:E; [by destruct Ho|done]). by destruct o.
Qed.

(** ** Resources that are listed *)
Definition listed (t : backup_type) (w : W) (l : list PlainObject) : Prop :=
  NoDup (pl_Key <$> l) /\
  forall m, m ∈ l <-> exists o, objects_of w t !! pl_Key m = Some o /\ meta_of t o = m.

Lemma listed_operands w (l : list (kobj KOperand)) : klist w KOperand = Ok l -> listed mghType w (mg_Meta <$> (l : list Operand)).
Proof.
  intros L. pose proof (klist_keys _ _ _ L) as Hnd. pose proof (klist_elem _ _ _ L) as Hin. split.
  - rewrite <- list_fmap_compose. exact Hnd.
  - intros m. rewrite list_elem_of_fmap. split.
    + intros (o & -> & Ho). exists o. split; [exact (proj1 (Hin o) Ho)|done].
    + intros (o & Ho & <-). exists o. split; [done|]. exact (proj2 (Hin o) Ho).
Qed.
Lemma listed_volumes w (l : list (kobj KVolume)) : klist w KVolume = Ok l -> listed pvcType w l.
Proof.
  intros L. pose proof (klist_keys _ _ _ L) as Hnd. pose proof (klist_elem _ _ _ L) as Hin. split; [exact Hnd|].
  intros m. split.
  - intros Hm. exists m. split; [exact (proj1 (Hin m) Hm)|done].
  - intros (o & Ho & <-). exact (proj2 (Hin o) Ho).
Qed.

Lemma NoDup_fmap_filter {A B} (f : A -> B) (P : A -> Prop) `{!forall x, Decision (P x)} l : NoDup (f <$> l) -> NoDup (f <$> filter P l).
Proof.
  induction l as [|x l IH]; [done|]. rewrite fmap_cons, NoDup_cons. intros [Hx Hnd]. rewrite filter_cons. case_decide; [|by apply IH].
  rewrite fmap_cons. apply NoDup_cons. split; [|by apply IH]. intros (y & Ey & [_ Hy]%list_elem_of_filter)%list_elem_of_fmap.
  apply Hx. rewrite Ey. by apply list_elem_of_fmap_2.
Qed.

Lemma listed_each t w l (P : PlainObject -> Prop) `{!forall x, Decision (P x)} F h : listed t w l ->
  (forall o, same_life o (h o)) -> kept w ->
  (forall x w1, P x -> kept w1 -> (exists o, objects_of w1 t !! pl_Key x = Some o /\ meta_of t o = x) ->
     exists w', F x w1 = (None, w') /\ rewrites w1 w' (at_keys t [pl_Key x] h)) ->
  exists w', each F (filter P l) w = (None, w') /\
    rewrites w w' (fun t' _ o => if decide (t' = t /\ P o) then h o else o).
Proof.
  intros [Hnd Hin] Hlife Hkept HF. destruct (each_spec t F pl_Key h (filter P l) w) as (w' & E & R); [|done|done| |].
  - by apply NoDup_fmap_filter.
  - intros x w1 [HP Hx]%list_elem_of_filter Hk Hsame. apply HF; [done|done|]. apply Hin in Hx as (o & Ho & Em).
    exists o. by rewrite Hsame.
  - exists w'. split; [done|]. eapply rewrites_ext, R. intros t' key o Ho. cbn. pose proof (kobjects_named _ _ _ _ Ho) as Hn.
    change (hub_name (kind_of t') o = key) in Hn. rewrite name_of_meta in Hn.
    destruct (decide (t' = t /\ P (meta_of t' o))) as [[-> HP]|Hno].
    + apply at_keys_in. rewrite <- Hn. apply list_elem_of_fmap_2, list_elem_of_filter. split; [done|]. apply Hin.
      exists o. by rewrite Hn.
    + apply at_keys_out. intros [-> (m & Em & [HP Hm]%list_elem_of_filter)%list_elem_of_fmap]. apply Hno. split; [done|].
      apply Hin in Hm as (o' & Ho' & <-). rewrite <- Em in Ho'. rewrite Ho in Ho'. by injection Ho' as <-.
Qed.

(** ** All resources of a type *)
Context `{AggregateLaws}.
Context (secretOrder : list string) (typeOrder : list backup_type) (no_kind : goerror -> bool) (now : Z).
Context (Hsecrets : secretOrder ≡ₚ secretList) (Htypes : typeOrder ≡ₚ [secretType; configmapType; mghType; pvcType]).

Definition volume_added (o : PlainObject) : PlainObject :=
  add_label BackupVolumnKey BackupGlobalHubValue
    (if HasItem (pl_Labels o) BackupPvcUserCopyTrigger BackupGlobalHubValue then o
     else add_annotation BackupPvcUserCopyTrigger BackupGlobalHubValue o).
Definition volume_deleted (o : PlainObject) : PlainObject :=
  delete_label BackupVolumnKey
    (if decide (is_Some (pl_Labels o !! BackupPvcUserCopyTrigger))
     then set_pl_annotations o (delete BackupPvcUserCopyTrigger (pl_Annotations o)) else o).
Definition of_database (o : PlainObject) : Prop := pl_Labels o !! PostgresPvcLabelKey = Some PostgresPvcLabelValue.
Definition names_of (t : backup_type) : list string :=
  match t with secretType => secretList | configmapType => configmapList | _ => [] end.

(** The resource [o] of the type [t] with the label, and without it. *)
Definition added (ns : string) (t : backup_type) (o : PlainObject) : PlainObject :=
  if decide ((pl_Key o).1 = ns) then
    match t with
    | secretType | configmapType => if decide ((pl_Key o).2 ∈ names_of t) then add_label BackupKey BackupGlobalHubValue o else o
    | mghType => add_label BackupKey BackupActivationValue o
    | pvcType => if decide (of_database o) then volume_added o else o
    end
  else o.
Definition deleted (ns : string) (t : backup_type) (o : PlainObject) : PlainObject :=
  if decide ((pl_Key o).1 = ns) then
    match t with
    | secretType | configmapType => if decide ((pl_Key o).2 ∈ names_of t) then delete_label BackupKey o else o
    | mghType => if HasItem (pl_Labels o) BackupKey BackupActivationValue then delete_label BackupKey o else o
    | pvcType =>
        if decide (of_database o) then
          if HasItem (pl_Labels o) BackupVolumnKey BackupGlobalHubValue then volume_deleted o else o
        else o
    end
  else o.

Lemma same_life_refl o : same_life o o.
Proof. done. Qed.
Lemma added_life ns t o : same_life o (added ns t o).
Proof.
  unfold added, volume_added. destruct (decide ((pl_Key o).1 = ns)); [|done]. destruct t; try done; [by case_decide..|].
  case_decide; [|done]. by destruct (HasItem _ _ _).
Qed.
Lemma deleted_life ns t o : same_life o (deleted ns t o).
Proof.
  unfold deleted, volume_deleted. destruct (decide ((pl_Key o).1 = ns)); [|done]. destruct t; try done; [by case_decide..| |].
  - by destruct (HasItem _ _ _).
  - case_decide; [|done]. destruct (HasItem _ _ _); [|done]. by case_decide.
Qed.
Lemma volume_added_life o : same_life o (volume_added o).
Proof. unfold volume_added. by destruct (HasItem _ _ _). Qed.
Lemma volume_deleted_life o : same_life o (volume_deleted o).
Proof. unfold volume_deleted. by case_decide. Qed.

(** Resources that are listed by their names. *)
Lemma named_each t (F : string -> W -> option goerror * W) h ns names w : NoDup names -> (forall o, same_life o (h o)) -> kept w ->
  (forall name w1, kept w1 -> exists w', F name w1 = (None, w') /\ rewrites w1 w' (at_keys t [(ns, name)] h)) ->
  exists w', each F names w = (None, w') /\
    rewrites w w' (fun t' _ o => if decide (t' = t) then (if decide ((pl_Key o).1 = ns) then
      (if decide ((pl_Key o).2 ∈ names) then h o else o) else o) else o).
Proof.
  intros Hnd Hlife Hkept HF. destruct (each_spec t F (pair ns) h names w) as (w' & E & R); [|done|done| |].
  - apply NoDup_fmap; [|done]. by intros a b [= ->].
  - intros x w1 _ Hk _. by apply HF.
  - exists w'. split; [done|]. eapply rewrites_ext, R. intros t' key o Ho. cbn. pose proof (kobjects_named _ _ _ _ Ho) as Hn.
    change (hub_name (kind_of t') o = key) in Hn. rewrite name_of_meta in Hn. rewrite Hn.
    destruct (decide (t' = t)) as [->|Hne]; [|apply at_keys_out; by intros [? _]].
    destruct key as [ns' name]. cbn [fst snd]. destruct (decide (ns' = ns)) as [->|Hne].
    + destruct (decide (name ∈ names)) as [Hin|Hin]; [apply at_keys_in; by apply list_elem_of_fmap_2|].
      apply at_keys_out. intros [_ (x & [= <-] & Hx)%list_elem_of_fmap]. done.
    + apply at_keys_out. intros [_ (x & [= <-] & Hx)%list_elem_of_fmap]. done.
Qed.

Lemma secretList_NoDup : NoDup secretList.
Proof. apply (bool_decide_unpack _). by vm_compute. Qed.
Lemma configmapList_NoDup : NoDup configmapList.
Proof. apply NoDup_singleton. Qed.

Lemma two_steps t key h1 h2 h x w w1 w2 :
  (exists o, objects_of w t !! key = Some o /\ meta_of t o = x) -> h2 (h1 x) = h x ->
  rewrites w w1 (at_keys t [key] h1) -> rewrites w1 w2 (at_keys t [key] h2) -> rewrites w w2 (at_keys t [key] h).
Proof.
  intros (o & Ho & Ex) Hh R1 R2. eapply rewrites_ext, (rewrites_trans _ _ _ _ _ R1 R2). intros t' k o' Ho'. cbn.
  destruct (decide (t' = t /\ k ∈ [key])) as [[-> ->%list_elem_of_singleton]|Hn]; [|by rewrite !at_keys_out].
  rewrite !at_keys_in by (by left). rewrite Ho in Ho'. injection Ho' as <-. by rewrite Ex.
Qed.

(** A step that may be skipped. *)
Lemma step_if (b : bool) t key h (F : W -> option goerror * W) w : kept w ->
  (kept w -> exists w', F w = (None, w') /\ rewrites w w' (at_keys t [key] h)) ->
  exists w', (if b then F w else (None, w)) = (None, w') /\ rewrites w w' (at_keys t [key] (if b then h else id)).
Proof.
  intros Hk HF. destruct b; [by apply HF|]. exists w. split; [done|]. eapply rewrites_ext, rewrites_refl.
  intros t' k o _. unfold at_keys. by case_decide.
Qed.

Lemma pvc_add_spec ns x w : (pl_Key x).1 = ns -> kept w ->
  (exists o, objects_of w pvcType !! pl_Key x = Some o /\ meta_of pvcType o = x) ->
  exists w', pvc_add ns x w = (None, w') /\ rewrites w w' (at_keys pvcType [pl_Key x] volume_added).
Proof.
  intros Hns Hk Hx. assert (pl_Key x = (ns, (pl_Key x).2)) as Ek by (rewrite <- Hns; by destruct (pl_Key x)). unfold pvc_add.
  destruct (step_if (negb (HasItem (pl_Labels x) BackupPvcUserCopyTrigger (labelValue pvcType))) pvcType (pl_Key x) _ _ w Hk
    (fun Hk => ltac:(rewrite Ek; exact (AddAnnotation_spec pvcType ns (pl_Key x).2 BackupPvcUserCopyTrigger (labelValue pvcType) w Hk))))
    as (w1 & E1 & R1).
  cbn [fst snd] in *. rewrite E1.
  assert (kept w1) as Hk1 by (eapply kept_rewrites; [|exact R1|done]; apply harmless_at; by destruct (negb _)).
  destruct (step_if (negb (HasItem (pl_Labels x) (labelKey pvcType) (labelValue pvcType))) pvcType (pl_Key x) _ _ w1 Hk1
    (fun Hk => ltac:(rewrite Ek; exact (AddLabel_spec pvcType ns (pl_Key x).2 (labelKey pvcType) (labelValue pvcType) w1 Hk))))
    as (w2 & E2 & R2).
  cbn [fst snd] in *. rewrite E2. exists w2. split; [done|]. eapply two_steps; [exact Hx| |exact R1|exact R2].
  unfold volume_added. cbn [labelKey labelValue].
  destruct (HasItem (pl_Labels x) BackupPvcUserCopyTrigger BackupGlobalHubValue); cbn [negb id];
    destruct (HasItem (pl_Labels x) BackupVolumnKey BackupGlobalHubValue) eqn:E; cbn [negb id]; try done;
    symmetry; by apply add_label_same.
Qed.

Lemma pvc_delete_spec ns x w : (pl_Key x).1 = ns -> kept w -> HasItem (pl_Labels x) BackupVolumnKey BackupGlobalHubValue = true ->
  (exists o, objects_of w pvcType !! pl_Key x = Some o /\ meta_of pvcType o = x) ->
  exists w', pvc_delete ns x w = (None, w') /\ rewrites w w' (at_keys pvcType [pl_Key x] volume_deleted).
Proof.
  intros Hns Hk Hlabel Hx. assert (pl_Key x = (ns, (pl_Key x).2)) as Ek by (rewrite <- Hns; by destruct (pl_Key x)).
  unfold pvc_delete. cbn [labelKey labelValue]. rewrite Hlabel.
  destruct (step_if (bool_decide (is_Some (pl_Labels x !! BackupPvcUserCopyTrigger))) pvcType (pl_Key x) _ _ w Hk
    (fun Hk => ltac:(rewrite Ek; exact (DeleteAnnotation_spec pvcType ns (pl_Key x).2 BackupPvcUserCopyTrigger w Hk)))) as (w1 & E1 & R1).
  cbn [fst snd] in *. rewrite E1.
  assert (kept w1) as Hk1 by (eapply kept_rewrites; [|exact R1|done]; apply harmless_at; by destruct (bool_decide _)).
  destruct (DeleteLabel_spec pvcType ns (pl_Key x).2 BackupVolumnKey w1 Hk1) as (w2 & E2 & R2). rewrite E2. exists w2.
  split; [done|]. rewrite <- Ek in R2. eapply two_steps; [exact Hx| |exact R1|exact R2].
  unfold volume_deleted. case_bool_decide; [by rewrite decide_True|by rewrite decide_False].
Qed.

(** [only t g]: the resources of the type [t] are rewritten. *)
Definition only (t : backup_type) (g : backup_type -> PlainObject -> PlainObject) : rewriting :=
  fun t' _ o => if decide (t' = t) then g t' o else o.

Lemma names_only t (F : string -> W -> option goerror * W) h ns names w (g : backup_type -> PlainObject -> PlainObject) :
  NoDup names -> names ≡ₚ names_of t -> (forall o, same_life o (h o)) -> kept w ->
  (forall o, g t o = if decide ((pl_Key o).1 = ns) then (if decide ((pl_Key o).2 ∈ names_of t) then h o else o) else o) ->
  (forall name w1, kept w1 -> exists w', F name w1 = (None, w') /\ rewrites w1 w' (at_keys t [(ns, name)] h)) ->
  exists w', each F names w = (None, w') /\ rewrites w w' (only t g).
Proof.
  intros Hnd Hp Hlife Hkept Hg HF. destruct (named_each t F h ns names w Hnd Hlife Hkept HF) as (w' & E & R).
  exists w'. split; [done|]. eapply rewrites_ext, R. intros t' key o _. cbn. unfold only.
  destruct (decide (t' = t)) as [->|]; [|done]. rewrite Hg. destruct (decide ((pl_Key (meta_of t o)).1 = ns)); [|done].
  destruct (decide (_ ∈ names)) as [Hin|Hin]; rewrite Hp in Hin; [by rewrite decide_True|by rewrite decide_False].
Qed.

Lemma listed_only t w l (P : PlainObject -> Prop) `{!forall x, Decision (P x)} F h (g : backup_type -> PlainObject -> PlainObject) :
  listed t w l -> (forall o, same_life o (h o)) -> kept w ->
  (forall o, g t o = if decide (P o) then h o else o) ->
  (forall x w1, P x -> kept w1 -> (exists o, objects_of w1 t !! pl_Key x = Some o /\ meta_of t o = x) ->
     exists w', F x w1 = (None, w') /\ rewrites w1 w' (at_keys t [pl_Key x] h)) ->
  exists w', each F (filter P l) w = (None, w') /\ rewrites w w' (only t g).
Proof.
  intros Hl Hlife Hkept Hg HF. destruct (listed_each t w l P F h Hl Hlife Hkept HF) as (w' & E & R). exists w'. split; [done|].
  eapply rewrites_ext, R. intros t' key o _. cbn. unfold only. destruct (decide (t' = t)) as [->|Hne].
  - rewrite Hg. destruct (decide (P (meta_of t o))) as [HP|HP]; [by rewrite decide_True|rewrite decide_False; [done|by intros [_ ?]]].
  - rewrite decide_False; [done|by intros [? _]].
Qed.

Lemma AddLabelToAllObjs_spec ns t w : kept w ->
  exists w', AddLabelToAllObjs secretOrder t ns w = (None, w') /\ rewrites w w' (only t (added ns)).
Proof.
  intros Hk. destruct Hserver as (_ & Hlist & _). destruct t; cbn [AddLabelToAllObjs].
  - eapply (names_only secretType _ (add_label BackupKey BackupGlobalHubValue) ns); [rewrite Hsecrets; apply secretList_NoDup|done|by intros o|done| |].
    + intros o. unfold added. reflexivity.
    + intros name w1. apply AddLabel_spec.
  - eapply (names_only configmapType _ (add_label BackupKey BackupGlobalHubValue) ns); [apply configmapList_NoDup|done|by intros o|done| |].
    + intros o. unfold added. reflexivity.
    + intros name w1. apply AddLabel_spec.
  - unfold mgh_AddLabelToAllObjs. destruct (Hlist w KOperand) as [items L]. rewrite L. unfold in_namespace. rewrite list_filter_filter.
    eapply (listed_only mghType w _ _ _ (add_label BackupKey BackupActivationValue)); [by apply listed_operands|by intros o|done| |].
    + intros o. unfold added. destruct (decide ((pl_Key o).1 = ns)) as [Hns|Hns]; [|rewrite decide_False; [done|by intros [_ ?]]].
      destruct (HasItem (pl_Labels o) BackupKey BackupActivationValue) eqn:E.
      * rewrite decide_False by (cbn; rewrite E; by intros [? _]). by apply add_label_same.
      * by rewrite decide_True by (by split).
    + intros x w1 [_ Hns] Hk1 _. destruct (AddLabel_spec mghType ns (pl_Key x).2 (labelKey mghType) (labelValue mghType) w1 Hk1)
        as (w' & E & R). exists w'. split; [done|]. by replace (pl_Key x) with (ns, (pl_Key x).2) by (rewrite <- Hns; by destruct (pl_Key x)).
  - unfold pvc_AddLabelToAllObjs. destruct (Hlist w KVolume) as [items L]. rewrite L. unfold in_namespace. rewrite list_filter_filter.
    eapply (listed_only pvcType w _ _ _ volume_added); [by apply listed_volumes|apply volume_added_life|done| |].
    + intros o. unfold added, of_database. destruct (decide ((pl_Key o).1 = ns)) as [Hns|Hns]; [|rewrite decide_False; [done|by intros [_ ?]]].
      destruct (decide (pl_Labels o !! PostgresPvcLabelKey = Some PostgresPvcLabelValue)) as [Hd|Hd];
        [by rewrite decide_True by (by split)|rewrite decide_False; [done|by intros [? _]]].
    + intros x w1 [_ Hns] Hk1 Hx. by apply pvc_add_spec.
Qed.

Lemma DeleteLabelOfAllObjs_spec ns t w : kept w ->
  exists w', DeleteLabelOfAllObjs secretOrder t ns w = (None, w') /\ rewrites w w' (only t (deleted ns)).
Proof.
  intros Hk. destruct Hserver as (_ & Hlist & _). destruct t; cbn [DeleteLabelOfAllObjs].
  - eapply (names_only secretType _ (delete_label BackupKey) ns); [rewrite Hsecrets; apply secretList_NoDup|done|by intros o|done| |].
    + intros o. unfold deleted. reflexivity.
    + intros name w1. apply DeleteLabel_spec.
  - eapply (names_only configmapType _ (delete_label BackupKey) ns); [apply configmapList_NoDup|done|by intros o|done| |].
    + intros o. unfold deleted. reflexivity.
    + intros name w1. apply DeleteLabel_spec.
  - unfold mgh_DeleteLabelOfAllObjs. destruct (Hlist w KOperand) as [items L]. rewrite L. unfold in_namespace. rewrite list_filter_filter.
    eapply (listed_only mghType w _ _ _ (delete_label BackupKey)); [by apply listed_operands|by intros o|done| |].
    + intros o. unfold deleted. destruct (decide ((pl_Key o).1 = ns)) as [Hns|Hns]; [|rewrite decide_False; [done|by intros [_ ?]]].
      destruct (HasItem (pl_Labels o) BackupKey BackupActivationValue) eqn:E.
      * by rewrite decide_True by (by split).
      * rewrite decide_False by (cbn; rewrite E; by intros [? _]). done.
    + intros x w1 [_ Hns] Hk1 _. destruct (DeleteLabel_spec mghType ns (pl_Key x).2 (labelKey mghType) w1 Hk1) as (w' & E & R).
      exists w'. split; [done|]. by replace (pl_Key x) with (ns, (pl_Key x).2) by (rewrite <- Hns; by destruct (pl_Key x)).
  - unfold pvc_DeleteLabelOfAllObjs. destruct (Hlist w KVolume) as [items L]. rewrite L. unfold in_namespace. rewrite list_filter_filter.
    eapply (listed_only pvcType w _ _ _ volume_deleted); [by apply listed_volumes|apply volume_deleted_life|done| |].
    + intros o. unfold deleted, of_database, HasItem. cbn [labelKey labelValue].
      destruct (decide ((pl_Key o).1 = ns)) as [Hns|Hns]; [|rewrite decide_False; [done|by intros [_ ?]]].
      destruct (decide (pl_Labels o !! PostgresPvcLabelKey = Some PostgresPvcLabelValue)) as [Hd|Hd];
        [|rewrite decide_False; [done|by intros [[? _] _]]].
      case_bool_decide as Hb; [by rewrite decide_True|rewrite decide_False; [done|by intros [[_ ?] _]]].
    + intros x w1 [[_ Hb] Hns] Hk1 Hx. apply pvc_delete_spec; try done. by apply bool_decide_eq_true_2.
Qed.

(** ** Every type *)
Lemma all_types_spec (f : backup_type -> W -> option goerror * W) (g : backup_type -> PlainObject -> PlainObject) types w :
  NoDup types -> (forall t o, same_life o (g t o)) -> kept w ->
  (forall t w1, kept w1 -> exists w', f t w1 = (None, w') /\ rewrites w1 w' (only t g)) ->
  exists w', all_types f types w = ([], w') /\ rewrites w w' (fun t _ o => if decide (t ∈ types) then g t o else o).
Proof.
  intros Hnd Hlife Hk Hf. revert w Hk. induction types as [|t types IH]; intros w Hk; cbn [all_types].
  { exists w. split; [done|]. eapply rewrites_ext, rewrites_refl. intros t key o _. cbn. by rewrite decide_False by apply not_elem_of_nil. }
  apply NoDup_cons in Hnd as [Ht Hnd]. destruct (Hf t w Hk) as (w1 & -> & R1). destruct (IH Hnd w1) as (w2 & -> & R2).
  { eapply kept_rewrites; [|exact R1|done]. intros t' key o. unfold only. case_decide; [apply Hlife|done]. }
  exists w2. split; [done|]. eapply rewrites_ext, (rewrites_trans _ _ _ _ _ R1 R2). intros t' key o _. cbn. unfold only.
  destruct (decide (t' = t)) as [->|Hne].
  - rewrite (decide_False (P := t ∈ types)) by done. by rewrite decide_True by (by left).
  - destruct (decide (t' ∈ types)) as [Hin|Hin]; [by rewrite decide_True by (by right)|].
    rewrite decide_False; [done|]. by intros [?|?]%elem_of_cons.
Qed.

Lemma typeOrder_all t : t ∈ typeOrder.
Proof. rewrite Htypes. destruct t; repeat first [by left|right]. Qed.
Lemma typeOrder_NoDup : NoDup typeOrder.
Proof. rewrite Htypes. apply (bool_decide_unpack _). by vm_compute. Qed.

Lemma every_type (f : backup_type -> W -> option goerror * W) (g : backup_type -> PlainObject -> PlainObject) w :
  (forall t o, same_life o (g t o)) -> kept w ->
  (forall t w1, kept w1 -> exists w', f t w1 = (None, w') /\ rewrites w1 w' (only t g)) ->
  exists w', (let '(errs, w') := all_types f typeOrder w in (NewAggregate errs, w')) = (None, w') /\ rewrites w w' (fun t _ o => g t o).
Proof.
  intros Hlife Hk Hf. destruct (all_types_spec f g typeOrder w typeOrder_NoDup Hlife Hk Hf) as (w' & -> & R).
  exists w'. split; [by rewrite (proj2 (NewAggregate_None []))|]. eapply rewrites_ext, R. intros t key o _. cbn.
  by rewrite decide_True by apply typeOrder_all.
Qed.

Lemma addLableToAllResources_spec ns w : kept w ->
  exists w', addLableToAllResources secretOrder typeOrder ns w = (None, w') /\ rewrites w w' (fun t _ o => added ns t o).
Proof. intros Hk. apply every_type; [apply added_life|done|]. intros t w1. apply AddLabelToAllObjs_spec. Qed.
Lemma deleteLableOfAllResources_spec ns w : kept w ->
  exists w', deleteLableOfAllResources secretOrder typeOrder ns w = (None, w') /\ rewrites w w' (fun t _ o => deleted ns t o).
Proof. intros Hk. apply every_type; [apply deleted_life|done|]. intros t w1. apply DeleteLabelOfAllObjs_spec. Qed.

Lemma IsStatusConditionTrue_of l t c : condition_of t l = Some c -> IsStatusConditionTrue l t = String.eqb (c_Status c) CONDITION_STATUS_TRUE.
Proof.
  induction l as [|x l IH]; [done|]. rewrite condition_of_cons. cbn [IsStatusConditionTrue].
  destruct (String.eqb_spec (c_Type x) t); [by rewrite decide_True by done; intros [= ->]|by rewrite decide_False].
Qed.

Lemma addBackupCondition_spec key err w w' : addBackupCondition now key err w = (None, w') ->
  kobjects w' = kobjects w /\ IsStatusConditionTrue (st_Conditions (status_of w' key)) CONDITION_TYPE_BACKUP = true.
Proof.
  unfold addBackupCondition. intros (Ek & _ & Ec & _)%UpdateCondition_spec. split; [done|]. rewrite Ec.
  destruct (NeedUpdateConditions now _ _) as [b l] eqn:N. apply NeedUpdateConditions_spec in N as ((c & Hc & _ & Es & _) & _).
  cbn [snd c_Type] in *. rewrite (IsStatusConditionTrue_of _ _ _ Hc), Es. done.
Qed.

(** C13: when the backup is enabled every resource of the global hub gets its label:
    on a server that answers, the first reconciliation labels the known secrets and
    the known config map, the operand and the volumes of the database in the
    namespace of the operand, and no other, records that it did, and a volume that
    was labelled passes the watch of the controller of the volumes in the manager
    when it waits for a trigger and its last copy is that of the last trigger. *)
Theorem backup_labels_every_resource key req mgh (w : W)
    (Hstatus : status_responsive W) (Hkept : kept w)
    (Hoperand : klist w KOperand = Ok [mgh : kobj KOperand]) (Hname : hub_name KOperand mgh = key)
    (Henabled : IsBackupEnabled no_kind w = Ok true)
    (Hfirst : IsStatusConditionTrue (st_Conditions (status_of w key)) CONDITION_TYPE_BACKUP = false) :
  exists w', backup_Reconcile secretOrder typeOrder no_kind now key req w = (None, w') /\
  (forall t n, objects_of w' t !! n = (fun o => with_meta t o (added key.1 t (meta_of t o))) <$> objects_of w t !! n) /\
  (forall k, (forall t, k <> kind_of t) -> kobjects w' k = kobjects w k) /\
  IsStatusConditionTrue (st_Conditions (status_of w' key)) CONDITION_TYPE_BACKUP = true /\
  (forall o, (pl_Key o).1 = key.1 -> of_database o ->
     HasItem (pl_Annotations o) BackupPvcLatestCopyStatus BackupPvcWaitingForTrigger = true ->
     pl_Annotations o !! BackupPvcLatestCopyTrigger = pl_Annotations o !! BackupPvcCopyTrigger ->
     IfPvcNeedBackup (added key.1 pvcType o) = true).
Proof.
  unfold backup_Reconcile. rewrite Hoperand, Hname, Hfirst, Henabled. cbn [negb].
  destruct (addLableToAllResources_spec key.1 w Hkept) as (w1 & -> & O & K & S).
  assert (is_Some (kobjects w1 KOperand !! key)) as Hp.
  { assert (lookup (A := hub_obj (kind_of mghType)) key (objects_of w mghType) = Some mgh) as Ho.
    { rewrite <- Hname. apply (klist_elem _ _ _ Hoperand mgh). by left. }
    specialize (O mghType key). rewrite Ho in O. by eexists. }
  destruct (UpdateCondition_answers now key (MkCondition CONDITION_TYPE_BACKUP CONDITION_STATUS_TRUE "BackupLabelAdded"
    "Added backup label to the global hub resources" 0) "" w1 Hserver Hstatus Hp) as [w' U].
  exists w'. unfold addBackupCondition. split; [exact U|]. apply (addBackupCondition_spec key None) in U as [Ek Hc].
  split; [intros t n; unfold objects_of; rewrite Ek; apply O|]. split; [intros k Hk; rewrite Ek; by apply K|]. split; [exact Hc|].
  intros o Hns Hd Hwait Htrigger. unfold added. rewrite !decide_True by done. unfold IfPvcNeedBackup, volume_added.
  set (o1 := if HasItem _ _ _ then o else _).
  assert (pl_Labels o1 = pl_Labels o /\ forall k, k <> BackupPvcUserCopyTrigger -> pl_Annotations o1 !! k = pl_Annotations o !! k) as [E1 E2].
  { subst o1. destruct (HasItem (pl_Labels o) _ _); (split; [done|]); intros k Hk; [done|]. cbn. by rewrite lookup_insert_ne. }
  cbn [add_label set_labels pl_Labels pl_Annotations]. unfold HasItem in *. rewrite lookup_insert_eq, bool_decide_eq_true_2 by done.
  rewrite !E2 by done. rewrite Hwait, Htrigger. cbn [negb].
  destruct (bool_decide (is_Some _)); [apply String.eqb_refl|done].
Qed.

(** The labels of a backup can be taken back, but for one annotation: after
    the labels of all resources were added and deleted again, every resource that
    had none is as it was, except that the volumes of the database keep the
    annotation of the copies, which is looked for among their labels. *)
Theorem deleted_labels_leave_the_annotation ns (w : W) (Hkept : kept w)
    (Hclean : forall t key o, objects_of w t !! key = Some o -> pl_Labels (meta_of t o) !! labelKey t = None)
    (Hvolumes : forall key o, objects_of w pvcType !! key = Some o -> pl_Labels (meta_of pvcType o) !! BackupPvcUserCopyTrigger = None) :
  exists w1 w2, addLableToAllResources secretOrder typeOrder ns w = (None, w1) /\
  deleteLableOfAllResources secretOrder typeOrder ns w1 = (None, w2) /\
  (forall t key, t <> pvcType -> objects_of w2 t !! key = objects_of w t !! key) /\
  (forall key, objects_of w2 pvcType !! key =
     (fun o => if decide ((pl_Key (meta_of pvcType o)).1 = ns /\ of_database (meta_of pvcType o))
               then with_meta pvcType o (add_annotation BackupPvcUserCopyTrigger BackupGlobalHubValue (meta_of pvcType o)) else o) <$>
     objects_of w pvcType !! key) /\
  (forall k, (forall t, k <> kind_of t) -> kobjects w2 k = kobjects w k).
Proof.
  destruct (addLableToAllResources_spec ns w Hkept) as (w1 & E1 & R1).
  destruct (deleteLableOfAllResources_spec ns w1) as (w2 & E2 & R2).
  { eapply kept_rewrites; [|exact R1|done]. intros t key o. apply added_life. }
  exists w1, w2. split; [done|]. split; [done|]. destruct (rewrites_trans _ _ _ _ _ R1 R2) as (O & K & _). split; [|split; [|exact K]].
  - intros t key Ht. rewrite O. destruct (objects_of w t !! key) as [o|] eqn:Eo; [|done]. cbn. specialize (Hclean t key o Eo).
    enough (deleted ns t (added ns t (meta_of t o)) = meta_of t o) as -> by (by rewrite with_meta_same).
    generalize dependent (meta_of t o). intros m Hm. unfold deleted. destruct (added_life ns t m) as (-> & _). unfold added.
    destruct (decide ((pl_Key m).1 = ns)); [|done].
    assert (forall v, delete_label BackupKey (add_label BackupKey v m) = m \/ t = pvcType) as Hback.
    { intros v. destruct t; [left..|by right]; unfold delete_label; cbn; rewrite delete_insert_id by exact Hm; by destruct m. }
    destruct t; try done.
    + case_decide; [|done]. by destruct (Hback BackupGlobalHubValue).
    + case_decide; [|done]. by destruct (Hback BackupGlobalHubValue).
    + unfold HasItem. cbn [add_label set_labels pl_Labels]. rewrite lookup_insert_eq, bool_decide_eq_true_2 by done.
      by destruct (Hback BackupActivationValue).
  - intros key. rewrite O. destruct (objects_of w pvcType !! key) as [o|] eqn:Eo; [|done]. cbn.
    specialize (Hclean pvcType key o Eo). specialize (Hvolumes key o Eo). cbn in Hclean, Hvolumes. f_equal.
    unfold deleted. destruct (added_life ns pvcType o) as (-> & _). unfold added.
    destruct (decide ((pl_Key o).1 = ns)) as [Hns|Hns]; [|rewrite decide_False; [done|by intros [? _]]].
    destruct (decide (of_database o)) as [Hd|Hd].
    + set (o1 := add_annotation BackupPvcUserCopyTrigger BackupGlobalHubValue o).
      assert (volume_added o = add_label BackupVolumnKey BackupGlobalHubValue o1) as ->.
      { unfold volume_added. unfold HasItem. by rewrite Hvolumes. }
      assert (of_database (add_label BackupVolumnKey BackupGlobalHubValue o1)) as Hd'.
      { unfold of_database. cbn. by rewrite lookup_insert_ne. }
      rewrite !decide_True by done. unfold HasItem. cbn [add_label set_labels pl_Labels].
      rewrite lookup_insert_eq, bool_decide_eq_true_2 by done. unfold volume_deleted. rewrite decide_False.
      * unfold delete_label. cbn. by rewrite delete_insert_id by exact Hclean.
      * cbn. rewrite lookup_insert_ne by done. rewrite Hvolumes. by intros [? ?].
    + rewrite !decide_False; [done|by intros [_ ?]|done].
Qed.
End Facts.

(** ** Failures *)
Section Failures.
Context {W : Type} `{!KubeClient W hub_kind} `{!StatusClient W} `{!KubeServer W hub_kind} `{!StatusServer W} `{RetrierLaws}.
Context `{Aggregate} (secretOrder : list string) (typeOrder : list backup_type) (no_kind : goerror -> bool) (now : Z).

(** Labels that could not be added count as added: whatever failed, a first
    reconciliation that ends without an error has recorded that the labels are
    there, so that they are never added to all resources again, and a later
    request of the operand, whose namespace is not the name of a type, changes
    nothing. *)
Theorem labels_that_failed_count_as_added key req req' mgh mgh' rest rest' (w w' : W)
    (Hoperand : klist w KOperand = Ok (mgh :: rest)) (Henabled : IsBackupEnabled no_kind w = Ok true)
    (Hfirst : IsStatusConditionTrue (st_Conditions (status_of w (hub_name KOperand mgh))) CONDITION_TYPE_BACKUP = false)
    (Hrun : backup_Reconcile secretOrder typeOrder no_kind now key req w = (None, w'))
    (Hlater : klist w' KOperand = Ok (mgh' :: rest')) (Hsame : hub_name KOperand mgh' = hub_name KOperand mgh)
    (Hstill : IsBackupEnabled no_kind w' = Ok true)
    (Hreq : type_of_request req'.1 = None) :
  IsStatusConditionTrue (st_Conditions (status_of w' (hub_name KOperand mgh))) CONDITION_TYPE_BACKUP = true /\
  backup_Reconcile secretOrder typeOrder no_kind now key req' w' = (None, w').
Proof.
  unfold backup_Reconcile in Hrun. rewrite Hoperand, Henabled, Hfirst in Hrun. cbn [negb] in Hrun.
  destruct (addLableToAllResources secretOrder typeOrder key.1 w) as [err w1]. apply addBackupCondition_spec in Hrun as [_ Hc].
  split; [exact Hc|]. unfold backup_Reconcile. rewrite Hlater, Hsame, Hstill, Hc. cbn [negb]. by rewrite Hreq.
Qed.

(** ** The copy of the volume *)
Context `{PollerLaws} `{!DatabaseLocks W} (meanwhile : W -> W).

(** A copy of a volume is complete when the manager says so: a reconciliation
    without an error, while the backup is enabled, has seen under the lock of the
    database that the copy which it triggered itself was completed; whatever
    happened after the lock was taken, it was given back. *)
Theorem triggered_copy_is_complete req triggerTime (w : W) err w'
    (Henabled : IsBackupEnabled no_kind w = Ok true)
    (Hrun : volume_Reconcile no_kind meanwhile req triggerTime w = (err, w')) :
  match db_lock (set_backup_enabled true w) with
  | (Some e, w2) => err = Some e /\ w' = w2
  | (None, w2) => exists w3, w' = db_unlock w3 /\ trigger_copy meanwhile req triggerTime w2 = (err, w3) /\
      (err = None -> exists pvc : kobj KVolume, kobjects w3 KVolume !! req = Some pvc /\
         pl_Annotations pvc !! BackupPvcLatestCopyStatus = Some BackupPvcCompletedTrigger /\
         pl_Annotations pvc !! BackupPvcLatestCopyTrigger = Some (dots triggerTime))
  end.
Proof.
  unfold volume_Reconcile in Hrun. rewrite Henabled in Hrun. cbn [negb] in Hrun.
  destruct (db_lock (set_backup_enabled true w)) as [[e|] w2]; [by injection Hrun as <- <-|].
  destruct (trigger_copy meanwhile req triggerTime w2) as [err' w3] eqn:E. injection Hrun as -> <-.
  exists w3. split; [done|]. split; [done|]. intros ->. unfold trigger_copy in E.
  destruct (kget w2 KVolume req) as [pvc| |e]; [|done..].
  destruct (AddAnnotation _ _ _ _ _ w2) as [[e|] w4]; [done|].
  pose proof (poll_spec (copy_done meanwhile req (dots triggerTime)) w4) as P. rewrite E in P. cbn [fst snd] in P.
  apply (polled_None _ (fun _ => True)) in P as (w5 & _ & Hd); [|done|done]. unfold copy_done in Hd.
  destruct (kget (meanwhile w5) KVolume req) as [o| |e] eqn:G; [|done..]. injection Hd as Hb Ew. subst w3.
  apply kget_Found in G. exists o. split; [exact G|]. apply andb_true_iff in Hb as [H1'%bool_decide_eq_true_1 H2'%bool_decide_eq_true_1].
  done.
Qed.
End Failures.

(** ** An operator and a manager with a volume *)
Module Sample.
#[export] Instance retrier : Retrier := retrier_of 5 (String.eqb "conflict").
#[export] Instance retrier_laws : RetrierLaws := retrier_of_laws 5 (String.eqb "conflict").
#[export] Instance poller : Poller := poller_of 3.
#[export] Instance poller_laws : PollerLaws := poller_of_laws 3.
#[export] Instance first_error : Aggregate := {| NewAggregate := head |}.
#[export] Instance first_error_laws : AggregateLaws.
Proof. split. by intros []. Qed.

Definition operand : Operand := MkOperand (MkPlain ("mgh", "hub") ∅ ∅ [] false) true.
Definition secret : PlainObject := MkPlain ("mgh", "multicluster-global-hub-transport") ∅ ∅ [] false.
Definition volume : PlainObject := MkPlain ("mgh", "postgres-data")
  {[PostgresPvcLabelKey := PostgresPvcLabelValue]} {[BackupPvcLatestCopyStatus := BackupPvcWaitingForTrigger]} [] false.
Definition objects : kstore (K := hub_kind) := fun k =>
  match k with
  | KOperand => {[("mgh", "hub") := operand]}
  | KSecret => {[pl_Key secret := secret]}
  | KVolume => {[pl_Key volume := volume]}
  | KAcmHub => {[("acm", "hub") := MkAcmHub ("acm", "hub") (Some [("cluster-backup", true)])]}
  | _ => ∅
  end.
Definition server : hub_store := (objects, fun _ => MkStatus [] None "").
Definition types : list backup_type := [pvcType; mghType; secretType; configmapType].
Definition none_missing (e : goerror) : bool := false.

Lemma types_all : types ≡ₚ [secretType; configmapType; mghType; pvcType].
Proof. apply (bool_decide_unpack _). by vm_compute. Qed.
Lemma server_kept : kept server.
Proof.
  assert (forall t, map_Forall (fun _ o => pl_keep (meta_of t o) = true) (objects_of server t)) as Hall.
  { intros []; apply (bool_decide_unpack _); by vm_compute. }
  intros t key o Ho. exact (Hall t key o Ho).
Qed.
Lemma operands_listed : klist server KOperand = Ok [operand : kobj KOperand].
Proof. vm_compute. reflexivity. Qed.
Lemma backup_enabled : IsBackupEnabled none_missing server = Ok true.
Proof. vm_compute. reflexivity. Qed.

Lemma backup_labels_every_resource_witness :
  exists w', backup_Reconcile secretList types none_missing 5 ("mgh", "hub") ("", "") server = (None, w') /\
    IfPvcNeedBackup (added "mgh" pvcType volume) = true.
Proof.
  destruct (backup_labels_every_resource hub_responsive secretList types none_missing 5 (Permutation_refl _) types_all
    ("mgh", "hub") ("", "") operand server hub_status_responsive server_kept operands_listed eq_refl backup_enabled eq_refl)
    as (w' & E & _ & _ & _ & Hv).
  exists w'. split; [exact E|]. exact (Hv volume eq_refl eq_refl eq_refl eq_refl).
Defined.

Lemma deleted_labels_leave_the_annotation_witness :
  exists w1 w2, addLableToAllResources secretList types "mgh" server = (None, w1) /\
    deleteLableOfAllResources secretList types "mgh" w1 = (None, w2) /\
    objects_of w2 pvcType !! pl_Key volume = Some (add_annotation BackupPvcUserCopyTrigger BackupGlobalHubValue volume).
Proof.
  assert (forall t, map_Forall (fun _ o => pl_Labels (meta_of t o) !! labelKey t = None) (objects_of server t)) as Hclean
    by (intros []; apply (bool_decide_unpack _); vm_compute; reflexivity).
  assert (map_Forall (fun _ o => pl_Labels (meta_of pvcType o) !! BackupPvcUserCopyTrigger = None) (objects_of server pvcType)) as Hv
    by (apply (bool_decide_unpack _); vm_compute; reflexivity).
  destruct (deleted_labels_leave_the_annotation hub_responsive secretList types (Permutation_refl _) types_all "mgh" server server_kept
    (fun t key o Ho => Hclean t key o Ho) (fun key o Ho => Hv key o Ho)) as (w1 & w2 & E1 & E2 & _ & Hvol & _).
  exists w1, w2. split; [exact E1|]. split; [exact E2|]. refine (eq_trans (Hvol _) _). vm_compute. reflexivity.
Defined.

Lemma labels_that_failed_count_as_added_witness :
  exists w', backup_Reconcile secretList types none_missing 5 ("mgh", "hub") ("mgh", "hub") server = (None, w') /\
    backup_Reconcile secretList types none_missing 5 ("mgh", "hub") ("mgh", "hub") w' = (None, w').
Proof.
  destruct (backup_Reconcile secretList types none_missing 5 ("mgh", "hub") ("mgh", "hub") server) as [r w'] eqn:E.
  assert (r = None) as -> by (change r with (r, w').1; rewrite <- E; vm_compute; reflexivity).
  assert (klist w' KOperand = Ok [MkOperand (MkPlain ("mgh", "hub") {[BackupKey := BackupActivationValue]} ∅ [] false) true : kobj KOperand]) as Hl
    by (change w' with (@None goerror, w').2; rewrite <- E; vm_compute; reflexivity).
  assert (IsBackupEnabled none_missing w' = Ok true) as Hb
    by (change w' with (@None goerror, w').2; rewrite <- E; vm_compute; reflexivity).
  exists w'. split; [reflexivity|].
  exact (proj2 (labels_that_failed_count_as_added secretList types none_missing 5 ("mgh", "hub") ("mgh", "hub") ("mgh", "hub") operand _ [] []
    server w' operands_listed backup_enabled eq_refl E Hl eq_refl Hb eq_refl)).
Defined.

(** The lock is free, and the copy is made between two looks. *)
#[export] Instance free_lock : DatabaseLocks hub_store :=
  {| set_backup_enabled := fun _ w => w; db_lock := fun w => (None, w); db_unlock := fun w => w |}.
Definition copied (o : PlainObject) : PlainObject :=
  match pl_Annotations o !! BackupPvcCopyTrigger with
  | Some t => set_pl_annotations o (<[BackupPvcLatestCopyTrigger := t]> (<[BackupPvcLatestCopyStatus := BackupPvcCompletedTrigger]> (pl_Annotations o)))
  | None => o
  end.
Definition volsync (w : hub_store) : hub_store := (kput KVolume (copied <$> (w.1 KVolume : gmap obj_key PlainObject)) w.1, w.2).

Lemma triggered_copy_is_complete_witness :
  exists w', volume_Reconcile none_missing volsync ("mgh", "postgres-data") "10:30" server = (None, w') /\
    exists pvc : kobj KVolume, kobjects w' KVolume !! ("mgh", "postgres-data") = Some pvc /\
      pl_Annotations pvc !! BackupPvcLatestCopyTrigger = Some "10.30".
Proof.
  destruct (volume_Reconcile none_missing volsync ("mgh", "postgres-data") "10:30" server) as [r w'] eqn:E.
  assert (r = None) as -> by (change r with (r, w').1; rewrite <- E; vm_compute; reflexivity).
  exists w'. split; [reflexivity|].
  destruct (triggered_copy_is_complete none_missing volsync ("mgh", "postgres-data") "10:30" server None w' backup_enabled E)
    as (w3 & -> & _ & Hp).
  destruct (Hp eq_refl) as (pvc & Ho & _ & Ht). exists pvc. split; [exact Ho|exact Ht].
Defined.
End Sample.
