(* ===== verification/DatabaseLock.v ===== *)
(** * The lock of the database

    The writers of the manager and the copy of a volume exclude each other by an
    advisory lock of PostgreSQL ([GetConn], [Lock] and [Unlock] of
    [pkg/database/gorm_conn.go]).  A global flag, which the reconciler of the
    volumes sets at every request ([manager/pkg/controllers/backup_controller.go]),
    decides in each of the three functions whether it does anything.  The
    goroutines interleave between the looks at the flag, so that the lock is a
    step relation.  The advisory locks belong to PostgreSQL: their operations
    are a class with the documented laws, which a small table of holders satisfies. *)

From stdpp Require Import prelude gmap relations fin_maps.
From Stdlib Require Import Lia.
From S2P Require Import Prelude.

(** ** Advisory locks of PostgreSQL
    A session may take a lock that it has again, and has to give it back as many
    times. *)
Definition session : Type := nat.
Class AdvisoryLocks (L : Type) := {
  holder : L -> option (session * nat);
  pg_advisory_lock : session -> L -> option L;
  pg_advisory_unlock : session -> L -> L;
}.
(** How many times a session has the lock. *)
Definition held `{AdvisoryLocks L} (l : L) (s : session) : nat :=
  match holder l with Some (s', n) => if decide (s' = s) then n else 0 | None => 0 end.
Class AdvisoryLocksLaws (L : Type) `{AdvisoryLocks L} : Prop := {
  holder_positive l s n : holder l = Some (s, n) -> 0 < n;
  lock_granted s l : is_Some (pg_advisory_lock s l) <-> (forall s' n, holder l = Some (s', n) -> s' = s);
  lock_counts s l l' s' : pg_advisory_lock s l = Some l' -> held l' s' = held l s' + (if decide (s' = s) then 1 else 0);
  unlock_counts s l s' : held (pg_advisory_unlock s l) s' = held l s' - (if decide (s' = s) then 1 else 0);
}.

(** ** The functions of the package ([pkg/database/gorm_conn.go]) *)
Inductive got_conn := Got (conn : option session) | Opens.
Definition GetConn (IsBackupEnabled : bool) (lockConn : option session) : got_conn :=
  if negb IsBackupEnabled then Got None
  else match lockConn with None => Opens | Some s => Got (Some s) end.

(** [Lock] and [Unlock] return, dereference a connection that is not there, or
    execute their statement in the session of the connection. *)
Inductive lock_call := Returns | NilPointer | Executes (s : session).
Definition Lock (IsBackupEnabled : bool) (lockConn : option session) : lock_call :=
  if negb IsBackupEnabled then Returns
  else match lockConn with None => NilPointer | Some s => Executes s end.
Definition Unlock (IsBackupEnabled : bool) (lockConn : option session) : lock_call :=
  if negb IsBackupEnabled then Returns
  else match lockConn with None => NilPointer | Some s => Executes s end.

(** ** The goroutines
    A writer gets the connection, locks, works and unlocks; it may be between any
    two looks at the flag. *)
Inductive writer_at :=
  | Starts
  | Opening
  | Opened
  | HasConn (conn : option session)
  | Locking (s : session)
  | Works (conn : option session)
  | Leaves (conn : option session)
  | Unlocking (s : session)
  | Done
  | Panicked.
Inductive backup_at := Idle | BackupLocks | Copies | BackupUnlocks.

Record lock_state {L : Type} := MkLocks {
  ls_Enabled : bool;
  ls_lockConn : option session;
  ls_next : session;
  ls_locks : L;
  ls_writers : gmap nat writer_at;
  ls_backup : backup_at;
}.
Arguments lock_state : clear implicits.

(** The session of the connection that the reconciler of the volumes has of its own. *)
Definition backup_session : session := 0.

(** Whether every statement to the database was answered. *)
Inductive fate := Answered | Failed.

Section Steps.
Context {L : Type} `{AdvisoryLocks L}.
(** The writers that defer the unlock before they look at the error of the lock. *)
Context (deferred_first : nat -> bool).

Definition moved (p : nat) (at_ : writer_at) (st : lock_state L) : lock_state L :=
  MkLocks L (ls_Enabled st) (ls_lockConn st) (ls_next st) (ls_locks st) (<[p := at_]> (ls_writers st)) (ls_backup st).
Definition with_locks (l : L) (st : lock_state L) : lock_state L :=
  MkLocks L (ls_Enabled st) (ls_lockConn st) (ls_next st) l (ls_writers st) (ls_backup st).
Definition with_conn (c : option session) (next : session) (st : lock_state L) : lock_state L :=
  MkLocks L (ls_Enabled st) c next (ls_locks st) (ls_writers st) (ls_backup st).
Definition with_backup (b : backup_at) (st : lock_state L) : lock_state L :=
  MkLocks L (ls_Enabled st) (ls_lockConn st) (ls_next st) (ls_locks st) (ls_writers st) b.
Definition with_flag (b : bool) (st : lock_state L) : lock_state L :=
  MkLocks L b (ls_lockConn st) (ls_next st) (ls_locks st) (ls_writers st) (ls_backup st).

(** A step of the writer [p] from where it is. *)
Inductive writer_step (p : nat) (st : lock_state L) : writer_at -> fate -> lock_state L -> Prop :=
  | w_gets c : GetConn (ls_Enabled st) (ls_lockConn st) = Got c ->
      writer_step p st Starts Answered (moved p (HasConn c) st)
  | w_opens : GetConn (ls_Enabled st) (ls_lockConn st) = Opens ->
      writer_step p st Starts Answered (moved p Opening st)
  | w_open : writer_step p st Opening Answered (moved p Opened (with_conn (Some (ls_next st)) (S (ls_next st)) st))
  | w_open_fails : writer_step p st Opening Failed (moved p (HasConn None) (with_conn None (ls_next st) st))
  | w_opened : writer_step p st Opened Answered (moved p (HasConn (ls_lockConn st)) st)
  | w_not_locked c : Lock (ls_Enabled st) c = Returns -> writer_step p st (HasConn c) Answered (moved p (Works c) st)
  | w_lock_panics c : Lock (ls_Enabled st) c = NilPointer -> writer_step p st (HasConn c) Answered (moved p Panicked st)
  | w_locks c s : Lock (ls_Enabled st) c = Executes s -> writer_step p st (HasConn c) Answered (moved p (Locking s) st)
  | w_locked s l : pg_advisory_lock s (ls_locks st) = Some l ->
      writer_step p st (Locking s) Answered (moved p (Works (Some s)) (with_locks l st))
  | w_lock_fails s :
      writer_step p st (Locking s) Failed (moved p (if deferred_first p then Leaves (Some s) else Done) st)
  | w_worked c : writer_step p st (Works c) Answered (moved p (Leaves c) st)
  | w_left c : Unlock (ls_Enabled st) c = Returns -> writer_step p st (Leaves c) Answered (moved p Done st)
  | w_unlock_panics c : Unlock (ls_Enabled st) c = NilPointer -> writer_step p st (Leaves c) Answered (moved p Panicked st)
  | w_unlocks c s : Unlock (ls_Enabled st) c = Executes s -> writer_step p st (Leaves c) Answered (moved p (Unlocking s) st)
  | w_unlocked s :
      writer_step p st (Unlocking s) Answered (moved p Done (with_locks (pg_advisory_unlock s (ls_locks st)) st))
  | w_unlock_fails s : writer_step p st (Unlocking s) Failed (moved p Done st).

(** A step of the reconciler of the volumes; a request sets the flag to whether
    the backup is enabled. *)
Inductive backup_step (st : lock_state L) : backup_at -> fate -> lock_state L -> Prop :=
  | b_disabled : backup_step st Idle Answered (with_flag false st)
  | b_enabled : Lock true (Some backup_session) = Executes backup_session ->
      backup_step st Idle Answered (with_backup BackupLocks (with_flag true st))
  | b_locked l : pg_advisory_lock backup_session (ls_locks st) = Some l ->
      backup_step st BackupLocks Answered (with_backup Copies (with_locks l st))
  | b_lock_fails : backup_step st BackupLocks Failed (with_backup Idle st)
  | b_unlocks : Unlock (ls_Enabled st) (Some backup_session) = Executes backup_session ->
      backup_step st Copies Answered (with_backup BackupUnlocks st)
  | b_not_unlocked : Unlock (ls_Enabled st) (Some backup_session) = Returns ->
      backup_step st Copies Answered (with_backup Idle st)
  | b_unlocked :
      backup_step st BackupUnlocks Answered (with_backup Idle (with_locks (pg_advisory_unlock backup_session (ls_locks st)) st))
  | b_unlock_fails : backup_step st BackupUnlocks Failed (with_backup Idle st).

Inductive lock_step (st : lock_state L) (f : fate) (st' : lock_state L) : Prop :=
  | step_new p : ls_writers st !! p = None \/ ls_writers st !! p = Some Done -> f = Answered -> st' = moved p Starts st ->
      lock_step st f st'
  | step_writer p at_ : ls_writers st !! p = Some at_ -> writer_step p st at_ f st' -> lock_step st f st'
  | step_backup : backup_step st (ls_backup st) f st' -> lock_step st f st'.

Definition any_step (st st' : lock_state L) : Prop := exists f, lock_step st f st'.
(** The backup stays enabled, and the database answers. *)
Definition orderly_step (st st' : lock_state L) : Prop := lock_step st Answered st' /\ ls_Enabled st' = true.

(** The backup stays disabled, as it is before the first request. *)
Definition disabled_step (st st' : lock_state L) : Prop := lock_step st Answered st' /\ ls_Enabled st' = false.

Definition initial (l : L) : lock_state L := MkLocks L false None 1 l ∅ Idle.

(** No writer is between its connection and its unlock. *)
Definition at_rest (st : lock_state L) : Prop := forall p a, ls_writers st !! p = Some a -> a = Starts \/ a = Done.

(** The states after a request has enabled the backup while the writers were at
    rest, as long as it stays enabled and the database answers. *)
Definition enabled_run (l : L) (st : lock_state L) : Prop :=
  exists st0 st1, rtc disabled_step (initial l) st0 /\ at_rest st0 /\ orderly_step st0 st1 /\ rtc orderly_step st1 st.
End Steps.

(** ** What the lock of the database excludes

    While the backup stays enabled and the database answers, the lock keeps the
    writers and the copy of the volume apart, and the copy gets its turn; when the
    flag changes under a writer, it does not. *)

(** Whether a writer has still to give back what it took in a session. *)
Definition owes (s : session) (a : writer_at) : bool :=
  match a with
  | Works (Some s') | Leaves (Some s') | Unlocking s' => bool_decide (s' = s)
  | _ => false
  end.
Definition owed (m : gmap nat writer_at) (s : session) : nat := size (filter (fun kv => owes s kv.2 = true) m).
Definition backup_owes (b : backup_at) (s : session) : nat :=
  match b with Copies | BackupUnlocks => if decide (s = backup_session) then 1 else 0 | _ => 0 end.

Lemma owed_insert m p a a' s : m !! p = Some a ->
  owed (<[p := a']> m) s + Nat.b2n (owes s a) = owed m s + Nat.b2n (owes s a').
Proof.
  intros Hp. unfold owed. rewrite <- (insert_delete_id m p a Hp) at 2. rewrite <- (insert_delete_eq m p a').
  assert (forall x, size (filter (fun kv => owes s kv.2 = true) (<[p := x]> (delete p m))) =
    size (filter (fun kv => owes s kv.2 = true) (delete p m)) + Nat.b2n (owes s x)) as Hx.
  { intros x. rewrite map_filter_insert. cbn. destruct (owes s x) eqn:E; cbn.
    - rewrite decide_True by done. rewrite map_size_insert_None; [lia|].
      apply map_lookup_filter_None. left. apply lookup_delete_eq.
    - rewrite decide_False by done. rewrite delete_delete_eq. lia. }
  rewrite !Hx. lia.
Qed.
Lemma owed_new m p s a' : m !! p = None -> owed (<[p := a']> m) s = owed m s + Nat.b2n (owes s a').
Proof.
  intros Hp. unfold owed. rewrite map_filter_insert. cbn. destruct (owes s a') eqn:E; cbn.
  - rewrite decide_True by done. rewrite map_size_insert_None; [lia|]. apply map_lookup_filter_None. by left.
  - rewrite decide_False by done. rewrite delete_id by done. lia.
Qed.
Lemma owed_zero m s p a : owed m s = 0 -> m !! p = Some a -> owes s a = false.
Proof.
  intros Ho Hp. unfold owed in Ho. apply map_size_empty_inv in Ho. destruct (owes s a) eqn:E; [|done].
  assert (filter (fun kv => owes s kv.2 = true) m !! p = Some a) as Hf by (by apply map_lookup_filter_Some).
  by rewrite Ho in Hf.
Qed.
Lemma owed_some m s : 0 < owed m s -> exists p a, m !! p = Some a /\ owes s a = true.
Proof.
  intros Ho. unfold owed in Ho. destruct (map_choose (filter (fun kv => owes s kv.2 = true) m)) as (p & a & Hp).
  { intros E. rewrite E, map_size_empty in Ho. lia. }
  apply map_lookup_filter_Some in Hp as [Hp Ha]. by exists p, a.
Qed.

Section Facts.
Context {L : Type} `{AdvisoryLocksLaws L} (deferred_first : nat -> bool).
Notation orderly := (orderly_step (L := L) deferred_first).
Notation step := (any_step (L := L) deferred_first).

(** ** Invariant of the orderly runs *)
Definition session_ok (next s : session) : Prop := backup_session < s < next.
Definition writer_ok (lockConn : option session) (next : session) (a : writer_at) : Prop :=
  match a with
  | Starts | Opening | Done => True
  | Opened => is_Some lockConn
  | HasConn c | Works c | Leaves c => exists s, c = Some s /\ session_ok next s
  | Locking s | Unlocking s => session_ok next s
  | Panicked => False
  end.
Record lock_inv (st : lock_state L) : Prop := {
  li_enabled : ls_Enabled st = true;
  li_next : backup_session < ls_next st;
  li_conn s : ls_lockConn st = Some s -> session_ok (ls_next st) s;
  li_writers p a : ls_writers st !! p = Some a -> writer_ok (ls_lockConn st) (ls_next st) a;
  li_balance s : held (ls_locks st) s = owed (ls_writers st) s + backup_owes (ls_backup st) s;
}.

Lemma owed_backup (st : lock_state L) : (forall p a, ls_writers st !! p = Some a -> writer_ok (ls_lockConn st) (ls_next st) a) ->
  owed (ls_writers st) backup_session = 0.
Proof.
  intros Hw. destruct (owed _ _) eqn:E; [done|]. destruct (owed_some (ls_writers st) backup_session) as (p & a & Hp & Ha); [lia|].
  apply Hw in Hp. destruct a as [| | |[]| |[]|[]| | |]; cbn in Ha; try done; apply bool_decide_eq_true_1 in Ha; cbn in Hp; unfold session_ok in Hp; naive_solver lia.
Qed.

Lemma session_ok_mono n n' s : n <= n' -> session_ok n s -> session_ok n' s.
Proof. unfold session_ok. lia. Qed.
Lemma writer_ok_mono c c' n n' a : n <= n' -> (is_Some c -> is_Some c') -> writer_ok c n a -> writer_ok c' n' a.
Proof.
  intros Hn Hc. destruct a; cbn; try done; try by apply session_ok_mono; tauto.
  all: intros (s & -> & Hs); exists s; eauto using session_ok_mono.
Qed.

(** A writer moves, and what it owes changes as what its session holds. *)
Lemma lock_inv_moved st p a a' l' c' n' : lock_inv st -> ls_writers st !! p = Some a \/ (ls_writers st !! p = None /\ a = Done) ->
  ls_next st <= n' -> (forall s, c' = Some s -> session_ok n' s) -> (is_Some (ls_lockConn st) -> is_Some c') -> writer_ok c' n' a' ->
  (forall s, held l' s + Nat.b2n (owes s a) = held (ls_locks st) s + Nat.b2n (owes s a')) ->
  lock_inv (MkLocks L true c' n' l' (<[p := a']> (ls_writers st)) (ls_backup st)).
Proof.
  intros [He Hn Hc Hw Hb] Hp Hn' Hc' Hcc Ha' Hl. split; cbn; [done|lia|done| |].
  - intros q b. destruct (decide (q = p)) as [->|Hq]; [rewrite lookup_insert_eq; by intros [= <-]|].
    rewrite lookup_insert_ne by done. intros Hqb. eapply writer_ok_mono; [exact Hn'|exact Hcc|by eapply Hw].
  - intros s. specialize (Hl s). specialize (Hb s). destruct Hp as [Hp|[Hp ->]].
    + pose proof (owed_insert (ls_writers st) p a a' s Hp). lia.
    + rewrite (owed_new _ _ s a' Hp). cbn [owes Nat.b2n] in Hl. lia.
Qed.
Lemma lock_inv_same st p a a' : lock_inv st -> ls_writers st !! p = Some a \/ (ls_writers st !! p = None /\ a = Done) ->
  writer_ok (ls_lockConn st) (ls_next st) a' -> (forall s, owes s a = owes s a') -> lock_inv (moved p a' st).
Proof.
  intros Hi Hp Ha Ho. unfold moved. rewrite (li_enabled _ Hi). eapply (lock_inv_moved st p a); try done.
  - intros s. apply (li_conn _ Hi).
  - intros s. by rewrite Ho.
Qed.
Lemma held_owed st p a s : lock_inv st -> ls_writers st !! p = Some a -> owes s a = true -> 0 < held (ls_locks st) s.
Proof.
  intros Hi Hp Ha. rewrite (li_balance _ Hi). pose proof (owed_insert (ls_writers st) p a Done s Hp) as E. rewrite Ha in E. cbn in E. lia.
Qed.
Lemma held_exclusive (l : L) s s' : 0 < held l s -> 0 < held l s' -> s = s'.
Proof. unfold held. destruct (holder l) as [[t n]|]; [|lia]. repeat case_decide; [congruence|lia..]. Qed.

Lemma writer_step_inv p a st st' : lock_inv st -> ls_writers st !! p = Some a ->
  writer_step deferred_first p st a Answered st' -> lock_inv st'.
Proof.
  intros Hi Hp Hs. pose proof (li_writers _ Hi p a Hp) as Ha. pose proof (li_enabled _ Hi) as He. inversion Hs; subst; cbn in Ha.
  - unfold GetConn in *. rewrite He in *. cbn in *. destruct (ls_lockConn st) as [s|] eqn:Hc; [|done]. simplify_eq.
    eapply lock_inv_same; [done|by left| |done]. cbn. exists s. split; [done|by apply (li_conn _ Hi)].
  - by eapply lock_inv_same; [|left| |].
  - unfold moved, with_conn. cbn. rewrite He. eapply (lock_inv_moved st p Opening); try done; [by left|lia|..].
    + intros s [= <-]. pose proof (li_next _ Hi). unfold session_ok. lia.
    + by eexists.
  - eapply lock_inv_same; [done|by left| |done]. cbn. destruct Ha as [s Hc]. exists s. split; [done|by apply (li_conn _ Hi)].
  - destruct Ha as (s & -> & _). unfold Lock in *. by rewrite He in *.
  - destruct Ha as (s & -> & _). unfold Lock in *. by rewrite He in *.
  - destruct Ha as (s' & -> & Hs'). unfold Lock in *. rewrite He in *. cbn in *. simplify_eq. by eapply lock_inv_same; [|left| |].
  - unfold moved, with_locks. cbn. rewrite He. eapply (lock_inv_moved st p (Locking s)); try done; [by left|by apply li_conn|by exists s|].
    intros t. rewrite (lock_counts s _ l t) by done. cbn. case_decide; case_bool_decide; cbn; congruence || lia.
  - by eapply lock_inv_same; [|left| |].
  - destruct Ha as (s & -> & _). unfold Unlock in *. by rewrite He in *.
  - destruct Ha as (s & -> & _). unfold Unlock in *. by rewrite He in *.
  - destruct Ha as (s' & -> & Hs'). unfold Unlock in *. rewrite He in *. cbn in *. simplify_eq. by eapply lock_inv_same; [|left| |].
  - unfold moved, with_locks. cbn. rewrite He. eapply (lock_inv_moved st p (Unlocking s)); try done; [by left|by apply li_conn|].
    intros t. rewrite unlock_counts. cbn. case_decide; case_bool_decide; cbn; try (congruence || lia). subst t.
    enough (0 < held (ls_locks st) s) by lia. eapply held_owed; [done..|]. by apply bool_decide_eq_true_2.
Qed.

Lemma backup_step_inv st st' : lock_inv st -> backup_step st (ls_backup st) Answered st' -> ls_Enabled st' = true -> lock_inv st'.
Proof.
  intros [He Hn Hc Hw Hb] Hs He'. inversion Hs; subst; cbn in He'; try done;
  match goal with E : _ = ls_backup st |- _ => rewrite <- E in Hb; clear E end.
  all: split; cbn; try done; intros s; specialize (Hb s); cbn in Hb |- *; try done.
  - rewrite (lock_counts _ _ l s) by done. lia.
  - unfold Unlock in *. by rewrite He in *.
  - rewrite unlock_counts. lia.
Qed.

Lemma orderly_inv st st' : lock_inv st -> orderly st st' -> lock_inv st'.
Proof.
  intros Hi [Hs He]. destruct Hs as [p Hp _ ->|p a Hp Hs|Hs].
  - destruct Hp as [Hp|Hp]; [by eapply (lock_inv_same _ _ Done); [|right| |]|by eapply lock_inv_same; [|left| |]].
  - by eapply writer_step_inv.
  - by eapply backup_step_inv.
Qed.
Lemma orderly_runs_inv st st' : lock_inv st -> rtc orderly st st' -> lock_inv st'.
Proof. intros Hi Hr. induction Hr; eauto using orderly_inv. Qed.

(** ** While the backup is disabled

    Writers work without the lock; [left] is one that has it from before. *)
Definition unlocked (a : writer_at) : Prop :=
  match a with Starts | HasConn None | Works None | Leaves None | Done => True | _ => False end.
Definition left_over (left : option (nat * session)) (q : nat) (a : writer_at) : Prop :=
  match left with Some (p, s) => q = p /\ (a = Works (Some s) \/ a = Leaves (Some s)) | None => False end.
Definition dormant (left : option (nat * session)) (c : option session) (n : session) (l : L) (st : lock_state L) : Prop :=
  ls_Enabled st = false /\ ls_backup st = Idle /\ ls_lockConn st = c /\ ls_next st = n /\ ls_locks st = l /\
  forall q a, ls_writers st !! q = Some a -> unlocked a \/ left_over left q a.

Lemma dormant_moved left c n l st p a : dormant left c n l st -> unlocked a \/ left_over left p a -> dormant left c n l (moved p a st).
Proof.
  intros (He & Hb & Hc & Hn & Hl & Hw) Ha. split_and!; try done. intros q b. cbn.
  destruct (decide (q = p)) as [->|Hq]; [rewrite lookup_insert_eq; by intros [= <-]|rewrite lookup_insert_ne by done; apply Hw].
Qed.
Lemma dormant_stays left c n l st st' : dormant left c n l st -> disabled_step deferred_first st st' -> dormant left c n l st'.
Proof.
  intros Hd [Hs He']. pose proof Hd as (He & Hb & Hc & Hn & Hl & Hw). destruct Hs as [p Hp _ ->|p a Hp Hs|Hs].
  - apply dormant_moved; [done|by left].
  - specialize (Hw p a Hp). inversion Hs; subst; cbn in Hw; try (by destruct left as [[]|]; naive_solver).
    all: unfold GetConn, Lock, Unlock in *; try rewrite He in *; simplify_eq/=; apply dormant_moved; try done; try (by left).
    all: destruct c0 as [s|]; [|by left]; destruct Hw as [[]|Hw]; right; destruct left as [[p' s']|]; [|done].
    + by destruct Hw as [-> [?|?]].
    + destruct Hw as [-> [[= ->]|?]]; [|done]. split; [done|by right].
  - rewrite Hb in Hs. inversion Hs; subst; [|done]. by split_and!.
Qed.
Lemma dormant_run left c n l st st' : dormant left c n l st -> rtc (disabled_step deferred_first) st st' -> dormant left c n l st'.
Proof. intros Hd Hr. induction Hr; eauto using dormant_stays. Qed.

(** A step that enables the backup is the request of the reconciler. *)
Lemma enabling st st' : ls_Enabled st = false -> ls_backup st = Idle -> orderly st st' -> st' = with_backup BackupLocks (with_flag true st).
Proof.
  intros He Hb [Hs He']. destruct Hs as [p _ _ ->|p a _ Hs|Hs].
  - cbn in He'. congruence.
  - inversion Hs; subst; cbn in He'; congruence.
  - rewrite Hb in Hs. inversion Hs; subst; done.
Qed.

Lemma owed_none m s : (forall q a, m !! q = Some a -> owes s a = false) -> owed m s = 0.
Proof.
  intros Hm. destruct (owed m s) eqn:E; [done|]. destruct (owed_some m s) as (q & a & Hq & Ha); [lia|]. by rewrite (Hm q a Hq) in Ha.
Qed.

Lemma enabled_run_inv l st : holder l = None -> enabled_run deferred_first l st -> lock_inv st.
Proof.
  intros Hl (st0 & st1 & R0 & Hrest & He & R). eapply orderly_runs_inv; [|exact R].
  assert (dormant None None 1 l st0) as (Ef & Eb & Ec & En & El & _).
  { eapply dormant_run; [|exact R0]. split_and!; try done. }
  rewrite (enabling st0 st1 Ef Eb He). split; cbn; rewrite ?En, ?Ec, ?El; try done; [unfold backup_session; lia| |].
  - by intros p a [-> | ->]%Hrest.
  - intros s. unfold held. rewrite Hl, owed_none; [done|]. by intros q a [-> | ->]%Hrest.
Qed.

(** C12: the copy of a volume and the writers of the manager exclude each other: after a request has enabled the backup while no writer was between its connection and its unlock, as long as the backup stays enabled and the database answers, no writer works while the volume is copied, however many writers share their connection and however the goroutines interleave, and no writer ever locks with a connection that is not there. *)
Theorem copies_exclude_writers (l : L) (st : lock_state L) (Hfree : holder l = None) (Hrun : enabled_run deferred_first l st) :
  (ls_backup st = Copies -> forall p c, ls_writers st !! p <> Some (Works c)) /\
  (forall p, ls_writers st !! p <> Some Panicked).
Proof.
  pose proof (enabled_run_inv l st Hfree Hrun) as Hi. split.
  - intros Hb p c Hp. destruct (li_writers _ Hi _ _ Hp) as (s & -> & Hs & _).
    assert (0 < held (ls_locks st) s) as Hw by (eapply held_owed; [done..|]; by apply bool_decide_eq_true_2).
    assert (0 < held (ls_locks st) backup_session) as Hc by (rewrite (li_balance _ Hi), Hb; unfold backup_owes; rewrite decide_True by done; lia).
    pose proof (held_exclusive _ _ _ Hw Hc). lia.
  - intros p Hp. by apply (li_writers _ Hi) in Hp.
Qed.

(** A writer that has the lock can give it back on its own. *)
Definition released (s : session) (st st' : lock_state L) : Prop :=
  ls_backup st' = ls_backup st /\
  forall t, held (ls_locks st') t + (if decide (t = s) then 1 else 0) = held (ls_locks st) t.
Lemma moved_twice p a b (st : lock_state L) : moved p a (moved p b st) = moved p a st.
Proof. unfold moved. cbn. by rewrite insert_insert_eq. Qed.
Lemma writer_goes p a f st st' : ls_writers st !! p = Some a -> writer_step deferred_first p st a f st' ->
  f = Answered -> ls_Enabled st' = true -> orderly st st'.
Proof. intros Hp Hs -> He. split; [by eapply step_writer|done]. Qed.

Lemma writer_unlocks p s st : lock_inv st -> ls_writers st !! p = Some (Unlocking s) ->
  exists st', rtc orderly st st' /\ released s st st'.
Proof.
  intros Hi Hp. eexists. split; [apply rtc_once; eapply writer_goes; [exact Hp|apply w_unlocked|done|by apply (li_enabled _ Hi)]|].
  split; [done|]. intros t. cbn. rewrite unlock_counts. case_decide; [|lia]. subst t.
  assert (0 < held (ls_locks st) s); [|lia]. eapply held_owed; [done..|]. by apply bool_decide_eq_true_2.
Qed.
Lemma writer_leaves p s st : lock_inv st -> ls_writers st !! p = Some (Leaves (Some s)) ->
  exists st', rtc orderly st st' /\ released s st st'.
Proof.
  intros Hi Hp. assert (orderly st (moved p (Unlocking s) st)) as Ho.
  { eapply writer_goes; [exact Hp|apply w_unlocks|done|by apply (li_enabled _ Hi)]. unfold Unlock. by rewrite (li_enabled _ Hi). }
  destruct (writer_unlocks p s (moved p (Unlocking s) st)) as (st' & R & E); [by eapply orderly_inv|by apply lookup_insert_eq|].
  exists st'. split; [by eapply rtc_l|exact E].
Qed.
Lemma writer_finishes p s a st : lock_inv st -> ls_writers st !! p = Some a -> owes s a = true ->
  exists st', rtc orderly st st' /\ released s st st'.
Proof.
  intros Hi Hp Ha. destruct a as [| | | | |[t|]|[t|]|t| |]; cbn in Ha; try done; apply bool_decide_eq_true_1 in Ha as ->.
  - assert (orderly st (moved p (Leaves (Some s)) st)) as Ho.
    { eapply writer_goes; [exact Hp|apply w_worked|done|by apply (li_enabled _ Hi)]. }
    destruct (writer_leaves p s (moved p (Leaves (Some s)) st)) as (st' & R & E); [by eapply orderly_inv|by apply lookup_insert_eq|].
    exists st'. split; [by eapply rtc_l|exact E].
  - by eapply writer_leaves.
  - by eapply writer_unlocks.
Qed.

Lemma lock_becomes_free n st s : lock_inv st -> ls_backup st = BackupLocks -> holder (ls_locks st) = Some (s, n) ->
  exists st', rtc orderly st st' /\ ls_backup st' = BackupLocks /\ holder (ls_locks st') = None.
Proof.
  revert st s. induction n as [n IH] using lt_wf_ind. intros st s Hi Hb Hh.
  assert (held (ls_locks st) s = n) as Hn by (unfold held; by rewrite Hh, decide_True).
  pose proof (holder_positive _ _ _ Hh) as Hpos. pose proof (li_balance _ Hi s) as Hbal. rewrite Hb in Hbal. cbn in Hbal.
  destruct (owed_some (ls_writers st) s) as (p & a & Hp & Ha); [lia|].
  destruct (writer_finishes p s a st Hi Hp Ha) as (st' & R & Eb & Eh). rewrite Hb in Eb.
  destruct (holder (ls_locks st')) as [[s' m]|] eqn:Hh'; [|by exists st'].
  assert (held (ls_locks st') s' = m) as Hm by (unfold held; by rewrite Hh', decide_True).
  pose proof (holder_positive _ _ _ Hh').
  destruct (decide (s' = s)) as [->|Hs].
  - pose proof (Eh s) as Es. rewrite decide_True in Es by done.
    destruct (IH m ltac:(lia) st' s) as (st'' & R' & E); [by eapply orderly_runs_inv|done|done|].
    exists st''. split; [by etrans|exact E].
  - specialize (Eh s'). rewrite decide_False in Eh by done. assert (0 < held (ls_locks st) s') as Hs' by lia.
    assert (0 < held (ls_locks st) s) as Hss by lia. by pose proof (held_exclusive _ _ _ Hs' Hss).
Qed.

(** A copy that waits for the lock can have it: as long as the backup stays
    enabled and the database answers, whenever the reconciler of
    the volumes waits for the lock there is a way on to the copy, in which the
    writers that have the lock finish what they do. *)
Theorem waiting_copy_can_start (l : L) (st : lock_state L) (Hfree : holder l = None)
    (Hrun : enabled_run deferred_first l st) (Hwaits : ls_backup st = BackupLocks) :
  exists st', rtc orderly st st' /\ ls_backup st' = Copies.
Proof.
  pose proof (enabled_run_inv l st Hfree Hrun) as Hi.
  assert (exists st', rtc orderly st st' /\ ls_backup st' = BackupLocks /\ holder (ls_locks st') = None) as (st' & R & Hb & Hh).
  { destruct (holder (ls_locks st)) as [[s n]|] eqn:Hh; [|by exists st]. by eapply lock_becomes_free. }
  destruct (proj2 (lock_granted backup_session (ls_locks st'))) as [l' Hl]; [intros s n; by rewrite Hh|].
  exists (with_backup Copies (with_locks l' st')). split; [|done]. eapply rtc_r; [exact R|]. split.
  - apply step_backup. rewrite Hb. by apply b_locked.
  - apply (li_enabled st'). by eapply orderly_runs_inv.
Qed.

(** ** When the flag changes under a writer *)

(** Enabling the backup does not stop the writers that are at work, and breaks
    them: a writer that got its connection while the backup was disabled has
    none; when a request then enables the backup the volume can be copied while
    the writer works, and as long as the backup stays enabled that writer never
    finishes, for its unlock dereferences the connection it does not have. *)
Theorem enabled_backup_breaks_the_writers p (st : lock_state L) (Hfree : holder (ls_locks st) = None)
    (Hidle : ls_backup st = Idle) (Hworks : ls_writers st !! p = Some (Works None)) :
  (exists st', rtc step st st' /\ ls_backup st' = Copies /\ ls_writers st' !! p = Some (Works None)) /\
  (forall st1 st2, backup_step st Idle Answered st1 -> ls_Enabled st1 = true -> rtc orderly st1 st2 ->
     ls_writers st2 !! p = Some (Works None) \/ ls_writers st2 !! p = Some (Leaves None) \/ ls_writers st2 !! p = Some Panicked).
Proof.
  split.
  - destruct (proj2 (lock_granted backup_session (ls_locks st))) as [l' Hl]; [intros s n; by rewrite Hfree|].
    exists (with_backup Copies (with_locks l' (with_backup BackupLocks (with_flag true st)))). split; [|by split].
    eapply rtc_l; [|apply rtc_once]; exists Answered; apply step_backup; [rewrite Hidle; by apply b_enabled|by apply b_locked].
  - intros st1 st2 Hs He R.
    assert (ls_writers st1 !! p = Some (Works None)) as Hp by (inversion Hs; subst; done).
    assert (ls_writers st1 !! p = Some (Works None) \/ ls_writers st1 !! p = Some (Leaves None) \/ ls_writers st1 !! p = Some Panicked)
      as Hp1 by (by left). clear Hp Hs Hworks. induction R as [st1|st1 st3 st2 [Hs He3] R IH]; [done|]. apply IH; [done|]. clear IH R.
    destruct Hs as [q Hq _ ->|q a Hq Hs|Hs].
    + cbn. destruct (decide (q = p)) as [->|Hqp]; [naive_solver|by rewrite lookup_insert_ne].
    + destruct (decide (q = p)) as [->|Hqp].
      * destruct Hp1 as [Hp1|[Hp1|Hp1]]; rewrite Hp1 in Hq; injection Hq as <-; inversion Hs; subst; cbn; rewrite ?lookup_insert_eq; auto;
          unfold Unlock in *; by rewrite He in *.
      * inversion Hs; subst; cbn; by rewrite lookup_insert_ne.
    + inversion Hs; subst; done.
Qed.

(** More holds of a session than its writers owe stay for ever. *)
Definition leaked (s : session) (st : lock_state L) : Prop :=
  ls_Enabled st = true /\ (ls_backup st = Idle \/ ls_backup st = BackupLocks) /\ owed (ls_writers st) s < held (ls_locks st) s.
Lemma held_held l s s' n : 0 < held l s -> holder l = Some (s', n) -> s' = s /\ n = held l s.
Proof. unfold held. intros Hl Hh. rewrite Hh in Hl |- *. by case_decide; [|lia]. Qed.
Lemma leaked_moved p a a' l' st s : leaked s st -> ls_writers st !! p = Some a ->
  held (ls_locks st) s + Nat.b2n (owes s a') <= held l' s + Nat.b2n (owes s a) ->
  owed (<[p := a']> (ls_writers st)) s < held l' s.
Proof. intros (_ & _ & Ho) Hp Hl. pose proof (owed_insert (ls_writers st) p a a' s Hp). lia. Qed.
Lemma leaked_stays s st st' : s <> backup_session -> leaked s st -> orderly st st' -> leaked s st'.
Proof.
  intros Hs0 Hl [Hs He]. pose proof Hl as (He0 & Hb & Ho). split; [done|]. destruct Hs as [q Hq _ ->|q a Hq Hs|Hs].
  - split; [done|]. cbn. destruct Hq as [Hq|Hq]; [rewrite (owed_new _ _ s Starts Hq); cbn; lia|by eapply leaked_moved].
  - assert (ls_backup st' = ls_backup st) as -> by (by inversion Hs). split; [done|].
    inversion Hs; subst; cbn; (eapply leaked_moved; [done|exact Hq|]); cbn; try lia.
    all: try match goal with E : pg_advisory_lock _ _ = Some _ |- _ => rewrite (lock_counts _ _ _ s E) end; rewrite ?unlock_counts.
    all: try match goal with c : option session |- _ => destruct c end; unfold Lock, Unlock in *; try rewrite He0 in *; cbn in *; simplify_eq.
    all: repeat case_decide; repeat case_bool_decide; cbn; congruence || lia.
  - inversion Hs; subst; cbn in *; try done; try (destruct Hb; congruence).
    + split; [by right|done].
    + exfalso. apply Hs0. assert (0 < held (ls_locks st) s) as Hp by lia. unfold held in Hp.
      destruct (holder (ls_locks st)) as [[t n]|] eqn:Hh; [|lia]. case_decide; [|lia]. subst t.
      eapply lock_granted; [by eexists|exact Hh].
Qed.
Lemma leaked_for_ever s st st' : s <> backup_session -> leaked s st -> rtc orderly st st' -> leaked s st'.
Proof. intros Hs Hl R. induction R; eauto using leaked_stays. Qed.


(** A writer whose lock failed gives back the lock of another one: the
    committer of the offsets and the workers defer the unlock before they look at
    the error, and all writers share one session, so that a copy which waits can
    start while another writer is at work. *)
Theorem failed_lock_gives_back_anothers p q s (st : lock_state L)
    (Henabled : ls_Enabled st = true) (Hfirst : deferred_first p = true) (Hpq : p <> q)
    (Hlocks : ls_writers st !! p = Some (Locking s)) (Hworks : ls_writers st !! q = Some (Works (Some s)))
    (Honce : holder (ls_locks st) = Some (s, 1)) (Hwaits : ls_backup st = BackupLocks) :
  exists st', rtc step st st' /\ ls_backup st' = Copies /\ ls_writers st' !! q = Some (Works (Some s)).
Proof.
  assert (holder (pg_advisory_unlock s (ls_locks st)) = None) as Hfree.
  { destruct (holder (pg_advisory_unlock s (ls_locks st))) as [[t n]|] eqn:Hh; [|done]. pose proof (holder_positive _ _ _ Hh).
    assert (held (pg_advisory_unlock s (ls_locks st)) t = n) as Ht by (unfold held; by rewrite Hh, decide_True).
    rewrite unlock_counts in Ht. unfold held in Ht. rewrite Honce in Ht. repeat case_decide; congruence || lia. }
  set (st3 := moved p Done (with_locks (pg_advisory_unlock s (ls_locks st)) (moved p (Unlocking s) (moved p (Leaves (Some s)) st)))).
  destruct (proj2 (lock_granted backup_session (ls_locks st3))) as [l' Hl]; [cbn; intros t n; by rewrite Hfree|].
  exists (with_backup Copies (with_locks l' st3)). split.
  - eapply (rtc_l _ _ (moved p (Leaves (Some s)) st)); [|eapply rtc_l; [|eapply (rtc_l _ _ st3); [|apply rtc_once]]].
    + exists Failed. eapply step_writer; [exact Hlocks|]. pose proof (w_lock_fails deferred_first p st s) as Hw. by rewrite Hfirst in Hw.
    + exists Answered. eapply step_writer; [apply lookup_insert_eq|]. apply w_unlocks. unfold Unlock. cbn. by rewrite Henabled.
    + exists Answered. eapply step_writer; [apply lookup_insert_eq|].
      exact (w_unlocked deferred_first p (moved p (Unlocking s) (moved p (Leaves (Some s)) st)) s).
    + exists Answered. apply step_backup. cbn. rewrite Hwaits. by apply b_locked.
  - split; [done|]. cbn. by rewrite !lookup_insert_ne.
Qed.
End Facts.

(** ** A table of one lock *)
Module Sample.
Definition table : Type := option (session * nat).
#[export] Instance table_locks : AdvisoryLocks table := {|
  holder l := match l with Some (s, S n) => Some (s, S n) | _ => None end;
  pg_advisory_lock s l :=
    match l with
    | Some (s', S n) => if decide (s' = s) then Some (Some (s', S (S n))) else None
    | _ => Some (Some (s, 1))
    end;
  pg_advisory_unlock s l :=
    match l with
    | Some (s', S n) => if decide (s' = s) then Some (s', n) else l
    | _ => l
    end;
|}.
#[export] Instance table_laws : AdvisoryLocksLaws table.
Proof.
  split.
  - intros [[t [|m]]|] s n; cbn; intros [= <- <-]; lia.
  - intros s [[t [|m]]|]; cbn; [split; [done|by eexists]| |split; [done|by eexists]].
    case_decide as Hd; split.
    + by intros _ s' n [= <- _].
    + by eexists.
    + by intros [? ?].
    + intros Hx. exfalso. by eapply Hd, Hx.
  - intros s [[t [|m]]|] l' s'; cbn; [intros [= <-]|case_decide; intros [= <-]|intros [= <-]];
      unfold held; cbn; repeat case_decide; congruence || lia.
  - intros s [[t [|m]]|] s'; unfold held; cbn; [lia| |lia]. case_decide as Hd; cbn; [|repeat case_decide; congruence || lia].
    destruct m; cbn; repeat case_decide; congruence || lia.
Qed.

(** The committers come first, the others look at the error first. *)
Definition committers (p : nat) : bool := bool_decide (p < 2).
Notation orderly := (orderly_step (L := table) committers).
(** A request enables the backup at the start. *)
Definition start : lock_state table := with_backup BackupLocks (with_flag true (initial None)).
Lemma enabled_from_the_start st : rtc orderly start st -> enabled_run committers None st.
Proof.
  intros R. exists (initial None), start. split; [done|]. split; [done|]. split; [|exact R].
  split; [|done]. apply step_backup. by apply b_enabled.
Qed.

(** A new writer, a step of a writer and a step of the backup, in a run. *)
Ltac computes := first [reflexivity|vm_compute; reflexivity].
Ltac begins p := eapply rtc_l; [split; [apply (step_new _ _ _ _ p); [left; vm_compute; reflexivity|reflexivity|reflexivity]|reflexivity]|].
Ltac goes p := eapply rtc_l; [split; [eapply (step_writer _ _ _ _ p); [vm_compute; reflexivity|constructor; computes]|reflexivity]|].
Ltac unlocks := eapply rtc_l; [split; [apply step_backup; apply b_unlocks; reflexivity|reflexivity]|];
  eapply rtc_l; [split; [apply step_backup; apply b_unlocked; reflexivity|reflexivity]|].
Ltac copies := eapply rtc_l; [split; [apply step_backup; apply b_locked; vm_compute; reflexivity|reflexivity]|].

(** A writer has the lock, and the backup waits; the writer has left, and the
    volume is copied while another one waits. *)
Lemma run_waiting : exists st, rtc orderly start st /\ ls_backup st = BackupLocks /\ ls_writers st !! 7 = Some (Works (Some 1)).
Proof.
  eexists. split; [begins 7; goes 7; goes 7; goes 7; goes 7; goes 7; apply rtc_refl|]. split; vm_compute; reflexivity.
Qed.
Lemma run_copying : exists st, rtc orderly start st /\ ls_backup st = Copies /\ ls_writers st !! 7 = Some (Locking 1).
Proof.
  eexists. split; [copies; begins 7; goes 7; goes 7; goes 7; goes 7; apply rtc_refl|]. split; vm_compute; reflexivity.
Qed.
Lemma run_leaving : exists st, rtc orderly start st /\ ls_backup st = Idle /\ ls_writers st !! 7 = Some (Leaves (Some 1)).
Proof.
  eexists. split; [copies; unlocks; begins 7; goes 7; goes 7; goes 7; goes 7; goes 7; goes 7; apply rtc_refl|]. split; vm_compute; reflexivity.
Qed.

Lemma copies_exclude_writers_witness :
  exists st, rtc orderly start st /\ ls_backup st = Copies /\ ls_writers st !! 7 = Some (Locking 1) /\
    (forall p c, ls_writers st !! p <> Some (Works c)).
Proof.
  destruct run_copying as (st & R & Hb & Hp). exists st. split; [exact R|]. split; [exact Hb|]. split; [exact Hp|].
  exact (proj1 (copies_exclude_writers committers None st eq_refl (enabled_from_the_start st R)) Hb).
Defined.

Lemma waiting_copy_can_start_witness :
  exists st, rtc orderly start st /\ ls_writers st !! 7 = Some (Works (Some 1)) /\
    exists st', rtc orderly st st' /\ ls_backup st' = Copies.
Proof.
  destruct run_waiting as (st & R & Hb & Hp). exists st. split; [exact R|]. split; [exact Hp|].
  exact (waiting_copy_can_start committers None st eq_refl (enabled_from_the_start st R) Hb).
Defined.

(** A writer at work since the backup was disabled. *)
Definition unlocked_work : lock_state table := moved 7 (Works None) (initial None).
Lemma enabled_backup_breaks_the_writers_witness :
  exists st', rtc (any_step (L := table) committers) unlocked_work st' /\ ls_backup st' = Copies /\ ls_writers st' !! 7 = Some (Works None).
Proof. exact (proj1 (enabled_backup_breaks_the_writers committers 7 unlocked_work eq_refl eq_refl eq_refl)). Defined.

(** The writer 7 is about to give back the lock when the backup is disabled. *)
Definition leaving : lock_state table := MkLocks table true (Some 1) 2 (Some (1, 1)) {[7 := Leaves (Some 1)]} Idle.
Lemma run_to_leaving : rtc orderly start leaving.
Proof. copies. unlocks. begins 7. goes 7. goes 7. goes 7. goes 7. goes 7. goes 7. apply rtc_refl. Qed.


(** The committer 1 waits in the session in which 7 has the lock. *)
Definition shared_session : lock_state table :=
  MkLocks table true (Some 1) 2 (Some (1, 1)) {[1 := Locking 1; 7 := Works (Some 1)]} BackupLocks.
Lemma failed_lock_gives_back_anothers_witness :
  exists st', rtc (any_step (L := table) committers) shared_session st' /\ ls_backup st' = Copies /\ ls_writers st' !! 7 = Some (Works (Some 1)).
Proof.
  exact (failed_lock_gives_back_anothers committers 1 7 1 shared_session eq_refl eq_refl ltac:(discriminate) eq_refl eq_refl eq_refl eq_refl).
Defined.
End Sample.
