(* ===== verification/RestUtil.v ===== *)
(** * Selectors, continue tokens and formats of the REST API

    The helpers of the lists of the manager ([manager/pkg/restapis/util]): the
    label selector, which becomes conditions of an SQL query, the token that
    leads from one page to the next, and the format that a client accepts. *)

From stdpp Require Import prelude gmap strings list.
From Stdlib Require Import NArith Lia Ascii.
From S2P Require Import Prelude.
From S2P Require Import GoLib.
From S2P Require Import Base64.

Local Open Scope string_scope.
Local Open Scope list_scope.

(** ** [strings.Split], [strings.Contains] and [strings.HasPrefix] with a text *)
Fixpoint split_on (sep : string) (skip : nat) (s : string) : list string :=
  match s with
  | EmptyString => [""]
  | String c s' =>
      match skip with
      | S k => split_on sep k s'
      | O =>
          if String.prefix sep s then "" :: split_on sep (Nat.pred (String.length sep)) s'
          else match split_on sep 0 s' with
               | x :: rest => String c x :: rest
               | [] => [String c ""]
               end
      end
  end.
Definition Split (s sep : string) : list string := split_on sep 0 s.
Fixpoint Contains (s sub : string) : bool :=
  String.prefix sub s || match s with EmptyString => false | String _ s' => Contains s' sub end.
Definition TrimPrefix1 (s : string) : string := match s with EmptyString => "" | String _ s' => s' end.

(** ** Label selectors ([label.go]) *)

(** A condition of the query; its text holds the key and the value as they are. *)
Inductive condition :=
  | LabelIs (key val : string)
  | LabelIsNot (key val : string)
  | HasLabel (key : string)
  | HasNoLabel (key : string).
#[export] Instance condition_dec : EqDecision condition.
Proof. solve_decision. Defined.

Definition dquote : string := String (ascii_of_nat 34) "".
Definition quoted (s : string) : string := dquote +:+ s +:+ dquote.
Definition label_json (key val : string) : string := "{" +:+ quoted key +:+ ": " +:+ quoted val +:+ "}".
Definition condition_text (c : condition) : string :=
  match c with
  | LabelIsNot key val => " AND NOT (payload -> 'metadata' -> 'labels' @> '" +:+ label_json key val +:+ "')"
  | LabelIs key val => " AND payload -> 'metadata' -> 'labels' @> '" +:+ label_json key val +:+ "'"
  | HasNoLabel key => " AND NOT (payload -> 'metadata' -> 'labels' ? '" +:+ key +:+ "')"
  | HasLabel key => " AND payload -> 'metadata' -> 'labels' ? '" +:+ key +:+ "'"
  end.

Definition parse_selector (selector : string) : result condition :=
  if Contains selector "!=" then
    match Split selector "!=" with
    | [key; val] => Ok (LabelIsNot (TrimSpace key) (TrimSpace val))
    | _ => Err ("invalid equality based label selector: " +:+ selector)
    end
  else if Contains selector "==" || Contains selector "=" then
    match Split selector "=" with
    | [key; val] => Ok (LabelIs (TrimSpace key) (TrimSpace val))
    | _ => Err ("invalid equality based label selector: " +:+ selector)
    end
  else if String.prefix "!" selector then Ok (HasNoLabel (TrimSpace (TrimPrefix1 selector)))
  else Ok (HasLabel (TrimSpace selector)).

Fixpoint parse_selectors (selectors : list string) : result (list condition) :=
  match selectors with
  | [] => Ok []
  | selector :: rest =>
      match parse_selector selector with
      | Err e => Err e
      | Ok c => match parse_selectors rest with Ok cs => Ok (c :: cs) | Err e => Err e end
      end
  end.
Definition label_conditions (labelSelector : string) : result (list condition) :=
  parse_selectors (split_char "," labelSelector).
(** The text that is appended to the query. *)
Definition ParseLabelSelector (labelSelector : string) : result string :=
  match label_conditions labelSelector with
  | Ok cs => Ok (foldr (fun c s => condition_text c +:+ s) "" cs)
  | Err e => Err e
  end.

(** What PostgreSQL answers for an object with the given labels: a condition on
    labels that are not there is NULL, also when it is negated.  The key and the
    value hold no quote and no backslash. *)
Definition holds (labels : option (gmap string string)) (c : condition) : bool :=
  match labels with
  | None => false
  | Some m =>
      match c with
      | LabelIs key val => bool_decide (m !! key = Some val)
      | LabelIsNot key val => negb (bool_decide (m !! key = Some val))
      | HasLabel key => bool_decide (is_Some (m !! key))
      | HasNoLabel key => negb (bool_decide (is_Some (m !! key)))
      end
  end.
(** What a selector of Kubernetes means. *)
Definition selects (labels : gmap string string) (c : condition) : Prop :=
  match c with
  | LabelIs key val => labels !! key = Some val
  | LabelIsNot key val => labels !! key <> Some val
  | HasLabel key => is_Some (labels !! key)
  | HasNoLabel key => labels !! key = None
  end.

(** ** Continue tokens ([continue.go])

    [base64.RawURLEncoding]: the alphabet for addresses, without padding. *)
Definition to_url (c : ascii) : ascii :=
  if Ascii.eqb c (ascii_of_N 43) then ascii_of_N 45 else if Ascii.eqb c (ascii_of_N 47) then ascii_of_N 95 else c.
Definition of_url (c : ascii) : ascii :=
  if Ascii.eqb c (ascii_of_N 45) then ascii_of_N 43 else if Ascii.eqb c (ascii_of_N 95) then ascii_of_N 47 else c.
Definition not_url (c : ascii) : bool :=
  Ascii.eqb c (ascii_of_N 43) || Ascii.eqb c (ascii_of_N 47) || Ascii.eqb c pad.
Definition padded (l : list ascii) : list ascii := l ++ replicate ((4 - length l mod 4) mod 4) pad.

Definition raw_encode (s : string) : string :=
  String.string_of_list_ascii (to_url <$> filter (fun c => c <> pad) (encode_quanta (String.list_ascii_of_string s))).
Definition raw_decode (s : string) : result string :=
  let l := filter (fun c => line_break c = false) (String.list_ascii_of_string s) in
  if existsb not_url l then Err "illegal base64 data"
  else match decode_quanta (padded (of_url <$> l)) with
       | Some bs => Ok (String.string_of_list_ascii bs)
       | None => Err "illegal base64 data"
       end.

(** The JSON text of a token, which keeps names and identities of plain
    characters. *)
Definition plain_char (c : ascii) : bool :=
  let n := N_of_ascii c in (32 <=? n)%N && (n <? 127)%N && negb (n =? 34)%N && negb (n =? 92)%N.
Definition plain (s : string) : bool := forallb plain_char (String.list_ascii_of_string s).
Class TokenJson := {
  token_marshal : string * string -> result string;
  token_unmarshal : string -> result (string * string);
}.
Class TokenJsonLaws `{TokenJson} : Prop := {
  token_marshal_ok lastName lastUID :
    plain lastName = true -> plain lastUID = true ->
    exists text, token_marshal (lastName, lastUID) = Ok text /\ token_unmarshal text = Ok (lastName, lastUID);
  token_unmarshal_empty : exists e, token_unmarshal "" = Err e;
}.

Section Tokens.
Context `{TokenJson}.
Definition DecodeContinue (continueStr : string) : result (string * string) :=
  match raw_decode continueStr with
  | Err e => Err e
  | Ok decodedContinue => token_unmarshal decodedContinue
  end.
Definition EncodeContinue (lastName lastUID : string) : result string :=
  match token_marshal (lastName, lastUID) with
  | Err e => Err e
  | Ok ct => Ok (raw_encode ct)
  end.
End Tokens.

(** ** Accepted formats ([until.go]) *)
Definition accepts_table (accepted : string) : bool :=
  let acceptedList := split_char ";" accepted in
  existsb (String.eqb "application/json") acceptedList && existsb (String.eqb "as=Table") acceptedList &&
  existsb (String.eqb "g=meta.k8s.io") acceptedList && existsb (String.eqb "v=v1") acceptedList.
Definition ShouldReturnAsTable (Accept : string) : bool := existsb accepts_table (split_char "," Accept).

(** ** Proofs *)
Lemma decode_encode_parts l : exists core n, encode_quanta l = core ++ replicate n pad /\
  Forall (fun c => c <> pad /\ line_break c = false /\ (exists m, (m < 64)%N /\ c = letter m)) core /\
  n = (4 - length core mod 4) mod 4.
Proof.
  assert (forall m, (m < 64)%N -> letter m <> pad /\ line_break (letter m) = false /\ (exists k, (k < 64)%N /\ letter m = letter k)) as Hl.
  { intros m Hm. pose proof (letter_spec m Hm) as (_ & Hp & Hb). split; [intros E; rewrite E in Hp; done|]. split; [done|by exists m]. }
  pose proof ascii_small as Hs.
  induction l as [|a|a b|a b c l (core & n & E & Hc & Hn)] using triples_ind; cbn [encode_quanta].
  - exists [], 0. done.
  - pose proof (Hs a). eexists [_; _], 2. split; [reflexivity|]. split; [|done]. repeat (apply Forall_cons; split); try done; apply Hl; lia.
  - pose proof (Hs a). pose proof (Hs b). eexists [_; _; _], 1. split; [reflexivity|]. split; [|done].
    repeat (apply Forall_cons; split); try done; apply Hl; lia.
  - pose proof (Hs a). pose proof (Hs b). pose proof (Hs c). eexists (_ :: _ :: _ :: _ :: core), n. split; [by rewrite E|]. split.
    + repeat (apply Forall_cons; split); try done; apply Hl; lia.
    + rewrite Hn. cbn [length]. replace (S (S (S (S (length core))))) with (length core + 1 * 4) by lia. by rewrite Nat.Div0.mod_add.
Qed.
Lemma url_letters_checked :
  forallb (fun n => let c := letter (N.of_nat n) in
    bool_decide (of_url (to_url c) = c) && negb (line_break (to_url c)) && negb (not_url (to_url c))) (seq 0 64) = true.
Proof. vm_compute. reflexivity. Qed.
Lemma url_letter m : (m < 64)%N -> of_url (to_url (letter m)) = letter m /\ line_break (to_url (letter m)) = false /\ not_url (to_url (letter m)) = false.
Proof.
  intros Hm. assert (N.to_nat m ∈ seq 0 64) as Hin by (apply elem_of_seq; lia).
  pose proof (proj1 (forallb_elem_of _ _) url_letters_checked _ Hin) as Hx. cbv beta zeta in Hx. rewrite N2Nat.id in Hx.
  apply andb_true_iff in Hx as [[H1%bool_decide_eq_true H2%negb_true_iff]%andb_true_iff H3%negb_true_iff]. done.
Qed.

Lemma raw_decode_encode s : raw_decode (raw_encode s) = Ok s.
Proof.
  unfold raw_decode, raw_encode. rewrite String.list_ascii_of_string_of_list_ascii.
  destruct (decode_encode_parts (String.list_ascii_of_string s)) as (core & n & E & Hc & Hn).
  assert (filter (fun c => c <> pad) (encode_quanta (String.list_ascii_of_string s)) = core) as Hf.
  { rewrite E, filter_app, (filter_all _ core).
    - assert (filter (fun c => c <> pad) (replicate n pad) = []) as ->; [|by rewrite app_nil_r].
      clear. induction n as [|n IH]; [done|]. cbn [replicate]. by rewrite filter_cons_False by (by intros []).
    - eapply Forall_impl; [exact Hc|]. by intros c (? & _). }
  rewrite Hf, filter_all.
  2:{ apply Forall_fmap. eapply Forall_impl; [exact Hc|]. intros c (_ & _ & m & Hm & ->). by apply url_letter. }
  assert (existsb not_url (to_url <$> core) = false) as ->.
  { clear Hf E Hn. induction Hc as [|c l (_ & _ & m & Hm & ->) Hl IH]; [done|]. cbn. by rewrite (proj2 (proj2 (url_letter m Hm))). }
  assert (of_url <$> (to_url <$> core) = core) as ->.
  { clear Hf E Hn. induction Hc as [|c l (_ & _ & m & Hm & ->) Hl IH]; [done|]. cbn. f_equal; [by apply url_letter|exact IH]. }
  unfold padded. rewrite <- Hn, <- E, decode_encode. by rewrite String.string_of_list_ascii_of_string.
Qed.

(** A token leads back to the object it was made of. *)
Lemma continue_round_trip `{TokenJsonLaws} lastName lastUID : plain lastName = true -> plain lastUID = true ->
  exists token, EncodeContinue lastName lastUID = Ok token /\ DecodeContinue token = Ok (lastName, lastUID).
Proof.
  intros Hn Hu. destruct (token_marshal_ok lastName lastUID Hn Hu) as (text & E & D).
  exists (raw_encode text). unfold EncodeContinue, DecodeContinue. rewrite E, raw_decode_encode. done.
Qed.

(** ** What selectors of the REST API mean *)

(** ** Texts that do not hold the separator *)
Lemma prefix_first c r d s : String.prefix (String c r) (String d s) = true -> c = d.
Proof. cbn. by destruct (ascii_dec c d). Qed.
Lemma prefix_no_char c r s : no_char c s = true -> String.prefix (String c r) s = false.
Proof.
  destruct s as [|d s]; [done|]. cbn [no_char]. intros [Hd _]%andb_true_iff. apply not_true_iff_false. intros ->%prefix_first.
  by rewrite Ascii.eqb_refl in Hd.
Qed.
Lemma no_char_tail c d s : no_char c (String d s) = true -> no_char c s = true.
Proof. cbn. by intros [_ ?]%andb_true_iff. Qed.
Lemma Contains_no_char c r s : no_char c s = true -> Contains s (String c r) = false.
Proof.
  induction s as [|d s IH]; intros Hs; [done|]. cbn [Contains]. rewrite prefix_no_char by done. apply IH. by eapply no_char_tail.
Qed.
Lemma prefix_app_same s b : String.prefix s (s +:+ b) = true.
Proof. induction s as [|c s IH]; [by destruct b|]. change (String c s +:+ b) with (String c (s +:+ b)). cbn. by destruct (ascii_dec c c). Qed.
Lemma Contains_app a s b : Contains (a +:+ s +:+ b) s = true.
Proof.
  induction a as [|c a IH].
  - change ("" +:+ s +:+ b) with (s +:+ b). destruct (s +:+ b) as [|d t] eqn:E.
    + destruct s; [done|]. done.
    + cbn [Contains]. rewrite <- E, prefix_app_same. done.
  - change (String c a +:+ s +:+ b) with (String c (a +:+ s +:+ b)). cbn [Contains]. rewrite IH. apply orb_true_r.
Qed.

Lemma split_on_none c r s : no_char c s = true -> split_on (String c r) 0 s = [s].
Proof.
  induction s as [|d s IH]; intros Hs; [done|]. cbn [split_on]. rewrite prefix_no_char by done.
  rewrite IH; [done|by eapply no_char_tail].
Qed.
Lemma split_on_skip sep r b : split_on sep (String.length r) (r +:+ b) = split_on sep 0 b.
Proof. induction r as [|c r IH]; [done|]. exact IH. Qed.
Lemma split_on_app c r a b : no_char c a = true ->
  split_on (String c r) 0 (a +:+ String c r +:+ b) = a :: split_on (String c r) 0 b.
Proof.
  induction a as [|d a IH]; intros Ha.
  - change ("" +:+ String c r +:+ b) with (String c (r +:+ b)). cbn [split_on].
    change (String c (r +:+ b)) with (String c r +:+ b) at 1. rewrite prefix_app_same. cbn [String.length Nat.pred]. by rewrite split_on_skip.
  - change (String d a +:+ String c r +:+ b) with (String d (a +:+ String c r +:+ b)). cbn [split_on].
    assert (String.prefix (String c r) (String d (a +:+ String c r +:+ b)) = false) as ->.
    { apply not_true_iff_false. intros ->%prefix_first. cbn in Ha. by rewrite Ascii.eqb_refl in Ha. }
    rewrite IH; [done|by eapply no_char_tail].
Qed.

(** ** Selectors as a client writes them *)
Definition print_condition (c : condition) : string :=
  match c with
  | LabelIs key val => key +:+ "=" +:+ val
  | LabelIsNot key val => key +:+ "!=" +:+ val
  | HasLabel key => key
  | HasNoLabel key => "!" +:+ key
  end.
Fixpoint print_selector (c : condition) (cs : list condition) : string :=
  match cs with
  | [] => print_condition c
  | c' :: rest => print_condition c +:+ "," +:+ print_selector c' rest
  end.
Definition word (s : string) : Prop :=
  no_char "=" s = true /\ no_char "!" s = true /\ no_char "," s = true /\ TrimSpace s = s.
Definition words (c : condition) : Prop :=
  match c with LabelIs key val | LabelIsNot key val => word key /\ word val | HasLabel key | HasNoLabel key => word key end.

Lemma no_bang_equal k : no_char "=" k = true -> Contains (String "!" k) "!=" = false \/ no_char "!" k = false.
Proof.
  intros He. destruct (no_char "!" k) eqn:Hb; [left|by right]. cbn [Contains]. apply orb_false_iff. split; [|by apply Contains_no_char].
  apply not_true_iff_false. cbn [String.prefix]. destruct (ascii_dec "!" "!"); [|done]. destruct k as [|d k]; [done|].
  intros <-%prefix_first. cbn in He. done.
Qed.

Lemma parse_print c : words c -> parse_selector (print_condition c) = Ok c.
Proof.
  unfold parse_selector. destruct c as [k v|k v|k|k]; cbn [words print_condition].
  - intros [(Hk & Hkb & _ & Hkt) (Hv & Hvb & _ & Hvt)].
    rewrite (Contains_no_char "!" "="); [|by rewrite !no_char_app, Hkb, Hvb].
    rewrite (Contains_app k "=" v), orb_true_r. unfold Split. rewrite split_on_app, split_on_none by done. by rewrite Hkt, Hvt.
  - intros [(Hk & Hkb & _ & Hkt) (Hv & Hvb & _ & Hvt)].
    rewrite (Contains_app k "!=" v). unfold Split. rewrite split_on_app, split_on_none by done. by rewrite Hkt, Hvt.
  - intros (Hk & Hkb & _ & Hkt). rewrite !Contains_no_char by done. cbn [orb]. rewrite prefix_no_char by done. by rewrite Hkt.
  - intros (Hk & Hkb & _ & Hkt). change ("!" +:+ k) with (String "!" k).
    destruct (no_bang_equal k Hk) as [->|?]; [|congruence]. rewrite !Contains_no_char by done. cbn [orb].
    assert (String.prefix "!" (String "!" k) = true) as -> by (by destruct k). cbn [TrimPrefix1]. by rewrite Hkt.
Qed.
Lemma print_no_comma c : words c -> no_char "," (print_condition c) = true.
Proof.
  destruct c as [k v|k v|k|k]; cbn [words print_condition].
  - intros [(_ & _ & Hk & _) (_ & _ & Hv & _)]. by rewrite !no_char_app, Hk, Hv.
  - intros [(_ & _ & Hk & _) (_ & _ & Hv & _)]. by rewrite !no_char_app, Hk, Hv.
  - by intros (_ & _ & Hk & _).
  - intros (_ & _ & Hk & _). by rewrite !no_char_app, Hk.
Qed.

(** ** The condition as PostgreSQL reads it

    A reader of the texts that the selectors are made into: conditions joined by
    AND, each of them negated or not, on the labels of the payload. A text without
    a quote ends at the next one; the JSON of a label has no escapes. *)
Fixpoint strip (p s : string) : option string :=
  match p, s with
  | EmptyString, _ => Some s
  | String c p', String d s' => if Ascii.eqb c d then strip p' s' else None
  | String _ _, EmptyString => None
  end.
(** What comes before and after the first [c]. *)
Fixpoint take_until (c : ascii) (s : string) : option (string * string) :=
  match s with
  | EmptyString => None
  | String d s' =>
      if Ascii.eqb d c then Some ("", s')
      else match take_until c s' with Some (a, b) => Some (String d a, b) | None => None end
  end.
Definition quote_char : ascii := ascii_of_nat 39.
Definition dquote_char : ascii := ascii_of_nat 34.
Definition backslash_char : ascii := ascii_of_nat 92.

Inductive sql_atom := SqlContains (key val : string) | SqlHasKey (key : string).
Record sql_condition := MkSql { sql_not : bool; sql_on : sql_atom }.

Definition read_atom (s : string) : option (sql_atom * string) :=
  match strip "payload -> 'metadata' -> 'labels' " s with
  | None => None
  | Some s1 =>
      match strip ("@> '{" +:+ dquote) s1 with
      | Some s2 =>
          match take_until dquote_char s2 with
          | None => None
          | Some (key, s3) =>
              match strip (": " +:+ dquote) s3 with
              | None => None
              | Some s4 =>
                  match take_until dquote_char s4 with
                  | None => None
                  | Some (val, s5) => match strip "}'" s5 with Some s6 => Some (SqlContains key val, s6) | None => None end
                  end
              end
          end
      | None =>
          match strip "? '" s1 with
          | None => None
          | Some s2 => match take_until quote_char s2 with Some (key, s3) => Some (SqlHasKey key, s3) | None => None end
          end
      end
  end.
Definition read_condition (s : string) : option (sql_condition * string) :=
  match strip " AND " s with
  | None => None
  | Some s1 =>
      match strip "NOT (" s1 with
      | Some s2 =>
          match read_atom s2 with
          | None => None
          | Some (a, s3) => match strip ")" s3 with Some s4 => Some (MkSql true a, s4) | None => None end
          end
      | None => match read_atom s1 with Some (a, s2) => Some (MkSql false a, s2) | None => None end
      end
  end.
Fixpoint read_where (fuel : nat) (s : string) : option (list sql_condition) :=
  match s, fuel with
  | EmptyString, _ => Some []
  | _, O => None
  | _, S fuel =>
      match read_condition s with
      | None => None
      | Some (c, rest) => match read_where fuel rest with Some cs => Some (c :: cs) | None => None end
      end
  end.

(** The value of a condition: NULL when there are no labels, also negated. *)
Definition sql_atom_value (labels : option (gmap string string)) (a : sql_atom) : option bool :=
  m ← labels;
  Some (match a with
        | SqlContains key val => bool_decide (m !! key = Some val)
        | SqlHasKey key => bool_decide (is_Some (m !! key))
        end).
Definition sql_value (labels : option (gmap string string)) (c : sql_condition) : option bool :=
  (if sql_not c then negb else id) <$> sql_atom_value labels (sql_on c).
(** Whether the text selects an object: every condition is true. *)
Definition sql_selects (labels : option (gmap string string)) (text : string) : bool :=
  match read_where (String.length text) text with
  | Some cs => forallb (fun c => bool_decide (sql_value labels c = Some true)) cs
  | None => false
  end.

(** A key or a value that ends no text. *)
Definition unquoted (s : string) : Prop :=
  no_char quote_char s = true /\ no_char dquote_char s = true /\ no_char backslash_char s = true.
Definition unquoted_condition (c : condition) : Prop :=
  match c with LabelIs key val | LabelIsNot key val => unquoted key /\ unquoted val | HasLabel key | HasNoLabel key => unquoted key end.

Lemma strip_app p s : strip p (p +:+ s) = Some s.
Proof. induction p as [|c p IH]; [by destruct s|]. change (String c p +:+ s) with (String c (p +:+ s)). cbn [strip]. by rewrite Ascii.eqb_refl. Qed.
Lemma take_until_app c a s : no_char c a = true -> take_until c (a +:+ String c s) = Some (a, s).
Proof.
  induction a as [|d a IH]; [change ("" +:+ String c s) with (String c s); cbn [take_until]; by rewrite Ascii.eqb_refl|]. cbn [no_char]. intros [Hd Ha]%andb_true_iff.
  change (String d a +:+ String c s) with (String d (a +:+ String c s)). cbn [take_until]. apply negb_true_iff in Hd. rewrite Hd, IH by done. done.
Qed.

Definition sql_of (c : condition) : sql_condition :=
  match c with
  | LabelIs key val => MkSql false (SqlContains key val)
  | LabelIsNot key val => MkSql true (SqlContains key val)
  | HasLabel key => MkSql false (SqlHasKey key)
  | HasNoLabel key => MkSql true (SqlHasKey key)
  end.

Lemma read_label key val tail : unquoted key -> unquoted val ->
  read_atom ("payload -> 'metadata' -> 'labels' @> '" +:+ label_json key val +:+ "'" +:+ tail) = Some (SqlContains key val, tail).
Proof.
  intros (_ & Hk & _) (_ & Hv & _). unfold read_atom, label_json, quoted. rewrite !string_app_assoc.
  change ("payload -> 'metadata' -> 'labels' @> '" +:+ ?x) with ("payload -> 'metadata' -> 'labels' " +:+ ("@> '" +:+ x)).
  rewrite strip_app. change ("@> '" +:+ "{" +:+ dquote +:+ ?x) with (("@> '{" +:+ dquote) +:+ x). rewrite strip_app.
  change (dquote +:+ ": " +:+ ?x) with (String dquote_char (": " +:+ x)). rewrite take_until_app by done.
  change (": " +:+ dquote +:+ ?x) with ((": " +:+ dquote) +:+ x). rewrite strip_app.
  change (dquote +:+ "}" +:+ ?x) with (String dquote_char ("}" +:+ x)). rewrite take_until_app by done.
  change ("}" +:+ "'" +:+ tail) with ("}'" +:+ tail). by rewrite strip_app.
Qed.
Lemma read_label_key key tail : unquoted key ->
  read_atom ("payload -> 'metadata' -> 'labels' ? '" +:+ key +:+ "'" +:+ tail) = Some (SqlHasKey key, tail).
Proof.
  intros (Hk & _). unfold read_atom.
  change ("payload -> 'metadata' -> 'labels' ? '" +:+ ?x) with ("payload -> 'metadata' -> 'labels' " +:+ ("? '" +:+ x)).
  rewrite strip_app. change (strip ("@> '{" +:+ dquote) ("? '" +:+ ?x)) with (None : option string). cbn iota.
  rewrite strip_app. change ("'" +:+ tail) with (String quote_char tail). by rewrite take_until_app.
Qed.
Lemma read_text c tail : unquoted_condition c ->
  read_condition (condition_text c +:+ tail) = Some (sql_of c, tail).
Proof.
  unfold read_condition. destruct c as [k v|k v|k|k]; cbn [unquoted_condition condition_text sql_of].
  - intros [Hk Hv]. rewrite !string_app_assoc.
    change (" AND payload -> 'metadata' -> 'labels' @> '" +:+ ?x) with (" AND " +:+ ("payload -> 'metadata' -> 'labels' @> '" +:+ x)).
    rewrite strip_app. change (strip "NOT (" ("payload -> 'metadata' -> 'labels' @> '" +:+ ?x)) with (None : option string). cbn iota.
    by rewrite read_label.
  - intros [Hk Hv]. rewrite !string_app_assoc.
    change (" AND NOT (payload -> 'metadata' -> 'labels' @> '" +:+ ?x) with
      (" AND " +:+ ("NOT (" +:+ ("payload -> 'metadata' -> 'labels' @> '" +:+ x))).
    rewrite !strip_app. change ("')" +:+ tail) with ("'" +:+ (")" +:+ tail)). rewrite read_label by done. by rewrite strip_app.
  - intros Hk. rewrite !string_app_assoc.
    change (" AND payload -> 'metadata' -> 'labels' ? '" +:+ ?x) with (" AND " +:+ ("payload -> 'metadata' -> 'labels' ? '" +:+ x)).
    rewrite strip_app. change (strip "NOT (" ("payload -> 'metadata' -> 'labels' ? '" +:+ ?x)) with (None : option string). cbn iota.
    by rewrite read_label_key.
  - intros Hk. rewrite !string_app_assoc.
    change (" AND NOT (payload -> 'metadata' -> 'labels' ? '" +:+ ?x) with
      (" AND " +:+ ("NOT (" +:+ ("payload -> 'metadata' -> 'labels' ? '" +:+ x))).
    rewrite !strip_app. change ("')" +:+ tail) with ("'" +:+ (")" +:+ tail)). rewrite read_label_key by done. by rewrite strip_app.
Qed.
Lemma condition_text_long c : exists d s, condition_text c = String d s.
Proof. destruct c; by eexists _, _. Qed.
Lemma string_app_length a b : String.length (a +:+ b) = String.length a + String.length b.
Proof. induction a as [|x a IH]; [done|]. change (S (String.length (a +:+ b)) = S (String.length a) + String.length b). by rewrite IH. Qed.
Lemma read_all cs : Forall unquoted_condition cs -> forall fuel,
  String.length (foldr (fun c s => condition_text c +:+ s) "" cs) <= fuel ->
  read_where fuel (foldr (fun c s => condition_text c +:+ s) "" cs) = Some (sql_of <$> cs).
Proof.
  induction cs as [|c cs IH]; intros Hq fuel Hf; [by destruct fuel|]. apply Forall_cons in Hq as [Hc Hq]. cbn [foldr] in *.
  set (tail := foldr (fun c s => condition_text c +:+ s) "" cs) in *.
  pose proof (read_text c tail Hc) as E. destruct (condition_text_long c) as (d & s & Es). rewrite string_app_length, Es in Hf. cbn in Hf.
  destruct fuel as [|fuel]; [lia|]. rewrite Es in E |- *. change (String d s +:+ tail) with (String d (s +:+ tail)) in *.
  cbn [read_where]. rewrite E, IH by (done || lia). done.
Qed.
(** The lists evaluate the conditions as PostgreSQL evaluates their text. *)
Lemma sql_selects_text labels cs : Forall unquoted_condition cs ->
  sql_selects labels (foldr (fun c s => condition_text c +:+ s) "" cs) = forallb (holds labels) cs.
Proof.
  intros Hq. unfold sql_selects. rewrite read_all by done. clear Hq.
  induction cs as [|c cs IH]; [done|]. cbn [fmap list_fmap forallb]. rewrite IH. f_equal. clear.
  unfold sql_value, sql_atom_value. destruct labels as [m|]; [|by destruct c].
  destruct c; cbn; repeat case_bool_decide; naive_solver.
Qed.
Lemma holds_selects m x : holds (Some m) x = true <-> selects m x.
Proof.
  destruct x; cbn [holds selects]; rewrite ?negb_true_iff, ?bool_decide_eq_true, ?bool_decide_eq_false; try done.
  by rewrite eq_None_not_Some.
Qed.
Lemma conditions_are_read c cs : Forall words (c :: cs) -> label_conditions (print_selector c cs) = Ok (c :: cs).
Proof.
  unfold label_conditions. revert c. induction cs as [|c' cs IH]; intros c Hw; apply Forall_cons in Hw as [Hc Hw]; cbn [print_selector].
  - rewrite split_char_none by (by apply print_no_comma). cbn. by rewrite parse_print.
  - change ("," +:+ print_selector c' cs) with (String "," (print_selector c' cs)).
    rewrite split_char_app by (by apply print_no_comma). cbn [parse_selectors]. rewrite parse_print by done. by rewrite IH.
Qed.

(** C35: a selector whose keys and values hold no separator, no quote and no
    backslash, written with one equals sign and joined by commas, becomes a text
    of the query that PostgreSQL reads as conditions on the labels, and that
    holds of an object with labels exactly when the selector of Kubernetes
    selects it. *)
Theorem selectors_are_read_as_written c cs (m : gmap string string)
    (Hwords : Forall words (c :: cs)) (Hquotes : Forall unquoted_condition (c :: cs)) :
  exists text, ParseLabelSelector (print_selector c cs) = Ok text /\
    (sql_selects (Some m) text = true <-> Forall (selects m) (c :: cs)).
Proof.
  eexists. unfold ParseLabelSelector. rewrite conditions_are_read by done. split; [done|].
  rewrite sql_selects_text by done. rewrite forallb_elem_of, Forall_forall. by setoid_rewrite holds_selects.
Qed.

(** A selector with two equals signs is refused: although the code looks for
    them, it splits at each sign, so a list that asks for a label with [==] is an
    error, whatever else it asks for. *)
Theorem double_equals_is_refused pre key val post (Hkey : word key) (Hval : word val) :
  exists e, parse_selectors (pre ++ (key +:+ "==" +:+ val) :: post) = Err e.
Proof.
  induction pre as [|s pre IH]; cbn [app parse_selectors].
  - destruct Hkey as (Hk & Hkb & _), Hval as (Hv & Hvb & _).
    unfold parse_selector. rewrite (Contains_no_char "!" "="); [|by rewrite !no_char_app, Hkb, Hvb].
    rewrite (Contains_app key "==" val). cbn [orb]. unfold Split.
    change (key +:+ "==" +:+ val) with (key +:+ "=" +:+ ("=" +:+ val)). rewrite split_on_app by done.
    change ("=" +:+ val) with ("" +:+ "=" +:+ val). rewrite split_on_app by done. rewrite split_on_none by done. by eexists.
  - destruct IH as [e ->]. destruct (parse_selector s) as [c|e']; by eexists.
Qed.

(** A value with a quote ends the text of the query that it is part of. *)
Example selector_with_a_quote :
  ParseLabelSelector "!a' OR 'b" = Ok " AND NOT (payload -> 'metadata' -> 'labels' ? 'a' OR 'b')".
Proof. vm_compute. reflexivity. Qed.
(** An object without labels is left out also where a label must not be there. *)
Example objects_without_labels_are_left_out : holds None (LabelIsNot "env" "prod") = false /\ selects ∅ (LabelIsNot "env" "prod").
Proof. split; [reflexivity|]. by cbn. Qed.
Example table_format : ShouldReturnAsTable "application/json;as=Table;v=v1;g=meta.k8s.io,application/json" = true /\
  ShouldReturnAsTable "application/json; as=Table; v=v1; g=meta.k8s.io" = false.
Proof. by vm_compute. Qed.
