(* ===== verification/RestLists.v ===== *)
(** * The lists of the REST API

    Managed clusters, policies and subscriptions, page by page and as a watch
    ([managedclusters/list.go], [policies/list.go] and [subscriptions/list.go] of
    [manager/pkg/restapis]).  The tables hold payloads; the queries are functions
    of their rows, in the order of PostgreSQL, and may fail. *)

From stdpp Require Import prelude gmap strings list sorting.
From Stdlib Require Import ZArith Lia Ascii.
From S2P Require Import Prelude.
From S2P Require Import GoLib.
From S2P Require Import Libraries.
From S2P Require Import RestUtil.

Local Open Scope string_scope.
Local Open Scope list_scope.

(** ** Rows and queries *)

(** An object as its payload is decoded: name, UID and the rest. *)
Record Object := MkObject { o_Name : string; o_UID : string; o_Rest : string }.
#[export] Instance object_dec : EqDecision Object.
Proof. solve_decision. Defined.

(** A row that is not deleted: the name in the payload, the second column of the
    order ([cluster_id], or the UID in the payload), the column [id] and the
    labels; the payload may not decode. *)
Record Row := MkRow {
  r_Name : string;
  r_Second : string;
  r_ID : string;
  r_Labels : option (gmap string string);
  r_Payload : option Object;
}.
#[export] Instance row_dec : EqDecision Row.
Proof. solve_decision. Defined.

(** The order of the texts in PostgreSQL is that of a collation, and identifiers
    have an order of their own. *)
Class Collation := {
  collates : relation string;
  collates_dec :: RelDecision collates;
  uid_le : relation string;
  uid_le_dec :: RelDecision uid_le;
}.
Class CollationLaws `{Collation} : Prop := {
  collates_total :: TotalOrder collates;
  uid_le_total :: TotalOrder uid_le;
  collates_empty s : collates "" s;
}.

Record ListRequest := MkRequest {
  q_labelSelector : string;
  q_limit : string;
  q_continue : string;
  q_Accept : string;
}.

Inductive Response :=
  | NothingWritten                                   (** status 200 and no body *)
  | InternalError
  | Panics                                           (** the server recovers, with status 500 *)
  | ErrorFirst (r : Response)                        (** the error is written, and then the answer *)
  | ItemList (items : list Object) (continue_ : string)
  | Table (items : list Object).                     (** the converted list has no token *)

Section Lists.
Context `{Collation} `{TokenJson}.

Definition strictly (R : relation string) `{!RelDecision R} (x y : string) : bool := bool_decide (R x y) && negb (bool_decide (x = y)).
(** [(name, second) > (lastName, lastSecond)] *)
Definition after (last : string * string) (r : Row) : bool :=
  strictly collates last.1 (r_Name r) || (bool_decide (last.1 = r_Name r) && strictly uid_le last.2 (r_Second r)).
Definition row_le (a b : Row) : Prop :=
  strictly collates (r_Name a) (r_Name b) = true \/ (r_Name a = r_Name b /\ uid_le (r_Second a) (r_Second b)).
#[export] Instance row_le_dec : RelDecision row_le.
Proof. intros a b. unfold row_le. apply _. Defined.

Definition ordered (table : list Row) : list Row := merge_sort row_le table.

(** The query of a page: [LIMIT] when the request has one, which the database reads. *)
Context (read_limit : string -> result nat).
Definition list_query (table : list Row) (cs : list condition) (last : string * string) (limit : string) : result (list Row) :=
  let rows := filter (fun r => after last r && forallb (holds (r_Labels r)) cs = true) (ordered table) in
  if String.eqb limit "" then Ok rows
  else match read_limit limit with Ok n => Ok (take n rows) | Err e => Err e end.
(** The last row of the table, whatever the selector. *)
Definition last_query (table : list Row) : option Row := last (ordered table).

(** ** Managed clusters ([managedclusters/list.go]) *)
Definition respond (Accept : string) (items : list Object) (continue_ : string) : Response :=
  if ShouldReturnAsTable Accept then Table items else ItemList items continue_.

(** Items, name and UID of the last one, or a payload that does not decode. *)
Fixpoint cluster_items (rows : list Row) (lastName lastUID : string) : option (list Object * (string * string)) :=
  match rows with
  | [] => Some ([], (lastName, lastUID))
  | r :: rest =>
      match r_Payload r with
      | None => None
      | Some o =>
          match cluster_items rest (o_Name o) (o_UID o) with
          | Some (items, l) => Some (o :: items, l)
          | None => None
          end
      end
  end.
(** A further page is announced when name and UID both differ from the last ones. *)
Definition more (name uid lastName lastUID : string) : bool :=
  negb (String.eqb name "") && negb (String.eqb lastName "") && negb (String.eqb name lastName) &&
  negb (String.eqb uid "") && negb (String.eqb lastUID "") && negb (String.eqb uid lastUID).

(** [lastResult] is the answer to the query of the last row, with its payload. *)
Definition clusters_handleRows (Accept : string) (rows : result (list Row)) (lastResult : scanned (option Object)) : Response :=
  match lastResult with
  | ScanError _ => InternalError
  | Scanned None => InternalError
  | Scanned (Some _) | NoRows =>
      let lastCluster := match lastResult with Scanned (Some o) => o | _ => MkObject "" "" "" end in
      match rows with
      | Err _ => Panics
      | Ok rows =>
          match cluster_items rows "" "" with
          | None => InternalError
          | Some (items, (name, uid)) =>
              if more name uid (o_Name lastCluster) (o_UID lastCluster) then
                match EncodeContinue name uid with
                | Err _ => InternalError
                | Ok token => respond Accept items token
                end
              else respond Accept items ""
          end
      end
  end.

Definition nil_uuid : string := "00000000-0000-0000-0000-000000000000".
(** [uuid.Parse] *)
Context (parse_uuid : string -> result string).

Definition parsed_selector (labelSelector : string) : result (list condition) :=
  if String.eqb labelSelector "" then Ok [] else label_conditions labelSelector.
Definition scan_last (r : option Row) : scanned (option Object) :=
  match r with None => NoRows | Some r => Scanned (r_Payload r) end.

Definition ListManagedClusters (table : list Row) (req : ListRequest) : Response :=
  match parsed_selector (q_labelSelector req) with
  | Err _ => NothingWritten
  | Ok cs =>
      let start :=
        if String.eqb (q_continue req) "" then Ok ("", nil_uuid)
        else match DecodeContinue (q_continue req) with
             | Err e => Err e
             | Ok (name, uid) => match parse_uuid uid with Ok u => Ok (name, u) | Err e => Err e end
             end in
      match start with
      | Err _ => NothingWritten
      | Ok last =>
          clusters_handleRows (q_Accept req) (list_query table cs last (q_limit req)) (scan_last (last_query table))
      end
  end.

(** ** Subscriptions ([subscriptions/list.go])

    A payload that does not decode is skipped. *)
Fixpoint subscription_items (rows : list Row) (lastName lastUID : string) : list Object * (string * string) :=
  match rows with
  | [] => ([], (lastName, lastUID))
  | r :: rest =>
      match r_Payload r with
      | None => subscription_items rest lastName lastUID
      | Some o => let '(items, l) := subscription_items rest (o_Name o) (o_UID o) in (o :: items, l)
      end
  end.
Definition subscriptions_handleRows (Accept : string) (rows : result (list Row)) (lastResult : scanned (option Object)) : Response :=
  match lastResult with
  | ScanError _ => InternalError
  | Scanned None => InternalError
  | Scanned (Some _) | NoRows =>
      let lastSubscription := match lastResult with Scanned (Some o) => o | _ => MkObject "" "" "" end in
      match rows with
      | Err _ => Panics
      | Ok rows =>
          let '(items, (name, uid)) := subscription_items rows "" "" in
          if more name uid (o_Name lastSubscription) (o_UID lastSubscription) then
            match EncodeContinue name uid with
            | Err _ => InternalError
            | Ok token => respond Accept items token
            end
          else respond Accept items ""
      end
  end.
Definition start_of (continue_ : string) : result (string * string) :=
  if String.eqb continue_ "" then Ok ("", "") else DecodeContinue continue_.
Definition ListSubscriptions (table : list Row) (req : ListRequest) : Response :=
  match parsed_selector (q_labelSelector req) with
  | Err _ => NothingWritten
  | Ok cs =>
      match start_of (q_continue req) with
      | Err _ => NothingWritten
      | Ok last =>
          subscriptions_handleRows (q_Accept req) (list_query table cs last (q_limit req)) (scan_last (last_query table))
      end
  end.

(** ** Watches

    [rows.Scan] into an object of Kubernetes: [database/sql] refuses to store a
    column into a struct that is no [Scanner]. *)
Definition scan_into_object (r : Row) : result Object := Err "unsupported Scan".

Inductive EventType := ADDED | DELETED.
(** What one tick writes, and the names of the added objects after it. *)
Definition doHandleRowsForWatch (rows : result (list Row)) (preAdded : gset string) : outcome (list (EventType * Object) * gset string) :=
  match rows with
  | Err _ => Panic
  | Ok rows =>
      let objects := omap (fun r => match scan_into_object r with Ok o => Some o | Err _ => None end) rows in
      let added : gset string := list_to_set (o_Name <$> objects) in
      let gone := preAdded ∖ added in
      Ret (((fun o => (ADDED, o)) <$> objects) ++ ((fun name => (DELETED, MkObject name "" "")) <$> elements gone),
           (preAdded ∖ gone) ∪ (added ∖ (preAdded ∖ gone)))
  end.
(** The ticks of a watch, with the answers to its query. *)
Fixpoint watch (ticks : list (result (list Row))) (preAdded : gset string) : outcome (list (EventType * Object)) :=
  match ticks with
  | [] => Ret []
  | rows :: rest =>
      match doHandleRowsForWatch rows preAdded with
      | Ret (events, added) => match watch rest added with Ret more_ => Ret (events ++ more_) | r => r end
      | _ => Panic
      end
  end.
End Lists.

(** ** Policies and subscription reports of the REST API

    The list and the watch of the policies with their compliance
    ([policies/list.go]), the status of one policy ([policies/get.go]) and the
    report of a subscription, summed over the hubs ([subscriptions/get.go]). *)

(** ** Status of a policy *)
Record policyMatch := MkMatch { pm_policy : string; pm_placementrule : string; pm_placementbinding : string }.
Record Placement := MkPlacement { pl_Rule : string; pl_Binding : string }.
Record ClusterStatus := MkClusterStatus { cs_ClusterName : string; cs_State : string }.
Record PolicyStatus := MkPolicyStatus {
  ps_Placement : list Placement;
  ps_Status : list ClusterStatus;
  ps_ComplianceState : string;
  ps_Summary : option (Z * Z);     (** compliant and not compliant clusters, in the lists *)
}.
Definition Compliant : string := "Compliant".
Definition NonCompliant : string := "NonCompliant".

Definition dbEnumToPolicyComplianceStateMap (s : string) : string :=
  if String.eqb s "compliant" then Compliant else if String.eqb s "non_compliant" then NonCompliant else "".

(** A row of the compliance of a policy, in the order of hubs and clusters. *)
Record ComplianceRow := MkComplianceRow { cr_Cluster : string; cr_Hub : string; cr_Compliance : string }.

(** [rows] is the answer to the query for the policy; a row that cannot be
    scanned is an error. *)
Definition getComplianceStatus (rows : result (list ComplianceRow)) : result (list ClusterStatus * bool) :=
  match rows with
  | Err e => Err e
  | Ok rows =>
      let statuses := (fun r => MkClusterStatus (cr_Cluster r) (dbEnumToPolicyComplianceStateMap (cr_Compliance r))) <$> rows in
      Ok (statuses, existsb (fun s => String.eqb (cs_State s) NonCompliant) statuses)
  end.

Definition placements (name : string) (matches : list policyMatch) : list Placement :=
  (fun pm => MkPlacement (pm_placementrule pm) (pm_placementbinding pm)) <$> filter (fun pm => pm_policy pm = name) matches.
Definition compliance_state (statuses : list ClusterStatus) (hasNonCompliantClusters : bool) : string :=
  if hasNonCompliantClusters then NonCompliant
  else if (0 <? length statuses)%nat then Compliant else "".

(** The counters are 32-bit integers. *)
Definition inc32 (z : Z) : Z := ((z + 1 + 2 ^ 31) mod 2 ^ 32 - 2 ^ 31)%Z.
Definition count_status (s : Z * Z) (c : ClusterStatus) : Z * Z :=
  if String.eqb (cs_State c) Compliant then (inc32 s.1, s.2)
  else if String.eqb (cs_State c) NonCompliant then (s.1, inc32 s.2)
  else s.
Definition assemblePolicyStatus (name : string) (matches : list policyMatch) (statuses : list ClusterStatus)
    (hasNonCompliantClusters : bool) : PolicyStatus :=
  MkPolicyStatus (placements name matches) statuses (compliance_state statuses hasNonCompliantClusters)
    (Some (foldl count_status (0, 0)%Z statuses)).

(** ** The list *)
Inductive PolicyResponse :=
  | PNothingWritten
  | PInternalError
  | PPanics
  | PErrorFirst (r : PolicyResponse)
  | PList (items : list (Object * PolicyStatus)) (continue_ : string)
  | PTable (items : list (Object * PolicyStatus)).

Section Policies.
Context `{Collation} `{TokenJson}.
(** The answers of the database to the queries for the compliance of a policy and
    for the placements of the policies. *)
Context (compliance_rows : string -> result (list ComplianceRow)).
Context (read_limit : string -> result nat).

(** The name of the last item, and the ID of the last row, with an item or not. *)
Fixpoint policy_items (matches : list policyMatch) (rows : list Row) (name uid : string)
    : list (Object * PolicyStatus) * (string * string) :=
  match rows with
  | [] => ([], (name, uid))
  | r :: rest =>
      match r_Payload r with
      | None => policy_items matches rest name (r_ID r)
      | Some o =>
          match getComplianceStatus (compliance_rows (r_ID r)) with
          | Err _ => policy_items matches rest name (r_ID r)
          | Ok (statuses, non) =>
              let '(items, l) := policy_items matches rest (o_Name o) (r_ID r) in
              ((o, assemblePolicyStatus (o_Name o) matches statuses non) :: items, l)
          end
      end
  end.

Definition handlePolicies (Accept : string) (matches : result (list policyMatch)) (rows : result (list Row))
    (lastResult : scanned (string * option Object)) : PolicyResponse :=
  match lastResult with
  | ScanError _ => PInternalError
  | Scanned (_, None) => PNothingWritten
  | Scanned (_, Some _) | NoRows =>
      let '(lastPolicyID, lastPolicy) :=
        match lastResult with Scanned (i, Some o) => (i, o) | _ => ("", MkObject "" "" "") end in
      let '(policyMatches, failed) := match matches with Ok m => (m, false) | Err _ => ([], true) end in
      match rows with
      | Err _ => PPanics
      | Ok rows =>
          let '(items, (name, uid)) := policy_items policyMatches rows "" "" in
          let answer token := if ShouldReturnAsTable Accept then PTable items else PList items token in
          let r :=
            if more name uid (o_Name lastPolicy) lastPolicyID then
              match EncodeContinue name uid with Err _ => PNothingWritten | Ok token => answer token end
            else answer "" in
          if failed then PErrorFirst r else r
      end
  end.

Definition ListPolicies (table : list Row) (matches : result (list policyMatch)) (req : ListRequest) : PolicyResponse :=
  match parsed_selector (q_labelSelector req) with
  | Err _ => PNothingWritten
  | Ok cs =>
      match start_of (q_continue req) with
      | Err _ => PNothingWritten
      | Ok last =>
          handlePolicies (q_Accept req) matches (list_query read_limit table cs last (q_limit req))
            (match last_query table with None => NoRows | Some r => Scanned (r_ID r, r_Payload r) end)
      end
  end.

(** ** The watch of the list *)
Definition watch_event (matches : list policyMatch) (o : Object) (policyID : string) : result (Object * PolicyStatus) :=
  match getComplianceStatus (compliance_rows policyID) with
  | Err e => Err e
  | Ok (statuses, non) =>
      Ok (o, MkPolicyStatus (placements (o_Name o) matches) statuses (compliance_state statuses non) None)
  end.
Definition event_of (t : EventType) (r : result (Object * PolicyStatus)) : list (EventType * (Object * PolicyStatus)) :=
  match r with Ok e => [(t, e)] | Err _ => [] end.

(** The member [policyID/name] of the set, and what [strings.Split] makes of it. *)
Definition member (policyID name : string) : string := policyID +:+ "/" +:+ name.
Definition split_member (m : string) : string * string :=
  match split_char "/" m with id :: name :: _ => (id, name) | _ => ("", "") end.

Definition doHandlePoliciesForWatch (matches : list policyMatch) (rows : result (list Row)) (preAdded : gset string)
    : outcome (list (EventType * (Object * PolicyStatus)) * gset string) :=
  match rows with
  | Err _ => Panic
  | Ok rows =>
      let policies := omap (fun r => (fun o => (r_ID r, o)) <$> r_Payload r) rows in
      let addedEvents := p ← policies; event_of ADDED (watch_event matches p.2 p.1) in
      let added : gset string := list_to_set ((fun p => member p.1 (o_Name p.2)) <$> policies) in
      let toDelete := preAdded ∖ added in
      let deletedEvents := m ← elements toDelete;
        event_of DELETED (watch_event matches (MkObject (split_member m).2 "" "") (split_member m).1) in
      let pre := preAdded ∖ toDelete in
      Ret (addedEvents ++ deletedEvents, pre ∪ (added ∖ pre))
  end.

(** ** The status of one policy ([get.go])

    [queryPolicyStatus] gives no object with an error. *)
Definition queryPolicyStatus (matches : result (list policyMatch)) (payload : result (option Object)) (policyID : string)
    : result (Object * PolicyStatus) :=
  match matches with
  | Err e => Err e
  | Ok m =>
      match payload with
      | Err e => Err e
      | Ok None => Err "cannot unmarshal"
      | Ok (Some o) =>
          match getComplianceStatus (compliance_rows policyID) with
          | Err e => Err e
          | Ok (statuses, non) => Ok (o, assemblePolicyStatus (o_Name o) m statuses non)
          end
      end
  end.

(** [apiequality.Semantic.DeepDerivative] of two statuses. *)
Context (DeepDerivative : PolicyStatus -> PolicyStatus -> bool).

(** The policy as it was is a parameter: the assignment to it does not outlive
    the call. *)
Definition doHandlePolicyForWatch (cur : result (Object * PolicyStatus)) (pre : Object * PolicyStatus)
    : outcome (list (Object * PolicyStatus)) :=
  match cur with
  | Err _ => Panic
  | Ok (o, s) => if negb (DeepDerivative s pre.2) then Ret [(o, s)] else Ret []
  end.
Fixpoint policy_ticks (ticks : list (result (Object * PolicyStatus))) (pre : Object * PolicyStatus)
    : outcome (list (Object * PolicyStatus)) :=
  match ticks with
  | [] => Ret []
  | cur :: rest =>
      match doHandlePolicyForWatch cur pre with
      | Ret events => match policy_ticks rest pre with Ret more_ => Ret (events ++ more_) | r => r end
      | r => r
      end
  end.
(** The events of a watch of one policy; without the first status there is no
    object to compare with. *)
Definition handlePolicyForWatch (first : result (Object * PolicyStatus)) (ticks : list (result (Object * PolicyStatus)))
    : outcome (list (Object * PolicyStatus)) :=
  match first with
  | Err _ => match ticks with [] => Ret [] | _ :: _ => Panic end
  | Ok p => match policy_ticks ticks p with Ret events => Ret (p :: events) | r => r end
  end.
End Policies.

(** ** The report of a subscription ([subscriptions/get.go]) *)
Record ReportSummary := MkSummary {
  rs_Deployed : string; rs_InProgress : string; rs_Failed : string; rs_PropagationFailed : string; rs_Clusters : string;
}.
Record SubscriptionReport := MkReport {
  sr_Namespace : string; sr_Name : string;
  sr_Labels : gmap string string; sr_Annotations : gmap string string;
  sr_Summary : ReportSummary;
  sr_Results : list string;
}.

(** [strconv.Atoi] *)
Definition stringToInt (numberString : string) : Z :=
  match ParseInt numberString with (number, None) => number | (_, Some _) => 0%Z end.
Definition add_numbers (number1 number2 : string) : string := FormatInt (swrap64 (stringToInt number1 + stringToInt number2)).

Definition updateSubscriptionReportSummary (a r : ReportSummary) : ReportSummary :=
  MkSummary (add_numbers (rs_Deployed a) (rs_Deployed r)) (add_numbers (rs_InProgress a) (rs_InProgress r))
    (add_numbers (rs_Failed a) (rs_Failed r)) (add_numbers (rs_PropagationFailed a) (rs_PropagationFailed r))
    (add_numbers (rs_Clusters a) (rs_Clusters r)).

(** The label is a constant of the subscription operator. *)
Section Reports.
Context (AnnotationHosting : string).
Definition cleanSubscriptionReportObject (r : SubscriptionReport) : SubscriptionReport :=
  MkReport (sr_Namespace r) (sr_Name r) {[AnnotationHosting := sr_Namespace r +:+ "." +:+ sr_Name r]} ∅ (sr_Summary r) (sr_Results r).

Definition add_report (acc : option SubscriptionReport) (r : SubscriptionReport) : option SubscriptionReport :=
  match acc with
  | None => Some (cleanSubscriptionReportObject r)
  | Some a =>
      Some (MkReport (sr_Namespace a) (sr_Name a) (sr_Labels a) (sr_Annotations a)
        (updateSubscriptionReportSummary (sr_Summary a) (sr_Summary r)) (sr_Results a ++ sr_Results r))
  end.
(** The subscription by its ID, and the reports of the hubs; a payload that cannot
    be scanned or decoded is an error. *)
Definition getAggregatedSubscriptionReport (subscription : result (string * string))
    (reports : string * string -> result (list (result SubscriptionReport))) : result (option SubscriptionReport) :=
  match subscription with
  | Err e => Err e
  | Ok key =>
      match reports key with
      | Err e => Err e
      | Ok rows =>
          foldl (fun acc r =>
            match acc, r with
            | Err e, _ => Err e
            | _, Err e => Err e
            | Ok a, Ok x => Ok (add_report a x)
            end) (Ok None) rows
      end
  end.
End Reports.
