(* ===== verification/RestFacts.v ===== *)
(** * What the pages of the lists hold *)

From stdpp Require Import prelude gmap strings list sorting.
From Stdlib Require Import ZArith NArith Lia Ascii DecimalString DecimalN.
From S2P Require Import Prelude.
From S2P Require Import GoLib.
From S2P Require Import Libraries.
From S2P Require Import RestUtil.
From S2P Require Import RestLists.

Local Open Scope string_scope.
Local Open Scope list_scope.

(** ** Following the tokens of a list *)
Section Follow.
Context {A : Type} (page : string -> option (list A * string)).
Fixpoint follow (fuel : nat) (token : string) : option (list A) :=
  match fuel with
  | O => None
  | S n =>
      match page token with
      | None => None
      | Some (items, t) => if String.eqb t "" then Some items else app items <$> follow n t
      end
  end.
End Follow.

Lemma filter_split {X} (P : X -> Prop) `{!forall x, Decision (P x)} (l a b : list X) (r : X) :
  filter P l = a ++ r :: b -> exists l1 l2, l = l1 ++ r :: l2 /\ filter P l1 = a /\ filter P l2 = b.
Proof.
  revert a. induction l as [|x l IH]; intros a; [by destruct a|].
  destruct (decide (P x)) as [Hx|Hx].
  - rewrite filter_cons_True by done. destruct a as [|y a]; cbn; intros [= <- E].
    + by exists [], l.
    + destruct (IH a E) as (l1 & l2 & -> & <- & <-). exists (x :: l1), l2. by rewrite filter_cons_True.
  - rewrite filter_cons_False by done. intros E. destruct (IH a E) as (l1 & l2 & -> & <- & <-).
    exists (x :: l1), l2. by rewrite filter_cons_False.
Qed.

(** A page holds the first selected rows after its token, at least one when there
    is one, and its token leads after its last row unless that is the last of all. *)
Section Pages.
Context {A : Type} (all : list Row) (sel : Row -> Prop) `{!forall r, Decision (sel r)} (item : Row -> A) (token : Row -> string).
Context (taken : list Row -> list Row) (page : string -> option (list A * string)).
Definition points (pre : list Row) (t : string) : Prop :=
  (pre = [] /\ t = "") \/ (exists pre' r, pre = pre' ++ [r] /\ t = token r).
Definition next_token (p : list Row) : string :=
  match last p with
  | None => ""
  | Some r => if decide (last all = Some r) then "" else token r
  end.
Context (Htoken : forall r, r ∈ all -> token r <> "") (Hnodup : NoDup all).
Context (Htaken : forall l, exists b, l = taken l ++ b /\ (l <> [] -> taken l <> [])).
Context (Hpage : forall pre rest t, all = pre ++ rest -> points pre t ->
  page t = Some (item <$> taken (filter sel rest), next_token (taken (filter sel rest)))).

Lemma follow_pages fuel : forall pre rest t, all = pre ++ rest -> points pre t -> length rest < fuel ->
  follow page fuel t = Some (item <$> filter sel rest).
Proof.
  induction fuel as [|fuel IH]; intros pre rest t Ha Ht Hf; [lia|]. cbn [follow]. rewrite (Hpage pre rest t Ha Ht).
  destruct (Htaken (filter sel rest)) as (b & Eb & Hne). remember (taken (filter sel rest)) as p eqn:Ep.
  destruct (last p) as [r|] eqn:Hl.
  - apply last_Some in Hl as (a & ->). rewrite <- app_assoc in Eb. cbn in Eb.
    destruct (filter_split sel rest a b r Eb) as (l1 & l2 & -> & E1 & E2).
    unfold next_token. rewrite last_snoc. case_decide as Hlast.
    + cbn. assert (l2 = []) as ->.
      { rewrite Ha in Hlast. destruct (decide (l2 = [])) as [|Hl2]; [done|exfalso].
        rewrite app_assoc in Hlast.
        destruct (exists_last Hl2) as (l3 & x & ->).
        replace ((pre ++ l1) ++ r :: l3 ++ [x]) with (((pre ++ l1) ++ r :: l3) ++ [x]) in Hlast by (by rewrite <- !app_assoc).
        rewrite last_snoc in Hlast. injection Hlast as ->. rewrite Ha in Hnodup.
        rewrite app_assoc in Hnodup. apply NoDup_app in Hnodup as (_ & _ & Hn). apply NoDup_cons in Hn as [Hn _]. apply Hn.
        apply elem_of_app. right. by apply list_elem_of_singleton. }
      rewrite Eb. cbn in E2. by rewrite <- E2.
    + rewrite (proj2 (String.eqb_neq (token r) "")).
      2:{ apply Htoken. rewrite Ha. apply elem_of_app. right. apply elem_of_app. right. by left. }
      rewrite (IH (pre ++ l1 ++ [r]) l2 (token r)).
      * cbn. rewrite Eb, !fmap_app. cbn. by rewrite E2, <- app_assoc.
      * by rewrite Ha, <- !app_assoc.
      * right. exists (pre ++ l1), r. by rewrite app_assoc.
      * rewrite length_app in Hf. cbn in Hf. lia.
  - apply last_None in Hl as ->. destruct (decide (filter sel rest = [])) as [E0|Hn]; [|by destruct (Hne Hn)].
    unfold next_token. cbn. by rewrite E0.
Qed.
Lemma follow_all : follow page (S (length all)) "" = Some (item <$> filter sel all).
Proof. apply (follow_pages _ [] all); [done|by left|lia]. Qed.
End Pages.

(** ** The order of the rows *)
Section Order.
Context `{CollationLaws}.

#[local] Existing Instances collates_total uid_le_total.
Lemma strictly_spec (R : relation string) `{!RelDecision R} x y : strictly R x y = true <-> R x y /\ x <> y.
Proof. unfold strictly. rewrite andb_true_iff, negb_true_iff, bool_decide_eq_true, bool_decide_eq_false. done. Qed.
Lemma strictly_irrefl (R : relation string) `{!RelDecision R} x : strictly R x x = false.
Proof. apply not_true_iff_false. rewrite strictly_spec. naive_solver. Qed.
Lemma strictly_asym (R : relation string) `{!RelDecision R, !AntiSymm (=) R} x y : strictly R x y = true -> strictly R y x = false.
Proof.
  rewrite strictly_spec. intros [Hxy Hne]. apply not_true_iff_false. rewrite strictly_spec. intros [Hyx _]. apply Hne. by apply (anti_symm R).
Qed.

#[export] Instance row_le_total : Total row_le.
Proof.
  intros a b. unfold row_le. rewrite !strictly_spec. destruct (decide (r_Name a = r_Name b)) as [E|Hne].
  - rewrite E. destruct (total uid_le (r_Second a) (r_Second b)); auto.
  - destruct (total collates (r_Name a) (r_Name b)); [left; left|right; left]; by split.
Qed.
#[export] Instance row_le_trans : Transitive row_le.
Proof.
  intros a b c. unfold row_le. rewrite !strictly_spec. intros [[Hab Nab]|[Eab Hab]] [[Hbc Nbc]|[Ebc Hbc]].
  - left. split; [by etrans|]. intros E. rewrite <- E in Hbc. apply Nab. by apply (anti_symm collates).
  - left. by rewrite <- Ebc.
  - left. by rewrite Eab.
  - right. split; [by etrans|by etrans].
Qed.

Lemma ordered_permutation table : ordered table ≡ₚ table.
Proof. apply merge_sort_Permutation. Qed.
Lemma ordered_elem r table : r ∈ ordered table <-> r ∈ table.
Proof. by rewrite ordered_permutation. Qed.
Lemma ordered_names table l1 l2 x y : NoDup (r_Name <$> table) -> ordered table = l1 ++ l2 -> x ∈ l1 -> y ∈ l2 ->
  strictly collates (r_Name x) (r_Name y) = true.
Proof.
  intros Hn E Hx Hy. pose proof (StronglySorted_merge_sort row_le table) as Hs. fold (ordered table) in Hs. rewrite E in Hs.
  pose proof (StronglySorted_app_1_elem_of _ _ _ _ _ Hs Hx Hy) as [?|[En _]]; [done|exfalso].
  assert (NoDup (r_Name <$> l1 ++ l2)) as Hn' by (rewrite <- E, ordered_permutation; exact Hn).
  rewrite fmap_app in Hn'. apply NoDup_app in Hn' as (_ & Hd & _). apply (Hd (r_Name x)); [by apply list_elem_of_fmap_2|].
  rewrite En. by apply list_elem_of_fmap_2.
Qed.

Lemma filter_both {X} (f g : X -> bool) (l : list X) :
  filter (fun x => f x && g x = true) l = filter (fun x => g x = true) (filter (fun x => f x = true) l).
Proof.
  induction l as [|x l IH]; [done|]. destruct (f x) eqn:Ef; [destruct (g x) eqn:Eg|].
  - rewrite filter_cons_True by (by rewrite Ef, Eg). rewrite filter_cons_True by done. rewrite filter_cons_True by done. by rewrite IH.
  - rewrite filter_cons_False by (by rewrite Ef, Eg). rewrite (filter_cons_True _ x l) by done. rewrite filter_cons_False by (by rewrite Eg). done.
  - rewrite filter_cons_False by (by rewrite Ef). rewrite (filter_cons_False _ x l) by (by rewrite Ef). done.
Qed.
Lemma filter_suffix {X} (f : X -> bool) (l1 l2 : list X) :
  (forall x, x ∈ l1 -> f x = false) -> (forall x, x ∈ l2 -> f x = true) -> filter (fun x => f x = true) (l1 ++ l2) = l2.
Proof.
  intros H1' H2'. rewrite filter_app. replace (filter (fun x => f x = true) l1) with (@nil X).
  - cbn. induction l2 as [|x l2 IH]; [done|]. rewrite filter_cons_True by (apply H2'; by left). f_equal. apply IH. intros y Hy. apply H2'. by right.
  - induction l1 as [|x l1 IH]; [done|]. rewrite filter_cons_False by (rewrite H1' by (by left); done). apply IH. intros y Hy. apply H1'. by right.
Qed.

(** Rows of one name are in the order of their second columns. *)
Lemma ordered_after table l1 l2 x y : NoDup (r_Second <$> table) -> ordered table = l1 ++ l2 -> x ∈ l1 -> y ∈ l2 ->
  after (r_Name x, r_Second x) y = true.
Proof.
  intros Hn E Hx Hy. pose proof (StronglySorted_merge_sort row_le table) as Hs. fold (ordered table) in Hs. rewrite E in Hs.
  unfold after. cbn. pose proof (StronglySorted_app_1_elem_of _ _ _ _ _ Hs Hx Hy) as [->|[En Hle]]; [done|].
  rewrite (bool_decide_eq_true_2 _ En), (proj2 (strictly_spec uid_le _ _)); [by rewrite orb_true_r|]. split; [done|]. intros E2.
  assert (NoDup (r_Second <$> l1 ++ l2)) as Hn' by (rewrite <- E, ordered_permutation; exact Hn).
  rewrite fmap_app in Hn'. apply NoDup_app in Hn' as (_ & Hd & _). apply (Hd (r_Second x)); [by apply list_elem_of_fmap_2|].
  rewrite E2. by apply list_elem_of_fmap_2.
Qed.
Lemma after_asym x y : after (r_Name x, r_Second x) y = true -> after (r_Name y, r_Second y) x = false.
Proof.
  unfold after. cbn. intros [Hs|[En%bool_decide_eq_true Hs]%andb_true_iff]%orb_true_iff.
  - rewrite (strictly_asym _ _ _ Hs). apply strictly_spec in Hs as [_ Hne]. by rewrite bool_decide_eq_false_2 by congruence.
  - rewrite En, strictly_irrefl, (strictly_asym _ _ _ Hs). by rewrite andb_false_r.
Qed.

(** What comes after a row, when the token tells its second column. *)
Lemma after_row table l1 r l2 : NoDup (r_Second <$> table) -> ordered table = l1 ++ r :: l2 ->
  filter (fun x => after (r_Name r, r_Second r) x = true) (ordered table) = l2.
Proof.
  intros Hn E. rewrite E. replace (l1 ++ r :: l2) with ((l1 ++ [r]) ++ l2) by (by rewrite <- app_assoc). apply filter_suffix.
  - intros x [Hx|Hx%list_elem_of_singleton]%elem_of_app.
    + apply after_asym. apply (ordered_after table l1 (r :: l2)); [done..|by left].
    + subst x. unfold after. cbn. by rewrite !strictly_irrefl, andb_false_r.
  - intros x Hx. apply (ordered_after table (l1 ++ [r]) l2); [done|by rewrite <- app_assoc|apply elem_of_app; right; by left|done].
Qed.
Lemma after_nothing table s : (forall r, r ∈ table -> r_Name r <> "") ->
  filter (fun x => after ("", s) x = true) (ordered table) = ordered table.
Proof.
  intros Hne. apply (filter_suffix (after ("", s)) []); [by intros x ?%not_elem_of_nil|]. intros x Hx. apply (proj1 (ordered_elem x table)) in Hx. unfold after. cbn.
  assert (strictly collates "" (r_Name x) = true) as ->; [|done]. apply strictly_spec. split; [apply collates_empty|]. intros E. by apply (Hne x Hx).
Qed.
End Order.

(** ** Tidy tables
    Names and identities are there and plain, each payload decodes, and the
    second column of the order is the identity that the tokens carry. The
    identities are unique; names may be shared, the greatest one excepted. *)
Record tidy `{Collation} (column : Row -> string) (table : list Row) : Prop := {
  tidy_last r l : last (ordered table) = Some l -> r ∈ table -> r_Name r = r_Name l -> r = l;
  tidy_columns : NoDup (column <$> table);
  tidy_plain r : r ∈ table -> r_Name r <> "" /\ plain (r_Name r) = true /\ column r <> "" /\ plain (column r) = true;
  tidy_payload r : r ∈ table -> exists o, r_Payload r = Some o /\ o_Name o = r_Name r;
  tidy_second r : r ∈ table -> r_Second r = column r;
}.
Definition object_of (r : Row) : Object := default (MkObject "" "" "") (r_Payload r).
Definition uid_of (r : Row) : string := o_UID (object_of r).
Definition limited (limit : nat) (l : list Row) : list Row := if (0 <? limit)%nat then take limit l else l.

Lemma limited_rest n l : exists b, l = limited n l ++ b /\ (l <> [] -> limited n l <> []).
Proof.
  unfold limited. destruct (Nat.ltb_spec 0 n) as [Hn|Hn].
  - exists (drop n l). split; [by rewrite take_drop|]. intros Hl. destruct l, n; naive_solver lia.
  - exists []. by rewrite app_nil_r.
Qed.

Section Tidy.
Context `{CollationLaws} `{TokenJsonLaws} (read_limit : string -> result nat).
Context (column : Row -> string) (table : list Row) (Htidy : tidy column table).
(** The limit of the request, 0 when it has none. *)
Context (limit : string) (n : nat) (Hlimit : if String.eqb limit "" then n = 0 else read_limit limit = Ok n /\ 0 < n).
Context (cs : list condition).

Definition token_of (r : Row) : string := match EncodeContinue (r_Name r) (column r) with Ok t => t | Err _ => "" end.
Definition selected (r : Row) : Prop := forallb (holds (r_Labels r)) cs = true.
#[export] Instance selected_dec r : Decision (selected r).
Proof. unfold selected. apply _. Defined.

Lemma tidy_token r : r ∈ table -> EncodeContinue (r_Name r) (column r) = Ok (token_of r) /\ DecodeContinue (token_of r) = Ok (r_Name r, column r).
Proof.
  intros Hr. destruct (tidy_plain _ _ Htidy r Hr) as (_ & Hn & _ & Hu). destruct (continue_round_trip _ _ Hn Hu) as (t & E & D).
  unfold token_of. rewrite E. done.
Qed.
Lemma token_nonempty r : r ∈ table -> token_of r <> "".
Proof.
  intros Hr E. destruct (tidy_token r Hr) as [_ D]. rewrite E in D. destruct token_unmarshal_empty as [e Hempty].
  unfold DecodeContinue in D. change (raw_decode "") with (Ok "" : result string) in D. cbn in D. by rewrite Hempty in D.
Qed.

Lemma tidy_seconds : NoDup (r_Second <$> table).
Proof.
  assert (r_Second <$> table = column <$> table) as ->; [|apply (tidy_columns _ _ Htidy)].
  apply list_fmap_ext. intros i r Hr. apply (tidy_second _ _ Htidy). by eapply list_elem_of_lookup_2.
Qed.
Lemma query_page pre rest t : ordered table = pre ++ rest -> points token_of pre t ->
  exists last, start_of t = Ok last /\
  list_query read_limit table cs last limit = Ok (limited n (filter selected rest)).
Proof.
  intros E Ht.
  assert (exists last, start_of t = Ok last /\ filter (fun x => after last x = true) (ordered table) = rest) as (last & Es & Ea).
  { destruct Ht as [[-> ->]|(pre' & r & -> & ->)].
    - exists ("", ""). split; [done|]. rewrite after_nothing; [done|]. intros r Hr. by apply (tidy_plain _ _ Htidy r Hr).
    - rewrite <- app_assoc in E. cbn in E.
      assert (r ∈ table) as Hr by (apply ordered_elem; rewrite E; apply elem_of_app; right; by left).
      exists (r_Name r, column r). unfold start_of. rewrite (proj2 (String.eqb_neq (token_of r) "")) by (by apply token_nonempty).
      split; [by apply tidy_token|]. rewrite <- (tidy_second _ _ Htidy r Hr). by eapply after_row; [apply tidy_seconds|]. }
  exists last. split; [done|]. unfold list_query. rewrite (filter_both (after last) (fun r => forallb (holds (r_Labels r)) cs)), Ea.
  unfold limited. destruct (String.eqb limit "").
  - by rewrite Hlimit.
  - destruct Hlimit as [-> Hn]. by rewrite (proj2 (Nat.ltb_lt 0 n) Hn).
Qed.

(** The token of a page whose last row and whose table's last row are known. *)
Lemma more_token r l : r ∈ table -> last (ordered table) = Some l ->
  more (r_Name r) (column r) (r_Name l) (column l) = negb (bool_decide (r = l)).
Proof.
  intros Hr Hl. assert (l ∈ table) as Hlt by (apply ordered_elem; by eapply last_Some_elem_of).
  destruct (tidy_plain _ _ Htidy r Hr) as (Hn & _ & Hu & _), (tidy_plain _ _ Htidy l Hlt) as (Hn' & _ & Hu' & _).
  unfold more. rewrite (proj2 (String.eqb_neq _ "") Hn), (proj2 (String.eqb_neq _ "") Hn'), (proj2 (String.eqb_neq _ "") Hu),
    (proj2 (String.eqb_neq _ "") Hu'). cbn. rewrite andb_true_r. case_bool_decide as Hb.
  - subst l. by rewrite String.eqb_refl.
  - rewrite (proj2 (String.eqb_neq (r_Name r) (r_Name l))), (proj2 (String.eqb_neq (column r) (column l))); [done| |];
      intros E; apply Hb; [eapply (NoDup_fmap_eq column); [apply (tidy_columns _ _ Htidy)|done..]|by apply (tidy_last _ _ Htidy)].
Qed.
End Tidy.

Definition subscription_page (r : Response) : option (list Object * string) :=
  match r with ItemList items token => Some (items, token) | _ => None end.
Definition policy_page (r : PolicyResponse) : option (list (Object * PolicyStatus) * string) :=
  match r with PList items token => Some (items, token) | _ => None end.

Section Lists.
Context `{CollationLaws} `{TokenJsonLaws} (read_limit : string -> result nat).
Context (labelSelector limit Accept : string) (n : nat) (cs : list condition).
Context (Hlimit : if String.eqb limit "" then n = 0 else read_limit limit = Ok n /\ 0 < n).
Context (Hselector : parsed_selector labelSelector = Ok cs) (Hlist : ShouldReturnAsTable Accept = false).

Lemma tidy_all column table : tidy column table -> NoDup (ordered table) /\ length (ordered table) = length table /\
  (forall r, r ∈ ordered table -> token_of column r <> "").
Proof.
  intros Ht. pose proof (ordered_permutation table) as P. split; [|split].
  - rewrite P. apply (NoDup_fmap_1 column). apply (tidy_columns _ _ Ht).
  - by rewrite P.
  - intros r Hr. apply (proj1 (ordered_elem r table)) in Hr. by eapply token_nonempty.
Qed.
Lemma scanned_last column table : tidy column table ->
  match last (ordered table) with
  | None => last_query table = None
  | Some l => last_query table = Some l /\ l ∈ table /\ r_Payload l = Some (object_of l) /\ o_Name (object_of l) = r_Name l
  end.
Proof.
  intros Ht. unfold last_query. destruct (last (ordered table)) as [l|] eqn:E; [|done].
  assert (l ∈ table) as Hl by (apply ordered_elem; by eapply last_Some_elem_of). split; [done|]. split; [done|].
  destruct (tidy_payload _ _ Ht l Hl) as (o & Ho & En). unfold object_of. by rewrite Ho.
Qed.

Lemma subscription_items_spec rows name uid : (forall r, r ∈ rows -> exists o, r_Payload r = Some o /\ o_Name o = r_Name r) ->
  subscription_items rows name uid =
    (object_of <$> rows, match last rows with None => (name, uid) | Some r => (r_Name r, uid_of r) end).
Proof.
  revert name uid. induction rows as [|r rows IH]; intros name uid Hr; [done|]. cbn [subscription_items].
  destruct (Hr r) as (o & Ho & En); [by left|]. rewrite Ho, IH by (intros x Hx; apply Hr; by right).
  rewrite last_cons. cbn. unfold object_of at 2. rewrite Ho. destruct (last rows); [done|]. unfold uid_of, object_of. by rewrite Ho, En.
Qed.

(** The pages of the subscriptions are the subscriptions: from the first
    request on, a client that follows the token of each answer gets, in the order
    of names, every subscription that its selector holds for, each once, and is
    told when it has them all; with any limit, for plain and unique names and
    UIDs. *)
Theorem pages_list_every_subscription table (Htidy : tidy uid_of table) :
  follow (fun t => subscription_page (ListSubscriptions read_limit table (MkRequest labelSelector limit t Accept))) (S (length table)) "" =
    Some (object_of <$> filter (selected cs) (ordered table)).
Proof.
  destruct (tidy_all _ _ Htidy) as (Hnd & Hlen & Htok). rewrite <- Hlen.
  apply (follow_all _ (selected cs) object_of (token_of uid_of) (limited n)); [done|done|apply limited_rest|].
  intros pre rest t E Hp. destruct (query_page read_limit uid_of table Htidy limit n Hlimit cs pre rest t E Hp) as (lst & Es & Eq).
  unfold ListSubscriptions. cbn [q_labelSelector q_continue q_Accept q_limit]. rewrite Hselector, Es, Eq.
  set (p := limited n (filter (selected cs) rest)). assert (forall r, r ∈ p -> r ∈ table) as Hpt.
  { intros r Hr. apply ordered_elem. rewrite E. apply elem_of_app. right. destruct (limited_rest n (filter (selected cs) rest)) as (b & Eb & _).
    assert (r ∈ filter (selected cs) rest) as Hf by (rewrite Eb; apply elem_of_app; by left). by apply list_elem_of_filter in Hf as [_ ?]. }
  pose proof (scanned_last _ _ Htidy) as Hl. unfold subscriptions_handleRows, next_token, respond. rewrite Hlist.
  rewrite subscription_items_spec by (intros r Hr; apply (tidy_payload _ _ Htidy); by apply Hpt).
  destruct (last p) as [r|] eqn:Ep.
  - assert (r ∈ table) as Hr by (apply Hpt; by eapply last_Some_elem_of).
    destruct (last (ordered table)) as [l|] eqn:El.
    + destruct Hl as (-> & Hl & Hpay & En). cbn [scan_last]. rewrite Hpay. fold (uid_of l). rewrite En.
      rewrite (more_token uid_of table Htidy r l Hr El). destruct (tidy_token uid_of table Htidy r Hr) as [-> _].
      case_bool_decide as Hb; [rewrite decide_True by congruence|rewrite decide_False by congruence]; done.
    + apply last_None in El. apply (proj2 (ordered_elem r table)) in Hr. rewrite El in Hr. by apply not_elem_of_nil in Hr.
  - apply last_None in Ep. rewrite Ep. destruct (last (ordered table)) as [l|]; [destruct Hl as (-> & _ & Hpay & _); cbn; by rewrite Hpay|by rewrite Hl].
Qed.

(** ** Policies *)
Context (compliance_rows : string -> result (list ComplianceRow)) (statuses : string -> list ComplianceRow).
Definition status_of_row (matches : list policyMatch) (r : Row) : PolicyStatus :=
  match getComplianceStatus (Ok (statuses (r_ID r))) with
  | Ok (l, non) => assemblePolicyStatus (r_Name r) matches l non
  | Err _ => MkPolicyStatus [] [] "" None
  end.
Definition policy_item (matches : list policyMatch) (r : Row) : Object * PolicyStatus := (object_of r, status_of_row matches r).

Lemma policy_items_spec matches rows name uid :
  (forall r, r ∈ rows -> exists o, r_Payload r = Some o /\ o_Name o = r_Name r) ->
  (forall r, r ∈ rows -> compliance_rows (r_ID r) = Ok (statuses (r_ID r))) ->
  policy_items compliance_rows matches rows name uid =
    (policy_item matches <$> rows, match last rows with None => (name, uid) | Some r => (r_Name r, r_ID r) end).
Proof.
  revert name uid. induction rows as [|r rows IH]; intros name uid Hr Hc; [done|]. cbn [policy_items].
  destruct (Hr r) as (o & Ho & En); [by left|]. rewrite Ho, Hc by (by left).
  destruct (getComplianceStatus (Ok (statuses (r_ID r)))) as [[l non]|e] eqn:Eg; [|done].
  rewrite IH; [|intros x Hx; apply Hr; by right|intros x Hx; apply Hc; by right].
  assert (policy_item matches r = (o, assemblePolicyStatus (o_Name o) matches l non)) as Ep
    by (unfold policy_item, object_of, status_of_row; by rewrite Ho, Eg, En).
  rewrite last_cons, fmap_cons, Ep, En. by destruct (last rows).
Qed.

(** C20: the pages of the policies are the policies: from the first request on, a
    client that follows the token of each answer gets, in the order of names and
    identities, every policy that its selector holds for with its compliance and
    placements, each once, and is told when it has them all. Names may be shared,
    except the greatest one ([last_name_hides_policies]). *)
Theorem pages_list_every_policy table matches (Htidy : tidy r_ID table)
    (Hcompliance : forall r, r ∈ table -> compliance_rows (r_ID r) = Ok (statuses (r_ID r))) :
  follow (fun t => policy_page (ListPolicies compliance_rows read_limit table (Ok matches) (MkRequest labelSelector limit t Accept)))
    (S (length table)) "" = Some (policy_item matches <$> filter (selected cs) (ordered table)).
Proof.
  destruct (tidy_all _ _ Htidy) as (Hnd & Hlen & Htok). rewrite <- Hlen.
  apply (follow_all _ (selected cs) (policy_item matches) (token_of r_ID) (limited n)); [done|done|apply limited_rest|].
  intros pre rest t E Hp. destruct (query_page read_limit r_ID table Htidy limit n Hlimit cs pre rest t E Hp) as (lst & Es & Eq).
  unfold ListPolicies. cbn [q_labelSelector q_continue q_Accept q_limit]. rewrite Hselector, Es, Eq.
  set (p := limited n (filter (selected cs) rest)). assert (forall r, r ∈ p -> r ∈ table) as Hpt.
  { intros r Hr. apply ordered_elem. rewrite E. apply elem_of_app. right. destruct (limited_rest n (filter (selected cs) rest)) as (b & Eb & _).
    assert (r ∈ filter (selected cs) rest) as Hf by (rewrite Eb; apply elem_of_app; by left). by apply list_elem_of_filter in Hf as [_ ?]. }
  pose proof (scanned_last _ _ Htidy) as Hl. unfold handlePolicies, next_token. rewrite Hlist.
  rewrite (policy_items_spec matches p "" ""); [|intros r Hr; apply (tidy_payload _ _ Htidy); by apply Hpt|intros r Hr; apply Hcompliance; by apply Hpt].
  destruct (last p) as [r|] eqn:Ep.
  - assert (r ∈ table) as Hr by (apply Hpt; by eapply last_Some_elem_of).
    destruct (last (ordered table)) as [l|] eqn:El.
    + destruct Hl as (-> & Hl & Hpay & En). rewrite Hpay, En.
      rewrite (more_token r_ID table Htidy r l Hr El). destruct (tidy_token r_ID table Htidy r Hr) as [-> _].
      case_bool_decide as Hb; [rewrite decide_True by congruence|rewrite decide_False by congruence]; done.
    + apply last_None in El. apply (proj2 (ordered_elem r table)) in Hr. rewrite El in Hr. by apply not_elem_of_nil in Hr.
  - apply last_None in Ep. rewrite Ep. destruct (last (ordered table)) as [l|]; [destruct Hl as (-> & _ & Hpay & _); cbn; by rewrite Hpay|by rewrite Hl].
Qed.
End Lists.

(** ** Where the lists of clusters end, and where they do not *)
Section Clusters.
Context `{CollationLaws} `{TokenJsonLaws} (read_limit : string -> result nat) (parse_uuid : string -> result string).

Lemma cluster_items_spec rows name uid : (forall r, r ∈ rows -> exists o, r_Payload r = Some o /\ o_Name o = r_Name r) ->
  cluster_items rows name uid =
    Some (object_of <$> rows, match last rows with None => (name, uid) | Some r => (r_Name r, uid_of r) end).
Proof.
  revert name uid. induction rows as [|r rows IH]; intros name uid Hr; [done|]. cbn [cluster_items].
  destruct (Hr r) as (o & Ho & En); [by left|]. rewrite Ho, IH by (intros x Hx; apply Hr; by right).
  rewrite last_cons. cbn. unfold object_of at 2. rewrite Ho. destruct (last rows); [done|]. unfold uid_of, object_of. by rewrite Ho, En.
Qed.

(** A page of clusters can be the same page again, for ever: the rows are
    ordered by the claimed ID of the cluster where the token has its UID, so when
    the former is the greater one, the page after a cluster begins with that
    cluster, and a client that asks for one cluster at a time never gets to the
    next. *)
Theorem cluster_pages_repeat table l1 r l2 limit Accept o (Hnames : NoDup (r_Name <$> table))
    (Hrows : ordered table = l1 ++ r :: l2) (Hmore : l2 <> [])
    (Hpayloads : forall x, x ∈ table -> exists o, r_Payload x = Some o /\ o_Name o = r_Name x)
    (Hpayload : r_Payload r = Some o) (Hplain : plain (r_Name r) = true) (Huid : plain (o_UID o) = true)
    (Hunique : NoDup (uid_of <$> table)) (Hthere : forall x, x ∈ table -> r_Name x <> "" /\ uid_of x <> "")
    (Hparse : parse_uuid (o_UID o) = Ok (o_UID o)) (Hgreater : strictly uid_le (o_UID o) (r_Second r) = true)
    (Hlimit : limit <> "") (Hone : read_limit limit = Ok 1) (Hlist : ShouldReturnAsTable Accept = false) :
  exists token, token <> "" /\ DecodeContinue token = Ok (r_Name r, o_UID o) /\
    ListManagedClusters read_limit parse_uuid table (MkRequest "" limit token Accept) = ItemList [o] token.
Proof.
  assert (object_of r = o) as Eo by (unfold object_of; by rewrite Hpayload).
  assert (r ∈ table) as Hr by (apply ordered_elem; rewrite Hrows; apply elem_of_app; right; by left).
  destruct (Hpayloads r Hr) as (o' & Ho' & En). rewrite Hpayload in Ho'. injection Ho' as <-.
  destruct (continue_round_trip _ _ Hplain Huid) as (token & Et & Dt). exists token.
  assert (token <> "") as Hne.
  { intros ->. destruct token_unmarshal_empty as [e Hempty]. unfold DecodeContinue in Dt. change (raw_decode "") with (Ok "" : result string) in Dt.
    cbn in Dt. by rewrite Hempty in Dt. }
  split; [done|]. split; [done|]. unfold ListManagedClusters. cbn [q_labelSelector q_continue q_Accept q_limit].
  change (parsed_selector "") with (Ok [] : result (list condition)).
  rewrite (proj2 (String.eqb_neq token "") Hne), Dt, Hparse.
  assert (list_query read_limit table [] (r_Name r, o_UID o) limit = Ok [r]) as ->.
  { unfold list_query. rewrite (proj2 (String.eqb_neq limit "") Hlimit), Hone.
    rewrite (filter_both (after (r_Name r, o_UID o)) (fun x => forallb (holds (r_Labels x)) [])), Hrows.
    rewrite (filter_suffix (after (r_Name r, o_UID o)) l1 (r :: l2)).
    - by rewrite filter_cons_True by done.
    - intros x Hx. unfold after. cbn. pose proof (ordered_names table l1 (r :: l2) x r Hnames Hrows Hx ltac:(by left)) as Hs.
      rewrite (strictly_asym _ _ _ Hs). apply strictly_spec in Hs as [_ Hxr]. by rewrite bool_decide_eq_false_2 by congruence.
    - intros x Hx. unfold after. cbn. apply elem_of_cons in Hx as [->|Hx].
      + by rewrite Hgreater, bool_decide_eq_true_2, orb_true_r.
      + rewrite (ordered_names table (l1 ++ [r]) l2 r x Hnames); [done|by rewrite <- app_assoc|apply elem_of_app; right; by left|done]. }
  destruct (exists_last Hmore) as (l3 & z & ->). unfold last_query. rewrite Hrows.
  assert (last (l1 ++ r :: l3 ++ [z]) = Some z) as ->.
  { replace (l1 ++ r :: l3 ++ [z]) with ((l1 ++ r :: l3) ++ [z]) by (by rewrite <- app_assoc). apply last_snoc. }
  assert (z ∈ table) as Hz.
  { apply ordered_elem. rewrite Hrows. apply elem_of_app. right. right. apply elem_of_app. right. by left. }
  destruct (Hpayloads z Hz) as (oz & Hoz & Enz). cbn [scan_last]. rewrite Hoz. unfold clusters_handleRows.
  rewrite cluster_items_spec by (intros x ->%list_elem_of_singleton; by exists o).
  cbn [last list_fmap fmap]. unfold uid_of. rewrite Eo.
  assert (more (r_Name r) (o_UID o) (o_Name oz) (o_UID oz) = true) as ->.
  { pose proof (ordered_names table (l1 ++ r :: l3) [z] r z Hnames) as Hs. rewrite strictly_spec in Hs.
    destruct Hs as [_ Hrz]; [rewrite Hrows; by rewrite <- app_assoc|apply elem_of_app; right; by left|by apply list_elem_of_singleton|].
    destruct (Hthere r Hr) as [Hrn Hru], (Hthere z Hz) as [Hzn Hzu]. unfold uid_of, object_of in Hru, Hzu. rewrite Hpayload in Hru. rewrite Hoz in Hzu.
    cbn in Hru, Hzu. unfold more. rewrite Enz.
    repeat match goal with |- context [String.eqb ?a ?b] => rewrite (proj2 (String.eqb_neq a b)) by
      first [done | intros E; apply Hrz; by rewrite ?(NoDup_fmap_eq uid_of table r z Hunique Hr Hz) by (unfold uid_of, object_of; rewrite Hpayload, Hoz; exact E)] end.
    done. }
  rewrite Et. unfold respond. by rewrite Hlist.
Qed.
End Clusters.

Section Ends.
Context `{CollationLaws} `{TokenJsonLaws} (read_limit : string -> result nat) (parse_uuid : string -> result string).

(** A list of clusters ends at the name of the last one: names are unique in a
    hub only, and a further page is announced only when both the name and the UID
    differ from those of the last row, so the clusters that share their name with
    the end of a page and come after it are never listed when that is the last
    name. *)
Theorem last_name_hides_clusters table l1 r l2 z limit Accept (Hrows : ordered table = l1 ++ r :: l2) (Hlast : last l2 = Some z)
    (Hsame : r_Name z = r_Name r) (Hpayloads : forall x, x ∈ table -> exists o, r_Payload x = Some o /\ o_Name o = r_Name x)
    (Hthere : forall x, x ∈ table -> r_Name x <> "") (Hlimit : limit <> "") (Hread : read_limit limit = Ok (S (length l1)))
    (Hlist : ShouldReturnAsTable Accept = false) :
  ListManagedClusters read_limit parse_uuid table (MkRequest "" limit "" Accept) = ItemList (object_of <$> l1 ++ [r]) "".
Proof.
  unfold ListManagedClusters. cbn [q_labelSelector q_continue q_Accept q_limit].
  change (parsed_selector "") with (Ok [] : result (list condition)). cbn [String.eqb].
  assert (list_query read_limit table [] ("", nil_uuid) limit = Ok (l1 ++ [r])) as ->.
  { unfold list_query. rewrite (proj2 (String.eqb_neq limit "") Hlimit), Hread.
    rewrite (filter_both (after ("", nil_uuid)) (fun x => forallb (holds (r_Labels x)) [])), after_nothing by done.
    match goal with |- context [filter ?P (ordered table)] => replace (filter P (ordered table)) with (ordered table) end.
    2:{ symmetry. apply (filter_suffix (fun _ => true) [] (ordered table)); [by intros x ?%not_elem_of_nil|done]. }
    rewrite Hrows. replace (l1 ++ r :: l2) with ((l1 ++ [r]) ++ l2) by (by rewrite <- app_assoc).
    replace (S (length l1)) with (length (l1 ++ [r])) by (rewrite length_app; cbn; lia). by rewrite take_app_length. }
  assert (last (ordered table) = Some z) as El by (rewrite Hrows, last_app; cbn; rewrite last_cons, Hlast; done).
  assert (z ∈ table) as Hz by (apply ordered_elem; by eapply last_Some_elem_of).
  unfold last_query. rewrite El. destruct (Hpayloads z Hz) as (oz & Hoz & Enz). cbn [scan_last]. rewrite Hoz. unfold clusters_handleRows.
  rewrite cluster_items_spec.
  - rewrite last_snoc, Enz, Hsame. assert (more (r_Name r) (uid_of r) (r_Name r) (o_UID oz) = false) as ->.
    { unfold more. rewrite String.eqb_refl. cbn. by rewrite !andb_false_r. }
    unfold respond. by rewrite Hlist.
  - intros x Hx. apply Hpayloads. apply ordered_elem. rewrite Hrows. apply elem_of_app.
    apply elem_of_app in Hx as [Hx|Hx]; [by left|right]. apply list_elem_of_singleton in Hx as ->. by left.
Qed.
End Ends.

(** ** Watches *)

(** A watch of clusters or subscriptions never sends an object: each row is
    scanned into the object itself, which is refused, so whatever the tables hold
    at whatever ticks nothing is written, and nothing is known to be gone. *)
Theorem watch_sends_no_object ticks (Hanswered : Forall (fun rows => exists l, rows = Ok l) ticks) :
  watch ticks ∅ = Ret [].
Proof.
  induction Hanswered as [|rows ticks [l ->] Ha IH]; [done|]. cbn [watch doHandleRowsForWatch].
  assert (omap (fun r => match scan_into_object r with Ok o => Some o | Err _ => None end) l = []) as -> by (by induction l).
  cbn. rewrite (difference_diag_L ∅), elements_empty. cbn. rewrite !difference_empty_L, union_empty_l_L. by rewrite IH.
Qed.

Lemma split_member_spec id name : no_char "/" id = true -> no_char "/" name = true -> split_member (member id name) = (id, name).
Proof. intros Hi Hn. unfold split_member, member. change ("/" +:+ name) with (String "/" name). rewrite split_char_app by done. by rewrite split_char_none. Qed.

(** A watch of the policies tells what is gone: after each tick the watch knows
    the policies of the table and no others, and it sends a deletion exactly for
    the policies that it knew and that are not there any more. *)
Theorem policy_watch_tells_what_is_gone compliance_rows matches rows pre events post
    (Htick : doHandlePoliciesForWatch compliance_rows matches (Ok rows) pre = Ret (events, post))
    (Hcompliance : forall id, exists l, compliance_rows id = Ok l) :
  (forall m, m ∈ post <-> exists r o, r ∈ rows /\ r_Payload r = Some o /\ m = member (r_ID r) (o_Name o)) /\
  (forall id name, no_char "/" id = true -> no_char "/" name = true -> member id name ∈ pre -> member id name ∉ post ->
     exists s, (DELETED, (MkObject name "" "", s)) ∈ events) /\
  (forall o s, (DELETED, (o, s)) ∈ events -> exists m, m ∈ pre /\ m ∉ post /\ o_Name o = (split_member m).2).
Proof.
  unfold doHandlePoliciesForWatch in Htick.
  set (policies := omap (fun r => (fun o => (r_ID r, o)) <$> r_Payload r) rows) in Htick.
  set (added := list_to_set ((fun p => member p.1 (o_Name p.2)) <$> policies) : gset string) in Htick.
  injection Htick as Eev Epost.
  assert (post = added) as Hpost.
  { rewrite <- Epost. apply set_eq. intros m. destruct (decide (m ∈ pre)), (decide (m ∈ added)); set_solver. }
  split; [|split].
  - intros m. rewrite Hpost. unfold added. rewrite elem_of_list_to_set, list_elem_of_fmap. split.
    + intros ([id o] & -> & Hp). unfold policies in Hp. apply list_elem_of_omap in Hp as (r & Hr & Ho).
      apply fmap_Some in Ho as (o' & Ho & [= -> ->]). by exists r, o'.
    + intros (r & o & Hr & Ho & ->). exists (r_ID r, o). split; [done|]. unfold policies. apply list_elem_of_omap. exists r. by rewrite Ho.
  - intros id name Hi Hn Hpre Hnot. destruct (Hcompliance id) as [l Hl].
    exists (MkPolicyStatus (placements name matches) (match getComplianceStatus (Ok l) with Ok (s, _) => s | Err _ => [] end)
      (match getComplianceStatus (Ok l) with Ok (s, non) => compliance_state s non | Err _ => "" end) None).
    rewrite <- Eev. apply elem_of_app. right. apply list_elem_of_bind. exists (member id name).
    rewrite split_member_spec by done. unfold watch_event. cbn [o_Name fst snd]. rewrite Hl. cbn. split; [by left|].
    apply elem_of_elements. rewrite Hpost in Hnot. set_solver.
  - intros o s Hin. rewrite <- Eev in Hin. apply elem_of_app in Hin as [Hin|Hin]; apply list_elem_of_bind in Hin as (m & Hm & Hin).
    + unfold event_of in Hm. destruct (watch_event _ _ _ _); [by apply list_elem_of_singleton in Hm|by apply not_elem_of_nil in Hm].
    + exists m. apply elem_of_elements in Hin. unfold event_of, watch_event in Hm.
      destruct (getComplianceStatus _) as [[l non]|]; [|by apply not_elem_of_nil in Hm].
      apply list_elem_of_singleton in Hm as [= -> _]. rewrite Hpost. cbn. set_solver.
Qed.

(** A policy that changed once is sent again at every tick: the status that is
    compared with is the one of the start, since the assignment to the parameter
    is lost, so a watch of a policy whose status differs from that one sends it at
    every tick, although nothing changes any more. *)
Theorem changed_policy_is_sent_at_every_tick (DeepDerivative : PolicyStatus -> PolicyStatus -> bool) first o s n
    (Hchanged : DeepDerivative s first.2 = false) :
  handlePolicyForWatch DeepDerivative (Ok first) (replicate n (Ok (o, s))) = Ret (first :: replicate n (o, s)).
Proof.
  unfold handlePolicyForWatch. assert (policy_ticks DeepDerivative (replicate n (Ok (o, s))) first = Ret (replicate n (o, s))) as ->; [|done].
  induction n as [|n IH]; [done|]. cbn [replicate policy_ticks doHandlePolicyForWatch]. rewrite Hchanged. cbn [negb]. by rewrite IH.
Qed.

(** ** Status of a policy *)
Lemma count_statuses l a b : (0 <= a)%Z -> (0 <= b)%Z -> (a + Z.of_nat (length l) < 2 ^ 31)%Z -> (b + Z.of_nat (length l) < 2 ^ 31)%Z ->
  foldl count_status (a, b) l =
    (a + Z.of_nat (length (filter (fun c => cs_State c = Compliant) l)), b + Z.of_nat (length (filter (fun c => cs_State c = NonCompliant) l)))%Z.
Proof.
  assert (forall z, (0 <= z < 2 ^ 31 - 1)%Z -> inc32 z = (z + 1)%Z) as Hinc.
  { intros z Hz. unfold inc32. rewrite Z.mod_small; lia. }
  revert a b. induction l as [|c l IH]; intros a b Ha Hb Hla Hlb; cbn [foldl length] in *.
  { cbn. by rewrite !Z.add_0_r. }
  unfold count_status at 2. rewrite !filter_cons.
  destruct (String.eqb_spec (cs_State c) Compliant) as [E|E]; [|destruct (String.eqb_spec (cs_State c) NonCompliant) as [E'|E']].
  - rewrite decide_True by done. rewrite decide_False by (rewrite E; done). cbn [fst snd length]. rewrite Hinc by lia. rewrite IH by lia. f_equal; lia.
  - rewrite decide_False by done. rewrite decide_True by done. cbn [fst snd length]. rewrite Hinc by lia. rewrite IH by lia. f_equal; lia.
  - rewrite !decide_False by done. rewrite IH by lia. done.
Qed.

(** The status of a policy tells its clusters: one entry for each row of its
    compliance, in order, the numbers of the compliant and of the other clusters,
    and not compliant when one is not; a policy with rows is compliant otherwise,
    also when none of its clusters is, for a pending or unknown state counts as
    neither. *)
Theorem policy_status_follows_the_rows name matches rows (Hbound : (Z.of_nat (length rows) < 2 ^ 31)%Z) :
  exists statuses non, getComplianceStatus (Ok rows) = Ok (statuses, non) /\
  let st := assemblePolicyStatus name matches statuses non in
  cs_ClusterName <$> ps_Status st = cr_Cluster <$> rows /\
  ps_Summary st = Some (Z.of_nat (length (filter (fun r => cr_Compliance r = "compliant") rows)),
                        Z.of_nat (length (filter (fun r => cr_Compliance r = "non_compliant") rows))) /\
  (ps_ComplianceState st = NonCompliant <-> exists r, r ∈ rows /\ cr_Compliance r = "non_compliant") /\
  (ps_ComplianceState st = Compliant <-> rows <> [] /\ forall r, r ∈ rows -> cr_Compliance r <> "non_compliant").
Proof.
  set (status r := MkClusterStatus (cr_Cluster r) (dbEnumToPolicyComplianceStateMap (cr_Compliance r))).
  exists (status <$> rows), (existsb (fun s => String.eqb (cs_State s) NonCompliant) (status <$> rows)). split; [done|]. cbn zeta.
  assert (forall r, cs_State (status r) = Compliant <-> cr_Compliance r = "compliant") as Hc.
  { intros r. cbn. unfold dbEnumToPolicyComplianceStateMap. destruct (String.eqb_spec (cr_Compliance r) "compliant"); [done|].
    by destruct (String.eqb_spec (cr_Compliance r) "non_compliant"). }
  assert (forall r, cs_State (status r) = NonCompliant <-> cr_Compliance r = "non_compliant") as Hn.
  { intros r. cbn. unfold dbEnumToPolicyComplianceStateMap. destruct (String.eqb_spec (cr_Compliance r) "compliant") as [->|]; [done|].
    by destruct (String.eqb_spec (cr_Compliance r) "non_compliant"). }
  assert (existsb (fun s => String.eqb (cs_State s) NonCompliant) (status <$> rows) = true <-> exists r, r ∈ rows /\ cr_Compliance r = "non_compliant") as He.
  { rewrite existsb_exists. split.
    - intros (s & Hs & E%String.eqb_eq). apply list_elem_of_In, list_elem_of_fmap in Hs as (r & -> & Hr). exists r. by rewrite <- Hn.
    - intros (r & Hr & E). exists (status r). split; [apply list_elem_of_In; by apply list_elem_of_fmap_2|]. apply String.eqb_eq. by apply Hn. }
  assert (forall s, length (filter (fun c => cs_State c = s) (status <$> rows)) = length (filter (fun r => cs_State (status r) = s) rows)) as Hlen.
  { intros s. clear. induction rows as [|r rows IH]; [done|]. cbn [fmap list_fmap]. rewrite !filter_cons. by destruct (decide (cs_State (status r) = s)); cbn; rewrite IH. }
  assert (forall s t, (forall r, cs_State (status r) = s <-> cr_Compliance r = t) ->
    filter (fun r => cs_State (status r) = s) rows = filter (fun r => cr_Compliance r = t) rows) as Hf.
  { intros s t Hst. apply list_filter_iff. intros r. apply Hst. }
  split; [|split; [|split]].
  - cbn. rewrite <- list_fmap_compose. done.
  - cbn [assemblePolicyStatus ps_Summary]. rewrite count_statuses by (rewrite ?length_fmap; lia). rewrite !Hlen, (Hf Compliant "compliant"), (Hf NonCompliant "non_compliant") by done. done.
  - cbn [assemblePolicyStatus ps_ComplianceState]. rewrite <- He. unfold compliance_state. destruct (existsb _ _); [done|]. by destruct (0 <? _)%nat.
  - cbn [assemblePolicyStatus ps_ComplianceState]. unfold compliance_state. rewrite length_fmap. destruct (existsb _ _) eqn:Eb.
    + destruct (proj1 He eq_refl) as (r & Hr & E). split; [done|]. intros [_ Hnone]. by destruct (Hnone r Hr).
    + destruct rows as [|r0 rows']; [by split; [|intros [? _]]|]. cbn. split; [|done]. intros _. split; [done|]. intros r Hr E.
      assert (false = true); [|done]. apply He. by exists r.
Qed.

(** ** Reports of a subscription *)
Lemma ParseInt_FormatInt z : i64_ok z -> ParseInt (FormatInt z) = (z, None).
Proof.
  intros [Hlo Hhi]. unfold FormatInt.
  assert (forall y, NilZero.uint_of_string (FormatUint y) = Some (N.to_uint (Z.to_N y))) as Eu.
  { intros y. unfold FormatUint. apply NilZero.usu, N_to_uint_nonnil. }
  destruct (Z.ltb_spec z 0) as [Hz|Hz].
  - change ("-" +:+ FormatUint (- z)) with (String "-" (FormatUint (- z))). unfold ParseInt. rewrite Eu, DecimalN.Unsigned.of_to, Z2N.id by lia.
    rewrite (proj2 (Z.leb_le (- z) two63)) by lia. f_equal. lia.
  - assert (match FormatUint z with String "-" s' => (true, s') | String "+" s' => (false, s') | _ => (false, FormatUint z) end = (false, FormatUint z)) as Em.
    { unfold FormatUint. pose proof (N_to_uint_nonnil (Z.to_N z)) as Hn. by destruct (N.to_uint (Z.to_N z)). }
    unfold ParseInt. rewrite Em, Eu, DecimalN.Unsigned.of_to, Z2N.id by lia. by rewrite (proj2 (Z.ltb_lt z two63)) by lia.
Qed.
Lemma swrap64_ok z : i64_ok (swrap64 z).
Proof. unfold swrap64, i64_ok, two63, two64. pose proof (Z.mod_pos_bound (z + 2 ^ 63) (2 ^ 64) ltac:(lia)). lia. Qed.
Lemma add_numbers_value a b : stringToInt (add_numbers a b) = swrap64 (stringToInt a + stringToInt b).
Proof. unfold add_numbers, stringToInt at 1. by rewrite ParseInt_FormatInt by apply swrap64_ok. Qed.
Lemma swrap64_add a b : swrap64 (swrap64 a + b) = swrap64 (a + b).
Proof.
  unfold swrap64. f_equal. replace ((a + two63) mod two64 - two63 + b + two63)%Z with ((a + two63) mod two64 + b)%Z by lia.
  rewrite Z.add_mod_idemp_l by done. f_equal. lia.
Qed.

Definition summary_fields : list (ReportSummary -> string) := [rs_Deployed; rs_InProgress; rs_Failed; rs_PropagationFailed; rs_Clusters].
Lemma updated_field f a r : f ∈ summary_fields -> f (updateSubscriptionReportSummary a r) = add_numbers (f a) (f r).
Proof. intros Hf. repeat (apply elem_of_cons in Hf as [->|Hf]; [done|]). by apply not_elem_of_nil in Hf. Qed.

(** The report of a subscription is the sum of those of the hubs: it has the
    name and the namespace of the first, a label that tells them and no other, the
    results of all in order, and each number of its summary is the sum of the
    numbers of the hubs, a text that is no number counting as zero, as a 64-bit
    integer. *)
Theorem report_sums_the_hubs hosting key reports r r2 rs (Hreports : reports key = Ok (Ok <$> r :: r2 :: rs)) :
  exists R, getAggregatedSubscriptionReport hosting (Ok key) reports = Ok (Some R) /\
  sr_Name R = sr_Name r /\ sr_Namespace R = sr_Namespace r /\
  sr_Labels R = {[hosting := sr_Namespace r +:+ "." +:+ sr_Name r]} /\ sr_Annotations R = ∅ /\
  sr_Results R = concat (sr_Results <$> r :: r2 :: rs) /\
  forall f, f ∈ summary_fields ->
    stringToInt (f (sr_Summary R)) = swrap64 (foldr Z.add 0%Z ((fun x => stringToInt (f (sr_Summary x))) <$> r :: r2 :: rs)).
Proof.
  unfold getAggregatedSubscriptionReport. rewrite Hreports. cbn [fmap list_fmap foldl].
  assert (forall l a, exists R, foldl (fun acc x => match acc, x with Err e, _ => Err e | _, Err e => Err e | Ok a, Ok x => Ok (add_report hosting a x) end)
      (Ok (Some a)) (Ok <$> l) = Ok (Some R) /\ sr_Name R = sr_Name a /\ sr_Namespace R = sr_Namespace a /\ sr_Labels R = sr_Labels a /\
      sr_Annotations R = sr_Annotations a /\ sr_Results R = sr_Results a ++ concat (sr_Results <$> l) /\
      forall f, f ∈ summary_fields -> l <> [] ->
        stringToInt (f (sr_Summary R)) = swrap64 (stringToInt (f (sr_Summary a)) + foldr Z.add 0%Z ((fun x => stringToInt (f (sr_Summary x))) <$> l))) as Hfold.
  { induction l as [|x l IH]; intros a; cbn [fmap list_fmap foldl].
    - exists a. cbn. rewrite app_nil_r. naive_solver.
    - destruct (IH (MkReport (sr_Namespace a) (sr_Name a) (sr_Labels a) (sr_Annotations a)
        (updateSubscriptionReportSummary (sr_Summary a) (sr_Summary x)) (sr_Results a ++ sr_Results x))) as (R & E & En & Es & El & Ea & Er & Ef).
      exists R. cbn [add_report]. rewrite E. cbn in En, Es, El, Ea, Er. split; [done|]. repeat (split; [done|]). split; [by rewrite Er, <- app_assoc|].
      intros f Hf _. cbn [foldr]. destruct l as [|y l].
      + cbn [fmap list_fmap foldl] in E. injection E as <-. cbn [sr_Summary]. rewrite updated_field by done. rewrite add_numbers_value. f_equal. cbn. lia.
      + rewrite Ef by done. cbn [sr_Summary]. rewrite updated_field, add_numbers_value, swrap64_add by done. f_equal. cbn. lia. }
  destruct (Hfold (r2 :: rs) (cleanSubscriptionReportObject hosting r)) as (R & E & En & Es & El & Ea & Er & Ef).
  exists R. split_and!; [exact E|exact En|exact Es|exact El|exact Ea|by rewrite Er|]. intros f Hin. exact (Ef f Hin ltac:(done)).
Qed.

(** ** The REST API on a table of three rows *)

(** ** An order of the texts, and a text for the tokens *)
Definition encoded_le : relation string := fun x y => (encode x <= encode y)%positive.
#[export] Instance encoded_le_dec : RelDecision encoded_le.
Proof. intros x y. unfold encoded_le. apply _. Defined.
#[export] Instance encoded_le_total : TotalOrder encoded_le.
Proof.
  unfold encoded_le. split; [split; [split|]|].
  - intros x. apply Pos.le_refl.
  - intros x y z. apply Pos.le_trans.
  - intros x y Hxy Hyx. apply (inj encode). by apply Pos.le_antisym.
  - intros x y. unfold strict. destruct (Pos.lt_total (encode x) (encode y)) as [Hl|[E%(inj encode)|Hl]]; [left|right; left|right; right]; try done; split; lia.
Qed.
#[export] Instance encoded_collation : Collation := {| collates := encoded_le; uid_le := encoded_le |}.
#[export] Instance encoded_collation_laws : CollationLaws.
Proof. split; [exact encoded_le_total|exact encoded_le_total|]. intros s. apply Pos.le_1_l. Qed.

Definition token_text (p : string * string) : string := p.1 +:+ dquote +:+ p.2.
Definition token_read (s : string) : result (string * string) :=
  match split_char (ascii_of_nat 34) s with [a; b] => Ok (a, b) | _ => Err "unexpected end of JSON input" end.
#[export] Instance simple_tokens : TokenJson := {| token_marshal p := Ok (token_text p); token_unmarshal := token_read |}.
Lemma plain_no_quote s : plain s = true -> no_char (ascii_of_nat 34) s = true.
Proof.
  unfold plain. induction s as [|c s IH]; [done|]. cbn [String.list_ascii_of_string forallb no_char]. intros [Hc Hs]%andb_true_iff.
  rewrite IH, andb_true_r by done. destruct (Ascii.eqb_spec c (ascii_of_nat 34)) as [->|]; [done|done].
Qed.
#[export] Instance simple_tokens_laws : TokenJsonLaws.
Proof.
  split.
  - intros a b Ha Hb. eexists. split; [reflexivity|]. unfold token_unmarshal, simple_tokens, token_read, token_text. cbn [fst snd].
    change (dquote +:+ b) with (String (ascii_of_nat 34) b). rewrite split_char_app by (by apply plain_no_quote).
    by rewrite split_char_none by (by apply plain_no_quote).
  - eexists. reflexivity.
Qed.

Definition limit_of (s : string) : result nat := if String.eqb s "1" then Ok 1 else if String.eqb s "2" then Ok 2 else Err "syntax error".
Lemma limit_one : if String.eqb "1" "" then 1 = 0 else limit_of "1" = Ok 1 /\ 0 < 1.
Proof. split; [reflexivity|lia]. Qed.

Definition row (name uid : string) (labels : option (gmap string string)) : Row :=
  MkRow name uid uid labels (Some (MkObject name uid "{}")).
Definition policies : list Row :=
  [row "policy-b" "u2" None; row "policy-c" "u3" (Some {["env" := "prod"]}); row "policy-a" "u1" (Some {["env" := "prod"]})].
Definition compliance (id : string) : list ComplianceRow :=
  if String.eqb id "u1" then [MkComplianceRow "c1" "hub1" "pending"; MkComplianceRow "c2" "hub1" "compliant"] else [].

#[local] Ltac tidy_sample :=
  split; [|apply (bool_decide_unpack _); vm_compute; reflexivity|..];
  [intros r l Hl Hr; assert (Some l = Some _) as [= ->] by (rewrite <- Hl; vm_compute; reflexivity);
   repeat (apply elem_of_cons in Hr as [->|Hr]; [try discriminate; try done|]); by apply not_elem_of_nil in Hr
  |intros r Hr; repeat (apply elem_of_cons in Hr as [->|Hr]; [try (by eexists); repeat split; try done; by vm_compute|]);
   by apply not_elem_of_nil in Hr..].
(** Policies of two namespaces with one name. *)
Definition namesakes : list Row :=
  [row "policy-a" "u4" (Some {["env" := "prod"]}); row "policy-c" "u3" (Some {["env" := "prod"]});
   row "policy-b" "u2" None; row "policy-a" "u1" (Some {["env" := "prod"]})].
Lemma tidy_namesakes : tidy r_ID namesakes.
Proof. tidy_sample. Qed.
Lemma tidy_subscriptions : tidy uid_of policies.
Proof. tidy_sample. Qed.

Lemma pages_list_every_policy_witness :
  follow (fun t => policy_page (ListPolicies (fun id => Ok (compliance id)) limit_of namesakes (Ok []) (MkRequest "env=prod" "1" t ""))) 5 "" =
    Some (policy_item compliance [] <$>
      [row "policy-a" "u1" (Some {["env" := "prod"]}); row "policy-a" "u4" (Some {["env" := "prod"]});
       row "policy-c" "u3" (Some {["env" := "prod"]})]).
Proof.
  refine (eq_trans (pages_list_every_policy limit_of "env=prod" "1" "" 1 [LabelIs "env" "prod"] limit_one eq_refl eq_refl
    (fun id => Ok (compliance id)) compliance namesakes [] tidy_namesakes (fun r _ => eq_refl)) _).
  vm_compute. reflexivity.
Defined.

(** When the greatest name is shared, a page that ends at it is said to be the last. *)
Example last_name_hides_policies :
  ListPolicies (fun id => Ok (compliance id)) limit_of [row "policy-a" "u1" None; row "policy-a" "u4" None] (Ok []) (MkRequest "" "1" "" "") =
    PList [policy_item compliance [] (row "policy-a" "u1" None)] "".
Proof. vm_compute. reflexivity. Qed.

Lemma pages_list_every_subscription_witness :
  follow (fun t => subscription_page (ListSubscriptions limit_of policies (MkRequest "" "1" t ""))) 4 "" =
    Some [MkObject "policy-a" "u1" "{}"; MkObject "policy-b" "u2" "{}"; MkObject "policy-c" "u3" "{}"].
Proof.
  refine (eq_trans (pages_list_every_subscription limit_of "" "1" "" 1 [] limit_one eq_refl eq_refl policies tidy_subscriptions) _).
  vm_compute. reflexivity.
Defined.

Lemma selectors_are_read_as_written_witness :
  exists text, ParseLabelSelector "env=prod,!paused" = Ok text /\
    (sql_selects (Some {["env" := "prod"]}) text = true <->
     Forall (selects {["env" := "prod"]}) [LabelIs "env" "prod"; HasNoLabel "paused"]).
Proof.
  refine (selectors_are_read_as_written (LabelIs "env" "prod") [HasNoLabel "paused"] {["env" := "prod"]} _ _).
  - repeat (apply List.Forall_cons; [repeat split|]). apply List.Forall_nil.
  - repeat (apply List.Forall_cons; [repeat split|]). apply List.Forall_nil.
Defined.

(** The claimed ID of the first cluster is greater than its UID. *)
Definition clusters : list Row :=
  [MkRow "cluster-a" "u9" "" None (Some (MkObject "cluster-a" "u1" "{}")); MkRow "cluster-b" "u2" "" None (Some (MkObject "cluster-b" "u2" "{}"))].
Lemma clusters_named x : x ∈ clusters ->
  (exists o, r_Payload x = Some o /\ o_Name o = r_Name x) /\ r_Name x <> "" /\ uid_of x <> "".
Proof. intros Hx. repeat (apply elem_of_cons in Hx as [->|Hx]; [split; [by eexists|by split]|]). by apply not_elem_of_nil in Hx. Qed.

Lemma cluster_pages_repeat_witness :
  exists token, token <> "" /\ DecodeContinue token = Ok ("cluster-a", "u1") /\
    ListManagedClusters limit_of Ok clusters (MkRequest "" "1" token "") = ItemList [MkObject "cluster-a" "u1" "{}"] token.
Proof.
  refine (cluster_pages_repeat limit_of Ok clusters [] (MkRow "cluster-a" "u9" "" None (Some (MkObject "cluster-a" "u1" "{}")))
    [MkRow "cluster-b" "u2" "" None (Some (MkObject "cluster-b" "u2" "{}"))] "1" ""
    (MkObject "cluster-a" "u1" "{}") _ _ ltac:(discriminate) (fun x Hx => proj1 (clusters_named x Hx)) eq_refl _ _ _
    (fun x Hx => proj2 (clusters_named x Hx)) eq_refl _ _ eq_refl _);
    first [apply (bool_decide_unpack _); vm_compute; reflexivity|vm_compute; reflexivity|discriminate].
Defined.

(** Two hubs with a cluster of the same name. *)
Definition twins : list Row :=
  [MkRow "cluster-a" "u1" "" None (Some (MkObject "cluster-a" "u1" "{}")); MkRow "cluster-a" "u2" "" None (Some (MkObject "cluster-a" "u2" "{}"))].
Lemma twins_named x : x ∈ twins -> (exists o, r_Payload x = Some o /\ o_Name o = r_Name x) /\ r_Name x <> "".
Proof. intros Hx. repeat (apply elem_of_cons in Hx as [->|Hx]; [split; [by eexists|done]|]). by apply not_elem_of_nil in Hx. Qed.
Lemma last_name_hides_clusters_witness :
  ListManagedClusters limit_of Ok twins (MkRequest "" "1" "" "") = ItemList [MkObject "cluster-a" "u1" "{}"] "".
Proof.
  refine (last_name_hides_clusters limit_of Ok twins [] (MkRow "cluster-a" "u1" "" None (Some (MkObject "cluster-a" "u1" "{}")))
    [MkRow "cluster-a" "u2" "" None (Some (MkObject "cluster-a" "u2" "{}"))] _ "1" "" _ eq_refl eq_refl
    (fun x Hx => proj1 (twins_named x Hx)) (fun x Hx => proj2 (twins_named x Hx)) _ eq_refl _);
    first [vm_compute; reflexivity|discriminate].
Defined.

Lemma watch_sends_no_object_witness : watch [Ok policies; Ok clusters] ∅ = Ret [].
Proof. refine (watch_sends_no_object _ _). repeat (apply List.Forall_cons; [by eexists|]). apply List.Forall_nil. Defined.

Lemma policy_watch_tells_what_is_gone_witness :
  exists events post, doHandlePoliciesForWatch (fun id => Ok (compliance id)) [] (Ok policies) {[member "u0" "policy-z"]} = Ret (events, post) /\
    exists s, (DELETED, (MkObject "policy-z" "" "", s)) ∈ events.
Proof.
  destruct (doHandlePoliciesForWatch (fun id => Ok (compliance id)) [] (Ok policies) {[member "u0" "policy-z"]}) as [[events post]| | |] eqn:E;
    [|discriminate E..].
  exists events, post. split; [reflexivity|].
  refine (proj1 (proj2 (policy_watch_tells_what_is_gone _ [] policies _ events post E (fun id => ex_intro _ _ eq_refl))) "u0" "policy-z" eq_refl eq_refl _ _).
  - by apply elem_of_singleton.
  - injection E as _ <-. apply (bool_decide_unpack _). vm_compute. reflexivity.
Defined.

Definition policy_p : Object := MkObject "p" "u" "{}".
Definition status_before : PolicyStatus := MkPolicyStatus [] [] Compliant None.
Definition status_after : PolicyStatus := MkPolicyStatus [] [] NonCompliant None.
Lemma changed_policy_is_sent_at_every_tick_witness :
  handlePolicyForWatch (fun a b => String.eqb (ps_ComplianceState a) (ps_ComplianceState b)) (Ok (policy_p, status_before)) (replicate 3 (Ok (policy_p, status_after))) =
    Ret [(policy_p, status_before); (policy_p, status_after); (policy_p, status_after); (policy_p, status_after)].
Proof. exact (changed_policy_is_sent_at_every_tick (fun a b => String.eqb (ps_ComplianceState a) (ps_ComplianceState b)) (policy_p, status_before) policy_p status_after 3 eq_refl). Defined.

Lemma policy_status_follows_the_rows_witness :
  exists statuses non, getComplianceStatus (Ok (compliance "u1")) = Ok (statuses, non) /\
    ps_ComplianceState (assemblePolicyStatus "policy-a" [] statuses non) = Compliant.
Proof.
  destruct (policy_status_follows_the_rows "policy-a" [] (compliance "u1")) as (statuses & non & E & _ & _ & _ & Hc); [vm_compute; reflexivity|].
  exists statuses, non. split; [exact E|]. apply Hc. split; [discriminate|]. intros r Hr.
  repeat (apply elem_of_cons in Hr as [->|Hr]; [discriminate|]). by apply not_elem_of_nil in Hr.
Defined.

Definition hub_report (deployed : string) (result_ : string) : SubscriptionReport :=
  MkReport "ns" "app" ∅ {["note" := "x"]} (MkSummary deployed "" "0" "0" "1") [result_].
Lemma report_sums_the_hubs_witness :
  exists R, getAggregatedSubscriptionReport "hosting" (Ok ("app", "ns"))
    (fun _ => Ok (Ok <$> [hub_report "2" "c1"; hub_report "3" "c2"])) = Ok (Some R) /\
    sr_Results R = ["c1"; "c2"] /\ stringToInt (rs_Deployed (sr_Summary R)) = 5%Z.
Proof.
  destruct (report_sums_the_hubs "hosting" ("app", "ns") (fun _ => Ok (Ok <$> [hub_report "2" "c1"; hub_report "3" "c2"]))
    (hub_report "2" "c1") (hub_report "3" "c2") [] eq_refl) as (R & E & _ & _ & _ & _ & Er & Ef).
  exists R. split; [exact E|]. split; [exact Er|]. rewrite (Ef rs_Deployed) by (by left). vm_compute. reflexivity.
Defined.

Lemma double_equals_is_refused_witness : exists e, label_conditions "env==prod" = Err e.
Proof. refine (double_equals_is_refused [] "env" "prod" [] _ _); repeat split. Defined.
