(* ===== verification/Credentials.v ===== *)
(** * Credentials of the transport

    What the operator writes in the secrets of the manager and of the agents
    ([strimzi_transporter.go], [byo_transporter.go], [strimzi_kafka_controller.go],
    [addon_agent_manifest_transport.go]), what the clients read back
    ([pkg/transport/config]), and the settings they give to Kafka. *)

From stdpp Require Import prelude gmap strings list.
From Stdlib Require Import ZArith.
From S2P Require Import Prelude.
From S2P Require Import GoLib.
From S2P Require Import Base64.
From S2P Require Import KubeClient.
From S2P Require Import KafkaAccess.

Local Open Scope string_scope.
Local Open Scope list_scope.

(** ** Data ([kafka_config.go], [rest_config.go]) *)
Record KafkaConfig := MkKafkaConfig {
  kf_BootstrapServer : string;
  kf_StatusTopic : string;
  kf_SpecTopic : string;
  kf_ClusterID : string;
  kf_CACert : string;
  kf_ClientCert : string;
  kf_ClientKey : string;
  kf_CASecretName : string;
  kf_ClientSecretName : string;
  kf_IsNewKafkaCluster : bool;
}.
Record RestfulConfig := MkRestfulConfig {
  rf_Host : string;
  rf_CACert : string;
  rf_ClientCert : string;
  rf_ClientKey : string;
  rf_CASecretName : string;
  rf_ClientSecretName : string;
}.
#[export] Instance KafkaConfig_dec : EqDecision KafkaConfig.
Proof. solve_decision. Defined.
#[export] Instance RestfulConfig_dec : EqDecision RestfulConfig.
Proof. solve_decision. Defined.

(** The interface that both have. *)
Class TransportCerticiate (C : Type) := {
  GetCACert : C -> string;
  SetCACert : string -> C -> C;
  GetClientCert : C -> string;
  SetClientCert : string -> C -> C;
  GetClientKey : C -> string;
  SetClientKey : string -> C -> C;
  GetCASecretName : C -> string;
  GetClientSecretName : C -> string;
}.
#[export] Instance kafka_certificate : TransportCerticiate KafkaConfig := {|
  GetCACert := kf_CACert;
  SetCACert v c := MkKafkaConfig (kf_BootstrapServer c) (kf_StatusTopic c) (kf_SpecTopic c) (kf_ClusterID c)
    v (kf_ClientCert c) (kf_ClientKey c) (kf_CASecretName c) (kf_ClientSecretName c) (kf_IsNewKafkaCluster c);
  GetClientCert := kf_ClientCert;
  SetClientCert v c := MkKafkaConfig (kf_BootstrapServer c) (kf_StatusTopic c) (kf_SpecTopic c) (kf_ClusterID c)
    (kf_CACert c) v (kf_ClientKey c) (kf_CASecretName c) (kf_ClientSecretName c) (kf_IsNewKafkaCluster c);
  GetClientKey := kf_ClientKey;
  SetClientKey v c := MkKafkaConfig (kf_BootstrapServer c) (kf_StatusTopic c) (kf_SpecTopic c) (kf_ClusterID c)
    (kf_CACert c) (kf_ClientCert c) v (kf_CASecretName c) (kf_ClientSecretName c) (kf_IsNewKafkaCluster c);
  GetCASecretName := kf_CASecretName;
  GetClientSecretName := kf_ClientSecretName;
|}.
#[export] Instance rest_certificate : TransportCerticiate RestfulConfig := {|
  GetCACert := rf_CACert;
  SetCACert v c := MkRestfulConfig (rf_Host c) v (rf_ClientCert c) (rf_ClientKey c) (rf_CASecretName c) (rf_ClientSecretName c);
  GetClientCert := rf_ClientCert;
  SetClientCert v c := MkRestfulConfig (rf_Host c) (rf_CACert c) v (rf_ClientKey c) (rf_CASecretName c) (rf_ClientSecretName c);
  GetClientKey := rf_ClientKey;
  SetClientKey v c := MkRestfulConfig (rf_Host c) (rf_CACert c) (rf_ClientCert c) v (rf_CASecretName c) (rf_ClientSecretName c);
  GetCASecretName := rf_CASecretName;
  GetClientSecretName := rf_ClientSecretName;
|}.

(** [yaml.Marshal] and [yaml.Unmarshal] on them. *)
Class Yaml (C : Type) := {
  yaml_Marshal : C -> result string;
  yaml_Unmarshal : string -> result C;
}.
Class YamlLaws (C : Type) `{Yaml C} := {
  yaml_round c s : yaml_Marshal c = Ok s -> yaml_Unmarshal s = Ok c;
}.

(** What [YamlMarshal] writes of a credential: the certificates or the names of the secrets. *)
Definition kafka_copy (rawCert : bool) (k : KafkaConfig) : KafkaConfig :=
  if rawCert then
    MkKafkaConfig (kf_BootstrapServer k) (kf_StatusTopic k) (kf_SpecTopic k) (kf_ClusterID k)
      (kf_CACert k) (kf_ClientCert k) (kf_ClientKey k) "" "" (kf_IsNewKafkaCluster k)
  else
    MkKafkaConfig (kf_BootstrapServer k) (kf_StatusTopic k) (kf_SpecTopic k) (kf_ClusterID k)
      "" "" "" (kf_CASecretName k) (kf_ClientSecretName k) (kf_IsNewKafkaCluster k).
Definition rest_copy (rawCert : bool) (k : RestfulConfig) : RestfulConfig :=
  if rawCert then MkRestfulConfig (rf_Host k) (rf_CACert k) (rf_ClientCert k) (rf_ClientKey k) "" ""
  else MkRestfulConfig (rf_Host k) "" "" "" (rf_CASecretName k) (rf_ClientSecretName k).
Definition YamlMarshal `{Yaml KafkaConfig} (rawCert : bool) (k : KafkaConfig) : result string := yaml_Marshal (kafka_copy rawCert k).
Definition rest_YamlMarshal `{Yaml RestfulConfig} (rawCert : bool) (k : RestfulConfig) : result string :=
  yaml_Marshal (rest_copy rawCert k).

(** ** Objects *)
Record Secret := MkSecret {
  sc_Key : obj_key;
  sc_Labels : gmap string string;
  sc_Owner : option string;                (** UID of the owner *)
  sc_Annotations : gmap string string;
  sc_Data : gmap string string;
}.
Record Condition := MkCondition {
  cd_Type : option string;
  cd_Status : option string;
  cd_Reason : option string;
  cd_Message : option string;
}.
Record ListenerStatus := MkListener { li_BootstrapServers : option string; li_Certificates : list string }.
Record KafkaClusterStatus := MkClusterState {
  kst_ClusterId : option string;
  kst_Conditions : option (list Condition);
  kst_Listeners : list ListenerStatus;
}.
Record SpecListener := MkSpecListener {
  sl_Name : string;
  sl_Port : Z;
  sl_Tls : bool;
  sl_Type : string;
  sl_Authentication : string;
  sl_NodePort : option (Z * string);     (** port of the bootstrap, advertised host of broker 0 *)
}.
Record PodTemplate := MkPodTemplate {
  pt_NodeAffinity : option (list (string * string));
  pt_Tolerations : list string;
  pt_ImagePullSecrets : list string;
}.
(** The specification of a Kafka cluster, without the resources of its pods. *)
Record KafkaSpec := MkKafkaSpec {
  ks_Config : string;
  ks_Listeners : option (list SpecListener);
  ks_Authorization : string;
  ks_Version : string;
  ks_Metrics : option (string * string);
  ks_Template : option PodTemplate;
  ks_EntityTemplate : option PodTemplate;
  ks_Zookeeper : bool;
}.
Record KafkaCluster := MkKafkaCluster {
  kk_Key : obj_key;
  kk_UID : string;
  kk_Labels : gmap string string;
  kk_Annotations : gmap string string;
  kk_Spec : option KafkaSpec;
  kk_Status : option KafkaClusterStatus;
}.
Record Route := MkRoute { rt_Key : obj_key; rt_Host : string }.
Record Pod := MkPod { pd_Key : obj_key; pd_Labels : gmap string string }.

(** What the operator asks of the catalogue, and what the installation reports. *)
Record SubscriptionSpec := MkSubscriptionSpec {
  ss_Channel : string;
  ss_InstallPlanApproval : string;
  ss_Package : string;
  ss_CatalogSource : string;
  ss_CatalogSourceNamespace : string;
  ss_StartingCSV : string;
  ss_NodeSelector : gmap string string;
  ss_Tolerations : list string;
}.
Record Subscription := MkSubscription {
  sb_Key : obj_key;
  sb_Labels : gmap string string;
  sb_Spec : SubscriptionSpec;
  sb_InstalledCSV : string;
}.
Record ServiceVersion := MkServiceVersion { csv_Key : obj_key; csv_Phase : string }.

(** Users, topics and volumes are here what the installation and its removal see of them. *)
Inductive conn_kind := CSecret | CKafka | CRoute | CPod | CUser | CTopic | CVolume | CSubscription | CServiceVersion.
#[export] Instance conn_kind_dec : EqDecision conn_kind.
Proof. solve_decision. Defined.
Definition conn_obj (k : conn_kind) : Type :=
  match k with
  | CSecret => Secret | CKafka => KafkaCluster | CRoute => Route | CPod => Pod
  | CUser | CTopic | CVolume => PlainObject
  | CSubscription => Subscription | CServiceVersion => ServiceVersion
  end.
Definition conn_name (k : conn_kind) : conn_obj k -> obj_key :=
  match k with
  | CSecret => sc_Key | CKafka => kk_Key | CRoute => rt_Key | CPod => pd_Key
  | CUser | CTopic | CVolume => pl_Key
  | CSubscription => sb_Key | CServiceVersion => csv_Key
  end.
Definition conn_mark (k : conn_kind) : conn_obj k -> option (conn_obj k) :=
  match k with CUser | CTopic | CVolume => pl_mark | _ => fun _ => None end.
Definition conn_keep (k : conn_kind) : conn_obj k -> bool :=
  match k with CUser | CTopic | CVolume => pl_keep | _ => fun _ => true end.
#[export] Program Instance conn_kinds : Kinds conn_kind := {|
  kobj := conn_obj; kname := conn_name; obj_mark := conn_mark; obj_keep := conn_keep; obj_admit _ o := o;
|}.
Next Obligation. intros [] o o'; cbn; try done; apply pl_mark_key. Qed.
Next Obligation. done. Qed.

(** [Data[key]]: a missing entry reads as no bytes. *)
Definition data (s : Secret) (key : string) : string := default "" (sc_Data s !! key).

Definition fetched_result {A} (f : fetched A) : result A :=
  match f with Found a => Ok a | Missing => Err "not found" | Broken e => Err e end.

(** ** Reading a credential ([confluent_config.go], [rest_config.go]) *)
Section Reading.
Context {W : Type} `{!KubeClient W conn_kind}.

Definition decode_field {C} (get : C -> string) (set : string -> C -> C) (conn : C) : result C :=
  if String.eqb (get conn) "" then Ok conn
  else let? bytes := DecodeString (get conn) in Ok (set bytes conn).

Definition ParseCredentailConn {C} `{TransportCerticiate C} (namespace : string) (w : W) (conn : C) : result C :=
  let? conn := decode_field GetCACert SetCACert conn in
  let? conn := decode_field GetClientCert SetClientCert conn in
  let? conn := decode_field GetClientKey SetClientKey conn in
  let? conn :=
    if String.eqb (GetCASecretName conn) "" then Ok conn
    else let? caSecret := fetched_result (kget w CSecret (namespace, GetCASecretName conn)) in
         Ok (SetCACert (data caSecret "ca.crt") conn) in
  if String.eqb (GetClientSecretName conn) "" then Ok conn
  else
    let? clientSecret := fetched_result (kget w CSecret (namespace, GetClientSecretName conn)) in
    let conn := SetClientKey (data clientSecret "tls.key") (SetClientCert (data clientSecret "tls.crt") conn) in
    if String.eqb (GetClientCert conn) "" || String.eqb (GetClientKey conn) ""
    then Err "the client cert or key must not be empty" else Ok conn.

Definition credential_by_secret {C} `{TransportCerticiate C} `{Yaml C} (key : string) (transportSecret : Secret) (w : W) : result C :=
  match sc_Data transportSecret !! key with
  | None => Err ("must set the " +:+ key +:+ " in the transport secret")
  | Some text => let? conn := yaml_Unmarshal text in ParseCredentailConn (sc_Key transportSecret).1 w conn
  end.
Definition GetKafkaCredentailBySecret `{Yaml KafkaConfig} : Secret -> W -> result KafkaConfig := credential_by_secret "kafka.yaml".
Definition GetRestfulConnBySecret `{Yaml RestfulConfig} : Secret -> W -> result RestfulConfig := credential_by_secret "rest.yaml".
End Reading.

(** ** Settings of a client of Kafka *)
Inductive config_value := CText (s : string) | CInt (z : Z).
#[export] Instance config_value_dec : EqDecision config_value.
Proof. solve_decision. Defined.
Definition ConfigMap : Type := gmap string config_value.

(** [ConfigMap.SetKey]: a plain key is an entry of the map. *)
Class ConfigSetter := { SetKey : string -> config_value -> ConfigMap -> result ConfigMap }.
Class ConfigSetterLaws `{ConfigSetter} := {
  SetKey_plain key v m : String.prefix "{topic}." key = false -> SetKey key v m = Ok (<[key := v]> m);
}.

Section Settings.
Context `{ConfigSetter}.

(** [_ = m.SetKey(key, value)] *)
Definition set_key (m : ConfigMap) (kv : string * config_value) : ConfigMap :=
  match SetKey kv.1 kv.2 m with Ok m' => m' | Err _ => m end.

Definition GetBasicConfigMap : ConfigMap :=
  <["socket.keepalive.enable" := CText "true"]>
  (<["log.connection.close" := CText "false"]>
  {["ssl.endpoint.identification.algorithm" := CText "none"]}).
Definition SetProducerConfig (m : ConfigMap) : ConfigMap :=
  foldl set_key m [("go.produce.channel.size", CInt 1000); ("acks", CText "1"); ("retries", CText "1");
                   ("go.events.channel.size", CInt 1000)].
Definition SetConsumerConfig (groupId : string) (m : ConfigMap) : ConfigMap :=
  foldl set_key m [("enable.auto.commit", CText "true"); ("auto.offset.reset", CText "earliest");
                   ("group.id", CText groupId); ("go.events.channel.size", CInt 1000)].

Definition GetConfluentConfigMapByKafkaCredential (conn : KafkaConfig) (consumerGroupID : string) : result ConfigMap :=
  let m := GetBasicConfigMap in
  let m := if String.eqb consumerGroupID "" then SetProducerConfig m else SetConsumerConfig consumerGroupID m in
  let m := set_key m ("bootstrap.servers", CText (kf_BootstrapServer conn)) in
  if String.eqb (kf_CACert conn) "" || String.eqb (kf_ClientCert conn) "" || String.eqb (kf_ClientKey conn) "" then Ok m
  else
    let m := set_key m ("security.protocol", CText "ssl") in
    let? m := SetKey "ssl.ca.pem" (CText (kf_CACert conn)) m in
    let? m := SetKey "ssl.certificate.pem" (CText (kf_ClientCert conn)) m in
    SetKey "ssl.key.pem" (CText (kf_ClientKey conn)) m.

Definition GetConfluentConfigMapByConfig {W} `{!KubeClient W conn_kind} `{Yaml KafkaConfig}
    (transportConfig : Secret) (w : W) (consumerGroupID : string) : result ConfigMap :=
  let? conn := GetKafkaCredentailBySecret transportConfig w in
  GetConfluentConfigMapByKafkaCredential conn consumerGroupID.
End Settings.

(** ** The connections that the operator hands out

    The credential of a Kafka cluster that the operator runs
    ([strimzi_transporter.go], [strimzi_kafka_controller.go]) or is given
    ([byo_transporter.go]), what goes into the manifests of an agent
    ([addon_agent_manifest_transport.go]), and how the operator remembers what the
    manager was started with ([manager_reconciler.go], [transport_config.go]). *)

Definition UpgradeKafkaFromZookeeperAnnotation : string := "global-hub.open-cluster-management.io/upgrade-from-zookeeper".
Definition DefaultGlobalHubKafkaUserName : string := "global-hub-kafka-user".
Definition GHTransportSecretName : string := "multicluster-global-hub-transport".

(** [AgentCertificateSecretName]: the add-on and its signer. *)
Definition AgentCertificateSecretName : string :=
  "multicluster-global-hub-controller-open-cluster-management.io-globalhub-signer-client-cert".
Definition GetClusterCASecret (clusterName : string) : string := clusterName +:+ "-cluster-ca-cert".

Record KafkaStatus := MkKafkaStatus { kafkaReason : string; kafkaMessage : string; kafkaReady : bool }.

(** What a readiness check remembers of the cluster. *)
Record StrimziFlags := MkFlags { enableTLS : bool; isNewKafkaCluster : bool }.

(** [*p]: nil is a panic. *)
Definition deref {A} (p : option A) : outcome A := match p with Some a => Ret a | None => Panic end.

Section Strimzi.
Context {W : Type} `{!KubeClient W conn_kind} `{!KubeClient W op_kind}.
Context (k : strimziTransporter) (c : TransportConfig).

(** [*condition.Type == "Ready" && *condition.Status == "True"] for some condition. *)
Fixpoint some_ready (conditions : list Condition) : outcome bool :=
  match conditions with
  | [] => Ret false
  | condition :: rest =>
      let! type := deref (cd_Type condition) in
      if String.eqb type "Ready" then
        let! status := deref (cd_Status condition) in
        if String.eqb status "True" then Ret true else some_ready rest
      else some_ready rest
  end.

Definition cluster_credential (kafkaCluster : KafkaCluster) (st : KafkaClusterStatus) : outcome KafkaConfig :=
  let clusterIdentity := default (kk_UID kafkaCluster) (kst_ClusterId st) in
  let! listener := slice_get (kst_Listeners st) 0 in
  let! bootstrapServer := deref (li_BootstrapServers listener) in
  let! certificate := slice_get (li_Certificates listener) 0 in
  Ret (MkKafkaConfig bootstrapServer "" "" clusterIdentity (EncodeToString certificate) "" "" "" "" false).

Definition getConnCredentailByCluster (w : W) : outcome (result KafkaConfig) :=
  match fetched_result (kget w CKafka (kafkaClusterNamespace k, kafkaClusterName k)) with
  | Err e => Ret (Err e)
  | Ok kafkaCluster =>
      match kk_Status kafkaCluster with
      | Some st =>
          match kst_Conditions st with
          | Some conditions =>
              let! ready := some_ready conditions in
              if ready then let! conn := cluster_credential kafkaCluster st in Ret (Ok conn)
              else Ret (Err "the kafka cluster is not ready")
          | None => Ret (Err "the kafka cluster has no status conditions")
          end
      | None => Ret (Err "the kafka cluster has no status conditions")
      end
  end.

Definition strimzi_GetConnCredential (flags : StrimziFlags) (clusterName : string) (w : W) : outcome (result KafkaConfig) :=
  let! r := getConnCredentailByCluster w in
  Ret (let? credential := r in
       Ok (MkKafkaConfig (kf_BootstrapServer credential) (GetStatusTopic c clusterName) (specTopic c) (kf_ClusterID credential)
             (kf_CACert credential) (kf_ClientCert credential) (kf_ClientKey credential)
             (GetClusterCASecret (kafkaClusterName k)) AgentCertificateSecretName (isNewKafkaCluster flags))).

Definition loadUserCredentail (kafkaUserName : string) (w : W) (credential : KafkaConfig) : result KafkaConfig :=
  let? kafkaUserSecret := fetched_result (kget w CSecret (kafkaClusterNamespace k, kafkaUserName)) in
  Ok (SetClientKey (C := KafkaConfig) (EncodeToString (data kafkaUserSecret "user.key"))
        (SetClientCert (EncodeToString (data kafkaUserSecret "user.crt")) credential)).

Definition set_topics (spec status : string) (conn : KafkaConfig) : KafkaConfig :=
  MkKafkaConfig (kf_BootstrapServer conn) status spec (kf_ClusterID conn) (kf_CACert conn) (kf_ClientCert conn)
    (kf_ClientKey conn) (kf_CASecretName conn) (kf_ClientSecretName conn) (kf_IsNewKafkaCluster conn).

(** The credential of the manager, or an error: the controller waits. *)
Definition getManagerTransportConn (kafkaUserSecret : string) (w : W) : outcome (result KafkaConfig) :=
  let! r := getConnCredentailByCluster w in
  Ret (let? conn := r in loadUserCredentail kafkaUserSecret w (set_topics (specTopic c) (ManagerStatusTopic c) conn)).

(** The first condition [Ready] decides; its reason and message are read when it is not true. *)
Fixpoint ready_status (waiting : KafkaStatus) (conditions : list Condition) : outcome KafkaStatus :=
  match conditions with
  | [] => Ret waiting
  | condition :: rest =>
      let! type := deref (cd_Type condition) in
      if String.eqb type "Ready" then
        let! status := deref (cd_Status condition) in
        if String.eqb status "True" then Ret (MkKafkaStatus (kafkaReason waiting) (kafkaMessage waiting) true)
        else
          let! message := deref (cd_Message condition) in
          let! reason := deref (cd_Reason condition) in
          Ret (MkKafkaStatus reason message false)
      else ready_status waiting rest
  end.

Definition kafka_waiting : KafkaStatus := MkKafkaStatus "KafkaNotReady" "Wait kafka cluster ready" false.

Definition kafkaClusterReady (flags : StrimziFlags) (w : W) : outcome (KafkaStatus * option goerror * StrimziFlags) :=
  match kget w CKafka (kafkaClusterNamespace k, kafkaClusterName k) with
  | Missing => Ret (kafka_waiting, None, flags)
  | Broken e => Ret (kafka_waiting, Some e, flags)
  | Found kafkaCluster =>
      match kk_Status kafkaCluster ≫= kst_Conditions with
      | None => Ret (kafka_waiting, None, flags)
      | Some conditions =>
          let isNew := bool_decide (is_Some (kk_Annotations kafkaCluster !! UpgradeKafkaFromZookeeperAnnotation)) in
          let tls := match kk_Spec kafkaCluster ≫= ks_Listeners with
                     | Some listeners => existsb sl_Tls listeners
                     | None => enableTLS flags
                     end in
          let! st := ready_status kafka_waiting conditions in
          Ret (st, None, MkFlags tls isNew)
      end
  end.
End Strimzi.

(** ** A cluster that is given *)
Definition byo_GetConnCredential {W} `{!KubeClient W conn_kind} (c : TransportConfig) (namespace name : string) (w : W)
    : outcome (result KafkaConfig) :=
  Ret (let? kafkaSecret := fetched_result (kget w CSecret (namespace, name)) in
       Ok (MkKafkaConfig (data kafkaSecret "bootstrap_server") (GetStatusTopic c "") (specTopic c)
             (data kafkaSecret "bootstrap_server") (EncodeToString (data kafkaSecret "ca.crt"))
             (EncodeToString (data kafkaSecret "client.crt")) (EncodeToString (data kafkaSecret "client.key")) "" "" false)).

(** ** The manifests of an agent *)
Record TransportManifests := MkManifests {
  mf_KafkaConfigYaml : string;
  mf_KafkaClusterCASecret : string;
  mf_KafkaClusterCACert : string;
  mf_InventoryConfigYaml : string;
  mf_InventoryServerCASecret : string;
  mf_InventoryServerCACert : string;
}.
Definition InventoryServerCASecretName : string := "inventory-api-server-ca-certs".
Definition InventoryRouteName : string := "inventory-api".

Section Manifests.
Context {W : Type} `{!KubeClient W conn_kind} `{Yaml KafkaConfig} `{Yaml RestfulConfig}.

Definition GetKeyAndCert (namespace name : string) (w : W) : result (string * string) :=
  let? certSecret := fetched_result (kget w CSecret (namespace, name)) in
  match sc_Data certSecret !! "tls.key", sc_Data certSecret !! "tls.crt" with
  | None, _ => Err "the cert secret must have tls.key"
  | Some _, None => Err "the cert secret must have tls.crt"
  | Some key, Some cert => Ok (key, cert)
  end.

Definition getInventoryCredential (namespace : string) (w : W) : result RestfulConfig :=
  let? (_, serverCACert) := GetKeyAndCert namespace InventoryServerCASecretName w in
  let? inventoryRoute := fetched_result (kget w CRoute (namespace, InventoryRouteName)) in
  Ok (MkRestfulConfig ("https://" +:+ rt_Host inventoryRoute +:+ ":443") (EncodeToString serverCACert) "" ""
        InventoryServerCASecretName AgentCertificateSecretName).

(** A transporter that gives out credentials too. *)
Definition setTransportConfigs (transporter : Transporter W) (GetConnCredential : string -> W -> outcome (result KafkaConfig))
    (c : TransportConfig) (namespace cluster : string) (m : TransportManifests) (w : W) : outcome (result TransportManifests * W) :=
  if enableInventory c then
    Ret (let? inventoryConn := getInventoryCredential namespace w in
         let? inventoryConfigYaml := rest_YamlMarshal false inventoryConn in
         Ok (MkManifests (mf_KafkaConfigYaml m) (mf_KafkaClusterCASecret m) (mf_KafkaClusterCACert m)
               (EncodeToString inventoryConfigYaml) (rf_CASecretName inventoryConn) (rf_CACert inventoryConn)), w)
  else
    match EnsureTopic cluster w with
    | (Err e, w1) => Ret (Err e, w1)
    | (Ok _, w1) =>
        match EnsureUser cluster w1 with
        | (Err e, w2) => Ret (Err ("failed to update the kafkauser: " +:+ e), w2)
        | (Ok _, w2) =>
            let! r := GetConnCredential cluster w2 in
            Ret (let? kafkaConnection := r in
                 let? kafkaConfigYaml := YamlMarshal (isBYOKafka c) kafkaConnection in
                 Ok (MkManifests (EncodeToString kafkaConfigYaml) (kf_CASecretName kafkaConnection) (kf_CACert kafkaConnection)
                       (mf_InventoryConfigYaml m) (mf_InventoryServerCASecret m) (mf_InventoryServerCACert m)), w2)
        end
    end.
End Manifests.

(** ** What the operator remembers *)

(** [SetTransporterConn]: whether the connection is another one; nil always is. *)
Definition SetTransporterConn (conn transporterConn : option KafkaConfig) : bool * option KafkaConfig :=
  match conn with
  | None => (true, None)
  | Some _ => if bool_decide (conn = transporterConn) then (false, transporterConn) else (true, conn)
  end.

Record PostgresConnection := MkPostgres {
  pg_SuperuserDatabaseURI : string;
  pg_ReadonlyUserDatabaseURI : string;
  pg_CACert : string;
}.
#[export] Instance PostgresConnection_dec : EqDecision PostgresConnection.
Proof. solve_decision. Defined.

Definition middleware : Type := (option KafkaConfig * option PostgresConnection)%type.

Definition setMiddlewareCache (transportConn : option KafkaConfig) (storageConn : option PostgresConnection) (cache : middleware) : middleware :=
  (match transportConn with Some _ => transportConn | None => cache.1 end,
   match storageConn with Some _ => storageConn | None => cache.2 end).

Definition isMiddlewareUpdated (transportConn : option KafkaConfig) (storageConn : option PostgresConnection) (cache : middleware) : bool * middleware :=
  let updated := bool_decide (cache.1 = None) || bool_decide (cache.2 = None)
                 || negb (bool_decide (transportConn = cache.1)) || negb (bool_decide (storageConn = cache.2)) in
  (updated, if updated then setMiddlewareCache transportConn storageConn cache else cache).

Section Restart.
Context {W : Type} `{!KubeClient W conn_kind}.

Fixpoint delete_pods (pods : list obj_key) (w : W) : option goerror * W :=
  match pods with
  | [] => (None, w)
  | po :: rest =>
      match kdelete w CPod po with
      | (Refused e, w') => (Some e, w')
      | (_, w') => delete_pods rest w'
      end
  end.

(** [RestartPod]: the pods of a deployment go, and the deployment makes new ones. *)
Definition deployment_pods (namespace deploymentName : string) (pods : list Pod) : list Pod :=
  filter (fun p => (pd_Key p).1 = namespace /\ pd_Labels p !! "name" = Some deploymentName) pods.
Definition RestartPod (podNamespace deploymentName : string) (w : W) : option goerror * W :=
  match klist w CPod with
  | Err e => (Some e, w)
  | Ok pods => delete_pods (pd_Key <$> deployment_pods podNamespace deploymentName pods) w
  end.

(** What the reconciliation of the manager waits for, and the restart of its pods
    when a connection is another one. *)
Inductive manager_step := WaitKafka | NotReady (e : goerror) | RestartFailed (e : goerror) | Proceeds.

Definition restart_on_change (namespace : string) (transportConn : option KafkaConfig) (storageConn : option PostgresConnection)
    (databaseReady : bool) (cache : middleware) (w : W) : manager_step * middleware * W :=
  match transportConn with
  | None => (WaitKafka, cache, w)
  | Some conn =>
      if String.eqb (kf_BootstrapServer conn) "" then (WaitKafka, cache, w)
      else
        match storageConn, databaseReady with
        | Some _, true =>
            let '(updated, cache') := isMiddlewareUpdated transportConn storageConn cache in
            if updated then
              match RestartPod namespace "multicluster-global-hub-manager" w with
              | (Some e, w') => (RestartFailed e, cache', w')
              | (None, w') => (Proceeds, cache', w')
              end
            else (Proceeds, cache', w)
        | _, _ => (NotReady "the storage connection or database isn't ready", cache, w)
        end
  end.
End Restart.
