(* ===== verification/Certificates.v ===== *)
(** * The certificates of the inventory

    The authorities and certificates that the operator makes, renews and removes
    ([operator/pkg/certificates]), the authorities that it keeps for the agents
    ([operator/pkg/config/transport_config.go]), and the requests of the agents that
    it approves and signs ([operator/pkg/controllers/agent/certificates]).

    Keys, certificates and their encodings are those of [crypto/x509],
    [encoding/pem] and cfssl, a class of operations; times are nanoseconds, and
    each call that makes a certificate is given what it draws from the clock and
    the random source. *)

From stdpp Require Import prelude gmap strings list.
From Stdlib Require Import ZArith Ascii.
From S2P Require Import Prelude.
From S2P Require Import GoLib.
From S2P Require Import KubeClient.
From S2P Require Import KafkaAccess.
From S2P Require Import Credentials.

Local Open Scope string_scope.
Local Open Scope list_scope.

(** ** Certificates and keys *)
Record PemBlock := MkBlock { bl_Type : string; bl_Bytes : string }.
Inductive key_usage := DigitalSignature | KeyEncipherment | CertSign.
Inductive ext_usage := ServerAuth | ClientAuth.

(** What a certificate is made of. *)
Record Template := MkTemplate {
  tp_SerialNumber : Z;
  tp_Organization : list string;
  tp_Country : list string;
  tp_OrganizationalUnit : list string;
  tp_CommonName : string;
  tp_NotBefore : Z;
  tp_NotAfter : Z;
  tp_IsCA : bool;
  tp_KeyUsage : list key_usage;
  tp_ExtKeyUsage : list ext_usage;
  tp_DNSNames : list string;
  tp_IPAddresses : list string;
}.
(** What is read of one: the template, whose dates are whole seconds, the subject of
    the issuer, and the public keys of the certificate and of the signature. *)
Record Certificate := MkCertificate {
  crt_Template : Template;
  crt_Issuer : string;
  crt_PublicKey : string;
  crt_SignedBy : string;
}.
Definition NotBefore (c : Certificate) : Z := tp_NotBefore (crt_Template c).
Definition NotAfter (c : Certificate) : Z := tp_NotAfter (crt_Template c).

Record CertificateSigningRequest := MkRequest {
  csr_Namespace : string;
  csr_Username : string;
  csr_Usages : list string;
  csr_Request : string;
}.
(** What the signer is asked for. *)
Record Signing := MkSigning { sg_Usage : list string; sg_Expiry : Z }.

(** Private keys, and the signers that are made of keys of any kind. *)
Class X509 (Key Signer : Type) := {
  pem_Encode : PemBlock -> string;
  pem_Decode : string -> option PemBlock * string;
  Public : Key -> string;
  MarshalPKCS1PrivateKey : Key -> string;
  ParsePKCS1PrivateKey : string -> result Key;
  ParsePKCS8Signer : string -> result Signer;
  ParseECSigner : string -> result Signer;
  Validate : Key -> option goerror;
  rsa_signer : Key -> Signer;
  x509_CreateCertificate : Template -> option Certificate -> string -> Key -> result string;
  ParseCertificate : string -> result Certificate;
  ParseCertificates : string -> result (list Certificate);
  (** the common name of a request *)
  ParseCertificateRequest : string -> result string;
  ParseIP : string -> string;
  (** [local.NewSigner] and its [Sign] *)
  cfssl_Sign : Signer -> Certificate -> Signing -> Z -> string -> result string;
}.

(** The dates of a certificate have no fractions of a second. *)
Definition second : Z := 1000000000.
Definition whole_seconds (t : Z) : Z := t / second * second.
Definition stored_template (t : Template) : Template :=
  MkTemplate (tp_SerialNumber t) (tp_Organization t) (tp_Country t) (tp_OrganizationalUnit t) (tp_CommonName t)
    (whole_seconds (tp_NotBefore t)) (whole_seconds (tp_NotAfter t)) (tp_IsCA t) (tp_KeyUsage t) (tp_ExtKeyUsage t)
    (tp_DNSNames t) (tp_IPAddresses t).
Definition issued {Key Signer} `{X509 Key Signer} (t : Template) (parent : option Certificate) (pub : string) (k : Key) : Certificate :=
  MkCertificate (stored_template t) (match parent with None => tp_CommonName t | Some p => tp_CommonName (crt_Template p) end)
    pub (Public k).

(** Names are ASCII, and serial numbers positive. *)
Definition ascii_text (s : string) : bool := forallb (fun c => (N_of_ascii c <? 128)%N) (String.list_ascii_of_string s).
Definition issuable (t : Template) : bool := (0 <? tp_SerialNumber t)%Z && forallb ascii_text (tp_DNSNames t).

Class X509Laws (Key Signer : Type) `{X509 Key Signer} := {
  pem_round b rest : bl_Bytes b <> "" -> pem_Decode (pem_Encode b +:+ rest) = (Some b, rest);
  pem_suffix d : exists p, d = p +:+ (pem_Decode d).2;
  pem_progress d b rest : pem_Decode d = (Some b, rest) -> String.length rest < String.length d;
  pem_nothing : pem_Decode "" = (None, "");
  key_bytes k : MarshalPKCS1PrivateKey k <> "";
  key_round k : ParsePKCS1PrivateKey (MarshalPKCS1PrivateKey k) = Ok k;
  issued_bytes t p pub k bytes : x509_CreateCertificate t p pub k = Ok bytes -> bytes <> "";
  issued_parses t p pub k bytes : x509_CreateCertificate t p pub k = Ok bytes ->
    ParseCertificate bytes = Ok (issued t p pub k) /\ ParseCertificates bytes = Ok [issued t p pub k];
  self_issued t k : issuable t = true -> exists bytes, x509_CreateCertificate t None (Public k) k = Ok bytes;
  parent_issues t p pub k : issuable t = true -> crt_PublicKey p = Public k ->
    exists bytes, x509_CreateCertificate t (Some p) pub k = Ok bytes;
}.

(** ** Objects *)
Record Deployment := MkDeployment { dp_Key : obj_key; dp_ReadyReplicas : Z }.

Inductive inventory_kind := IDeployment.
#[export] Instance inventory_kind_dec : EqDecision inventory_kind.
Proof. solve_decision. Defined.
#[export] Program Instance inventory_kinds : Kinds inventory_kind := {|
  kobj _ := Deployment; kname _ := dp_Key; obj_mark _ _ := None; obj_keep _ _ := true; obj_admit _ o := o;
|}.
Next Obligation. done. Qed.
Next Obligation. done. Qed.

(** [controllerutil.SetControllerReference(mgh, secret, scheme)] *)
Class Owning := {
  OwnSecret : GlobalHub -> Secret -> result Secret;
  owner_uid : GlobalHub -> string;
}.
Class OwningLaws `{Owning} := {
  OwnSecret_owner m s s' : OwnSecret m s = Ok s' ->
    s' = MkSecret (sc_Key s) (sc_Labels s) (Some (owner_uid m)) (sc_Annotations s) (sc_Data s);
  OwnSecret_ok m s : (gh_Key m).1 = (sc_Key s).1 -> sc_Owner s = None -> exists s', OwnSecret m s = Ok s';
}.

(** What a call that makes a certificate draws: a serial number, a key, the time. *)
Record Entropy (Key : Type) := MkEntropy { en_Serial : result Z; en_Key : result Key; en_Now : Z }.
Arguments MkEntropy {Key}. Arguments en_Serial {Key}. Arguments en_Key {Key}. Arguments en_Now {Key}.

Definition serverCACertificateCN : string := "inventory-api-server-ca-certificate".
Definition serverCertificateCN : string := "inventory-api-server-certificate".
Definition serverCerts : string := "inventory-api-server-certs".
Definition clientCACertificateCN : string := "inventory-api-client-ca-certificate".
Definition InventoryClientCASecretName : string := "inventory-api-client-ca-certs".
Definition guestCertificateCN : string := "guest".
Definition guestCerts : string := "inventory-api-guest-certs".
Definition InventoryDeploymentName : string := "inventory-api".
Definition backup_labels : gmap string string := {["cluster.open-cluster-management.io/backup" := "globalhub"]}.

Definition hour : Z := 3600 * second.
Definition year : Z := 24 * 365 * hour.

(** [data[:len(data)-len(rest)]] *)
Definition front (data rest : string) : string := String.substring 0 (String.length data - String.length rest) data.
(** An entry of [Data]: writing to a nil map is a panic. *)
Definition put_data (key v : string) (s : Secret) : outcome Secret :=
  if bool_decide (sc_Data s = ∅) then Panic
  else Ret (MkSecret (sc_Key s) (sc_Labels s) (sc_Owner s) (sc_Annotations s) (<[key := v]> (sc_Data s))).
Definition certificate_data (ca crt key : string) : gmap string string :=
  <["ca.crt" := ca]> (<["tls.crt" := crt]> {["tls.key" := key]}).
Definition put_certificate (ca crt key : string) (s : Secret) : Secret :=
  MkSecret (sc_Key s) (sc_Labels s) (sc_Owner s) (sc_Annotations s)
    (<["tls.key" := key]> (<["tls.crt" := crt]> (<["ca.crt" := ca]> (sc_Data s)))).

(** ** Making certificates ([certificates.go]) *)
Section Making.
Context {Key Signer : Type} `{X509 Key Signer}.
Implicit Types (en : Entropy Key).

Definition ca_template (sn now : Z) (cn : string) : Template :=
  MkTemplate sn ["Red Hat, Inc."] ["US"] [] cn now (now + 5 * year) true
    [DigitalSignature; KeyEncipherment; CertSign] [] [] [].

Definition createCACertificate en (cn : string) (caKey : option Key) : result (string * string) :=
  let? sn := en_Serial en in
  let? key := match caKey with Some k => Ok k | None => en_Key en end in
  let? caBytes := x509_CreateCertificate (ca_template sn (en_Now en) cn) None (Public key) key in
  Ok (MarshalPKCS1PrivateKey key, caBytes).

(** [append(dns[:1], dns[0:]...)] and [dns[0] = cn] *)
Definition dns_names (cn : string) (dns : option (list string)) : outcome (list string) :=
  match dns with
  | None => Ret [cn]
  | Some [] => Panic
  | Some l => Ret (cn :: l)
  end.
Definition leaf_template (sn now : Z) (isServer : bool) (cn : string) (ou : option (list string)) (names : list string)
    (ips : option (list string)) : Template :=
  MkTemplate sn ["Red Hat, Inc."] ["US"] (default [] ou) cn now (now + year) false
    [DigitalSignature; KeyEncipherment] [if isServer then ServerAuth else ClientAuth] names (default [] ips).

Definition createCertificate en (isServer : bool) (cn : string) (ou dns : option (list string)) (ips : option (list string))
    (caCert : Certificate) (caKey : Key) (key : option Key) : outcome (result (string * string)) :=
  match en_Serial en with
  | Err e => Ret (Err e)
  | Ok sn =>
      let! names := dns_names cn dns in
      Ret (let? key := match key with Some k => Ok k | None => en_Key en end in
           let? bytes := x509_CreateCertificate (leaf_template sn (en_Now en) isServer cn ou names ips) (Some caCert) (Public key) caKey in
           Ok (MarshalPKCS1PrivateKey key, bytes))
  end.

Definition pemEncode (cert key : string) : string * string :=
  (pem_Encode (MkBlock "CERTIFICATE" cert), pem_Encode (MkBlock "RSA PRIVATE KEY" key)).

(** A private key that cannot be read is made anew. *)
Definition read_key (bytes : string) : outcome (option Key) :=
  let! block := deref (pem_Decode bytes).1 in
  Ret (match ParsePKCS1PrivateKey (bl_Bytes block) with Ok k => Some k | Err _ => None end).

Section Secrets.
Context {W : Type} `{!KubeClient W conn_kind} `{Owning}.

Definition own (mgh : option GlobalHub) (s : Secret) : result Secret :=
  match mgh with Some m => OwnSecret m s | None => Ok s end.
Definition created (r : written * W) : result bool * W :=
  let '(r, w) := r in (match written_err r with None => Ok true | Some e => Err e end, w).

Definition createCASecret en (mgh : option GlobalHub) (isRenew : bool) (name namespace cn : string) (w : W)
    : outcome (result bool * W) :=
  match kget w CSecret (namespace, name) with
  | Broken e => Ret (Err e, w)
  | Missing =>
      Ret (match
             (let? (key, cert) := createCACertificate en cn None in
              let '(certPEM, keyPEM) := pemEncode cert key in
              own mgh (MkSecret (namespace, name) backup_labels None ∅ (certificate_data certPEM certPEM keyPEM)))
           with
           | Err e => (Err e, w)
           | Ok caSecret => created (kcreate w CSecret (caSecret : kobj CSecret))
           end)
  | Found caSecret =>
      if isRenew then
        let! caKey := read_key (data caSecret "tls.key") in
        match createCACertificate en cn caKey with
        | Err e => Ret (Err e, w)
        | Ok (key, cert) =>
            let '(certPEM, keyPEM) := pemEncode cert key in
            Ret (created (kupdate w CSecret
              (put_certificate certPEM (certPEM +:+ data caSecret "tls.crt") keyPEM caSecret : kobj CSecret)))
        end
      else Ret (Ok false, w)
  end.

Definition getCA (isServer : bool) (namespace : string) (w : W) : outcome (result (Certificate * Key * string)) :=
  let caCertName := if isServer then InventoryServerCASecretName else InventoryClientCASecretName in
  match GetKeyAndCert namespace caCertName w with
  | Err e => Ret (Err e)
  | Ok (key, cert) =>
      let '(block1, rest) := pem_Decode cert in
      let caCertBytes := front cert rest in
      let! block1 := deref block1 in
      match ParseCertificates (bl_Bytes block1) with
      | Err e => Ret (Err e)
      | Ok caCerts =>
          let! block2 := deref (pem_Decode key).1 in
          match ParsePKCS1PrivateKey (bl_Bytes block2) with
          | Err e => Ret (Err e)
          | Ok caKey => let! caCert := slice_get caCerts 0 in Ret (Ok (caCert, caKey, caCertBytes))
          end
      end
  end.

(** The certificate of the server: another host, or one that cannot be read. The
    loop over the names reads it also when the parse failed. *)
Definition server_outdated (crtSecret : Secret) (dns : option (list string)) : outcome bool :=
  match (pem_Decode (data crtSecret "tls.crt")).1 with
  | None => Ret false
  | Some block =>
      match ParseCertificate (bl_Bytes block) with
      | Err _ => match default [] dns with [] => Ret true | _ => Panic end
      | Ok serverCrt => Ret (existsb (fun d => negb (bool_decide (d ∈ tp_DNSNames (crt_Template serverCrt)))) (default [] dns))
      end
  end.

Definition createCertSecret en (mgh : option GlobalHub) (isRenew : bool) (name namespace : string) (isServer : bool)
    (cn : string) (ou dns ips : option (list string)) (w : W) : outcome (option goerror * W) :=
  match kget w CSecret (namespace, name) with
  | Broken e => Ret (Some e, w)
  | Missing =>
      let! ca := getCA isServer namespace w in
      match ca with
      | Err e => Ret (Some e, w)
      | Ok (caCert, caKey, caCertBytes) =>
          let! made := createCertificate en isServer cn ou dns ips caCert caKey None in
          match
            (let? (key, cert) := made in
             let '(certPEM, keyPEM) := pemEncode cert key in
             own mgh (MkSecret (namespace, name) backup_labels None ∅ (certificate_data caCertBytes certPEM keyPEM)))
          with
          | Err e => Ret (Some e, w)
          | Ok crtSecret => let '(r, w1) := kcreate w CSecret (crtSecret : kobj CSecret) in Ret (written_err r, w1)
          end
      end
  | Found crtSecret =>
      let! isRenew :=
        if String.eqb (sc_Key crtSecret).2 serverCerts && negb isRenew then server_outdated crtSecret dns else Ret isRenew in
      if isRenew then
        let! m := deref mgh in
        let! ca := getCA isServer (gh_Key m).1 w in
        match ca with
        | Err e => Ret (Some e, w)
        | Ok (caCert, caKey, caCertBytes) =>
            let! crtkey := read_key (data crtSecret "tls.key") in
            let! made := createCertificate en isServer cn ou dns ips caCert caKey crtkey in
            match made with
            | Err e => Ret (Some e, w)
            | Ok (key, cert) =>
                let '(certPEM, keyPEM) := pemEncode cert key in
                let '(r, w1) := kupdate w CSecret (put_certificate caCertBytes certPEM keyPEM crtSecret : kobj CSecret) in
                Ret (written_err r, w1)
            end
        end
      else Ret (None, w)
  end.

Definition getHosts (namespace : string) (w : W) : result (list string) :=
  let? found := fetched_result (kget w CRoute (namespace, InventoryRouteName)) in
  Ok [rt_Host found].

Definition getIps (mgh : GlobalHub) : option (list string) :=
  let kindClusterIP := default "" (gh_Annotations mgh !! "global-hub.open-cluster-management.io/kind-cluster-ip") in
  if String.eqb kindClusterIP "" then None else Some [ParseIP kindClusterIP].

(** The draws of its four certificates. *)
Definition CreateInventoryCerts (en1 en2 en3 en4 : Entropy Key) (mgh : GlobalHub) (w : W) : outcome (option goerror * W) :=
  let namespace := (gh_Key mgh).1 in
  let! (r1, w1) := createCASecret en1 (Some mgh) false InventoryServerCASecretName namespace serverCACertificateCN w in
  match r1 with
  | Err e => Ret (Some e, w1)
  | Ok serverCrtUpdated =>
      let! (r2, w2) := createCASecret en2 (Some mgh) false InventoryClientCASecretName namespace clientCACertificateCN w1 in
      match r2 with
      | Err e => Ret (Some e, w2)
      | Ok clientCrtUpdated =>
          match getHosts namespace w2 with
          | Err e => Ret (Some e, w2)
          | Ok hosts =>
              let! (e3, w3) := createCertSecret en3 (Some mgh) serverCrtUpdated serverCerts namespace true
                                  serverCertificateCN None (Some hosts) (getIps mgh) w2 in
              match e3 with
              | Some e => Ret (Some e, w3)
              | None => createCertSecret en4 (Some mgh) clientCrtUpdated guestCerts namespace false
                          guestCertificateCN None None None w3
              end
          end
      end
  end.

(** ** Authorities that expired

    A certificate that cannot be read goes too. [kept] is what is kept so far and [rest] what is still to be read; every block
    that is read shortens it, so that its length is fuel enough. *)
Definition expired (now : Z) (block : PemBlock) : outcome bool :=
  match ParseCertificates (bl_Bytes block) with
  | Err _ => Ret true
  | Ok certs => let! c := slice_get certs 0 in Ret (NotAfter c <? now)%Z
  end.
Fixpoint unexpired (fuel : nat) (now : Z) (kept rest : string) : outcome string :=
  match fuel with
  | O => Diverge
  | S n =>
      let '(block, rest') := pem_Decode rest in
      let! block := deref block in
      let! removeFlag := expired now block in
      let kept' := if removeFlag then kept else kept +:+ front rest rest' in
      if String.eqb rest' "" then Ret kept' else unexpired n now kept' rest'
  end.
Definition unexpired_certificates (now : Z) (bytes : string) : outcome string :=
  let rest := (pem_Decode bytes).2 in
  if String.eqb rest "" then Ret (front bytes rest) else unexpired (String.length rest) now (front bytes rest) rest.

Definition removeExpiredCA (now : Z) (name namespace : string) (w : W) : outcome W :=
  match kget w CSecret (namespace, name) with
  | Missing | Broken _ => Ret w
  | Found caSecret =>
      let bytes := data caSecret "tls.crt" in
      let! kept := unexpired_certificates now bytes in
      let! caSecret' := put_data "tls.crt" kept caSecret in
      if negb (String.length bytes =? String.length kept)%nat then Ret (kupdate w CSecret (caSecret' : kobj CSecret)).2
      else Ret w
  end.
End Secrets.
End Making.

(** ** The informer of the secrets ([cert_controller.go]) *)
Definition caSecretNames : list string := [serverCerts; InventoryClientCASecretName].
Definition certSecretNames : list string := [InventoryServerCASecretName; InventoryClientCASecretName; serverCerts; guestCerts].

(** [Time.Sub]: a duration, saturated. *)
Definition time_Sub (t u : Z) : Z := Z.max (- two63) (Z.min (two63 - 1) (t - u)).

(** The time after which a certificate is renewed: four fifths of its life. *)
Definition latestTime (c : Certificate) : Z := NotAfter c - Z.quot (time_Sub (NotAfter c) (NotBefore c)) 5.

Section Controller.
Context {Key Signer : Type} `{X509 Key Signer}.

Definition needsRenew (now : Z) (s : Secret) : outcome bool :=
  if negb (bool_decide ((sc_Key s).2 ∈ certSecretNames)) then Ret false
  else if String.eqb (data s "tls.crt") "" then Ret true
  else
    let! block := deref (pem_Decode (data s "tls.crt")).1 in
    match ParseCertificates (bl_Bytes block) with
    | Err _ => Ret true
    | Ok certs => let! cert := slice_get certs 0 in Ret (latestTime cert <? now)%Z
    end.

Context {W : Type} `{!KubeClient W conn_kind} `{!KubeClient W op_kind} `{!KubeClient W inventory_kind} `{Owning}.
Context (DefaultNamespace : string) (mghName : obj_key).

Definition onAdd (s : Secret) (w : W) : W :=
  if negb (bool_decide ((sc_Key s).2 ∈ caSecretNames)) then w
  else
    match kget w IDeployment (DefaultNamespace, InventoryDeploymentName) with
    | Missing | Broken _ => w
    | Found dep => if (dp_ReadyReplicas dep =? 0)%Z then w else (RestartPod DefaultNamespace InventoryDeploymentName w).2
    end.

(** A round of the loop of [onDelete]: [None] is its end, otherwise the counter of
    the next round and whether it sleeps before. *)
Definition restore_round (s : Secret) (i : nat) (w : W) : outcome (option (nat * bool) * W) :=
  match kget w CSecret (DefaultNamespace, (sc_Key s).2) with
  | Found caSecret =>
      let! caSecret' := put_data "tls.crt" (data caSecret "tls.crt" +:+ data s "tls.crt") caSecret in
      Ret (match kupdate w CSecret (caSecret' : kobj CSecret) with
           | (Done, w') => (None, w')
           | (_, w') => (Some (S i, false), w')
           end)
  | Missing | Broken _ => Ret (if (i <? 6)%nat then (Some (S i, true), w) else (None, w))
  end.

(** The rounds; [env] is what others do to the store before a round. *)
Fixpoint restore (fuel : nat) (env : nat -> W -> W) (s : Secret) (round i : nat) (w : W) : outcome W :=
  match fuel with
  | O => Diverge
  | S n =>
      let! (next, w') := restore_round s i (env round w) in
      match next with
      | None => Ret w'
      | Some (i', _) => restore n env s (S round) i' w'
      end
  end.
Definition onDelete (fuel : nat) (env : nat -> W -> W) (s : Secret) (w : W) : outcome W :=
  if negb (bool_decide ((sc_Key s).2 ∈ caSecretNames)) then Ret w
  else
    match kget w KGlobalHub mghName with
    | Missing | Broken _ => Ret w
    | Found _ => restore fuel env s 0 0 w
    end.

Definition renew (en : Entropy Key) (newS : Secret) (w : W) : outcome W :=
  let name := (sc_Key newS).2 in
  let namespace := (sc_Key newS).1 in
  if String.eqb name InventoryServerCASecretName then
    let! (_, w') := createCASecret en None true InventoryServerCASecretName namespace serverCACertificateCN w in Ret w'
  else if String.eqb name InventoryClientCASecretName then
    let! (_, w') := createCASecret en None true InventoryClientCASecretName namespace clientCACertificateCN w in Ret w'
  else if String.eqb name serverCerts then
    match getHosts namespace w with
    | Err _ => Ret w
    | Ok hosts =>
        let! (_, w') := createCertSecret en None true serverCerts namespace true serverCertificateCN None (Some hosts) None w in
        Ret w'
    end
  else Ret w.

Definition onUpdate (en : Entropy Key) (oldS newS : Secret) (w : W) : outcome W :=
  if negb (bool_decide (sc_Data oldS = sc_Data newS)) then
    Ret (if bool_decide ((sc_Key newS).2 ∈ caSecretNames) then (RestartPod DefaultNamespace InventoryDeploymentName w).2 else w)
  else
    let! w1 :=
      if bool_decide ((sc_Key newS).2 ∈ caSecretNames) then removeExpiredCA (en_Now en) (sc_Key newS).2 (sc_Key newS).1 w
      else Ret w in
    let! due := needsRenew (en_Now en) newS in
    if due then renew en newS w1 else Ret w1.
End Controller.

(** ** The authorities of the agents ([transport_config.go])

    No bytes is nil; those of Kafka are set in [StrimziInstall]. *)
Record ClientCAs := MkClientCAs {
  kafkaClientCAKey : string;
  kafkaClientCACert : string;
  inventoryClientCAKey : string;
  inventoryClientCACert : string;
}.
Section Authorities.
Context {W : Type} `{!KubeClient W conn_kind}.

(** [if cached == nil || !bytes.Equal(fresh, cached) { cached = fresh }] *)
Definition refreshed (fresh cached : string) : string :=
  if String.eqb cached "" || negb (String.eqb fresh cached) then fresh else cached.

Definition SetInventoryClientCA (namespace name : string) (w : W) (c : ClientCAs) : option goerror * ClientCAs :=
  match fetched_result (kget w CSecret (namespace, name)) with
  | Err e => (Some e, c)
  | Ok clientCASecret =>
      (None, MkClientCAs (kafkaClientCAKey c) (kafkaClientCACert c)
               (refreshed (data clientCASecret "tls.key") (inventoryClientCAKey c))
               (refreshed (data clientCASecret "tls.crt") (inventoryClientCACert c)))
  end.

End Authorities.

(** ** Requests of the agents ([operator/pkg/controllers/agent/certificates]) *)
Section Requests.
Context {Key Signer : Type} `{X509 Key Signer}.

Definition user_prefix (clusterName : string) : string := "system:open-cluster-management:" +:+ clusterName.
Definition approve (clusterName : string) (csr : CertificateSigningRequest) : bool :=
  String.prefix (user_prefix clusterName) (csr_Username csr).

Definition strimzi_protocol (c : TransportConfig) : bool :=
  match transporterProtocol c with StrimziTransporter => true | SecretTransporter => false end.
Definition Approve (c : TransportConfig) (clusterName : string) (csr : CertificateSigningRequest) : bool :=
  if negb (strimzi_protocol c) && negb (enableInventory c) then false
  else
    match (pem_Decode (csr_Request csr)).1 with
    | None => false
    | Some block =>
        if negb (String.eqb (bl_Type block) "CERTIFICATE REQUEST") then false
        else
          match ParseCertificateRequest (bl_Bytes block) with
          | Err _ => false
          | Ok CommonName =>
              if negb (String.eqb (GetTransportConfigClientName c clusterName) CommonName) then false
              else String.prefix (user_prefix clusterName) (csr_Username csr)
          end
    end.

Definition DecodePrivateKeyBytes (keyBytes : string) : result Signer :=
  match (pem_Decode keyBytes).1 with
  | None => Err "error decoding private key PEM block"
  | Some block =>
      if String.eqb (bl_Type block) "PRIVATE KEY" then ParsePKCS8Signer (bl_Bytes block)
      else if String.eqb (bl_Type block) "EC PRIVATE KEY" then ParseECSigner (bl_Bytes block)
      else if String.eqb (bl_Type block) "RSA PRIVATE KEY" then
        let? key := ParsePKCS1PrivateKey (bl_Bytes block) in
        match Validate key with
        | Some e => Err ("rsa private key failed validation: " +:+ e)
        | None => Ok (rsa_signer key)
        end
      else Err ("unknown private key type: " +:+ bl_Type block)
  end.

Definition parseClientCA (caKey caCert : string) : outcome (result (Signer * Certificate)) :=
  if String.eqb caKey "" || String.eqb caCert "" then Ret (Err "the client CA is not ready")
  else
    match (pem_Decode caCert).1 with
    | None => Ret (Err "cannot decode ca.crt")
    | Some block1 =>
        match ParseCertificates (bl_Bytes block1) with
        | Err e => Ret (Err e)
        | Ok caCerts =>
            match DecodePrivateKeyBytes caKey with
            | Err e => Ret (Err e)
            | Ok s => let! c := slice_get caCerts 0 in Ret (Ok (s, c))
            end
        end
    end.

(** What is left of an authority, at most a year. *)
Definition certExpiryDuration (now : Z) (caCert : Certificate) : option Z :=
  let durationUntilExpiry := time_Sub (NotAfter caCert) now in
  if (durationUntilExpiry <=? 0)%Z then None
  else Some (if (durationUntilExpiry <? year)%Z then durationUntilExpiry else year).

Definition Sign (now : Z) (csr : CertificateSigningRequest) (clientCaKey clientCaCert : string) : outcome (option string) :=
  let! ca := parseClientCA clientCaKey clientCaCert in
  Ret (match ca with
       | Err _ => None
       | Ok (caKey, caCert) =>
           match certExpiryDuration now caCert with
           | None => None
           | Some expiry =>
               match cfssl_Sign caKey caCert (MkSigning (csr_Usages csr) expiry) now (csr_Request csr) with
               | Ok signedCert => Some signedCert
               | Err _ => None
               end
           end
       end).

(** [CSRSign] of [newRegistrationOption] ([addon_manager.go]). *)
Definition CSRSign (c : TransportConfig) (cas : ClientCAs) (now : Z) (csr : CertificateSigningRequest) : outcome (option string) :=
  let '(key, cert) :=
    if enableInventory c then (inventoryClientCAKey cas, inventoryClientCACert cas)
    else (kafkaClientCAKey cas, kafkaClientCACert cas) in
  Sign now csr key cert.

(** [Sign] of [operator/pkg/certificates/signer.go], which nothing calls: the
    authority is read in the namespace of the request. *)
Definition sign_with_secret {W} `{!KubeClient W conn_kind} (now : Z) (csr : CertificateSigningRequest) (w : W)
    : outcome (option string) :=
  let! ca := getCA false (csr_Namespace csr) w in
  Ret (match ca with
       | Err _ => None
       | Ok (caCert, caKey, _) =>
           match certExpiryDuration now caCert with
           | None => None
           | Some expiry =>
               match cfssl_Sign (rsa_signer caKey) caCert (MkSigning (csr_Usages csr) expiry) now (csr_Request csr) with
               | Ok signedCert => Some signedCert
               | Err _ => None
               end
           end
       end).
End Requests.
