(* ===== verification/CertificatesFacts.v ===== *)
(** * Facts about the certificates of the inventory

    New certificates form two chains and are left alone; an authority that is renewed
    keeps the old one until it expires; the certificate of the server is never
    renewed, because its renewal is a panic; what the operator signs for the agents. *)

From stdpp Require Import prelude gmap strings list.
From Stdlib Require Import ZArith Lia Ascii.
From S2P Require Import Prelude.
From S2P Require Import GoLib.
From S2P Require Import KubeClient.
From S2P Require Import Regex.
From S2P Require Import KafkaAccess.
From S2P Require Import KafkaAccessFacts.
From S2P Require Import RestUtil.
From S2P Require Import Credentials.
From S2P Require Import Certificates.

Local Open Scope string_scope.
Local Open Scope list_scope.

(** ** Strings *)
Lemma substring_prefix (p r : string) : String.substring 0 (String.length p) (p +:+ r) = p.
Proof.
  induction p as [|c p IH]; [by destruct r|].
  change (String c (String.substring 0 (String.length p) (p +:+ r)) = String c p). by rewrite IH.
Qed.

Lemma front_app (p r : string) : front (p +:+ r) r = p.
Proof. unfold front. rewrite string_length_append, Nat.add_sub. apply substring_prefix. Qed.

(** ** What is decoded *)
Section Pem.
Context {Key Signer : Type} `{X509Laws Key Signer}.

Definition certificate_pem (bytes : string) : string := pem_Encode (MkBlock "CERTIFICATE" bytes).
Definition key_pem (k : Key) : string := pem_Encode (MkBlock "RSA PRIVATE KEY" (MarshalPKCS1PrivateKey k)).

Lemma decode_certificate bytes rest : bytes <> "" ->
  pem_Decode (certificate_pem bytes +:+ rest) = (Some (MkBlock "CERTIFICATE" bytes), rest).
Proof. intros Hb. by apply pem_round. Qed.

Lemma decode_certificate_only bytes : bytes <> "" -> pem_Decode (certificate_pem bytes) = (Some (MkBlock "CERTIFICATE" bytes), "").
Proof. intros Hb. rewrite <- (decode_certificate bytes "" Hb). by rewrite string_append_nil. Qed.

Lemma decode_key k : pem_Decode (key_pem k) = (Some (MkBlock "RSA PRIVATE KEY" (MarshalPKCS1PrivateKey k)), "").
Proof.
  unfold key_pem. rewrite <- (string_append_nil (pem_Encode _)). apply pem_round, key_bytes.
Qed.

Lemma certificate_pem_some bytes : bytes <> "" -> certificate_pem bytes <> "".
Proof.
  intros Hb He. pose proof (decode_certificate_only bytes Hb) as E. rewrite He, pem_nothing in E. done.
Qed.

Lemma pem_pair bytes k : pemEncode bytes (MarshalPKCS1PrivateKey k) = (certificate_pem bytes, key_pem k).
Proof. done. Qed.

Lemma read_key_pem k : read_key (key_pem k) = Ret (Some k).
Proof. unfold read_key. rewrite decode_key. cbn. by rewrite key_round. Qed.

(** The certificate that a secret holds. *)
Definition secret_certificate (s : Secret) : option Certificate :=
  match (pem_Decode (data s "tls.crt")).1 with
  | Some b => match ParseCertificates (bl_Bytes b) with Ok (c :: _) => Some c | _ => None end
  | None => None
  end.

Lemma secret_certificate_pem s t p pub k bytes rest : x509_CreateCertificate t p pub k = Ok bytes ->
  data s "tls.crt" = certificate_pem bytes +:+ rest -> secret_certificate s = Some (issued t p pub k).
Proof.
  intros Hc Hd. unfold secret_certificate. rewrite Hd, decode_certificate by (by eapply issued_bytes). cbn.
  by rewrite (proj2 (issued_parses _ _ _ _ _ Hc)).
Qed.

(** ** Authorities that expired *)

(** Whether a certificate that is not the first stays. *)
Definition stays (now : Z) (bytes : string) : bool :=
  match ParseCertificates bytes with Ok (c :: _) => negb (NotAfter c <? now)%Z | _ => false end.

Definition bundle (certs : list string) : string := foldr (fun b rest => certificate_pem b +:+ rest) "" certs.

Lemma bundle_cons b l : bundle (b :: l) = certificate_pem b +:+ bundle l.
Proof. done. Qed.

Lemma bundle_length l : Forall (fun b => b <> "") l -> length l <= String.length (bundle l).
Proof.
  induction 1 as [|b l Hb Hl IH]; [done|]. rewrite bundle_cons, string_length_append.
  pose proof (pem_progress _ _ _ (decode_certificate_only b Hb)). cbn in *. lia.
Qed.

Lemma bundle_empty l : Forall (fun b => b <> "") l -> bundle l = "" -> l = [].
Proof. intros Hl E%(f_equal String.length). pose proof (bundle_length l Hl). destruct l; [done|]. cbn in *. lia. Qed.

Definition readable (bytes : string) : Prop := bytes <> "" /\ ParseCertificates bytes <> Ok [].

Lemma readable_some l : Forall readable l -> Forall (fun b => b <> "") l.
Proof. intros Hl. eapply Forall_impl; [exact Hl|]. by intros b [? _]. Qed.

Lemma expired_stays now type b : readable b -> expired now (MkBlock type b) = Ret (negb (stays now b)).
Proof.
  intros [_ Hp]. unfold expired, stays. cbn [bl_Bytes]. destruct (ParseCertificates b) as [[|c cs]|e]; [done| |done]. cbn.
  by rewrite negb_involutive.
Qed.

Lemma unexpired_bundle now l : l <> [] -> Forall readable l -> forall fuel kept, length l <= fuel ->
  unexpired fuel now kept (bundle l) = Ret (kept +:+ bundle (filter (fun b => stays now b = true) l)).
Proof.
  induction l as [|b l IH]; intros Hne Hl fuel kept Hf; [done|]. apply Forall_cons in Hl as [[Hb Hp] Hl].
  destruct fuel as [|fuel]; cbn [length] in Hf; [lia|]. cbn [unexpired]. rewrite bundle_cons.
  rewrite decode_certificate by done. cbn [deref obind]. rewrite expired_stays by done. cbn [obind].
  rewrite front_app.
  destruct (String.eqb (bundle l) "") eqn:El.
  - apply String.eqb_eq in El. apply bundle_empty in El as ->; [|by apply readable_some]. rewrite filter_cons, filter_nil.
    destruct (stays now b) eqn:Es; [rewrite decide_True by done|rewrite decide_False by done]; cbn; by rewrite ?string_append_nil.
  - assert (l <> []) as Hn by (by intros ->). rewrite IH by (done || lia). rewrite filter_cons.
    destruct (stays now b) eqn:Es; [rewrite decide_True by done|by rewrite decide_False by done].
    cbn [negb]. by rewrite bundle_cons, string_app_assoc.
Qed.

(** Fewer certificates are fewer bytes. *)
Lemma bundle_filter_length (P : string -> Prop) `{!forall b, Decision (P b)} l : Forall (fun b => b <> "") l ->
  String.length (bundle (filter P l)) <= String.length (bundle l) /\
  (String.length (bundle (filter P l)) = String.length (bundle l) -> filter P l = l).
Proof.
  induction 1 as [|b l Hb Hl [IH1 IH2]]; [done|]. rewrite filter_cons.
  assert (0 < String.length (certificate_pem b)) by (pose proof (certificate_pem_some b Hb); destruct (certificate_pem b); [done|cbn; lia]).
  case_decide; rewrite ?bundle_cons, ?string_length_append; (split; [lia|]); intros ?; [f_equal; apply IH2|]; lia.
Qed.

Lemma unexpired_certificates_bundle now b l : readable b -> Forall readable l ->
  unexpired_certificates now (bundle (b :: l)) = Ret (bundle (b :: filter (fun b => stays now b = true) l)).
Proof.
  intros [Hb _] Hl. unfold unexpired_certificates. rewrite !bundle_cons.
  rewrite decode_certificate by done. cbn [snd]. rewrite front_app. destruct (String.eqb (bundle l) "") eqn:El.
  - apply String.eqb_eq in El. apply bundle_empty in El as ->; [|by apply readable_some]. cbn. by rewrite string_append_nil.
  - assert (l <> []) as Hn by (by intros ->). rewrite unexpired_bundle; [done|done|done|].
    by apply bundle_length, readable_some.
Qed.

(** Whatever the secret holds, the removal ends. *)
Lemma unexpired_ends now : forall fuel kept rest, String.length rest < fuel \/ (rest <> "" /\ String.length rest <= fuel) ->
  unexpired fuel now kept rest <> Diverge.
Proof.
  induction fuel as [|fuel IH]; intros kept rest Hf.
  { destruct Hf as [|[Hne Hl]]; [lia|]. destruct rest; [done|]. cbn in Hl. lia. }
  cbn [unexpired]. destruct (pem_Decode rest) as [[block|] rest'] eqn:E; [|done]. cbn [deref obind].
  pose proof (pem_progress _ _ _ E) as Hlt.
  assert ((exists r, expired now block = Ret r) \/ expired now block = Panic) as [(r & ->)| ->]; [|cbn [obind]|done].
  { unfold expired. destruct (ParseCertificates (bl_Bytes block)) as [[|c cs]|e]; cbn; eauto. }
  destruct (String.eqb rest' "") eqn:Er; [done|]. apply IH. right. split; [by intros ->|lia].
Qed.

Lemma removal_terminates now bytes : unexpired_certificates now bytes <> Diverge.
Proof.
  unfold unexpired_certificates. destruct (String.eqb _ "") eqn:E; [done|]. apply unexpired_ends. right. split; [|lia].
  by intros E'; rewrite E' in E.
Qed.

(** Text after the last certificate stops the operator. *)
Lemma trailing_text_panics now b text : b <> "" -> text <> "" -> (pem_Decode text).1 = None ->
  unexpired_certificates now (certificate_pem b +:+ text) = Panic.
Proof.
  intros Hb Ht Hn. unfold unexpired_certificates. rewrite decode_certificate by done. cbn [snd].
  destruct (String.eqb text "") eqn:E; [by apply String.eqb_eq in E|]. destruct text as [|c text]; [done|].
  cbn [String.length unexpired]. destruct (pem_Decode (String c text)) as [[b'|] r]; [done|]. done.
Qed.

(** ** Dates *)
Lemma whole_seconds_bounds t : (t - second < whole_seconds t <= t)%Z.
Proof.
  unfold whole_seconds, second. pose proof (Z.div_mod t 1000000000 ltac:(lia)). pose proof (Z.mod_pos_bound t 1000000000 ltac:(lia)). lia.
Qed.

Lemma new_authority_is_not_due sn now cn p pub (k : Key) :
  (latestTime (issued (ca_template sn now cn) p pub k) <? now)%Z = false.
Proof.
  apply Z.ltb_ge.
  unfold latestTime, NotAfter, NotBefore, issued, time_Sub. cbn [crt_Template stored_template tp_NotAfter tp_NotBefore ca_template].
  pose proof (whole_seconds_bounds (now + 5 * year)) as Ha. pose proof (whole_seconds_bounds now) as Hb.
  unfold year, hour, second, two63 in *.
  set (a := whole_seconds (now + _)) in *. set (b := whole_seconds now) in *.
  assert (Z.max (- 2 ^ 63) (Z.min (2 ^ 63 - 1) (a - b)) = a - b)%Z as -> by lia.
  assert (5 * Z.quot (a - b) 5 <= a - b)%Z by (apply Z.mul_quot_le; lia). lia.
Qed.

(** What is signed for an agent never lasts longer than the authority. *)
Lemma expiry_within_the_authority now ca d : certExpiryDuration now ca = Some d ->
  (0 < d <= year /\ now + d <= NotAfter ca)%Z.
Proof.
  unfold certExpiryDuration, time_Sub, year, hour, second, two63.
  destruct (_ <=? 0)%Z eqn:E1; [done|]. apply Z.leb_gt in E1. destruct (_ <? _)%Z eqn:E2; intros [= <-].
  - apply Z.ltb_lt in E2. lia.
  - apply Z.ltb_ge in E2. lia.
Qed.
End Pem.

(** ** The secrets *)
Section Secrets.
Context {Key Signer : Type} `{X509Laws Key Signer}.
Context {W : Type} `{!KubeClient W conn_kind} `{!KubeServer W conn_kind} `{OwningLaws}.

(** The store after a secret is written. *)
Definition put (s : Secret) (w w' : W) : Prop :=
  kobjects w' CSecret = <[sc_Key s := s]> (kobjects w CSecret) /\
  forall k, k <> CSecret -> kobjects w' k = kobjects w k.

Definition draws (en : Entropy Key) (sn : Z) (k : Key) : Prop := en_Serial en = Ok sn /\ en_Key en = Ok k /\ (0 < sn)%Z.

Definition new_secret (m : GlobalHub) (name ca crt : string) (k : Key) : Secret :=
  MkSecret ((gh_Key m).1, name) backup_labels (Some (owner_uid m)) ∅ (certificate_data ca crt (key_pem k)).

Lemma data_new m name ca crt k : data (new_secret m name ca crt k) "ca.crt" = ca /\
  data (new_secret m name ca crt k) "tls.crt" = crt /\ data (new_secret m name ca crt k) "tls.key" = key_pem k.
Proof. by unfold data, new_secret, certificate_data; cbn [sc_Data]; simplify_map_eq. Qed.

Lemma data_put ca crt key s : data (put_certificate ca crt key s) "ca.crt" = ca /\
  data (put_certificate ca crt key s) "tls.crt" = crt /\ data (put_certificate ca crt key s) "tls.key" = key.
Proof. by unfold data, put_certificate; cbn [sc_Data]; simplify_map_eq. Qed.

Lemma put_lookup s w w' n : put s w w' -> kobjects w' CSecret !! n = if decide (n = sc_Key s) then Some s else kobjects w CSecret !! n.
Proof. intros [-> _]. case_decide as Hn; [by rewrite Hn, lookup_insert_eq|by rewrite lookup_insert_ne]. Qed.

Context (Hserver : responsive W conn_kind).

Lemma create_secret (s : Secret) (w : W) : kobjects w CSecret !! sc_Key s = None ->
  exists w', kcreate w CSecret (s : kobj CSecret) = (Done, w') /\ put s w w'.
Proof.
  intros Hn. destruct Hserver as (_ & _ & Hc & _). destruct (Hc w CSecret s Hn) as [w' E]. exists w'. split; [done|].
  by apply kcreate_Done in E as (_ & ? & ?).
Qed.
Lemma update_secret (s : Secret) (w : W) : is_Some (kobjects w CSecret !! sc_Key s) ->
  exists w', kupdate w CSecret (s : kobj CSecret) = (Done, w') /\ put s w w'.
Proof.
  intros Hn. destruct Hserver as (_ & _ & _ & Hu & _). destruct (Hu w CSecret s Hn) as [w' E]. exists w'. split; [done|].
  by apply (kupdate_insert _ _ _ _ _ E).
Qed.

Lemma own_new m name ca crt k :
  own (Some m) (MkSecret ((gh_Key m).1, name) backup_labels None ∅ (certificate_data ca crt (key_pem k))) =
  Ok (new_secret m name ca crt k).
Proof.
  cbn. destruct (OwnSecret_ok m (MkSecret ((gh_Key m).1, name) backup_labels None ∅ (certificate_data ca crt (key_pem k))) eq_refl eq_refl)
    as [s' E]. by rewrite E, (OwnSecret_owner _ _ _ E).
Qed.

Lemma fresh_authority en sn k m name cn w : draws en sn k ->
  kobjects w CSecret !! ((gh_Key m).1, name) = None ->
  exists b w', createCASecret en (Some m) false name (gh_Key m).1 cn w = Ret (Ok true, w') /\
    x509_CreateCertificate (ca_template sn (en_Now en) cn) None (Public k) k = Ok b /\
    put (new_secret m name (certificate_pem b) (certificate_pem b) k) w w'.
Proof.
  intros (Hs & Hk & Hp) Hn. destruct (self_issued (ca_template sn (en_Now en) cn) k) as [b Hb].
  { unfold issuable. cbn. by rewrite (proj2 (Z.ltb_lt 0 sn) Hp). }
  destruct (create_secret (new_secret m name (certificate_pem b) (certificate_pem b) k) w Hn) as (w' & Ew & Hw).
  exists b, w'. split; [|done]. unfold createCASecret. rewrite (kget_absent w CSecret _ Hserver Hn).
  unfold createCACertificate. rewrite Hs, Hk. cbn [rbind]. rewrite Hb. cbn [rbind]. rewrite pem_pair. cbn [rbind].
  rewrite (own_new m name (certificate_pem b) (certificate_pem b) k). unfold created. rewrite Ew. done.
Qed.

Lemma present_authority en m name ns cn w s : kobjects w CSecret !! (ns, name) = Some s ->
  createCASecret en m false name ns cn w = Ret (Ok false, w).
Proof. intros Hs. unfold createCASecret. by rewrite (kget_present w CSecret _ s Hserver Hs). Qed.

Definition authority_name (isServer : bool) : string := if isServer then InventoryServerCASecretName else InventoryClientCASecretName.

Lemma getCA_reads isServer ns w s b t p pub k rest : kobjects w CSecret !! (ns, authority_name isServer) = Some s ->
  x509_CreateCertificate t p pub k = Ok b -> data s "tls.crt" = certificate_pem b +:+ rest -> data s "tls.key" = key_pem k ->
  getCA isServer ns w = Ret (Ok (issued t p pub k, k, certificate_pem b)).
Proof.
  intros Hs Hb Hcrt Hkey. unfold getCA, GetKeyAndCert.
  pose proof (issued_bytes _ _ _ _ _ Hb) as Hne.
  pose proof (kget_present w CSecret _ s Hserver Hs) as Eg. unfold authority_name in Eg. rewrite Eg. cbn [fetched_result rbind].
  assert (sc_Data s !! "tls.key" = Some (key_pem k)) as Ek.
  { unfold data in Hkey. destruct (sc_Data s !! "tls.key") as [x|]; cbn in Hkey; [by rewrite Hkey|].
    pose proof (decode_key k) as Hd. rewrite <- Hkey, pem_nothing in Hd. done. }
  assert (sc_Data s !! "tls.crt" = Some (certificate_pem b +:+ rest)) as Ec.
  { unfold data in Hcrt. destruct (sc_Data s !! "tls.crt") as [x|]; cbn in Hcrt; [by rewrite Hcrt|].
    pose proof (decode_certificate b rest Hne) as Hd. rewrite <- Hcrt, pem_nothing in Hd. done. }
  rewrite Ek, Ec, decode_certificate by done. cbn [deref obind bl_Bytes]. rewrite front_app.
  rewrite (proj2 (issued_parses _ _ _ _ _ Hb)). rewrite decode_key. cbn [deref obind fst bl_Bytes]. by rewrite key_round.
Qed.

(** A leaf certificate that an authority makes. *)
Lemma fresh_leaf en sn k m name isServer cn dns ips names w s b t p kca rest : draws en sn k ->
  kobjects w CSecret !! ((gh_Key m).1, name) = None -> dns_names cn dns = Ret names -> forallb ascii_text names = true ->
  kobjects w CSecret !! ((gh_Key m).1, authority_name isServer) = Some s ->
  x509_CreateCertificate t p (Public kca) kca = Ok b -> data s "tls.crt" = certificate_pem b +:+ rest -> data s "tls.key" = key_pem kca ->
  forall isRenew, exists leaf w',
    createCertSecret en (Some m) isRenew name (gh_Key m).1 isServer cn None dns ips w = Ret (None, w') /\
    x509_CreateCertificate (leaf_template sn (en_Now en) isServer cn None names ips) (Some (issued t p (Public kca) kca)) (Public k) kca = Ok leaf /\
    put (new_secret m name (certificate_pem b) (certificate_pem leaf) k) w w'.
Proof.
  intros (Hs & Hk & Hp) Hn Hd Ha Hca Hb Hcrt Hkey isRenew.
  destruct (parent_issues (leaf_template sn (en_Now en) isServer cn None names ips) (issued t p (Public kca) kca) (Public k) kca) as [leaf Hl].
  { unfold issuable. cbn. by rewrite (proj2 (Z.ltb_lt 0 sn) Hp). }
  { done. }
  destruct (create_secret (new_secret m name (certificate_pem b) (certificate_pem leaf) k) w Hn) as (w' & Ew & Hw).
  exists leaf, w'. split; [|done]. unfold createCertSecret. rewrite (kget_absent w CSecret _ Hserver Hn).
  rewrite (getCA_reads _ _ _ _ _ _ _ _ _ _ Hca Hb Hcrt Hkey). cbn [obind].
  unfold createCertificate. rewrite Hs, Hd, Hk. cbn [obind rbind]. rewrite Hl. cbn [rbind]. rewrite pem_pair.
  rewrite (own_new m name (certificate_pem b) (certificate_pem leaf) k). by rewrite Ew.
Qed.

Lemma present_leaf en m name ns isServer cn ou dns ips w s : kobjects w CSecret !! (ns, name) = Some s -> name <> serverCerts ->
  createCertSecret en m false name ns isServer cn ou dns ips w = Ret (None, w).
Proof.
  intros Hs Hn. unfold createCertSecret. rewrite (kget_present w CSecret _ s Hserver Hs).
  assert (sc_Key s = (ns, name)) as -> by (by exact (kobjects_named w CSecret _ s Hs)). cbn [snd].
  by rewrite (proj2 (String.eqb_neq _ _) Hn).
Qed.

Lemma present_server en m ns isServer cn ou dns ips w (s : kobj CSecret) b c : kobjects w CSecret !! (ns, serverCerts) = Some s ->
  (pem_Decode (data s "tls.crt")).1 = Some b -> ParseCertificate (bl_Bytes b) = Ok c ->
  (forall d, d ∈ default [] dns -> d ∈ tp_DNSNames (crt_Template c)) ->
  createCertSecret en m false serverCerts ns isServer cn ou dns ips w = Ret (None, w).
Proof.
  intros Hs Hb Hc Hd. unfold createCertSecret. rewrite (kget_present w CSecret _ s Hserver Hs).
  assert (sc_Key s = (ns, serverCerts)) as -> by (by exact (kobjects_named w CSecret _ s Hs)). cbn [snd].
  rewrite String.eqb_refl. cbn [negb andb]. unfold server_outdated. rewrite Hb, Hc. cbn [obind].
  destruct (existsb _ _) eqn:E; [|done]. apply existsb_exists in E as (d & Hin & Hnot). apply list_elem_of_In in Hin.
  by rewrite bool_decide_eq_true_2 in Hnot by (by apply Hd).
Qed.

(** A leaf certificate and the authority that signed it. *)
Definition chained (w : W) (ns authority leaf : string) (names : list string) (usage : ext_usage) (k : Key) : Prop :=
  exists (sa sl : Secret) ca cl,
    kobjects w CSecret !! (ns, authority) = Some sa /\ kobjects w CSecret !! (ns, leaf) = Some sl /\
    secret_certificate sa = Some ca /\ secret_certificate sl = Some cl /\
    tp_IsCA (crt_Template ca) = true /\ crt_SignedBy ca = crt_PublicKey ca /\
    crt_SignedBy cl = crt_PublicKey ca /\ crt_Issuer cl = tp_CommonName (crt_Template ca) /\
    data sl "ca.crt" = data sa "tls.crt" /\
    tp_DNSNames (crt_Template cl) = names /\ tp_ExtKeyUsage (crt_Template cl) = [usage] /\
    crt_PublicKey cl = Public k /\ data sl "tls.key" = key_pem k.

Lemma chained_new (w : W) m authority leaf isServer cn names ips b bl sn t kca k now :
  kobjects w CSecret !! ((gh_Key m).1, authority) = Some (new_secret m authority (certificate_pem b) (certificate_pem b) kca) ->
  kobjects w CSecret !! ((gh_Key m).1, leaf) = Some (new_secret m leaf (certificate_pem b) (certificate_pem bl) k) ->
  x509_CreateCertificate t None (Public kca) kca = Ok b -> tp_IsCA t = true ->
  x509_CreateCertificate (leaf_template sn now isServer cn None names ips) (Some (issued t None (Public kca) kca)) (Public k) kca = Ok bl ->
  chained w (gh_Key m).1 authority leaf names (if isServer then ServerAuth else ClientAuth) k.
Proof.
  intros Ha Hl Hb Hca Hbl. eexists _, _, _, _. split; [exact Ha|]. split; [exact Hl|].
  destruct (data_new m authority (certificate_pem b) (certificate_pem b) kca) as (Ea1 & Ea2 & Ea3).
  destruct (data_new m leaf (certificate_pem b) (certificate_pem bl) k) as (El1 & El2 & El3).
  split; [eapply (secret_certificate_pem _ _ _ _ _ _ ""); [exact Hb|by rewrite string_append_nil]|].
  split; [eapply (secret_certificate_pem _ _ _ _ _ _ ""); [exact Hbl|by rewrite string_append_nil]|].
  by rewrite Ea2, El1, El3.
Qed.

Lemma existing_certificates_stay en1 en2 en3 en4 m w bl c (sca cca guest : Secret) (srv : kobj CSecret) (r : kobj CRoute) :
  let ns := (gh_Key m).1 in
  kobjects w CSecret !! (ns, InventoryServerCASecretName) = Some sca ->
  kobjects w CSecret !! (ns, InventoryClientCASecretName) = Some cca ->
  kobjects w CSecret !! (ns, serverCerts) = Some srv ->
  kobjects w CSecret !! (ns, guestCerts) = Some guest ->
  kobjects w CRoute !! (ns, InventoryRouteName) = Some r ->
  (pem_Decode (data srv "tls.crt")).1 = Some bl -> ParseCertificate (bl_Bytes bl) = Ok c ->
  rt_Host r ∈ tp_DNSNames (crt_Template c) ->
  CreateInventoryCerts en1 en2 en3 en4 m w = Ret (None, w).
Proof.
  intros ns H1' H2' H3' H4' Hr Hb Hc Hd. unfold CreateInventoryCerts. fold ns.
  rewrite (present_authority _ _ _ _ _ _ _ H1'). cbn [obind]. rewrite (present_authority _ _ _ _ _ _ _ H2'). cbn [obind].
  unfold getHosts. rewrite (kget_present w CRoute _ r Hserver Hr). cbn [fetched_result rbind].
  rewrite (present_server _ _ _ _ _ _ _ _ _ _ _ _ H3' Hb Hc) by (by intros d ->%list_elem_of_singleton). cbn [obind].
  by rewrite (present_leaf _ _ _ _ _ _ _ _ _ _ _ H4').
Qed.

Lemma leaf_of_a_new_authority en sn k m name isServer cn dns ips names w b t kca isRenew : draws en sn k ->
  kobjects w CSecret !! ((gh_Key m).1, authority_name isServer) =
    Some (new_secret m (authority_name isServer) (certificate_pem b) (certificate_pem b) kca) ->
  x509_CreateCertificate t None (Public kca) kca = Ok b ->
  kobjects w CSecret !! ((gh_Key m).1, name) = None -> dns_names cn dns = Ret names -> forallb ascii_text names = true ->
  exists leaf w',
    createCertSecret en (Some m) isRenew name (gh_Key m).1 isServer cn None dns ips w = Ret (None, w') /\
    x509_CreateCertificate (leaf_template sn (en_Now en) isServer cn None names ips) (Some (issued t None (Public kca) kca)) (Public k) kca = Ok leaf /\
    put (new_secret m name (certificate_pem b) (certificate_pem leaf) k) w w'.
Proof.
  intros Hd Ha Hb Hn Hnames Hascii.
  destruct (data_new m (authority_name isServer) (certificate_pem b) (certificate_pem b) kca) as (_ & D & D').
  rewrite <- (string_append_nil (certificate_pem b)) in D at 3.
  exact (fresh_leaf en sn k m name isServer cn dns ips names w _ b t None kca "" Hd Hn Hnames Hascii Ha Hb D D' isRenew).
Qed.

(** The four secrets of a first run. *)
Record four_secrets (m : GlobalHub) (en1 en2 en3 en4 : Entropy Key) (sn1 sn2 sn3 sn4 : Z) (k1 k2 k3 k4 : Key) (host b1 b2 b3 b4 : string)
    (r : kobj CRoute) (w : W) : Prop := {
  fs_server_ca : x509_CreateCertificate (ca_template sn1 (en_Now en1) serverCACertificateCN) None (Public k1) k1 = Ok b1;
  fs_client_ca : x509_CreateCertificate (ca_template sn2 (en_Now en2) clientCACertificateCN) None (Public k2) k2 = Ok b2;
  fs_server : x509_CreateCertificate
    (leaf_template sn3 (en_Now en3) true serverCertificateCN None [serverCertificateCN; host] (getIps m))
    (Some (issued (ca_template sn1 (en_Now en1) serverCACertificateCN) None (Public k1) k1)) (Public k3) k1 = Ok b3;
  fs_guest : x509_CreateCertificate (leaf_template sn4 (en_Now en4) false guestCertificateCN None [guestCertificateCN] None)
    (Some (issued (ca_template sn2 (en_Now en2) clientCACertificateCN) None (Public k2) k2)) (Public k4) k2 = Ok b4;
  fs_secrets : forall name s,
    (name, s) ∈ [(InventoryServerCASecretName, new_secret m InventoryServerCASecretName (certificate_pem b1) (certificate_pem b1) k1);
                 (InventoryClientCASecretName, new_secret m InventoryClientCASecretName (certificate_pem b2) (certificate_pem b2) k2);
                 (serverCerts, new_secret m serverCerts (certificate_pem b1) (certificate_pem b3) k3);
                 (guestCerts, new_secret m guestCerts (certificate_pem b2) (certificate_pem b4) k4)] ->
    kobjects w CSecret !! ((gh_Key m).1, name) = Some s;
  fs_route : kobjects w CRoute !! ((gh_Key m).1, InventoryRouteName) = Some r;
}.

Lemma first_run en1 en2 en3 en4 sn1 sn2 sn3 sn4 k1 k2 k3 k4 m (r : kobj CRoute) w :
  draws en1 sn1 k1 -> draws en2 sn2 k2 -> draws en3 sn3 k3 -> draws en4 sn4 k4 ->
  (forall name, name ∈ certSecretNames -> kobjects w CSecret !! ((gh_Key m).1, name) = None) ->
  kobjects w CRoute !! ((gh_Key m).1, InventoryRouteName) = Some r -> ascii_text (rt_Host r) = true ->
  exists b1 b2 b3 b4 w', CreateInventoryCerts en1 en2 en3 en4 m w = Ret (None, w') /\
    four_secrets m en1 en2 en3 en4 sn1 sn2 sn3 sn4 k1 k2 k3 k4 (rt_Host r) b1 b2 b3 b4 r w'.
Proof.
  intros G1 G2 G3 G4 Hfresh Hroute Hhost.
  pose proof (Hfresh InventoryServerCASecretName ltac:(by left)) as F1.
  pose proof (Hfresh InventoryClientCASecretName ltac:(by right; left)) as F2.
  pose proof (Hfresh serverCerts ltac:(by right; right; left)) as F3.
  pose proof (Hfresh guestCerts ltac:(by right; right; right; left)) as F4.
  unfold CreateInventoryCerts.
  destruct (fresh_authority en1 sn1 k1 m InventoryServerCASecretName serverCACertificateCN w G1 F1) as (b1 & w1 & E1 & C1 & P1).
  rewrite E1. cbn [obind].
  destruct (fresh_authority en2 sn2 k2 m InventoryClientCASecretName clientCACertificateCN w1 G2) as (b2 & w2 & E2 & C2 & P2).
  { by rewrite (put_lookup _ _ _ _ P1), decide_False. }
  rewrite E2. cbn [obind]. unfold getHosts.
  assert (kobjects w2 CRoute !! ((gh_Key m).1, InventoryRouteName) = Some r) as R2 by (by rewrite (proj2 P2), (proj2 P1)).
  rewrite (kget_present w2 CRoute _ r Hserver R2). cbn [fetched_result rbind].
  destruct (leaf_of_a_new_authority en3 sn3 k3 m serverCerts true serverCertificateCN (Some [rt_Host r]) (getIps m)
    [serverCertificateCN; rt_Host r] w2 b1 (ca_template sn1 (en_Now en1) serverCACertificateCN) k1 true G3) as (b3 & w3 & E3 & C3 & P3); [|exact C1| |done|cbn; by rewrite Hhost|].
  { rewrite (put_lookup _ _ _ _ P2), decide_False by done. by rewrite (put_lookup _ _ _ _ P1), decide_True. }
  { rewrite (put_lookup _ _ _ _ P2), decide_False by done. by rewrite (put_lookup _ _ _ _ P1), decide_False. }
  rewrite E3. cbn [obind].
  destruct (leaf_of_a_new_authority en4 sn4 k4 m guestCerts false guestCertificateCN None None
    [guestCertificateCN] w3 b2 (ca_template sn2 (en_Now en2) clientCACertificateCN) k2 true G4) as (b4 & w4 & E4 & C4 & P4); [|exact C2| |done|done|].
  { rewrite (put_lookup _ _ _ _ P3), decide_False by done. by rewrite (put_lookup _ _ _ _ P2), decide_True. }
  { rewrite (put_lookup _ _ _ _ P3), decide_False by done. rewrite (put_lookup _ _ _ _ P2), decide_False by done.
    by rewrite (put_lookup _ _ _ _ P1), decide_False. }
  exists b1, b2, b3, b4, w4. split; [done|]. split; [done..| |].
  - intros name s. rewrite !elem_of_cons, elem_of_nil.
    intros [[= -> ->]|[[= -> ->]|[[= -> ->]|[[= -> ->]|[]]]]];
      rewrite (put_lookup _ _ _ _ P4), (put_lookup _ _ _ _ P3), (put_lookup _ _ _ _ P2), (put_lookup _ _ _ _ P1); by repeat case_decide.
  - by rewrite (proj2 P4), (proj2 P3).
Qed.

(** C9: when none of the four secrets of the inventory exists, its route has a host of
    ASCII characters, the draws of serial numbers and keys succeed and the server
    answers, CreateInventoryCerts ends without an error: the certificate of the server,
    for its common name and the host of the route, is signed by the new server
    authority, the one of the guest by the new client authority, each with its own
    usage, key and the authority in its secret; a second call, whatever it draws,
    writes nothing. *)
Theorem fresh_certificates_chain en1 en2 en3 en4 sn1 sn2 sn3 sn4 k1 k2 k3 k4 m (r : kobj CRoute) w
    (G1 : draws en1 sn1 k1) (G2 : draws en2 sn2 k2) (G3 : draws en3 sn3 k3) (G4 : draws en4 sn4 k4)
    (Hfresh : forall name, name ∈ certSecretNames -> kobjects w CSecret !! ((gh_Key m).1, name) = None)
    (Hroute : kobjects w CRoute !! ((gh_Key m).1, InventoryRouteName) = Some r) (Hhost : ascii_text (rt_Host r) = true) :
  exists w', CreateInventoryCerts en1 en2 en3 en4 m w = Ret (None, w') /\
    chained w' (gh_Key m).1 InventoryServerCASecretName serverCerts [serverCertificateCN; rt_Host r] ServerAuth k3 /\
    chained w' (gh_Key m).1 InventoryClientCASecretName guestCerts [guestCertificateCN] ClientAuth k4 /\
    (forall en1' en2' en3' en4', CreateInventoryCerts en1' en2' en3' en4' m w' = Ret (None, w')).
Proof.
  destruct (first_run _ _ _ _ _ _ _ _ _ _ _ _ _ _ _ G1 G2 G3 G4 Hfresh Hroute Hhost) as (b1 & b2 & b3 & b4 & w' & E & [C1 C2 C3 C4 Hs Hr]).
  pose proof (Hs _ _ ltac:(by left)) as A1. pose proof (Hs _ _ ltac:(by right; left)) as A2.
  pose proof (Hs _ _ ltac:(by right; right; left)) as A3. pose proof (Hs _ _ ltac:(by right; right; right; left)) as A4.
  exists w'. split; [done|].
  split; [eapply (chained_new _ _ _ _ true); [exact A1|exact A3|exact C1|done|exact C3]|].
  split; [eapply (chained_new _ _ _ _ false); [exact A2|exact A4|exact C2|done|exact C4]|].
  intros en1' en2' en3' en4'. destruct (data_new m serverCerts (certificate_pem b1) (certificate_pem b3) k3) as (_ & Dc & _).
  eapply existing_certificates_stay; [exact A1|exact A2|exact A3|exact A4|exact Hr| | |].
  - rewrite Dc, decode_certificate_only by (by eapply issued_bytes). done.
  - cbn. exact (proj1 (issued_parses _ _ _ _ _ C3)).
  - cbn. right. left.
Qed.

(** ** Renewals *)
Lemma data_some s key v : data s key = v -> v <> "" -> sc_Data s <> ∅.
Proof. intros Hd Hv He. unfold data in Hd. rewrite He, lookup_empty in Hd. by destruct Hv. Qed.

Lemma put_data_ok key v s : sc_Data s <> ∅ ->
  put_data key v s = Ret (MkSecret (sc_Key s) (sc_Labels s) (sc_Owner s) (sc_Annotations s) (<[key := v]> (sc_Data s))).
Proof. intros Hd. unfold put_data. by rewrite bool_decide_eq_false_2. Qed.

Lemma removeExpiredCA_bundle now name ns w (s : kobj CSecret) b l : kobjects w CSecret !! (ns, name) = Some s ->
  data s "tls.crt" = bundle (b :: l) -> readable b -> Forall readable l ->
  exists w' (s' : kobj CSecret), removeExpiredCA now name ns w = Ret w' /\ put s' w w' /\ sc_Key s' = (ns, name) /\
    data s' "tls.crt" = bundle (b :: filter (fun b => stays now b = true) l) /\
    (forall key, key <> "tls.crt" -> data s' key = data s key).
Proof.
  intros Hs Hd Hb Hl. unfold removeExpiredCA. rewrite (kget_present w CSecret _ s Hserver Hs), Hd.
  pose proof (kobjects_named w CSecret _ s Hs) as Hk. cbn in Hk.
  rewrite unexpired_certificates_bundle by done. cbn [obind].
  assert (bundle (b :: l) <> "") as Hne by (intros E; by apply bundle_empty in E; [|constructor; [apply Hb|by apply readable_some]]).
  rewrite put_data_ok by (by eapply data_some). cbn [obind].
  destruct (bundle_filter_length (fun b => stays now b = true) l (readable_some l Hl)) as [_ Hsame].
  destruct (String.length (bundle (b :: l)) =? _)%nat eqn:E; cbn [negb].
  - exists w, s. split; [done|]. split; [split; [|done]; by rewrite insert_id by (by rewrite Hk)|]. split; [done|]. split; [|done].
    apply Nat.eqb_eq in E. rewrite !bundle_cons, !string_length_append in E. rewrite Hd, !bundle_cons. f_equal. f_equal. symmetry.
    apply Hsame. lia.
  - set (s' := MkSecret _ _ _ _ _). destruct (update_secret s' w) as (w' & Ew & Hw).
    { unfold s'. cbn. rewrite Hk. eexists. exact Hs. }
    rewrite Ew. exists w', s'. split; [done|]. split; [done|]. split; [done|]. unfold s', data. cbn [sc_Data]. split.
    + by rewrite lookup_insert_eq.
    + intros key Hne'. by rewrite lookup_insert_ne.
Qed.

Lemma renewed_authority en sn name ns cn w (s : kobj CSecret) k : en_Serial en = Ok sn -> (0 < sn)%Z ->
  kobjects w CSecret !! (ns, name) = Some s -> data s "tls.key" = key_pem k ->
  exists b w', createCASecret en None true name ns cn w = Ret (Ok true, w') /\
    x509_CreateCertificate (ca_template sn (en_Now en) cn) None (Public k) k = Ok b /\
    put (put_certificate (certificate_pem b) (certificate_pem b +:+ data s "tls.crt") (key_pem k) s) w w'.
Proof.
  intros Hsn Hp Hs Hk. destruct (self_issued (ca_template sn (en_Now en) cn) k) as [b Hb].
  { unfold issuable. cbn. by rewrite (proj2 (Z.ltb_lt 0 sn) Hp). }
  pose proof (kobjects_named w CSecret _ s Hs) as Hn. cbn in Hn.
  destruct (update_secret (put_certificate (certificate_pem b) (certificate_pem b +:+ data s "tls.crt") (key_pem k) s) w) as (w' & Ew & Hw).
  { cbn. rewrite Hn. eexists. exact Hs. }
  exists b, w'. split; [|done]. unfold createCASecret. rewrite (kget_present w CSecret _ s Hserver Hs).
  rewrite Hk, read_key_pem. cbn [obind]. unfold createCACertificate. rewrite Hsn. cbn [rbind]. rewrite Hb. cbn [rbind].
  rewrite pem_pair. unfold created. by rewrite Ew.
Qed.

Theorem old_authorities_stay_until_they_expire en sn name ns cn later w (s : kobj CSecret) k b0 l
    (Hsn : en_Serial en = Ok sn) (Hp : (0 < sn)%Z) (Hs : kobjects w CSecret !! (ns, name) = Some s)
    (Hk : data s "tls.key" = key_pem k) (Hd : data s "tls.crt" = bundle (b0 :: l)) (Hl : Forall readable (b0 :: l)) :
  exists b w1 w2 (s1 s2 : Secret),
    createCASecret en None true name ns cn w = Ret (Ok true, w1) /\ kobjects w1 CSecret !! (ns, name) = Some s1 /\
    secret_certificate s1 = Some (issued (ca_template sn (en_Now en) cn) None (Public k) k) /\
    needsRenew (en_Now en) s1 = Ret false /\
    removeExpiredCA later name ns w1 = Ret w2 /\ kobjects w2 CSecret !! (ns, name) = Some s2 /\
    data s2 "tls.crt" = bundle (b :: filter (fun b => stays later b = true) (b0 :: l)) /\
    secret_certificate s2 = secret_certificate s1 /\ data s2 "tls.key" = data s "tls.key".
Proof.
  destruct (renewed_authority en sn name ns cn w s k Hsn Hp Hs Hk) as (b & w1 & E1 & Hb & P1).
  pose proof (kobjects_named w CSecret _ s Hs) as Hn. cbn in Hn.
  set (s1 := put_certificate _ _ _ s) in *.
  destruct (data_put (certificate_pem b) (certificate_pem b +:+ data s "tls.crt") (key_pem k) s) as (_ & D1 & D1'). fold s1 in D1, D1'.
  pose proof (issued_parses _ _ _ _ _ Hb) as [_ Hparse]. pose proof (issued_bytes _ _ _ _ _ Hb) as Hne.
  assert (kobjects w1 CSecret !! (ns, name) = Some s1) as A1.
  { rewrite (put_lookup _ _ _ _ P1). rewrite decide_True; [done|]. by unfold s1. }
  assert (readable b) as Rb by (by split; [|rewrite Hparse]).
  destruct (removeExpiredCA_bundle later name ns w1 s1 b (b0 :: l) A1) as (w2 & s2 & E2 & P2 & K2 & D2 & O2); [|done|done|].
  { by rewrite D1, Hd. }
  exists b, w1, w2, s1, s2. split; [done|]. split; [done|]. split; [by eapply secret_certificate_pem|]. split.
  { unfold needsRenew. rewrite D1. case_bool_decide; [|done]. cbn [negb].
    destruct (String.eqb _ "") eqn:E; [apply String.eqb_eq, (f_equal String.length) in E|].
    { rewrite string_length_append in E. pose proof (certificate_pem_some b Hne). by destruct (certificate_pem b). }
    rewrite decode_certificate by done. cbn [deref obind fst bl_Bytes]. rewrite Hparse. cbn.
    by rewrite new_authority_is_not_due. }
  split; [done|]. split; [rewrite (put_lookup _ _ _ _ P2); by rewrite decide_True|]. split; [done|]. split.
  - unfold secret_certificate. rewrite D2, D1, bundle_cons. by rewrite !decode_certificate.
  - rewrite O2 by done. by rewrite D1', Hk.
Qed.
End Secrets.

(** ** The informer *)
Section Informer.
Context {Key Signer : Type} `{X509Laws Key Signer}.
Context {W : Type} `{!KubeClient W conn_kind} `{!KubeServer W conn_kind} `{!KubeClient W op_kind} `{!KubeClient W inventory_kind} `{OwningLaws}.
Context (DefaultNamespace : string) (mghName : obj_key).

(** The renewal of the certificate of the server reads the namespace of an operand
    that it is not given. *)
Theorem server_certificate_renewal_panics (en : Entropy Key) (ns : string) (s : kobj CSecret) (r : kobj CRoute) (w : W) b c
    (Hserver : responsive W conn_kind)
    (Hs : kobjects w CSecret !! (ns, serverCerts) = Some s) (Hr : kobjects w CRoute !! (ns, InventoryRouteName) = Some r)
    (Hd : data s "tls.crt" = certificate_pem b) (Hb : b <> "") (Hc : ParseCertificates b = Ok [c])
    (Hdue : (latestTime c < en_Now en)%Z) :
  onUpdate DefaultNamespace en s s w = Panic.
Proof.
  pose proof (kobjects_named w CSecret _ s Hs) as Hn. cbn in Hn.
  unfold onUpdate. rewrite bool_decide_eq_true_2 by done. cbn [negb]. rewrite Hn. cbn [fst snd].
  destruct (removeExpiredCA_bundle Hserver (en_Now en) serverCerts ns w s b [] Hs) as (w1 & s1 & E1 & P1 & K1 & _); [|by split; [|rewrite Hc]|done|].
  { by rewrite Hd, bundle_cons, string_append_nil. }
  rewrite bool_decide_eq_true_2 by (by left). rewrite E1. cbn [obind].
  unfold needsRenew. rewrite Hn. cbn [snd]. rewrite Hd. rewrite bool_decide_eq_true_2 by (by right; right; left). cbn [negb].
  rewrite (proj2 (String.eqb_neq _ _)) by (by apply certificate_pem_some).
  rewrite decode_certificate_only by done. cbn [deref obind fst bl_Bytes]. rewrite Hc. cbn.
  rewrite (proj2 (Z.ltb_lt _ _) Hdue).
  unfold renew. rewrite Hn. cbn [fst snd]. change (String.eqb serverCerts InventoryServerCASecretName) with false.
  change (String.eqb serverCerts InventoryClientCASecretName) with false. change (String.eqb serverCerts serverCerts) with true. cbn iota.
  unfold getHosts. assert (kobjects w1 CRoute !! (ns, InventoryRouteName) = Some r) as Hr1 by (by rewrite (proj2 P1)).
  rewrite (kget_present w1 CRoute _ r Hserver Hr1). cbn [fetched_result rbind].
  assert (kobjects w1 CSecret !! (ns, serverCerts) = Some s1) as Hs1 by (rewrite (put_lookup _ _ _ _ P1); by rewrite decide_True).
  unfold createCertSecret. rewrite (kget_present w1 CSecret _ s1 Hserver Hs1). by rewrite andb_false_r.
Qed.

(** No update renews the certificate of the guest. *)
Lemma guest_certificate_is_never_renewed (en : Entropy Key) (s : Secret) (w : W) : (sc_Key s).2 = guestCerts ->
  onUpdate DefaultNamespace en s s w = Ret w \/ onUpdate DefaultNamespace en s s w = Panic.
Proof.
  intros Hn. unfold onUpdate. rewrite bool_decide_eq_true_2 by done. cbn [negb]. rewrite Hn.
  rewrite bool_decide_eq_false_2 by (by unfold caSecretNames; rewrite !elem_of_cons, elem_of_nil; intros [|[|]]). cbn [obind].
  unfold needsRenew, renew. rewrite Hn. rewrite bool_decide_eq_true_2 by (by right; right; right; left). cbn [negb].
  destruct (String.eqb (data s "tls.crt") ""); [by left|].
  destruct (pem_Decode _) as [[block|] rest]; cbn; [|by right].
  destruct (ParseCertificates _) as [[|c cs]|e]; cbn; [by right| |by left]. by destruct (_ <? _)%Z; left.
Qed.

(** The list of the authorities names the certificate of the server in place of
    its authority: those that expired stay. *)
Lemma server_authorities_are_never_dropped (en : Entropy Key) (s : Secret) (w : W) :
  (sc_Key s).2 = InventoryServerCASecretName -> needsRenew (en_Now en) s = Ret false -> onUpdate DefaultNamespace en s s w = Ret w.
Proof.
  intros Hn Hd. unfold onUpdate. rewrite bool_decide_eq_true_2 by done. cbn [negb]. rewrite Hn.
  rewrite bool_decide_eq_false_2 by (by unfold caSecretNames; rewrite !elem_of_cons, elem_of_nil; intros [|[|]]). cbn [obind].
  by rewrite Hd.
Qed.

(** While the update is refused, the loop that restores an authority goes on. *)
Lemma refused_updates_spin (s : Secret) (env : nat -> W -> W) :
  (forall i w, exists s' : Secret, kget (env i w) CSecret (DefaultNamespace, (sc_Key s).2) = Found s' /\ sc_Data s' <> ∅) ->
  (forall w (o : kobj CSecret), (kupdate w CSecret o).1 <> Done) ->
  forall fuel round i w, restore DefaultNamespace fuel env s round i w = Diverge.
Proof.
  intros Hfound Href. induction fuel as [|fuel IH]; intros round i w; [done|]. cbn [restore]. unfold restore_round.
  destruct (Hfound round w) as (s' & -> & Hd). rewrite put_data_ok by done. cbn [obind].
  destruct (kupdate _ _ _) as [[| |e] w1] eqn:E; [|apply IH|apply IH]. exfalso. exact (Href _ _ (f_equal fst E)).
Qed.

(** An authority that is not made again is waited for in six rounds. *)
Lemma absent_authority_is_given_up (s : Secret) (w : W) : kget w CSecret (DefaultNamespace, (sc_Key s).2) = Missing ->
  restore DefaultNamespace 7 (fun _ w => w) s 0 0 w = Ret w.
Proof.
  intros Hm. unfold restore, restore_round. do 7 (rewrite Hm; cbn [obind Nat.ltb Nat.leb]). done.
Qed.

Theorem deleted_authority_is_restored (Hserver : responsive W conn_kind) (env : nat -> W -> W) (s : Secret) (w : W) n (s' : kobj CSecret)
    (Hn : n <= 6) (Hwait : forall i w', i < n -> kget (env i w') CSecret (DefaultNamespace, (sc_Key s).2) = Missing)
    (Hmade : forall w', kobjects (env n w') CSecret !! (DefaultNamespace, (sc_Key s).2) = Some s') (Hd : sc_Data s' <> ∅) :
  exists w' (r : Secret), restore DefaultNamespace 7 env s 0 0 w = Ret w' /\
    kobjects w' CSecret !! (DefaultNamespace, (sc_Key s).2) = Some r /\
    data r "tls.crt" = data s' "tls.crt" +:+ data s "tls.crt" /\ (forall key, key <> "tls.crt" -> data r key = data s' key).
Proof.
  assert (forall fuel i w0, i <= n -> n < i + fuel -> exists w' (r : Secret), restore DefaultNamespace fuel env s i i w0 = Ret w' /\
    kobjects w' CSecret !! (DefaultNamespace, (sc_Key s).2) = Some r /\
    data r "tls.crt" = data s' "tls.crt" +:+ data s "tls.crt" /\ (forall key, key <> "tls.crt" -> data r key = data s' key)) as Hall;
    [|apply Hall; lia].
  induction fuel as [|fuel IH]; intros i w0 Hi Hf; [lia|]. cbn [restore]. unfold restore_round.
  destruct (decide (i = n)) as [->|Hne].
  - rewrite (kget_present (env n w0) CSecret _ s' Hserver (Hmade w0)). rewrite put_data_ok by done. cbn [obind].
    pose proof (kobjects_named (env n w0) CSecret _ s' (Hmade w0)) as Hk. cbn in Hk.
    set (r := MkSecret _ _ _ _ _). destruct (update_secret Hserver r (env n w0)) as (w' & Ew & Hw).
    { unfold r. cbn. rewrite Hk. eexists. exact (Hmade w0). }
    rewrite Ew. exists w', r. split; [done|]. split; [rewrite (put_lookup _ _ _ _ Hw); by rewrite decide_True|].
    unfold r, data. cbn [sc_Data]. split; [by rewrite lookup_insert_eq|]. intros key Hkey. by rewrite lookup_insert_ne.
  - rewrite Hwait by lia. assert ((i <? 6)%nat = true) as -> by (apply Nat.ltb_lt; lia). cbn [obind].
    apply IH; lia.
Qed.
End Informer.

(** ** The agents *)
Section Agents.
Context {Key Signer : Type} `{X509Laws Key Signer}.

(** The agent of a cluster whose name begins with that of another is taken for the
    other. *)
Theorem longer_name_is_approved (c : TransportConfig) (a b rest : string) (csr : CertificateSigningRequest) block
    (Hc : strimzi_protocol c = true \/ enableInventory c = true)
    (Hd : (pem_Decode (csr_Request csr)).1 = Some block) (Ht : bl_Type block = "CERTIFICATE REQUEST")
    (Hr : ParseCertificateRequest (bl_Bytes block) = Ok (GetTransportConfigClientName c a))
    (Hu : csr_Username csr = user_prefix (a +:+ b) +:+ rest) :
  Approve c a csr = true.
Proof.
  unfold Approve. assert (negb (strimzi_protocol c) && negb (enableInventory c) = false) as ->.
  { by destruct Hc as [-> | ->]; rewrite ?andb_false_r. }
  rewrite Hd, Ht, Hr, !String.eqb_refl. cbn [negb]. rewrite Hu.
  assert (user_prefix (a +:+ b) +:+ rest = user_prefix a +:+ (b +:+ rest)) as ->; [|apply prefix_app_same].
  unfold user_prefix. by rewrite !string_app_assoc.
Qed.

(** What the operator signs with after it has read the authority. *)
Theorem agents_are_signed_by_the_inventory_authority {W} `{!KubeClient W conn_kind} `{!KubeServer W conn_kind}
    (c : TransportConfig) (cas cas' : ClientCAs) (now : Z) (csr : CertificateSigningRequest) ns (s : kobj CSecret) (w : W) t p pub k b rest
    (Hi : enableInventory c = true) (Hs : kget w CSecret (ns, InventoryClientCASecretName) = Found s)
    (Hb : x509_CreateCertificate t p pub k = Ok b) (Hd : data s "tls.crt" = certificate_pem b +:+ rest)
    (Hk : data s "tls.key" = key_pem k) (Hv : Validate k = None) (Hnow : (now < NotAfter (issued t p pub k))%Z)
    (Hset : SetInventoryClientCA ns InventoryClientCASecretName w cas = (None, cas')) :
  exists d, (0 < d <= year /\ now + d <= NotAfter (issued t p pub k))%Z /\
    CSRSign c cas' now csr =
      Ret (match cfssl_Sign (rsa_signer k) (issued t p pub k) (MkSigning (csr_Usages csr) d) now (csr_Request csr) with
           | Ok signedCert => Some signedCert | Err _ => None end).
Proof.
  unfold SetInventoryClientCA in Hset. rewrite Hs in Hset. cbn [fetched_result] in Hset. injection Hset as <-.
  assert (forall fresh cached, refreshed fresh cached = fresh) as Href.
  { intros fresh cached. unfold refreshed. destruct (String.eqb_spec fresh cached) as [->|]; [by destruct (_ || _)|by rewrite orb_true_r]. }
  rewrite !Href, Hd, Hk.
  assert (exists d, certExpiryDuration now (issued t p pub k) = Some d) as [d Ed].
  { unfold certExpiryDuration, time_Sub, two63. destruct (_ <=? 0)%Z eqn:E; [apply Z.leb_le in E; lia|eauto]. }
  exists d. split; [by apply expiry_within_the_authority|]. unfold CSRSign. rewrite Hi. cbn [inventoryClientCAKey inventoryClientCACert].
  pose proof (issued_bytes _ _ _ _ _ Hb) as Hne. unfold Sign, parseClientCA.
  assert (String.eqb (key_pem k) "" = false) as ->.
  { apply String.eqb_neq. intros E. pose proof (decode_key k) as D. by rewrite E, pem_nothing in D. }
  assert (String.eqb (certificate_pem b +:+ rest) "" = false) as ->.
  { apply String.eqb_neq. intros E. pose proof (decode_certificate b rest Hne) as D. by rewrite E, pem_nothing in D. }
  cbn [orb]. rewrite decode_certificate by done. cbn [fst bl_Bytes]. rewrite (proj2 (issued_parses _ _ _ _ _ Hb)).
  unfold DecodePrivateKeyBytes. rewrite decode_key. cbn [fst bl_Type bl_Bytes].
  change (String.eqb "RSA PRIVATE KEY" "PRIVATE KEY") with false. change (String.eqb "RSA PRIVATE KEY" "EC PRIVATE KEY") with false.
  change (String.eqb "RSA PRIVATE KEY" "RSA PRIVATE KEY") with true. cbn iota. rewrite key_round. cbn [rbind]. rewrite Hv. cbn.
  by rewrite Ed.
Qed.
End Agents.

(** ** A concrete encoding *)
Module CertificateSample.
Import countable.

Fixpoint quote (s : string) : string :=
  match s with EmptyString => "." | String c s' => String "+"%char (String c (quote s')) end.
Fixpoint unquote (s : string) : option (string * string) :=
  match s with
  | String a rest =>
      if Ascii.eqb a "."%char then Some ("", rest)
      else if Ascii.eqb a "+"%char then
        match rest with
        | String c s' => match unquote s' with Some (t, r) => Some (String c t, r) | None => None end
        | EmptyString => None
        end
      else None
  | EmptyString => None
  end.

Lemma unquote_quote s r : unquote (quote s +:+ r) = Some (s, r).
Proof.
  induction s as [|c s IH]; [done|]. change (quote (String c s) +:+ r) with (String "+"%char (String c (quote s +:+ r))).
  cbn [unquote]. by rewrite IH.
Qed.
Lemma unquote_some : forall n s t r, String.length s <= n -> unquote s = Some (t, r) -> s = quote t +:+ r.
Proof.
  induction n as [|n IH]; intros [|a s] t r Hl; cbn [String.length] in Hl; [done|lia|done|]. cbn [unquote].
  destruct (Ascii.eqb_spec a "."%char) as [->|_]; [by intros [= <- <-]|].
  destruct (Ascii.eqb_spec a "+"%char) as [->|_]; [|done]. destruct s as [|c s]; [done|].
  destruct (unquote s) as [[t' r']|] eqn:E; [|done]. intros [= <- <-]. cbn in Hl. rewrite (IH s t' r') by (lia || done). done.
Qed.

Definition encode_block (b : PemBlock) : string := quote (bl_Type b) +:+ quote (bl_Bytes b).
Definition decode_block (s : string) : option PemBlock * string :=
  match unquote s with
  | Some (t, s') => match unquote s' with Some (b, r) => (Some (MkBlock t b), r) | None => (None, s) end
  | None => (None, s)
  end.
Lemma decode_block_suffix s : exists p, s = p +:+ (decode_block s).2.
Proof.
  unfold decode_block. destruct (unquote s) as [[t s']|] eqn:E1; [|by exists ""].
  destruct (unquote s') as [[b r]|] eqn:E2; [|by exists ""].
  apply (unquote_some _ _ _ _ (le_n _)) in E1, E2. exists (quote t +:+ quote b). rewrite E1, E2. by rewrite string_app_assoc.
Qed.
Lemma quote_length t : 0 < String.length (quote t).
Proof. destruct t; cbn; lia. Qed.
Lemma decode_block_progress s b r : decode_block s = (Some b, r) -> String.length r < String.length s.
Proof.
  unfold decode_block. destruct (unquote s) as [[t s']|] eqn:E1; [|done]. destruct (unquote s') as [[x r']|] eqn:E2; [|done].
  intros [= <- <-]. apply (unquote_some _ _ _ _ (le_n _)) in E1, E2. subst. rewrite !string_length_append.
  pose proof (quote_length t). lia.
Qed.

(** Bits. *)
Fixpoint bits (p : positive) : string :=
  match p with xH => "." | xO p => String "0"%char (bits p) | xI p => String "1"%char (bits p) end.
Fixpoint of_bits (s : string) : positive :=
  match s with EmptyString => xH | String "0"%char s => xO (of_bits s) | String "1"%char s => xI (of_bits s) | _ => xH end.
Lemma of_bits_bits p : of_bits (bits p) = p.
Proof. induction p as [p IH|p IH|]; cbn; by rewrite ?IH. Qed.

#[local] Instance key_usage_dec : EqDecision key_usage.
Proof. solve_decision. Defined.
#[local] Instance ext_usage_dec : EqDecision ext_usage.
Proof. solve_decision. Defined.
#[local] Instance Template_dec : EqDecision Template.
Proof. solve_decision. Defined.
#[local] Instance Certificate_dec : EqDecision Certificate.
Proof. solve_decision. Defined.

Definition usage_bit (u : key_usage) : nat := match u with DigitalSignature => 0 | KeyEncipherment => 1 | CertSign => 2 end.
Definition bit_usage (n : nat) : key_usage := match n with 0 => DigitalSignature | 1 => KeyEncipherment | _ => CertSign end.
#[local] Program Instance key_usage_countable : Countable key_usage := inj_countable' usage_bit bit_usage _.
Next Obligation. by intros []. Qed.
#[local] Program Instance ext_usage_countable : Countable ext_usage :=
  inj_countable' (fun u => match u with ServerAuth => true | ClientAuth => false end) (fun b : bool => if b then ServerAuth else ClientAuth) _.
Next Obligation. by intros []. Qed.
#[local] Program Instance Template_countable : Countable Template := inj_countable'
  (fun t => (tp_SerialNumber t, tp_Organization t, tp_Country t, tp_OrganizationalUnit t, tp_CommonName t, tp_NotBefore t, tp_NotAfter t,
             tp_IsCA t, tp_KeyUsage t, tp_ExtKeyUsage t, tp_DNSNames t, tp_IPAddresses t))
  (fun '(a, b, c, d, e, f, g, h, i, j, k, l) => MkTemplate a b c d e f g h i j k l) _.
Next Obligation. by intros []. Qed.
#[local] Program Instance Certificate_countable : Countable Certificate := inj_countable'
  (fun c => (crt_Template c, crt_Issuer c, crt_PublicKey c, crt_SignedBy c)) (fun '(a, b, c, d) => MkCertificate a b c d) _.
Next Obligation. by intros []. Qed.

Definition parse (bytes : string) : result Certificate :=
  match decode (of_bits bytes) with Some c => Ok c | None => Err "malformed" end.
Definition parent_key (p : option Certificate) (pub : string) : string := match p with None => pub | Some c => crt_PublicKey c end.

#[local] Instance sample_x509 : X509 string string := {|
  pem_Encode := encode_block;
  pem_Decode := decode_block;
  Public k := k;
  MarshalPKCS1PrivateKey k := String "K"%char k;
  ParsePKCS1PrivateKey s := match s with String "K"%char k => Ok k | _ => Err "malformed" end;
  ParsePKCS8Signer s := Ok s;
  ParseECSigner s := Ok s;
  Validate _ := None;
  rsa_signer k := k;
  x509_CreateCertificate t p pub k :=
    if issuable t && String.eqb (parent_key p pub) k
    then Ok (bits (encode (MkCertificate (stored_template t)
                (match p with None => tp_CommonName t | Some p => tp_CommonName (crt_Template p) end) pub k)))
    else Err "not signed";
  ParseCertificate := parse;
  ParseCertificates s := match parse s with Ok c => Ok [c] | Err e => Err e end;
  ParseCertificateRequest s := Ok s;
  ParseIP s := s;
  cfssl_Sign s c sg now req := Ok (s +:+ req);
|}.
#[local] Instance sample_x509_laws : X509Laws string string.
Proof.
  split; cbn.
  - intros [t b] rest Hb. unfold encode_block, decode_block. cbn. by rewrite string_app_assoc, !unquote_quote.
  - apply decode_block_suffix.
  - apply decode_block_progress.
  - done.
  - done.
  - done.
  - intros t p pub k bytes. destruct (_ && _); [|done]. intros [= <-]. by destruct (encode _).
  - intros t p pub k bytes. destruct (_ && _); [|done]. intros [= <-]. unfold parse. by rewrite of_bits_bits, decode_encode.
  - intros t k ->. rewrite String.eqb_refl. eauto.
  - intros t p pub k -> ->. rewrite String.eqb_refl. eauto.
Qed.

#[local] Instance sample_owning : Owning := {|
  OwnSecret m s := Ok (MkSecret (sc_Key s) (sc_Labels s) (Some ((gh_Key m).2 +:+ "-uid")) (sc_Annotations s) (sc_Data s));
  owner_uid m := (gh_Key m).2 +:+ "-uid";
|}.
#[local] Instance sample_owning_laws : OwningLaws.
Proof. split; [by intros m s s' [= <-]|by intros m s _ _; eexists]. Qed.

Definition hub : GlobalHub := MkGlobalHub ("hub", "mgh") ∅ false false "" "".
Definition draw (sn : Z) (k : string) : Entropy string := MkEntropy (Ok sn) (Ok k) (7 * year).
Definition route : kobj CRoute := MkRoute ("hub", InventoryRouteName) "inventory.example.com".
(** A store with the route, and one secret or none. *)
Definition store (secrets : list Secret) : kstore (K := conn_kind) := fun k =>
  match k return gmap obj_key (kobj k) with
  | CSecret => list_to_map ((fun s : Secret => (sc_Key s, s)) <$> secrets)
  | CRoute => {[("hub", InventoryRouteName) := route]}
  | _ => ∅
  end.

Lemma fresh_certificates_chain_witness :
  exists w', CreateInventoryCerts (draw 1 "k1") (draw 2 "k2") (draw 3 "k3") (draw 4 "k4") hub (store []) = Ret (None, w') /\
    chained w' "hub" InventoryServerCASecretName serverCerts [serverCertificateCN; "inventory.example.com"] ServerAuth "k3" /\
    chained w' "hub" InventoryClientCASecretName guestCerts [guestCertificateCN] ClientAuth "k4" /\
    (forall en1' en2' en3' en4', CreateInventoryCerts en1' en2' en3' en4' hub w' = Ret (None, w')).
Proof.
  apply (fresh_certificates_chain (kstore_responsive (K := conn_kind)) (draw 1 "k1") (draw 2 "k2") (draw 3 "k3") (draw 4 "k4")
    1 2 3 4 "k1" "k2" "k3" "k4" hub route (store []));
    [by split_and!..|by intros name _|by vm_compute|done].
Defined.

(** A certificate of the server that was made six years before, and an authority
    made seven years before, with one that can be read no longer. *)
Definition old_leaf : Template := leaf_template 3 year true serverCertificateCN None [serverCertificateCN] None.
Definition old_authority : Template := ca_template 1 0 clientCACertificateCN.
Definition made (t : Template) (k : string) : string :=
  match x509_CreateCertificate t None k k with Ok b => b | Err e => e end.
Lemma made_ok t k : issuable t = true -> x509_CreateCertificate t None k k = Ok (made t k).
Proof.
  intros Ht. destruct (self_issued t k Ht) as [b E].
  change (x509_CreateCertificate t None k k = Ok b) in E. unfold made. by rewrite E.
Qed.
Lemma made_parses t k : issuable t = true -> ParseCertificates (made t k) = Ok [issued t None k k].
Proof. intros Ht%(made_ok t k). apply (proj2 (issued_parses _ _ _ _ _ Ht)). Qed.
Lemma made_some t k : issuable t = true -> made t k <> "".
Proof. intros Ht%(made_ok t k). by eapply issued_bytes. Qed.
Lemma made_readable t k : issuable t = true -> readable (made t k).
Proof. intros Ht. split; [by apply made_some|by rewrite made_parses]. Qed.

Definition sample_secret (name crt k : string) : kobj CSecret := MkSecret ("hub", name) ∅ None ∅ (certificate_data "" crt (key_pem k)).
Lemma sample_data name crt k : data (sample_secret name crt k) "tls.crt" = crt /\ data (sample_secret name crt k) "tls.key" = key_pem k.
Proof. by unfold data, sample_secret, certificate_data; cbn [sc_Data]; simplify_map_eq. Qed.
Lemma sample_stored name crt k : kobjects (store [sample_secret name crt k]) CSecret !! ("hub", name) = Some (sample_secret name crt k).
Proof. cbn. unfold knamed. rewrite map_lookup_filter. cbn. rewrite lookup_insert_eq. cbn. by rewrite option_guard_True. Qed.

Definition server_secret : kobj CSecret := sample_secret serverCerts (certificate_pem (made old_leaf "k3")) "k3".

Lemma server_certificate_renewal_panics_witness :
  onUpdate "hub" (draw 5 "k5") server_secret server_secret (store [server_secret]) = Panic.
Proof.
  apply (server_certificate_renewal_panics "hub" (draw 5 "k5") "hub" server_secret route (store [server_secret]) (made old_leaf "k3")
    (issued old_leaf None "k3" "k3"));
    [apply kstore_responsive|apply sample_stored|by vm_compute|by apply sample_data|by apply made_some|by apply made_parses|by vm_compute].
Defined.

Definition authority_secret : kobj CSecret := sample_secret InventoryClientCASecretName (bundle [made old_authority "k2"]) "k2".

Lemma old_authorities_stay_until_they_expire_witness :
  exists b w1 w2 (s1 s2 : Secret),
    createCASecret (draw 6 "k6") None true InventoryClientCASecretName "hub" clientCACertificateCN (store [authority_secret]) = Ret (Ok true, w1) /\
    kobjects w1 CSecret !! ("hub", InventoryClientCASecretName) = Some s1 /\
    secret_certificate s1 = Some (issued (ca_template 6 (7 * year) clientCACertificateCN) None "k2" "k2") /\
    needsRenew (7 * year) s1 = Ret false /\
    removeExpiredCA (8 * year) InventoryClientCASecretName "hub" w1 = Ret w2 /\
    kobjects w2 CSecret !! ("hub", InventoryClientCASecretName) = Some s2 /\
    data s2 "tls.crt" = bundle (b :: filter (fun b => stays (8 * year) b = true) [made old_authority "k2"]) /\
    secret_certificate s2 = secret_certificate s1 /\ data s2 "tls.key" = data authority_secret "tls.key".
Proof.
  destruct (old_authorities_stay_until_they_expire (kstore_responsive (K := conn_kind)) (draw 6 "k6") 6 InventoryClientCASecretName
    "hub" clientCACertificateCN (8 * year) (store [authority_secret]) authority_secret "k2" (made old_authority "k2") [])
    as (b & w1 & w2 & s1 & s2 & H1 & H2 & H3 & H4 & H5 & H6 & H7 & H8 & H9);
    [done|done|apply sample_stored|by apply sample_data|by apply sample_data|constructor; [by apply made_readable|done]|].
  exists b, w1, w2, s1, s2.
  exact (conj H1 (conj H2 (conj H3 (conj H4 (conj H5 (conj H6 (conj H7 (conj H8 H9)))))))).
Defined.

(** The authority that expired goes. *)
Lemma old_authority_goes : stays (8 * year) (made old_authority "k2") = false.
Proof. unfold stays. rewrite made_parses by done. by vm_compute. Qed.

Lemma deleted_authority_is_restored_witness :
  exists w' (r : Secret),
    restore "hub" 7 (fun i w => if (i <? 2)%nat then store [] else store [authority_secret])
      (sample_secret InventoryClientCASecretName "old" "k1") 0 0 (store []) = Ret w' /\
    kobjects w' CSecret !! ("hub", InventoryClientCASecretName) = Some r /\
    data r "tls.crt" = data authority_secret "tls.crt" +:+ "old" /\ (forall key, key <> "tls.crt" -> data r key = data authority_secret key).
Proof.
  apply (deleted_authority_is_restored "hub" (kstore_responsive (K := conn_kind))
    (fun i w => if (i <? 2)%nat then store [] else store [authority_secret]) (sample_secret InventoryClientCASecretName "old" "k1") (store []) 2
    authority_secret); [lia| |intros w'; apply sample_stored|].
  - intros [|[|i]] w' Hi; [by vm_compute..|lia].
  - eapply (data_some _ "tls.key"); [by apply sample_data|]. done.
Defined.

(** The agent of [hub10] asks for the certificate of [hub1]. *)
Definition conf : TransportConfig := MkTransportConfig StrimziTransporter false true "gh-spec" "gh-status.*".
Definition request : CertificateSigningRequest :=
  MkRequest "" "system:open-cluster-management:hub10:multicluster-global-hub-controller" ["client auth"]
    (encode_block (MkBlock "CERTIFICATE REQUEST" "hub1")).

Lemma longer_name_is_approved_witness : Approve conf "hub1" request = true.
Proof.
  apply (longer_name_is_approved conf "hub1" "0" ":multicluster-global-hub-controller" request (MkBlock "CERTIFICATE REQUEST" "hub1"));
    [by left|done|done|done|done].
Defined.

Lemma agents_are_signed_by_the_inventory_authority_witness :
  exists d, (0 < d <= year /\ 0 + d <= NotAfter (issued old_authority None "k2" "k2"))%Z /\
    CSRSign conf (MkClientCAs "" "" (key_pem "k2") (bundle [made old_authority "k2"])) 0 request =
      Ret (match cfssl_Sign (rsa_signer "k2") (issued old_authority None "k2" "k2") (MkSigning ["client auth"] d) 0 (csr_Request request) with
           | Ok signedCert => Some signedCert | Err _ => None end).
Proof.
  apply (agents_are_signed_by_the_inventory_authority conf (MkClientCAs "" "" "" "") (MkClientCAs "" "" (key_pem "k2") (bundle [made old_authority "k2"]))
    0 request "hub" authority_secret (store [authority_secret]) old_authority None "k2" "k2" (made old_authority "k2") "");
    [done| |by apply made_ok|by apply sample_data|by apply sample_data|done|done|].
  - apply kget_present; [apply kstore_responsive|apply sample_stored].
  - unfold SetInventoryClientCA. 
    rewrite (kget_present (store [authority_secret]) CSecret ("hub", InventoryClientCASecretName) authority_secret (kstore_responsive (K := conn_kind)) (sample_stored _ _ _)).
    cbn [fetched_result]. destruct (sample_data InventoryClientCASecretName (bundle [made old_authority "k2"]) "k2") as [E1 E2].
    unfold authority_secret. by rewrite E1, E2.
Defined.
End CertificateSample.
