(* ===== verification/TransportClients.v ===== *)
(** * Clients of the transport

    The consumer and the producer of the manager and of the agents
    ([generic_consumer.go], [generic_producer.go]) and the client of the
    inventory ([inventory_client.go]): how they connect, connect again and report
    errors.  A consumer receives in a goroutine that its context stops, so that
    its operations act on the goroutines and contexts too. *)

From stdpp Require Import prelude gmap strings list.
From Stdlib Require Import ZArith.
From S2P Require Import Prelude.
From S2P Require Import Committer.
From S2P Require Import Credentials.
Local Open Scope string_scope.
Local Open Scope list_scope.

(** ** Configuration ([type.go]) *)
Definition Kafka : string := "kafka".
Definition Chan : string := "chan".
Definition Rest : string := "rest".

Record TransportInternalConfig (Endpoint : Type) := MkInternalConfig {
  tc_TransportType : string;
  tc_IsManager : bool;
  tc_EnableDatabaseOffset : bool;
  tc_ConsumerGroupId : string;
  tc_KafkaCredential : option KafkaConfig;
  tc_RestfulCredential : option RestfulConfig;
  tc_Extends : option (gmap string Endpoint);
  tc_FailureThreshold : Z;
}.
Arguments MkInternalConfig {Endpoint}.
Arguments tc_TransportType {Endpoint}.
Arguments tc_IsManager {Endpoint}.
Arguments tc_EnableDatabaseOffset {Endpoint}.
Arguments tc_ConsumerGroupId {Endpoint}.
Arguments tc_KafkaCredential {Endpoint}.
Arguments tc_RestfulCredential {Endpoint}.
Arguments tc_Extends {Endpoint}.
Arguments tc_FailureThreshold {Endpoint}.

(** The CloudEvents SDK and the Kafka client: endpoints of Kafka and of Go
    channels, and clients on them. *)
Class Connections (W Endpoint Client : Type) := {
  kafka_receiver : ConfigMap -> list string -> W -> result Endpoint * W;
  kafka_sender : ConfigMap -> string -> W -> result Endpoint * W;
  sender_Events : Endpoint -> W -> option goerror * W;
  gochan_New : W -> Endpoint * W;
  NewClient : Endpoint -> W -> result Client * W;
  is_closer : Endpoint -> bool;
  Close : Endpoint -> W -> option goerror * W;
}.

(** ** Contexts and goroutines
    A context is its name and those of its ancestors; it is done when one of them
    has been cancelled. *)
Definition context : Type := list nat.
(** A goroutine that is to call [Start] on a given context, or on the one that the
    consumer has when it runs; one that has called [StartReceiver]; one that ended. *)
Inductive task (Client : Type) :=
| Starting (ctx : option context)
| Receiving (client : option Client) (offsets : list TopicPartition) (ctx : context)
| Stopped.
Arguments Starting {Client}.
Arguments Receiving {Client}.
Arguments Stopped {Client}.
Record runtime (Client : Type) := MkRuntime {
  rt_fresh : nat;
  rt_cancelled : gset nat;
  rt_tasks : list (task Client);
}.
Arguments MkRuntime {Client}.
Arguments rt_fresh {Client}.
Arguments rt_cancelled {Client}.
Arguments rt_tasks {Client}.

Definition ctx_done {Client} (rt : runtime Client) (ctx : context) : Prop := Exists (fun n => n ∈ rt_cancelled rt) ctx.
#[export] Instance ctx_done_dec {Client} (rt : runtime Client) ctx : Decision (ctx_done rt ctx).
Proof. unfold ctx_done. apply _. Defined.
(** [context.WithCancel] and the cancel function, the name of its context *)
Definition WithCancel {Client} (parent : context) (rt : runtime Client) : context * runtime Client :=
  (rt_fresh rt :: parent, MkRuntime (S (rt_fresh rt)) (rt_cancelled rt) (rt_tasks rt)).
Definition cancel {Client} (n : nat) (rt : runtime Client) : runtime Client :=
  MkRuntime (rt_fresh rt) ({[n]} ∪ rt_cancelled rt) (rt_tasks rt).
Definition spawn {Client} (t : task Client) (rt : runtime Client) : runtime Client :=
  MkRuntime (rt_fresh rt) (rt_cancelled rt) (rt_tasks rt ++ [t]).

(** ** Consumer *)
Record GenericConsumer (Client : Type) := MkConsumer {
  gc_clusterID : string;
  gc_enableDatabaseOffset : bool;
  gc_client : option Client;
  gc_consumerCtx : option context;
  gc_consumerCancel : option nat;
}.
Arguments MkConsumer {Client}.
Arguments gc_clusterID {Client}.
Arguments gc_enableDatabaseOffset {Client}.
Arguments gc_client {Client}.
Arguments gc_consumerCtx {Client}.
Arguments gc_consumerCancel {Client}.

Section Clients.
Context {W Endpoint Client : Type} `{Connections W Endpoint Client} `{ConfigSetter}.
Notation config := (TransportInternalConfig Endpoint).

Definition set_extends (cfg : config) (m : gmap string Endpoint) : config :=
  MkInternalConfig (tc_TransportType cfg) (tc_IsManager cfg) (tc_EnableDatabaseOffset cfg) (tc_ConsumerGroupId cfg)
    (tc_KafkaCredential cfg) (tc_RestfulCredential cfg) (Some m) (tc_FailureThreshold cfg).

(** The Go channel of a topic, made at its first use. *)
Definition chan_endpoint (topic : string) (cfg : config) (w : W) : Endpoint * config * W :=
  let extends := default ∅ (tc_Extends cfg) in
  match extends !! topic with
  | Some e => (e, set_extends cfg extends, w)
  | None => let '(e, w') := gochan_New w in (e, set_extends cfg (<[topic := e]> extends), w')
  end.

Definition getConfluentReceiverProtocol (cfg : config) (conn : KafkaConfig) (topics : list string) (w : W) : result Endpoint * W :=
  match GetConfluentConfigMapByKafkaCredential conn (tc_ConsumerGroupId cfg) with
  | Err e => (Err e, w)
  | Ok configMap => kafka_receiver configMap topics w
  end.

Definition consumer_topic (cfg : config) (conn : KafkaConfig) : string :=
  if tc_IsManager cfg then kf_StatusTopic conn else kf_SpecTopic conn.

Definition consumer_protocol (cfg : config) (conn : KafkaConfig) (w : W) : result Endpoint * config * W :=
  let topic := consumer_topic cfg conn in
  if String.eqb (tc_TransportType cfg) Kafka then
    let '(r, w') := getConfluentReceiverProtocol cfg conn [topic] w in (r, cfg, w')
  else if String.eqb (tc_TransportType cfg) Chan then
    let '(e, cfg', w') := chan_endpoint topic cfg w in (Ok e, cfg', w')
  else (Err "transport-type is not a valid option", cfg, w).

(** [initClient]: a nil credential is dereferenced. *)
Definition consumer_initClient (c : GenericConsumer Client) (cfg : config) (w : W)
    : outcome (option goerror * GenericConsumer Client * config * W) :=
  match tc_KafkaCredential cfg with
  | None => Panic
  | Some conn =>
      let c1 := MkConsumer (kf_ClusterID conn) (gc_enableDatabaseOffset c) (gc_client c) (gc_consumerCtx c) (gc_consumerCancel c) in
      match consumer_protocol cfg conn w with
      | (Err e, cfg1, w1) => Ret (Some e, c1, cfg1, w1)
      | (Ok clientProtocol, cfg1, w1) =>
          let '(r, w2) := NewClient clientProtocol w1 in
          let with_client cl := MkConsumer (gc_clusterID c1) (gc_enableDatabaseOffset c1) cl (gc_consumerCtx c1) (gc_consumerCancel c1) in
          match r with
          | Ok client => Ret (None, with_client (Some client), cfg1, w2)
          | Err e => Ret (Some e, with_client None, cfg1, w2)
          end
      end
  end.

Definition NewGenericConsumer (cfg : config) (w : W) : outcome (result (GenericConsumer Client) * config * W) :=
  let! (err, c, cfg', w') := consumer_initClient (MkConsumer "" (tc_EnableDatabaseOffset cfg) None None None) cfg w in
  Ret (match err with Some e => Err e | None => Ok c end, cfg', w').

(** [Reconnect]: a new client, then the context of the previous one is cancelled and a
    goroutine is to start on the context that the consumer will have. *)
Definition consumer_Reconnect (ctx : context) (c : GenericConsumer Client) (cfg : config) (rt : runtime Client) (w : W)
    : outcome (option goerror * GenericConsumer Client * config * runtime Client * W) :=
  let! (err, c1, cfg', w') := consumer_initClient c cfg w in
  match err with
  | Some e => Ret (Some e, c1, cfg', rt, w')
  | None =>
      let rt1 := match gc_consumerCancel c1 with Some n => cancel n rt | None => rt end in
      let '(consumerCtx, rt2) := WithCancel ctx rt1 in
      let c2 := MkConsumer (gc_clusterID c1) (gc_enableDatabaseOffset c1) (gc_client c1) (Some consumerCtx) (Some (rt_fresh rt1)) in
      Ret (None, c2, cfg', spawn (Starting None) rt2, w')
  end.
End Clients.

(** [Start] up to the receiver: the positions of the database, and a context. *)
Definition start_offsets {Client} (c : GenericConsumer Client) (table : result (list Transport)) : result (list TopicPartition) :=
  if gc_enableDatabaseOffset c then let? positions := table in Ok (getInitOffset (gc_clusterID c) positions) else Ok [].
Definition Start {Client} (c : GenericConsumer Client) (table : result (list Transport)) (ctx : context) (rt : runtime Client)
    : result (task Client) * GenericConsumer Client * runtime Client :=
  match start_offsets c table with
  | Err e => (Err e, c, rt)
  | Ok offsets =>
      let '(consumerCtx, rt') := WithCancel ctx rt in
      (Ok (Receiving (gc_client c) offsets consumerCtx),
       MkConsumer (gc_clusterID c) (gc_enableDatabaseOffset c) (gc_client c) (Some consumerCtx) (Some (rt_fresh rt)), rt')
  end.

(** ** Producer *)
Record Sender (Endpoint Client : Type) := MkSender {
  gp_ceProtocol : option Endpoint;
  gp_ceClient : option Client;
}.
Arguments MkSender {Endpoint Client}.
Arguments gp_ceProtocol {Endpoint Client}.
Arguments gp_ceClient {Endpoint Client}.

Section Producers.
Context {W Endpoint Client : Type} `{Connections W Endpoint Client} `{ConfigSetter}.
Notation config := (TransportInternalConfig Endpoint).
Notation sender := (Sender Endpoint Client).

Definition getConfluentSenderProtocol (kafkaCredentail : KafkaConfig) (defaultTopic : string) (w : W) : result Endpoint * W :=
  match GetConfluentConfigMapByKafkaCredential kafkaCredentail "" with
  | Err e => (Err e, w)
  | Ok configMap => kafka_sender configMap defaultTopic w
  end.

Definition producer_topic (cfg : config) (conn : KafkaConfig) : string :=
  if tc_IsManager cfg then kf_SpecTopic conn else kf_StatusTopic conn.

(** The protocol of the producer, or an error; the events of a Kafka producer are read from then on. *)
Definition producer_protocol (cfg : config) (conn : KafkaConfig) (w : W) : result Endpoint * config * W :=
  let topic := producer_topic cfg conn in
  if String.eqb (tc_TransportType cfg) Kafka then
    match getConfluentSenderProtocol conn topic w with
    | (Err e, w1) => (Err e, cfg, w1)
    | (Ok kafkaProtocol, w1) =>
        match sender_Events kafkaProtocol w1 with
        | (Some e, w2) => (Err e, cfg, w2)
        | (None, w2) => (Ok kafkaProtocol, cfg, w2)
        end
    end
  else
    let '(e, cfg', w') := chan_endpoint topic cfg w in (Ok e, cfg', w').

Definition producer_initClient (p : sender) (cfg : config) (w : W) : outcome (option goerror * sender * config * W) :=
  if String.eqb (tc_TransportType cfg) Kafka || String.eqb (tc_TransportType cfg) Chan then
    match tc_KafkaCredential cfg with
    | None => Panic
    | Some conn =>
        match producer_protocol cfg conn w with
        | (Err e, cfg1, w1) => Ret (Some e, p, cfg1, w1)
        | (Ok protocol, cfg1, w1) =>
            match NewClient protocol w1 with
            | (Err e, w2) => Ret (Some e, MkSender (Some protocol) (gp_ceClient p), cfg1, w2)
            | (Ok client, w2) => Ret (None, MkSender (Some protocol) (Some client), cfg1, w2)
            end
        end
    end
  else Ret (Some "transport-type is not a valid option", p, cfg, w).

Definition NewGenericProducer (cfg : config) (w : W) : outcome (result sender * config * W) :=
  let! (err, p, cfg', w') := producer_initClient (MkSender None None) cfg w in
  Ret (match err with Some e => Err e | None => Ok p end, cfg', w').

(** [Reconnect]: the previous protocol is closed first. *)
Definition producer_Reconnect (p : sender) (cfg : config) (w : W) : outcome (option goerror * sender * config * W) :=
  match gp_ceProtocol p with
  | Some protocol =>
      if is_closer protocol then
        match Close protocol w with
        | (Some e, w1) => Ret (Some ("failed to close the previous producer: " +:+ e), p, cfg, w1)
        | (None, w1) => producer_initClient p cfg w1
        end
      else producer_initClient p cfg w
  | None => producer_initClient p cfg w
  end.
End Producers.

(** ** Events of a producer
    [handleProducerEvents]: a report of a delivery, an error of the client with the
    times of the two looks at the clock, or anything else. *)
Inductive kafka_event :=
| Delivery (err : option goerror)
| ClientError (all_brokers_down : bool) (now1 now2 : Z)
| OtherEvent.
Definition five_minutes : Z := 5 * 60 * 1000000000.
(** The zero time of Go. *)
Definition zero_time : Z := - 62135596800 * 1000000000.

Fixpoint producer_events (threshold : Z) (errorCount lastErrorTime : Z) (events : list kafka_event) : outcome (Z * Z) :=
  match events with
  | [] => Ret (errorCount, lastErrorTime)
  | ClientError false now1 now2 :: rest =>
      let errorCount := (errorCount + 1)%Z in
      if (threshold <=? errorCount)%Z then Panic
      else
        let errorCount := if (lastErrorTime + five_minutes <? now1)%Z then 0%Z else errorCount in
        producer_events threshold errorCount now2 rest
  | _ :: rest => producer_events threshold errorCount lastErrorTime rest
  end.
Definition handleProducerEvents (threshold : Z) (events : list kafka_event) : outcome (Z * Z) :=
  producer_events threshold 0 zero_time events.

(** ** Client of the inventory *)
Class HttpLibrary (KeyPair CertPool Http : Type) := {
  X509KeyPair : string -> string -> result KeyPair;
  CertsFromPEM : string -> option CertPool;
  NewHttpClient : string -> KeyPair -> CertPool -> result Http;
}.
Record InventoryClient (KeyPair CertPool Http : Type) := MkInventory {
  ic_httpUrl : string;
  ic_tlsConfig : option (KeyPair * CertPool);
  ic_httpClient : option Http;
}.
Arguments MkInventory {KeyPair CertPool Http}.
Arguments ic_httpUrl {KeyPair CertPool Http}.
Arguments ic_tlsConfig {KeyPair CertPool Http}.
Arguments ic_httpClient {KeyPair CertPool Http}.
Section Inventory.
Context {KeyPair CertPool Http : Type} `{HttpLibrary KeyPair CertPool Http}.

Definition RefreshClient (c : InventoryClient KeyPair CertPool Http) (restfulConn : RestfulConfig)
    : option goerror * InventoryClient KeyPair CertPool Http :=
  match X509KeyPair (rf_ClientCert restfulConn) (rf_ClientKey restfulConn) with
  | Err e => (Some ("failed the load client cert from raw data: " +:+ e), c)
  | Ok clientCert =>
      match CertsFromPEM (rf_CACert restfulConn) with
      | None => (Some "failed to append CA certificate to pool", c)
      | Some caCertPool =>
          match NewHttpClient (rf_Host restfulConn) clientCert caCertPool with
          | Ok h => (None, MkInventory (rf_Host restfulConn) (Some (clientCert, caCertPool)) (Some h))
          | Err e => (Some ("failed to init the inventory http client: " +:+ e),
                      MkInventory (rf_Host restfulConn) (Some (clientCert, caCertPool)) None)
          end
      end
  end.
Definition NewInventoryClient (restfulConn : RestfulConfig) : result (InventoryClient KeyPair CertPool Http) :=
  match RefreshClient (MkInventory "" None None) restfulConn with
  | (Some e, _) => Err e
  | (None, c) => Ok c
  end.
End Inventory.
