(* ===== verification/TransportFacts.v ===== *)
(** * What the credentials of the transport reach

    The round trip of a credential from the operator to the manager and to an
    agent, the settings of a client, the restarts of the manager, and the errors
    of a producer. *)

From stdpp Require Import prelude gmap strings list.
From Stdlib Require Import ZArith Lia.
From S2P Require Import Prelude.
From S2P Require Import Base64.
From S2P Require Import KubeClient.
From S2P Require Import KafkaAccess.
From S2P Require Import Credentials.
From S2P Require Import TransportClients.
Local Open Scope string_scope.
Local Open Scope list_scope.

Lemma EncodeToString_empty s : EncodeToString s = "" -> s = "".
Proof. intros E. pose proof (DecodeString_EncodeToString s) as D. rewrite E in D. vm_compute in D. congruence. Qed.

(** A field that was encoded reads as its bytes, the empty one too. *)
Lemma decode_field_encoded {C} (get : C -> string) (set : string -> C -> C) conn s :
  get conn = EncodeToString s -> (s = "" -> set s conn = conn) -> decode_field get set conn = Ok (set s conn).
Proof.
  intros E Hs. unfold decode_field. rewrite E. destruct (String.eqb_spec (EncodeToString s) "") as [E'|_].
  - by rewrite Hs by by apply EncodeToString_empty.
  - by rewrite DecodeString_EncodeToString.
Qed.
Lemma decode_field_empty {C} (get : C -> string) (set : string -> C -> C) conn :
  get conn = "" -> decode_field get set conn = Ok conn.
Proof. intros E. unfold decode_field. by rewrite E. Qed.

(** ** Round trips *)
Section Roundtrip.
Context {W : Type} `{!KubeClient W conn_kind} `{!KubeServer W conn_kind}.
Context {A : Type} `{!KubeClient A conn_kind} `{!KubeServer A conn_kind}.
Context `{YamlLaws KafkaConfig}.
Context (k : strimziTransporter) (c : TransportConfig).

Lemma fetched_Ok {V} `{!KubeClient V conn_kind} `{!KubeServer V conn_kind} (w : V) kd n o :
  fetched_result (kget w kd n) = Ok o -> kobjects w kd !! n = Some o.
Proof. unfold fetched_result. destruct (kget w kd n) eqn:E; [|done..]. intros [= <-]. by apply kget_Found. Qed.

(** A cluster whose status has the condition [Ready] at true, and what its first
    listener tells of it. *)
Definition ready_cluster (w : W) (kc : KafkaCluster) (bootstrap cert : string) : Prop :=
  kobjects w CKafka !! (kafkaClusterNamespace k, kafkaClusterName k) = Some (kc : kobj CKafka) /\
  exists st conditions ready l ls certs, kk_Status kc = Some st /\
    kst_Conditions st = Some conditions /\ ready ∈ conditions /\
    cd_Type ready = Some "Ready" /\ cd_Status ready = Some "True" /\
    kst_Listeners st = l :: ls /\ li_BootstrapServers l = Some bootstrap /\ li_Certificates l = cert :: certs.
Definition kafka_cluster_id (kc : KafkaCluster) : string := default (kk_UID kc) (kk_Status kc ≫= kst_ClusterId).

Lemma some_ready_true conditions : some_ready conditions = Ret true ->
  exists ready, ready ∈ conditions /\ cd_Type ready = Some "Ready" /\ cd_Status ready = Some "True".
Proof.
  induction conditions as [|x rest IH]; [done|]. cbn.
  destruct (cd_Type x) as [ty|] eqn:Et; [|done]. cbn. destruct (String.eqb_spec ty "Ready") as [->|_].
  - destruct (cd_Status x) as [s|] eqn:Es; [|done]. cbn. destruct (String.eqb_spec s "True") as [->|_].
    + intros _. exists x. split; [by left|done].
    + intros (r & Hr & ?)%IH. exists r. split; [by right|done].
  - intros (r & Hr & ?)%IH. exists r. split; [by right|done].
Qed.
Lemma getConnCredentailByCluster_Ok w conn : getConnCredentailByCluster k w = Ret (Ok conn) ->
  exists kc bootstrap cert, ready_cluster w kc bootstrap cert /\
    conn = MkKafkaConfig bootstrap "" "" (kafka_cluster_id kc) (EncodeToString cert) "" "" "" "" false.
Proof.
  unfold getConnCredentailByCluster. destruct (fetched_result _) as [kc|e] eqn:E; [|done]. apply fetched_Ok in E.
  destruct (kk_Status kc) as [st|] eqn:Es; [|done]. destruct (kst_Conditions st) as [cs|] eqn:Ecs; [|done].
  destruct (some_ready cs) as [[]| | |] eqn:Er; try done. apply some_ready_true in Er as (r & Hr & Hrt & Hrs). cbn [obind]. unfold cluster_credential, slice_get.
  destruct (kst_Listeners st) as [|l ls] eqn:El; [done|]. cbn. destruct (li_BootstrapServers l) as [b|] eqn:Eb; [|done]. cbn.
  destruct (li_Certificates l) as [|cert certs] eqn:Ec; [done|]. cbn. intros [= <-].
  exists kc, b, cert. split; [split; [done|by exists st, cs, r, l, ls, certs]|]. unfold kafka_cluster_id. by rewrite Es.
Qed.

(** What the manager reads from its secret is the connection of a ready cluster,
    its topics, and the certificate and key of its user, as they are in the
    cluster of the global hub. *)
Theorem manager_reads_what_the_operator_wrote (w : W) (wm : A) user conn text (s : Secret)
    (Hconn : getManagerTransportConn k c user w = Ret (Ok conn))
    (Htext : YamlMarshal true conn = Ok text)
    (Hs : sc_Data s !! "kafka.yaml" = Some text) :
  exists kc bootstrap cert us, ready_cluster w kc bootstrap cert /\
    kobjects w CSecret !! (kafkaClusterNamespace k, user) = Some (us : kobj CSecret) /\
    GetKafkaCredentailBySecret s wm = Ok (MkKafkaConfig bootstrap (ManagerStatusTopic c) (specTopic c) (kafka_cluster_id kc)
      cert (data us "user.crt") (data us "user.key") "" "" false).
Proof.
  unfold getManagerTransportConn in Hconn. destruct (getConnCredentailByCluster k w) as [[conn0|e]| | |] eqn:E0; try done.
  apply getConnCredentailByCluster_Ok in E0 as (kc & bootstrap & cert & Hkc & ->). cbn in Hconn. unfold loadUserCredentail in Hconn.
  destruct (fetched_result (kget w CSecret _)) as [us|] eqn:Eu; [|done]. apply fetched_Ok in Eu.
  injection Hconn as <-. exists kc, bootstrap, cert, us. split_and!; [done..|].
  unfold GetKafkaCredentailBySecret, credential_by_secret. rewrite Hs. apply yaml_round in Htext. rewrite Htext. cbn [rbind].
  unfold ParseCredentailConn, kafka_copy. cbn [GetCACert kafka_certificate set_topics SetClientKey SetClientCert kf_BootstrapServer
    kf_StatusTopic kf_SpecTopic kf_ClusterID kf_CACert kf_ClientCert kf_ClientKey kf_IsNewKafkaCluster].
  erewrite decode_field_encoded; [|reflexivity|intros ->; reflexivity]. cbn [rbind].
  erewrite decode_field_encoded; [|reflexivity|intros ->; reflexivity]. cbn [rbind].
  erewrite decode_field_encoded; [|reflexivity|intros ->; reflexivity]. reflexivity.
Qed.

(** An entry of a manifest, which an API server decodes. *)
Definition applied (value : string) (entry : option string) : Prop := exists s, DecodeString value = Ok s /\ entry = Some s.
Lemma applied_encoded s entry : applied (EncodeToString s) entry -> entry = Some s.
Proof. intros (s' & E & ->). rewrite DecodeString_EncodeToString in E. by injection E as <-. Qed.

Lemma strimzi_GetConnCredential_Ok flags cluster (w : W) conn : strimzi_GetConnCredential k c flags cluster w = Ret (Ok conn) ->
  exists kc bootstrap cert, ready_cluster w kc bootstrap cert /\
    conn = MkKafkaConfig bootstrap (GetStatusTopic c cluster) (specTopic c) (kafka_cluster_id kc) (EncodeToString cert) "" ""
      (GetClusterCASecret (kafkaClusterName k)) AgentCertificateSecretName (isNewKafkaCluster flags).
Proof.
  unfold strimzi_GetConnCredential. destruct (getConnCredentailByCluster k w) as [[conn0|e]| | |] eqn:E0; try done.
  apply getConnCredentailByCluster_Ok in E0 as (kc & bootstrap & cert & Hkc & ->). cbn. intros [= <-]. by exists kc, bootstrap, cert.
Qed.

Lemma setTransportConfigs_kafka (transporter : Transporter W) get namespace cluster m w m' w' `{!Yaml RestfulConfig} :
  enableInventory c = false -> setTransportConfigs transporter get c namespace cluster m w = Ret (Ok m', w') ->
  exists conn text, get cluster w' = Ret (Ok conn) /\ YamlMarshal (isBYOKafka c) conn = Ok text /\
    mf_KafkaConfigYaml m' = EncodeToString text /\ mf_KafkaClusterCASecret m' = kf_CASecretName conn /\
    mf_KafkaClusterCACert m' = kf_CACert conn.
Proof.
  intros Hi. unfold setTransportConfigs. rewrite Hi. destruct (EnsureTopic cluster w) as [[|] w1]; [|done].
  destruct (EnsureUser cluster w1) as [[|] w2]; [|done]. destruct (get cluster w2) as [[conn|]| | |] eqn:Eg; try done. cbn.
  destruct (YamlMarshal _ conn) as [text|] eqn:Et; [|done]. cbn. intros [= <- <-]. by exists conn, text.
Qed.

(** C25: the manifests of an agent give it, once they are applied, the connection of
    the ready cluster: the topics are those of its hub, the certificate of the
    cluster comes with them, and its own certificate from the secret of the add-on.
    The inventory is off and the cluster is the one of the operator. *)
Theorem agent_reads_what_the_operator_wrote `{!Yaml RestfulConfig} (transporter : Transporter W) flags namespace cluster m (w w' : W) m'
    (wa : A) (ts ca cs : Secret)
    (Hserver : responsive A conn_kind)
    (Hmode : enableInventory c = false /\ isBYOKafka c = false)
    (Hrun : setTransportConfigs transporter (strimzi_GetConnCredential k c flags) c namespace cluster m w = Ret (Ok m', w'))
    (Hts : applied (mf_KafkaConfigYaml m') (sc_Data ts !! "kafka.yaml"))
    (Hca : kobjects wa CSecret !! ((sc_Key ts).1, mf_KafkaClusterCASecret m') = Some (ca : kobj CSecret))
    (Hcert : applied (mf_KafkaClusterCACert m') (sc_Data ca !! "ca.crt"))
    (Hcs : kobjects wa CSecret !! ((sc_Key ts).1, AgentCertificateSecretName) = Some (cs : kobj CSecret))
    (Hkeys : data cs "tls.crt" <> "" /\ data cs "tls.key" <> "") :
  exists kc bootstrap cert, ready_cluster w' kc bootstrap cert /\
    GetKafkaCredentailBySecret ts wa = Ok (MkKafkaConfig bootstrap (GetStatusTopic c cluster) (specTopic c) (kafka_cluster_id kc)
      cert (data cs "tls.crt") (data cs "tls.key") (GetClusterCASecret (kafkaClusterName k)) AgentCertificateSecretName
      (isNewKafkaCluster flags)).
Proof.
  destruct Hmode as [Hi Hb]. destruct (setTransportConfigs_kafka _ _ _ _ _ _ _ _ Hi Hrun) as (conn & text & Hget & Htext & Ey & En & Ec).
  apply strimzi_GetConnCredential_Ok in Hget as (kc & bootstrap & cert & Hkc & ->). exists kc, bootstrap, cert. split; [done|].
  rewrite Ey in Hts. apply applied_encoded in Hts. rewrite Ec in Hcert. apply applied_encoded in Hcert. rewrite En in Hca. cbn [kf_CASecretName] in Hca.
  apply kget_present in Hca as Gca; [|done]. apply kget_present in Hcs as Gcs; [|done].
  rewrite Hb in Htext. apply yaml_round in Htext. unfold GetKafkaCredentailBySecret, credential_by_secret. rewrite Hts, Htext. cbn [rbind].
  unfold ParseCredentailConn, kafka_copy. rewrite !decode_field_empty by done. cbn [rbind].
  rewrite !decode_field_empty by done. cbn [rbind]. rewrite !decode_field_empty by done. cbn [rbind].
  cbn [GetCASecretName GetClientSecretName kafka_certificate kf_CASecretName kf_ClientSecretName].
  destruct (String.eqb_spec (GetClusterCASecret (kafkaClusterName k)) "") as [Ebad|_].
  { unfold GetClusterCASecret in Ebad. by destruct (kafkaClusterName k). }
  rewrite Gca. cbn [fetched_result rbind].
  cbn [SetCACert kafka_certificate kf_ClientSecretName]. change (String.eqb AgentCertificateSecretName "") with false. cbn iota.
  rewrite Gcs. cbn [fetched_result rbind].
  cbn [SetClientKey SetClientCert GetClientCert GetClientKey kafka_certificate kf_ClientCert kf_ClientKey].
  destruct Hkeys as [H1%String.eqb_neq H2%String.eqb_neq]. rewrite H1, H2. cbn. unfold data. rewrite Hcert. done.
Qed.

(** A cluster that is given is what everyone reads: the manager and the agents
    read the entries of the secret that the user made, the server as its identity. *)
Theorem given_cluster_is_read_by_all (w : W) (wm : A) namespace name conn text (s : Secret)
    (Hconn : byo_GetConnCredential c namespace name w = Ret (Ok conn))
    (Htext : YamlMarshal true conn = Ok text)
    (Hs : sc_Data s !! "kafka.yaml" = Some text) :
  exists us, kobjects w CSecret !! (namespace, name) = Some (us : kobj CSecret) /\
    GetKafkaCredentailBySecret s wm = Ok (MkKafkaConfig (data us "bootstrap_server") (GetStatusTopic c "") (specTopic c)
      (data us "bootstrap_server") (data us "ca.crt") (data us "client.crt") (data us "client.key") "" "" false).
Proof.
  unfold byo_GetConnCredential in Hconn. destruct (fetched_result (kget w CSecret _)) as [us|] eqn:Eu; [|done].
  apply fetched_Ok in Eu. injection Hconn as <-. exists us. split; [done|].
  unfold GetKafkaCredentailBySecret, credential_by_secret. rewrite Hs. apply yaml_round in Htext. rewrite Htext. cbn [rbind].
  unfold ParseCredentailConn, kafka_copy. cbn [kf_BootstrapServer
    kf_StatusTopic kf_SpecTopic kf_ClusterID kf_CACert kf_ClientCert kf_ClientKey kf_IsNewKafkaCluster].
  do 3 (erewrite decode_field_encoded; [|reflexivity|intros ->; reflexivity]; cbn [rbind]). reflexivity.
Qed.
End Roundtrip.

(** ** The settings of a client *)
Section Settings.
Context `{ConfigSetterLaws}.

Lemma set_key_plain m key v : String.prefix "{topic}." key = false -> set_key m (key, v) = <[key := v]> m.
Proof. intros E. unfold set_key. cbn. by rewrite SetKey_plain. Qed.

Definition secured (conn : KafkaConfig) : bool :=
  negb (String.eqb (kf_CACert conn) "" || String.eqb (kf_ClientCert conn) "" || String.eqb (kf_ClientKey conn) "").

(** A client is made for the server of its credential, as the consumer of a group
    or as a producer; it uses TLS exactly when the credential has all three
    certificates, and connects in plain text otherwise, without an error. *)
Theorem settings_follow_the_credential conn group : exists m,
  GetConfluentConfigMapByKafkaCredential conn group = Ok m /\
  m !! "bootstrap.servers" = Some (CText (kf_BootstrapServer conn)) /\
  m !! "group.id" = (if String.eqb group "" then None else Some (CText group)) /\
  m !! "acks" = (if String.eqb group "" then Some (CText "1") else None) /\
  m !! "security.protocol" = (if secured conn then Some (CText "ssl") else None) /\
  m !! "ssl.ca.pem" = (if secured conn then Some (CText (kf_CACert conn)) else None) /\
  m !! "ssl.certificate.pem" = (if secured conn then Some (CText (kf_ClientCert conn)) else None) /\
  m !! "ssl.key.pem" = (if secured conn then Some (CText (kf_ClientKey conn)) else None).
Proof.
  unfold GetConfluentConfigMapByKafkaCredential, SetProducerConfig, SetConsumerConfig, secured. cbn [foldl].
  destruct (String.eqb group ""), (_ || _); cbn [negb];
    rewrite ?set_key_plain, ?SetKey_plain by reflexivity; cbn [rbind];
    rewrite ?SetKey_plain by reflexivity; cbn [rbind]; rewrite ?SetKey_plain by reflexivity;
    (eexists; split; [reflexivity|]); unfold GetBasicConfigMap;
    split_and!; simplify_map_eq; reflexivity.
Qed.
End Settings.

(** ** The restarts of the manager *)
Section Restarts.
Context {W : Type} `{!KubeClient W conn_kind} `{!KubeServer W conn_kind}.

Lemma delete_pods_spec keys : forall (w w' : W), delete_pods keys w = (None, w') ->
  (forall n, n ∈ keys -> kobjects w' CPod !! n = None) /\
  (forall n, n ∉ keys -> kobjects w' CPod !! n = kobjects w CPod !! n) /\
  (forall k, k <> CPod -> kobjects w' k = kobjects w k).
Proof.
  induction keys as [|po keys IH]; intros w w' E; cbn in E.
  { injection E as <-. split_and!; [by intros n ?%elem_of_nil|done..]. }
  assert (exists w1, delete_pods keys w1 = (None, w') /\ kobjects w1 CPod = delete po (kobjects w CPod) /\
    forall k, k <> CPod -> kobjects w1 k = kobjects w k) as (w1 & E1 & Hd & Ho).
  { destruct (kdelete w CPod po) as [[| |e] w1] eqn:Ed; [| |done]; exists w1; split; [done| |done|].
    - by apply kdelete_Done in Ed as [(o & Eo & ->) Ho].
    - apply kdelete_Gone in Ed as [En ->]. split; [|done]. by rewrite delete_id. }
  apply IH in E1 as (Hin & Hout & Hk). split_and!.
  - intros n Hn. destruct (decide (n ∈ keys)) as [Hn'|Hn']; [by apply Hin|]. rewrite Hout, Hd by done.
    apply elem_of_cons in Hn as [->|]; [by rewrite lookup_delete_eq|done].
  - intros n [Hne Hn]%not_elem_of_cons. rewrite Hout, Hd by done. by rewrite lookup_delete_ne.
  - intros k Hk'. by rewrite Hk, Ho.
Qed.

(** The pods of a deployment, by name. *)
Definition runs_pod (w : W) (namespace deployment : string) (n : obj_key) : Prop :=
  exists p : Pod, kobjects w CPod !! n = Some (p : kobj CPod) /\ n.1 = namespace /\ pd_Labels p !! "name" = Some deployment.

Lemma RestartPod_spec namespace deployment (w w' : W) : RestartPod namespace deployment w = (None, w') ->
  (forall n, ~ runs_pod w' namespace deployment n) /\
  (forall n, ~ runs_pod w namespace deployment n -> kobjects w' CPod !! n = kobjects w CPod !! n) /\
  (forall k, k <> CPod -> kobjects w' k = kobjects w k).
Proof.
  unfold RestartPod. destruct (klist w CPod) as [pods|e] eqn:El; [|done]. intros E.
  assert (forall n, n ∈ pd_Key <$> deployment_pods namespace deployment pods <-> runs_pod w namespace deployment n) as Hpods.
  { intros n. rewrite list_elem_of_fmap. unfold deployment_pods. setoid_rewrite list_elem_of_filter. split.
    - intros (p & -> & [Hn Hl] & Hp). exists p. split; [|done]. by apply (klist_elem _ _ _ El).
    - intros (p & Hp & Hn & Hl). pose proof (kobjects_named _ _ _ _ Hp) as <-. exists p. split; [done|]. split; [done|].
      by apply (klist_elem _ _ _ El). }
  apply delete_pods_spec in E as (Hin & Hout & Hk). split_and!; [| |done].
  - intros n Hr. destruct (decide (n ∈ pd_Key <$> deployment_pods namespace deployment pods)) as [Hn|Hn].
    + destruct Hr as (p & Hp & _). by rewrite (Hin _ Hn) in Hp.
    + apply Hn, Hpods. destruct Hr as (p & Hp & Hr). exists p. split; [|done]. by rewrite <- Hout.
  - intros n Hn. apply Hout. by rewrite Hpods.
Qed.

(** With both connections there, the manager is restarted exactly when one of them
    is not the one it was restarted with; then none of its pods remains, and the
    others do. *)
Theorem manager_restarts_when_a_connection_changes namespace conn storage cache (w w' : W) step cache'
    (Hconn : kf_BootstrapServer conn <> "")
    (Hrun : restart_on_change namespace (Some conn) (Some storage) true cache w = (step, cache', w'))
    (Hok : forall e, step <> RestartFailed e) :
  step = Proceeds /\ cache' = (Some conn, Some storage) /\
  (cache = cache' -> w' = w) /\
  (cache <> cache' -> forall n, ~ runs_pod w' namespace "multicluster-global-hub-manager" n) /\
  (forall n, ~ runs_pod w namespace "multicluster-global-hub-manager" n -> kobjects w' CPod !! n = kobjects w CPod !! n).
Proof.
  unfold restart_on_change in Hrun. apply String.eqb_neq in Hconn. rewrite Hconn in Hrun.
  unfold isMiddlewareUpdated in Hrun. destruct cache as [ca cb]. cbn [fst snd] in Hrun.
  destruct (decide ((Some conn, Some storage) = (ca, cb))) as [[= <- <-]|Hne].
  - rewrite !(bool_decide_eq_false_2 (Some _ = None)) in Hrun by done. rewrite !bool_decide_eq_true_2 in Hrun by done.
    cbn in Hrun. injection Hrun as <- <- <-. done.
  - assert (bool_decide (ca = None) || bool_decide (cb = None) || negb (bool_decide (Some conn = ca))
      || negb (bool_decide (Some storage = cb)) = true) as E.
    { destruct (bool_decide_reflect (Some conn = ca)) as [<-|]; [|by rewrite !orb_true_r].
      destruct (bool_decide_reflect (Some storage = cb)) as [<-|]; [done|]. by rewrite !orb_true_r. }
    rewrite E in Hrun. destruct (RestartPod namespace _ w) as [[e|] w1] eqn:Er; [by injection Hrun as <- <- <-; destruct (Hok e)|].
    cbn in Hrun. injection Hrun as <- <- <-. apply RestartPod_spec in Er as (Hnone & Hrest & _).
    split_and!; [done|done|by intros [= -> ->]|by intros _|done].
Qed.

(** A restart that fails is not tried again: the connections are remembered
    before it, so that the next reconciliation goes on with the old pods. *)
Theorem failed_restart_is_forgotten namespace conn storage ready cache (w w' w2 : W) e cache'
    (Hrun : restart_on_change namespace conn storage ready cache w = (RestartFailed e, cache', w')) :
  restart_on_change namespace conn storage ready cache' w2 = (Proceeds, cache', w2).
Proof.
  unfold restart_on_change in *. destruct conn as [conn|]; [|done]. destruct (String.eqb (kf_BootstrapServer conn) ""); [done|].
  destruct storage as [storage|], ready; try done. destruct cache as [ca cb]. unfold isMiddlewareUpdated in *. cbn [fst snd] in *.
  destruct (_ || _ || _ || _); [|done]. destruct (RestartPod namespace _ w) as [[e'|] w1]; [|done].
  injection Hrun as _ <- _. cbn [fst snd setMiddlewareCache].
  rewrite !(bool_decide_eq_false_2 (Some _ = None)) by done. by rewrite !bool_decide_eq_true_2 by done.
Qed.
End Restarts.

(** ** The errors of a producer *)
Fixpoint client_errors (events : list kafka_event) : list (Z * Z) :=
  match events with
  | [] => []
  | ClientError false now1 now2 :: rest => (now1, now2) :: client_errors rest
  | _ :: rest => client_errors rest
  end.
Fixpoint count_errors (threshold errorCount lastErrorTime : Z) (errors : list (Z * Z)) : outcome (Z * Z) :=
  match errors with
  | [] => Ret (errorCount, lastErrorTime)
  | (now1, now2) :: rest =>
      if (threshold <=? errorCount + 1)%Z then Panic
      else count_errors threshold (if (lastErrorTime + five_minutes <? now1)%Z then 0%Z else errorCount + 1)%Z now2 rest
  end.
Lemma producer_events_errors threshold events : forall c t,
  producer_events threshold c t events = count_errors threshold c t (client_errors events).
Proof.
  induction events as [|[err|[] now1 now2|] events IH]; intros c t; cbn; try done.
  by destruct (threshold <=? c + 1)%Z.
Qed.

(** Errors each of which comes at most five minutes after the one before it. *)
Fixpoint burst (t : Z) (errors : list (Z * Z)) : Prop :=
  match errors with
  | [] => True
  | (now1, now2) :: rest => (now1 <= t + five_minutes)%Z /\ burst now2 rest
  end.
Fixpoint last_error (t : Z) (errors : list (Z * Z)) : Z :=
  match errors with [] => t | (_, now2) :: rest => last_error now2 rest end.

Lemma count_errors_panics threshold errors : forall c t, (0 <= c < threshold)%Z ->
  count_errors threshold c t errors = Panic <->
  exists pre w e post, errors = pre ++ w ++ e :: post /\ burst (last_error t pre) w /\
    (threshold <= Z.of_nat (length w) + 1 + (if decide (pre = []) then c else 0))%Z.
Proof.
  induction errors as [|[n1 n2] errors IH]; intros c t Hc.
  { cbn. split; [done|]. intros (pre & w & e & post & E & _). by destruct pre, w. }
  cbn [count_errors]. destruct (Z.leb_spec threshold (c + 1)) as [Hp|Hp].
  { split; [|done]. intros _. exists [], [], (n1, n2), errors. split_and!; [done..|]. rewrite decide_True by done. cbn. lia. }
  destruct (Z.ltb_spec (t + five_minutes) n1) as [Hq|Hq]; rewrite IH by lia; clear IH; split;
    intros (pre & w & e & post & E & Hb & Hl).
  - exists ((n1, n2) :: pre), w, e, post. rewrite E. split_and!; [done..|]. rewrite decide_False by done. destruct (decide (pre = [])); lia.
  - destruct pre as [|x pre].
    + rewrite decide_True in Hl by done. destruct w as [|[m1 m2] w]; cbn in E, Hb, Hl; [lia|]. injection E as <- <- _. lia.
    + rewrite decide_False in Hl by done. cbn in E. injection E as <- ->. exists pre, w, e, post. cbn in Hb. split_and!; [done..|].
      destruct (decide (pre = [])); lia.
  - rewrite E. destruct (decide (pre = [])) as [->|Hne].
    + exists [], ((n1, n2) :: w), e, post. rewrite decide_True by done. cbn in *. split_and!; [done..|]. lia.
    + exists ((n1, n2) :: pre), w, e, post. rewrite decide_False by done. by split_and!.
  - destruct pre as [|x pre].
    + rewrite decide_True in Hl by done. destruct w as [|[m1 m2] w]; cbn in E, Hb, Hl; [lia|]. injection E as <- <- ->. exists [], w, e, post. rewrite decide_True by done. split_and!; [done|by destruct Hb|]. lia.
    + rewrite decide_False in Hl by done. cbn in E. injection E as <- ->. exists pre, w, e, post. cbn in Hb. split_and!; [done..|].
      destruct (decide (pre = [])); lia.
Qed.

(** The process stops exactly when some error is preceded by a burst of one less
    than the threshold of errors, each within five minutes of the one before it:
    whatever the time that they span together, and however long after the burst
    the error comes. *)
Theorem errors_stop_the_process threshold events (Hthreshold : (1 <= threshold)%Z) :
  handleProducerEvents threshold events = Panic <->
  exists pre w e post, client_errors events = pre ++ w ++ e :: post /\
    burst (last_error zero_time pre) w /\ (threshold - 1 <= Z.of_nat (length w))%Z.
Proof.
  unfold handleProducerEvents. rewrite producer_events_errors, count_errors_panics by lia.
  split; intros (pre & w & e & post & E & Hb & Hl); exists pre, w, e, post; (split_and!; [done..|]);
    destruct (decide (pre = [])); lia.
Qed.

Lemma errors_stop_the_process_witness :
  (1 <= 10)%Z /\ handleProducerEvents 10 ((fun i => ClientError false (Z.of_nat i * five_minutes) (Z.of_nat i * five_minutes)) <$> seq 1 11) = Panic.
Proof.
  split; [lia|]. apply (errors_stop_the_process 10); [lia|].
  exists [(five_minutes, five_minutes)], ((fun i => (Z.of_nat i * five_minutes, Z.of_nat i * five_minutes)%Z) <$> seq 2 9),
    (11 * five_minutes, 11 * five_minutes)%Z, []. split; [reflexivity|]. split; [cbn; repeat (split; [lia|]); done|cbn; lia].
Defined.

(** Nine errors, a quiet day, and one more: the process stops. *)
Example quiet_day_does_not_reset : let day := (288 * five_minutes)%Z in
  handleProducerEvents 10 (((fun i => ClientError false (Z.of_nat i) (Z.of_nat i)) <$> seq 0 10) ++ [ClientError false day day]) = Panic.
Proof. vm_compute. reflexivity. Qed.
