(* ===== verification/TransportController.v ===== *)
(** * The controller of the transport

    The reconciliation of the transport secret by the manager and the agents
    ([pkg/transport/controller/controller.go]): the credential is read, stored, and
    given to the clients; then a callback starts what needs them. *)

From stdpp Require Import prelude gmap strings list.
From Stdlib Require Import ZArith Lia.
From S2P Require Import Prelude.
From S2P Require Import KubeClient.
From S2P Require Import Credentials.
From S2P Require Import TransportClients.

Local Open Scope string_scope.
Local Open Scope list_scope.

Definition ResyncKafkaClientSecretAnnotation : string := "global-hub.open-cluster-management.io/resign-kafka-client-secret".

Section Controller.
Context {W Endpoint Client KeyPair CertPool Http : Type}.
Context `{Connections W Endpoint Client} `{ConfigSetter} `{HttpLibrary KeyPair CertPool Http}.
Context `{!KubeClient W conn_kind} `{Yaml KafkaConfig} `{Yaml RestfulConfig}.
Notation config := (TransportInternalConfig Endpoint).

Record TransportClient := MkTransportClient {
  cl_consumer : option (GenericConsumer Client);
  cl_producer : option (Sender Endpoint Client);
  cl_requester : option (InventoryClient KeyPair CertPool Http);
}.
Record TransportCtrl := MkCtrl {
  ct_secretNamespace : string;
  ct_secretName : string;
  ct_extraSecretNames : list string;
  ct_transportConfig : config;
  ct_transportClient : TransportClient;
}.
(** The controller, the goroutines and the world. *)
Record env := MkEnv { en_ctrl : TransportCtrl; en_runtime : runtime Client; en_world : W }.
Definition call : Type := outcome (option goerror * env).

Definition NewTransportCtrl (namespace name : string) (cfg : config) : TransportCtrl :=
  MkCtrl namespace name [""; ""] cfg (MkTransportClient None None None).

Definition set_config (c : TransportCtrl) (cfg : config) : TransportCtrl :=
  MkCtrl (ct_secretNamespace c) (ct_secretName c) (ct_extraSecretNames c) cfg (ct_transportClient c).
Definition set_client (c : TransportCtrl) (cl : TransportClient) : TransportCtrl :=
  MkCtrl (ct_secretNamespace c) (ct_secretName c) (ct_extraSecretNames c) (ct_transportConfig c) cl.
Definition set_extra (c : TransportCtrl) (l : list string) : TransportCtrl :=
  MkCtrl (ct_secretNamespace c) (ct_secretName c) l (ct_transportConfig c) (ct_transportClient c).
Definition set_transport_type (cfg : config) (t : string) : config :=
  MkInternalConfig t (tc_IsManager cfg) (tc_EnableDatabaseOffset cfg) (tc_ConsumerGroupId cfg) (tc_KafkaCredential cfg)
    (tc_RestfulCredential cfg) (tc_Extends cfg) (tc_FailureThreshold cfg).
Definition set_kafka (cfg : config) (k : KafkaConfig) : config :=
  MkInternalConfig (tc_TransportType cfg) (tc_IsManager cfg) (tc_EnableDatabaseOffset cfg) (tc_ConsumerGroupId cfg) (Some k)
    (tc_RestfulCredential cfg) (tc_Extends cfg) (tc_FailureThreshold cfg).
Definition set_rest (cfg : config) (k : RestfulConfig) : config :=
  MkInternalConfig (tc_TransportType cfg) (tc_IsManager cfg) (tc_EnableDatabaseOffset cfg) (tc_ConsumerGroupId cfg)
    (tc_KafkaCredential cfg) (Some k) (tc_Extends cfg) (tc_FailureThreshold cfg).

(** ** The clients *)
Definition set_producer (c : TransportCtrl) (cfg : config) (p : option (Sender Endpoint Client)) : TransportCtrl :=
  set_client (set_config c cfg) (MkTransportClient (cl_consumer (ct_transportClient c)) p (cl_requester (ct_transportClient c))).
Definition set_consumer (c : TransportCtrl) (cfg : config) (g : option (GenericConsumer Client)) : TransportCtrl :=
  set_client (set_config c cfg) (MkTransportClient g (cl_producer (ct_transportClient c)) (cl_requester (ct_transportClient c))).
Definition set_requester (c : TransportCtrl) (i : option (InventoryClient KeyPair CertPool Http)) : TransportCtrl :=
  set_client c (MkTransportClient (cl_consumer (ct_transportClient c)) (cl_producer (ct_transportClient c)) i).

Definition ReconcileProducer (e : env) : call :=
  let c := en_ctrl e in
  match cl_producer (ct_transportClient c) with
  | None =>
      let! (r, cfg, w) := NewGenericProducer (ct_transportConfig c) (en_world e) in
      match r with
      | Err err => Ret (Some ("failed to create/update the producer: " +:+ err), MkEnv (set_config c cfg) (en_runtime e) w)
      | Ok sender => Ret (None, MkEnv (set_producer c cfg (Some sender)) (en_runtime e) w)
      end
  | Some p =>
      let! (err, p', cfg, w) := producer_Reconnect p (ct_transportConfig c) (en_world e) in
      Ret (option_map (String.append "failed to reconnect the producer: ") err, MkEnv (set_producer c cfg (Some p')) (en_runtime e) w)
  end.

Definition ReconcileConsumer (ctx : context) (e : env) : call :=
  let c := en_ctrl e in
  if String.eqb (tc_ConsumerGroupId (ct_transportConfig c)) "" then Ret (None, e)
  else
    match cl_consumer (ct_transportClient c) with
    | None =>
        let! (r, cfg, w) := NewGenericConsumer (ct_transportConfig c) (en_world e) in
        match r with
        | Err err => Ret (Some ("failed to create the consumer: " +:+ err), MkEnv (set_config c cfg) (en_runtime e) w)
        | Ok receiver => Ret (None, MkEnv (set_consumer c cfg (Some receiver)) (spawn (Starting (Some ctx)) (en_runtime e)) w)
        end
    | Some g =>
        let! (err, g', cfg, rt, w) := consumer_Reconnect ctx g (ct_transportConfig c) (en_runtime e) (en_world e) in
        Ret (option_map (String.append "failed to reconnect the consumer: ") err, MkEnv (set_consumer c cfg (Some g')) rt w)
    end.

(** A nil credential is dereferenced by [RefreshClient]. *)
Definition ReconcileRequester (e : env) : call :=
  let c := en_ctrl e in
  match cl_requester (ct_transportClient c), tc_RestfulCredential (ct_transportConfig c) with
  | None, None => Ret (Some "the restful credential must not be nil", e)
  | None, Some conn =>
      match NewInventoryClient conn with
      | Err err => Ret (Some ("initial the inventory client error " +:+ err), e)
      | Ok i => Ret (None, MkEnv (set_requester c (Some i)) (en_runtime e) (en_world e))
      end
  | Some _, None => Panic
  | Some i, Some conn =>
      let '(err, i') := RefreshClient i conn in
      Ret (err, MkEnv (set_requester c (Some i')) (en_runtime e) (en_world e))
  end.

(** ** The credentials *)
Definition contains_string (slice : list string) (s : string) : bool := bool_decide (s ∈ slice).

(** The names of the secrets to watch, after a credential was read. *)
Definition watch_names (caSecretName clientSecretName : string) (l : list string) : list string :=
  let l1 := if negb (String.eqb caSecretName "") || negb (contains_string l caSecretName) then l ++ [caSecretName] else l in
  if negb (String.eqb clientSecretName "") || contains_string l1 clientSecretName then l1 ++ [clientSecretName] else l1.

Definition ResyncKafkaClientSecret (kafkaConn : KafkaConfig) (secret : Secret) (w : W) : option goerror * W :=
  if negb (kf_IsNewKafkaCluster kafkaConn) then (None, w)
  else if bool_decide (is_Some (sc_Annotations secret !! ResyncKafkaClientSecretAnnotation)) then (None, w)
  else if String.eqb (kf_ClientSecretName kafkaConn) "" then (None, w)
  else
    match kdelete w CSecret ((sc_Key secret).1, kf_ClientSecretName kafkaConn) with
    | (Done, w1) =>
        let '(r, w2) := kupdate w1 CSecret
          (MkSecret (sc_Key secret) (sc_Labels secret) (sc_Owner secret) (<[ResyncKafkaClientSecretAnnotation := "true"]> (sc_Annotations secret)) (sc_Data secret) : kobj CSecret) in
        (written_err r, w2)
    | (r, w1) => (written_err r, w1)
    end.

(** Whether there is another credential, which is stored then. *)
Definition updating : Type := (result bool * env)%type.

Definition ReconcileKafkaCredential (secret : Secret) (e : env) : updating :=
  match GetKafkaCredentailBySecret secret (en_world e) with
  | Err err => (Err err, e)
  | Ok kafkaConn =>
      match ResyncKafkaClientSecret kafkaConn secret (en_world e) with
      | (Some err, w) => (Err err, MkEnv (en_ctrl e) (en_runtime e) w)
      | (None, w) =>
          let c := en_ctrl e in
          let c1 := set_extra c (watch_names (kf_CASecretName kafkaConn) (kf_ClientSecretName kafkaConn) (ct_extraSecretNames c)) in
          if bool_decide (tc_KafkaCredential (ct_transportConfig c1) = Some kafkaConn) then (Ok false, MkEnv c1 (en_runtime e) w)
          else (Ok true, MkEnv (set_config c1 (set_kafka (ct_transportConfig c1) kafkaConn)) (en_runtime e) w)
      end
  end.

Definition ReconcileRestfulCredential (secret : Secret) (e : env) : updating :=
  match GetRestfulConnBySecret secret (en_world e) with
  | Err err => (Err err, e)
  | Ok restfulConn =>
      let c := en_ctrl e in
      let c1 := set_extra c (watch_names (rf_CASecretName restfulConn) (rf_ClientSecretName restfulConn) (ct_extraSecretNames c)) in
      if bool_decide (tc_RestfulCredential (ct_transportConfig c1) = Some restfulConn) then (Ok false, MkEnv c1 (en_runtime e) (en_world e))
      else (Ok true, MkEnv (set_config c1 (set_rest (ct_transportConfig c1) restfulConn)) (en_runtime e) (en_world e))
  end.

(** ** The reconciliation *)
Definition set_type (secret : Secret) (c : TransportCtrl) : TransportCtrl :=
  let cfg := ct_transportConfig c in
  let cfg := if bool_decide (is_Some (sc_Data secret !! "kafka.yaml")) then set_transport_type cfg Kafka else cfg in
  let cfg := if bool_decide (is_Some (sc_Data secret !! "rest.yaml")) then set_transport_type cfg Rest else cfg in
  set_config c cfg.

(** Steps that stop at the first error. *)
Definition and_then (r : call) (k : env -> call) : call :=
  let! (err, e) := r in
  match err with Some _ => Ret (err, e) | None => k e end.

Definition kafka_clients (ctx : context) (e : env) : call := and_then (ReconcileConsumer ctx e) ReconcileProducer.

Definition invoke_callback (callback : option (TransportClient -> W -> option goerror * W)) (e : env) : call :=
  match callback with
  | None => Ret (None, e)
  | Some f =>
      let '(err, w) := f (ct_transportClient (en_ctrl e)) (en_world e) in
      Ret (option_map (String.append "failed to invoke the callback function: ") err, MkEnv (en_ctrl e) (en_runtime e) w)
  end.

(** A credential that is another one: the clients follow it, then the callback is invoked. *)
Definition on_update (u : updating) (clients : env -> call)
    (callback : option (TransportClient -> W -> option goerror * W)) : call :=
  match u with
  | (Err err, e) => Ret (Some err, e)
  | (Ok false, e) => Ret (None, e)
  | (Ok true, e) => and_then (clients e) (invoke_callback callback)
  end.

Definition Reconcile (callback : option (TransportClient -> W -> option goerror * W)) (ctx : context) (e : env) : call :=
  let c := en_ctrl e in
  match fetched_result (kget (en_world e) CSecret (ct_secretNamespace c, ct_secretName c)) with
  | Err err => Ret (Some err, e)
  | Ok secret =>
      let e1 := MkEnv (set_type secret c) (en_runtime e) (en_world e) in
      let type := tc_TransportType (ct_transportConfig (en_ctrl e1)) in
      if String.eqb type Kafka then on_update (ReconcileKafkaCredential secret e1) (kafka_clients ctx) callback
      else if String.eqb type Rest then on_update (ReconcileRestfulCredential secret e1) ReconcileRequester callback
      else Ret (Some ("unsupported transport type: " +:+ type), e1)
  end.

(** ** The events of secrets *)
Definition credentialSecret (c : TransportCtrl) (name : string) : bool :=
  String.eqb (ct_secretName c) name || contains_string (ct_extraSecretNames c) name.
Inductive secret_event := SecretCreated (s : Secret) | SecretUpdated (old new : Secret) | SecretDeleted (s : Secret).
Definition secretPred (c : TransportCtrl) (ev : secret_event) : bool :=
  match ev with
  | SecretCreated s => credentialSecret c (sc_Key s).2
  | SecretUpdated old new => credentialSecret c (sc_Key new).2 && negb (bool_decide (sc_Data new = sc_Data old))
  | SecretDeleted _ => false
  end.
End Controller.

Arguments MkTransportClient {Endpoint Client KeyPair CertPool Http}.
Arguments cl_consumer {Endpoint Client KeyPair CertPool Http}.
Arguments cl_producer {Endpoint Client KeyPair CertPool Http}.
Arguments cl_requester {Endpoint Client KeyPair CertPool Http}.
Arguments MkCtrl {Endpoint Client KeyPair CertPool Http}.
Arguments ct_secretNamespace {Endpoint Client KeyPair CertPool Http}.
Arguments ct_secretName {Endpoint Client KeyPair CertPool Http}.
Arguments ct_extraSecretNames {Endpoint Client KeyPair CertPool Http}.
Arguments ct_transportConfig {Endpoint Client KeyPair CertPool Http}.
Arguments ct_transportClient {Endpoint Client KeyPair CertPool Http}.
Arguments MkEnv {W Endpoint Client KeyPair CertPool Http}.
Arguments en_ctrl {W Endpoint Client KeyPair CertPool Http}.
Arguments en_runtime {W Endpoint Client KeyPair CertPool Http}.
Arguments en_world {W Endpoint Client KeyPair CertPool Http}.

(** ** What a reconciliation of the transport does

    The clients follow the credential while every reconciliation succeeds, the
    callback gets them, and an update that fails is forgotten; the names that the
    controller watches only grow. *)

Section Controller.
Context {W Endpoint Client KeyPair CertPool Http : Type}.
Context `{Connections W Endpoint Client} `{ConfigSetter} `{HttpLibrary KeyPair CertPool Http}.
Context `{!KubeClient W conn_kind} `{Yaml KafkaConfig} `{Yaml RestfulConfig}.
Notation config := (TransportInternalConfig Endpoint).
Notation ctrl := (TransportCtrl (Endpoint := Endpoint) (Client := Client) (KeyPair := KeyPair) (CertPool := CertPool) (Http := Http)).
Notation world_env := (env (W := W) (Endpoint := Endpoint) (Client := Client) (KeyPair := KeyPair) (CertPool := CertPool) (Http := Http)).
Notation clients := (TransportClient (Endpoint := Endpoint) (Client := Client) (KeyPair := KeyPair) (CertPool := CertPool) (Http := Http)).
Notation callback_of := (option (clients -> W -> option goerror * W)).
Implicit Types (c : ctrl) (e : world_env) (cb : callback_of) (cfg : config).

(** ** What no client changes *)

(** The credential and the topics of a configuration. *)
Definition same_credential cfg cfg' : Prop :=
  tc_KafkaCredential cfg' = tc_KafkaCredential cfg /\ tc_RestfulCredential cfg' = tc_RestfulCredential cfg /\
  tc_TransportType cfg' = tc_TransportType cfg /\ tc_IsManager cfg' = tc_IsManager cfg /\
  tc_ConsumerGroupId cfg' = tc_ConsumerGroupId cfg.
#[local] Instance same_credential_pre : PreOrder same_credential.
Proof. unfold same_credential. split; [by intros cfg; split_and!|]. intros x y z. intuition congruence. Qed.

Lemma chan_endpoint_credential topic cfg (w : W) : same_credential cfg (chan_endpoint topic cfg w).1.2.
Proof. unfold chan_endpoint. destruct (_ !! topic); [done|]. by destruct (gochan_New w). Qed.
Lemma consumer_protocol_credential cfg conn (w : W) : same_credential cfg (consumer_protocol cfg conn w).1.2.
Proof.
  unfold consumer_protocol. destruct (String.eqb _ Kafka); [by destruct (getConfluentReceiverProtocol _ _ _ _)|].
  destruct (String.eqb _ Chan); [|done]. pose proof (chan_endpoint_credential (consumer_topic cfg conn) cfg w).
  by destruct (chan_endpoint _ _ _) as [[? ?] ?].
Qed.
Lemma producer_protocol_credential cfg conn (w : W) : same_credential cfg (producer_protocol cfg conn w).1.2.
Proof.
  unfold producer_protocol. destruct (String.eqb _ Kafka).
  - destruct (getConfluentSenderProtocol _ _ _) as [[p|] w1]; [|done]. by destruct (sender_Events p w1) as [[|] ?].
  - pose proof (chan_endpoint_credential (producer_topic cfg conn) cfg w). by destruct (chan_endpoint _ _ _) as [[? ?] ?].
Qed.
Lemma consumer_initClient_credential (g : GenericConsumer Client) cfg (w : W) err g' cfg' w' :
  consumer_initClient g cfg w = Ret (err, g', cfg', w') -> same_credential cfg cfg'.
Proof.
  unfold consumer_initClient. destruct (tc_KafkaCredential cfg) as [conn|]; [|done].
  pose proof (consumer_protocol_credential cfg conn w) as Hc. destruct (consumer_protocol cfg conn w) as [[[p|] cfg1] w1]; cbn in Hc.
  - destruct (NewClient p w1) as [[] w2]; by intros [= _ _ <- _].
  - by intros [= _ _ <- _].
Qed.
Lemma producer_initClient_credential (p : Sender Endpoint Client) cfg (w : W) err p' cfg' w' :
  producer_initClient p cfg w = Ret (err, p', cfg', w') -> same_credential cfg cfg'.
Proof.
  unfold producer_initClient. destruct (_ || _); [|by intros [= _ _ <- _]].
  destruct (tc_KafkaCredential cfg) as [conn|]; [|done].
  pose proof (producer_protocol_credential cfg conn w) as Hc. destruct (producer_protocol cfg conn w) as [[[q|] cfg1] w1]; cbn in Hc.
  - destruct (NewClient q w1) as [[] w2]; by intros [= _ _ <- _].
  - by intros [= _ _ <- _].
Qed.

(** What stays of the controller. *)
Definition keeps (e e' : world_env) : Prop :=
  ct_secretNamespace (en_ctrl e') = ct_secretNamespace (en_ctrl e) /\ ct_secretName (en_ctrl e') = ct_secretName (en_ctrl e) /\
  ct_extraSecretNames (en_ctrl e') = ct_extraSecretNames (en_ctrl e) /\
  same_credential (ct_transportConfig (en_ctrl e)) (ct_transportConfig (en_ctrl e')).
#[local] Instance keeps_pre : PreOrder keeps.
Proof.
  unfold keeps. split; [by intros e; split_and!|]. intros x y z (? & ? & ? & ?) (? & ? & ? & ?). split_and!; [congruence..|].
  by etransitivity.
Qed.

Lemma ReconcileProducer_keeps e err e' : ReconcileProducer e = Ret (err, e') -> keeps e e'.
Proof.
  unfold ReconcileProducer, keeps. destruct (cl_producer _) as [p|].
  - unfold producer_Reconnect. intros E.
    assert (forall p w, (let! (err, p', cfg, w) := producer_initClient p (ct_transportConfig (en_ctrl e)) w in
       Ret (option_map (String.append "failed to reconnect the producer: ") err, MkEnv (set_producer (en_ctrl e) cfg (Some p')) (en_runtime e) w)) =
       Ret (err, e') -> keeps e e') as Hinit.
    { intros q w Eq. destruct (producer_initClient q _ w) as [[[[err1 p'] cfg'] w']| | |] eqn:Ei; try done.
      apply producer_initClient_credential in Ei. cbn in Eq. injection Eq as _ <-. by split_and!. }
    destruct (gp_ceProtocol p) as [protocol|]; [|by eapply Hinit]. destruct (is_closer protocol); [|by eapply Hinit].
    destruct (Close protocol _) as [[|] w1]; [|by eapply Hinit]. cbn in E. injection E as _ <-. by split_and!.
  - unfold NewGenericProducer. destruct (producer_initClient _ _ _) as [[[[err1 p'] cfg'] w']| | |] eqn:Ei; try done.
    apply producer_initClient_credential in Ei. cbn. destruct err1; intros [= _ <-]; by split_and!.
Qed.

Lemma ReconcileConsumer_keeps ctx e err e' : ReconcileConsumer ctx e = Ret (err, e') -> keeps e e'.
Proof.
  unfold ReconcileConsumer, keeps. destruct (String.eqb _ ""); [by intros [= _ <-]|]. destruct (cl_consumer _) as [g|].
  - unfold consumer_Reconnect. destruct (consumer_initClient _ _ _) as [[[[err1 g'] cfg'] w']| | |] eqn:Ei; try done.
    apply consumer_initClient_credential in Ei. cbn. destruct err1; [intros [= _ <-]; by split_and!|]. intros [= _ <-]. by split_and!.
  - unfold NewGenericConsumer. destruct (consumer_initClient _ _ _) as [[[[err1 g'] cfg'] w']| | |] eqn:Ei; try done.
    apply consumer_initClient_credential in Ei. cbn. destruct err1; intros [= _ <-]; by split_and!.
Qed.

Lemma ReconcileRequester_keeps e err e' : ReconcileRequester e = Ret (err, e') -> keeps e e'.
Proof.
  unfold ReconcileRequester, keeps. destruct (cl_requester _) as [i|], (tc_RestfulCredential _) as [conn|]; try done.
  - destruct (RefreshClient i conn). intros [= _ <-]. by split_and!.
  - destruct (NewInventoryClient conn); intros [= _ <-]; by split_and!.
  - intros [= _ <-]. by split_and!.
Qed.

Lemma and_then_keeps (r : call) k e err e' :
  and_then r k = Ret (err, e') -> (forall err1 e1, r = Ret (err1, e1) -> keeps e e1) ->
  (forall e1 err2 e2, k e1 = Ret (err2, e2) -> keeps e1 e2) -> keeps e e'.
Proof.
  unfold and_then. destruct r as [[[x|] e1]| | |]; try done; cbn; intros E Hr Hk.
  - injection E as <- <-. by eapply Hr.
  - etransitivity; [by eapply Hr|by eapply Hk].
Qed.
Lemma invoke_callback_keeps cb e err e' : invoke_callback cb e = Ret (err, e') -> keeps e e'.
Proof. unfold invoke_callback, keeps. destruct cb as [f|]; [destruct (f _ _)|]; intros [= _ <-]; by split_and!. Qed.
Lemma kafka_clients_keeps ctx e err e' : kafka_clients ctx e = Ret (err, e') -> keeps e e'.
Proof. intros E. eapply and_then_keeps; [exact E|..]; eauto using ReconcileConsumer_keeps, ReconcileProducer_keeps. Qed.

(** ** A secret of Kafka *)

(** What a reconciliation reads: the secret, which is one of Kafka, its credential,
    and nothing that has to be signed again. *)
Definition reads (e : world_env) (secret : Secret) (conn : KafkaConfig) : Prop :=
  kget (en_world e) CSecret (ct_secretNamespace (en_ctrl e), ct_secretName (en_ctrl e)) = Found (secret : kobj CSecret) /\
  is_Some (sc_Data secret !! "kafka.yaml") /\ sc_Data secret !! "rest.yaml" = None /\
  GetKafkaCredentailBySecret secret (en_world e) = Ok conn /\
  (kf_IsNewKafkaCluster conn = false \/ is_Some (sc_Annotations secret !! ResyncKafkaClientSecretAnnotation)).

Definition stored e : option KafkaConfig := tc_KafkaCredential (ct_transportConfig (en_ctrl e)).

(** The controller once it has read a credential: the type and the names to watch. *)
Definition after_reading conn c : ctrl :=
  let c1 := set_config c (set_transport_type (ct_transportConfig c) Kafka) in
  set_extra c1 (watch_names (kf_CASecretName conn) (kf_ClientSecretName conn) (ct_extraSecretNames c)).

Lemma Reconcile_reads cb ctx e secret conn : reads e secret conn ->
  Reconcile cb ctx e =
  (let c1 := after_reading conn (en_ctrl e) in
   if bool_decide (stored e = Some conn) then Ret (None, MkEnv c1 (en_runtime e) (en_world e))
   else and_then (kafka_clients ctx (MkEnv (set_config c1 (set_kafka (ct_transportConfig c1) conn)) (en_runtime e) (en_world e)))
          (invoke_callback cb)).
Proof.
  intros (Hget & Hk & Hr & Hconn & Hnew). unfold Reconcile. rewrite Hget. cbn [fetched_result].
  assert (set_type secret (en_ctrl e) = set_config (en_ctrl e) (set_transport_type (ct_transportConfig (en_ctrl e)) Kafka)) as ->.
  { unfold set_type. rewrite Hr, (bool_decide_eq_true_2 _ Hk). done. }
  cbn zeta. cbn [en_ctrl set_config ct_transportConfig set_transport_type tc_TransportType]. rewrite String.eqb_refl.
  unfold ReconcileKafkaCredential. cbn [en_world]. rewrite Hconn.
  assert (ResyncKafkaClientSecret conn secret (en_world e) = (None, en_world e)) as ->.
  { unfold ResyncKafkaClientSecret. destruct Hnew as [->|Ha]; [done|]. rewrite (bool_decide_eq_true_2 _ Ha). by destruct (kf_IsNewKafkaCluster conn). }
  cbn zeta. unfold stored. cbn [en_ctrl en_runtime set_extra ct_transportConfig set_config tc_KafkaCredential set_transport_type].
  by destruct (bool_decide _).
Qed.

Lemma after_reading_keeps conn c rt w rt' w' :
  let e := MkEnv c rt w : world_env in let e' := MkEnv (after_reading conn c) rt' w' : world_env in
  stored e' = stored e /\ ct_transportClient (en_ctrl e') = ct_transportClient (en_ctrl e) /\
  ct_secretNamespace (en_ctrl e') = ct_secretNamespace (en_ctrl e) /\ ct_secretName (en_ctrl e') = ct_secretName (en_ctrl e).
Proof. done. Qed.

(** An update that fails is forgotten: the credential is stored before the clients
    follow it and before the callback, so that the next reconciliation of the same
    secret finds nothing to do and succeeds, with the clients as the failure left
    them and without the callback. *)
Theorem failed_update_is_forgotten cb ctx e err e1 secret conn
    (Hreads : reads e secret conn)
    (Hnew : stored e <> Some conn)
    (Hfail : Reconcile cb ctx e = Ret (Some err, e1)) :
  forall ctx2 rt2 w2, reads (MkEnv (en_ctrl e1) rt2 w2) secret conn ->
  exists c2, Reconcile cb ctx2 (MkEnv (en_ctrl e1) rt2 w2) = Ret (None, MkEnv c2 rt2 w2) /\
    ct_transportClient c2 = ct_transportClient (en_ctrl e1).
Proof.
  intros ctx2 rt2 w2 Hreads2. rewrite (Reconcile_reads cb ctx2 _ _ _ Hreads2). rewrite (Reconcile_reads _ _ _ _ _ Hreads) in Hfail.
  cbn zeta in Hfail. rewrite bool_decide_eq_false_2 in Hfail by done.
  assert (stored e1 = Some conn) as Es.
  { eapply and_then_keeps in Hfail; [|apply kafka_clients_keeps|apply invoke_callback_keeps].
    destruct Hfail as (_ & _ & _ & Hc & _). exact Hc. }
  cbn zeta. rewrite bool_decide_eq_true_2 by exact Es. by eexists.
Qed.

(** The same of a producer that cannot connect again: it goes on sending with the
    client of the protocol that was closed. *)
Theorem failed_reconnect_keeps_the_closed_client (p : Sender Endpoint Client) cfg (w w1 w' : W) ep err p' cfg'
    (Hep : gp_ceProtocol p = Some ep) (Hcloser : is_closer ep = true)
    (Hclose : Close ep w = (None, w1))
    (Hrun : producer_Reconnect p cfg w = Ret (Some err, p', cfg', w')) :
  gp_ceClient p' = gp_ceClient p.
Proof.
  unfold producer_Reconnect in Hrun. rewrite Hep, Hcloser, Hclose in Hrun. unfold producer_initClient in Hrun.
  destruct (_ || _); [|by injection Hrun as _ <- _ _]. destruct (tc_KafkaCredential cfg) as [conn|]; [|done].
  destruct (producer_protocol cfg conn w1) as [[[q|] cfg1] w2]; [|by injection Hrun as _ <- _ _].
  destruct (NewClient q w2) as [[cl|] w3]; [done|]. by injection Hrun as _ <- _ _.
Qed.

(** ** The clients follow the credential *)

(** A producer, a consumer made for a credential. *)
Definition sender_for cfg (conn : KafkaConfig) (p : Sender Endpoint Client) : Prop :=
  exists m ep cl (w1 w2 w3 w4 : W), GetConfluentConfigMapByKafkaCredential conn "" = Ok m /\
    kafka_sender m (producer_topic cfg conn) w1 = (Ok ep, w2) /\ NewClient ep w3 = (Ok cl, w4) /\
    gp_ceProtocol p = Some ep /\ gp_ceClient p = Some cl.
Definition receiver_for cfg (conn : KafkaConfig) (g : GenericConsumer Client) : Prop :=
  exists m ep cl (w1 w2 w3 w4 : W), GetConfluentConfigMapByKafkaCredential conn (tc_ConsumerGroupId cfg) = Ok m /\
    kafka_receiver m [consumer_topic cfg conn] w1 = (Ok ep, w2) /\ NewClient ep w3 = (Ok cl, w4) /\
    gc_client g = Some cl /\ gc_clusterID g = kf_ClusterID conn.
Definition clients_for cfg (conn : KafkaConfig) (cl : clients) : Prop :=
  (exists p, cl_producer cl = Some p /\ sender_for cfg conn p) /\
  (tc_ConsumerGroupId cfg <> "" -> exists g, cl_consumer cl = Some g /\ receiver_for cfg conn g).

Lemma clients_for_same cfg cfg' conn cl : same_credential cfg cfg' -> clients_for cfg conn cl -> clients_for cfg' conn cl.
Proof.
  intros (_ & _ & _ & Hm & Hg). unfold clients_for, sender_for, receiver_for, producer_topic, consumer_topic. by rewrite Hm, Hg.
Qed.

Lemma producer_initClient_for (p : Sender Endpoint Client) cfg conn (w : W) p' cfg' w' :
  tc_TransportType cfg = Kafka -> tc_KafkaCredential cfg = Some conn ->
  producer_initClient p cfg w = Ret (None, p', cfg', w') -> sender_for cfg conn p'.
Proof.
  intros Ht Hc. unfold producer_initClient. rewrite Ht, Hc, String.eqb_refl. cbn [orb].
  unfold producer_protocol, getConfluentSenderProtocol. rewrite Ht, String.eqb_refl.
  destruct (GetConfluentConfigMapByKafkaCredential conn "") as [m|] eqn:Em; [|done].
  destruct (kafka_sender m _ w) as [[ep|] w1] eqn:Es; [|done]. destruct (sender_Events ep w1) as [[|] w2]; [done|].
  destruct (NewClient ep w2) as [[cl|] w3] eqn:En; [|done]. intros [= <- _ _]. by exists m, ep, cl, w, w1, w2, w3.
Qed.
Lemma consumer_initClient_for (g : GenericConsumer Client) cfg conn (w : W) g' cfg' w' :
  tc_TransportType cfg = Kafka -> tc_KafkaCredential cfg = Some conn ->
  consumer_initClient g cfg w = Ret (None, g', cfg', w') -> receiver_for cfg conn g'.
Proof.
  intros Ht Hc. unfold consumer_initClient. rewrite Hc. unfold consumer_protocol, getConfluentReceiverProtocol.
  rewrite Ht, String.eqb_refl. destruct (GetConfluentConfigMapByKafkaCredential conn _) as [m|] eqn:Em; [|done].
  destruct (kafka_receiver m _ w) as [[ep|] w1] eqn:Es; [|done].
  destruct (NewClient ep w1) as [[cl|] w3] eqn:En; [|done]. intros [= <- _ _]. by exists m, ep, cl, w, w1, w1, w3.
Qed.

Definition uses_kafka (conn : KafkaConfig) e : Prop :=
  tc_TransportType (ct_transportConfig (en_ctrl e)) = Kafka /\ stored e = Some conn.
Lemma uses_kafka_keeps conn e e' : keeps e e' -> uses_kafka conn e -> uses_kafka conn e'.
Proof. unfold uses_kafka, stored. intros (_ & _ & _ & Hk & _ & Ht & _). by rewrite Hk, Ht. Qed.

Lemma ReconcileProducer_for conn e e' : uses_kafka conn e -> ReconcileProducer e = Ret (None, e') ->
  (exists p, cl_producer (ct_transportClient (en_ctrl e')) = Some p /\ sender_for (ct_transportConfig (en_ctrl e)) conn p) /\
  cl_consumer (ct_transportClient (en_ctrl e')) = cl_consumer (ct_transportClient (en_ctrl e)).
Proof.
  intros [Ht Hc]. unfold ReconcileProducer. destruct (cl_producer _) as [p|].
  - unfold producer_Reconnect. intros E.
    assert (forall w, (let! (err, p', cfg, w) := producer_initClient p (ct_transportConfig (en_ctrl e)) w in
       Ret (option_map (String.append "failed to reconnect the producer: ") err, MkEnv (set_producer (en_ctrl e) cfg (Some p')) (en_runtime e) w)) =
       Ret (None, e') -> exists w0 p' cfg' w', producer_initClient p (ct_transportConfig (en_ctrl e)) w0 = Ret (None, p', cfg', w') /\
         en_ctrl e' = set_producer (en_ctrl e) cfg' (Some p')) as Hinit.
    { intros w Eq. destruct (producer_initClient p _ w) as [[[[[e0|] p'] cfg'] w']| | |] eqn:Ei; try done. cbn in Eq. injection Eq as <-.
      by exists w, p', cfg', w'. }
    assert (exists w0 p' cfg' w', producer_initClient p (ct_transportConfig (en_ctrl e)) w0 = Ret (None, p', cfg', w') /\
         en_ctrl e' = set_producer (en_ctrl e) cfg' (Some p')) as (w0 & p' & cfg' & w' & Ei & ->).
    { destruct (gp_ceProtocol p) as [protocol|]; [|by eapply Hinit]. destruct (is_closer protocol); [|by eapply Hinit].
      destruct (Close protocol _) as [[|] w1]; [done|by eapply Hinit]. }
    split; [|done]. exists p'. split; [done|]. by eapply producer_initClient_for.
  - unfold NewGenericProducer. destruct (producer_initClient _ _ _) as [[[[[e0|] p'] cfg'] w']| | |] eqn:Ei; try done.
    cbn. intros [= <-]. split; [|done]. exists p'. split; [done|]. by eapply producer_initClient_for.
Qed.
Lemma ReconcileConsumer_for ctx conn e e' : uses_kafka conn e -> ReconcileConsumer ctx e = Ret (None, e') ->
  tc_ConsumerGroupId (ct_transportConfig (en_ctrl e)) <> "" ->
  exists g, cl_consumer (ct_transportClient (en_ctrl e')) = Some g /\ receiver_for (ct_transportConfig (en_ctrl e)) conn g.
Proof.
  intros [Ht Hc] E Hg. unfold ReconcileConsumer in E. apply String.eqb_neq in Hg. rewrite Hg in E.
  destruct (cl_consumer _) as [g|].
  - unfold consumer_Reconnect in E. destruct (consumer_initClient _ _ _) as [[[[[e0|] g'] cfg'] w']| | |] eqn:Ei; try done.
    cbn in E. injection E as <-. eexists. split; [reflexivity|].
    apply (consumer_initClient_for _ _ _ _ _ _ _ Ht Hc) in Ei. exact Ei.
  - unfold NewGenericConsumer in E. destruct (consumer_initClient _ _ _) as [[[[[e0|] g'] cfg'] w']| | |] eqn:Ei; try done.
    cbn in E. injection E as <-. exists g'. split; [done|]. by eapply consumer_initClient_for.
Qed.

Lemma and_then_None (r : call) k e' : and_then r k = Ret (None, e') -> exists e1, r = Ret (None, e1) /\ k e1 = Ret (None, e').
Proof. unfold and_then. destruct r as [[[x|] e1]| | |]; try done. cbn. by exists e1. Qed.

Lemma kafka_clients_for ctx conn e e' : uses_kafka conn e -> kafka_clients ctx e = Ret (None, e') ->
  clients_for (ct_transportConfig (en_ctrl e')) conn (ct_transportClient (en_ctrl e')).
Proof.
  intros Hu E. pose proof (kafka_clients_keeps _ _ _ _ E) as (_ & _ & _ & Hk).
  apply (clients_for_same _ _ _ _ Hk). apply and_then_None in E as (e1 & Ec & Ep).
  pose proof (ReconcileConsumer_keeps _ _ _ _ Ec) as Hk1. pose proof Hk1 as (_ & _ & _ & Hk1').
  destruct (ReconcileProducer_for conn e1 e') as [(p & Hp & Hs) Hsame]; [by eapply uses_kafka_keeps|done|].
  split.
  - exists p. split; [done|]. destruct Hk1' as (_ & _ & _ & Hm & _). unfold sender_for, producer_topic in *. by rewrite Hm in Hs.
  - intros Hg. rewrite Hsame. by eapply ReconcileConsumer_for.
Qed.

(** An update that succeeds has made the clients for the new credential, stored it,
    and given the callback these clients last of all. *)
Theorem update_reaches_the_callback cb ctx e e' secret conn
    (Hreads : reads e secret conn)
    (Hnew : stored e <> Some conn)
    (Hrun : Reconcile cb ctx e = Ret (None, e')) :
  stored e' = Some conn /\
  clients_for (ct_transportConfig (en_ctrl e')) conn (ct_transportClient (en_ctrl e')) /\
  forall f, cb = Some f -> exists w, f (ct_transportClient (en_ctrl e')) w = (None, en_world e').
Proof.
  rewrite (Reconcile_reads _ _ _ _ _ Hreads) in Hrun. cbn zeta in Hrun. rewrite bool_decide_eq_false_2 in Hrun by done.
  apply and_then_None in Hrun as (e1 & Ec & Ecb).
  assert (uses_kafka conn e1) as Hu1 by (eapply uses_kafka_keeps; [by eapply kafka_clients_keeps|done]).
  apply (kafka_clients_for _ conn) in Ec; [|done]. unfold invoke_callback in Ecb. destruct cb as [f|].
  - destruct (f _ _) as [[err|] w1] eqn:Ef; [done|]. cbn in Ecb. injection Ecb as <-. cbn. split; [by destruct Hu1|]. split; [done|].
    intros f' [= <-]. eauto.
  - injection Ecb as <-. split; [by destruct Hu1|]. done.
Qed.

(** Runs in which every reconciliation succeeds; between two of them the world and
    the goroutines do as they like. *)
Inductive successful cb : ctrl -> Prop :=
| successful_new namespace name cfg : tc_KafkaCredential cfg = None -> successful cb (NewTransportCtrl namespace name cfg)
| successful_next c ctx rt w e' : successful cb c -> Reconcile cb ctx (MkEnv c rt w) = Ret (None, e') -> successful cb (en_ctrl e').

Lemma on_update_None u k cb e' : on_update u k cb = Ret (None, e') ->
  exists b e1, u = (Ok b, e1) /\ if b then and_then (k e1) (invoke_callback cb) = Ret (None, e') else e' = e1.
Proof. unfold on_update. destruct u as [[[]|err] e1]; [|by intros [= <-]; exists false, e1|done]. by exists true, e1. Qed.

Lemma ReconcileKafkaCredential_Ok secret e b e1 : ReconcileKafkaCredential secret e = (Ok b, e1) ->
  exists conn, GetKafkaCredentailBySecret secret (en_world e) = Ok conn /\ stored e1 = Some conn /\
    ct_transportClient (en_ctrl e1) = ct_transportClient (en_ctrl e) /\
    tc_TransportType (ct_transportConfig (en_ctrl e1)) = tc_TransportType (ct_transportConfig (en_ctrl e)) /\
    (b = false -> ct_transportConfig (en_ctrl e1) = ct_transportConfig (en_ctrl e)).
Proof.
  unfold ReconcileKafkaCredential. destruct (GetKafkaCredentailBySecret secret (en_world e)) as [conn|]; [|done].
  destruct (ResyncKafkaClientSecret conn secret (en_world e)) as [[|] w]; [done|]. cbn zeta. intros E. exists conn. split; [done|].
  destruct (bool_decide_reflect (tc_KafkaCredential (ct_transportConfig (set_extra (en_ctrl e)
    (watch_names (kf_CASecretName conn) (kf_ClientSecretName conn) (ct_extraSecretNames (en_ctrl e))))) = Some conn)) as [Eq|_];
    injection E as <- <-; [by split_and!|]. by split_and!.
Qed.

(** Nothing about the clients of Kafka is another. *)
Definition same_clients (e e' : world_env) : Prop :=
  stored e' = stored e /\ tc_IsManager (ct_transportConfig (en_ctrl e')) = tc_IsManager (ct_transportConfig (en_ctrl e)) /\
  tc_ConsumerGroupId (ct_transportConfig (en_ctrl e')) = tc_ConsumerGroupId (ct_transportConfig (en_ctrl e)) /\
  cl_producer (ct_transportClient (en_ctrl e')) = cl_producer (ct_transportClient (en_ctrl e)) /\
  cl_consumer (ct_transportClient (en_ctrl e')) = cl_consumer (ct_transportClient (en_ctrl e)).
#[local] Instance same_clients_pre : PreOrder same_clients.
Proof. unfold same_clients. split; [by intros e; split_and!|]. intros x y z. intuition congruence. Qed.

Definition following e : Prop :=
  forall conn, stored e = Some conn -> clients_for (ct_transportConfig (en_ctrl e)) conn (ct_transportClient (en_ctrl e)).
Lemma following_same e e' : same_clients e e' -> following e -> following e'.
Proof.
  intros (Hs & Hm & Hg & Hp & Hc) Hf conn. rewrite Hs. intros E%Hf. revert E.
  unfold clients_for, sender_for, receiver_for, producer_topic, consumer_topic. by rewrite Hm, Hg, Hp, Hc.
Qed.

Lemma set_type_same secret c rt (w : W) : same_clients (MkEnv c rt w) (MkEnv (set_type secret c) rt w).
Proof. unfold same_clients, stored, set_type. cbn. by destruct (bool_decide _), (bool_decide _). Qed.
Lemma invoke_callback_same cb e err e' : invoke_callback cb e = Ret (err, e') -> same_clients e e'.
Proof. unfold invoke_callback, same_clients. destruct cb as [f|]; [destruct (f _ _)|]; by intros [= _ <-]. Qed.
Lemma ReconcileRequester_same e err e' : ReconcileRequester e = Ret (err, e') -> same_clients e e'.
Proof.
  unfold ReconcileRequester, same_clients. destruct (cl_requester _) as [i|], (tc_RestfulCredential _) as [conn|]; try done.
  - destruct (RefreshClient i conn). by intros [= _ <-].
  - by destruct (NewInventoryClient conn); intros [= _ <-].
  - by intros [= _ <-].
Qed.
Lemma ReconcileRestfulCredential_same secret e b e1 : ReconcileRestfulCredential secret e = (Ok b, e1) -> same_clients e e1.
Proof.
  unfold ReconcileRestfulCredential, same_clients. destruct (GetRestfulConnBySecret _ _); [|done]. cbn zeta.
  by destruct (bool_decide _); intros [= _ <-].
Qed.

Lemma rest_update_following secret cb e e' :
  on_update (ReconcileRestfulCredential secret e) ReconcileRequester cb = Ret (None, e') -> following e -> following e'.
Proof.
  intros (b & e2 & E2%ReconcileRestfulCredential_same & E)%on_update_None. apply following_same. etransitivity; [exact E2|].
  destruct b; [|by subst]. apply and_then_None in E as (e3 & Er%ReconcileRequester_same & Ecb%invoke_callback_same).
  by etransitivity.
Qed.
Lemma kafka_update_following secret cb ctx e e' : tc_TransportType (ct_transportConfig (en_ctrl e)) = Kafka ->
  on_update (ReconcileKafkaCredential secret e) (kafka_clients ctx) cb = Ret (None, e') -> following e -> following e'.
Proof.
  intros Ht (b & e2 & (conn & _ & Es & Ecl & Et & Hsame)%ReconcileKafkaCredential_Ok & E)%on_update_None Hf. destruct b.
  - apply and_then_None in E as (e3 & Ek & Ecb). pose proof (kafka_clients_keeps _ _ _ _ Ek) as Hk.
    apply (following_same e3); [by eapply invoke_callback_same|]. intros conn' Hc'.
    assert (uses_kafka conn e2) as Hu by (split; [congruence|done]).
    assert (conn' = conn) as ->; [|by eapply kafka_clients_for].
    apply (uses_kafka_keeps _ _ _ Hk) in Hu as [_ Hu]. congruence.
  - subst e2. revert Hf. apply following_same. unfold same_clients, stored. by rewrite (Hsame eq_refl), Ecl.
Qed.

(** C26: while the reconciliations succeed, the clients are those of the credential that
    the controller has stored. *)
Theorem clients_follow_the_credential cb c conn
    (Hrun : successful cb c)
    (Hc : tc_KafkaCredential (ct_transportConfig c) = Some conn) :
  clients_for (ct_transportConfig c) conn (ct_transportClient c).
Proof.
  revert conn Hc. induction Hrun as [namespace name cfg Hnone|c ctx rt w e' Hrun IH E].
  { intros conn Hc. cbn in Hc. congruence. }
  change (following e'). change (following (MkEnv c rt w)) in IH.
  unfold Reconcile in E. destruct (fetched_result _) as [secret|]; [|done]. cbn zeta in E. cbn [en_ctrl en_runtime en_world] in E.
  apply (following_same _ _ (set_type_same secret c rt w)) in IH.
  destruct (String.eqb_spec (tc_TransportType (ct_transportConfig (set_type secret c))) Kafka) as [Ht|_].
  - by apply kafka_update_following in E.
  - destruct (String.eqb _ Rest); [|done]. by apply rest_update_following in E.
Qed.

(** ** The names that are watched *)
Lemma watch_names_elem ca cl l name : name ∈ watch_names ca cl l ->
  name ∈ l \/ name = ca \/ name = cl.
Proof.
  unfold watch_names. destruct (_ || _), (_ || _); rewrite ?elem_of_app, ?list_elem_of_singleton; tauto.
Qed.
Lemma watch_names_keeps ca cl l name : name ∈ l -> name ∈ watch_names ca cl l.
Proof. unfold watch_names. destruct (_ || _), (_ || _); rewrite ?elem_of_app; tauto. Qed.
Lemma watch_names_new ca cl l : "" ∈ l -> ca ∈ watch_names ca cl l /\ cl ∈ watch_names ca cl l /\ S (length l) <= length (watch_names ca cl l).
Proof.
  intros Hl. unfold watch_names, contains_string.
  destruct (String.eqb_spec ca "") as [->|Hca], (String.eqb_spec cl "") as [->|Hcl]; cbn [negb orb].
  - rewrite (bool_decide_eq_true_2 _ Hl). cbn [negb]. rewrite (bool_decide_eq_true_2 _ Hl). rewrite length_app, !elem_of_app. cbn. split_and!; [by left..|lia].
  - rewrite (bool_decide_eq_true_2 _ Hl). cbn [negb]. rewrite length_app, !elem_of_app, !list_elem_of_singleton. cbn. split_and!; [by left|by right|lia].
  - assert ("" ∈ l ++ [ca]) as Hl' by (apply elem_of_app; by left). rewrite (bool_decide_eq_true_2 _ Hl').
    rewrite !length_app, !elem_of_app, !list_elem_of_singleton. cbn. split_and!; [by left; right|by left; left|lia].
  - rewrite !length_app, !elem_of_app, !list_elem_of_singleton. cbn. split_and!; [by left; right|by right|lia].
Qed.

Fixpoint reconcile_times (n : nat) cb ctx e : call :=
  match n with 0 => Ret (None, e) | S n => and_then (Reconcile cb ctx e) (reconcile_times n cb ctx) end.

(** Reconciling a secret that does not change does nothing but let the list of the
    watched names grow: after [n] reconciliations it is longer by [n] at least,
    while it tells the same names apart as after the first. *)
Theorem watch_list_grows_for_ever cb ctx n c rt w secret conn
    (Hreads : reads (MkEnv c rt w) secret conn)
    (Hsame : stored (MkEnv c rt w) = Some conn)
    (Hempty : "" ∈ ct_extraSecretNames c) :
  exists c', reconcile_times n cb ctx (MkEnv c rt w) = Ret (None, MkEnv c' rt w) /\
    ct_transportClient c' = ct_transportClient c /\
    length (ct_extraSecretNames c) + n <= length (ct_extraSecretNames c') /\
    forall name, credentialSecret c' name = true <->
      (credentialSecret c name = true \/ (0 < n /\ (name = kf_CASecretName conn \/ name = kf_ClientSecretName conn))).
Proof.
  assert (forall c name, credentialSecret c name = true <-> (ct_secretName c = name \/ name ∈ ct_extraSecretNames c)) as Hcred.
  { intros c0 name. unfold credentialSecret, contains_string. by rewrite orb_true_iff, String.eqb_eq, bool_decide_eq_true. }
  revert c Hreads Hsame Hempty. induction n as [|n IH]; intros c Hreads Hsame Hempty.
  { exists c. cbn. split_and!; [done|done|lia|]. intros name. split; [by left|]. intros [|[? _]]; [done|lia]. }
  cbn [reconcile_times]. rewrite (Reconcile_reads _ _ _ _ _ Hreads). cbn zeta. rewrite bool_decide_eq_true_2 by done.
  cbn [and_then obind en_ctrl en_runtime en_world].
  pose proof (watch_names_new (kf_CASecretName conn) (kf_ClientSecretName conn) _ Hempty) as (Hca & Hcl & Hlen).
  destruct (IH (after_reading conn c)) as (c' & E & Eclients & El & Ew); [done|done|by apply watch_names_keeps|].
  exists c'. split_and!; [done|done|cbn in El; lia|]. intros name. rewrite Ew, !Hcred. cbn [after_reading set_extra ct_extraSecretNames ct_secretName set_config].
  split.
  - intros [[Hn|[Hn|Hn]%watch_names_elem]|[_ Hn]]; [by left; left|by left; right|right; split; [lia|tauto]..].
  - intros [[Hn|Hn]|[_ [->| ->]]]; left; [by left|right; by apply watch_names_keeps|by right..].
Qed.
End Controller.
