(* ===== verification/Receivers.v ===== *)
(** * The receivers of a consumer

    A consumer connects again under a lock, but its goroutines start without one
    ([generic_consumer.go]): the reconnections and the steps of the goroutines are a
    step relation.  When every goroutine has called [StartReceiver] before the next
    reconnection there is one receiver, on the current client; otherwise a receiver
    can be left that no later reconnection stops. *)

From stdpp Require Import prelude gmap strings list relations.
From Stdlib Require Import ZArith Lia.
From S2P Require Import Prelude.
From S2P Require Import Committer.
From S2P Require Import Credentials.
From S2P Require Import TransportClients.
Local Open Scope string_scope.
Local Open Scope list_scope.

Section Receivers.
Context {W Endpoint Client : Type} `{Connections W Endpoint Client} `{ConfigSetter}.
(** The context of every reconciliation. *)
Context (root : context).

Definition consumer_state : Type := (GenericConsumer Client * runtime Client)%type.
Implicit Types (s : consumer_state) (rt : runtime Client).

Definition set_task (i : nat) (t : task Client) rt : runtime Client :=
  MkRuntime (rt_fresh rt) (rt_cancelled rt) (<[i := t]> (rt_tasks rt)).

(** A new consumer, whose first goroutine is to start. *)
Inductive consumer_created : consumer_state -> Prop :=
| consumer_created_new cfg (w : W) g cfg' w' fresh : NewGenericConsumer cfg w = Ret (Ok g, cfg', w') ->
    consumer_created (g, spawn (Starting (Some root)) (MkRuntime fresh ∅ [])).

(** The context on which a goroutine starts: the one it was given, or the one that
    the consumer has by then. *)
Definition start_context (g : GenericConsumer Client) (o : option context) : option context :=
  match o with Some ctx => Some ctx | None => gc_consumerCtx g end.

(** What a goroutine does: it starts, on the current client, or fails to read its
    offsets; its receiver ends. *)
Inductive goroutine_step : consumer_state -> consumer_state -> Prop :=
| step_start g rt i o ctx table t g' rt' :
    rt_tasks rt !! i = Some (Starting o) -> start_context g o = Some ctx ->
    Start g table ctx rt = (Ok t, g', rt') -> goroutine_step (g, rt) (g', set_task i t rt')
| step_start_fails g rt i o ctx table e g' rt' :
    rt_tasks rt !! i = Some (Starting o) -> start_context g o = Some ctx ->
    Start g table ctx rt = (Err e, g', rt') -> goroutine_step (g, rt) (g', set_task i Stopped rt')
| step_ends g rt i client offsets ctx :
    rt_tasks rt !! i = Some (Receiving client offsets ctx) -> goroutine_step (g, rt) (g, set_task i Stopped rt).
Inductive reconnect_step : consumer_state -> consumer_state -> Prop :=
| step_reconnect g rt cfg (w : W) err g' cfg' rt' w' :
    consumer_Reconnect root g cfg rt w = Ret (err, g', cfg', rt', w') -> reconnect_step (g, rt) (g', rt').

Definition no_start rt : Prop := forall i o, rt_tasks rt !! i <> Some (Starting o).

(** A step, and one that reconnects only when no goroutine is still to start. *)
Definition consumer_step s s' : Prop := goroutine_step s s' \/ reconnect_step s s'.
Definition orderly_step s s' : Prop := goroutine_step s s' \/ (no_start s.2 /\ reconnect_step s s').

(** A receiver that nothing has stopped. *)
Definition live rt (i : nat) (client : option Client) (ctx : context) : Prop :=
  (exists offsets, rt_tasks rt !! i = Some (Receiving client offsets ctx)) /\ ~ ctx_done rt ctx.
Definition active rt (i : nat) : Prop := (exists o, rt_tasks rt !! i = Some (Starting o)) \/ exists client ctx, live rt i client ctx.

(** ** Reconnection and start, as the relation needs them *)
Lemma initClient_keeps (g : GenericConsumer Client) cfg (w : W) err g' cfg' w' :
  consumer_initClient g cfg w = Ret (err, g', cfg', w') ->
  gc_consumerCancel g' = gc_consumerCancel g /\ gc_consumerCtx g' = gc_consumerCtx g.
Proof.
  unfold consumer_initClient. destruct (tc_KafkaCredential cfg) as [conn|]; [|done].
  destruct (consumer_protocol cfg conn w) as [[[p|] cfg1] w1]; [|by intros [= _ <- _ _]].
  destruct (NewClient p w1) as [[] w2]; by intros [= _ <- _ _].
Qed.

Lemma initClient_client (g : GenericConsumer Client) cfg (w : W) e g' cfg' w' :
  consumer_initClient g cfg w = Ret (Some e, g', cfg', w') -> gc_client g' = gc_client g \/ gc_client g' = None.
Proof.
  unfold consumer_initClient. destruct (tc_KafkaCredential cfg) as [conn|]; [|done].
  destruct (consumer_protocol cfg conn w) as [[[p|] cfg1] w1]; [|intros [= _ <- _ _]; by left].
  destruct (NewClient p w1) as [[] w2]; intros [= _ <- _ _]; by right.
Qed.

Lemma Reconnect_inv (g : GenericConsumer Client) cfg rt (w : W) err g' cfg' rt' w' :
  consumer_Reconnect root g cfg rt w = Ret (err, g', cfg', rt', w') ->
  (is_Some err /\ rt' = rt /\ gc_consumerCancel g' = gc_consumerCancel g /\ gc_consumerCtx g' = gc_consumerCtx g /\
   (gc_client g' = gc_client g \/ gc_client g' = None)) \/
  (err = None /\ rt_fresh rt' = S (rt_fresh rt) /\ rt_tasks rt' = rt_tasks rt ++ [Starting None] /\
   rt_cancelled rt' = match gc_consumerCancel g with Some n => {[n]} ∪ rt_cancelled rt | None => rt_cancelled rt end /\
   gc_consumerCancel g' = Some (rt_fresh rt) /\ gc_consumerCtx g' = Some (rt_fresh rt :: root)).
Proof.
  unfold consumer_Reconnect. destruct (consumer_initClient g cfg w) as [[[[err1 g1] cfg1] w1]| | |] eqn:Ei; try done.
  destruct err1 as [e|]; apply initClient_keeps in Ei as Ek; destruct Ek as [Ec Ex].
  - apply initClient_client in Ei. cbn. intros [= <- <- _ <- _]. left. by split_and!.
  - cbn. rewrite Ec. destruct (gc_consumerCancel g); intros [= <- <- _ <- _]; right; by split_and!.
Qed.

Lemma Start_inv (g : GenericConsumer Client) table ctx rt r g' rt' : Start g table ctx rt = (r, g', rt') ->
  (exists e, r = Err e /\ g' = g /\ rt' = rt) \/
  (exists offsets, r = Ok (Receiving (gc_client g) offsets (rt_fresh rt :: ctx)) /\
    gc_consumerCancel g' = Some (rt_fresh rt) /\ gc_consumerCtx g' = Some (rt_fresh rt :: ctx) /\ gc_client g' = gc_client g /\
    rt' = MkRuntime (S (rt_fresh rt)) (rt_cancelled rt) (rt_tasks rt)).
Proof.
  unfold Start. destruct (start_offsets g table) as [offsets|e]; cbn; intros [= <- <- <-]; [right|left]; eauto 10.
Qed.

Lemma ctx_done_mono (rt rt' : runtime Client) ctx : rt_cancelled rt ⊆ rt_cancelled rt' -> ctx_done rt ctx -> ctx_done rt' ctx.
Proof. unfold ctx_done. intros Hs Hd. eapply Exists_impl; [exact Hd|]. cbn. set_solver. Qed.

Lemma set_task_lookup i t rt j : rt_tasks (set_task i t rt) !! j =
  if decide (j = i) then (if decide (i < length (rt_tasks rt)) then Some t else None) else rt_tasks rt !! j.
Proof.
  cbn. destruct (decide (j = i)) as [->|Hne]; [|by rewrite list_lookup_insert_ne].
  destruct (decide (i < length (rt_tasks rt))); [by rewrite list_lookup_insert_eq|].
  rewrite list_insert_ge by lia. apply lookup_ge_None. lia.
Qed.

(** ** One receiver *)

(** At most one goroutine is to start or receives; what receives is on the client of
    the consumer, unless a failure has taken it away, and its context is the one
    that the consumer can cancel. *)
Definition one_receiver s : Prop :=
  (forall i j, active s.2 i -> active s.2 j -> i = j) /\
  forall i client ctx, live s.2 i client ctx ->
    (gc_client s.1 = client \/ gc_client s.1 = None) /\ exists n rest, ctx = n :: rest /\ gc_consumerCancel s.1 = Some n.

Lemma consumer_created_one_receiver s : consumer_created s -> one_receiver s.
Proof.
  intros [cfg w g cfg' w' fresh _]. split.
  - assert (forall i, active (spawn (Starting (Some root)) (MkRuntime fresh ∅ [])) i -> i = 0) as Ha.
    { intros i [[o E]|(client & ctx & [offsets E] & _)]; cbn in E; destruct i as [|[|i]]; done. }
    intros i j Hi%Ha Hj%Ha. congruence.
  - intros i client ctx [[offsets E] _]. cbn in E. by destruct i as [|[|i]].
Qed.

(** A goroutine that ends or fails. *)
Lemma stop_one_receiver g rt i : one_receiver (g, rt) -> one_receiver (g, set_task i Stopped rt).
Proof.
  intros [Hone Hlive]. assert (forall j client ctx, live (set_task i Stopped rt) j client ctx -> live rt j client ctx) as Hl.
  { intros j client ctx [[offsets E] Hd]. rewrite set_task_lookup in E. destruct (decide (j = i)); [by destruct (decide _)|]. split; eauto. }
  assert (forall j, active (set_task i Stopped rt) j -> active rt j) as Ha.
  { intros j [[o E]|(client & ctx & Hj)]; [left|right; eauto]. rewrite set_task_lookup in E.
    destruct (decide (j = i)); [by destruct (decide _)|eauto]. }
  split; [intros j k ?%Ha ?%Ha; by apply Hone|intros j client ctx ?%Hl; by eapply Hlive].
Qed.

Lemma goroutine_one_receiver s s' : goroutine_step s s' -> one_receiver s -> one_receiver s'.
Proof.
  intros [g rt i o ctx table t g' rt' Hi Hctx Hs|g rt i o ctx table e g' rt' Hi Hctx Hs|g rt i client offsets ctx Hi] Hinv;
    [|apply Start_inv in Hs as [(e' & _ & -> & ->)|(offsets & ? & _)]; [by apply stop_one_receiver|done]|by apply stop_one_receiver].
  apply Start_inv in Hs as [(e' & ? & _)|(offsets & [= ->] & Hcancel & _ & Hclient & ->)]; [done|].
  destruct Hinv as [Hone Hlive]. assert (active rt i) as Hai by (left; eauto).
  assert (forall j, active (set_task i (Receiving (gc_client g) offsets (rt_fresh rt :: ctx))
    (MkRuntime (S (rt_fresh rt)) (rt_cancelled rt) (rt_tasks rt))) j -> j = i) as Ha.
  { intros j Hj. destruct (decide (j = i)) as [|Hne]; [done|]. apply Hone; [|done].
    destruct Hj as [[o' E]|(client & ctx' & [os E] & Hd)]; rewrite set_task_lookup, decide_False in E by done;
      [left; eauto|right; exists client, ctx'; split; eauto]. }
  split; [by intros j k ->%Ha ->%Ha|]. intros j client ctx' Hj. assert (j = i) as -> by (apply Ha; right; eauto).
  destruct Hj as [[os E] _]. cbn in E. rewrite list_lookup_insert_eq in E by exact (lookup_lt_Some _ _ _ Hi).
  injection E as <- _ <-. cbn. rewrite Hclient. split; [by left|]. eauto.
Qed.

(** A reconnection with no goroutine to start cancels what receives. *)
Lemma reconnect_one_receiver s s' : no_start s.2 -> reconnect_step s s' -> one_receiver s -> one_receiver s'.
Proof.
  intros Hno Hstep. revert Hno. destruct Hstep as [g rt cfg w err g' cfg' rt' w' E]. intros Hno [Hone Hlive]. cbn [fst snd] in *.
  apply Reconnect_inv in E as [(_ & -> & Hc & _ & Hcl)|(_ & _ & Ht & Hcan & Hc & _)].
  { split; [done|]. intros i client ctx Hi. destruct (Hlive _ _ _ Hi) as (Hcl' & n & rest & -> & Hn). cbn in *. split; [|rewrite Hc; eauto].
    destruct Hcl as [-> | ->]; [done|by right]. }
  assert (forall i client ctx, ~ live rt' i client ctx) as Hnone.
  { intros i client ctx [[offsets Ei] Hd]. rewrite Ht in Ei. apply lookup_app_Some in Ei as [Ei|[_ Ei]]; [|by destruct (_ - _)].
    assert (live rt i client ctx) as Hl.
    { split; [by exists offsets|]. intros Hd'. apply Hd. eapply ctx_done_mono; [|exact Hd']. rewrite Hcan. destruct (gc_consumerCancel g); set_solver. }
    destruct (Hlive _ _ _ Hl) as (_ & n & rest & -> & Hn). cbn in Hn. apply Hd. rewrite Hn in Hcan.
    apply Exists_cons_hd. rewrite Hcan. set_solver. }
  assert (forall i, active rt' i -> i = length (rt_tasks rt)) as Ha.
  { intros i [[o Ei]|(client & ctx & Hl)]; [|by destruct (Hnone i client ctx)]. rewrite Ht in Ei.
    apply lookup_app_Some in Ei as [Ei|[Hge Ei]]; [by apply Hno in Ei|].
    destruct (i - length (rt_tasks rt)) eqn:Ed; [lia|done]. }
  split; [intros i j Hi%Ha Hj%Ha; congruence|]. intros i client ctx Hi. by destruct (Hnone i client ctx).
Qed.

(** C19: when the consumer connects again only after every goroutine has started, there
    is at most one receiver that nothing has stopped, and the next reconnection
    stops it. *)
Theorem orderly_consumer_has_one_receiver s0 s
    (Hcreated : consumer_created s0)
    (Hrun : rtc orderly_step s0 s) :
  (forall i j cl1 cl2 ctx1 ctx2, live s.2 i cl1 ctx1 -> live s.2 j cl2 ctx2 -> i = j) /\
  forall cfg (w : W) g' cfg' rt' w', no_start s.2 ->
    consumer_Reconnect root s.1 cfg s.2 w = Ret (None, g', cfg', rt', w') ->
    forall i client ctx, ~ live rt' i client ctx.
Proof.
  assert (one_receiver s) as [Hone Hlive].
  { apply consumer_created_one_receiver in Hcreated. induction Hrun as [|s0 s1 s2 [Hstep|[Hno Hstep]] _ IH]; [done|..]; apply IH.
    - by eapply goroutine_one_receiver.
    - by eapply reconnect_one_receiver. }
  split; [intros i j cl1 cl2 ctx1 ctx2 Hi Hj; apply Hone; right; eauto|].
  intros cfg w g' cfg' rt' w' Hno E i client ctx [[offsets Ei] Hd].
  apply Reconnect_inv in E as [([? ?] & _)|(_ & _ & Ht & Hcan & _)]; [done|].
  rewrite Ht in Ei. apply lookup_app_Some in Ei as [Ei|[_ Ei]]; [|by destruct (_ - _)].
  assert (live s.2 i client ctx) as Hl.
  { split; [by exists offsets|]. intros Hd'. apply Hd. eapply ctx_done_mono; [|exact Hd']. rewrite Hcan. destruct (gc_consumerCancel s.1); set_solver. }
  destruct (Hlive _ _ _ Hl) as (_ & n & rest & -> & Hn). apply Hd. apply Exists_cons_hd. rewrite Hcan, Hn. set_solver.
Qed.

(** ** A receiver that is lost *)

(** The consumer has the cancel function of another context, and its names are new. *)
Definition lost s (i : nat) (client : option Client) (ctx : context) : Prop :=
  live s.2 i client ctx /\ (forall n, n ∈ ctx -> n < rt_fresh s.2) /\
  forall n, gc_consumerCancel s.1 = Some n -> n ∉ ctx.

(** Another goroutine moves, and the consumer can cancel what it could, or a new context. *)
Lemma lost_other (g g' : GenericConsumer Client) rt i j o t fresh client ctx :
  lost (g, rt) i client ctx -> rt_tasks rt !! j = Some (Starting o) -> rt_fresh rt <= fresh ->
  (forall n, gc_consumerCancel g' = Some n -> gc_consumerCancel g = Some n \/ n = rt_fresh rt) ->
  lost (g', set_task j t (MkRuntime fresh (rt_cancelled rt) (rt_tasks rt))) i client ctx.
Proof.
  intros ([[offsets Ei] Hd] & Hf & Hc) Ej Hle Hcan. cbn [fst snd] in *. assert (i <> j) as Hij by congruence. split; [|split].
  - split; [|exact Hd]. exists offsets. cbn [snd]. by rewrite set_task_lookup, decide_False.
  - intros n Hn%Hf. cbn. lia.
  - intros n [Hn| ->]%Hcan; [by apply Hc|]. intros Hn%Hf. lia.
Qed.

Lemma lost_step s s' i client ctx : consumer_step s s' -> lost s i client ctx ->
  rt_tasks s'.2 !! i = Some Stopped \/ lost s' i client ctx.
Proof.
  intros [[g rt j o ctx' table t g' rt' Hj Hctx Hs|g rt j o ctx' table e g' rt' Hj Hctx Hs|g rt j client' offsets' ctx' Hj]|[g rt cfg w err g' cfg' rt' w' E]] Hl;
    pose proof Hl as ([[offsets Ei] Hd] & Hf & Hc); cbn [fst snd] in *.
  - apply Start_inv in Hs as [(e' & ? & _)|(os & [= ->] & Hcan & _ & _ & ->)]; [done|]. right.
    eapply lost_other; [done|done|lia|]. rewrite Hcan. intros n [= <-]. by right.
  - apply Start_inv in Hs as [(e' & _ & -> & ->)|(os & ? & _)]; [|done]. right.
    destruct rt as [fresh cancelled tasks]. eapply (lost_other g g (MkRuntime fresh cancelled tasks)); [done|done|done|by left].
  - destruct (decide (i = j)) as [->|Hij].
    + left. rewrite set_task_lookup, decide_True by done. by rewrite decide_True by exact (lookup_lt_Some _ _ _ Hj).
    + right. split; [|done]. split; [|done]. exists offsets. cbn [snd]. by rewrite set_task_lookup, decide_False.
  - right. apply Reconnect_inv in E as [(_ & -> & Hcan & _)|(_ & Hfr & Ht & Hcn & Hcan & _)].
    + split; [split; [by exists offsets|done]|]. split; [done|]. intros n Hn. apply Hc. cbn in Hn. congruence.
    + split; [|split].
      * split; [exists offsets; cbn; rewrite Ht; by apply lookup_app_l_Some|]. cbn. unfold ctx_done. rewrite Hcn.
        intros (n & Hn & Hin)%Exists_exists. destruct (gc_consumerCancel g) as [m|] eqn:Em.
        -- apply elem_of_union in Hin as [->%elem_of_singleton|Hin]; [by apply (Hc m)|]. apply Hd, Exists_exists. eauto.
        -- apply Hd, Exists_exists. eauto.
      * cbn. intros n Hn%Hf. lia.
      * cbn. rewrite Hcan. intros n [= <-] Hn%Hf. lia.
Qed.

(** A receiver whose context the consumer cannot cancel goes on for ever, however
    often the consumer connects again, until it ends by itself. *)
Theorem lost_receiver_is_never_stopped s s' i client ctx
    (Hlost : lost s i client ctx)
    (Hrun : rtc consumer_step s s') :
  rt_tasks s'.2 !! i = Some Stopped \/ lost s' i client ctx.
Proof.
  assert (forall s s', consumer_step s s' -> rt_tasks s.2 !! i = Some Stopped -> rt_tasks s'.2 !! i = Some Stopped) as Hstopped.
  { intros s1 s2 [[g rt j o ctx' table t g' rt' Hj Hctx Hs|g rt j o ctx' table e g' rt' Hj Hctx Hs|g rt j client' offsets' ctx' Hj]|[g rt cfg w err g' cfg' rt' w' Er]] E; cbn [fst snd] in *.
    1-3: rewrite set_task_lookup, decide_False by congruence.
    - by apply Start_inv in Hs as [(e' & ? & _)|(os & _ & _ & _ & _ & ->)].
    - by apply Start_inv in Hs as [(e' & _ & -> & ->)|(os & ? & _)].
    - done.
    - apply Reconnect_inv in Er as [(_ & -> & _)|(_ & _ & Ht & _)]; [done|]. rewrite Ht. by apply lookup_app_l_Some. }
  assert (rt_tasks s.2 !! i = Some Stopped \/ lost s i client ctx) as Hs by by right. clear Hlost.
  induction Hrun as [|s1 s2 s3 Hstep _ IH]; [done|]. apply IH. destruct Hs as [Hs|Hs]; [left; by eapply Hstopped|by eapply lost_step].
Qed.
End Receivers.
