(* ===== verification/TransportSample.v ===== *)
(** * Runs of the transport controller

    A server of maps, a text format for credentials and an SDK whose endpoints are
    texts, on which the properties of the transport are instantiated. *)

From stdpp Require Import prelude gmap strings list relations.
From Stdlib Require Import ZArith Lia Ascii.
From S2P Require Import Prelude.
From S2P Require Import Base64.
From S2P Require Import KubeClient.
From S2P Require Import KafkaAccess.
From S2P Require Import Credentials.
From S2P Require Import TransportClients.
From S2P Require Import TransportFacts.
From S2P Require Import TransportController.
From S2P Require Import Receivers.
Local Open Scope string_scope.
Local Open Scope list_scope.

(** ** Texts of credentials: the fields, each up to a comma *)
Definition comma : ascii := ascii_of_nat 44.
Definition backslash : ascii := ascii_of_nat 92.
Fixpoint put_field (s rest : string) : string :=
  match s with
  | EmptyString => String comma rest
  | String c s =>
      if Ascii.eqb c comma || Ascii.eqb c backslash then String backslash (String c (put_field s rest))
      else String c (put_field s rest)
  end.
Definition before (c : ascii) (r : option (string * string)) : option (string * string) :=
  match r with Some (s, rest) => Some (String c s, rest) | None => None end.
Fixpoint get_field (s : string) : option (string * string) :=
  match s with
  | EmptyString => None
  | String c s =>
      if Ascii.eqb c backslash then match s with String d s => before d (get_field s) | EmptyString => None end
      else if Ascii.eqb c comma then Some ("", s)
      else before c (get_field s)
  end.
Lemma get_put_field s rest : get_field (put_field s rest) = Some (s, rest).
Proof.
  induction s as [|c s IH]; [done|]. cbn [put_field]. destruct (Ascii.eqb_spec c comma) as [->|Hc]; cbn [orb].
  { change (get_field (String backslash (String comma (put_field s rest)))) with (before comma (get_field (put_field s rest))). by rewrite IH. }
  destruct (Ascii.eqb_spec c backslash) as [->|Hb].
  { change (get_field (String backslash (String backslash (put_field s rest)))) with (before backslash (get_field (put_field s rest))).
    by rewrite IH. }
  cbn [get_field]. apply Ascii.eqb_neq in Hc, Hb. by rewrite Hb, Hc, IH.
Qed.
Fixpoint put_fields (l : list string) : string := match l with [] => "" | s :: l => put_field s (put_fields l) end.
Fixpoint get_fields (n : nat) (s : string) : option (list string) :=
  match n with
  | 0 => Some []
  | S n => match get_field s with Some (f, rest) => cons f <$> get_fields n rest | None => None end
  end.
Lemma get_put_fields l : get_fields (length l) (put_fields l) = Some l.
Proof. induction l as [|s l IH]; [done|]. cbn [put_fields get_fields length]. by rewrite get_put_field, IH. Qed.

Definition fields (k : KafkaConfig) : list string :=
  [kf_BootstrapServer k; kf_StatusTopic k; kf_SpecTopic k; kf_ClusterID k; kf_CACert k; kf_ClientCert k; kf_ClientKey k;
   kf_CASecretName k; kf_ClientSecretName k; if kf_IsNewKafkaCluster k then "true" else ""].
Definition of_fields (l : list string) : result KafkaConfig :=
  match l with
  | [a; b; c; d; e; f; g; h; i; j] => Ok (MkKafkaConfig a b c d e f g h i (String.eqb j "true"))
  | _ => Err "yaml"
  end.
#[export] Instance texts : Yaml KafkaConfig := {|
  yaml_Marshal k := Ok (put_fields (fields k));
  yaml_Unmarshal s := match get_fields 10 s with Some l => of_fields l | None => Err "yaml" end;
|}.
#[export] Instance texts_laws : YamlLaws KafkaConfig.
Proof.
  constructor. intros k s [= <-]. cbn [yaml_Unmarshal texts].
  change 10 with (length (fields k)). rewrite get_put_fields. destruct k as [? ? ? ? ? ? ? ? ? []]; done.
Qed.
#[export] Instance rest_texts : Yaml RestfulConfig := {| yaml_Marshal k := Ok (rf_Host k); yaml_Unmarshal s := Ok (MkRestfulConfig s "" "" "" "" "") |}.

#[export] Instance plain_setter : ConfigSetter := {| SetKey key v m := Ok (<[key := v]> m) |}.
#[export] Instance plain_setter_laws : ConfigSetterLaws.
Proof. by constructor. Qed.

(** ** An SDK *)
Definition sample_world : Type := kstore (K := conn_kind).
Definition server_of (m : ConfigMap) : string := match m !! "bootstrap.servers" with Some (CText s) => s | _ => "" end.
(** A server that is down refuses its clients. *)
Definition endpoint (m : ConfigMap) (topic : string) : result string :=
  if String.eqb (server_of m) "down" then Err "no brokers" else Ok (topic +:+ "@" +:+ server_of m).
#[export] Instance sdk : Connections sample_world string string := {|
  kafka_receiver m l w := (endpoint m (default "" (head l)), w);
  kafka_sender m topic w := (endpoint m topic, w);
  sender_Events _ w := (None, w);
  gochan_New w := ("chan", w);
  NewClient e w := (Ok ("client of " +:+ e), w);
  is_closer _ := true;
  Close _ w := (None, w);
|}.
#[export] Instance http : HttpLibrary string string string := {|
  X509KeyPair cert key := if String.eqb cert "" then Err "no certificate" else Ok (cert +:+ key);
  CertsFromPEM s := if String.eqb s "" then None else Some s;
  NewHttpClient h _ _ := Ok h;
|}.

Module Sample.
Definition kafka : strimziTransporter := MkStrimzi "kafka" "hub" 3.
Definition conf : TransportConfig := MkTransportConfig StrimziTransporter false false "gh-spec" "gh-status.*".
Definition cluster : KafkaCluster :=
  MkKafkaCluster ("hub", "kafka") "uid" ∅ ∅ None
    (Some (MkClusterState (Some "id") (Some [MkCondition (Some "Ready") (Some "True") None None])
       [MkListener (Some "server:443") ["cluster ca"]])).
Definition user_secret : Secret := MkSecret ("hub", "global-hub-kafka-user") ∅ None ∅ (<["user.crt" := "user cert"]> {["user.key" := "user key"]}).
Definition manager_pod : Pod := MkPod ("hub", "manager-1") {["name" := "multicluster-global-hub-manager"]}.
Definition operator_world : sample_world := fun k =>
  match k with
  | CSecret => {[sc_Key user_secret := user_secret]}
  | CKafka => {[kk_Key cluster := cluster]}
  | CRoute | CUser | CTopic | CVolume | CSubscription | CServiceVersion => ∅
  | CPod => {[pd_Key manager_pod := manager_pod]}
  end.
Definition ok {A} (d : A) (o : outcome (result A)) : A := match o with Ret (Ok a) => a | _ => d end.
Definition no_conn : KafkaConfig := MkKafkaConfig "" "" "" "" "" "" "" "" "" false.
Definition manager_conn : KafkaConfig := ok no_conn (getManagerTransportConn kafka conf DefaultGlobalHubKafkaUserName operator_world).
Definition manager_text : string := match YamlMarshal true manager_conn with Ok s => s | Err _ => "" end.
Definition manager_secret : Secret := MkSecret ("hub", "transport-config") ∅ None ∅ {["kafka.yaml" := manager_text]}.

Lemma manager_reads_what_the_operator_wrote_witness :
  getManagerTransportConn kafka conf DefaultGlobalHubKafkaUserName operator_world = Ret (Ok manager_conn) /\
  exists cert key, GetKafkaCredentailBySecret manager_secret operator_world =
    Ok (MkKafkaConfig "server:443" "^gh-status.*" "gh-spec" "id" "cluster ca" cert key "" "" false).
Proof.
  assert (getManagerTransportConn kafka conf DefaultGlobalHubKafkaUserName operator_world = Ret (Ok manager_conn)) as E by (vm_compute; reflexivity).
  split; [exact E|].
  assert (YamlMarshal true manager_conn = Ok manager_text) as Et by (vm_compute; reflexivity).
  assert (sc_Data manager_secret !! "kafka.yaml" = Some manager_text) as Es by (vm_compute; reflexivity).
  destruct (manager_reads_what_the_operator_wrote kafka conf operator_world operator_world DefaultGlobalHubKafkaUserName
    manager_conn manager_text manager_secret E Et Es) as (kc & b & cert & us & [Hk (st & cs & rd & l & ls & certs & Hst & _ & _ & _ & _ & Hl & Hb & Hc)] & _ & R).
  assert (kobjects operator_world CKafka !! (kafkaClusterNamespace kafka, kafkaClusterName kafka) = Some (cluster : kobj CKafka)) as Hk'
    by (vm_compute; reflexivity).
  rewrite Hk' in Hk. injection Hk as <-. injection Hst as <-. injection Hl as <- _. injection Hb as <-. injection Hc as <- _.
  exists (data us "user.crt"), (data us "user.key"). exact R.
Defined.

(** An agent of [hub1]. *)
Definition nothing : Transporter sample_world := byo_transporter conf.
Definition no_manifests : TransportManifests := MkManifests "" "" "" "" "" "".
Definition agent_run : outcome (result TransportManifests * sample_world) :=
  setTransportConfigs nothing (strimzi_GetConnCredential kafka conf (MkFlags true false)) conf "hub" "hub1" no_manifests operator_world.
Definition manifests : TransportManifests := match agent_run with Ret (Ok m, _) => m | _ => no_manifests end.
Lemma agent_runs : match agent_run with Ret (Ok _, _) => true | _ => false end = true ->
  exists w', agent_run = Ret (Ok manifests, w').
Proof. unfold manifests. destruct agent_run as [[[m|] w']| | |]; try done. by exists w'. Qed.
Definition applied_data (s : string) : string := match DecodeString s with Ok t => t | Err _ => "" end.
Definition agent_secret : Secret := MkSecret ("agent", "transport-config") ∅ None ∅ {["kafka.yaml" := applied_data (mf_KafkaConfigYaml manifests)]}.
Definition agent_ca : Secret :=
  MkSecret ("agent", mf_KafkaClusterCASecret manifests) ∅ None ∅ {["ca.crt" := applied_data (mf_KafkaClusterCACert manifests)]}.
Definition agent_cert : Secret := MkSecret ("agent", AgentCertificateSecretName) ∅ None ∅ (<["tls.crt" := "hub1 cert"]> {["tls.key" := "hub1 key"]}).
Definition agent_world : sample_world := fun k =>
  match k with
  | CSecret => <[sc_Key agent_secret := agent_secret]> (<[sc_Key agent_ca := agent_ca]> {[sc_Key agent_cert := agent_cert]})
  | _ => ∅
  end.

Lemma agent_reads_what_the_operator_wrote_witness :
  exists server id cert, GetKafkaCredentailBySecret agent_secret agent_world =
    Ok (MkKafkaConfig server "gh-status.hub1" "gh-spec" id cert "hub1 cert" "hub1 key" "kafka-cluster-ca-cert" AgentCertificateSecretName false).
Proof.
  destruct agent_runs as [w' E]; [vm_compute; reflexivity|].
  assert (applied (mf_KafkaConfigYaml manifests) (sc_Data agent_secret !! "kafka.yaml")) as H1
    by (exists (applied_data (mf_KafkaConfigYaml manifests)); split; vm_compute; reflexivity).
  assert (kobjects agent_world CSecret !! ((sc_Key agent_secret).1, mf_KafkaClusterCASecret manifests) = Some (agent_ca : kobj CSecret)) as H2
    by (vm_compute; reflexivity).
  assert (applied (mf_KafkaClusterCACert manifests) (sc_Data agent_ca !! "ca.crt")) as H3
    by (exists (applied_data (mf_KafkaClusterCACert manifests)); split; vm_compute; reflexivity).
  assert (kobjects agent_world CSecret !! ((sc_Key agent_secret).1, AgentCertificateSecretName) = Some (agent_cert : kobj CSecret)) as H4
    by (vm_compute; reflexivity).
  assert (data agent_cert "tls.crt" <> "" /\ data agent_cert "tls.key" <> "") as H5 by (split; vm_compute; discriminate).
  destruct (agent_reads_what_the_operator_wrote kafka conf nothing (MkFlags true false) "hub" "hub1" no_manifests operator_world w'
    manifests agent_world agent_secret agent_ca agent_cert kstore_responsive (conj eq_refl eq_refl) E H1 H2 H3 H4 H5)
    as (kc & b & cert & _ & R).
  exists b, (kafka_cluster_id kc), cert. exact R.
Defined.

(** A cluster that is given. *)
Definition given : Secret := MkSecret ("hub", GHTransportSecretName) ∅ None ∅
  (<["bootstrap_server" := "given:9093"]> (<["ca.crt" := "ca"]> (<["client.crt" := "cert"]> {["client.key" := "key"]}))).
Definition given_conf : TransportConfig := MkTransportConfig SecretTransporter true false "gh-spec" "gh-status".
Definition given_world : sample_world := fun k => match k with CSecret => {[sc_Key given := given]} | _ => ∅ end.
Definition given_conn : KafkaConfig := ok no_conn (byo_GetConnCredential given_conf "hub" GHTransportSecretName given_world).
Definition given_text : string := match YamlMarshal true given_conn with Ok s => s | Err _ => "" end.
Definition given_secret : Secret := MkSecret ("agent", "transport-config") ∅ None ∅ {["kafka.yaml" := given_text]}.

Lemma given_cluster_is_read_by_all_witness :
  exists us, GetKafkaCredentailBySecret given_secret agent_world =
    Ok (MkKafkaConfig (data us "bootstrap_server") "gh-status" "gh-spec" (data us "bootstrap_server") (data us "ca.crt")
         (data us "client.crt") (data us "client.key") "" "" false).
Proof.
  assert (byo_GetConnCredential given_conf "hub" GHTransportSecretName given_world = Ret (Ok given_conn)) as E by (vm_compute; reflexivity).
  assert (YamlMarshal true given_conn = Ok given_text) as Et by (vm_compute; reflexivity).
  assert (sc_Data given_secret !! "kafka.yaml" = Some given_text) as Es by (vm_compute; reflexivity).
  destruct (given_cluster_is_read_by_all given_conf given_world agent_world "hub" GHTransportSecretName given_conn given_text given_secret E Et Es)
    as (us & _ & R). exists us. exact R.
Defined.

Lemma settings_follow_the_credential_witness :
  exists m, GetConfluentConfigMapByKafkaCredential manager_conn "" = Ok m /\ m !! "bootstrap.servers" = Some (CText "server:443").
Proof.
  destruct (settings_follow_the_credential manager_conn "") as (m & E & B & _). exists m. split; [exact E|exact B].
Defined.

(** ** The manager *)
Definition storage : PostgresConnection := MkPostgres "uri" "ro" "ca".

Lemma manager_restarts_when_a_connection_changes_witness :
  exists w', restart_on_change "hub" (Some manager_conn) (Some storage) true (None, None) operator_world =
    (Proceeds, (Some manager_conn, Some storage), w') /\
  forall n, ~ runs_pod w' "hub" "multicluster-global-hub-manager" n.
Proof.
  destruct (restart_on_change "hub" (Some manager_conn) (Some storage) true (None, None) operator_world) as [[step cache'] w'] eqn:E.
  assert (step = Proceeds) as Hs by (change step with (step, cache', w').1.1; rewrite <- E; vm_compute; reflexivity).
  assert (kf_BootstrapServer manager_conn <> "") as Hb by (vm_compute; discriminate).
  destruct (manager_restarts_when_a_connection_changes "hub" manager_conn storage (None, None) operator_world w' step cache' Hb E)
    as (_ & Hc & _ & Hn & _); [by rewrite Hs|]. exists w'. rewrite Hs, Hc. split; [done|]. apply Hn. by rewrite Hc.
Defined.

(** A server that does not answer. *)
#[local] Instance away : KubeClient unit conn_kind := {|
  kget _ k _ := Broken "no answer"; klist _ k := Err "no answer"; kcreate w k _ := (Refused "no answer", w);
  kupdate w k _ := (Refused "no answer", w); kdelete w k _ := (Refused "no answer", w);
|}.
Lemma failed_restart_is_forgotten_witness :
  exists e cache', restart_on_change "hub" (Some manager_conn) (Some storage) true (None, None) tt = (RestartFailed e, cache', tt) /\
  restart_on_change "hub" (Some manager_conn) (Some storage) true cache' tt = (Proceeds, cache', tt).
Proof.
  assert (restart_on_change "hub" (Some manager_conn) (Some storage) true (None, None) tt =
    (RestartFailed "no answer", (Some manager_conn, Some storage), tt)) as E by (vm_compute; reflexivity).
  exists "no answer", (Some manager_conn, Some storage). split; [exact E|].
  exact (failed_restart_is_forgotten "hub" (Some manager_conn) (Some storage) true (None, None) tt tt tt _ _ E).
Defined.

(** ** The controller *)
Definition start_config : TransportInternalConfig string := MkInternalConfig "" true false "global-hub" None None None 10.
Definition new_ctrl := NewTransportCtrl (Client := string) (KeyPair := string) (CertPool := string) (Http := string) "hub" "transport-config" start_config.
Definition idle : runtime string := MkRuntime 0 ∅ [].
Definition with_secret (s : Secret) : sample_world := fun k => match k with CSecret => {[sc_Key s := s]} | _ => ∅ end.
Definition first_env := MkEnv new_ctrl idle (with_secret manager_secret).
(** The credential of the manager as it is read. *)
Definition read_conn : KafkaConfig :=
  match GetKafkaCredentailBySecret manager_secret (with_secret manager_secret) with Ok k => k | Err _ => no_conn end.
Notation clients := (TransportClient (Endpoint := string) (Client := string) (KeyPair := string) (CertPool := string) (Http := string)).
Definition ready : option (clients -> sample_world -> option goerror * sample_world) := Some (fun _ w => (None, w)).
Definition failing : option (clients -> sample_world -> option goerror * sample_world) := Some (fun _ w => (Some "no controller", w)).
Definition env_of {A} (d : A) (r : outcome (option goerror * A)) : A := match r with Ret (_, e) => e | _ => d end.
Definition answers {A} (err : option goerror) (r : outcome (option goerror * A)) : bool :=
  match r with Ret (err', _) => bool_decide (err' = err) | _ => false end.
Lemma answers_Ret {A} err (d : A) r : answers err r = true -> r = Ret (err, env_of d r).
Proof. destruct r as [[err' e]| | |]; try done. cbn. by intros ->%bool_decide_eq_true. Qed.

Lemma first_reads : reads first_env manager_secret read_conn.
Proof.
  split; [vm_compute; reflexivity|]. split; [by eexists|]. split; [vm_compute; reflexivity|]. split; [vm_compute; reflexivity|].
  left. vm_compute. reflexivity.
Defined.
Lemma first_new : stored first_env <> Some read_conn.
Proof. done. Defined.

Definition served := env_of first_env (Reconcile ready [] first_env).
Definition unserved := env_of first_env (Reconcile failing [] first_env).

Lemma update_reaches_the_callback_witness :
  Reconcile ready [] first_env = Ret (None, served) /\
  clients_for (W := sample_world) (ct_transportConfig (en_ctrl served)) read_conn (ct_transportClient (en_ctrl served)).
Proof.
  assert (Reconcile ready [] first_env = Ret (None, served)) as E by (apply answers_Ret; vm_compute; reflexivity). split; [exact E|].
  destruct (update_reaches_the_callback ready [] first_env served manager_secret read_conn first_reads first_new E) as (_ & Hc & _). exact Hc.
Defined.

Lemma served_reads (c : TransportCtrl (Endpoint := string) (Client := string) (KeyPair := string) (CertPool := string) (Http := string)) : ct_secretNamespace c = "hub" -> ct_secretName c = "transport-config" ->
  reads (MkEnv c idle (with_secret manager_secret)) manager_secret read_conn.
Proof. intros E1 E2. unfold reads. cbn [en_ctrl en_world]. rewrite E1, E2. exact first_reads. Qed.

Lemma failed_update_is_forgotten_witness :
  exists e1 c2, Reconcile failing [] first_env = Ret (Some "failed to invoke the callback function: no controller", e1) /\
    Reconcile failing [] (MkEnv (en_ctrl e1) idle (with_secret manager_secret)) = Ret (None, MkEnv c2 idle (with_secret manager_secret)).
Proof.
  exists unserved.
  assert (Reconcile failing [] first_env = Ret (Some "failed to invoke the callback function: no controller", unserved)) as E
    by (apply answers_Ret; vm_compute; reflexivity).
  assert (ct_secretNamespace (en_ctrl unserved) = "hub" /\ ct_secretName (en_ctrl unserved) = "transport-config") as [E1 E2] by (split; vm_compute; reflexivity).
  destruct (failed_update_is_forgotten failing [] first_env _ unserved manager_secret read_conn first_reads first_new E [] idle
    (with_secret manager_secret) (served_reads _ E1 E2)) as (c2 & E' & _).
  exists c2. split; [exact E|exact E'].
Defined.

Lemma clients_follow_the_credential_witness :
  successful ready (en_ctrl served) /\
  clients_for (W := sample_world) (ct_transportConfig (en_ctrl served)) read_conn (ct_transportClient (en_ctrl served)).
Proof.
  assert (Reconcile ready [] first_env = Ret (None, served)) as E by (apply answers_Ret; vm_compute; reflexivity).
  assert (successful ready (en_ctrl served)) as Hs.
  { apply (successful_next ready new_ctrl [] idle (with_secret manager_secret)); [by apply successful_new|exact E]. }
  split; [exact Hs|]. apply (clients_follow_the_credential ready _ _ Hs). vm_compute. reflexivity.
Defined.

Lemma watch_list_grows_for_ever_witness :
  exists c', reconcile_times 100 ready [] (MkEnv (en_ctrl served) idle (with_secret manager_secret)) = Ret (None, MkEnv c' idle (with_secret manager_secret)) /\
    100 <= length (ct_extraSecretNames c').
Proof.
  assert (ct_secretNamespace (en_ctrl served) = "hub" /\ ct_secretName (en_ctrl served) = "transport-config") as [E1 E2] by (split; vm_compute; reflexivity).
  destruct (watch_list_grows_for_ever ready [] 100 (en_ctrl served) idle (with_secret manager_secret) manager_secret read_conn
    (served_reads _ E1 E2)) as (c' & E & _ & Hl & _).
  - vm_compute. reflexivity.
  - by left.
  - exists c'. split; [exact E|]. lia.
Defined.

Definition old_sender : Sender string string := MkSender (Some "gh-spec@server:443") (Some "client of gh-spec@server:443").
Definition down_config : TransportInternalConfig string :=
  MkInternalConfig Kafka true false "global-hub" (Some (MkKafkaConfig "down" "s" "t" "id" "" "" "" "" "" false)) None None 10.
Lemma failed_reconnect_keeps_the_closed_client_witness :
  exists e p' cfg' w', producer_Reconnect old_sender down_config operator_world = Ret (Some e, p', cfg', w') /\
    gp_ceClient p' = Some "client of gh-spec@server:443".
Proof.
  exists "no brokers", old_sender, down_config, operator_world.
  assert (producer_Reconnect old_sender down_config operator_world = Ret (Some "no brokers", old_sender, down_config, operator_world)) as E
    by reflexivity.
  split; [exact E|].
  exact (failed_reconnect_keeps_the_closed_client old_sender down_config operator_world operator_world operator_world _ _ _ _ eq_refl eq_refl eq_refl E).
Defined.

(** ** Receivers *)
Definition conn_config : TransportInternalConfig string :=
  MkInternalConfig Kafka true false "global-hub" (Some (MkKafkaConfig "server:443" "s" "t" "id" "" "" "" "" "" false)) None None 10.
Definition fresh_consumer : GenericConsumer string := MkConsumer "id" false (Some "client of s@server:443") None None.
Definition begun : consumer_state := (fresh_consumer, spawn (Starting (Some [])) (MkRuntime 0 ∅ [])).
Lemma begun_created : consumer_created (W := sample_world) (Endpoint := string) [] begun.
Proof. apply (consumer_created_new [] conn_config operator_world fresh_consumer conn_config operator_world 0). reflexivity. Qed.

(** The first goroutine starts after a reconnection, then the other one. *)
Definition reconnected : consumer_state :=
  (MkConsumer "id" false (Some "client of s@server:443") (Some [0]) (Some 0), MkRuntime 1 ∅ [Starting (Some []); Starting None]).
Definition first_started : consumer_state :=
  (MkConsumer "id" false (Some "client of s@server:443") (Some [1]) (Some 1),
   MkRuntime 2 ∅ [Receiving (Some "client of s@server:443") [] [1]; Starting None]).
Definition both_started : consumer_state :=
  (MkConsumer "id" false (Some "client of s@server:443") (Some [2; 1]) (Some 2),
   MkRuntime 3 ∅ [Receiving (Some "client of s@server:443") [] [1]; Receiving (Some "client of s@server:443") [] [2; 1]]).

Lemma begun_to_reconnected : reconnect_step (W := sample_world) (Endpoint := string) [] begun reconnected.
Proof. apply (step_reconnect [] _ _ conn_config operator_world None _ conn_config _ operator_world). reflexivity. Qed.
Lemma reconnected_to_first : goroutine_step reconnected first_started.
Proof. apply (step_start _ _ 0 (Some []) [] (Ok []) (Receiving (Some "client of s@server:443") [] [1]) _ (MkRuntime 2 ∅ [Starting (Some []); Starting None])); reflexivity. Qed.
Lemma first_to_both : goroutine_step first_started both_started.
Proof. apply (step_start _ _ 1 None [1] (Ok []) (Receiving (Some "client of s@server:443") [] [2; 1]) _ (MkRuntime 3 ∅ [Receiving (Some "client of s@server:443") [] [1]; Starting None])); reflexivity. Qed.

(** The first receiver is lost when the second has started, and so it stays. *)
Lemma lost_receiver_is_never_stopped_witness :
  rtc (consumer_step (W := sample_world) (Endpoint := string) []) begun both_started /\
  forall s', rtc (consumer_step (W := sample_world) (Endpoint := string) []) both_started s' ->
    rt_tasks s'.2 !! 0 = Some Stopped \/ live s'.2 0 (Some "client of s@server:443") [1].
Proof.
  split.
  - eapply rtc_l; [right; exact begun_to_reconnected|]. eapply rtc_l; [left; exact reconnected_to_first|].
    eapply rtc_l; [left; exact first_to_both|apply rtc_refl].
  - intros s' Hs. assert (lost both_started 0 (Some "client of s@server:443") [1]) as Hl.
    { split; [split; [by eexists|by intros [Hn|Hn%Exists_nil]%Exists_cons; [set_solver|]]|]. split.
      - intros n ->%list_elem_of_singleton. cbn. lia.
      - intros n [= <-] Hn%list_elem_of_singleton. done. }
    destruct (lost_receiver_is_never_stopped (W := sample_world) (Endpoint := string) [] both_started s' 0 _ _ Hl Hs) as [E|(Hlive & _)]; [left; exact E|right; exact Hlive].
Defined.

Definition orderly_started : consumer_state :=
  (MkConsumer "id" false (Some "client of s@server:443") (Some [0]) (Some 0), MkRuntime 1 ∅ [Receiving (Some "client of s@server:443") [] [0]]).
Lemma orderly_consumer_has_one_receiver_witness :
  rtc (orderly_step (W := sample_world) (Endpoint := string) []) begun orderly_started /\
  forall i cl ctx, live orderly_started.2 i cl ctx -> i = 0.
Proof.
  assert (rtc (orderly_step (W := sample_world) (Endpoint := string) []) begun orderly_started) as Hr.
  { eapply rtc_l; [left|apply rtc_refl].
    apply (step_start _ _ 0 (Some []) [] (Ok []) (Receiving (Some "client of s@server:443") [] [0]) _ (MkRuntime 1 ∅ [Starting (Some [])])); reflexivity. }
  split; [exact Hr|]. intros i cl ctx Hi.
  destruct (orderly_consumer_has_one_receiver [] begun orderly_started begun_created Hr) as [Hone _].
  apply (Hone i 0 cl (Some "client of s@server:443") ctx [0] Hi). split; [by eexists|].
  intros Hd. unfold ctx_done in Hd. apply Exists_cons in Hd as [Hd|Hd]; [set_solver|by apply Exists_nil in Hd].
Defined.
End Sample.
