(* ===== verification/Deployer.v ===== *)
(** * Rendered objects and their deployment

    The manifests of the operator are rendered as objects without a Go type and
    applied one by one ([operator/pkg/deployer/hoh_deployer.go],
    [ManipulateGlobalHubObjects] and the other helpers of
    [operator/pkg/utils/utils.go]). An object is its metadata and the JSON of its
    other fields; the comparison of JSON ([DeepDerivative]), the decoding into Go
    types and the REST mapping are those of the Kubernetes libraries. *)

From stdpp Require Import prelude gmap strings list.
From Stdlib Require Import ZArith Ascii.
From S2P Require Import Prelude.
From S2P Require Import GoLib.
From S2P Require Import Base64.
From S2P Require Import KubeClient.
From S2P Require Import KafkaAccess.
From S2P Require Import AgentAddon.

Local Open Scope string_scope.
Local Open Scope list_scope.

(** ** JSON *)
Inductive json :=
| JNull
| JBool (b : bool)
| JNumber (z : Z)
| JString (s : string)
| JArray (l : list json)
| JObject (l : list (string * json)).

Fixpoint jassoc (key : string) (l : list (string * json)) : option json :=
  match l with
  | [] => None
  | (k, v) :: rest => if String.eqb k key then Some v else jassoc key rest
  end.
Definition jdelete (key : string) (l : list (string * json)) : list (string * json) :=
  filter (fun kv => kv.1 <> key) l.
Definition jfields (j : json) : list (string * json) := match j with JObject l => l | _ => [] end.
Definition jstrings (m : gmap string string) : json := JObject ((fun kv => (kv.1, JString kv.2)) <$> map_to_list m).
(** The texts of an object, as a Go map. *)
Definition jtexts (j : json) : gmap string string :=
  list_to_map (omap (fun kv => match kv.2 with JString s => Some (kv.1, s) | _ => None end) (jfields j)).

(** ** Objects without a Go type *)
Record Unstructured := MkUnstructured {
  us_Kind : string * string;                (** version of the API, kind *)
  us_Key : obj_key;
  us_Labels : gmap string string;
  us_Annotations : gmap string string;
  us_Owners : list string;
  us_Version : string;                      (** resource version *)
  us_Fields : list (string * json);         (** what is beside the metadata *)
}.
Inductive dyn_kind := Dyn (kind : string * string).
#[export] Instance dyn_kind_dec : EqDecision dyn_kind.
Proof. solve_decision. Defined.
Definition field (o : Unstructured) (key : string) : json := default JNull (jassoc key (us_Fields o)).
Definition set_field (key : string) (v : json) (o : Unstructured) : Unstructured :=
  MkUnstructured (us_Kind o) (us_Key o) (us_Labels o) (us_Annotations o) (us_Owners o) (us_Version o)
    ((key, v) :: jdelete key (us_Fields o)).

(** What the server stores of an object that is written: the texts of a secret
    become its data, which JSON holds in base64, and replace the entries there. *)
Definition admit_texts (o : Unstructured) (texts : json) : Unstructured :=
  set_field "data" (jstrings ((EncodeToString <$> jtexts texts) ∪ jtexts (field o "data"))) (set_field "stringData" JNull o).
Definition stored (o : Unstructured) : Unstructured :=
  if String.eqb (us_Kind o).2 "Secret" then
    match field o "stringData" with JNull => o | texts => admit_texts o texts end
  else o.
Lemma stored_meta o : us_Kind (stored o) = us_Kind o /\ us_Key (stored o) = us_Key o /\ us_Labels (stored o) = us_Labels o /\
  us_Annotations (stored o) = us_Annotations o.
Proof. unfold stored. destruct (String.eqb _ _); [|done]. by destruct (field o "stringData"). Qed.

#[export] Program Instance dyn_kinds : Kinds dyn_kind := {|
  kobj _ := Unstructured; kname _ := us_Key; obj_mark _ _ := None; obj_keep _ _ := true; obj_admit _ := stored;
|}.
Next Obligation. done. Qed.
Next Obligation. intros k o. apply stored_meta. Qed.

Definition SetResourceVersion (v : string) (o : Unstructured) : Unstructured :=
  MkUnstructured (us_Kind o) (us_Key o) (us_Labels o) (us_Annotations o) (us_Owners o) v (us_Fields o).
Definition SetLabels (l : gmap string string) (o : Unstructured) : Unstructured :=
  MkUnstructured (us_Kind o) (us_Key o) l (us_Annotations o) (us_Owners o) (us_Version o) (us_Fields o).

(** The object as the JSON that is compared when its kind has no function of its own. *)
Definition optional (key value : string) : list (string * json) :=
  if String.eqb value "" then [] else [(key, JString value)].
Definition whole (o : Unstructured) : json :=
  JObject (("apiVersion", JString (us_Kind o).1) :: ("kind", JString (us_Kind o).2)
    :: ("metadata", JObject (("name", JString (us_Key o).2) :: ("namespace", JString (us_Key o).1)
          :: ("labels", jstrings (us_Labels o)) :: ("annotations", jstrings (us_Annotations o))
          :: ("ownerReferences", JArray (JString <$> us_Owners o)) :: optional "resourceVersion" (us_Version o)))
    :: us_Fields o).

Definition with_cluster_ip (desired existing : Unstructured) : Unstructured :=
  set_field "spec"
    (JObject (match jassoc "clusterIP" (jfields (field existing "spec")) with
              | Some ip => ("clusterIP", ip) :: jdelete "clusterIP" (jfields (field desired "spec"))
              | None => jdelete "clusterIP" (jfields (field desired "spec"))
              end)) desired.

(** ** The libraries

    [DeepDerivative]: what is unset on the left is ignored. *)
Class Derivative := { DeepDerivative : json -> json -> bool }.
Class DerivativeLaws `{Derivative} := {
  derivative_refl j : DeepDerivative j j = true;
  derivative_unset j : DeepDerivative JNull j = true;
  derivative_fields l l' :
    NoDup l.*1 ->
    (forall k v, jassoc k l = Some v -> exists v', jassoc k l' = Some v' /\ DeepDerivative v v' = true) ->
    DeepDerivative (JObject l) (JObject l') = true;
  derivative_entries l l' k v :
    DeepDerivative (JObject l) (JObject l') = true -> jassoc k l = Some v ->
    exists v', jassoc k l' = Some v' /\ DeepDerivative v v' = true;
  derivative_text s j : DeepDerivative (JString s) j = true -> s <> "" -> j = JString s;
}.

(** The decoding of an object into the Go type of its kind, and back. *)
Class Typed := { typed : Unstructured -> result Unstructured }.

Definition same_meta (o o' : Unstructured) : Prop :=
  us_Kind o' = us_Kind o /\ us_Key o' = us_Key o /\ us_Labels o' = us_Labels o /\ us_Annotations o' = us_Annotations o.
Class TypedLaws `{Typed} := {
  typed_meta o o' : typed o = Ok o' -> same_meta o o';
  typed_again o o' : typed o = Ok o' -> typed o' = Ok o';
  typed_stored o o' : typed o = Ok o' -> typed (stored o) = Ok (stored o');
  typed_version v o o' : typed o = Ok o' -> typed (SetResourceVersion v o) = Ok (SetResourceVersion v o');
  typed_cluster_ip d e : typed d = Ok d -> typed e = Ok e -> typed (with_cluster_ip d e) = Ok (with_cluster_ip d e);
}.

(** [strings.ToLower] *)
Fixpoint ToLower (s : string) : string :=
  match s with EmptyString => "" | String c s' => String (lower c) (ToLower s') end.

(** ** [hoh_deployer.go] *)
Section Deployer.
Context {W : Type} `{!KubeClient W dyn_kind} `{Derivative} `{Typed}.

Definition update_object (o : Unstructured) (w : W) : option goerror * W :=
  let '(r, w') := kupdate w (Dyn (us_Kind o)) o in (written_err r, w').

(** Whether some field, the labels or the annotations ask for something that is not there. *)
Definition differs (fields : list string) (desired existing : Unstructured) : bool :=
  existsb (fun f => negb (DeepDerivative (field desired f) (field existing f))) fields
  || negb (DeepDerivative (jstrings (us_Labels desired)) (jstrings (us_Labels existing)))
  || negb (DeepDerivative (jstrings (us_Annotations desired)) (jstrings (us_Annotations existing))).

Definition deployDeployment (desiredObj existingObj : Unstructured) (w : W) : option goerror * W :=
  if differs ["spec"] desiredObj existingObj then update_object desiredObj w else (None, w).

(** The existing and the desired object decoded, in this order. *)
Definition with_types (desiredObj existingObj : Unstructured) (w : W)
    (k : Unstructured -> Unstructured -> option goerror * W) : option goerror * W :=
  match typed existingObj with
  | Err e => (Some e, w)
  | Ok existing => match typed desiredObj with Err e => (Some e, w) | Ok desired => k desired existing end
  end.

Definition deployService (desiredObj existingObj : Unstructured) (w : W) : option goerror * W :=
  with_types desiredObj existingObj w (fun desired existing =>
    if differs ["spec"] desired existing then
      update_object (with_cluster_ip (SetResourceVersion (us_Version existing) desired) existing) w
    else (None, w)).

Definition deployPodMonitor (desiredObj existingObj : Unstructured) (w : W) : option goerror * W :=
  with_types desiredObj existingObj w (fun desired existing =>
    if differs ["spec"] desired existing then update_object (SetResourceVersion (us_Version existing) desired) w
    else (None, w)).

Definition deploy_typed (fields : list string) (desiredObj existingObj : Unstructured) (w : W) : option goerror * W :=
  with_types desiredObj existingObj w (fun desired existing =>
    if differs fields desired existing then update_object desired w else (None, w)).

Definition deployServiceAccount := deploy_typed ["secrets"; "imagePullSecrets"].
Definition deployConfigMap := deploy_typed ["data"].
Definition deployRole := deploy_typed ["rules"].
Definition deployRoleBinding := deploy_typed ["subjects"; "roleRef"].
Definition deployClusterRole := deploy_typed ["rules"; "aggregationRule"].
Definition deployClusterRoleBinding := deploy_typed ["subjects"; "roleRef"].

(** The data of a secret as texts: JSON holds it in base64. *)
Definition text_data (existing : Unstructured) : json :=
  jstrings ((fun v => match DecodeString v with Ok s => s | Err _ => "" end) <$> jtexts (field existing "data")).
Definition secret_differs (desired existing : Unstructured) : bool :=
  negb (DeepDerivative (field desired "stringData") (text_data existing)) || differs ["data"] desired existing.
Definition deploySecret (desiredObj existingObj : Unstructured) (w : W) : option goerror * W :=
  with_types desiredObj existingObj w (fun desired existing =>
    if secret_differs desired existing then update_object desired w else (None, w)).

(** The kinds that have a function of their own. *)
Definition deployFuncs (kind : string) : option (Unstructured -> Unstructured -> W -> option goerror * W) :=
  if String.eqb kind "Deployment" then Some deployDeployment
  else if String.eqb kind "StatefulSet" then Some deployDeployment
  else if String.eqb kind "Service" then Some deployService
  else if String.eqb kind "ServiceAccount" then Some deployServiceAccount
  else if String.eqb kind "ConfigMap" then Some deployConfigMap
  else if String.eqb kind "Secret" then Some deploySecret
  else if String.eqb kind "Role" then Some deployRole
  else if String.eqb kind "RoleBinding" then Some deployRoleBinding
  else if String.eqb kind "ClusterRole" then Some deployClusterRole
  else if String.eqb kind "ClusterRoleBinding" then Some deployClusterRoleBinding
  else if String.eqb kind "PodMonitor" then Some deployPodMonitor
  else None.

Definition skips (o : Unstructured) : bool :=
  match us_Annotations o !! "skip-creation-if-exist" with Some v => String.eqb (ToLower v) "true" | None => false end.

(** The object that is found has the kind that was asked for. *)
Definition deploy_found (unsObj foundObj : Unstructured) (w : W) : option goerror * W :=
  if skips unsObj then (None, w)
  else
    match deployFuncs (us_Kind unsObj).2 with
    | Some deployFunction => deployFunction unsObj foundObj w
    | None =>
        if negb (DeepDerivative (whole unsObj) (whole foundObj)) then
          update_object (SetResourceVersion (us_Version foundObj) unsObj) w
        else (None, w)
    end.
Definition Deploy (unsObj : Unstructured) (w : W) : option goerror * W :=
  match kget w (Dyn (us_Kind unsObj)) (us_Key unsObj) with
  | Missing => let '(r, w') := kcreate w (Dyn (us_Kind unsObj)) unsObj in (written_err r, w')
  | Broken e => (Some e, w)
  | Found foundObj => deploy_found unsObj foundObj w
  end.
End Deployer.

(** ** [ManipulateGlobalHubObjects] *)
Class RestMapper := {
  RESTMapping : string * string -> result bool;                      (** whether the kind has a namespace *)
  SetControllerReference : string -> Unstructured -> result Unstructured;
}.
Class RestMapperLaws `{RestMapper} := {
  controller_meta owner o o' : SetControllerReference owner o = Ok o' ->
    us_Kind o' = us_Kind o /\ us_Key o' = us_Key o /\ us_Labels o' = us_Labels o /\
    us_Annotations o' = us_Annotations o /\ us_Version o' = us_Version o /\ us_Fields o' = us_Fields o;
}.
Section Manipulate.
Context {W : Type} `{!KubeClient W dyn_kind} `{Derivative} `{Typed} `{RestMapper}.

Definition owned (owner : string) (obj : Unstructured) : result Unstructured :=
  let? namespaced := RESTMapping (us_Kind obj) in
  let? obj := if namespaced then SetControllerReference owner obj else Ok obj in
  Ok (SetLabels (<[GlobalHubOwnerLabelKey := GHOperatorOwnerLabelVal]> (us_Labels obj)) obj).

Fixpoint ManipulateGlobalHubObjects (objects : list Unstructured) (owner : string) (w : W) : option goerror * W :=
  match objects with
  | [] => (None, w)
  | obj :: rest =>
      match owned owner obj with
      | Err e => (Some e, w)
      | Ok obj' =>
          match Deploy obj' w with
          | (Some e, w') => (Some e, w')
          | (None, w') => ManipulateGlobalHubObjects rest owner w'
          end
      end
  end.
End Manipulate.

(** ** Other helpers of [utils.go] *)
Section Helpers.
Context {W : Type} `{!KubeClient W dyn_kind}.

(** [ApplyConfigMap] and [ApplySecret] are the same code on two types: whether it
    wrote, and the error. Data that is missing is nil, and not the empty map. *)
Definition string_data (o : Unstructured) : option (gmap string string) :=
  match field o "data" with JNull => None | j => Some (jtexts j) end.
Definition set_data (required current : Unstructured) : Unstructured :=
  match field required "data" with
  | JNull => MkUnstructured (us_Kind current) (us_Key current) (us_Labels current) (us_Annotations current) (us_Owners current)
               (us_Version current) (jdelete "data" (us_Fields current))
  | j => set_field "data" j current
  end.
Definition apply_data (required : Unstructured) (w : W) : bool * option goerror * W :=
  match kget w (Dyn (us_Kind required)) (us_Key required) with
  | Missing =>
      match kcreate w (Dyn (us_Kind required)) required with
      | (Done, w') => (true, None, w')
      | (r, w') => (false, Some ("failed to create: " +:+ default "" (written_err r)), w')
      end
  | Broken _ => (false, None, w)
  | Found current =>
      if bool_decide (string_data current = string_data required) then (false, None, w)
      else
        match kupdate w (Dyn (us_Kind required)) (set_data required current) with
        | (Done, w') => (true, None, w')
        | (r, w') => (false, Some ("failed to update: " +:+ default "" (written_err r)), w')
        end
  end.
Definition ApplyConfigMap : Unstructured -> W -> bool * option goerror * W := apply_data.
Definition ApplySecret : Unstructured -> W -> bool * option goerror * W := apply_data.

(** [client.MatchingLabels] *)
Definition matches (selector labels : gmap string string) : bool := bool_decide (map_Forall (fun k v => labels !! k = Some v) selector).

Definition delete_all (kind : string * string) : list obj_key -> W -> option goerror * W := delete_each (Dyn kind).
Definition matching_keys (selector : gmap string string) (l : list Unstructured) : list obj_key :=
  us_Key <$> filter (fun o => matches selector (us_Labels o) = true) l.

(** The kinds of the monitoring: one that cannot be listed ends the pruning
    without an error. *)
Fixpoint prune_monitors (kinds : list (string * string)) (metricsLabel : gmap string string) (w : W) : option goerror * W :=
  match kinds with
  | [] => (None, w)
  | kind :: rest =>
      match klist w (Dyn kind) with
      | Err _ => (None, w)
      | Ok l =>
          match delete_all kind (matching_keys metricsLabel l) w with
          | (Some e, w') => (Some e, w')
          | (None, w') => prune_monitors rest metricsLabel w'
          end
      end
  end.
Definition configmap_kind : string * string := ("v1", "ConfigMap").
Definition monitor_kinds : list (string * string) :=
  (fun k => ("monitoring.coreos.com/v1", k)) <$> ["ServiceMonitor"; "PodMonitor"; "PrometheusRule"].
Definition PruneMetricsResources (metricsLabel : gmap string string) (w : W) : option goerror * W :=
  match klist w (Dyn configmap_kind) with
  | Err e => (Some e, w)
  | Ok l =>
      match delete_all configmap_kind (matching_keys metricsLabel l) w with
      | (Some e, w') => (Some e, w')
      | (None, w') => prune_monitors monitor_kinds metricsLabel w'
      end
  end.
End Helpers.

(** ** What a deployment leaves

    Objects that were applied without an error are there with the label of their
    owner, no other object is touched, and applying them again writes nothing.
    What the manifests no longer ask for stays. *)

(** ** Fields of JSON *)
Lemma jassoc_elem k v l : jassoc k l = Some v -> (k, v) ∈ l.
Proof.
  induction l as [|[k' v'] l IH]; cbn; [done|]. destruct (String.eqb_spec k' k) as [->|Hne].
  - intros [= ->]. left.
  - intros E. right. by apply IH.
Qed.
Lemma elem_jassoc k v l : NoDup l.*1 -> (k, v) ∈ l -> jassoc k l = Some v.
Proof.
  induction l as [|[k' v'] l IH]; cbn; [by intros _ ?%not_elem_of_nil|]. intros [Hk Hn]%NoDup_cons.
  intros [[= -> ->]|Hin]%elem_of_cons; [by rewrite String.eqb_refl|].
  destruct (String.eqb_spec k' k) as [->|Hne]; [|by apply IH].
  destruct Hk. apply list_elem_of_fmap. by exists (k, v).
Qed.
Lemma jassoc_delete_ne k k' l : k' <> k -> jassoc k' (jdelete k l) = jassoc k' l.
Proof.
  intros Hne. induction l as [|[i v] l IH]; [done|]. unfold jdelete. rewrite filter_cons. cbn.
  destruct (decide (i <> k)) as [Hi|Hi]; cbn.
  - destruct (String.eqb_spec i k'); [done|]. apply IH.
  - destruct (String.eqb_spec i k') as [->|_]; [|apply IH]. by apply dec_stable in Hi as ->.
Qed.

Lemma jstrings_lookup m k : jassoc k (jfields (jstrings m)) = JString <$> m !! k.
Proof.
  unfold jstrings. cbn [jfields].
  assert (((fun kv => (kv.1, JString kv.2)) <$> map_to_list m).*1 = (map_to_list m).*1) as Hf.
  { rewrite <- list_fmap_compose. done. }
  destruct (m !! k) as [s|] eqn:E; cbn.
  - apply elem_jassoc; [rewrite Hf; apply NoDup_fst_map_to_list|].
    apply list_elem_of_fmap. exists (k, s). split; [done|]. by apply elem_of_map_to_list.
  - destruct (jassoc _ _) as [v|] eqn:J; [|done]. apply jassoc_elem, list_elem_of_fmap in J as ([k' s] & [= -> ->] & Hin).
    apply elem_of_map_to_list in Hin. congruence.
Qed.
Lemma jstrings_NoDup m : NoDup (jfields (jstrings m)).*1.
Proof. unfold jstrings. cbn [jfields]. rewrite <- list_fmap_compose. apply NoDup_fst_map_to_list. Qed.

Section Derivative.
Context `{DerivativeLaws}.

Lemma derivative_strings m m' : m ⊆ m' -> DeepDerivative (jstrings m) (jstrings m') = true.
Proof.
  intros Hs. apply derivative_fields; [apply jstrings_NoDup|]. intros k v Hv.
  change (jassoc k (jfields (jstrings m)) = Some v) in Hv. rewrite jstrings_lookup in Hv.
  destruct (m !! k) as [s|] eqn:E; [|done]. cbn in Hv. injection Hv as <-. exists (JString s). split; [|apply derivative_refl].
  change (jassoc k (jfields (jstrings m')) = Some (JString s)). rewrite jstrings_lookup.
  by rewrite (lookup_weaken _ _ _ _ E Hs).
Qed.
Lemma strings_derivative m m' k s : DeepDerivative (jstrings m) (jstrings m') = true ->
  m !! k = Some s -> s <> "" -> m' !! k = Some s.
Proof.
  intros Hd E Hs. destruct (derivative_entries _ _ k (JString s) Hd) as (v' & Hv & Ht).
  { change (jassoc k (jfields (jstrings m)) = Some (JString s)). by rewrite jstrings_lookup, E. }
  apply derivative_text in Ht as ->; [|done].
  change (jassoc k (jfields (jstrings m')) = Some (JString s)) in Hv. rewrite jstrings_lookup in Hv.
  destruct (m' !! k); [|done]. cbn in Hv. congruence.
Qed.

Lemma differs_same fields o o' :
  (forall f, f ∈ fields -> DeepDerivative (field o f) (field o' f) = true) ->
  us_Labels o ⊆ us_Labels o' -> us_Annotations o ⊆ us_Annotations o' -> differs fields o o' = false.
Proof.
  intros Hf Hl Ha. unfold differs. rewrite !derivative_strings by done. cbn. rewrite !orb_false_r.
  apply not_true_is_false. intros (f & Hin & Hn)%existsb_exists. rewrite Hf in Hn by (by apply list_elem_of_In). done.
Qed.
Lemma differs_refl fields o : differs fields o o = false.
Proof. apply differs_same; [|done..]. intros. apply derivative_refl. Qed.
Lemma differs_labels fields o o' k s : differs fields o o' = false -> us_Labels o !! k = Some s -> s <> "" ->
  us_Labels o' !! k = Some s.
Proof.
  unfold differs. intros [[_ Hl]%orb_false_iff _]%orb_false_iff. apply negb_false_iff in Hl. by apply strings_derivative.
Qed.
End Derivative.

(** ** One object *)
Section Deploys.
Context {W : Type} `{!KubeClient W dyn_kind} `{!KubeServer W dyn_kind} `{DerivativeLaws} `{TypedLaws}.
Notation deploy_fn := (Unstructured -> Unstructured -> W -> option goerror * W).
Notation id_of o := (Dyn (us_Kind o), us_Key o).

(** The objects of a world other than one. *)
Definition others_stay (ids : list (dyn_kind * obj_key)) (w w' : W) : Prop :=
  forall k n, (k, n) ∉ ids -> kobjects w' k !! n = kobjects w k !! n.

Lemma update_object_None o w w' : is_Some (kobjects w (Dyn (us_Kind o)) !! us_Key o) -> update_object o w = (None, w') ->
  kobjects w' (Dyn (us_Kind o)) !! us_Key o = Some (stored o) /\ others_stay [id_of o] w w'.
Proof.
  intros Hs. unfold update_object. destruct (kupdate _ _ _) as [r w1] eqn:E. destruct r; cbn; try done.
  intros [= <-]. destruct (kupdate_insert _ _ _ _ _ E eq_refl eq_refl) as [Hi Ho]. rewrite Hi. split; [exact (lookup_insert_eq _ _ _)|].
  intros k n Hne%not_elem_of_cons. destruct Hne as [Hne _]. destruct (decide (k = Dyn (us_Kind o))) as [->|Hk].
  - rewrite Hi, lookup_insert_ne; [done|]. cbn. congruence.
  - by rewrite Ho.
Qed.
Lemma create_object_None o w w' : kcreate w (Dyn (us_Kind o)) o = (Done, w') ->
  kobjects w' (Dyn (us_Kind o)) !! us_Key o = Some (stored o) /\ others_stay [id_of o] w w'.
Proof.
  intros (_ & Hi & Ho)%kcreate_Done. rewrite Hi. split; [exact (lookup_insert_eq _ _ _)|].
  intros k n Hne%not_elem_of_cons. destruct Hne as [Hne _]. destruct (decide (k = Dyn (us_Kind o))) as [->|Hk].
  - rewrite Hi, lookup_insert_ne; [done|]. cbn. congruence.
  - by rewrite Ho.
Qed.

(** What the rendered objects have to be: no resource version, no field twice,
    and those whose kind is decoded can be; a secret has no entry both as a text
    and as data. *)
Definition texts_or_unset (j : json) (m : gmap string string) : Prop := j = jstrings m \/ (j = JNull /\ m = ∅).
Definition decodes (d : Unstructured) : Prop :=
  exists d', typed d = Ok d' /\
  ((us_Kind d).2 = "Secret" -> exists texts data, texts_or_unset (field d' "stringData") texts /\
     texts_or_unset (field d' "data") data /\ texts ##ₘ data) /\
  ((us_Kind d).2 = "Service" -> exists l, field d' "spec" = JObject l /\ NoDup l.*1).
Definition deployable (d : Unstructured) : Prop :=
  us_Version d = "" /\ NoDup (jfields (whole d)).*1 /\
  (is_Some (deployFuncs (W := W) (us_Kind d).2) -> decodes d).

(** The service that is there has the address that is asked for, if one is. *)
Definition same_address (d f : Unstructured) : Prop :=
  (us_Kind d).2 = "Service" -> forall d' e ip, typed d = Ok d' -> typed f = Ok e ->
    jassoc "clusterIP" (jfields (field d' "spec")) = Some ip -> jassoc "clusterIP" (jfields (field e "spec")) = Some ip.

(** An object that a function leaves alone, with the labels that are asked for. *)
Definition has_labels (d f : Unstructured) : Prop := forall k s, us_Labels d !! k = Some s -> s <> "" -> us_Labels f !! k = Some s.
Definition rests (fn : deploy_fn) (d f : Unstructured) : Prop := (forall w : W, fn d f w = (None, w)) /\ has_labels d f.
Definition settles (fn : deploy_fn) (d : Unstructured) : Prop :=
  rests fn d (stored d) /\
  forall f w w', kobjects w (Dyn (us_Kind d)) !! us_Key d = Some f -> same_address d f -> fn d f w = (None, w') ->
    (exists f', kobjects w' (Dyn (us_Kind d)) !! us_Key d = Some f' /\ rests fn d f') /\ others_stay [id_of d] w w'.

Lemma has_labels_stored d : has_labels d (stored d).
Proof. intros k s. by destruct (stored_meta d) as (_ & _ & -> & _). Qed.
Lemma others_refl ids w : others_stay ids w w.
Proof. by intros k n. Qed.
Hint Resolve has_labels_stored others_refl : core.

(** Only secrets are stored in another form. *)
Lemma stored_other o : (us_Kind o).2 <> "Secret" -> stored o = o.
Proof. intros Hk. unfold stored. by rewrite (proj2 (String.eqb_neq _ _) Hk). Qed.

Lemma settles_Deployment d : (us_Kind d).2 <> "Secret" -> settles deployDeployment d.
Proof.
  intros Hk. pose proof (stored_other d Hk) as Es. split; [split; [|done]|].
  - intros w. rewrite Es. unfold deployDeployment. by rewrite differs_refl.
  - intros f w w' Hf _. unfold deployDeployment at 1. destruct (differs ["spec"] d f) eqn:E.
    + intros [Hd Ho]%update_object_None; [|eauto]. split; [|done]. exists (stored d). split; [done|]. split; [|done].
      intros w1. rewrite Es. unfold deployDeployment. by rewrite differs_refl.
    + intros [= <-]. split; [|done]. exists f. split; [done|]. split.
      * intros w1. unfold deployDeployment. by rewrite E.
      * intros k s. by apply differs_labels with ["spec"].
Qed.

(** The functions that decode both objects, compare them and write [put desired existing]. *)
Definition typed_fn (cmp : Unstructured -> Unstructured -> bool) (put : Unstructured -> Unstructured -> Unstructured) : deploy_fn :=
  fun d f w => with_types d f w (fun desired existing => if cmp desired existing then update_object (put desired existing) w else (None, w)).

Lemma settles_typed cmp put d d' :
  typed d = Ok d' -> cmp d' (stored d') = false ->
  (forall f e, same_address d f -> typed f = Ok e ->
     same_meta d' (put d' e) /\ typed (put d' e) = Ok (put d' e) /\ cmp d' (stored (put d' e)) = false) ->
  (forall e, cmp d' e = false -> has_labels d' e) ->
  settles (typed_fn cmp put) d.
Proof.
  intros Ht Hc Hp Hl. pose proof (typed_meta _ _ Ht) as (Hk & Hn & Hlb & _).
  split; [split; [|done]|].
  - intros w. unfold typed_fn, with_types. by rewrite (typed_stored _ _ Ht), Ht, Hc.
  - intros f w w' Hf Hip. unfold typed_fn at 1, with_types. destruct (typed f) as [e|er] eqn:Hte; [|done]. rewrite Ht.
    pose proof (typed_meta _ _ Hte) as (_ & _ & Hle & _). destruct (cmp d' e) eqn:E.
    + destruct (Hp f e Hip Hte) as ((Hk' & Hn' & Hl' & _) & Htp & Hcp).
      intros [Hd Ho]%update_object_None.
      * rewrite Hk', Hn', Hk, Hn in Hd. rewrite Hk', Hn', Hk, Hn in Ho. split; [|done]. exists (stored (put d' e)).
        split; [done|]. split.
        -- intros w1. unfold typed_fn, with_types. by rewrite (typed_stored _ _ Htp), Ht, Hcp.
        -- intros k s. destruct (stored_meta (put d' e)) as (_ & _ & -> & _). by rewrite Hl', Hlb.
      * rewrite Hk', Hn', Hk, Hn. eauto.
    + intros [= <-]. split; [|done]. exists f. split; [done|]. split.
      * intros w1. unfold typed_fn, with_types. by rewrite Hte, Ht, E.
      * intros k s. rewrite <- Hlb. intros ? ?. rewrite <- Hle. by apply (Hl e E).
Qed.

Lemma typed_kind d d' : typed d = Ok d' -> us_Kind d' = us_Kind d.
Proof. by intros (? & _)%typed_meta. Qed.

Lemma field_set key v o key' : field (set_field key v o) key' = if String.eqb key key' then v else field o key'.
Proof.
  unfold field, set_field. cbn. destruct (String.eqb_spec key key') as [->|Hne]; [done|]. by rewrite jassoc_delete_ne.
Qed.

Lemma settles_fields fields d d' : (us_Kind d).2 <> "Secret" -> typed d = Ok d' -> settles (deploy_typed fields) d.
Proof.
  intros Hk Ht. rewrite <- (typed_kind _ _ Ht) in Hk.
  apply (settles_typed (differs fields) (fun desired _ => desired) d d'); [done|rewrite stored_other by done; apply differs_refl|..].
  - intros f e _ _. split_and!; [done..|by eapply typed_again|rewrite stored_other by done; apply differs_refl].
  - intros e Hd k s. by apply differs_labels with fields.
Qed.
Lemma settles_PodMonitor d d' : (us_Kind d).2 <> "Secret" -> typed d = Ok d' -> settles deployPodMonitor d.
Proof.
  intros Hk Ht. rewrite <- (typed_kind _ _ Ht) in Hk.
  apply (settles_typed (differs ["spec"]) (fun desired existing => SetResourceVersion (us_Version existing) desired) d d').
  - done.
  - rewrite stored_other by done. apply differs_refl.
  - intros f e _ _. split_and!; [done..|by eapply typed_version, typed_again|]. rewrite stored_other by done.
    apply differs_same; [intros x _; apply derivative_refl|done..].
  - intros e Hd k s. by apply differs_labels with ["spec"].
Qed.

(** The texts of a map, read back. *)
Lemma jtexts_jstrings m : jtexts (jstrings m) = m.
Proof.
  unfold jtexts, jstrings. cbn [jfields].
  replace (omap _ _) with (map_to_list m); [apply list_to_map_to_list|].
  generalize (map_to_list m). intros l. induction l as [|[k v] l IH]; [done|]. cbn. by f_equal.
Qed.
Lemma jtexts_unset j m : texts_or_unset j m -> jtexts j = m.
Proof. intros [->|[-> ->]]; [apply jtexts_jstrings|done]. Qed.
Lemma unset_within j m j' m' : texts_or_unset j m -> j' = jstrings m' -> m ⊆ m' -> DeepDerivative j j' = true.
Proof. intros [->|[-> _]] -> Hs; [by apply derivative_strings|apply derivative_unset]. Qed.

(** A secret that is stored has the texts and the data that were asked for. *)
Lemma secret_stored_rests d' texts data : texts_or_unset (field d' "stringData") texts -> texts_or_unset (field d' "data") data ->
  texts ##ₘ data -> (us_Kind d').2 = "Secret" -> secret_differs d' (stored d') = false.
Proof.
  intros Ht Hd Hdisj Hk. unfold stored. rewrite Hk. change (String.eqb "Secret" "Secret") with true. cbn iota.
  set (all := (EncodeToString <$> texts) ∪ data).
  assert (field d' "stringData" = JNull \/
    (forall o, o = admit_texts d' (field d' "stringData") -> field o "data" = jstrings all /\ us_Labels o = us_Labels d' /\ us_Annotations o = us_Annotations d'))
    as Hcases.
  { right. intros o ->. unfold admit_texts. rewrite !field_set. cbn. by rewrite (jtexts_unset _ _ Ht), (jtexts_unset _ _ Hd). }
  destruct (field d' "stringData") as [| | | | |l] eqn:Es.
  1:{ unfold secret_differs. rewrite Es, derivative_unset. apply differs_refl. }
  all: destruct Ht as [Et|[Et _]]; [|discriminate Et]; try discriminate Et.
  destruct Hcases as [Hc|Hc]; [discriminate Hc|]. destruct (Hc _ eq_refl) as (Hdata & Hl & Ha).
  revert Hdata Hl Ha. generalize (admit_texts d' (JObject l)). intros o Hdata Hl Ha.
  unfold secret_differs. apply orb_false_iff. split.
  - apply negb_false_iff. rewrite Es, Et. unfold text_data. rewrite Hdata, jtexts_jstrings. apply derivative_strings.
    apply map_subseteq_spec. intros k s Hs. rewrite lookup_fmap. unfold all.
    rewrite (lookup_union_Some_l _ _ _ (EncodeToString s)) by (by rewrite lookup_fmap, Hs).
    cbn. by rewrite DecodeString_EncodeToString.
  - apply differs_same; [|by rewrite Hl|by rewrite Ha]. intros x ->%list_elem_of_singleton. rewrite Hdata.
    eapply unset_within; [exact Hd|done|]. unfold all. apply map_union_subseteq_r.
    intros k. specialize (Hdisj k). rewrite lookup_fmap. by destruct (texts !! k), (data !! k).
Qed.
Lemma settles_Secret d d' texts data : typed d = Ok d' -> (us_Kind d).2 = "Secret" ->
  texts_or_unset (field d' "stringData") texts -> texts_or_unset (field d' "data") data -> texts ##ₘ data ->
  settles deploySecret d.
Proof.
  intros Ht Hk Hs Hd Hdisj. rewrite <- (typed_kind _ _ Ht) in Hk.
  apply (settles_typed secret_differs (fun desired _ => desired) d d'); [done|by eapply secret_stored_rests|..].
  - intros f e _ _. split_and!; [done..|by eapply typed_again|by eapply secret_stored_rests].
  - intros e [_ He]%orb_false_iff k s. by apply differs_labels with ["data"].
Qed.
Lemma settles_Service d d' l : (us_Kind d).2 = "Service" -> typed d = Ok d' -> field d' "spec" = JObject l -> NoDup l.*1 ->
  settles deployService d.
Proof.
  intros Hk Ht Hs Hn. assert ((us_Kind d').2 <> "Secret") as Hk' by (by rewrite (typed_kind _ _ Ht), Hk).
  apply (settles_typed (differs ["spec"])
    (fun desired existing => with_cluster_ip (SetResourceVersion (us_Version existing) desired) existing) d d');
    [done|rewrite stored_other by done; apply differs_refl|..].
  - intros f e Hip He. split_and!; [done..| |].
    + change (with_cluster_ip (SetResourceVersion (us_Version e) d') e) with (SetResourceVersion (us_Version e) (with_cluster_ip d' e)).
      apply typed_version. apply typed_cluster_ip; by eapply typed_again.
    + rewrite stored_other by done.
      apply differs_same; [|done..]. intros x ->%list_elem_of_singleton. unfold with_cluster_ip. rewrite field_set. cbn [String.eqb Ascii.eqb].
      change (field (SetResourceVersion (us_Version e) d') "spec") with (field d' "spec"). rewrite Hs. cbn [jfields].
      apply derivative_fields; [done|]. intros k v Hv. exists v. split; [|apply derivative_refl].
      destruct (decide (k = "clusterIP")) as [->|Hne].
      * rewrite (Hip Hk d' e v Ht He) by (by rewrite Hs). cbn [jassoc]. by rewrite String.eqb_refl.
      * assert (jassoc k (jdelete "clusterIP" l) = Some v) as Hd by (by rewrite jassoc_delete_ne).
        destruct (jassoc "clusterIP" (jfields (field e "spec"))) as [ip|]; [|done]. cbn [jassoc].
        destruct (String.eqb_spec "clusterIP" k); [congruence|]. done.
  - intros e Hd k s. by apply differs_labels with ["spec"].
Qed.

Lemma settles_own fn d : deployFuncs (us_Kind d).2 = Some fn -> deployable d -> settles fn d.
Proof.
  intros Hf (_ & _ & Hd). destruct Hd as (d' & Ht & Hs & Hip); [by rewrite Hf|]. revert Hf. unfold deployFuncs.
  repeat match goal with |- context [String.eqb ?a ?b] => destruct (String.eqb_spec a b) as [Ek|_]; [intros [= <-]|] end;
    [apply settles_Deployment; by rewrite Ek|apply settles_Deployment; by rewrite Ek| | | | | | | | | |done];
    try (eapply settles_fields; [by rewrite Ek|done]).
  - destruct Hip as (l & ? & ?); [done|]. by eapply settles_Service.
  - destruct Hs as (texts & data & ? & ? & ?); [done|]. by eapply settles_Secret.
  - eapply settles_PodMonitor; [by rewrite Ek|done].
Qed.
Lemma no_own_function d : deployFuncs (W := W) (us_Kind d).2 = None -> (us_Kind d).2 <> "Secret".
Proof. intros Hf E. rewrite E in Hf. done. Qed.

Lemma whole_version d v : us_Version d = "" -> NoDup (jfields (whole d)).*1 ->
  DeepDerivative (whole d) (whole (SetResourceVersion v d)) = true.
Proof.
  intros Hv Hn. apply derivative_fields; [exact Hn|]. intros k j. cbn [jassoc].
  destruct (String.eqb "apiVersion" k); [intros [= <-]; eexists; split; [done|apply derivative_refl]|].
  destruct (String.eqb "kind" k); [intros [= <-]; eexists; split; [done|apply derivative_refl]|].
  destruct (String.eqb "metadata" k); [|intros E; exists j; split; [exact E|apply derivative_refl]].
  intros [= <-]. eexists. split; [done|]. rewrite Hv. apply derivative_fields.
  { cbn. apply (bool_decide_unpack _). vm_compute. done. }
  intros k' j' Hj. exists j'. split; [|apply derivative_refl]. cbn [SetResourceVersion us_Key us_Labels us_Annotations us_Owners us_Version].
  revert Hj. change (optional "resourceVersion" "") with (@nil (string * json)). cbn [jassoc].
  repeat match goal with |- context [if String.eqb ?a ?b then _ else _] => destruct (String.eqb a b); [done|] end. done.
Qed.

Lemma whole_labels d f : DeepDerivative (whole d) (whole f) = true -> has_labels d f.
Proof.
  intros Hw k s Hk Hs. unfold whole in Hw. destruct (derivative_entries _ _ "metadata" _ Hw eq_refl) as (m & Hm & Hd).
  cbn in Hm. injection Hm as <-. destruct (derivative_entries _ _ "labels" _ Hd eq_refl) as (l & Hl & Hd').
  cbn in Hl. injection Hl as <-. by eapply strings_derivative.
Qed.

(** An object that is there and that its deployment leaves alone. *)
Definition at_rest (d : Unstructured) (w : W) : Prop :=
  exists f, kobjects w (Dyn (us_Kind d)) !! us_Key d = Some f /\
    (forall w1 : W, deploy_found d f w1 = (None, w1)) /\ (skips d = false -> has_labels d f).

Lemma deploy_self d : deployable d -> forall w : W, deploy_found d (stored d) w = (None, w).
Proof.
  intros Hd w. unfold deploy_found. destruct (skips d); [done|]. destruct (deployFuncs _) as [fn|] eqn:E.
  - apply (settles_own fn d E Hd).
  - rewrite stored_other by (by apply no_own_function). by rewrite derivative_refl.
Qed.

Lemma Deploy_rests d w w' : deployable d ->
  (forall f, kobjects w (Dyn (us_Kind d)) !! us_Key d = Some f -> same_address d f) -> Deploy d w = (None, w') -> at_rest d w' /\ others_stay [id_of d] w w'.
Proof.
  intros Hd Hip. unfold Deploy. destruct (kget _ _ _) as [f| |e] eqn:Eg; [| |done].
  - apply kget_Found in Eg. unfold deploy_found at 1. destruct (skips d) eqn:Es.
    { intros [= <-]. split; [|done]. exists f. split; [done|]. split; [|by rewrite Es]. intros w1. unfold deploy_found. by rewrite Es. }
    destruct (deployFuncs _) as [fn|] eqn:E.
    + intros Hf. destruct (settles_own fn d E Hd) as [_ Hs]. destruct (Hs f w w' Eg (Hip f Eg) Hf) as [(f' & Hf' & Hq & Hl) Ho].
      split; [|done]. exists f'. split; [done|]. split; [|done]. intros w1. unfold deploy_found. by rewrite Es, E.
    + destruct Hd as (Hv & Hn & _). destruct (DeepDerivative (whole d) (whole f)) eqn:Ew; cbn [negb].
      * intros [= <-]. split; [|done]. exists f. split; [done|]. split; [|intros _; by apply whole_labels].
        intros w1. unfold deploy_found. by rewrite Es, E, Ew.
      * intros [Hf Ho]%update_object_None; [|eauto]. split; [|exact Ho]. exists (SetResourceVersion (us_Version f) d).
        rewrite stored_other in Hf by (by apply no_own_function).
        split; [exact Hf|]. split; [|by intros _ k s]. intros w1. unfold deploy_found. by rewrite Es, E, whole_version.
  - destruct (kcreate _ _ _) as [r w1] eqn:Ec. destruct r; cbn; try done. intros [= <-].
    destruct (create_object_None _ _ _ Ec) as [Hc Ho]. split; [|done]. exists (stored d). split; [done|]. split; [by apply deploy_self|by intros _].
Qed.

Lemma at_rest_Deploy d w : responsive W dyn_kind -> at_rest d w -> Deploy d w = (None, w).
Proof. intros Hr (f & Hf & Hq & _). unfold Deploy. by rewrite (kget_present _ _ _ _ Hr Hf). Qed.
Lemma at_rest_stays d ids w w' : others_stay ids w w' -> id_of d ∉ ids -> at_rest d w -> at_rest d w'.
Proof. intros Ho Hd (f & Hf & Hq). exists f. split; [|done]. etrans; [by apply Ho|done]. Qed.
End Deploys.

(** ** A list of objects *)
Section Lists.
Context {W : Type} `{!KubeClient W dyn_kind} `{!KubeServer W dyn_kind} `{DerivativeLaws} `{TypedLaws} `{RestMapperLaws}.
Notation id_of o := (Dyn (us_Kind o), us_Key o).

Lemma owned_meta owner o o' : owned owner o = Ok o' ->
  us_Kind o' = us_Kind o /\ us_Key o' = us_Key o /\ us_Annotations o' = us_Annotations o /\
  us_Labels o' !! GlobalHubOwnerLabelKey = Some GHOperatorOwnerLabelVal.
Proof.
  unfold owned. destruct (RESTMapping (us_Kind o)) as [[]|]; cbn; [| |done].
  - destruct (SetControllerReference owner o) as [x|] eqn:E; [|done]. apply controller_meta in E as (? & ? & ? & ? & _).
    cbn. intros [= <-]. cbn. split_and!; try done. apply lookup_insert_eq.
  - intros [= <-]. cbn. split_and!; try done. apply lookup_insert_eq.
Qed.

Lemma manipulate_rests objects owner : forall w w' : W,
  (forall o o', o ∈ objects -> owned owner o = Ok o' -> deployable (W := W) o') ->
  (forall o o' f, o ∈ objects -> owned owner o = Ok o' -> kobjects w (Dyn (us_Kind o)) !! us_Key o = Some f -> same_address o' f) ->
  NoDup ((fun o => id_of o) <$> objects) ->
  ManipulateGlobalHubObjects objects owner w = (None, w') ->
  (forall o, o ∈ objects -> exists o', owned owner o = Ok o' /\ at_rest o' w') /\
  others_stay ((fun o => id_of o) <$> objects) w w'.
Proof.
  induction objects as [|o objects IH]; intros w w' Hd Hip Hn; cbn [ManipulateGlobalHubObjects].
  { intros [= <-]. split; [by intros ? ?%not_elem_of_nil|by intros k n]. }
  destruct (owned owner o) as [o'|] eqn:Eo; [|done]. destruct (Deploy o' w) as [[e|] w1] eqn:Ed; [done|]. intros Hm.
  cbn in Hn. apply NoDup_cons in Hn as [Hni Hn]. destruct (owned_meta _ _ _ Eo) as (Hk & Hkey & _).
  destruct (Deploy_rests o' w w1) as [Hr Ho]; [apply (Hd o); [left|done]| |done|].
  { intros f Hf. rewrite Hk, Hkey in Hf. apply (Hip o o' f); [left|done..]. }
  destruct (IH w1 w') as [Hi Ho']; [by intros x x' Hx; apply Hd; right| |done..|].
  { intros x x' f Hx Ex Hf. apply (Hip x x' f); [by right|done|]. etrans; [symmetry; apply Ho|exact Hf]. rewrite Hk, Hkey.
    intros E%list_elem_of_singleton. apply Hni. rewrite <- E. apply list_elem_of_fmap. by exists x. }
  split.
  - intros x [->|Hx]%elem_of_cons; [|by apply Hi]. exists o'. split; [done|]. eapply at_rest_stays; [exact Ho'| |exact Hr].
    by rewrite Hk, Hkey.
  - intros k n Hkn. cbn in Hkn. apply not_elem_of_cons in Hkn as [Hne Hkn]. rewrite Ho' by done. apply Ho.
    rewrite Hk, Hkey. by apply not_elem_of_cons; split; [|apply not_elem_of_nil].
Qed.

Lemma manipulate_quiet objects owner (w : W) : responsive W dyn_kind ->
  (forall o, o ∈ objects -> exists o', owned owner o = Ok o' /\ at_rest o' w) ->
  ManipulateGlobalHubObjects objects owner w = (None, w).
Proof.
  intros Hr. induction objects as [|o objects IH]; intros Ha; [done|]. cbn [ManipulateGlobalHubObjects].
  destruct (Ha o) as (o' & -> & Hat); [left|]. rewrite at_rest_Deploy by done. apply IH. intros x Hx. apply Ha. by right.
Qed.

End Lists.

(** ** What stays and what goes *)
Section Helpers.
Context {W : Type} `{!KubeClient W dyn_kind} `{!KubeServer W dyn_kind}.

(** A config map whose manifest asks for less than is there is left as it is:
    entries, labels and annotations that a new version of the operator no longer
    renders stay in the cluster. *)
Theorem dropped_entries_stay `{DerivativeLaws} `{TypedLaws} d f d' f' m m' (w : W) :
  (us_Kind d).2 = "ConfigMap" -> kget w (Dyn (us_Kind d)) (us_Key d) = Found f ->
  typed d = Ok d' -> typed f = Ok f' ->
  field d' "data" = jstrings m -> field f' "data" = jstrings m' -> m ⊆ m' ->
  us_Labels d ⊆ us_Labels f -> us_Annotations d ⊆ us_Annotations f ->
  Deploy d w = (None, w).
Proof.
  intros Hk Hg Hd Hf Hm Hm' Hs Hl Ha. unfold Deploy. rewrite Hg. unfold deploy_found. destruct (skips d); [done|].
  rewrite Hk. cbn. unfold deployConfigMap, deploy_typed, with_types. rewrite Hf, Hd.
  apply typed_meta in Hd as (_ & _ & Hld & Had). apply typed_meta in Hf as (_ & _ & Hlf & Haf).
  rewrite differs_same; [done| |by rewrite Hld, Hlf|by rewrite Had, Haf].
  intros x ->%list_elem_of_singleton. rewrite Hm, Hm'. by apply derivative_strings.
Qed.

Lemma string_data_set required current : string_data (set_data required current) = string_data required.
Proof.
  unfold string_data, set_data. destruct (field required "data") eqn:E; try (rewrite field_set; done).
  unfold field. cbn. destruct (jassoc "data" (jdelete "data" (us_Fields current))) as [v|] eqn:Ej; [|done].
  apply jassoc_elem in Ej. unfold jdelete in Ej. by apply list_elem_of_filter in Ej as [Hne _].
Qed.

Lemma stored_without_texts o : field o "stringData" = JNull -> stored o = o.
Proof. intros E. unfold stored. rewrite E. by destruct (String.eqb _ _). Qed.

(** What is applied without an error is stored, and nothing is written when it is
    there already, unless the object could not be read; neither object has texts
    that the server turns into data. *)
Lemma applied_data_is_stored required (w : W) b w' :
  field required "stringData" = JNull ->
  (forall f, kobjects w (Dyn (us_Kind required)) !! us_Key required = Some f -> field f "stringData" = JNull) ->
  (forall e, kget w (Dyn (us_Kind required)) (us_Key required) <> Broken e) ->
  apply_data required w = (b, None, w') ->
  (exists f, kobjects w' (Dyn (us_Kind required)) !! us_Key required = Some f /\ string_data f = string_data required) /\
  (b = false -> w' = w).
Proof.
  intros Hq Hqf Hb. unfold apply_data. destruct (kget _ _ _) as [f| |e] eqn:Eg; [| |by destruct (Hb e)].
  - pose proof (kget_name _ _ _ _ Eg) as Hkey. apply kget_Found in Eg. case_bool_decide as Hs.
    + intros [= <- <-]. split; [|done]. by exists f.
    + destruct (kupdate _ _ _) as [r w1] eqn:Eu. destruct r; try done. intros [= <- <-]. split; [|done].
      exists (set_data required f). split; [|apply string_data_set].
      assert (us_Key (set_data required f) = us_Key required) as Hn.
      { rewrite <- Hkey. cbn. unfold set_data. by destruct (field required "data"). }
      pose proof (kupdate_lookup _ _ _ _ Eu eq_refl) as Hl. cbn in Hl. rewrite stored_without_texts in Hl; [by rewrite <- Hn|].
      specialize (Hqf f Eg). unfold set_data. destruct (field required "data") eqn:Er; try (rewrite field_set; exact Hqf).
      unfold field. cbn. rewrite jassoc_delete_ne by done. exact Hqf.
  - destruct (kcreate _ _ _) as [r w1] eqn:Ec. destruct r; try done. intros [= <- <-]. split; [|done].
    exists required. split; [|done]. pose proof (kcreate_lookup _ _ _ _ Ec) as Hl. cbn in Hl. by rewrite stored_without_texts in Hl.
Qed.

(** An object that cannot be read counts as applied. *)
Lemma unread_object_counts_as_applied required (w : W) e :
  kget w (Dyn (us_Kind required)) (us_Key required) = Broken e -> apply_data required w = (false, None, w).
Proof. intros Hg. unfold apply_data. by rewrite Hg. Qed.

(** ** Pruning of the metrics *)
Lemma delete_matching kind selector l (w w' : W) :
  klist w (Dyn kind) = Ok l -> delete_all kind (matching_keys selector l) w = (None, w') ->
  (forall n f, kobjects w' (Dyn kind) !! n = Some f -> matches selector (us_Labels f) = false) /\
  (forall k n, k <> Dyn kind \/ (forall f, kobjects w k !! n = Some f -> matches selector (us_Labels f) = false) ->
     kobjects w' k !! n = kobjects w k !! n).
Proof.
  intros Hl Hd.
  set (P := fun o => matches selector (us_Labels o) = true).
  pose proof (delete_filtered (Dyn kind) P w w' l Hl Hd) as [Hg Ho].
  split.
  - intros n f Hf. destruct (kobjects w (Dyn kind) !! n) as [o|] eqn:E.
    + pose proof (eq_trans (eq_sym Hf) (Hg n o E)) as X. unfold P in X. case_decide as Hm; [done|].
      injection X as ->. by apply not_true_is_false.
    + pose proof (Ho (Dyn kind) n (or_intror E)) as X. rewrite E in X. by discriminate (eq_trans (eq_sym Hf) X).
  - intros k n Hkn. destruct (decide (k = Dyn kind)) as [->|Hk]; [|by apply Ho; left].
    destruct Hkn as [Hk|Hf]; [done|]. destruct (kobjects w (Dyn kind) !! n) as [o|] eqn:E.
    + etrans; [exact (Hg n o E)|]. unfold P. rewrite decide_False; [done|]. by rewrite (Hf o eq_refl).
    + etrans; [apply Ho; by right|done].
Qed.

Lemma prune_monitors_spec selector kinds : NoDup kinds -> forall w w' : W,
  (forall kind, kind ∈ kinds -> forall w : W, exists l, klist w (Dyn kind) = Ok l) ->
  prune_monitors kinds selector w = (None, w') ->
  (forall kind n f, kind ∈ kinds -> kobjects w' (Dyn kind) !! n = Some f -> matches selector (us_Labels f) = false) /\
  (forall k n, (forall kind, kind ∈ kinds -> k <> Dyn kind) \/ (forall f, kobjects w k !! n = Some f -> matches selector (us_Labels f) = false) ->
     kobjects w' k !! n = kobjects w k !! n).
Proof.
  induction kinds as [|kind kinds IH]; intros Hn w w' Hl; cbn [prune_monitors].
  { intros [= <-]. split; [by intros ? ? ? ?%not_elem_of_nil|done]. }
  apply NoDup_cons in Hn as [Hk Hn]. destruct (Hl kind) with w as [l El]; [left|]. rewrite El.
  destruct (delete_all _ _ _) as [[e|] w1] eqn:Ed; [done|]. intros Hp.
  destruct (delete_matching _ _ _ _ _ El Ed) as [Hgone Hothers].
  destruct (IH Hn w1 w') as [Hg Ho]; [by intros k Hin; apply Hl; right|done|]. split.
  - intros k n f [->|Hin]%elem_of_cons Hf; [|by eapply Hg]. apply (Hgone n f). etrans; [symmetry; apply Ho|exact Hf].
    left. intros k' Hk' [= ->]. done.
  - intros k n Hkn. etrans; [apply Ho|apply Hothers].
    + destruct Hkn as [Hk'|Hf]; [left; intros k' Hin; apply Hk'; by right|]. right. intros f Hf'.
      apply Hf. etrans; [symmetry; apply Hothers|exact Hf']. by right.
    + destruct Hkn as [Hk'|Hf]; [left; apply Hk'; left|by right].
Qed.

Definition metrics_kinds : list (string * string) := configmap_kind :: monitor_kinds.

(** When the kinds of the monitoring can be listed, a pruning of the metrics that
    ends without an error leaves no config map, service monitor, pod monitor or
    rule with the labels of the component, and touches nothing else. *)
Theorem pruned_metrics_are_gone selector (w w' : W) :
  responsive W dyn_kind -> PruneMetricsResources selector w = (None, w') ->
  (forall kind n f, kind ∈ metrics_kinds -> kobjects w' (Dyn kind) !! n = Some f -> matches selector (us_Labels f) = false) /\
  (forall k n, (forall kind, kind ∈ metrics_kinds -> k <> Dyn kind) \/
     (forall f, kobjects w k !! n = Some f -> matches selector (us_Labels f) = false) ->
     kobjects w' k !! n = kobjects w k !! n).
Proof.
  intros (_ & Hl & _). unfold PruneMetricsResources. destruct (klist w _) as [l|] eqn:El; [|done].
  destruct (delete_all _ _ _) as [[e|] w1] eqn:Ed; [done|]. intros Hp.
  destruct (delete_matching _ _ _ _ _ El Ed) as [Hgone Hothers].
  destruct (prune_monitors_spec selector monitor_kinds) with w1 w' as [Hg Ho]; [|by eauto|done|].
  { apply (bool_decide_unpack _). vm_compute. done. }
  split.
  - intros kind n f [->|Hin]%elem_of_cons Hf; [|by eapply Hg]. apply (Hgone n f). etrans; [symmetry; apply Ho|exact Hf].
    left. intros kind Hin [= <-]. revert Hin. apply (bool_decide_unpack _). vm_compute. done.
  - intros k n Hkn. etrans; [apply Ho|apply Hothers].
    + destruct Hkn as [Hk'|Hf]; [left; intros k' Hin; apply Hk'; by right|]. right. intros f Hf'.
      apply Hf. etrans; [symmetry; apply Hothers|exact Hf']. by right.
    + destruct Hkn as [Hk'|Hf]; [left; apply Hk'; left|by right].
Qed.

(** A kind that cannot be listed, whatever the reason, ends the pruning without an
    error: what comes after it stays. *)
Lemma unlisted_kind_hides_the_others selector (w w1 : W) l e :
  klist w (Dyn configmap_kind) = Ok l -> delete_all configmap_kind (matching_keys selector l) w = (None, w1) ->
  klist w1 (Dyn ("monitoring.coreos.com/v1", "ServiceMonitor")) = Err e ->
  PruneMetricsResources selector w = (None, w1).
Proof. intros El Ed Es. unfold PruneMetricsResources. rewrite El, Ed. cbn [monitor_kinds fmap list_fmap prune_monitors]. by rewrite Es. Qed.
End Helpers.

(** ** A sample *)
Module Sample.

Lemma json_eq_dec : forall a b : json, {a = b} + {a <> b}.
Proof.
  fix IH 1. intros [|x|x|x|l|l] [|y|y|y|l'|l']; try (right; congruence); [by left|..].
  - destruct (decide (x = y)) as [->|]; [by left|right; congruence].
  - destruct (decide (x = y)) as [->|]; [by left|right; congruence].
  - destruct (decide (x = y)) as [->|]; [by left|right; congruence].
  - assert ({l = l'} + {l <> l'}) as [->|Hne]; [|by left|right; congruence].
    revert l'. induction l as [|a l IHl]; intros [|b l']; [by left|by right|by right|].
    destruct (IH a b) as [->|Hne]; [|right; congruence]. destruct (IHl l') as [->|Hne]; [by left|right; congruence].
  - assert ({l = l'} + {l <> l'}) as [->|Hne]; [|by left|right; congruence].
    revert l'. induction l as [|[k a] l IHl]; intros [|[k' b] l']; [by left|by right|by right|].
    destruct (decide (k = k')) as [->|Hk]; [|right; congruence].
    destruct (IH a b) as [->|Hne]; [|right; congruence]. destruct (IHl l') as [->|Hne]; [by left|right; congruence].
Defined.

Definition jeqb (a b : json) : bool := if json_eq_dec a b then true else false.
Lemma jeqb_spec a b : jeqb a b = true <-> a = b.
Proof. unfold jeqb. by destruct (json_eq_dec a b). Qed.
#[local] Arguments jeqb : simpl never.

(** A comparison that ignores what is unset on the left. *)
Fixpoint covered (a b : json) {struct a} : bool :=
  jeqb a b ||
  match a, b with
  | JNull, _ => true
  | JString s, JString t => String.eqb s ""
  | JArray l, JArray l' =>
      (fix go (l l' : list json) : bool :=
         match l, l' with [], _ => true | x :: r, y :: r' => covered x y && go r r' | _, _ => false end) l l'
  | JObject l, JObject l' =>
      (fix go (l : list (string * json)) : bool :=
         match l with
         | [] => true
         | (k, v) :: r => match jassoc k l' with Some v' => covered v v' | None => false end && go r
         end) l
  | _, _ => false
  end.

Lemma covered_refl j : covered j j = true.
Proof. assert (jeqb j j = true) as E by (by apply jeqb_spec). destruct j; cbn; by rewrite E. Qed.
Lemma covered_fields l l' : covered (JObject l) (JObject l') = true <->
  l = l' \/ forall k v, (k, v) ∈ l -> exists v', jassoc k l' = Some v' /\ covered v v' = true.
Proof.
  cbn [covered]. destruct (jeqb (JObject l) (JObject l')) eqn:E.
  { apply jeqb_spec in E as [= ->]. tauto. }
  assert (l <> l') as Hl by (intros ->; by rewrite (proj2 (jeqb_spec _ _) eq_refl) in E). cbn [orb]. clear E.
  transitivity (forall k v, (k, v) ∈ l -> exists v', jassoc k l' = Some v' /\ covered v v' = true); [|tauto].
  clear Hl. induction l as [|[k v] l IH].
  { split; [by intros _ k v ?%not_elem_of_nil|done]. }
  rewrite andb_true_iff, IH. split.
  - intros [Hv Hr] k' v' [[= -> ->]|Hin]%elem_of_cons; [|by apply Hr]. destruct (jassoc k l') as [x|]; [by exists x|done].
  - intros Ha. split; [|by intros k' v' Hin; apply Ha; right].
    destruct (Ha k v) as (v' & -> & Hc); [left|done].
Qed.

#[export] Instance sample_derivative : Derivative := {| DeepDerivative := covered |}.
#[export] Program Instance sample_derivative_laws : DerivativeLaws.
Next Obligation. apply covered_refl. Qed.
Next Obligation. intros j. cbn. by destruct (jeqb JNull j). Qed.
Next Obligation.
  intros l l' Hn Hf. apply covered_fields. right. intros k v Hin. apply Hf. by apply elem_jassoc.
Qed.
Next Obligation.
  intros l l' k v Hc Hk. apply covered_fields in Hc as [->|Hf]; [|by apply Hf, jassoc_elem].
  exists v. split; [done|apply covered_refl].
Qed.
Next Obligation.
  intros s j. cbn. destruct (jeqb (JString s) j) eqn:E; [by apply jeqb_spec in E|]. cbn. destruct j; try done. by intros ->%String.eqb_eq.
Qed.

#[export] Instance sample_typed : Typed := {| typed := Ok |}.
#[export] Program Instance sample_typed_laws : TypedLaws.
Next Obligation. by intros o o' [= <-]. Qed.
Next Obligation. by intros o o' [= <-]. Qed.
Next Obligation. by intros o o' [= <-]. Qed.
Next Obligation. by intros v o o' [= <-]. Qed.
Next Obligation. done. Qed.

#[export] Instance sample_mapper : RestMapper := {|
  RESTMapping kind := Ok (negb (String.eqb kind.2 "ClusterRole"));
  SetControllerReference owner o :=
    Ok (MkUnstructured (us_Kind o) (us_Key o) (us_Labels o) (us_Annotations o) (owner :: us_Owners o) (us_Version o) (us_Fields o));
|}.
#[export] Program Instance sample_mapper_laws : RestMapperLaws.
Next Obligation. by intros owner o o' [= <-]. Qed.

Definition config_map : Unstructured :=
  MkUnstructured ("v1", "ConfigMap") ("gh", "kafka-metrics") ∅ ∅ [] "" [("data", jstrings {["rules" := "all"]})].
Definition service : Unstructured :=
  MkUnstructured ("v1", "Service") ("gh", "manager") ∅ ∅ [] "" [("spec", JObject [("ports", JArray [JNumber 8080])])].
Definition role : Unstructured :=
  MkUnstructured ("rbac/v1", "ClusterRole") ("", "reader") ∅ {["skip-creation-if-exist" := "True"]} [] "" [("rules", JArray [JString "get"])].
Definition topic : Unstructured :=
  MkUnstructured ("kafka/v1", "KafkaTopic") ("gh", "spec") ∅ ∅ [] "" [("spec", JObject [("replicas", JNumber 3)])].
(** A secret that is written as texts, and a service without an address of its own. *)
Definition storage_secret : Unstructured :=
  MkUnstructured ("v1", "Secret") ("gh", "postgres") ∅ ∅ [] "" [("stringData", jstrings {["password" := "p4"]})].
Definition headless : Unstructured :=
  MkUnstructured ("v1", "Service") ("gh", "alerts") ∅ ∅ [] "" [("spec", JObject [("clusterIP", JString "None")])].
Definition objects : list Unstructured := [config_map; service; role; topic; storage_secret; headless].

(** The service is there with an address that the server gave it, and the config
    map with an entry of an older version. *)
Definition old_service : Unstructured :=
  MkUnstructured ("v1", "Service") ("gh", "manager") ∅ ∅ [] "7" [("spec", JObject [("clusterIP", JString "10.0.0.1")])].
Definition old_map : Unstructured :=
  MkUnstructured ("v1", "ConfigMap") ("gh", "kafka-metrics") ∅ ∅ [] "5" [("data", jstrings {["rules" := "all"; "old" := "left"]})].
Definition store : kstore (K := dyn_kind) :=
  kalter (Dyn ("v1", "Service")) ("gh", "manager") (Some old_service)
    (kalter (Dyn ("v1", "ConfigMap")) ("gh", "kafka-metrics") (Some old_map) (fun _ => ∅)).

Lemma all_deployable o o' : o ∈ objects -> owned "hub" o = Ok o' -> deployable (W := kstore) o'.
Proof.
  unfold objects. rewrite !elem_of_cons. intros [->|[->|[->|[->|[->|[->|[]%not_elem_of_nil]]]]]] [= <-]; (split; [done|split]);
    try (apply (bool_decide_unpack _); vm_compute; done); intros _; eexists; (split; [done|split]); try done;
    intros _; try (eexists; split; [done|]; apply (bool_decide_unpack _); vm_compute; done).
  exists {["password" := "p4"]}, ∅. split_and!; [by left|by right|]. apply map_disjoint_empty_r.
Qed.
Lemma all_addressed o o' f : o ∈ objects -> owned "hub" o = Ok o' ->
  kobjects store (Dyn (us_Kind o)) !! us_Key o = Some f -> same_address o' f.
Proof.
  unfold objects. rewrite !elem_of_cons. intros [->|[->|[->|[->|[->|[->|[]%not_elem_of_nil]]]]]] [= <-] Hf Hk; try discriminate Hk.
  - intros d' e ip [= <-] _ Hip. vm_compute in Hip. discriminate Hip.
  - vm_compute in Hf. discriminate Hf.
Qed.


(** A service that asks for another address than it has keeps the one it has, and
    its deployment finds the difference every time. *)
Example another_address_is_written_again :
  let d := MkUnstructured ("v1", "Service") ("gh", "manager") ∅ ∅ [] "" [("spec", JObject [("clusterIP", JString "None")])] in
  (fun f => (field f "spec", differs ["spec"] d f)) <$> kobjects (Deploy d store).2 (Dyn ("v1", "Service")) !! ("gh", "manager") =
    Some (JObject [("clusterIP", JString "10.0.0.1")], true).
Proof. vm_compute. reflexivity. Qed.

Lemma dropped_entries_stay_witness : Deploy config_map store = (None, store).
Proof.
  apply (dropped_entries_stay config_map old_map config_map old_map {["rules" := "all"]} {["rules" := "all"; "old" := "left"]} store);
    try reflexivity.
  apply insert_subseteq_l; [done|]. apply map_empty_subseteq.
Defined.

Lemma pruned_metrics_are_gone_witness :
  let w' := (PruneMetricsResources ∅ store).2 in
  forall n f, kobjects w' (Dyn configmap_kind) !! n = Some f -> matches ∅ (us_Labels f) = false.
Proof.
  intros w' n f Hf.
  assert (PruneMetricsResources ∅ store = (None, w')) as E by (apply injective_projections; [vm_compute; reflexivity|done]).
  apply (proj1 (pruned_metrics_are_gone ∅ store w' kstore_responsive E) configmap_kind n f); [left|exact Hf].
Defined.
End Sample.
