(* ===== verification/StrimziInstall.v ===== *)
(** * The Kafka cluster that the operator installs

    The subscription of its operator, the cluster and its specification, and the
    removal of all of it ([strimzi_transporter.go], [strimzi_kafka_controller.go],
    [transport_reconciler.go]). *)

From stdpp Require Import prelude gmap strings list.
From Stdlib Require Import ZArith.
From S2P Require Import Prelude.
From S2P Require Import GoLib.
From S2P Require Import Libraries.
From S2P Require Import KubeClient.
From S2P Require Import KafkaAccess.
From S2P Require Import AgentAddon.
From S2P Require Import Operand.
From S2P Require Import Credentials.
From S2P Require Import Deployer.

Local Open Scope string_scope.
Local Open Scope list_scope.

(** ** Data

    The operand as the installation reads it. Its node selector is a Go map, whose
    order of iteration is an argument of what depends on it. *)
Record HubSettings := MkSettings {
  hs_Hub : GlobalHub;
  hs_HABasic : bool;
  hs_EnableMetrics : bool;
  hs_NodeSelector : option (gmap string string);
  hs_Tolerations : option (list string);
  hs_ImagePullSecret : string;
  hs_StorageSize : string;
  hs_StorageClass : string;
}.
Definition hs_Key (mgh : HubSettings) : obj_key := gh_Key (hs_Hub mgh).
Definition hs_Namespace (mgh : HubSettings) : string := (hs_Key mgh).1.

Record Installer := MkInstaller {
  in_cluster : strimziTransporter;
  in_flags : StrimziFlags;
  subName : string;
  subCommunity : bool;
  subChannel : string;
  subCatalogSourceName : string;
  subCatalogSourceNamespace : string;
  subPackageName : string;
}.

Definition DefaultKafkaSubName : string := "strimzi-kafka-operator".
Definition DefaultInstallPlanApproval : string := "Automatic".
Definition DefaultCatalogSourceNamespace : string := "openshift-marketplace".
Definition DefaultAMQChannel : string := "amq-streams-2.8.x".
Definition DefaultAMQPackageName : string := "amq-streams".
Definition DefaultCatalogSourceName : string := "redhat-operators".
Definition CommunityChannel : string := "strimzi-0.43.x".
Definition CommunityPackageName : string := "strimzi-kafka-operator".
Definition CommunityCatalogSourceName : string := "community-operators".
Definition DefaultAMQKafkaVersion : string := "3.8.0".
Definition DefaultPartitionReplicas : Z := 3.
Definition KafkaMetricsConfig : string * string := ("kafka-metrics", "kafka-metrics-config.yml").
Definition KafkaUseNodeport : string := "global-hub.open-cluster-management.io/kafka-use-nodeport".
Definition KinDClusterIPKey : string := "global-hub.open-cluster-management.io/kind-cluster-ip".
Definition CommunityCatalogSourceNameKey : string := "global-hub.open-cluster-management.io/catalog-source-name".
Definition CommunityCatalogSourceNamespaceKey : string := "global-hub.open-cluster-management.io/catalog-source-namespace".

(** [NewStrimziTransporter] with its option [WithCommunity]: the one of the process,
    nil before the first call. *)
Definition new_installer : Installer :=
  MkInstaller (MkStrimzi KafkaClusterName "" DefaultPartitionReplicas) (MkFlags true false) DefaultKafkaSubName false
    DefaultAMQChannel DefaultCatalogSourceName DefaultCatalogSourceNamespace DefaultAMQPackageName.
Definition nonempty_or (v : option string) (d : string) : string :=
  match v with Some s => if String.eqb s "" then d else s | None => d end.
Definition NewStrimziTransporter (transporter : option Installer) (mgh : HubSettings) (community : bool) : Installer :=
  let k := default new_installer transporter in
  let c := in_cluster k in
  let replicas := if hs_HABasic mgh then 1%Z else topicPartitionReplicas c in
  let cluster := MkStrimzi (kafkaClusterName c) (hs_Namespace mgh) replicas in
  let annotations := gh_Annotations (hs_Hub mgh) in
  if community then
    MkInstaller cluster (in_flags k) (subName k) true CommunityChannel
      (nonempty_or (annotations !! CommunityCatalogSourceNameKey) CommunityCatalogSourceName)
      (nonempty_or (annotations !! CommunityCatalogSourceNamespaceKey) (subCatalogSourceNamespace k)) CommunityPackageName
  else
    MkInstaller cluster (in_flags k) (subName k) false (subChannel k) (subCatalogSourceName k) (subCatalogSourceNamespace k)
      (subPackageName k).

Definition set_flags (f : StrimziFlags) (k : Installer) : Installer :=
  MkInstaller (in_cluster k) f (subName k) (subCommunity k) (subChannel k) (subCatalogSourceName k) (subCatalogSourceNamespace k)
    (subPackageName k).
Definition set_partition_replicas (r : Z) (k : Installer) : Installer :=
  MkInstaller (MkStrimzi (kafkaClusterName (in_cluster k)) (kafkaClusterNamespace (in_cluster k)) r) (in_flags k) (subName k)
    (subCommunity k) (subChannel k) (subCatalogSourceName k) (subCatalogSourceNamespace k) (subPackageName k).

#[export] Instance SubscriptionSpec_dec : EqDecision SubscriptionSpec.
Proof. solve_decision. Defined.
#[export] Instance SpecListener_dec : EqDecision SpecListener.
Proof. solve_decision. Defined.
#[export] Instance PodTemplate_dec : EqDecision PodTemplate.
Proof. solve_decision. Defined.
#[export] Instance KafkaSpec_dec : EqDecision KafkaSpec.
Proof. solve_decision. Defined.

(** [jsonpatch.MergePatch] of two specifications, and [MergeObjects] of two clusters
    (RFC 7386): what is set on the right replaces, objects are merged field by
    field, and lists are replaced as a whole. *)
Class KafkaMerge := {
  merge_spec : KafkaSpec -> KafkaSpec -> result KafkaSpec;
  merge_kafka : KafkaCluster -> KafkaCluster -> result KafkaCluster;
  merge_config : string -> string -> string;
}.
Definition patch_opt {A} (e d : option A) : option A := match d with Some v => Some v | None => e end.
Definition patch_list {A} (e d : list A) : list A := match d with [] => e | _ => d end.
Definition patch_template (e d : option PodTemplate) : option PodTemplate :=
  match e, d with
  | Some a, Some b => Some (MkPodTemplate (patch_opt (pt_NodeAffinity a) (pt_NodeAffinity b))
      (patch_list (pt_Tolerations a) (pt_Tolerations b)) (patch_list (pt_ImagePullSecrets a) (pt_ImagePullSecrets b)))
  | _, _ => patch_opt e d
  end.
Definition patch_spec `{KafkaMerge} (e d : KafkaSpec) : KafkaSpec :=
  MkKafkaSpec (merge_config (ks_Config e) (ks_Config d)) (patch_opt (ks_Listeners e) (ks_Listeners d)) (ks_Authorization d)
    (ks_Version d) (patch_opt (ks_Metrics e) (ks_Metrics d)) (patch_template (ks_Template e) (ks_Template d))
    (patch_template (ks_EntityTemplate e) (ks_EntityTemplate d)) (ks_Zookeeper e || ks_Zookeeper d).
Class KafkaMergeLaws `{KafkaMerge} := {
  merge_spec_Ok e d s : merge_spec e d = Ok s -> s = patch_spec e d;
  merge_kafka_Ok e d u : merge_kafka e d = Ok u ->
    kk_Key u = kk_Key e /\ kk_UID u = kk_UID e /\ kk_Status u = kk_Status e /\ kk_Labels u = kk_Labels d ∪ kk_Labels e /\
    kk_Annotations u = kk_Annotations d ∪ kk_Annotations e /\
    kk_Spec u = match kk_Spec e, kk_Spec d with Some s, Some s' => Some (patch_spec s s') | s, s' => patch_opt s s' end;
  merge_config_same d : merge_config d d = d;
  merge_config_again e d : merge_config (merge_config e d) d = merge_config e d;
}.

Definition with_spec (s : option KafkaSpec) (o : KafkaCluster) : KafkaCluster :=
  MkKafkaCluster (kk_Key o) (kk_UID o) (kk_Labels o) (kk_Annotations o) s (kk_Status o).
Definition set_metrics (m : option (string * string)) (s : KafkaSpec) : KafkaSpec :=
  MkKafkaSpec (ks_Config s) (ks_Listeners s) (ks_Authorization s) (ks_Version s) m (ks_Template s) (ks_EntityTemplate s) (ks_Zookeeper s).
Definition set_templates (t e : option PodTemplate) (s : KafkaSpec) : KafkaSpec :=
  MkKafkaSpec (ks_Config s) (ks_Listeners s) (ks_Authorization s) (ks_Version s) (ks_Metrics s) t e (ks_Zookeeper s).

(** ** The cluster ([newKafkaCluster]) *)
Section Cluster.
Context `{KafkaMerge} (range : gmap string string -> list (string * string)).

Definition default_listener (mgh : HubSettings) : SpecListener :=
  let annotations := gh_Annotations (hs_Hub mgh) in
  match annotations !! KafkaUseNodeport with
  | Some _ => MkSpecListener "tls" 9093 true "nodeport" "tls" (Some (30093%Z, default "" (annotations !! KinDClusterIPKey)))
  | None => MkSpecListener "tls" 9093 true "route" "tls" None
  end.

(** The five settings, for one replica or for three. *)
Definition cluster_config (replicas : Z) : string :=
  if bool_decide (replicas = DefaultPartitionReplicas) then
    "default.replication.factor: 3, min.insync.replicas: 2, offsets.topic.replication.factor: 3, transaction.state.log.min.isr: 2, transaction.state.log.replication.factor: 3"
  else
    "default.replication.factor: 1, min.insync.replicas: 1, offsets.topic.replication.factor: 1, transaction.state.log.min.isr: 1, transaction.state.log.replication.factor: 1".

Definition with_affinity (a : list (string * string)) (t : option PodTemplate) : option PodTemplate :=
  match t with
  | None => Some (MkPodTemplate (Some a) [] [])
  | Some t => Some (MkPodTemplate (Some a) (pt_Tolerations t) (pt_ImagePullSecrets t))
  end.
Definition with_tolerations (l : list string) (t : option PodTemplate) : option PodTemplate :=
  match t with
  | None => Some (MkPodTemplate None l [])
  | Some t => Some (MkPodTemplate (pt_NodeAffinity t) l (pt_ImagePullSecrets t))
  end.

(** Both templates are there or none is: the one of the brokers decides. *)
Definition setAffinity (mgh : HubSettings) (s : KafkaSpec) : KafkaSpec :=
  match hs_NodeSelector mgh with
  | None => s
  | Some selector => set_templates (with_affinity (range selector) (ks_Template s)) (with_affinity (range selector) (ks_EntityTemplate s)) s
  end.
Definition setTolerations (mgh : HubSettings) (s : KafkaSpec) : KafkaSpec :=
  match hs_Tolerations mgh with
  | None => s
  | Some l => set_templates (with_tolerations l (ks_Template s)) (with_tolerations l (ks_EntityTemplate s)) s
  end.
Definition setMetricsConfig (mgh : HubSettings) (s : KafkaSpec) : KafkaSpec :=
  if hs_EnableMetrics mgh then set_metrics (Some KafkaMetricsConfig) s else s.
(** A patch that fails leaves the specification as it is. *)
Definition setImagePullSecret (mgh : HubSettings) (s : KafkaSpec) : KafkaSpec :=
  if String.eqb (hs_ImagePullSecret mgh) "" then s
  else
    let t := Some (MkPodTemplate None [] [hs_ImagePullSecret mgh]) in
    match merge_spec s (set_templates t t s) with Ok s' => s' | Err _ => s end.

Definition newKafkaCluster (k : Installer) (mgh : HubSettings) : KafkaCluster :=
  let s := MkKafkaSpec (cluster_config (topicPartitionReplicas (in_cluster k))) (Some [default_listener mgh]) "simple"
             DefaultAMQKafkaVersion None None None false in
  let annotations : gmap string string := {["strimzi.io/node-pools" := "enabled"; "strimzi.io/kraft" := "enabled"]} in
  let annotations := if isNewKafkaCluster (in_flags k) then <[UpgradeKafkaFromZookeeperAnnotation := "true"]> annotations else annotations in
  MkKafkaCluster (kafkaClusterNamespace (in_cluster k), kafkaClusterName (in_cluster k)) ""
    {[GlobalHubOwnerLabelKey := "global-hub"]} annotations
    (Some (setImagePullSecret mgh (setMetricsConfig mgh (setTolerations mgh (setAffinity mgh s))))) None.
End Cluster.

(** ** The installation *)
Section Install.
Context {W : Type} `{!KubeClient W conn_kind} `{!KubeClient W op_kind} `{!KubeClient W dyn_kind}.
Context `{KafkaMerge} `{Derivative} `{Typed} `{RestMapper}.
Context (range : gmap string string -> list (string * string)).

(** Whether the cluster was written, with the error. An updated cluster without a
    specification is a nil pointer. *)
Definition CreateUpdateKafkaCluster (k : Installer) (mgh : HubSettings) (w : W) : outcome (option goerror * bool * W) :=
  match kget w CKafka (hs_Namespace mgh, kafkaClusterName (in_cluster k)) with
  | Missing => let '(r, w') := kcreate w CKafka (newKafkaCluster range k mgh) in Ret (written_err r, true, w')
  | Broken e => Ret (Some e, false, w)
  | Found existingKafka =>
      let desiredKafka := newKafkaCluster range k mgh in
      match merge_kafka existingKafka desiredKafka with
      | Err e => Ret (Some e, false, w)
      | Ok updatedKafka =>
          let! spec := deref (kk_Spec updatedKafka) in
          let! desired := deref (kk_Spec desiredKafka) in
          let updatedKafka := with_spec (Some (set_metrics (ks_Metrics desired) spec)) updatedKafka in
          if bool_decide (kk_Spec updatedKafka = kk_Spec existingKafka) then Ret (None, false, w)
          else let '(r, w') := kupdate w CKafka updatedKafka in Ret (written_err r, true, w')
      end
  end.

(** A cluster of the old kind, which ran with ZooKeeper, goes; [known] is what the
    REST mapper answers about the kind, and a cluster without a specification is
    a nil pointer. *)
Definition RemoveOldKafkaCluster (known : result bool) (k : Installer) (ns : string) (w : W) : outcome (option goerror * Installer * W) :=
  match known with
  | Ok false => Ret (None, k, w)
  | Err e => Ret (Some e, k, w)
  | Ok true =>
      match kget w CKafka (ns, kafkaClusterName (in_cluster k)) with
      | Missing => Ret (None, k, w)
      | Broken e => Ret (Some e, k, w)
      | Found existingKafka =>
          let! spec := deref (kk_Spec existingKafka) in
          if ks_Zookeeper spec then
            let '(r, w') := kdelete w CKafka (ns, kafkaClusterName (in_cluster k)) in
            Ret (written_err r, set_flags (MkFlags (enableTLS (in_flags k)) true) k, w')
          else Ret (None, k, w)
      end
  end.

Definition newSubscription (k : Installer) (mgh : HubSettings) : Subscription :=
  MkSubscription (hs_Namespace mgh, subName k)
    {["installer.name" := (hs_Key mgh).2; "installer.namespace" := hs_Namespace mgh; GlobalHubOwnerLabelKey := "global-hub-operator"]}
    (MkSubscriptionSpec (subChannel k) DefaultInstallPlanApproval (subPackageName k) (subCatalogSourceName k)
       (subCatalogSourceNamespace k) "" (default ∅ (hs_NodeSelector mgh)) (default [] (hs_Tolerations mgh))) "".

Definition set_starting_csv (v : string) (s : SubscriptionSpec) : SubscriptionSpec :=
  MkSubscriptionSpec (ss_Channel s) (ss_InstallPlanApproval s) (ss_Package s) (ss_CatalogSource s) (ss_CatalogSourceNamespace s) v
    (ss_NodeSelector s) (ss_Tolerations s).
Definition ensureSubscription (k : Installer) (mgh : HubSettings) (w : W) : option goerror * W :=
  let expectedSub := newSubscription k mgh in
  match kget w CSubscription (hs_Namespace mgh, subName k) with
  | Broken e => (Some e, w)
  | Missing => let '(r, w') := kcreate w CSubscription expectedSub in (written_err r, w')
  | Found existingSub =>
      let startingCSV :=
        if String.eqb (ss_Channel (sb_Spec existingSub)) (ss_Channel (sb_Spec expectedSub)) then ss_StartingCSV (sb_Spec expectedSub) else "" in
      let spec := if bool_decide (sb_Spec existingSub = sb_Spec expectedSub) then sb_Spec existingSub else sb_Spec expectedSub in
      let '(r, w') := kupdate w CSubscription
        (MkSubscription (sb_Key existingSub) (sb_Labels existingSub) (set_starting_csv startingCSV spec) (sb_InstalledCSV existingSub)) in
      (written_err r, w')
  end.

(** A subscription that is not found reads as one without a version. *)
Definition isCSVInstalled (k : Installer) (ns : string) (w : W) : result bool :=
  match kget w CSubscription (ns, subName k) with
  | Broken e => Err e
  | Missing => Ok false
  | Found existingSub =>
      if String.eqb (sb_InstalledCSV existingSub) "" then Ok false
      else
        match fetched_result (kget w CServiceVersion (ns, sb_InstalledCSV existingSub)) with
        | Err e => Err e
        | Ok kafkaCsv => Ok (String.eqb (csv_Phase kafkaCsv) "Succeeded")
        end
  end.

(** What the manifests of the user, the topics, the node pool and the metrics are
    rendered with. *)
Record KafkaManifests := MkKafkaManifests {
  km_EnableMetrics : bool;
  km_Namespace : string;
  km_KafkaCluster : string;
  km_GlobalHubKafkaUser : string;
  km_SpecTopic : string;
  km_StatusTopic : string;
  km_StatusTopicParttern : string;
  km_StatusPlaceholderTopic : string;
  km_TopicPartition : Z;
  km_TopicReplicas : Z;
  km_EnableInventoryAPI : bool;
  km_KafkaInventoryTopic : string;
  km_StorageSize : string;
  km_StorageClass : string;
}.
Definition kafka_manifests (c : TransportConfig) (k : Installer) (mgh : HubSettings) : KafkaManifests :=
  let star := contains_star (statusTopic c) in
  MkKafkaManifests (hs_EnableMetrics mgh) (hs_Namespace mgh) KafkaClusterName DefaultGlobalHubKafkaUserName (specTopic c)
    (if star then replace_star "" (statusTopic c) else statusTopic c)
    (if star then "prefix" else "literal")
    (if star then replace_star "global-hub" (statusTopic c) else statusTopic c)
    DefaultPartition (topicPartitionReplicas (in_cluster k))
    (bool_decide (is_Some (gh_Annotations (hs_Hub mgh) !! "global-hub.open-cluster-management.io/with-inventory")))
    "kessel-inventory" (hs_StorageSize mgh) (hs_StorageClass mgh).

Definition renderKafkaResources (Render : KafkaManifests -> result (list Unstructured)) (c : TransportConfig) (k : Installer)
    (mgh : HubSettings) (w : W) : option goerror * W :=
  match Render (kafka_manifests c k mgh) with
  | Err e => (Some ("failed to render kafka manifests: " +:+ e), w)
  | Ok kafkaObjects =>
      match ManipulateGlobalHubObjects kafkaObjects (hs_Key mgh).2 w with
      | (Some e, w') => (Some ("failed to create/update kafka objects: " +:+ e), w')
      | (None, w') => (None, w')
      end
  end.

(** Whether to come back later, and the error. *)
Definition EnsureKafka (Render : KafkaManifests -> result (list Unstructured)) (known : result bool) (c : TransportConfig)
    (mgh : HubSettings) (k : Installer) (w : W) : outcome (bool * option goerror * Installer * W) :=
  let! (e, k1, w1) := RemoveOldKafkaCluster known k (hs_Namespace mgh) w in
  match e with
  | Some e => Ret (true, Some e, k1, w1)
  | None =>
      match ensureSubscription k1 mgh w1 with
      | (Some e, w2) => Ret (true, Some e, k1, w2)
      | (None, w2) =>
          match isCSVInstalled k1 (hs_Namespace mgh) w2 with
          | Err e => Ret (true, Some e, k1, w2)
          | Ok false => Ret (true, None, k1, w2)
          | Ok true =>
              let! r := getCurrentReplicas (in_cluster k1) (hs_Hub mgh) w2 in
              match r with
              | Err e => Ret (true, Some e, k1, w2)
              | Ok replicas =>
                  let k2 := set_partition_replicas replicas k1 in
                  match renderKafkaResources Render c k2 mgh w2 with
                  | (Some e, w3) => Ret (true, Some e, k2, w3)
                  | (None, w3) =>
                      let! (e, _, w4) := CreateUpdateKafkaCluster k2 mgh w3 in
                      match e with Some e => Ret (true, Some e, k2, w4) | None => Ret (false, None, k2, w4) end
                  end
              end
          end
      end
  end.
End Install.

(** ** The removal ([pruneStrimziResources])

    What a reconciliation of a deleted operand ends with: it comes back later, has
    an error, or says that the resources are removed. *)
Inductive prune_result := PruneLater | PruneError (e : goerror) | PruneDone.

Section Prune.
Context {W : Type} `{!KubeClient W conn_kind}.

Definition in_namespace (ns : string) (l : list PlainObject) : list obj_key :=
  pl_Key <$> filter (fun o => (pl_Key o).1 = ns) l.
(** The volumes of any namespace. *)
Definition kafka_volumes (l : list PlainObject) : list obj_key :=
  pl_Key <$> filter (fun o => pl_Labels o !! "strimzi.io/cluster" = Some KafkaClusterName) l.

Definition prune_subscription (ns : string) (k : Installer) (w : W) : prune_result * W :=
  match kget w CSubscription (ns, subName k) with
  | Missing => (PruneDone, w)
  | Broken e => (PruneError e, w)
  | Found kafkaSub =>
      let delete_subscription (w : W) :=
        match kdelete w CSubscription (ns, subName k) with
        | (Refused e, w') => (PruneError e, w')
        | (_, w') => (PruneDone, w')
        end in
      if String.eqb (sb_InstalledCSV kafkaSub) "" then delete_subscription w
      else
        match kdelete w CServiceVersion (ns, sb_InstalledCSV kafkaSub) with
        | (Done, w') => delete_subscription w'
        | (r, w') => (PruneError (default "" (written_err r)), w')
        end
  end.

Definition prune_cluster (ns : string) (k : Installer) (w : W) : prune_result * W :=
  match kdelete w CKafka (ns, kafkaClusterName (in_cluster k)) with
  | (Refused e, w1) => (PruneError e, w1)
  | (_, w1) =>
      match klist w1 CVolume with
      | Err e => (PruneError e, w1)
      | Ok kafkaPvc =>
          match delete_each CVolume (kafka_volumes kafkaPvc) w1 with
          | (Some e, w2) => (PruneError e, w2)
          | (None, w2) => prune_subscription ns k w2
          end
      end
  end.

(** [ns]: the namespace of the operator. *)
Definition pruneStrimziResources (ns : string) (k : Installer) (w : W) : prune_result * W :=
  match klist w CUser with
  | Err e => (PruneError e, w)
  | Ok kafkaUserList =>
      match delete_each CUser (in_namespace ns kafkaUserList) w with
      | (Some e, w1) => (PruneError e, w1)
      | (None, w1) =>
          match klist w1 CTopic with
          | Err e => (PruneError e, w1)
          | Ok kafkaTopicList =>
              match delete_each CTopic (in_namespace ns kafkaTopicList) w1 with
              | (Some e, w2) => (PruneError e, w2)
              | (None, w2) =>
                  match klist w2 CTopic with
                  | Err e => (PruneError e, w2)
                  | Ok kafkaTopicList =>
                      match in_namespace ns kafkaTopicList with
                      | [] => prune_cluster ns k w2
                      | _ => (PruneLater, w2)
                      end
                  end
              end
          end
      end
  end.
End Prune.

(** ** The controllers of the transport of the operator

    One installs and removes the Kafka cluster or reads the secret that is given
    ([transport_reconciler.go]); the other, started by the first, keeps the cluster
    and hands out the connection of the manager ([strimzi_kafka_controller.go]).
    They share the variables of their packages. *)

Record TransportVars := MkVars {
  tv_config : TransportConfig;
  tv_installer : option Installer;             (** the transporter of the process *)
  tv_conn : option KafkaConfig;                (** [config.transporterConn] *)
  tv_started : bool;                           (** [startedKafkaController] *)
  tv_status : KafkaStatus;
  tv_kafkaRemoved : bool;                      (** [isResourceRemoved] of the Kafka controller *)
  tv_removed : bool;                           (** [isResourceRemoved] of the transport controller *)
  tv_updateKafka : bool;                       (** [updateConn] of each *)
  tv_updateTransport : bool;
  tv_clientCA : option string * option string;
}.
Definition set_config (c : TransportConfig) (v : TransportVars) : TransportVars :=
  MkVars c (tv_installer v) (tv_conn v) (tv_started v) (tv_status v) (tv_kafkaRemoved v) (tv_removed v) (tv_updateKafka v) (tv_updateTransport v) (tv_clientCA v).
Definition set_installer (k : option Installer) (v : TransportVars) : TransportVars :=
  MkVars (tv_config v) k (tv_conn v) (tv_started v) (tv_status v) (tv_kafkaRemoved v) (tv_removed v) (tv_updateKafka v) (tv_updateTransport v) (tv_clientCA v).
Definition set_conn (c : option KafkaConfig) (v : TransportVars) : TransportVars :=
  MkVars (tv_config v) (tv_installer v) c (tv_started v) (tv_status v) (tv_kafkaRemoved v) (tv_removed v) (tv_updateKafka v) (tv_updateTransport v) (tv_clientCA v).
Definition set_started (b : bool) (v : TransportVars) : TransportVars :=
  MkVars (tv_config v) (tv_installer v) (tv_conn v) b (tv_status v) (tv_kafkaRemoved v) (tv_removed v) (tv_updateKafka v) (tv_updateTransport v) (tv_clientCA v).
Definition set_status (s : KafkaStatus) (v : TransportVars) : TransportVars :=
  MkVars (tv_config v) (tv_installer v) (tv_conn v) (tv_started v) s (tv_kafkaRemoved v) (tv_removed v) (tv_updateKafka v) (tv_updateTransport v) (tv_clientCA v).
Definition set_kafkaRemoved (b : bool) (v : TransportVars) : TransportVars :=
  MkVars (tv_config v) (tv_installer v) (tv_conn v) (tv_started v) (tv_status v) b (tv_removed v) (tv_updateKafka v) (tv_updateTransport v) (tv_clientCA v).
Definition set_removed (b : bool) (v : TransportVars) : TransportVars :=
  MkVars (tv_config v) (tv_installer v) (tv_conn v) (tv_started v) (tv_status v) (tv_kafkaRemoved v) b (tv_updateKafka v) (tv_updateTransport v) (tv_clientCA v).
Definition set_updateKafka (b : bool) (v : TransportVars) : TransportVars :=
  MkVars (tv_config v) (tv_installer v) (tv_conn v) (tv_started v) (tv_status v) (tv_kafkaRemoved v) (tv_removed v) b (tv_updateTransport v) (tv_clientCA v).
Definition set_updateTransport (b : bool) (v : TransportVars) : TransportVars :=
  MkVars (tv_config v) (tv_installer v) (tv_conn v) (tv_started v) (tv_status v) (tv_kafkaRemoved v) (tv_removed v) (tv_updateKafka v) b (tv_clientCA v).
Definition set_clientCA (ca : option string * option string) (v : TransportVars) : TransportVars :=
  MkVars (tv_config v) (tv_installer v) (tv_conn v) (tv_started v) (tv_status v) (tv_kafkaRemoved v) (tv_removed v) (tv_updateKafka v) (tv_updateTransport v) ca.

Definition COMPONENTS_KAFKA_NAME : string := "kafka".
Definition kafka_condition (kind status reason message : string) : StatusCondition :=
  MkStatusCondition COMPONENTS_KAFKA_NAME kind COMPONENTS_AVAILABLE status 0 reason message.

Definition getKafkaComponentStatus (reconcileErr : option goerror) (kafkaClusterStatus : KafkaStatus) (conn : option KafkaConfig) : StatusCondition :=
  match reconcileErr with
  | Some e => kafka_condition "TransportConnection" CONDITION_STATUS_FALSE RECONCILE_ERROR e
  | None =>
      if negb (kafkaReady kafkaClusterStatus) then
        kafka_condition "Kafka" CONDITION_STATUS_FALSE (kafkaReason kafkaClusterStatus) (kafkaMessage kafkaClusterStatus)
      else
        match conn with
        | None => kafka_condition "TransportConnection" CONDITION_STATUS_FALSE "TransportConnectionNotSet" "Transport connection is null"
        | Some _ => kafka_condition "TransportConnection" CONDITION_STATUS_TRUE "TransportConnectionSet" "Transport connection has set"
        end
  end.
Definition getTransportComponentStatus (reconcileErr : option goerror) (conn : option KafkaConfig) : StatusCondition :=
  match reconcileErr with
  | Some e => kafka_condition "TransportConnection" CONDITION_STATUS_FALSE RECONCILE_ERROR e
  | None =>
      match conn with
      | None => kafka_condition "TransportConnection" CONDITION_STATUS_FALSE "TransportConnectionNotSet" "Transport connection is null"
      | Some _ =>
          kafka_condition "TransportConnection" CONDITION_STATUS_TRUE "TransportConnectionSet"
            "Use customized transport, connection has set using provided secret"
      end
  end.

(** ** The certificate authority of the clients *)
Definition refresh (cur bytes : option string) : option string :=
  match cur with
  | None => bytes
  | Some k => if String.eqb (default "" bytes) k then cur else bytes
  end.
Definition SetKafkaClientCA {W} `{!KubeClient W conn_kind} (namespace name : string) (w : W) (ca : option string * option string)
    : option goerror * (option string * option string) :=
  match fetched_result (kget w CSecret (namespace, name +:+ "-clients-ca")) with
  | Err e => (Some e, ca)
  | Ok keySecret =>
      let key := refresh ca.1 (sc_Data keySecret !! "ca.key") in
      match fetched_result (kget w CSecret (namespace, name +:+ "-clients-ca-cert")) with
      | Err e => (Some e, (key, ca.2))
      | Ok certSecret => (None, (key, refresh ca.2 (sc_Data certSecret !! "ca.crt")))
      end
  end.

Section Controllers.
Context {W : Type} `{!KubeClient W conn_kind} `{!KubeClient W op_kind} `{!KubeClient W dyn_kind} `{!KubeClient W hub_kind}.
Context `{!StatusClient W} `{Retrier} `{KafkaMerge} `{Derivative} `{Typed} `{RestMapper}.
Context (range : gmap string string -> list (string * string)) (now : Z).
Context (Render : KafkaManifests -> result (list Unstructured)) (known : result bool).
(** [config.GetMGHNamespacedName()], the namespace of the operator, and whether it runs as the
    community version. *)
Context (mghNamespacedName : obj_key) (defaultNamespace : string) (community : bool).

Definition strimzi_metrics : gmap string string := {["global-hub.open-cluster-management.io/metrics-resource" := "strimzi"]}.

(** The update of the status that is deferred; its error is only logged. *)
Definition report (cond : StatusCondition) (force : bool) (w : W) : W :=
  (UpdateMGHComponent now mghNamespacedName cond force w).2.

(** When to come back, the error of the reconciliation, and the one that is reported. *)
Notation answer := (Z * option goerror * option goerror)%type.

Definition kafka_connect (v : TransportVars) (k : Installer) (mgh : HubSettings) (w : W) : outcome (answer * TransportVars) :=
  let '(e, ca) := SetKafkaClientCA (hs_Namespace mgh) KafkaClusterName w (tv_clientCA v) in
  let v := set_clientCA ca v in
  match e with
  | Some e => Ret ((0%Z, Some e, None), v)
  | None =>
      let! r := getManagerTransportConn (in_cluster k) (tv_config v) DefaultGlobalHubKafkaUserName w in
      match r with
      | Err e => Ret ((0%Z, Some e, None), v)
      | Ok conn =>
          let '(updated, conn') := SetTransporterConn (Some conn) (tv_conn v) in
          Ret ((0%Z, None, None), set_updateKafka updated (set_conn conn' v))
      end
  end.

Definition kafka_install (v : TransportVars) (k : Installer) (mgh : HubSettings) (w : W) : outcome (answer * TransportVars * W) :=
  let! (needRequeue, e, k, w) := EnsureKafka range Render known (tv_config v) mgh k w in
  let v := set_installer (Some k) v in
  match e with
  | Some e => Ret ((0%Z, Some e, None), v, w)
  | None =>
      if needRequeue then Ret ((5%Z, None, None), v, w)
      else
        let! (status, e, flags) := kafkaClusterReady (in_cluster k) (in_flags k) w in
        let k := set_flags flags k in
        let v := set_status status (set_installer (Some k) v) in
        match e with
        | Some e => Ret ((0%Z, Some e, Some e), v, w)
        | None =>
            if negb (kafkaReady status) then Ret ((5%Z, None, None), v, w)
            else let! (a, v) := kafka_connect v k mgh w in Ret (a, v, w)
        end
  end.

(** A reconciliation of the Kafka controller; [mgh] is what reading the operand
    answers. The controller has the transporter it was started with. *)
Definition kafka_Reconcile (mgh : result (option HubSettings)) (agentsRemoved : bool) (v : TransportVars) (w : W)
    : outcome (Z * option goerror * TransportVars * W) :=
  match mgh, tv_installer v with
  | Err e, _ => Ret (0%Z, Some e, v, w)
  | Ok None, _ => Ret (0%Z, None, v, w)
  | Ok (Some _), None => Panic
  | Ok (Some mgh), Some k =>
      if IsPaused (hs_Hub mgh) then Ret (0%Z, None, v, w)
      else if gh_Deleting (hs_Hub mgh) then
        if negb agentsRemoved then Ret (5%Z, None, v, w)
        else
          match pruneStrimziResources defaultNamespace k w with
          | (PruneLater, w') => Ret (5%Z, None, v, w')
          | (PruneError e, w') => Ret (0%Z, Some e, v, w')
          | (PruneDone, w') => Ret (0%Z, None, set_kafkaRemoved true v, w')
          end
      else
        let v := set_kafkaRemoved false v in
        let '(e, w) := if hs_EnableMetrics mgh then (None, w) else PruneMetricsResources strimzi_metrics w in
        match e with
        | Some e => Ret (0%Z, Some e, v, w)
        | None =>
            let! (after, e, reconcileErr, v, w) := kafka_install v k mgh w in
            Ret (after, e, v, report (getKafkaComponentStatus reconcileErr (tv_status v) (tv_conn v)) (tv_updateKafka v) w)
        end
  end.

(** ** [TransportReconciler.Reconcile] *)
Definition transport_delete (v : TransportVars) : Z * TransportVars :=
  if isBYOKafka (tv_config v) then (0%Z, set_conn None (set_removed true v))
  else
    let v := set_removed (tv_kafkaRemoved v) v in
    if tv_removed v then (0%Z, set_conn None v) else (5%Z, v).

(** [started] is the error of starting the Kafka controller. *)
Definition transport_install (started : option goerror) (mgh : HubSettings) (v : TransportVars) (w : W) : outcome (answer * TransportVars * W) :=
  let '(e, c, w) := SetTransportConfig (hs_Hub mgh) (tv_config v) w in
  let v := set_config c v in
  match e with
  | Some e => Ret ((0%Z, Some e, Some e), v, w)
  | None =>
      match transporterProtocol c with
      | StrimziTransporter =>
          let! (needRequeue, e, k, w) := EnsureKafka range Render known c mgh (NewStrimziTransporter (tv_installer v) mgh community) w in
          let v := set_installer (Some k) v in
          match e with
          | Some e => Ret ((0%Z, Some e, None), v, w)
          | None =>
              if needRequeue then Ret ((5%Z, None, None), v, w)
              else if tv_started v then Ret ((0%Z, None, None), v, w)
              else
                match started with
                | Some e => Ret ((0%Z, Some e, None), v, w)
                | None => Ret ((0%Z, None, None), set_started true v, w)
                end
          end
      | SecretTransporter =>
          let! r := byo_GetConnCredential c (hs_Namespace mgh) GHTransportSecretName w in
          match r with
          | Err e => Ret ((0%Z, Some e, None), v, w)
          | Ok conn =>
              let '(updated, conn') := SetTransporterConn (Some conn) (tv_conn v) in
              Ret ((0%Z, None, None), set_updateTransport updated (set_conn conn' v), w)
          end
      end
  end.

Definition transport_Reconcile (mgh : result (option HubSettings)) (started : option goerror) (v : TransportVars) (w : W)
    : outcome (Z * option goerror * TransportVars * W) :=
  match mgh with
  | Err e => Ret (0%Z, Some e, v, w)
  | Ok None => Ret (0%Z, None, v, w)
  | Ok (Some mgh) =>
      if IsPaused (hs_Hub mgh) then Ret (0%Z, None, v, w)
      else if gh_Deleting (hs_Hub mgh) then let '(after, v) := transport_delete v in Ret (after, None, v, w)
      else
        let! (after, e, reconcileErr, v, w) := transport_install started mgh v w in
        Ret (after, e, v,
             if isBYOKafka (tv_config v)
             then report (getTransportComponentStatus reconcileErr (tv_conn v)) (tv_updateTransport v) w else w)
  end.
End Controllers.
