(* ===== verification/StrimziFacts.v ===== *)
(** * What the installation keeps and what its removal leaves

    The cluster follows the operand and is then left alone, what the operand no
    longer asks for stays, and the resources are said to be removed after the
    topics, the cluster and the subscription are gone. *)

From stdpp Require Import prelude gmap strings list.
From Stdlib Require Import ZArith.
From S2P Require Import Prelude.
From S2P Require Import GoLib.
From S2P Require Import Libraries.
From S2P Require Import KubeClient.
From S2P Require Import KafkaAccess.
From S2P Require Import AgentAddon.
From S2P Require Import Operand.
From S2P Require Import Credentials.
From S2P Require Import Deployer.
From S2P Require Import StrimziInstall.

Local Open Scope string_scope.
Local Open Scope list_scope.

(** ** Merge patches *)
Section Patches.
Context `{KafkaMergeLaws}.

Lemma patch_list_again {A} (e d : list A) : patch_list (patch_list e d) d = patch_list e d.
Proof. by destruct d. Qed.
Lemma patch_opt_again {A} (e d : option A) : patch_opt (patch_opt e d) d = patch_opt e d.
Proof. by destruct d. Qed.
Lemma patch_template_again e d : patch_template (patch_template e d) d = patch_template e d.
Proof.
  destruct e as [[a l p]|], d as [[a' l' p']|]; cbn; try done; [by rewrite patch_opt_again, !patch_list_again|].
  by destruct a', l', p'.
Qed.
Lemma patch_template_same t : patch_template t t = t.
Proof. destruct t as [[a l p]|]; [|done]. cbn. by destruct a, l, p. Qed.

Lemma patch_spec_same s : patch_spec s s = s.
Proof.
  destruct s as [c l a v m t e z]. unfold patch_spec. cbn. rewrite merge_config_same, !patch_template_same, orb_diag.
  by destruct l, m.
Qed.
Lemma patch_spec_again m e d : set_metrics m (patch_spec (set_metrics m (patch_spec e d)) d) = set_metrics m (patch_spec e d).
Proof.
  unfold set_metrics, patch_spec. cbn. by rewrite merge_config_again, patch_opt_again, !patch_template_again, <- orb_assoc, orb_diag.
Qed.
Lemma set_metrics_same s : set_metrics (ks_Metrics s) s = s.
Proof. by destruct s. Qed.
End Patches.

(** ** The cluster *)
Section Cluster.
Context {W : Type} `{!KubeClient W conn_kind} `{!KubeServer W conn_kind} `{KafkaMergeLaws}.
Context (range : gmap string string -> list (string * string)).
Notation ensure := (CreateUpdateKafkaCluster range).

Lemma newKafkaCluster_spec k mgh : exists d, kk_Spec (newKafkaCluster range k mgh) = Some d.
Proof. by eexists. Qed.

Lemma ensure_found k mgh (w : W) existing d u :
  kget w CKafka (hs_Namespace mgh, kafkaClusterName (in_cluster k)) = Found existing ->
  kk_Spec (newKafkaCluster range k mgh) = Some d -> merge_kafka existing (newKafkaCluster range k mgh) = Ok u ->
  exists s, kk_Spec u = Some s /\
    ensure k mgh w =
      if bool_decide (Some (set_metrics (ks_Metrics d) s) = kk_Spec existing) then Ret (None, false, w)
      else let '(r, w') := kupdate w CKafka (with_spec (Some (set_metrics (ks_Metrics d) s)) u) in Ret (written_err r, true, w').
Proof.
  intros Hg Hd Hm. destruct (merge_kafka_Ok _ _ _ Hm) as (_ & _ & _ & _ & _ & Hs). rewrite Hd in Hs.
  assert (exists s, kk_Spec u = Some s) as [s Es].
  { destruct (kk_Spec existing); rewrite Hs; by eexists. }
  exists s. split; [done|]. unfold ensure. rewrite Hg, Hm, Es, Hd. done.
Qed.

(** The order in which the node selector is read is all that a reconciliation
    takes from the iteration of a map. *)
Lemma newKafkaCluster_range range' k mgh : range <$> hs_NodeSelector mgh = range' <$> hs_NodeSelector mgh ->
  newKafkaCluster range' k mgh = newKafkaCluster range k mgh.
Proof.
  intros E. unfold newKafkaCluster.
  assert (setAffinity range' mgh = setAffinity range mgh) as ->; [|done].
  unfold setAffinity. destruct (hs_NodeSelector mgh) as [s|]; [|done]. cbn in E. injection E as E. by rewrite E.
Qed.
Lemma ensure_range range' k mgh (w : W) : range <$> hs_NodeSelector mgh = range' <$> hs_NodeSelector mgh ->
  CreateUpdateKafkaCluster range' k mgh w = ensure k mgh w.
Proof. intros E. unfold CreateUpdateKafkaCluster. by rewrite (newKafkaCluster_range range' k mgh E). Qed.

(** C27: A reconciliation of the Kafka cluster that ends without an error leaves a
    cluster with the listeners, the version and the metrics that the operand asks
    for, and a second one that reads the node selector in the same order writes
    nothing; a selector of at most one entry has one order
    ([small_selector_has_one_order]). *)
Theorem installed_cluster_converges range' k mgh (w w' : W) b :
  range <$> hs_NodeSelector mgh = range' <$> hs_NodeSelector mgh ->
  responsive W conn_kind -> (forall e d, exists u, merge_kafka e d = Ok u) ->
  kafkaClusterNamespace (in_cluster k) = hs_Namespace mgh ->
  ensure k mgh w = Ret (None, b, w') ->
  CreateUpdateKafkaCluster range' k mgh w' = Ret (None, false, w') /\
  exists o s d, kobjects w' CKafka !! (hs_Namespace mgh, kafkaClusterName (in_cluster k)) = Some o /\
    kk_Spec o = Some s /\ kk_Spec (newKafkaCluster range k mgh) = Some d /\
    patch_opt (ks_Listeners s) (ks_Listeners d) = ks_Listeners s /\ ks_Version s = ks_Version d /\ ks_Metrics s = ks_Metrics d.
Proof.
  intros Hsame Hr Hall Hns. rewrite (ensure_range range' k mgh w' Hsame).
  destruct (newKafkaCluster_spec k mgh) as [d Hd]. unfold ensure at 1.
  destruct (kget w CKafka _) as [existing| |e] eqn:Eg; [| |done].
  - destruct (Hall existing (newKafkaCluster range k mgh)) as [u Hu].
    destruct (ensure_found _ _ _ _ _ _ Eg Hd Hu) as (s & Hs & He). unfold ensure in He. rewrite Eg in He. rewrite He. clear He.
    destruct (merge_kafka_Ok _ _ _ Hu) as (Hkey & _ & _ & _ & _ & Hspec). rewrite Hs, Hd in Hspec.
    assert (exists s0, s = patch_spec s0 d \/ s = d) as (s0 & Hs0) by (destruct (kk_Spec existing) as [x|]; injection Hspec as ->; [exists x; by left|exists d; by right]).
    assert (set_metrics (ks_Metrics d) (patch_spec (set_metrics (ks_Metrics d) s) d) = set_metrics (ks_Metrics d) s) as Hagain.
    { destruct Hs0 as [->| ->]; [apply patch_spec_again|]. by rewrite set_metrics_same, patch_spec_same, set_metrics_same. }
    assert (patch_opt (ks_Listeners s) (ks_Listeners d) = ks_Listeners s /\ ks_Version s = ks_Version d) as [Hl Hv].
    { destruct Hs0 as [->| ->]; cbn; [by rewrite patch_opt_again|]. by destruct (ks_Listeners d). }
    case_bool_decide as Hb.
    + intros [= <- <-]. split.
      * destruct (ensure_found _ _ _ _ _ _ Eg Hd Hu) as (s' & Hs' & ->). rewrite Hs in Hs'. injection Hs' as <-.
        by rewrite bool_decide_eq_true_2.
      * exists existing, (set_metrics (ks_Metrics d) s), d. split; [by apply kget_Found in Eg|]. split_and!; done.
    + destruct (kupdate _ _ _) as [r w1] eqn:Eu. destruct r; try done. intros [= <- <-].
      pose proof (kget_name _ _ _ _ Eg) as Hn. cbn in Hn.
      assert (kobjects w1 CKafka !! (hs_Namespace mgh, kafkaClusterName (in_cluster k)) = Some (with_spec (Some (set_metrics (ks_Metrics d) s)) u : kobj CKafka)) as Hst.
      { rewrite <- Hn, <- Hkey. exact (kupdate_lookup _ _ _ _ Eu eq_refl). }
      split.
      * pose proof (kget_present _ _ _ _ Hr Hst) as Eg'. destruct (Hall (with_spec (Some (set_metrics (ks_Metrics d) s)) u) (newKafkaCluster range k mgh)) as [u' Hu'].
        destruct (ensure_found _ _ _ _ _ _ Eg' Hd Hu') as (s' & Hs' & ->).
        destruct (merge_kafka_Ok _ _ _ Hu') as (_ & _ & _ & _ & _ & Hspec'). rewrite Hs', Hd in Hspec'. cbn in Hspec'. injection Hspec' as ->.
        rewrite bool_decide_eq_true_2; [done|]. cbn. by rewrite Hagain.
      * eexists _, _, d. split; [exact Hst|]. cbn. split_and!; done.
  - destruct (kcreate _ _ _) as [r w1] eqn:Ec. destruct r; try done. intros [= <- <-].
    assert (kobjects w1 CKafka !! (hs_Namespace mgh, kafkaClusterName (in_cluster k)) = Some (newKafkaCluster range k mgh : kobj CKafka)) as Hst.
    { rewrite <- Hns. exact (kcreate_lookup _ _ _ _ Ec). }
    split.
    + pose proof (kget_present _ _ _ _ Hr Hst) as Eg'. destruct (Hall (newKafkaCluster range k mgh) (newKafkaCluster range k mgh)) as [u' Hu'].
      destruct (ensure_found _ _ _ _ _ _ Eg' Hd Hu') as (s' & Hs' & ->).
      destruct (merge_kafka_Ok _ _ _ Hu') as (_ & _ & _ & _ & _ & Hspec'). rewrite Hs', Hd in Hspec'. injection Hspec' as ->.
      rewrite bool_decide_eq_true_2; [done|]. rewrite patch_spec_same, set_metrics_same. done.
    + eexists _, d, d. split; [exact Hst|]. split_and!; try done. by destruct (ks_Listeners d).
Qed.

(** What the template of the pods asks for. *)
Definition wanted (mgh : HubSettings) : PodTemplate :=
  MkPodTemplate (range <$> hs_NodeSelector mgh) (default [] (hs_Tolerations mgh))
    (if String.eqb (hs_ImagePullSecret mgh) "" then [] else [hs_ImagePullSecret mgh]).
Definition wants (mgh : HubSettings) : bool :=
  match hs_NodeSelector mgh, hs_Tolerations mgh with None, None => negb (String.eqb (hs_ImagePullSecret mgh) "") | _, _ => true end.

(** The pods of the brokers and of the entity operator get the node selector, the
    tolerations and the pull secret of the operand together. *)
Lemma templates_hold_every_setting k mgh :
  (forall e d, exists s, merge_spec e d = Ok s) ->
  exists d, kk_Spec (newKafkaCluster range k mgh) = Some d /\
    ks_Template d = (if wants mgh then Some (wanted mgh) else None) /\ ks_EntityTemplate d = ks_Template d.
Proof.
  intros Hall. eexists. split; [reflexivity|]. unfold setImagePullSecret, wants, wanted.
  set (s0 := MkKafkaSpec _ _ _ _ _ _ _ _).
  assert (forall s, ks_Template (setMetricsConfig mgh s) = ks_Template s /\ ks_EntityTemplate (setMetricsConfig mgh s) = ks_EntityTemplate s) as Hm
    by (intros s; unfold setMetricsConfig; by destruct (hs_EnableMetrics mgh)).
  destruct (Hm (setTolerations mgh (setAffinity range mgh s0))) as [H1 H2].
  destruct (String.eqb_spec (hs_ImagePullSecret mgh) "") as [E|E].
  - rewrite H1, H2. unfold setTolerations, setAffinity. by destruct (hs_NodeSelector mgh), (hs_Tolerations mgh).
  - match goal with |- context [merge_spec ?a ?b] => destruct (Hall a b) as [s Hs]; rewrite Hs; apply merge_spec_Ok in Hs as -> end.
    cbn [patch_spec ks_Template ks_EntityTemplate set_templates]. rewrite H1, H2.
    unfold setTolerations, setAffinity. destruct (hs_NodeSelector mgh), (hs_Tolerations mgh) as [[|]|]; done.
Qed.

(** What the operand no longer asks for stays in the cluster: when its node
    selector, tolerations and pull secret are taken away, a reconciliation leaves the
    template of the pods as it was. *)
Theorem removed_placement_stays k mgh existing s (w w' : W) b :
  hs_NodeSelector mgh = None -> hs_Tolerations mgh = None -> hs_ImagePullSecret mgh = "" ->
  kget w CKafka (hs_Namespace mgh, kafkaClusterName (in_cluster k)) = Found existing -> kk_Spec existing = Some s ->
  ensure k mgh w = Ret (None, b, w') ->
  exists o s', kobjects w' CKafka !! (hs_Namespace mgh, kafkaClusterName (in_cluster k)) = Some o /\ kk_Spec o = Some s' /\
    ks_Template s' = ks_Template s /\ ks_EntityTemplate s' = ks_EntityTemplate s.
Proof.
  intros Hn Ht Hp Hg Hs He. pose proof (kget_name _ _ _ _ Hg) as Hname. cbn in Hname. unfold ensure in He. rewrite Hg in He.
  destruct (merge_kafka existing _) as [u|] eqn:Hu; [|done]. destruct (newKafkaCluster_spec k mgh) as [d Hd].
  assert (ks_Template d = None /\ ks_EntityTemplate d = None) as [Hd1 Hd2].
  { unfold newKafkaCluster in Hd. cbn in Hd. injection Hd as <-. unfold setImagePullSecret. rewrite Hp. cbn.
    unfold setMetricsConfig, setTolerations, setAffinity. rewrite Ht, Hn. by destruct (hs_EnableMetrics mgh). }
  destruct (merge_kafka_Ok _ _ _ Hu) as (Hkey & _ & _ & _ & _ & Hsu). rewrite Hs, Hd in Hsu. rewrite Hsu, Hd in He. cbn in He.
  case_bool_decide as Hb.
  - injection He as <- <-. exists existing, s. split; [by apply kget_Found in Hg|]. done.
  - destruct (kupdate _ _ _) as [r w1] eqn:Eu. destruct r; try done. injection He as <- <-.
    eexists _, _. split; [rewrite <- Hname, <- Hkey; exact (kupdate_lookup _ _ _ _ Eu eq_refl)|]. split; [reflexivity|].
    cbn. rewrite Hd1, Hd2. by destruct (ks_Template s), (ks_EntityTemplate s).
Qed.
End Cluster.

Lemma small_selector_has_one_order (range range' : gmap string string -> list (string * string)) mgh :
  (forall m, range m ≡ₚ map_to_list m) -> (forall m, range' m ≡ₚ map_to_list m) ->
  (forall m, hs_NodeSelector mgh = Some m -> size m <= 1) ->
  range <$> hs_NodeSelector mgh = range' <$> hs_NodeSelector mgh.
Proof.
  intros Hr Hr' Hs. destruct (hs_NodeSelector mgh) as [m|] eqn:E; [|done]. cbn. f_equal. specialize (Hs m eq_refl).
  assert (length (map_to_list m) <= 1) as Hl by (by rewrite length_map_to_list).
  pose proof (Hr m) as P. pose proof (Hr' m) as P'. destruct (map_to_list m) as [|x [|y l]]; [| |cbn in Hl; lia].
  - apply Permutation_nil_r in P, P'. congruence.
  - apply Permutation_singleton_r in P, P'. congruence.
Qed.

(** A Go map is read in any order: the cluster of one order is written again by a
    reconciliation that reads the node selector in another. *)
Lemma reordered_selector_is_written_again {W : Type} `{!KubeClient W conn_kind} `{!KubeServer W conn_kind} `{KafkaMergeLaws}
    (range range' : gmap string string -> list (string * string)) k mgh selector (w : W) u :
  hs_NodeSelector mgh = Some selector -> range selector <> range' selector ->
  (forall e d, exists s, merge_spec e d = Ok s) ->
  kget w CKafka (hs_Namespace mgh, kafkaClusterName (in_cluster k)) = Found (newKafkaCluster range k mgh) ->
  merge_kafka (newKafkaCluster range k mgh) (newKafkaCluster range' k mgh) = Ok u ->
  exists o, CreateUpdateKafkaCluster range' k mgh w =
    (let '(r, w') := kupdate w CKafka o in Ret (written_err r, true, w')) /\ kk_Spec o <> kk_Spec (newKafkaCluster range k mgh).
Proof.
  intros Hn Hr Hall Hg Hu. destruct (templates_hold_every_setting range k mgh Hall) as (d & Hd & Ht & _).
  destruct (templates_hold_every_setting range' k mgh Hall) as (d' & Hd' & Ht' & _).
  assert (wants mgh = true) as Hw by (unfold wants; by rewrite Hn). rewrite Hw in Ht, Ht'.
  destruct (ensure_found _ _ _ _ _ _ _ Hg Hd' Hu) as (s & Hs & ->).
  destruct (merge_kafka_Ok _ _ _ Hu) as (_ & _ & _ & _ & _ & Hspec). rewrite Hs, Hd, Hd' in Hspec. injection Hspec as ->.
  assert (Some (set_metrics (ks_Metrics d') (patch_spec d d')) <> Some d) as Hne.
  { intros [= E]. assert (ks_Template (patch_spec d d') = ks_Template d) as E' by (by rewrite <- E at 2).
    cbn in E'. rewrite Ht, Ht' in E'. apply (f_equal (fun t => t ≫= pt_NodeAffinity)) in E'. cbn in E'. rewrite Hn in E'. cbn in E'. congruence. }
  rewrite Hd, bool_decide_eq_false_2 by exact Hne. eexists. split; [done|]. exact Hne.
Qed.

(** ** The removal *)
Section Removal.
Context {W : Type} `{!KubeClient W conn_kind} `{!KubeServer W conn_kind}.

Lemma pl_mark_deleting o o' : pl_mark o = Some o' -> pl_Deleting o' = true /\ pl_Labels o' = pl_Labels o /\ pl_Key o' = pl_Key o.
Proof. unfold pl_mark. destruct (pl_Finalizers o); [done|by intros [= <-]]. Qed.

Lemma kdelete_gone (k : conn_kind) n (w : W) r w' : (forall o, obj_mark k o = None) -> kdelete w k n = (r, w') ->
  (forall e, r <> Refused e) ->
  kobjects w' k !! n = None /\ forall k' n', k' <> k \/ n' <> n -> kobjects w' k' !! n' = kobjects w k' !! n'.
Proof.
  intros Hm Hd Hr. destruct (kdelete_left _ _ _ _ _ Hd Hr) as [Hl Ho]. split; [|done]. rewrite Hl. unfold left_of.
  by destruct (kobjects w k !! n); cbn; [apply Hm|].
Qed.

Lemma prune_subscription_done ns k (w w' : W) : prune_subscription ns k w = (PruneDone, w') ->
  kobjects w' CSubscription !! (ns, subName k) = None /\
  forall k' n, k' <> CSubscription -> k' <> CServiceVersion -> kobjects w' k' !! n = kobjects w k' !! n.
Proof.
  assert (forall w1 w2 : W,
    match kdelete w1 CSubscription (ns, subName k) with (Refused e, w') => (PruneError e, w') | (_, w') => (PruneDone, w') end = (PruneDone, w2) ->
    kobjects w2 CSubscription !! (ns, subName k) = None /\
    forall k' n, k' <> CSubscription -> k' <> CServiceVersion -> kobjects w2 k' !! n = kobjects w1 k' !! n) as Hdel.
  { intros w1 w2. destruct (kdelete w1 CSubscription _) as [r w3] eqn:Ed. intros E.
    assert (forall e, r <> Refused e) as Hr by (intros e ->; done). assert (w3 = w2) as -> by (destruct r; by injection E).
    destruct (kdelete_gone CSubscription _ _ _ _ ltac:(done) Ed Hr) as [Hg Ho]. split; [done|]. intros k' n Hk _. apply Ho. by left. }
  unfold prune_subscription. destruct (kget w CSubscription _) as [s| |e] eqn:Eg; [| |done].
  - destruct (String.eqb _ _); [apply Hdel|]. destruct (kdelete w CServiceVersion _) as [r w1] eqn:Ec. destruct r; try done.
    intros [Hg Ho]%Hdel. split; [done|]. intros k' n H1 H2. rewrite Ho by done.
    eapply (kdelete_gone CServiceVersion); [done|exact Ec|done|by left].
  - intros [= <-]. split; [by eapply kget_Missing|done].
Qed.

Lemma prune_cluster_done ns k (w w' : W) : prune_cluster ns k w = (PruneDone, w') ->
  kobjects w' CKafka !! (ns, kafkaClusterName (in_cluster k)) = None /\
  kobjects w' CSubscription !! (ns, subName k) = None /\
  (forall n o, kobjects w CVolume !! n = Some o -> kobjects w' CVolume !! n =
     if decide (pl_Labels o !! "strimzi.io/cluster" = Some KafkaClusterName) then pl_mark o else Some o) /\
  (forall n, kobjects w CVolume !! n = None -> kobjects w' CVolume !! n = None) /\
  (forall n, kobjects w' CUser !! n = kobjects w CUser !! n) /\ (forall n, kobjects w' CTopic !! n = kobjects w CTopic !! n).
Proof.
  unfold prune_cluster. destruct (kdelete w CKafka _) as [r w1] eqn:Ed. intros E.
  assert (forall e, r <> Refused e) as Hr by (intros e ->; done).
  destruct (kdelete_gone CKafka _ _ _ _ ltac:(done) Ed Hr) as [Hg Ho].
  destruct (klist w1 CVolume) as [l|e] eqn:El; [|by destruct r].
  destruct (delete_each CVolume (kafka_volumes l) w1) as [[e|] w2] eqn:Ev; [by destruct r|].
  assert (prune_subscription ns k w2 = (PruneDone, w')) as Hs by (by destruct r). clear E.
  destruct (delete_filtered CVolume _ _ _ _ El Ev) as [Hv Hov]. apply prune_subscription_done in Hs as [Hs Hos].
  split; [etrans; [by apply (Hos CKafka)|]; etrans; [apply (Hov CKafka); by left|exact Hg]|]. split; [done|]. split.
  { intros n o Hn. etrans; [by apply (Hos CVolume)|]. apply Hv. etrans; [apply (Ho CVolume); by left|exact Hn]. }
  split.
  { intros n Hn. assert (kobjects w1 CVolume !! n = None) as H1 by (etrans; [apply (Ho CVolume); by left|exact Hn]).
    etrans; [by apply (Hos CVolume)|]. etrans; [apply (Hov CVolume); by right|exact H1]. }
  split; intros n.
  - etrans; [by apply (Hos CUser)|]. etrans; [apply (Hov CUser); by left|apply (Ho CUser); by left].
  - etrans; [by apply (Hos CTopic)|]. etrans; [apply (Hov CTopic); by left|apply (Ho CTopic); by left].
Qed.

(** When the controller says that the resources are removed, no topic of its
    namespace is left, the Kafka cluster and the subscription are gone, and what
    is left of the users and of the volumes is being deleted. *)
Theorem removed_resources_are_gone ns k (w w' : W) :
  pruneStrimziResources ns k w = (PruneDone, w') ->
  (forall n o, kobjects w' CTopic !! n = Some o -> n.1 <> ns) /\
  kobjects w' CKafka !! (ns, kafkaClusterName (in_cluster k)) = None /\
  kobjects w' CSubscription !! (ns, subName k) = None /\
  (forall n o, kobjects w' CUser !! n = Some o -> n.1 = ns -> pl_Deleting o = true) /\
  (forall n o, kobjects w' CVolume !! n = Some o -> pl_Labels o !! "strimzi.io/cluster" = Some KafkaClusterName -> pl_Deleting o = true).
Proof.
  unfold pruneStrimziResources. destruct (klist w CUser) as [lu|e] eqn:Eu; [|done].
  destruct (delete_each CUser _ w) as [[e|] w1] eqn:Du; [done|]. destruct (klist w1 CTopic) as [lt|e] eqn:Et; [|done].
  destruct (delete_each CTopic _ w1) as [[e|] w2] eqn:Dt; [done|]. destruct (klist w2 CTopic) as [lt'|e] eqn:Et'; [|done].
  destruct (in_namespace ns lt') as [|? ?] eqn:En; [|done]. intros Hp.
  destruct (delete_filtered CUser _ _ _ _ Eu Du) as [Hu Hou]. destruct (delete_filtered CTopic _ _ _ _ Et Dt) as [_ Hot].
  destruct (prune_cluster_done _ _ _ _ Hp) as (Hk & Hs & Hv & Hnv & Huser & Htopic). split_and!; [|done|done|..].
  - intros n o Ho Hn. pose proof (eq_trans (eq_sym (Htopic n)) Ho) as Ht. pose proof (kobjects_named _ _ _ _ Ht) as Hname. cbn in Hname.
    assert (n ∈ in_namespace ns lt') as Hin; [|rewrite En in Hin; by apply not_elem_of_nil in Hin].
    unfold in_namespace. apply list_elem_of_fmap. exists o. split; [done|]. apply list_elem_of_filter. split; [by rewrite Hname|].
    apply (klist_elem _ _ _ Et'). cbn. by rewrite Hname.
  - intros n o Ho Hn.
    assert (kobjects w1 CUser !! n = Some o) as H1 by (etrans; [symmetry; etrans; [apply Huser|apply (Hot CUser); by left]|exact Ho]).
    destruct (kobjects w CUser !! n) as [o0|] eqn:E0.
    + pose proof (eq_trans (eq_sym (Hu n o0 E0)) H1) as X. pose proof (kobjects_named _ _ _ _ E0) as Hname. cbn in Hname.
      rewrite decide_True in X by (by rewrite Hname). by apply pl_mark_deleting in X as [? _].
    + pose proof (Hou CUser n (or_intror E0)) as X. rewrite E0 in X. by discriminate (eq_trans (eq_sym X) H1).
  - intros n o Ho Hl. destruct (kobjects w2 CVolume !! n) as [o0|] eqn:E0; [|by discriminate (eq_trans (eq_sym (Hnv n E0)) Ho)].
    pose proof (eq_trans (eq_sym (Hv n o0 E0)) Ho) as X. case_decide as Hd.
    + by apply pl_mark_deleting in X as [? _].
    + injection X as ->. done.
Qed.

(** The volumes are those of every namespace: a Kafka cluster of the same name
    that others run in another namespace loses its volumes. *)
Lemma volumes_of_every_namespace_go ns k n o (w w' : W) :
  kobjects w CVolume !! n = Some o -> pl_Labels o !! "strimzi.io/cluster" = Some KafkaClusterName -> pl_Finalizers o = [] ->
  prune_cluster ns k w = (PruneDone, w') -> kobjects w' CVolume !! n = None.
Proof.
  intros Hn Hl Hf Hp. destruct (prune_cluster_done _ _ _ _ Hp) as (_ & _ & Hv & _). etrans; [exact (Hv n o Hn)|].
  rewrite decide_True by done. unfold pl_mark. by rewrite Hf.
Qed.

(** The subscription and the versions are what they were. *)
Definition same_catalogue (w w' : W) : Prop :=
  kobjects w' CSubscription = kobjects w CSubscription /\ kobjects w' CServiceVersion = kobjects w CServiceVersion.
Lemma same_catalogue_trans (w1 w2 w3 : W) : same_catalogue w1 w2 -> same_catalogue w2 w3 -> same_catalogue w1 w3.
Proof. intros [H1 H2] [H3 H4]. split; congruence. Qed.

Lemma delete_keeps k' n (w w' : W) r : kdelete w k' n = (r, w') -> k' <> CSubscription -> k' <> CServiceVersion -> same_catalogue w w'.
Proof.
  intros Ed H1 H2. destruct r as [| |x].
  - apply kdelete_Done in Ed as [_ Ho]. split; apply Ho; congruence.
  - by apply kdelete_Gone in Ed as [_ ->].
  - apply kdelete_refused in Ed. split; by rewrite Ed.
Qed.
Lemma delete_each_keeps k' items : k' <> CSubscription -> k' <> CServiceVersion -> forall (w w' : W) e,
  delete_each k' items w = (e, w') -> same_catalogue w w'.
Proof.
  intros H1 H2. induction items as [|i items IH]; intros w w' e; cbn [delete_each]; [by intros [= <- <-]|].
  destruct (kdelete w k' i) as [r w1] eqn:Ed. apply delete_keeps in Ed; [|done..].
  destruct r; [intros E%IH; by eapply same_catalogue_trans..|by intros [= <- <-]].
Qed.

(** The subscription names a version that is gone. *)
Definition stuck ns k sub (w : W) : Prop :=
  kobjects w CSubscription !! (ns, subName k) = Some sub /\ kobjects w CServiceVersion !! (ns, sb_InstalledCSV sub) = None.
Lemma stuck_stays ns k sub (w w' : W) : same_catalogue w w' -> stuck ns k sub w -> stuck ns k sub w'.
Proof. intros [H1 H2] [H3 H4]. split; by rewrite ?H1, ?H2. Qed.

Lemma stuck_subscription ns k sub (w w' : W) r : sb_InstalledCSV sub <> "" -> stuck ns k sub w ->
  prune_subscription ns k w = (r, w') -> r <> PruneDone /\ stuck ns k sub w'.
Proof.
  intros Hcsv Hst. pose proof Hst as [Hsub Hnone]. unfold prune_subscription. destruct (kget w CSubscription _) as [s| |e] eqn:Eg.
  - apply kget_Found in Eg. pose proof (eq_trans (eq_sym Hsub) Eg) as X. injection X as <-. destruct (String.eqb_spec (sb_InstalledCSV sub) ""); [done|].
    destruct (kdelete w CServiceVersion _) as [x w1] eqn:Ex. destruct x as [| |x].
    + apply kdelete_Done in Ex as [(o & Ho & _) _]. by discriminate (eq_trans (eq_sym Ho) Hnone).
    + apply kdelete_Gone in Ex as [_ ->]. by intros [= <- <-].
    + apply kdelete_refused in Ex. intros [= <- <-]. split; [done|]. eapply stuck_stays; [|done]. split; by rewrite Ex.
  - apply kget_Missing in Eg. by discriminate (eq_trans (eq_sym Hsub) Eg).
  - by intros [= <- <-].
Qed.

Lemma stuck_cluster ns k sub (w w' : W) r : sb_InstalledCSV sub <> "" -> stuck ns k sub w ->
  prune_cluster ns k w = (r, w') -> r <> PruneDone /\ stuck ns k sub w'.
Proof.
  intros Hcsv Hst. unfold prune_cluster. destruct (kdelete w CKafka _) as [x w1] eqn:Ed.
  apply delete_keeps in Ed; [|done..]. pose proof (stuck_stays _ _ _ _ _ Ed Hst) as H1.
  destruct x as [| |x]; [| |by intros [= <- <-]].
  all: destruct (klist w1 CVolume) as [l|e]; [|by intros [= <- <-]].
  all: destruct (delete_each CVolume _ w1) as [e w2] eqn:Ev; apply delete_each_keeps in Ev; [|done..].
  all: pose proof (stuck_stays _ _ _ _ _ Ev H1) as H2.
  all: destruct e as [e|]; [by intros [= <- <-]|by apply stuck_subscription].
Qed.

(** C38: A version of the Kafka operator that is gone while its subscription is left
    blocks the removal: no attempt ends it, and each leaves the same state. *)
Theorem missing_version_blocks_the_removal ns k sub (w w' : W) r :
  sb_InstalledCSV sub <> "" -> stuck ns k sub w -> pruneStrimziResources ns k w = (r, w') ->
  r <> PruneDone /\ stuck ns k sub w'.
Proof.
  intros Hcsv Hst. unfold pruneStrimziResources. destruct (klist w CUser) as [lu|e]; [|by intros [= <- <-]].
  destruct (delete_each CUser _ w) as [e w1] eqn:Du. apply delete_each_keeps in Du; [|done..].
  pose proof (stuck_stays _ _ _ _ _ Du Hst) as H1. destruct e; [by intros [= <- <-]|].
  destruct (klist w1 CTopic) as [lt|e]; [|by intros [= <- <-]].
  destruct (delete_each CTopic _ w1) as [e w2] eqn:Dt. apply delete_each_keeps in Dt; [|done..].
  pose proof (stuck_stays _ _ _ _ _ Dt H1) as H2. destruct e; [by intros [= <- <-]|].
  destruct (klist w2 CTopic) as [lt'|e]; [|by intros [= <- <-]].
  destruct (in_namespace ns lt'); [by apply stuck_cluster|by intros [= <- <-]].
Qed.
End Removal.

(** A removal that deletes the version and then fails on the subscription leaves that state. *)
Lemma failed_subscription_is_stuck {W : Type} `{!KubeClient W conn_kind} `{!KubeServer W conn_kind} ns k sub (w w1 w2 : W) e :
  kget w CSubscription (ns, subName k) = Found sub -> sb_InstalledCSV sub <> "" ->
  kdelete w CServiceVersion (ns, sb_InstalledCSV sub) = (Done, w1) ->
  kdelete w1 CSubscription (ns, subName k) = (Refused e, w2) ->
  prune_subscription ns k w = (PruneError e, w2) /\ stuck ns k sub w2.
Proof.
  intros Hg Hn H1 H2. unfold prune_subscription. rewrite Hg. destruct (String.eqb_spec (sb_InstalledCSV sub) ""); [done|].
  rewrite H1, H2. split; [done|]. apply kget_Found in Hg. apply kdelete_refused in H2. unfold stuck. rewrite H2.
  destruct (kdelete_gone CServiceVersion _ _ _ _ ltac:(done) H1 ltac:(done)) as [Hgone Ho]. split; [|exact Hgone].
  etrans; [apply (Ho CSubscription); by left|exact Hg].
Qed.

(** ** The controllers *)
Section Controllers.
Context {W : Type} `{!KubeClient W conn_kind} `{!KubeServer W conn_kind} `{!KubeClient W op_kind} `{!KubeClient W dyn_kind} `{!KubeClient W hub_kind}.
Context `{!StatusClient W} `{Retrier} `{KafkaMerge} `{Derivative} `{Typed} `{RestMapper}.
Context (range : gmap string string -> list (string * string)) (now : Z).
Context (Render : KafkaManifests -> result (list Unstructured)) (known : result bool).
Context (mghNamespacedName : obj_key) (ns : string) (community : bool).
Notation kafka_reconcile := (kafka_Reconcile range now Render known mghNamespacedName ns).
Notation transport_reconcile := (transport_Reconcile range now Render known mghNamespacedName community).

Lemma install_keeps v k mgh (w w' : W) a v' : kafka_install range Render known v k mgh w = Ret (a, v', w') ->
  tv_kafkaRemoved v' = tv_kafkaRemoved v /\ tv_config v' = tv_config v.
Proof.
  unfold kafka_install. destruct (EnsureKafka _ _ _ _ _ _ _) as [[[[nr e] k1] w1]| | |]; try done. cbn.
  destruct e as [e|]; [by intros [= <- <- <-]|]. destruct nr; [by intros [= <- <- <-]|].
  destruct (kafkaClusterReady _ _ _) as [[[st e] fl]| | |]; try done. cbn.
  destruct e as [e|]; [by intros [= <- <- <-]|]. destruct (kafkaReady st); cbn; [|by intros [= <- <- <-]].
  unfold kafka_connect. destruct (SetKafkaClientCA _ _ _ _) as [[e|] ca]; cbn; [by intros [= <- <- <-]|].
  destruct (getManagerTransportConn _ _ _ _) as [[conn|e]| | |]; cbn; try done; [|by intros [= <- <- <-]].
  case_bool_decide; cbn; by intros [= <- <- <-].
Qed.

(** A reconciliation of the Kafka controller for an operand that is not deleted
    forgets that its resources were removed. *)
Lemma live_operand_keeps_kafka mgh agentsRemoved v (w w' : W) after e v' :
  IsPaused (hs_Hub mgh) = false -> gh_Deleting (hs_Hub mgh) = false ->
  kafka_reconcile (Ok (Some mgh)) agentsRemoved v w = Ret (after, e, v', w') ->
  tv_kafkaRemoved v' = false /\ tv_config v' = tv_config v.
Proof.
  intros Hp Hd. unfold kafka_Reconcile. destruct (tv_installer v) as [k|]; [|done]. rewrite Hp, Hd.
  destruct (if hs_EnableMetrics mgh then _ else _) as [[x|] w1]; [by intros [= <- <- <- <-]|].
  destruct (kafka_install _ _ _ _ _ _ _) as [[[[[a1 a2] a3] v1] w2]| | |] eqn:Ei; try done. cbn. intros [= <- <- <- <-].
  by destruct (install_keeps _ _ _ _ _ _ _ Ei) as [-> ->].
Qed.

(** What a reconciliation of the transport controller for such an operand leaves:
    the controller said that its resources are removed when the process started,
    and goes on saying so. *)
Lemma live_operand_keeps_the_flag mgh started v (w w' : W) after e v' :
  gh_Deleting (hs_Hub mgh) = false ->
  transport_reconcile (Ok (Some mgh)) started v w = Ret (after, e, v', w') -> tv_removed v' = tv_removed v.
Proof.
  intros Hd. unfold transport_Reconcile. destruct (IsPaused _); [by intros [= <- <- <- <-]|]. rewrite Hd. unfold transport_install.
  destruct (SetTransportConfig _ _ _) as [[[x|] c] w1]; [by intros [= <- <- <- <-]|].
  destruct (transporterProtocol c).
  - destruct (EnsureKafka _ _ _ _ _ _ _) as [[[[nr x] k1] w2]| | |]; try done. cbn.
    destruct x; [by intros [= <- <- <- <-]|]. destruct nr; [by intros [= <- <- <- <-]|].
    destruct (tv_started v); [by intros [= <- <- <- <-]|]. destruct started; by intros [= <- <- <- <-].
  - destruct (byo_GetConnCredential _ _ _ _) as [[conn|x]| | |]; try done; cbn; [|by intros [= <- <- <- <-]].
    unfold SetTransporterConn. case_bool_decide; by intros [= <- <- <- <-].
Qed.

(** The two controllers on an operand that is being deleted, in any order, with
    anything happening in the cluster in between; listed are the reconciliations of
    the Kafka controller that found the agents removed, with the cluster before
    and after. *)
Inductive teardown (v0 : TransportVars) : list (W * W) -> TransportVars -> Prop :=
| teardown_starts : teardown v0 [] v0
| teardown_kafka l v mgh agentsRemoved (w w' : W) after e v' :
    teardown v0 l v -> IsPaused (hs_Hub mgh) = false -> gh_Deleting (hs_Hub mgh) = true ->
    kafka_reconcile (Ok (Some mgh)) agentsRemoved v w = Ret (after, e, v', w') ->
    teardown v0 (if agentsRemoved then (w, w') :: l else l) v'
| teardown_transport l v mgh started (w w' : W) after e v' :
    teardown v0 l v -> IsPaused (hs_Hub mgh) = false -> gh_Deleting (hs_Hub mgh) = true ->
    transport_reconcile (Ok (Some mgh)) started v w = Ret (after, e, v', w') ->
    teardown v0 l v'.

(** A reconciliation that went through to the end of the removal. *)
Definition removed_at (k : Installer) (p : W * W) : Prop := pruneStrimziResources ns k p.1 = (PruneDone, p.2).

Lemma teardown_flag k v0 l v : isBYOKafka (tv_config v0) = false -> tv_kafkaRemoved v0 = false -> tv_installer v0 = Some k ->
  teardown v0 l v ->
  isBYOKafka (tv_config v) = false /\ tv_installer v = Some k /\ (tv_kafkaRemoved v = true <-> Exists (removed_at k) l).
Proof.
  intros Hb Hf Hk. induction 1 as [|l v mgh removed w w' after e v' _ IH Hp Hd E|l v mgh started w w' after e v' _ IH Hp Hd E].
  - rewrite Hf. split_and!; [done..|]. by rewrite Exists_nil.
  - destruct IH as (Hbv & Hkv & Hfv). unfold kafka_Reconcile in E. rewrite Hkv, Hp, Hd in E.
    destruct removed; cbn [negb] in E; [|by injection E as _ _ <- _]. rewrite Exists_cons. unfold removed_at at 1. cbn [fst snd].
    destruct (pruneStrimziResources ns k w) as [r w1] eqn:Ep.
    destruct r; injection E as _ _ <- <-; (split_and!; [done..|]); cbn; naive_solver.
  - destruct IH as (Hbv & Hkv & Hfv). unfold transport_Reconcile, transport_delete in E. rewrite Hp, Hd, Hbv in E.
    cbn in E. destruct (tv_kafkaRemoved v) eqn:Ekv; injection E as _ _ <- _; cbn; rewrite ?Ekv; by split_and!.
Qed.

(** C32: a reconciliation of the transport controller for an operand that is being
    deleted says that the transport is removed exactly when the Kafka controller has
    gone through the removal with the agents removed, which leaves no topic, no
    Kafka cluster and no subscription; otherwise it comes back after five seconds.
    The Kafka cluster is the one of the operator, and its controller has
    reconciled the operand before the deletion. *)
Theorem kafka_goes_after_the_agents mgh0 mgh agentsRemoved started v v0 v1 l k (w w0 w1 w2 : W) after0 e0 after e v' :
  isBYOKafka (tv_config v) = false ->
  IsPaused (hs_Hub mgh0) = false -> gh_Deleting (hs_Hub mgh0) = false ->
  kafka_reconcile (Ok (Some mgh0)) agentsRemoved v w = Ret (after0, e0, v0, w0) -> tv_installer v0 = Some k ->
  teardown v0 l v1 ->
  IsPaused (hs_Hub mgh) = false -> gh_Deleting (hs_Hub mgh) = true ->
  transport_reconcile (Ok (Some mgh)) started v1 w1 = Ret (after, e, v', w2) ->
  (tv_removed v' = true <-> Exists (removed_at k) l) /\ after = (if tv_removed v' then 0%Z else 5%Z) /\
  forall p, removed_at k p ->
    (forall n o, kobjects p.2 CTopic !! n = Some o -> n.1 <> ns) /\
    kobjects p.2 CKafka !! (ns, kafkaClusterName (in_cluster k)) = None /\
    kobjects p.2 CSubscription !! (ns, subName k) = None.
Proof.
  intros Hb Hp0 Hd0 E0 Hk Hrun Hp Hd. destruct (live_operand_keeps_kafka _ _ _ _ _ _ _ _ Hp0 Hd0 E0) as [Hf Hc].
  destruct (teardown_flag k v0 l v1 ltac:(by rewrite Hc) Hf Hk Hrun) as (Hbv & _ & Hiff).
  unfold transport_Reconcile, transport_delete. rewrite Hp, Hd, Hbv. cbn. intros E. split; [|split].
  - destruct (tv_kafkaRemoved v1) eqn:Ekv; injection E as _ _ <- _; cbn; by rewrite ?Ekv.
  - destruct (tv_kafkaRemoved v1) eqn:Ekv; injection E as <- _ <- _; cbn; by rewrite ?Ekv.
  - intros p Hpr. destruct (removed_resources_are_gone _ _ _ _ Hpr) as (? & ? & ? & _). done.
Qed.

(** Only the failures of the readiness check are reported: when the installation
    fails, the status tells what it told before. *)
Lemma failed_install_reports_the_last_state mgh v k b e k' (w w1 : W) :
  tv_installer v = Some k -> IsPaused (hs_Hub mgh) = false -> gh_Deleting (hs_Hub mgh) = false -> hs_EnableMetrics mgh = true ->
  EnsureKafka range Render known (tv_config v) mgh k w = Ret (b, Some e, k', w1) ->
  exists v', kafka_reconcile (Ok (Some mgh)) false v w =
    Ret (0%Z, Some e, v', report now mghNamespacedName (getKafkaComponentStatus None (tv_status v) (tv_conn v)) (tv_updateKafka v) w1).
Proof.
  intros Hk Hp Hd Hm He. unfold kafka_Reconcile, kafka_install. rewrite Hk, Hp, Hd, Hm. cbn. rewrite He. cbn. by eexists.
Qed.

(** A secret that can no longer be read is an error of the reconciliation, and the
    status still says that the connection is set with it. *)
Lemma unread_secret_reports_the_connection mgh started v conn c e (w w1 : W) :
  IsPaused (hs_Hub mgh) = false -> gh_Deleting (hs_Hub mgh) = false -> tv_conn v = Some conn ->
  SetTransportConfig (hs_Hub mgh) (tv_config v) w = (None, c, w1) -> transporterProtocol c = SecretTransporter -> isBYOKafka c = true ->
  byo_GetConnCredential c (hs_Namespace mgh) GHTransportSecretName w1 = Ret (Err e) ->
  exists v', transport_reconcile (Ok (Some mgh)) started v w =
    Ret (0%Z, Some e, v', report now mghNamespacedName
      (kafka_condition "TransportConnection" CONDITION_STATUS_TRUE "TransportConnectionSet"
         "Use customized transport, connection has set using provided secret") (tv_updateTransport v) w1).
Proof.
  intros Hp Hd Hc Hs Ht Hb Hr. unfold transport_Reconcile, transport_install. rewrite Hp, Hd, Hs, Ht. cbn -[byo_GetConnCredential].
  rewrite Hr. cbn. rewrite Hb, Hc. by eexists.
Qed.
End Controllers.

(** ** Runs *)
Module Sample.

(** RFC 7386, and a text replaces a text. *)
#[export] Instance sample_merge : KafkaMerge := {|
  merge_config e d := d;
  merge_spec e d := Ok (@patch_spec {| merge_config _ d := d; merge_spec _ d := Ok d; merge_kafka _ d := Ok d |} e d);
  merge_kafka e d :=
    Ok (MkKafkaCluster (kk_Key e) (kk_UID e) (kk_Labels d ∪ kk_Labels e) (kk_Annotations d ∪ kk_Annotations e)
          (match kk_Spec e, kk_Spec d with
           | Some s, Some s' => Some (@patch_spec {| merge_config _ d := d; merge_spec _ d := Ok d; merge_kafka _ d := Ok d |} s s')
           | s, s' => patch_opt s s'
           end) (kk_Status e));
|}.
#[export] Program Instance sample_merge_laws : KafkaMergeLaws.
Next Obligation. by intros e d s [= <-]. Qed.
Next Obligation. intros e d u [= <-]. done. Qed.
Next Obligation. done. Qed.
Next Obligation. done. Qed.

Definition hub : GlobalHub := MkGlobalHub ("gh", "hub") ∅ false false "gh-spec" "gh-status.*".
Definition placed : HubSettings :=
  MkSettings hub false true (Some {["infra" := "yes"]}) (Some ["infra:NoSchedule"]) "pull" "10Gi" "".
Definition unplaced : HubSettings := MkSettings hub false true None None "" "10Gi" "".
Definition installer : Installer := NewStrimziTransporter None placed false.

Notation conn_world := (kstore (K := conn_kind)).
Definition no_objects : conn_world := fun _ => ∅.
Definition after (o : outcome (option goerror * bool * conn_world)) : conn_world :=
  match o with Ret (_, _, w) => w | _ => no_objects end.
Definition answered (o : outcome (option goerror * bool * conn_world)) : option bool :=
  match o with Ret (None, b, _) => Some b | _ => None end.
Lemma answered_Ret o b : answered o = Some b -> o = Ret (None, b, after o).
Proof. by destruct o as [[[[e|] c] w]| | |]; [|intros [= ->]|..]. Qed.

Definition placed_world : conn_world := after (CreateUpdateKafkaCluster map_to_list installer placed no_objects).

(** The selector of the sample has one entry, so another order is the same. *)
Definition other_order (m : gmap string string) : list (string * string) := reverse (map_to_list m).
Lemma installed_cluster_converges_witness :
  CreateUpdateKafkaCluster other_order installer placed placed_world = Ret (None, false, placed_world).
Proof.
  assert (CreateUpdateKafkaCluster map_to_list installer placed no_objects = Ret (None, true, placed_world)) as E.
  { apply answered_Ret. vm_compute. reflexivity. }
  apply (installed_cluster_converges map_to_list other_order installer placed no_objects placed_world true); [|exact kstore_responsive|..].
  - apply small_selector_has_one_order; [done|intros m; apply reverse_Permutation|].
    intros m [= <-]. vm_compute. lia.
  - intros e d. by eexists.
  - reflexivity.
  - exact E.
Defined.

Lemma placed_found : exists s, kget placed_world CKafka ("gh", "kafka") = Found (newKafkaCluster map_to_list installer placed) /\
  kk_Spec (newKafkaCluster map_to_list installer placed) = Some s /\ ks_Template s = Some (wanted map_to_list placed).
Proof. eexists. split; [reflexivity|]. split; reflexivity. Qed.

(** The operand asks for no place any more, and its pods keep the old one. *)
Lemma removed_placement_stays_witness :
  exists o s, kobjects (after (CreateUpdateKafkaCluster map_to_list installer unplaced placed_world)) CKafka !! ("gh", "kafka") = Some o /\
    kk_Spec o = Some s /\ ks_Template s = Some (wanted map_to_list placed).
Proof.
  destruct placed_found as (s & Hg & Hs & Ht).
  destruct (removed_placement_stays map_to_list installer unplaced (newKafkaCluster map_to_list installer placed) s placed_world
    (after (CreateUpdateKafkaCluster map_to_list installer unplaced placed_world)) false eq_refl eq_refl eq_refl Hg Hs) as (o & s' & Ho & Hs' & Ht' & _).
  - apply answered_Ret. vm_compute. reflexivity.
  - exists o, s'. split; [exact Ho|]. split; [exact Hs'|]. by rewrite Ht', Ht.
Defined.

(** A status topic without a dot: the topic that stands for the global hub is made
    under one name and its replicas are looked for under another. *)
Lemma dotless_topic_is_never_found :
  km_StatusPlaceholderTopic (kafka_manifests (MkTransportConfig StrimziTransporter false false "spec" "status*") installer placed) = "statusglobal-hub" /\
  isValidKafkaTopicName "status*" = true /\ remove_all ".*" 0 "status*" +:+ ".global-hub" = "status*.global-hub".
Proof. split_and!; reflexivity. Qed.

(** ** The removal *)
Definition sub : Subscription := MkSubscription ("gh", "strimzi-kafka-operator") ∅ (sb_Spec (newSubscription installer placed)) "amq.v2.8".
Definition stuck_world : conn_world := kalter CSubscription ("gh", "strimzi-kafka-operator") (Some sub) no_objects.

Lemma missing_version_blocks_the_removal_witness :
  let r := pruneStrimziResources "gh" installer stuck_world in r.1 = PruneError "not found" /\ r.1 <> PruneDone /\ stuck "gh" installer sub r.2.
Proof.
  intros r. split; [vm_compute; reflexivity|].
  apply (missing_version_blocks_the_removal "gh" installer sub stuck_world r.2 r.1).
  - discriminate.
  - split; reflexivity.
  - apply surjective_pairing.
Defined.

Definition world : Type := (conn_world * (kstore (K := op_kind) * (kstore (K := dyn_kind) * hub_store)))%type.
#[export] Instance conn_of : KubeClient world conn_kind := left_client.
#[export] Instance conn_server : KubeServer world conn_kind := left_server.
Definition op_of : KubeClient (kstore (K := op_kind) * (kstore (K := dyn_kind) * hub_store)) op_kind := left_client.
Definition dyn_of : KubeClient (kstore (K := dyn_kind) * hub_store) dyn_kind := left_client.
Definition hub_of : KubeClient (kstore (K := dyn_kind) * hub_store) hub_kind := right_client.
#[export] Instance op_client : KubeClient world op_kind := right_client (KubeClient0 := op_of).
#[export] Instance dyn_client : KubeClient world dyn_kind := right_client (KubeClient0 := right_client (KubeClient0 := dyn_of)).
#[export] Instance hub_client : KubeClient world hub_kind := right_client (KubeClient0 := right_client (KubeClient0 := hub_of)).
#[export] Instance hub_status : StatusClient world := {|
  status_of w n := status_of w.2.2.2 n;
  put_status w n s := let '(r, h) := put_status w.2.2.2 n s in (r, (w.1, (w.2.1, (w.2.2.1, h))));
|}.
#[local] Instance retrier : Retrier := retrier_of 5 (String.eqb "conflict").

Definition leaving : HubSettings :=
  MkSettings (MkGlobalHub ("gh", "hub") ∅ true false "gh-spec" "gh-status.*") false true None None "" "10Gi" "".
Definition vars : TransportVars :=
  MkVars (MkTransportConfig StrimziTransporter false false "gh-spec" "gh-status.*") (Some installer) None true kafka_waiting false false false
    false (None, None).

(** A cluster with a topic, its volume and the subscription, whose version is there. *)
Definition plain (ns name : string) (l : gmap string string) : PlainObject := MkPlain (ns, name) l ∅ [] false.
Definition running : conn_world :=
  kalter CTopic ("gh", "gh-spec") (Some (plain "gh" "gh-spec" ∅ : kobj CTopic))
    (kalter CVolume ("gh", "data-kafka-0") (Some (plain "gh" "data-kafka-0" {["strimzi.io/cluster" := "kafka"]} : kobj CVolume))
      (kalter CServiceVersion ("gh", "amq.v2.8") (Some (MkServiceVersion ("gh", "amq.v2.8") "Succeeded" : kobj CServiceVersion))
        (kalter CSubscription ("gh", "strimzi-kafka-operator") (Some sub) placed_world))).
Definition empty_hub : hub_store := (fun _ => ∅, fun _ => MkStatus [] None "").
Definition busy : world := (running, (fun _ => ∅, (fun _ => ∅, empty_hub))).
#[local] Existing Instance Deployer.Sample.sample_derivative.
#[local] Existing Instance Deployer.Sample.sample_typed.
#[local] Existing Instance Deployer.Sample.sample_mapper.
Definition reconcile (mgh : HubSettings) (agentsRemoved : bool) (v : TransportVars) (w : world) : outcome (Z * option goerror * TransportVars * world) :=
  kafka_Reconcile map_to_list 0 (fun _ => Ok []) (Ok true) ("gh", "hub") "gh" (Ok (Some mgh)) agentsRemoved v w.
Definition result_of (o : outcome (Z * option goerror * TransportVars * world)) : option (Z * option goerror * TransportVars) :=
  match o with Ret (a, _) => Some a | _ => None end.
Definition world_of (o : outcome (Z * option goerror * TransportVars * world)) : world :=
  match o with Ret (_, w) => w | _ => busy end.
Lemma result_Ret o a : result_of o = Some a -> o = Ret (a, world_of o).
Proof. destruct o as [[x w]| | |]; cbn; [by intros [= ->]|done..]. Qed.

(** The operand is reconciled, deleted, and seen by the Kafka controller before and
    after the agents are removed. *)
Definition staying : HubSettings := MkSettings hub false true None None "" "10Gi" "".
Definition lived : outcome (Z * option goerror * TransportVars * world) := reconcile staying false vars busy.
Definition lived_vars : TransportVars := match result_of lived with Some (_, v) => v | None => vars end.
Definition last_look (v : TransportVars) : outcome (Z * option goerror * TransportVars * world) :=
  transport_Reconcile map_to_list 0 (fun _ => Ok []) (Ok true) ("gh", "hub") false (Ok (Some leaving)) None v busy.

Lemma kafka_goes_after_the_agents_witness :
  let w' := world_of (reconcile leaving true lived_vars busy) in
  result_of (last_look (set_kafkaRemoved true lived_vars)) =
    Some (0%Z, None, set_conn None (set_removed true (set_kafkaRemoved true lived_vars))) /\
  Exists (removed_at "gh" installer) [(busy, w')] /\
  (forall n o, kobjects w' CTopic !! n = Some o -> n.1 <> "gh") /\ kobjects w' CKafka !! ("gh", "kafka") = None /\
  kobjects w' CSubscription !! ("gh", "strimzi-kafka-operator") = None.
Proof.
  intros w'.
  assert (lived = Ret (5%Z, None, lived_vars, world_of lived)) as E0.
  { apply result_Ret. vm_compute. reflexivity. }
  assert (reconcile leaving false lived_vars busy = Ret (5%Z, None, lived_vars, world_of (reconcile leaving false lived_vars busy))) as E1.
  { apply result_Ret. vm_compute. reflexivity. }
  assert (reconcile leaving true lived_vars busy = Ret (0%Z, None, set_kafkaRemoved true lived_vars, w')) as E2.
  { apply result_Ret. vm_compute. reflexivity. }
  assert (result_of (last_look (set_kafkaRemoved true lived_vars)) =
    Some (0%Z, None, set_conn None (set_removed true (set_kafkaRemoved true lived_vars)))) as E3 by (vm_compute; reflexivity).
  split; [exact E3|]. apply result_Ret in E3.
  destruct (kafka_goes_after_the_agents map_to_list 0 (fun _ => Ok []) (Ok true) ("gh", "hub") "gh" false staying leaving false None
    vars lived_vars (set_kafkaRemoved true lived_vars) [(busy, w')] installer
    busy (world_of lived) busy (world_of (last_look (set_kafkaRemoved true lived_vars)))
    5 None 0 None (set_conn None (set_removed true (set_kafkaRemoved true lived_vars))) eq_refl eq_refl eq_refl E0) as (Hiff & _ & Hgone).
  - vm_compute. reflexivity.
  - eapply (teardown_kafka _ _ _ _ _ _ _ _ _ _ leaving true); [|reflexivity|reflexivity|exact E2].
    eapply (teardown_kafka _ _ _ _ _ _ _ _ _ _ leaving false); [apply teardown_starts|reflexivity|reflexivity|exact E1].
  - reflexivity.
  - reflexivity.
  - exact E3.
  - assert (removed_at "gh" installer (busy, w')) as Hp.
    { pose proof (proj1 Hiff eq_refl) as Hx. apply Exists_cons in Hx as [Hp|Hx]; [exact Hp|by apply Exists_nil in Hx]. }
    split; [by apply Exists_cons_hd|]. exact (Hgone _ Hp).
Defined.
End Sample.
